(* ===== verification/_CoqProject ===== *)
-Q . S2P
Prelude.v
CxxString.v
MersenneTwister.v
DbLru.v
DbLruInv.v
DbLruRefine.v
Commands.v
CommandsParse.v
CommandsSpec.v
CommandsGet.v
Connection.v
ConnectionSpec.v
ThreadPool.v
SocketMain.v
Main.v
Demo.v
HashWords.v
HashMd5.v
HashSmall.v
HashkitString.v
RijndaelTables.v
Rijndael.v
RijndaelSpec.v
RijndaelKeys.v
Aes.v
HashKit.v
ClientTypes.v
ByteOrder.v
ClientString.v
Continuum.v
Distribution.v
ClientState.v
BinaryProtocol.v
ClientRead.v
ClientBinary.v
ClientReadSpec.v
ClientBinarySpec.v
ClientWrite.v
ClientConnect.v
ClientConnectSpec.v
ClientWriteSpec.v
ClientOps.v
ClientBinaryOps.v
ClientBehavior.v
ClientClone.v
ClientPool.v
ClientPoolSpec.v
ClientFrame.v
ClientGet.v
ClientAdmin.v
ClientStats.v
ClientFrameOps.v
ClientStatsSpec.v
ClientBinaryStoreSpec.v
ClientGetSpec.v
ContinuumSpec.v
TheoremsHash.v
TheoremsDist.v
TheoremsAes.v
TheoremsDb.v
TheoremsCmd.v
TheoremsSock.v
DemoClient.v
TheoremsStats.v
ClientServers.v
ConfigTables.v
ConfigScanner.v
ConfigScannerSpec.v
ConfigRules.v
ConfigParser.v
ConfigGrammar.v
ConfigPrint.v
TheoremsBehavior.v
ClientControl.v
ClientPoolSettings.v
TheoremsPool.v
TheoremsControl.v
TheoremsConfig.v
TheoremsNet.v
TheoremsClient.v
