(* ===== verification/Prelude.v ===== *)
(** * memstashed: a verification library

    memstashed is a memcached-compatible cache server. This library models the server
    (src/src and src/inc) and the client library that is vendored with it
    (src/libmemcached/libhashkit, libmemcached and libmemcachedutil), and proves the theorems
    below about the models.

    ** The program and its parts

    [main] (smain.cpp) reads the options and calls [socketMain] (ssock.cpp). The main thread
    listens, waits in [select], accepts connections and puts every readable descriptor into a
    list that a pool of worker threads serves. A worker runs [sockHandleIncomingConn] on a
    descriptor: it receives up to 80 characters at a time, cuts the stream at ends of line and
    hands each command to [cmdProcessCommand] (scmd.cpp), which parses it and calls the
    database (dblru.cpp). The database has ten buckets, each with a hash table and a set
    ordered by time of use under a pair of mutexes, and evicts from them when the memory
    limit is reached.

    The client library reaches such servers. A client ([memcached_st]) has servers, settings and
    a distribution, which says by a hash of libhashkit which server has a key. An operation
    (storage.cc, get.cc, ...) puts a request of the text or the binary protocol into the output
    buffer of the server, connects to it if need be (connect.cc), and reads responses out of its
    input buffer (io.cc, response.cc). Clients are made from configuration strings (csl/) and
    kept in pools (libmemcachedutil/pool.cc).

    ** Files: the server

    - Prelude: the data model ([ILP32], [LP64]), machine integers, the monad of state,
      exceptions and faults, arrays.
    - CxxString: [std::string], [stoul], [to_string], as the source uses them.
    - MersenneTwister: [std::mt19937_64], which draws the cas unique values.
    - DbLru: dblru.cpp. [World] holds its globals, [Env] what it reads from outside (the
      clock, failing allocations, uninitialised memory). Every function has a definition of
      its own name; the two loops that make room are [insert_make_room] and [add_make_room],
      what follows them [insert_place] and [add_place]. DbLruInv: the invariant [wf], the
      closed form of every operation in a world without locked mutexes, and the eviction loops.
    - DbLruRefine: the abstract cache (module [Cache]), the interface [Database] (sprot.h) as a
      class with its laws [DatabaseLaws]; dblru.cpp keeps the laws ([World_Laws]).
    - Commands: scmd.cpp, every [cmdProcess...] function over [Database]. CommandsParse: how
      the position arithmetic reads a well-formed line. CommandsSpec, CommandsGet: what the
      commands do, alone and in sequence, proved against [DatabaseLaws] alone.
    - Connection: [sockHandleIncomingConn] over the results of [recv]. ConnectionSpec: how it
      cuts a stream of requests.
    - ThreadPool: [socketThread] and the hand-over of [socketMain] as a state machine of
      atomic steps; SocketMain: the rest of [socketMain] over the results of system calls.
    - Main: [main] of smain.cpp. Demo: a concrete machine on which the theorems are applied.

    ** Files: libhashkit

    - HashWords (with jenkins.cc), HashMd5, HashSmall (the other hash functions), HashKit (the
      front end, and the values that tests/hash_results.h expects, computed by the model).
    - RijndaelTables, Rijndael: rijndael.cc; RijndaelSpec, RijndaelKeys: FIPS-197 and that
      the tables, the key schedules and the ciphers are its. Aes: aes.cc and encrypt.cc.
    - HashkitString: string.cc, and the allocator as a class.

    ** Files: libmemcached

    - ClientTypes: the client object and its enumerations. ClientString: string.cc. Continuum,
      Distribution: hash.cc, hosts.cc, virtual_bucket.c; ContinuumSpec: the ring of points.
    - ClientState: the running client, [Root] for what the client has and [Inst] for what each
      server has, the results of system calls to come, error.cc. A computation on one server is
      an [IO], one on the whole client an [SIO].
    - ByteOrder, BinaryProtocol: numbers and packets of the binary protocol.
    - ClientRead, ClientBinary: the input half of io.cc, response.cc and result.cc, for both
      protocols; ClientWrite: the output half, purge.cc, do.cc, quit.cc; ClientConnect:
      connect.cc, udp.cc. Between them are the classes [BinaryReader] and [Transport], which
      ClientBinary and ClientConnect implement. ClientReadSpec, ClientBinarySpec,
      ClientWriteSpec, ClientConnectSpec: what they do.
    - ClientOps, ClientBinaryOps, ClientGet: storage.cc, delete.cc, auto.cc, touch.cc, get.cc
      and fetch.cc, over the classes [KeyRouter] and [BinaryRequests]; ClientAdmin: flush.cc,
      version.cc, exist.cc; ClientStats: stats.cc; ClientBehavior: behavior.cc; ClientServers:
      server_list.cc, parse.cc, namespace.cc and the adding of servers; ClientClone:
      memcached.cc; ClientControl: dump.cc, verbosity.cc, analyze.cc, flag.cc, callback.cc and
      the small functions of libmemcachedutil. ClientBinaryStoreSpec, ClientGetSpec,
      ClientStatsSpec: whole operations. ClientFrame, ClientFrameOps: what no operation changes.
    - ClientPool, ClientPoolSpec, ClientPoolSettings: pool.cc, its invariant, and the settings
      of its clients.
    - ConfigTables, ConfigScanner, ConfigParser: the automata that flex and bison wrote
      (scanner.cc, parser.cc), with the actions, the context they share and options.cc.
      ConfigScannerSpec, ConfigRules: the regular expressions of scanner.l and that the
      automaton finds what they say; ConfigGrammar: the grammar of parser.yy as a recursive
      descent; ConfigPrint: directives and their text.
    - DemoClient: a concrete client.

    ** What the theorems show

    - TheoremsDb: the database refines the abstract cache in every call
      ([database_refines_cache]); its states stay well-formed and unlocked; its eviction loops
      end; what eviction chooses.
    - TheoremsCmd: each command, on every well-formed line, answers and changes the cache as the
      protocol says, its error answers included; set followed by get is a round trip.
    - TheoremsSock: a connection serves a stream of requests in order and once, in whatever
      pieces it arrives, and its loop ends on every input; the worker pool serves every
      descriptor once, in order, in every interleaving of its atomic steps.
    - TheoremsHash, TheoremsAes: Jenkins' hash does not depend on the alignment of the key, MD5
      is RFC 1321, CRC-32 is the bitwise division, rijndael.cc is FIPS-197 and a value that was
      encrypted is decrypted to itself inside its buffers.
    - TheoremsDist: the search in the continuum finds the owner of a hash, every key has a live
      server, and only the keys of a server that drops out move.
    - TheoremsClient: the client of libmemcached and the server of this repository together:
      what [memcached_set] stores is what [memcached_get] returns, however both streams are cut.
    - TheoremsNet: the requests and responses of the binary protocol, and the automaton that
      connecting to a failing server refines.
    - TheoremsBehavior: settings keep their types and conditions and are read back as they were
      set. TheoremsPool: no client of a pool is lent twice or lost, no wake-up is lost, and
      clients follow the settings of the master. TheoremsStats, TheoremsControl: statistics of
      all servers are read, kept and analysed; what the control functions do.
    - TheoremsConfig: the scanner follows its regular expressions and the parser its grammar on
      every text, and the text of directives has exactly their effect.
    - Where the code departs from its purpose the departure is a theorem as well: a bucket
      with one live entry deadlocks the insertion that evicts from it, a key hidden by
      flush_all stays hidden after set, an empty value makes the connection lose its place, a
      weighted server overflows the continuum; as lemmas, an update with expiry 0 expires at
      once, incr on a text throws, one-word commands fail on 64-bit machines, a notification of
      the server's pool can be lost, a ping succeeds on an error, a dump aborts.

    ** Conventions, bounds and fuel

    A w-bit integer is a [Z] in range, with the conversion ([u32], [s32], [ulong]) written
    where the source converts. Exceptions are [Throw]; waiting for ever, undefined behaviour
    and used-up fuel are [Stuck]. Loops that are not structural take fuel, and the theorems
    that use them show that it is enough: [room_fuel] (every entry of the sets and twelve
    moves between buckets; [make_room_terminates]), [conn_fuel] (twice the events and
    characters to come; [connection_terminates]), one more than the length of the line in
    [read_keys] ([get_line_total]), one more than FD_SETSIZE in [scan], one more than the
    length of the key in the block loops of the hash functions. The loops of the client that
    read count the bytes and events to come ([junk_fuel], [fetch_fuel], [stat_fuel]), for every
    response takes a byte at least. The parser of configurations gets 16 + 14 n steps for a text
    of n characters, which is enough for every text shorter than [MAX_TEXT], 2^29; files that
    include one another are read to a depth that is an argument, since the code has no bound.
    [parse_options] can run for ever, which [unknown_option_never_ends] states for all fuel.

    The framing and session theorems are about the 32-bit data model (the repository was
    configured for i686); on 64-bit machines the comparison of an [unsigned int] with [npos]
    never holds, which [one_word_commands] states. The theorems on commands assume lines
    shorter than 2^32 - 1 characters and relative expiry times. What a client gets from outside
    (the kernel, the clock, the allocator, name lookup) are arguments: lists of results to come,
    or classes ([Allocator], [Clock], [Network], [MultiPoll]).

    ** Not modelled

    Messages to the server's console and the texts of error messages; the memory of the process
    beyond the accounting of the database; database calls of several workers at once (the pool is
    interleaved, a database call is one step of its thread); in libhashkit the 128-bit variants of
    Murmur3 and ketama.cc, which is compiled out; in libmemcached SASL, which is not compiled in,
    the calls of a client's callbacks from clone, free and get, and the multi-get with callbacks;
    its server protocol library, test framework, tests and command line tools; the test client of
    this repository, which is socket input and output only. *)

From stdpp Require Import base list gmap.
From Stdlib Require Import ZArith Lia.

#[export] Set Default Goal Selector "!".
#[export] Set Warnings "-clear-no-such-hyp".
Open Scope Z_scope.

(** ** The data model of the C++ implementation *)

(** [unsigned long] and [size_t] have the width of the platform; [unsigned int]
    and [int] have 32 bits on both. *)
Class DataModel := {
  long_bits : Z;
  long_bits_cases : long_bits = 32 \/ long_bits = 64;
}.

(** The platform the repository was built on (i686, see libmemcached/config.log). *)
Definition ILP32 : DataModel := {| long_bits := 32; long_bits_cases := or_introl eq_refl |}.

(** The usual 64-bit Linux platform. *)
Definition LP64 : DataModel := {| long_bits := 64; long_bits_cases := or_intror eq_refl |}.

Definition UINT_MOD : Z := 4294967296.

(** Conversions to the fixed-width types. *)
Definition u32 (x : Z) : Z := x mod UINT_MOD.
Definition s32 (x : Z) : Z := (x + 2147483648) mod UINT_MOD - 2147483648.
Definition u64 (x : Z) : Z := x mod 18446744073709551616.

Section Widths.
Context `{DM : DataModel}.

Definition ULONG_MOD : Z := if long_bits =? 32 then UINT_MOD else 18446744073709551616.
Definition ULONG_MAX : Z := ULONG_MOD - 1.
(** Conversion to [unsigned long], which is [size_t] too. *)
Definition ulong (x : Z) : Z := x mod ULONG_MOD.
Definition sizeof_ulong : Z := long_bits / 8.
Definition npos : Z := ULONG_MAX.
End Widths.

(** ** Effects: exceptions, faults and state *)

(** The C++ exceptions the program can raise (and catches or fails to catch). *)
Inductive exn :=
  | invalid_argument
  | out_of_range.

(** Outcomes outside the defined behaviour of the program: a thread that waits for a
    mutex nobody will release, undefined behaviour, a failed [assert], and fuel used up (a
    modelling artefact that the termination theorems exclude). *)
Inductive fault :=
  | Deadlock
  | Undefined
  | AssertionFailed
  | OutOfFuel.

Inductive outcome (A : Type) :=
  | Ret (a : A)
  | Throw (e : exn)
  | Stuck (f : fault).
Arguments Ret {A} a.
Arguments Throw {A} e.
Arguments Stuck {A} f.

(** A stateful computation: what it returns, and the state it leaves, also when it throws. *)
Definition ST (S A : Type) : Type := S -> outcome A * S.

Section Monad.
Context {S : Type}.

Definition ret {A} (a : A) : ST S A := fun s => (Ret a, s).
Definition throw {A} (e : exn) : ST S A := fun s => (Throw e, s).
Definition stuck {A} (f : fault) : ST S A := fun s => (Stuck f, s).
Definition bind {A B} (m : ST S A) (k : A -> ST S B) : ST S B := fun s =>
  match m s with
  | (Ret a, s') => k a s'
  | (Throw e, s') => (Throw e, s')
  | (Stuck f, s') => (Stuck f, s')
  end.
Definition gets {A} (f : S -> A) : ST S A := fun s => (Ret (f s), s).
Definition modify (f : S -> S) : ST S unit := fun s => (Ret tt, f s).
(** A call that may throw and does not touch the state. *)
Definition lift {A} (o : outcome A) : ST S A := fun s => (o, s).
(** [try { m } catch (const invalid_argument&) { h }] *)
Definition catch_invalid_argument {A} (m h : ST S A) : ST S A := fun s =>
  match m s with
  | (Throw invalid_argument, s') => h s'
  | r => r
  end.
End Monad.

(** The same sequencing for pure calls that may throw. *)
Definition obind {A B} (m : outcome A) (k : A -> outcome B) : outcome B :=
  match m with
  | Ret a => k a
  | Throw e => Throw e
  | Stuck f => Stuck f
  end.

Declare Scope cxx_scope.
Delimit Scope cxx_scope with cxx.
Notation "'let*' x ':=' m 'in' k" := (bind m (fun x => k))
  (at level 10, x pattern, m at level 100, k at level 200) : cxx_scope.
Notation "'let?' x ':=' m 'in' k" := (obind m (fun x => k))
  (at level 10, x pattern, m at level 100, k at level 200) : cxx_scope.
Notation "m ;;; k" := (bind m (fun _ => k))
  (at level 199, right associativity) : cxx_scope.
Open Scope cxx_scope.

Create HintDb cxx.
Create Rewrite HintDb cxx.

Section MonadLemmas.
Context {S : Type}.

Lemma bind_Ret {A B} (m : ST S A) (k : A -> ST S B) s a s' :
  m s = (Ret a, s') -> bind m k s = k a s'.
Proof. intros H. unfold bind. by rewrite H. Qed.

Lemma bind_Throw {A B} (m : ST S A) (k : A -> ST S B) s e s' :
  m s = (Throw e, s') -> bind m k s = (Throw e, s').
Proof. intros H. unfold bind. by rewrite H. Qed.

Lemma bind_Stuck {A B} (m : ST S A) (k : A -> ST S B) s f s' :
  m s = (Stuck f, s') -> bind m k s = (Stuck f, s').
Proof. intros H. unfold bind. by rewrite H. Qed.

Lemma bind_inv_Ret {A B} (m : ST S A) (k : A -> ST S B) s b s' :
  bind m k s = (Ret b, s') -> exists a s1, m s = (Ret a, s1) /\ k a s1 = (Ret b, s').
Proof. unfold bind. destruct (m s) as [[a|e|f] s1]; naive_solver. Qed.

(** Monad laws, as pointwise equations. *)
Lemma bind_assoc {A B C} (m : ST S A) (k : A -> ST S B) (h : B -> ST S C) s :
  bind (bind m k) h s = bind m (fun a => bind (k a) h) s.
Proof. unfold bind. by destruct (m s) as [[]]. Qed.
End MonadLemmas.

(** Runs the sequencing of a computation whose first call is an equation of the context. *)
Ltac run H := rewrite (bind_Ret _ _ _ _ _ H).

(** ** Machine integers *)

Section WidthLemmas.
Context `{DM : DataModel}.

Lemma ULONG_MOD_eq : ULONG_MOD = 2 ^ long_bits.
Proof. unfold ULONG_MOD. by destruct long_bits_cases as [-> | ->]. Qed.

Lemma ULONG_MOD_ge : UINT_MOD <= ULONG_MOD.
Proof. unfold ULONG_MOD, UINT_MOD. by destruct long_bits_cases as [-> | ->]. Qed.

Lemma sizeof_ulong_cases : sizeof_ulong = 4 \/ sizeof_ulong = 8.
Proof. unfold sizeof_ulong. destruct long_bits_cases as [-> | ->]; [left|right]; reflexivity. Qed.

Lemma ulong_small x : 0 <= x < ULONG_MOD -> ulong x = x.
Proof. apply Z.mod_small. Qed.

Lemma ulong_range x : 0 <= ulong x < ULONG_MOD.
Proof. apply Z.mod_pos_bound. pose proof ULONG_MOD_ge. unfold UINT_MOD in *. lia. Qed.
End WidthLemmas.

Lemma u32_small x : 0 <= x < UINT_MOD -> u32 x = x.
Proof. apply Z.mod_small. Qed.

Lemma u32_range x : 0 <= u32 x < UINT_MOD.
Proof. by apply Z.mod_pos_bound. Qed.

Lemma s32_small x : -2147483648 <= x < 2147483648 -> s32 x = x.
Proof. intros H. unfold s32, UINT_MOD. rewrite Z.mod_small; lia. Qed.

Lemma s32_range x : -2147483648 <= s32 x < 2147483648.
Proof.
  unfold s32, UINT_MOD. pose proof (Z.mod_pos_bound (x + 2147483648) 4294967296). lia.
Qed.

#[export] Hint Resolve ulong_range u32_range : cxx.
#[export] Hint Rewrite @ulong_small u32_small s32_small using lia : cxx.

(** ** Arrays of fixed length *)

(** [a[i]] and [a[i] = x] on an array whose index is in range: the index comes from
    [getHashTblNbrFromKey] or from a counter that wraps at the length. *)
Definition aget {A} `{Inhabited A} (a : list A) (i : Z) : A := a !!! Z.to_nat i.
Definition aset {A} (a : list A) (i : Z) (x : A) : list A := <[Z.to_nat i := x]> a.

Definition in_range {A} (a : list A) (i : Z) : Prop := 0 <= i < Z.of_nat (length a).

Section Arrays.
Context {A : Type} `{Inhabited A}.
Implicit Types a : list A.

Lemma aget_aset_eq a i x : in_range a i -> aget (aset a i x) i = x.
Proof. unfold in_range, aget, aset. intros. apply list_lookup_total_insert_eq. lia. Qed.

Lemma aget_aset_ne a i j x : 0 <= i -> 0 <= j -> i <> j -> aget (aset a i x) j = aget a j.
Proof. unfold aget, aset. intros. apply list_lookup_total_insert_ne. lia. Qed.

Lemma length_aset a i x : length (aset a i x) = length a.
Proof. apply length_insert. Qed.

Lemma in_range_aset a i j x : in_range (aset a i x) j <-> in_range a j.
Proof. unfold in_range. by rewrite length_aset. Qed.

Lemma aset_aset a i x y : aset (aset a i x) i y = aset a i y.
Proof. apply list_insert_insert_eq. Qed.

Lemma aset_aget a i : in_range a i -> aset a i (aget a i) = a.
Proof.
  unfold in_range, aget, aset. intros. apply list_insert_id.
  apply list_lookup_lookup_total_lt. lia.
Qed.
End Arrays.
