(* ===== verification/CxxString.v ===== *)
(** * The part of [std::string] and of the number conversions the server uses

    A [std::string] is the list of its characters. [find], [substr], [stoul] and
    [to_string] are the library calls of scmd.cpp, ssock.cpp and dblru.cpp, with their
    documented results, exceptions included. Positions are [size_t] values ([Z]);
    where the source stores one in an [unsigned int], the caller converts with [u32]. *)

From stdpp Require Import base list strings.
From Stdlib Require Import ZArith Lia Ascii String.
From S2P Require Import Prelude.

Abbreviation cstring := (list ascii).

(** A string literal. *)
Definition lit (s : string) : cstring := list_ascii_of_string s.
Definition SP : ascii := ascii_of_nat 32.
Definition CR : ascii := ascii_of_nat 13.
Definition LF : ascii := ascii_of_nat 10.
Definition CRLF : cstring := [CR; LF].

(** The value of a [char]: signed on x86. *)
Definition uchar (c : ascii) : Z := Z.of_N (N_of_ascii c).
Definition schar (c : ascii) : Z := if uchar c <? 128 then uchar c else uchar c - 256.

Definition size (s : cstring) : Z := Z.of_nat (List.length s).

(** [s.compare(t) == 0] *)
Definition str_eqb (s t : cstring) : bool := bool_decide (s = t).

Fixpoint is_prefix (p s : cstring) : bool :=
  match p, s with
  | [], _ => true
  | _, [] => false
  | a :: p', b :: s' => Ascii.eqb a b && is_prefix p' s'
  end.

Section Find.
Context `{DM : DataModel}.

(** First occurrence of [pat] in [s], which starts at position [i]. *)
Fixpoint find_at (pat s : cstring) (i : Z) : Z :=
  if is_prefix pat s then i else
  match s with
  | [] => npos
  | _ :: s' => find_at pat s' (i + 1)
  end.

(** [s.find(pat, pos)] *)
Definition find_str (s pat : cstring) (pos : Z) : Z :=
  if size s <? pos then npos else find_at pat (drop (Z.to_nat pos) s) pos.

(** [s.find(c, pos)] *)
Definition find_char (s : cstring) (c : ascii) (pos : Z) : Z := find_str s [c] pos.

(** [s.substr(pos, n)] *)
Definition substr (s : cstring) (pos n : Z) : outcome cstring :=
  if size s <? pos then Throw out_of_range
  else Ret (take (Z.to_nat (Z.min n (size s - pos))) (drop (Z.to_nat pos) s)).

(** ** Numbers *)

Definition isspace (c : ascii) : bool := (uchar c =? 32) || ((9 <=? uchar c) && (uchar c <=? 13)).
Definition isdigit (c : ascii) : bool := (48 <=? uchar c) && (uchar c <=? 57).

Fixpoint skip_spaces (s : cstring) : cstring :=
  match s with
  | c :: s' => if isspace c then skip_spaces s' else s
  | [] => []
  end.

Fixpoint digit_prefix (s : cstring) : cstring :=
  match s with
  | c :: s' => if isdigit c then c :: digit_prefix s' else []
  | [] => []
  end.

Definition dec_value (ds : cstring) : Z :=
  fold_left (fun acc c => acc * 10 + (uchar c - 48)) ds 0.

(** [stoul(s)]: [strtoul] in base 10 on the whole string, leading white space and a
    sign accepted, the rest after the digits ignored. *)
Definition stoul (s : cstring) : outcome Z :=
  let s1 := skip_spaces s in
  let '(neg, s2) :=
    match s1 with
    | c :: s' => if Ascii.eqb c "-" then (true, s')
                 else if Ascii.eqb c "+" then (false, s') else (false, s1)
    | [] => (false, s1)
    end in
  let ds := digit_prefix s2 in
  match ds with
  | [] => Throw invalid_argument
  | _ :: _ =>
    let v := dec_value ds in
    if ULONG_MAX <? v then Throw out_of_range
    else Ret (if neg then ulong (- v) else v)
  end.
End Find.

Definition digit (d : Z) : ascii := ascii_of_N (Z.to_N (48 + d)).

Fixpoint digits (fuel : nat) (n : Z) : cstring :=
  match fuel with
  | O => []
  | S fuel' => if n <? 10 then [digit n] else digits fuel' (n / 10) ++ [digit (n mod 10)]
  end.

(** [to_string(n)] of an unsigned integer: a fuel of one more than the bits of [n] is
    enough, every division by ten removes at least one bit ([dec_value_to_string]). *)
Definition to_string (n : Z) : cstring := digits (S (Z.to_nat (Z.log2 n))) n.

(** ** Lemmas *)

Lemma size_nonneg s : 0 <= size s.
Proof. unfold size. lia. Qed.

Lemma size_app s t : size (s ++ t) = size s + size t.
Proof. unfold size. rewrite length_app. lia. Qed.

Lemma size_cons c s : size (c :: s) = 1 + size s.
Proof. unfold size. cbn [List.length]. lia. Qed.

Lemma size_nil : size [] = 0.
Proof. reflexivity. Qed.

Lemma size_CRLF : size CRLF = 2.
Proof. reflexivity. Qed.

#[export] Hint Rewrite size_app size_cons size_nil size_CRLF : cxx.
#[export] Hint Resolve size_nonneg : cxx.

Lemma str_eqb_eq s t : str_eqb s t = true <-> s = t.
Proof. unfold str_eqb. apply bool_decide_eq_true. Qed.

Lemma str_eqb_refl s : str_eqb s s = true.
Proof. by apply str_eqb_eq. Qed.

Lemma str_eqb_neq s t : s <> t -> str_eqb s t = false.
Proof. unfold str_eqb. apply bool_decide_eq_false. Qed.

Lemma drop_size_app s t : drop (Z.to_nat (size s)) (s ++ t) = t.
Proof. unfold size. rewrite Nat2Z.id. apply drop_app_length. Qed.

Section FindLemmas.
Context `{DM : DataModel}.

Lemma find_at_char_absent c s i : c ∉ s -> find_at [c] s i = npos.
Proof.
  revert i. induction s as [|a s IH]; intros i Hc; [done|].
  apply not_elem_of_cons in Hc as [Hne Hc]. cbn.
  rewrite (proj2 (Ascii.eqb_neq c a) Hne). cbn. by apply IH.
Qed.

Lemma find_at_char_hit c w t i : c ∉ w -> find_at [c] (w ++ c :: t) i = i + size w.
Proof.
  revert i. induction w as [|a w IH]; intros i Hc; cbn.
  - rewrite Ascii.eqb_refl, size_nil. cbn. lia.
  - apply not_elem_of_cons in Hc as [Hne Hc].
    rewrite (proj2 (Ascii.eqb_neq c a) Hne). cbn. rewrite IH by done.
    rewrite size_cons. lia.
Qed.

(** A search for [\r\n] hits the first one when no [\r] comes before it. *)
Lemma find_at_crlf_hit w t i : CR ∉ w -> find_at CRLF (w ++ CRLF ++ t) i = i + size w.
Proof.
  revert i. induction w as [|a w IH]; intros i Hc.
  - rewrite size_nil, Z.add_0_r. reflexivity.
  - apply not_elem_of_cons in Hc as [Hne Hc].
    change ((a :: w) ++ CRLF ++ t) with (a :: (w ++ CRLF ++ t)).
    cbn [find_at is_prefix CRLF]. rewrite (proj2 (Ascii.eqb_neq _ a) Hne). cbn [andb].
    rewrite IH by done. rewrite size_cons. lia.
Qed.

Lemma find_at_crlf_absent w i : CR ∉ w -> find_at CRLF w i = npos.
Proof.
  revert i. induction w as [|a w IH]; intros i Hc; [done|].
  apply not_elem_of_cons in Hc as [Hne Hc].
  cbn [find_at is_prefix CRLF]. rewrite (proj2 (Ascii.eqb_neq _ a) Hne). by apply IH.
Qed.

Lemma find_str_after pre pat s : find_str (pre ++ s) pat (size pre) = find_at pat s (size pre).
Proof.
  unfold find_str. rewrite size_app, drop_size_app.
  pose proof (size_nonneg s). destruct (Z.ltb_spec (size pre + size s) (size pre)); [lia|done].
Qed.

Lemma find_str_0 pat s : find_str s pat 0 = find_at pat s 0.
Proof. apply (find_str_after []). Qed.

(** Where a hit is found it lies inside the string, at or after the start. *)
Lemma find_at_bounds pat s i : pat <> [] ->
  find_at pat s i = npos \/ i <= find_at pat s i <= i + size s - size pat.
Proof.
  intros Hp. revert i. induction s as [|a s IH]; intros i.
  - left. by destruct pat.
  - cbn [find_at]. destruct (is_prefix pat (a :: s)) eqn:E.
    + right. enough (size pat <= size (a :: s)) by lia.
      clear IH Hp. revert E. generalize (a :: s) as l. clear a s. intros l.
      revert l. induction pat as [|p pat IH]; intros l E; [rewrite size_nil; apply size_nonneg|].
      destruct l as [|b l]; [done|]. cbn in E. apply andb_prop in E as [_ E].
      apply IH in E. rewrite !size_cons. lia.
    + rewrite size_cons. destruct (IH (i + 1)) as [?|?]; [by left|right; lia].
Qed.

Lemma substr_ok pre w t n :
  size w = n -> substr (pre ++ w ++ t) (size pre) n = Ret w.
Proof.
  intros <-. unfold substr. rewrite !size_app, drop_size_app.
  pose proof (size_nonneg w). pose proof (size_nonneg t).
  destruct (Z.ltb_spec (size pre + (size w + size t)) (size pre)); [lia|].
  rewrite Z.min_l by lia. unfold size at 1. rewrite Nat2Z.id. by rewrite take_app_length.
Qed.

(** The rest of the string when the count is large, as with [npos]. *)
Lemma substr_rest pre w n :
  size w <= n -> substr (pre ++ w) (size pre) n = Ret w.
Proof.
  intros Hn. unfold substr. rewrite !size_app, drop_size_app.
  pose proof (size_nonneg w).
  destruct (Z.ltb_spec (size pre + size w) (size pre)); [lia|].
  rewrite Z.min_r by lia. f_equal. apply take_ge. unfold size. lia.
Qed.

Lemma substr_size s pos n w : 0 <= pos -> 0 <= n -> substr s pos n = Ret w ->
  size w = Z.min n (size s - pos).
Proof.
  unfold substr. intros Hp Hn. destruct (Z.ltb_spec (size s) pos); [done|].
  intros [= <-]. unfold size in *. rewrite length_take, length_drop. lia.
Qed.

Lemma substr_total s pos n : pos <= size s -> exists w, substr s pos n = Ret w.
Proof. intros. unfold substr. destruct (Z.ltb_spec (size s) pos); [lia|eauto]. Qed.
End FindLemmas.

(** ** Decimal printing and parsing *)

Lemma uchar_digit d : 0 <= d <= 9 -> uchar (digit d) = 48 + d.
Proof. intros H. unfold uchar, digit. rewrite N_ascii_embedding; lia. Qed.

Lemma isdigit_digit d : 0 <= d <= 9 -> isdigit (digit d) = true.
Proof. intros H. unfold isdigit. rewrite uchar_digit by lia. apply andb_true_intro. lia. Qed.

Lemma dec_value_snoc ds c : dec_value (ds ++ [c]) = dec_value ds * 10 + (uchar c - 48).
Proof. unfold dec_value. by rewrite fold_left_app. Qed.

(** Enough fuel: [n < 2 ^ fuel]. *)
Lemma digits_spec fuel n : 0 <= n < 2 ^ Z.of_nat fuel -> (0 < fuel)%nat ->
  dec_value (digits fuel n) = n /\ forallb isdigit (digits fuel n) = true /\ digits fuel n <> [].
Proof.
  revert n. induction fuel as [|fuel IH]; intros n Hn Hf; [lia|].
  cbn [digits]. destruct (Z.ltb_spec n 10).
  - repeat split; [|cbn; by rewrite isdigit_digit by lia|done].
    unfold dec_value. cbn [fold_left]. rewrite uchar_digit by lia. lia.
  - rewrite Nat2Z.inj_succ, Z.pow_succ_r in Hn by lia.
    assert (0 < fuel)%nat as Hf' by (destruct fuel; [change (2 ^ Z.of_nat 0) with 1 in Hn; lia|lia]).
    pose proof (Z.mod_pos_bound n 10).
    destruct (IH (n / 10)) as (Hv & Hd & _); [split; [apply Z.div_pos; lia|apply Z.div_lt_upper_bound; lia]|done|].
    rewrite dec_value_snoc, Hv, uchar_digit, forallb_app, Hd by lia. cbn.
    rewrite isdigit_digit by lia. repeat split; [|by destruct (digits fuel (n / 10))].
    pose proof (Z.div_mod n 10). lia.
Qed.

Lemma to_string_spec n : 0 <= n ->
  dec_value (to_string n) = n /\ forallb isdigit (to_string n) = true /\ to_string n <> [].
Proof.
  intros Hn. apply digits_spec; [|lia]. split; [done|].
  rewrite Nat2Z.inj_succ, Z2Nat.id by apply Z.log2_nonneg.
  destruct (decide (n = 0)) as [->|]; [done|]. apply Z.log2_spec. lia.
Qed.

Lemma digits_size fuel n d : 0 <= n < 10 ^ Z.of_nat d -> (0 < d)%nat -> size (digits fuel n) <= Z.of_nat d.
Proof.
  revert n d. induction fuel as [|fuel IH]; intros n d Hn Hd; cbn [digits]; [rewrite size_nil; lia|].
  destruct (Z.ltb_spec n 10); [rewrite size_cons, size_nil; lia|].
  destruct d as [|[|d]]; [lia|change (10 ^ Z.of_nat 1) with 10 in Hn; lia|].
  rewrite Nat2Z.inj_succ, Z.pow_succ_r in Hn by lia.
  rewrite size_app, size_cons, size_nil.
  specialize (IH (n / 10) (S d)). rewrite Nat2Z.inj_succ in IH |- *.
  enough (size (digits fuel (n / 10)) <= Z.succ (Z.of_nat d)) by lia. apply IH; [|lia].
  split; [apply Z.div_pos; lia|apply Z.div_lt_upper_bound; lia].
Qed.

Lemma to_string_size n d : 0 <= n < 10 ^ Z.of_nat d -> (0 < d)%nat -> size (to_string n) <= Z.of_nat d.
Proof. apply digits_size. Qed.

Lemma digit_prefix_app ds t :
  forallb isdigit ds = true ->
  match t with c :: _ => isdigit c = false | [] => True end ->
  digit_prefix (ds ++ t) = ds.
Proof.
  intros Hd Ht. induction ds as [|c ds IH]; cbn in *.
  - destruct t as [|c t]; [done|]. cbn. by rewrite Ht.
  - apply andb_prop in Hd as [-> Hd]. by rewrite IH.
Qed.

(** A digit is neither white space nor a sign. *)
Lemma isdigit_plain c : isdigit c = true ->
  isspace c = false /\ Ascii.eqb c "-" = false /\ Ascii.eqb c "+" = false.
Proof.
  intros H.
  assert (48 <= uchar c <= 57) as R by (unfold isdigit in H; apply andb_prop in H; lia).
  repeat split.
  - unfold isspace. apply orb_false_iff. split; [lia|]. apply andb_false_iff. lia.
  - apply Ascii.eqb_neq. intros ->. vm_compute in R. by destruct R as [[] []].
  - apply Ascii.eqb_neq. intros ->. vm_compute in R. by destruct R as [[] []].
Qed.

(** Characters of a printed number are digits, so no separator occurs in it. *)
Lemma to_string_no_sep n c : 0 <= n -> isdigit c = false -> c ∉ to_string n.
Proof.
  intros Hn Hc Hin. destruct (to_string_spec n Hn) as (_ & Hd & _).
  rewrite forallb_forall in Hd. apply list_elem_of_In, Hd in Hin. congruence.
Qed.

Section Stoul.
Context `{DM : DataModel}.

Lemma stoul_digits ds t :
  ds <> [] -> forallb isdigit ds = true ->
  match t with c :: _ => isdigit c = false | [] => True end ->
  stoul (ds ++ t) = if ULONG_MAX <? dec_value ds then Throw out_of_range else Ret (dec_value ds).
Proof.
  intros Hne Hd Ht. destruct ds as [|c ds]; [done|]. unfold stoul.
  assert (isdigit c = true) as Hc by (cbn in Hd; by apply andb_prop in Hd as [? _]).
  destruct (isdigit_plain c Hc) as (Hs & Hm & Hp).
  change ((c :: ds) ++ t) with (c :: (ds ++ t)). cbn [skip_spaces]. rewrite Hs, Hm, Hp.
  change (c :: ds ++ t) with ((c :: ds) ++ t). rewrite digit_prefix_app by done. done.
Qed.

(** Printing then parsing an [unsigned long] gives it back, whatever follows the digits. *)
Lemma stoul_to_string n t :
  0 <= n < ULONG_MOD ->
  match t with c :: _ => isdigit c = false | [] => True end ->
  stoul (to_string n ++ t) = Ret n.
Proof.
  intros Hn Ht. destruct (to_string_spec n) as (Hv & Hd & Hne); [lia|].
  rewrite stoul_digits, Hv by done. unfold ULONG_MAX.
  destruct (Z.ltb_spec (ULONG_MOD - 1) n); [lia|done].
Qed.

Lemma stoul_range s n : stoul s = Ret n -> 0 <= n < ULONG_MOD.
Proof.
  unfold stoul. destruct (match skip_spaces s with [] => _ | c :: s' => _ end) as [neg s2].
  destruct (digit_prefix s2) as [|c ds] eqn:E; [done|].
  destruct (Z.ltb_spec ULONG_MAX (dec_value (c :: ds))) as [|Hle]; [done|].
  intros [= <-]. destruct neg; [apply ulong_range|]. unfold ULONG_MAX in Hle.
  split; [|lia]. clear Hle. unfold dec_value.
  assert (forall l acc, forallb isdigit l = true -> 0 <= acc ->
    0 <= fold_left (fun acc c => acc * 10 + (uchar c - 48)) l acc) as Hpos.
  { induction l as [|a l IH]; intros acc Hl Ha; [done|]. cbn in *.
    apply andb_prop in Hl as [Hl1 Hl2]. apply IH; [done|].
    unfold isdigit in Hl1. apply andb_prop in Hl1. lia. }
  apply Hpos; [|lia]. rewrite <- E. clear. induction s2 as [|a s IH]; [done|].
  cbn. destruct (isdigit a) eqn:Ea; [cbn; by rewrite Ea|done].
Qed.
End Stoul.
