(* ===== verification/MersenneTwister.v ===== *)
(** * [std::mt19937_64]

    The engine that dblru.cpp draws the [cas unique] values from, as the C++ standard
    defines it (the parameters of [mersenne_twister_engine<uint_fast64_t, 64, 312, ...>]).
    The state is the list of the 312 words and the position of the next one. *)

From stdpp Require Import base list.
From Stdlib Require Import ZArith Lia.
From S2P Require Import Prelude.

Module MT.

Definition n : nat := 312.
Definition m : nat := 156.
Definition a : Z := 0xb5026f5aa96619e9.
Definition f : Z := 6364136223846793005.
Definition upper_mask : Z := 0xffffffff80000000.
Definition lower_mask : Z := 0x7fffffff.

Record engine := mkEngine { words : list Z; pos : nat }.

Fixpoint seed_words (k : nat) (i x : Z) : list Z :=
  match k with
  | O => []
  | S k' => x :: seed_words k' (i + 1) (u64 (f * Z.lxor x (Z.shiftr x 62) + (i + 1)))
  end.

(** [mt19937_64 generator (seed)] *)
Definition seed (s : Z) : engine := mkEngine (seed_words n 0 (u64 s)) n.

Definition mix (x y z : Z) : Z :=
  let w := Z.lor (Z.land x upper_mask) (Z.land y lower_mask) in
  Z.lxor (Z.lxor z (Z.shiftr w 1)) (if Z.odd w then a else 0).

Fixpoint mix_all (xs ys zs : list Z) : list Z :=
  match xs, ys, zs with
  | x :: xs', y :: ys', z :: zs' => mix x y z :: mix_all xs' ys' zs'
  | _, _, _ => []
  end.

(** One pass over the state: words [0 .. n-m-1] read old words only, the others read the
    words that the pass has already written. *)
Definition twist (x : list Z) : list Z :=
  let lo := mix_all (take (n - m) x) (drop 1 x) (drop m x) in
  let hi := mix_all (drop (n - m) x) (drop (n - m + 1) x ++ take 1 lo) lo in
  lo ++ hi.

Definition temper (x : Z) : Z :=
  let z := Z.lxor x (Z.land (Z.shiftr x 29) 0x5555555555555555) in
  let z := Z.lxor z (Z.land (u64 (Z.shiftl z 17)) 0x71d67fffeda60000) in
  let z := Z.lxor z (Z.land (u64 (Z.shiftl z 37)) 0xfff7eee000000000) in
  Z.lxor z (Z.shiftr z 43).

(** [generator()] *)
Definition next (g : engine) : Z * engine :=
  let g := if (pos g <? n)%nat then g else mkEngine (twist (words g)) 0 in
  (temper (words g !!! pos g), mkEngine (words g) (S (pos g))).

Fixpoint discard (k : nat) (g : engine) : engine :=
  match k with O => g | S k' => discard k' (snd (next g)) end.

(** The standard's conformance value: the 10000th number of a default-constructed engine. *)
Example conformance : fst (next (discard (Z.to_nat 9999) (seed 5489))) = 9981545732273789042.
Proof. vm_compute. reflexivity. Qed.

(** ** Every number drawn is a 64-bit word *)

Definition word (x : Z) : Prop := 0 <= x < 2 ^ 64.

Definition wf (g : engine) : Prop :=
  length (words g) = n /\ Forall word (words g) /\ (pos g <= n)%nat.

Lemma u64_word x : word (u64 x).
Proof. unfold word, u64. by apply Z.mod_pos_bound. Qed.

Lemma word_bits x : word x <-> 0 <= x /\ (forall i, 64 <= i -> Z.testbit x i = false).
Proof.
  unfold word. split.
  - intros H. split; [lia|]. intros i Hi. destruct (decide (x = 0)) as [->|]; [by rewrite Z.bits_0|].
    apply Z.bits_above_log2; [lia|]. enough (Z.log2 x < 64) by lia. apply Z.log2_lt_pow2; lia.
  - intros [Hx H]. split; [done|]. destruct (decide (x = 0)) as [->|]; [done|].
    apply Z.log2_lt_pow2; [lia|]. destruct (Z.lt_decidable (Z.log2 x) 64) as [|Hge]; [done|].
    exfalso. pose proof (Z.bit_log2 x) as Hb. rewrite H in Hb by lia. naive_solver lia.
Qed.

Lemma word_lxor x y : word x -> word y -> word (Z.lxor x y).
Proof.
  rewrite !word_bits. intros [Hx Bx] [Hy By]. split; [by apply Z.lxor_nonneg|].
  intros i Hi. by rewrite Z.lxor_spec, Bx, By.
Qed.

Lemma word_land_l x y : word x -> 0 <= y -> word (Z.land x y).
Proof.
  rewrite !word_bits. intros [Hx Bx] Hy. split; [apply Z.land_nonneg; by left|].
  intros i Hi. by rewrite Z.land_spec, Bx.
Qed.

Lemma word_shiftr x k : 0 <= k -> word x -> word (Z.shiftr x k).
Proof.
  rewrite !word_bits. intros Hk [Hx Bx]. split; [by apply Z.shiftr_nonneg|].
  intros i Hi. rewrite Z.shiftr_spec by lia. apply Bx. lia.
Qed.

Lemma word_lor x y : word x -> word y -> word (Z.lor x y).
Proof.
  rewrite !word_bits. intros [Hx Bx] [Hy By]. split; [by apply Z.lor_nonneg|].
  intros i Hi. by rewrite Z.lor_spec, Bx, By.
Qed.

Lemma temper_word x : word x -> word (temper x).
Proof.
  intros Hx. unfold temper.
  repeat first [ apply word_lxor | apply word_land_l | apply word_shiftr | apply u64_word | done | lia ].
Qed.

Lemma mix_word x y z : word x -> word y -> word z -> word (mix x y z).
Proof.
  intros Hx Hy Hz. unfold mix.
  assert (word (Z.lor (Z.land x upper_mask) (Z.land y lower_mask))) as Hw
    by (apply word_lor; apply word_land_l; done).
  apply word_lxor; [apply word_lxor; [done|by apply word_shiftr]|].
  destruct (Z.odd _); unfold word, a; lia.
Qed.

Lemma mix_all_word xs ys zs :
  Forall word xs -> Forall word ys -> Forall word zs -> Forall word (mix_all xs ys zs).
Proof.
  intros Hx. revert ys zs. induction Hx as [|x xs Hx _ IH]; intros ys zs Hy Hz; [constructor|].
  destruct Hy as [|y ys Hy Hys], Hz as [|z zs Hz Hzs]; cbn; constructor; auto using mix_word.
Qed.

Lemma length_mix_all xs ys zs :
  length (mix_all xs ys zs) = Nat.min (length xs) (Nat.min (length ys) (length zs)).
Proof.
  revert ys zs. induction xs as [|x xs IH]; intros [|y ys] [|z zs]; cbn; [lia..|].
  by rewrite IH.
Qed.

Lemma twist_spec x : length x = n -> Forall word x ->
  length (twist x) = n /\ Forall word (twist x).
Proof.
  intros Hl Hw. unfold twist.
  set (lo := mix_all (take (n - m) x) (drop 1 x) (drop m x)).
  assert (length lo = 156)%nat as Hlo.
  { unfold lo. rewrite length_mix_all, length_take, !length_drop, Hl. reflexivity. }
  assert (Forall word lo) as Wlo
    by (apply mix_all_word; auto using Forall_take, Forall_drop).
  split.
  - rewrite length_app, length_mix_all, length_app, length_take, !length_drop, Hl, Hlo. reflexivity.
  - apply Forall_app_2; [done|]. apply mix_all_word; [by apply Forall_drop| |done].
    apply Forall_app_2; auto using Forall_take, Forall_drop.
Qed.

Lemma seed_words_spec k i x : word x ->
  length (seed_words k i x) = k /\ Forall word (seed_words k i x).
Proof.
  revert i x. induction k as [|k IH]; intros i x Hx; [by split|]. cbn [seed_words].
  destruct (IH (i + 1) (u64 (f * Z.lxor x (Z.shiftr x 62) + (i + 1)))) as [Hl ?]; [apply u64_word|].
  split; [cbn [length]; by f_equal|by constructor].
Qed.

Lemma seed_wf s : wf (seed s).
Proof.
  destruct (seed_words_spec n 0 (u64 s)) as [? ?]; [apply u64_word|].
  unfold wf, seed. cbn [words pos]. auto.
Qed.

Lemma next_wf g : wf g -> word (fst (next g)) /\ wf (snd (next g)).
Proof.
  intros (Hl & Hw & Hp). unfold next.
  assert (wf (mkEngine (twist (words g)) 0)) as (Hl' & Hw' & _).
  { destruct (twist_spec (words g)); [done..|]. unfold wf. cbn. unfold n. auto with lia. }
  assert (forall g', length (words g') = n -> Forall word (words g') -> (pos g' < n)%nat ->
    word (temper (words g' !!! pos g')) /\ wf (mkEngine (words g') (S (pos g')))) as Hgo.
  { intros g' Hl1 Hw1 Hp1. split; [|by unfold wf; cbn; auto with lia].
    apply temper_word. rewrite Forall_lookup in Hw1. eapply Hw1.
    apply list_lookup_lookup_total_lt. lia. }
  destruct (Nat.ltb_spec (pos g) n) as [Hlt|Hge]; apply Hgo; try done. cbn. unfold n. lia.
Qed.

End MT.
