(* ===== verification/DbLru.v ===== *)
(** * The LRU database: dblru.cpp

    The tables, counters and mutexes of dblru.cpp are the fields of [World]; every
    function of the file is a computation on it. [Env] holds what the code gets from its
    surroundings: the readings of [time()], whether an allocation of [emplace] fails, what
    uninitialised variables hold, and how the library compares a singular iterator.

    A [std::set] ordered by timestamp is the strictly sorted list of its elements, an
    [unordered_map] is a [gmap] (its order is never observed), and a [std::mutex] is a
    boolean: locking a mutex that is held gives [Stuck Deadlock]. *)

From stdpp Require Import base list gmap strings.
From Stdlib Require Import ZArith Lia Ascii String.
From S2P Require Import Prelude CxxString MersenneTwister.

(** ** Data (inc/dblru.h, inc/sconst.h) *)

Definition DB_MAX_HASH_TABLES : Z := 10.

Inductive retStatus :=
  | SUCCESS
  | MEMORY_FULL
  | EXIST
  | NOT_EXIST
  | FAILURE.

#[export] Instance retStatus_eq_dec : EqDecision retStatus.
Proof. solve_decision. Defined.

(** [retStatus] results are compared with [==] and [!=]. *)
Definition status_eqb (a b : retStatus) : bool :=
  match a, b with
  | SUCCESS, SUCCESS | MEMORY_FULL, MEMORY_FULL | EXIST, EXIST | NOT_EXIST, NOT_EXIST
  | FAILURE, FAILURE => true
  | _, _ => false
  end.

Record ValueStruct := mkValue {
  expiry : Z;
  value : cstring;
  flags : cstring;
  casUniq : cstring;
}.

Record TimestampToKeyStruct := mkTK {
  timestamp : Z;
  key : cstring;
}.

#[export] Instance ValueStruct_inhabited : Inhabited ValueStruct := populate (mkValue 0 [] [] []).
#[export] Instance TimestampToKeyStruct_eq_dec : EqDecision TimestampToKeyStruct.
Proof. solve_decision. Defined.

(** The globals of dblru.cpp, the two globals of smain.cpp it and scmd.cpp read, and how many
    readings of the clock and calls of [emplace] were made so far. *)
Record World := mkWorld {
  gTimestampToKeySet : list (list TimestampToKeyStruct);
  gKeyToValueHashMap : list (gmap cstring (ValueStruct * Z));
  gTimestampToKeyMutex : list bool;
  gKeyToValueMutex : list bool;
  gStoredSize : Z;
  gTimestamp : Z;
  gFlushAllTimestamp : Z;
  gFlushAllTime : Z;
  gIsFlushAllSet : bool;
  generator : option MT.engine;
  gServMemLimit : Z;
  gServWorkerThreads : Z;
  ticks : nat;
  allocs : nat;
}.

Definition set_gTimestampToKeySet (x : list (list TimestampToKeyStruct)) (w : World) : World :=
  mkWorld x (gKeyToValueHashMap w) (gTimestampToKeyMutex w) (gKeyToValueMutex w)
    (gStoredSize w) (gTimestamp w) (gFlushAllTimestamp w) (gFlushAllTime w)
    (gIsFlushAllSet w) (generator w) (gServMemLimit w) (gServWorkerThreads w) (ticks w)
    (allocs w).
Definition set_gKeyToValueHashMap (x : list (gmap cstring (ValueStruct * Z))) (w : World) : World :=
  mkWorld (gTimestampToKeySet w) x (gTimestampToKeyMutex w) (gKeyToValueMutex w)
    (gStoredSize w) (gTimestamp w) (gFlushAllTimestamp w) (gFlushAllTime w)
    (gIsFlushAllSet w) (generator w) (gServMemLimit w) (gServWorkerThreads w) (ticks w)
    (allocs w).
Definition set_gTimestampToKeyMutex (x : list bool) (w : World) : World :=
  mkWorld (gTimestampToKeySet w) (gKeyToValueHashMap w) x (gKeyToValueMutex w)
    (gStoredSize w) (gTimestamp w) (gFlushAllTimestamp w) (gFlushAllTime w)
    (gIsFlushAllSet w) (generator w) (gServMemLimit w) (gServWorkerThreads w) (ticks w)
    (allocs w).
Definition set_gKeyToValueMutex (x : list bool) (w : World) : World :=
  mkWorld (gTimestampToKeySet w) (gKeyToValueHashMap w) (gTimestampToKeyMutex w) x
    (gStoredSize w) (gTimestamp w) (gFlushAllTimestamp w) (gFlushAllTime w)
    (gIsFlushAllSet w) (generator w) (gServMemLimit w) (gServWorkerThreads w) (ticks w)
    (allocs w).
Definition set_gStoredSize (x : Z) (w : World) : World :=
  mkWorld (gTimestampToKeySet w) (gKeyToValueHashMap w) (gTimestampToKeyMutex w)
    (gKeyToValueMutex w) x (gTimestamp w) (gFlushAllTimestamp w) (gFlushAllTime w)
    (gIsFlushAllSet w) (generator w) (gServMemLimit w) (gServWorkerThreads w) (ticks w)
    (allocs w).
Definition set_gTimestamp (x : Z) (w : World) : World :=
  mkWorld (gTimestampToKeySet w) (gKeyToValueHashMap w) (gTimestampToKeyMutex w)
    (gKeyToValueMutex w) (gStoredSize w) x (gFlushAllTimestamp w) (gFlushAllTime w)
    (gIsFlushAllSet w) (generator w) (gServMemLimit w) (gServWorkerThreads w) (ticks w)
    (allocs w).
Definition set_gFlushAllTimestamp (x : Z) (w : World) : World :=
  mkWorld (gTimestampToKeySet w) (gKeyToValueHashMap w) (gTimestampToKeyMutex w)
    (gKeyToValueMutex w) (gStoredSize w) (gTimestamp w) x (gFlushAllTime w)
    (gIsFlushAllSet w) (generator w) (gServMemLimit w) (gServWorkerThreads w) (ticks w)
    (allocs w).
Definition set_gFlushAllTime (x : Z) (w : World) : World :=
  mkWorld (gTimestampToKeySet w) (gKeyToValueHashMap w) (gTimestampToKeyMutex w)
    (gKeyToValueMutex w) (gStoredSize w) (gTimestamp w) (gFlushAllTimestamp w) x
    (gIsFlushAllSet w) (generator w) (gServMemLimit w) (gServWorkerThreads w) (ticks w)
    (allocs w).
Definition set_gIsFlushAllSet (x : bool) (w : World) : World :=
  mkWorld (gTimestampToKeySet w) (gKeyToValueHashMap w) (gTimestampToKeyMutex w)
    (gKeyToValueMutex w) (gStoredSize w) (gTimestamp w) (gFlushAllTimestamp w)
    (gFlushAllTime w) x (generator w) (gServMemLimit w) (gServWorkerThreads w) (ticks w)
    (allocs w).
Definition set_generator (x : option MT.engine) (w : World) : World :=
  mkWorld (gTimestampToKeySet w) (gKeyToValueHashMap w) (gTimestampToKeyMutex w)
    (gKeyToValueMutex w) (gStoredSize w) (gTimestamp w) (gFlushAllTimestamp w)
    (gFlushAllTime w) (gIsFlushAllSet w) x (gServMemLimit w) (gServWorkerThreads w)
    (ticks w) (allocs w).
Definition set_gServMemLimit (x : Z) (w : World) : World :=
  mkWorld (gTimestampToKeySet w) (gKeyToValueHashMap w) (gTimestampToKeyMutex w)
    (gKeyToValueMutex w) (gStoredSize w) (gTimestamp w) (gFlushAllTimestamp w)
    (gFlushAllTime w) (gIsFlushAllSet w) (generator w) x (gServWorkerThreads w) (ticks w)
    (allocs w).
Definition set_gServWorkerThreads (x : Z) (w : World) : World :=
  mkWorld (gTimestampToKeySet w) (gKeyToValueHashMap w) (gTimestampToKeyMutex w)
    (gKeyToValueMutex w) (gStoredSize w) (gTimestamp w) (gFlushAllTimestamp w)
    (gFlushAllTime w) (gIsFlushAllSet w) (generator w) (gServMemLimit w) x (ticks w)
    (allocs w).
Definition set_ticks (x : nat) (w : World) : World :=
  mkWorld (gTimestampToKeySet w) (gKeyToValueHashMap w) (gTimestampToKeyMutex w)
    (gKeyToValueMutex w) (gStoredSize w) (gTimestamp w) (gFlushAllTimestamp w)
    (gFlushAllTime w) (gIsFlushAllSet w) (generator w) (gServMemLimit w)
    (gServWorkerThreads w) x (allocs w).
Definition set_allocs (x : nat) (w : World) : World :=
  mkWorld (gTimestampToKeySet w) (gKeyToValueHashMap w) (gTimestampToKeyMutex w)
    (gKeyToValueMutex w) (gStoredSize w) (gTimestamp w) (gFlushAllTimestamp w)
    (gFlushAllTime w) (gIsFlushAllSet w) (generator w) (gServMemLimit w)
    (gServWorkerThreads w) (ticks w) x.

(** What the code gets from its surroundings. *)
Class Env := {
  clock : nat -> Z;              (* the [n]-th reading of [time()] *)
  emplace_throws : nat -> bool;  (* whether the [n]-th [emplace] throws [bad_alloc] *)
  singular_eq_end : bool;        (* default-constructed iterator [== end()]; true in libstdc++ *)
  uninit_ulong : Z;              (* what uninitialised variables hold *)
  uninit_uint : Z;
  uninit_bool : bool;
  getpid : Z;
}.

Definition M (A : Type) : Type := ST World A.

(** ** [std::set] with [timestampToKeyCompare] *)

Definition timestampToKeyCompare (first second : TimestampToKeyStruct) : bool :=
  timestamp first <? timestamp second.

(** [set.insert(x)]: nothing happens when an equivalent element is there. *)
Fixpoint set_insert (x : TimestampToKeyStruct) (s : list TimestampToKeyStruct) :=
  match s with
  | [] => [x]
  | y :: s' =>
    if timestampToKeyCompare x y then x :: s
    else if timestampToKeyCompare y x then y :: set_insert x s' else s
  end.

(** [set.erase(x)]: removes the element equivalent to [x], if there is one. *)
Fixpoint set_erase (x : TimestampToKeyStruct) (s : list TimestampToKeyStruct) :=
  match s with
  | [] => []
  | y :: s' =>
    if timestampToKeyCompare x y then s
    else if timestampToKeyCompare y x then y :: set_erase x s' else s'
  end.

(** ** Bucket selection *)

Definition getHashTblNbrFromKey (key : cstring) : Z :=
  let maxLen := u32 (size key) in
  let i := if maxLen <? 5 then 0 else maxLen - 5 in
  let chars := take (Z.to_nat (maxLen - i)) (drop (Z.to_nat i) key) in
  let tableNbr := fold_left (fun acc c => u32 (acc + schar c)) chars 0 in
  tableNbr mod DB_MAX_HASH_TABLES.

(** ** Access to a map entry ([it->second]) *)

Abbreviation entry := (ValueStruct * Z)%type.

Definition getValueFromMap (it : entry) : cstring := value it.1.
Definition getExpiryFromMap (it : entry) : Z := expiry it.1.
Definition getCasFromMap (it : entry) : cstring := casUniq it.1.
Definition getFlagsFromMap (it : entry) : cstring := flags it.1.
Definition getTimestampFromMap (it : entry) : Z := it.2.

Definition setValueToMap (it : entry) (v : cstring) : entry :=
  (mkValue (expiry it.1) v (flags it.1) (casUniq it.1), it.2).
Definition setCasToMap (it : entry) (cas : cstring) : entry :=
  (mkValue (expiry it.1) (value it.1) (flags it.1) cas, it.2).
Definition setFlagsToMap (it : entry) (f : cstring) : entry :=
  (mkValue (expiry it.1) (value it.1) f (casUniq it.1), it.2).
Definition setExpiryToMap (it : entry) (exp : Z) : entry :=
  (mkValue exp (value it.1) (flags it.1) (casUniq it.1), it.2).
Definition setTimestampToMap (it : entry) (time : Z) : entry := (it.1, time).

Section Operations.
Context `{DM : DataModel} `{E : Env}.

(** ** The surroundings *)

(** [time(&curSystemTime)] *)
Definition sys_time : M Z := fun w => (Ret (clock (ticks w)), set_ticks (S (ticks w)) w).

Definition lock_tk (h : Z) : M unit := fun w =>
  if aget (gTimestampToKeyMutex w) h then (Stuck Deadlock, w)
  else (Ret tt, set_gTimestampToKeyMutex (aset (gTimestampToKeyMutex w) h true) w).
Definition unlock_tk (h : Z) : M unit :=
  modify (fun w => set_gTimestampToKeyMutex (aset (gTimestampToKeyMutex w) h false) w).
Definition lock_kv (h : Z) : M unit := fun w =>
  if aget (gKeyToValueMutex w) h then (Stuck Deadlock, w)
  else (Ret tt, set_gKeyToValueMutex (aset (gKeyToValueMutex w) h true) w).
Definition unlock_kv (h : Z) : M unit :=
  modify (fun w => set_gKeyToValueMutex (aset (gKeyToValueMutex w) h false) w).

(** Reading and writing one bucket, and [gStoredSize -= x], [gStoredSize += x]. *)
Definition get_set (h : Z) : M (list TimestampToKeyStruct) :=
  gets (fun w => aget (gTimestampToKeySet w) h).
Definition put_set (h : Z) (s : list TimestampToKeyStruct) : M unit :=
  modify (fun w => set_gTimestampToKeySet (aset (gTimestampToKeySet w) h s) w).
Definition get_map (h : Z) : M (gmap cstring entry) :=
  gets (fun w => aget (gKeyToValueHashMap w) h).
Definition put_map (h : Z) (m : gmap cstring entry) : M unit :=
  modify (fun w => set_gKeyToValueHashMap (aset (gKeyToValueHashMap w) h m) w).
Definition stored_sub (x : Z) : M unit :=
  modify (fun w => set_gStoredSize (ulong (gStoredSize w - x)) w).
Definition stored_add (x : Z) : M unit :=
  modify (fun w => set_gStoredSize (ulong (gStoredSize w + x)) w).

(** [gTimestamp++] *)
Definition fetch_timestamp : M Z := fun w =>
  (Ret (gTimestamp w), set_gTimestamp (ulong (gTimestamp w + 1)) w).

(** Whether an entry is past its expiry or older than the last flush. *)
Definition is_expired (cur flushTs : Z) (it : entry) : bool :=
  (getExpiryFromMap it <? ulong cur) || (getTimestampFromMap it <? flushTs).

(** ** Flushing *)

Definition dbSetFlushAll (expiry : Z) : M unit :=
  modify (set_gIsFlushAllSet true);;;
  let* curSystemTime := sys_time in
  modify (set_gFlushAllTime (ulong (curSystemTime + expiry))).

Definition dbHandleFlushAll : M unit :=
  let* isSet := gets gIsFlushAllSet in
  if negb isSet then ret tt else
  let* curSystemTime := sys_time in
  let* flushTime := gets gFlushAllTime in
  if flushTime <=? ulong curSystemTime then
    let* t := gets gTimestamp in
    let tempTimestamp := ulong (t + 1) in
    modify (set_gTimestamp tempTimestamp);;;
    modify (set_gFlushAllTimestamp tempTimestamp);;;
    modify (set_gIsFlushAllSet false)
  else ret tt.

(** ** Eviction *)

(** How the loop of [removeLRUElement] ends. [PickNone]: the loop ran to the end of the
    set and [timestampKeyTwo] is still [end()], so [valueIter] becomes [valueOne], which
    was never assigned. *)
Inductive lru_pick :=
  | PickDeleted (e : TimestampToKeyStruct)
  | PickExpired (e : TimestampToKeyStruct) (v : entry)
  | PickVictim (e : TimestampToKeyStruct) (v : entry)
  | PickNone
  | PickUndefined.

(** The loop over the set; [s] starts at [timestampKeyIter] and [one] is
    [timestampKeyOne] ([None] for [end()]). *)
Fixpoint lru_scan (kv : gmap cstring entry) (cur flushTs : Z)
    (s : list TimestampToKeyStruct) (one : option TimestampToKeyStruct) : lru_pick :=
  match s with
  | [] => PickNone
  | e :: s' =>
    match kv !! key e with
    | None => PickDeleted e
    | Some v =>
      if is_expired cur flushTs v then PickExpired e v else
      match one with
      | None => lru_scan kv cur flushTs s' (Some e)
      | Some e1 =>
        match kv !! key e1, kv !! key e with
        | Some v1, Some v2 =>
          if size (getValueFromMap v1) <? size (getValueFromMap v2)
          then PickVictim e v2 else PickVictim e1 v1
        | _, _ => PickUndefined
        end
      end
    end
  end.

(** The bytes that [gStoredSize] loses with a whole entry. *)
Definition evicted_size (e : TimestampToKeyStruct) (v : entry) : Z :=
  2 * size (key e) + 2 * sizeof_ulong + size (getCasFromMap v) + size (getFlagsFromMap v)
  + size (getValueFromMap v).

(** Removes the entry [v] of [e] from both tables of the bucket. *)
Definition evict_entry (h : Z) (e : TimestampToKeyStruct) (v : entry) : M unit :=
  stored_sub (evicted_size e v);;;
  let* kv := get_map h in
  put_map h (delete (key e) kv);;;
  let* s := get_set h in
  put_set h (set_erase e s);;;
  unlock_kv h;;;
  unlock_tk h.

Definition removeLRUElement (hashTblNum : Z) : M unit :=
  let* curSystemTime := sys_time in
  lock_tk hashTblNum;;;
  lock_kv hashTblNum;;;
  let* s := get_set hashTblNum in
  let* kv := get_map hashTblNum in
  let* flushTs := gets gFlushAllTimestamp in
  match lru_scan kv curSystemTime flushTs s None with
  | PickDeleted e =>
    stored_sub (size (key e) + sizeof_ulong);;;
    put_set hashTblNum (set_erase e s);;;
    unlock_kv hashTblNum;;;
    unlock_tk hashTblNum
  | PickExpired e v => evict_entry hashTblNum e v
  | PickVictim e v => evict_entry hashTblNum e v
  | PickNone => if singular_eq_end then ret tt else stuck Undefined
  | PickUndefined => stuck Undefined
  end.

(** ** Insertion *)

(** All entries of the ordered sets: the eviction loop removes one per call. *)
Definition total_entries (w : World) : nat :=
  sum_list_with List.length (gTimestampToKeySet w).

(** The loops below leave a bucket only when it is empty and evict otherwise, so this many
    rounds are enough ([room_fuel_enough] in DbLruInv). *)
Definition room_fuel (w : World) : nat := total_entries w + 12.

(** The next bucket, cyclically. *)
Definition next_table (h : Z) : Z := if negb (h =? DB_MAX_HASH_TABLES - 1) then h + 1 else 0.

(** The [while (true)] loop of [dbInsertElement]; [false] is the early
    [return MEMORY_FULL]. *)
Fixpoint insert_make_room (fuel : nat) (need hashTblNum origHashTblNum : Z) : M bool :=
  match fuel with
  | O => stuck OutOfFuel
  | S fuel' =>
    let* stored := gets gStoredSize in
    let* limit := gets gServMemLimit in
    if ulong (stored + need) <? limit then ret true else
    lock_tk hashTblNum;;;
    let* s := get_set hashTblNum in
    if (List.length s <=? 0)%nat then
      unlock_tk hashTblNum;;;
      let hashTblNum := next_table hashTblNum in
      if origHashTblNum =? hashTblNum then ret false
      else insert_make_room fuel' need hashTblNum origHashTblNum
    else
      unlock_tk hashTblNum;;;
      removeLRUElement hashTblNum;;;
      insert_make_room fuel' need hashTblNum origHashTblNum
  end.

(** [gKeyToValueHashMap[h].emplace(key, ...)]: whether the key was absent, and the entry
    that is there afterwards. [None] is [bad_alloc]. *)
Definition emplace (h : Z) (k : cstring) (v : entry) : M (option (entry * bool)) := fun w =>
  let w' := set_allocs (S (allocs w)) w in
  if emplace_throws (allocs w) then (Ret None, w') else
  let m := aget (gKeyToValueHashMap w) h in
  match m !! k with
  | Some it => (Ret (Some (it, false)), w')
  | None => (Ret (Some (v, true)),
             set_gKeyToValueHashMap (aset (gKeyToValueHashMap w) h (<[k := v]> m)) w')
  end.

(** The function-local [static] engine of [dbInsertElement], seeded by the first call. *)
Definition draw_static_cas (curSystemTime : Z) : M cstring := fun w =>
  let g := match generator w with Some g => g | None => MT.seed (u32 curSystemTime) end in
  let '(x, g') := MT.next g in
  (Ret (to_string x), set_generator (Some g') w).

(** The expiry of a new entry. *)
Definition new_expiry (cur exp : Z) : Z := if negb (exp =? 0) then ulong (cur + exp) else ULONG_MAX.

(** What a new entry adds to [gStoredSize]. *)
Definition insert_need (k f c v : cstring) : Z :=
  2 * size k + 2 * sizeof_ulong + size f + size c + sizeof_ulong + size v.

(** [dbInsertElement] after the loop: [h] is the bucket of [k], [ts] the new timestamp and
    [newCas] the new [cas unique]. *)
Definition insert_place (h curSystemTime ts : Z) (newCas k f cas v : cstring) (exp : Z)
    : M retStatus :=
  let casCheck := negb (str_eqb cas []) in
  let valueStr := mkValue (new_expiry curSystemTime exp) v f newCas in
  lock_kv h;;;
  let* placed := emplace h k (valueStr, ts) in
  match placed with
  | None => ret MEMORY_FULL
  | Some (it, false) =>
    (* The entry already exists *)
    let oldTs := getTimestampFromMap it in
    let sizeDiff := s32 (sizeof_ulong - sizeof_ulong + size (getCasFromMap it) - size newCas
                         + size (getFlagsFromMap it) - size f
                         + size (getValueFromMap it) - size v) in
    if casCheck && negb (str_eqb (getCasFromMap it) cas) then
      unlock_kv h;;; ret EXIST
    else
      let it := setExpiryToMap it (ulong (curSystemTime + exp)) in
      let it := setCasToMap it newCas in
      let it := setValueToMap it v in
      let it := setFlagsToMap it f in
      let* m := get_map h in
      put_map h (<[k := it]> m);;;
      unlock_kv h;;;
      lock_tk h;;;
      let* s := get_set h in
      put_set h (set_erase (mkTK oldTs k) s);;;
      unlock_tk h;;;
      stored_sub sizeDiff;;;
      lock_tk h;;;
      let* s := get_set h in
      put_set h (set_insert (mkTK ts k) s);;;
      unlock_tk h;;;
      ret SUCCESS
  | Some (_, true) =>
    (* New element was created *)
    if casCheck then
      let* m := get_map h in
      put_map h (delete k m);;;
      unlock_kv h;;;
      ret NOT_EXIST
    else
      unlock_kv h;;;
      stored_add (insert_need k f newCas v);;;
      lock_tk h;;;
      let* s := get_set h in
      put_set h (set_insert (mkTK ts k) s);;;
      unlock_tk h;;;
      ret SUCCESS
  end.

Definition dbInsertElement (k f cas v : cstring) (exp : Z) : M retStatus :=
  let* curSystemTime := sys_time in
  let origHashTblNum := getHashTblNbrFromKey k in
  let* ts := fetch_timestamp in
  let* newCas := draw_static_cas curSystemTime in
  let* fuel := gets room_fuel in
  let* room := insert_make_room fuel (insert_need k f newCas v) origHashTblNum origHashTblNum in
  if negb room then ret MEMORY_FULL else
  insert_place origHashTblNum curSystemTime ts newCas k f cas v exp.

(** The loop of [dbAddElement]: after moving on from an empty bucket it goes straight to
    [removeLRUElement] of the next one. *)
Fixpoint add_make_room (fuel : nat) (need hashTblNum origHashTblNum : Z) : M bool :=
  match fuel with
  | O => stuck OutOfFuel
  | S fuel' =>
    let* stored := gets gStoredSize in
    let* limit := gets gServMemLimit in
    if ulong (stored + need) <? limit then ret true else
    lock_tk hashTblNum;;;
    let* s := get_set hashTblNum in
    if (List.length s <=? 0)%nat then
      unlock_tk hashTblNum;;;
      let hashTblNum := next_table hashTblNum in
      if origHashTblNum =? hashTblNum then ret false
      else
        removeLRUElement hashTblNum;;;
        add_make_room fuel' need hashTblNum origHashTblNum
    else
      unlock_tk hashTblNum;;;
      removeLRUElement hashTblNum;;;
      add_make_room fuel' need hashTblNum origHashTblNum
  end.

(** [dbAddElement] after the loop. *)
Definition add_place (h curSystemTime ts : Z) (newCas k f v : cstring) (exp : Z) : M retStatus :=
  let valueStr := mkValue (new_expiry curSystemTime exp) v f newCas in
  lock_kv h;;;
  let* placed := emplace h k (valueStr, ts) in
  match placed with
  | None => ret MEMORY_FULL
  | Some (it, false) =>
    (* The entry already exists *)
    let oldTs := getTimestampFromMap it in
    let* flushTs := gets gFlushAllTimestamp in
    if is_expired curSystemTime flushTs it then
      let it := setExpiryToMap it (ulong (curSystemTime + exp)) in
      let it := setCasToMap it newCas in
      let it := setValueToMap it v in
      let it := setFlagsToMap it f in
      let* m := get_map h in
      put_map h (<[k := it]> m);;;
      unlock_kv h;;;
      lock_tk h;;;
      let* s := get_set h in
      put_set h (set_insert (mkTK ts k) (set_erase (mkTK oldTs k) s));;;
      unlock_tk h;;;
      ret SUCCESS
    else
      unlock_kv h;;; ret EXIST
  | Some (_, true) =>
    (* New element was created *)
    unlock_kv h;;;
    stored_add (insert_need k f newCas v);;;
    lock_tk h;;;
    let* s := get_set h in
    put_set h (set_insert (mkTK ts k) s);;;
    unlock_tk h;;;
    ret SUCCESS
  end.

Definition dbAddElement (k f cas v : cstring) (exp : Z) : M retStatus :=
  let* curSystemTime := sys_time in
  let origHashTblNum := getHashTblNbrFromKey k in
  let* ts := fetch_timestamp in
  let newCas := to_string (fst (MT.next (MT.seed (u32 curSystemTime)))) in
  let* fuel := gets room_fuel in
  let* room := add_make_room fuel (2 * size k + 2 * sizeof_ulong + sizeof_ulong + size v)
                 origHashTblNum origHashTblNum in
  if negb room then ret MEMORY_FULL else
  add_place origHashTblNum curSystemTime ts newCas k f v exp.

(** ** Deletion *)

Definition dbDeleteElement (k : cstring) (exp : Z) : M retStatus :=
  let* curSystemTime := sys_time in
  let h := getHashTblNbrFromKey k in
  lock_kv h;;;
  let* m := get_map h in
  match m !! k with
  | Some it =>
    let* flushTs := gets gFlushAllTimestamp in
    if is_expired curSystemTime flushTs it then unlock_kv h;;; ret NOT_EXIST
    else if exp =? 0 then
      put_map h (delete k m);;;
      unlock_kv h;;;
      ret SUCCESS
    else
      put_map h (<[k := setExpiryToMap it (ulong (curSystemTime + exp))]> m);;;
      unlock_kv h;;;
      ret SUCCESS
  | None => unlock_kv h;;; ret NOT_EXIST
  end.

(** ** Lookup *)

(** The reference parameters of [dbGetElement]. *)
Record GetRefs := mkRefs {
  r_flags : cstring;
  r_cas : cstring;
  r_value : cstring;
  r_expiry : Z;
}.

Definition dbGetElement (k : cstring) (refs : GetRefs) : M (retStatus * GetRefs) :=
  let* curSystemTime := sys_time in
  let h := getHashTblNbrFromKey k in
  let* ts := fetch_timestamp in
  lock_kv h;;;
  let* m := get_map h in
  match m !! k with
  | Some it =>
    let* flushTs := gets gFlushAllTimestamp in
    if is_expired curSystemTime flushTs it then
      put_map h (delete k m);;;
      unlock_kv h;;;
      ret (NOT_EXIST, refs)
    else
      let oldTs := getTimestampFromMap it in
      let refs := mkRefs (getFlagsFromMap it) (getCasFromMap it) (getValueFromMap it)
                    (ulong (getExpiryFromMap it - ulong curSystemTime)) in
      put_map h (<[k := setTimestampToMap it ts]> m);;;
      unlock_kv h;;;
      lock_tk h;;;
      let* s := get_set h in
      put_set h (set_insert (mkTK ts k) (set_erase (mkTK oldTs k) s));;;
      unlock_tk h;;;
      ret (SUCCESS, refs)
  | None => unlock_kv h;;; ret (NOT_EXIST, refs)
  end.

End Operations.

(** The state when the server starts: [main] has set the limits. *)
Definition initial_world (memLimit workers : Z) : World :=
  mkWorld (replicate 10 []) (replicate 10 ∅) (replicate 10 false) (replicate 10 false)
    0 0 0 0 false None memLimit workers 0 0.
