(* ===== verification/DbLruInv.v ===== *)
(** * Invariants of the database

    [wf] says that the two tables of every bucket agree: the ordered set is sorted, every
    timestamp was handed out before, keys are in the bucket they hash to, and every entry
    of the map has an element in the set, so that eviction can reach it. The converse
    fails by design: deletion leaves elements of the set behind.

    The [_run] lemmas give, for a world in which no mutex is held, the result and the final
    state of every operation in closed form; the other files build on them. *)

From stdpp Require Import base list gmap strings sorting.
From Stdlib Require Import ZArith Lia Ascii String.
From S2P Require Import Prelude CxxString MersenneTwister DbLru.

(** ** The ordered set *)

Definition tk_lt (a b : TimestampToKeyStruct) : Prop := timestamp a < timestamp b.
Abbreviation sorted := (StronglySorted tk_lt).

Lemma compare_spec a b : reflect (tk_lt a b) (timestampToKeyCompare a b).
Proof. unfold tk_lt, timestampToKeyCompare. apply Z.ltb_spec0. Qed.

Lemma elem_of_set_insert x s e :
  e ∈ set_insert x s -> e = x \/ e ∈ s.
Proof.
  induction s as [|y s IH]; cbn; [set_solver|].
  destruct (compare_spec x y), (compare_spec y x); set_solver.
Qed.

Lemma elem_of_set_insert_old x s e : e ∈ s -> e ∈ set_insert x s.
Proof.
  induction s as [|y s IH]; cbn; [set_solver|].
  destruct (compare_spec x y), (compare_spec y x); set_solver.
Qed.

(** A timestamp above all others goes to the end: the most recently used entry is last. *)
Lemma set_insert_fresh x s :
  (forall e, e ∈ s -> timestamp e < timestamp x) -> set_insert x s = s ++ [x].
Proof.
  induction s as [|y s IH]; intros H; [done|]. cbn.
  assert (timestamp y < timestamp x) as Hy by (apply H; set_solver).
  destruct (compare_spec x y) as [Hlt|]; [unfold tk_lt in Hlt; lia|].
  destruct (compare_spec y x) as [|Hn]; [|unfold tk_lt in Hn; lia].
  rewrite IH; [done|]. intros e He. apply H. set_solver.
Qed.

Lemma sorted_set_insert x s : sorted s -> sorted (set_insert x s).
Proof.
  induction 1 as [|y s Hs IH Hy]; cbn; [repeat constructor|].
  destruct (compare_spec x y) as [Hxy|Hxy].
  - constructor; [by constructor|]. constructor; [done|].
    eapply Forall_impl; [exact Hy|]. unfold tk_lt in *. intros; lia.
  - destruct (compare_spec y x) as [Hyx|Hyx]; [|by constructor].
    constructor; [done|]. rewrite Forall_forall in Hy |- *.
    intros e [->|He]%elem_of_set_insert; auto.
Qed.

Lemma elem_of_set_erase x s e :
  sorted s -> e ∈ set_erase x s <-> e ∈ s /\ timestamp e <> timestamp x.
Proof.
  induction 1 as [|y s Hs IH Hy]; cbn; [set_solver|].
  rewrite Forall_forall in Hy. unfold tk_lt in *.
  destruct (compare_spec x y) as [Hxy|Hxy]; unfold tk_lt in *.
  - split; [|naive_solver]. intros He. split; [done|].
    apply elem_of_cons in He as [->|He]; [lia|]. apply Hy in He. lia.
  - destruct (compare_spec y x) as [Hyx|Hyx]; unfold tk_lt in *.
    + rewrite !elem_of_cons, IH. intuition (subst; lia || auto).
    + assert (timestamp y = timestamp x) as Heq by lia. rewrite elem_of_cons. split.
      * intros He. split; [by right|]. apply Hy in He. lia.
      * intros [[->|He] Hne]; [lia|done].
Qed.

Lemma sorted_set_erase x s : sorted s -> sorted (set_erase x s).
Proof.
  induction 1 as [|y s Hs IH Hy]; cbn; [constructor|].
  destruct (compare_spec x y); [by constructor|].
  destruct (compare_spec y x); [|done]. constructor; [done|].
  rewrite Forall_forall in Hy |- *. intros e He.
  apply Hy. by apply elem_of_set_erase in He as [? _].
Qed.

Lemma length_set_erase x s : sorted s -> x ∈ s -> S (List.length (set_erase x s)) = List.length s.
Proof.
  induction 1 as [|y s Hs IH Hy]; cbn; [set_solver|]. rewrite elem_of_cons.
  rewrite Forall_forall in Hy. intros Hx.
  destruct (compare_spec x y) as [Hxy|Hxy]; unfold tk_lt in *.
  - destruct Hx as [->|Hx]; [lia|]. apply Hy in Hx. lia.
  - destruct (compare_spec y x) as [Hyx|Hyx]; unfold tk_lt in *; [|done].
    cbn. f_equal. apply IH. naive_solver lia.
Qed.

Lemma sorted_unique s a b : sorted s -> a ∈ s -> b ∈ s -> timestamp a = timestamp b -> a = b.
Proof.
  induction 1 as [|y s Hs IH Hy]; [set_solver|]. rewrite Forall_forall in Hy.
  rewrite !elem_of_cons. unfold tk_lt in Hy.
  intros [->|Ha] [->|Hb] Heq; auto.
  - apply Hy in Hb. lia.
  - apply Hy in Ha. lia.
Qed.

(** ** Buckets *)

Lemma hash_range k : 0 <= getHashTblNbrFromKey k < 10.
Proof. unfold getHashTblNbrFromKey. apply Z.mod_pos_bound. done. Qed.
#[export] Hint Resolve hash_range : cxx.

Record bucket_ok (h T : Z) (s : list TimestampToKeyStruct) (m : gmap cstring entry) : Prop := {
  bo_sorted : sorted s;
  bo_set e : e ∈ s -> 0 <= timestamp e < T /\ getHashTblNbrFromKey (key e) = h;
  bo_map k it : m !! k = Some it ->
    getHashTblNbrFromKey k = h /\ 0 <= getTimestampFromMap it < T;
  bo_indexed k it : m !! k = Some it -> exists e, e ∈ s /\ key e = k;
  bo_own k it e : m !! k = Some it -> e ∈ s -> timestamp e = getTimestampFromMap it -> key e = k;
}.

Lemma bucket_ok_empty h T : bucket_ok h T [] ∅.
Proof. split; [constructor|set_solver|..]; intros *; by rewrite lookup_empty. Qed.

Lemma bucket_ok_mono h T T' s m : T <= T' -> bucket_ok h T s m -> bucket_ok h T' s m.
Proof.
  intros HT [Hs Hset Hmap Hidx Hown]. split; [done|..].
  - intros e He. destruct (Hset e He). split; [lia|done].
  - intros k it Hk. destruct (Hmap k it Hk). split; [done|lia].
  - done.
  - done.
Qed.

(** Deleting from the map only. *)
Lemma bucket_ok_delete h T s m k : bucket_ok h T s m -> bucket_ok h T s (delete k m).
Proof.
  intros [Hs Hset Hmap Hidx Hown].
  split; [done|done|..]; try intros k' it [_ Hk]%lookup_delete_Some; eauto.
  intros k' it e [_ Hk]%lookup_delete_Some; eauto.
Qed.

(** Rewriting an entry without moving it. *)
Lemma bucket_ok_update h T s m k it it' :
  m !! k = Some it -> getTimestampFromMap it' = getTimestampFromMap it ->
  bucket_ok h T s m -> bucket_ok h T s (<[k := it']> m).
Proof.
  intros Hk Hts [Hs Hset Hmap Hidx Hown].
  split; [done|done|..]; try (intros k' it'' [[<- <-]|[Hne Hk']]%lookup_insert_Some;
    rewrite ?Hts; eauto).
  intros k' it'' e [[<- <-]|[Hne Hk']]%lookup_insert_Some; rewrite ?Hts; eauto.
Qed.

(** Moving the element of [k] to a fresh timestamp [T]; the map may keep the old timestamp
    or take the new one. *)
Lemma bucket_ok_move h T s m k it it' :
  m !! k = Some it ->
  getTimestampFromMap it' = getTimestampFromMap it \/ getTimestampFromMap it' = T ->
  bucket_ok h T s m ->
  bucket_ok h (T + 1) (set_insert (mkTK T k) (set_erase (mkTK (getTimestampFromMap it) k) s))
    (<[k := it']> m).
Proof.
  intros Hk Hts [Hs Hset Hmap Hidx Hown].
  destruct (Hmap k it Hk) as [Hh Hr].
  assert (forall e, e ∈ set_insert (mkTK T k) (set_erase (mkTK (getTimestampFromMap it) k) s) ->
    e = mkTK T k \/ e ∈ s /\ timestamp e <> getTimestampFromMap it) as Hin.
  { intros e [?|He]%elem_of_set_insert; [by left|right]. by apply elem_of_set_erase in He. }
  assert (set_insert (mkTK T k) (set_erase (mkTK (getTimestampFromMap it) k) s)
    = set_erase (mkTK (getTimestampFromMap it) k) s ++ [mkTK T k]) as Heq.
  { apply set_insert_fresh. intros e [He _]%elem_of_set_erase; [|done]. apply Hset in He. cbn. lia. }
  split.
  - by apply sorted_set_insert, sorted_set_erase.
  - intros e [->|[He _]]%Hin; [cbn; split; [lia|done]|]. destruct (Hset e He). split; [lia|done].
  - intros k' it''. rewrite lookup_insert_Some. intros [[<- <-]|[Hne Hk']].
    + split; [done|]. destruct Hts as [->| ->]; lia.
    + destruct (Hmap k' it'' Hk'). split; [done|lia].
  - intros k' it''. rewrite lookup_insert_Some, Heq. intros [[<- <-]|[Hne Hk']].
    + exists (mkTK T k). split; [set_solver|done].
    + destruct (Hidx k' it'' Hk') as (e & He & Hke). exists e. split; [|done].
      apply elem_of_app. left. apply elem_of_set_erase; [done|]. split; [done|]. cbn.
      intros Hte. apply Hne. rewrite <- Hke. symmetry. by apply (Hown k it e).
  - intros k' it'' e. rewrite lookup_insert_Some. intros [[<- <-]|[Hne Hk']] [->|[He Hte]]%Hin.
    + done.
    + intros Hte'. destruct Hts as [Hts|Hts]; [congruence|]. apply Hset in He. lia.
    + intros Hte. cbn in Hte. apply Hmap in Hk'. lia.
    + by apply Hown.
Qed.

(** A new entry under the fresh timestamp [T]. *)
Lemma bucket_ok_new h T s m k it :
  getHashTblNbrFromKey k = h -> 0 <= T -> getTimestampFromMap it = T ->
  bucket_ok h T s m ->
  bucket_ok h (T + 1) (set_insert (mkTK T k) s) (<[k := it]> m).
Proof.
  intros Hh HT Hts [Hs Hset Hmap Hidx Hown].
  assert (set_insert (mkTK T k) s = s ++ [mkTK T k]) as Heq.
  { apply set_insert_fresh. intros e He. apply Hset in He. cbn. lia. }
  split.
  - by apply sorted_set_insert.
  - intros e [->|He]%elem_of_set_insert; [cbn; split; [lia|done]|].
    destruct (Hset e He). split; [lia|done].
  - intros k' it'. rewrite lookup_insert_Some. intros [[<- <-]|[Hne Hk']]; [split; [done|lia]|].
    destruct (Hmap k' it' Hk'). split; [done|lia].
  - intros k' it'. rewrite lookup_insert_Some, Heq. intros [[<- <-]|[Hne Hk']].
    + exists (mkTK T k). split; [set_solver|done].
    + destruct (Hidx k' it' Hk') as (e & He & Hke). exists e. split; [set_solver|done].
  - intros k' it' e. rewrite lookup_insert_Some.
    intros [[<- <-]|[Hne Hk']] [->|He]%elem_of_set_insert Hte; cbn in *.
    + done.
    + apply Hset in He. lia.
    + apply Hmap in Hk'. lia.
    + by apply (Hown k' it' e).
Qed.

(** Evicting an element of the set together with the map entry of its key, if any. *)
Lemma bucket_ok_evict h T s m e :
  e ∈ s -> bucket_ok h T s m -> bucket_ok h T (set_erase e s) (delete (key e) m).
Proof.
  intros He [Hs Hset Hmap Hidx Hown]. split.
  - by apply sorted_set_erase.
  - intros e' He'. apply Hset. by apply elem_of_set_erase in He' as [? _].
  - intros k it [_ Hk]%lookup_delete_Some. eauto.
  - intros k it [Hne Hk]%lookup_delete_Some. destruct (Hidx k it Hk) as (e' & He' & Hke).
    exists e'. split; [|done]. apply elem_of_set_erase; [done|]. split; [done|].
    intros Hte. apply Hne. by rewrite <- Hke, (sorted_unique s e' e).
  - intros k it e' [_ Hk]%lookup_delete_Some [He' _]%elem_of_set_erase Hte; eauto.
Qed.

(** Dropping an element whose key is no longer in the map. *)
Lemma bucket_ok_drop h T s m e :
  e ∈ s -> m !! key e = None -> bucket_ok h T s m -> bucket_ok h T (set_erase e s) m.
Proof. intros He Hk Hb. rewrite <- (delete_id m (key e) Hk). by apply bucket_ok_evict. Qed.

(** ** Worlds *)

(** No mutex is held: the state between operations. *)
Definition free : list bool := replicate 10 false.
Definition quiet (w : World) : Prop :=
  gTimestampToKeyMutex w = free /\ gKeyToValueMutex w = free.

(** The two tables of a bucket. *)
Definition set_of (w : World) (h : Z) : list TimestampToKeyStruct := aget (gTimestampToKeySet w) h.
Definition map_of (w : World) (h : Z) : gmap cstring entry := aget (gKeyToValueHashMap w) h.

(** Writing the two tables of a bucket. *)
Definition put_bucket (h : Z) (s : list TimestampToKeyStruct) (m : gmap cstring entry)
    (w : World) : World :=
  set_gTimestampToKeySet (aset (gTimestampToKeySet w) h s)
    (set_gKeyToValueHashMap (aset (gKeyToValueHashMap w) h m) w).

Definition gen_ok (g : option MT.engine) : Prop :=
  match g with Some g => MT.wf g | None => True end.

Record wf (w : World) : Prop := {
  wf_sets : List.length (gTimestampToKeySet w) = 10%nat;
  wf_maps : List.length (gKeyToValueHashMap w) = 10%nat;
  wf_bucket h : 0 <= h < 10 -> bucket_ok h (gTimestamp w) (set_of w h) (map_of w h);
  wf_flush : 0 <= gFlushAllTimestamp w <= gTimestamp w;
  wf_gen : gen_ok (generator w);
}.

Lemma initial_wf limit workers : wf (initial_world limit workers).
Proof.
  split; [done|done| |cbn; lia|done].
  intros h Hh. unfold set_of, map_of, aget.
  cbn [gTimestampToKeySet gKeyToValueHashMap initial_world].
  rewrite !lookup_total_replicate_2 by lia. apply bucket_ok_empty.
Qed.

Lemma initial_quiet limit workers : quiet (initial_world limit workers).
Proof. by split. Qed.

Lemma in_range_10 {A} (a : list A) h : List.length a = 10%nat -> 0 <= h < 10 -> in_range a h.
Proof. unfold in_range. lia. Qed.

(** Reading the tables of [w'] after a write to bucket [h] of [w]. *)
Lemma set_of_update w w' h s h' :
  wf w -> gTimestampToKeySet w' = aset (gTimestampToKeySet w) h s -> 0 <= h < 10 -> 0 <= h' ->
  set_of w' h' = if decide (h = h') then s else set_of w h'.
Proof.
  intros Hw E Hh Hh'. unfold set_of. rewrite E. case_decide as Heq; [subst h'|].
  - apply aget_aset_eq, in_range_10; [apply Hw|done].
  - apply aget_aset_ne; lia.
Qed.

Lemma map_of_update w w' h m h' :
  wf w -> gKeyToValueHashMap w' = aset (gKeyToValueHashMap w) h m -> 0 <= h < 10 -> 0 <= h' ->
  map_of w' h' = if decide (h = h') then m else map_of w h'.
Proof.
  intros Hw E Hh Hh'. unfold map_of. rewrite E. case_decide as Heq; [subst h'|].
  - apply aget_aset_eq, in_range_10; [apply Hw|done].
  - apply aget_aset_ne; lia.
Qed.

(** A change of one bucket that leaves it in order, with the counters not moved back. *)
Lemma wf_update h s m w w' :
  wf w -> 0 <= h < 10 ->
  gTimestampToKeySet w' = aset (gTimestampToKeySet w) h s ->
  gKeyToValueHashMap w' = aset (gKeyToValueHashMap w) h m ->
  gTimestamp w <= gTimestamp w' -> 0 <= gFlushAllTimestamp w' <= gTimestamp w' ->
  gen_ok (generator w') -> bucket_ok h (gTimestamp w') s m -> wf w'.
Proof.
  intros [Hsl Hml Hbk Hf Hgen] Hh Es Em HT Hf' Hg Hb.
  split; rewrite ?Es, ?Em, ?length_aset; [done..| |done|done].
  intros h' Hh'. unfold set_of, map_of. rewrite Es, Em. destruct (decide (h = h')) as [<-|Hne].
  - rewrite !aget_aset_eq by by apply in_range_10. done.
  - rewrite !aget_aset_ne by lia. eapply bucket_ok_mono; [exact HT|]. by apply Hbk.
Qed.

(** The same when only the map changes, or no table at all. *)
Lemma wf_update_map h m w w' :
  wf w -> 0 <= h < 10 ->
  gTimestampToKeySet w' = gTimestampToKeySet w ->
  gKeyToValueHashMap w' = aset (gKeyToValueHashMap w) h m ->
  gTimestamp w <= gTimestamp w' -> 0 <= gFlushAllTimestamp w' <= gTimestamp w' ->
  gen_ok (generator w') -> bucket_ok h (gTimestamp w') (set_of w h) m -> wf w'.
Proof.
  intros Hw Hh Es. eapply wf_update; [done..|]. rewrite Es. symmetry. apply aset_aget.
  apply in_range_10; [apply Hw|done].
Qed.

Lemma wf_same w w' :
  wf w -> gTimestampToKeySet w' = gTimestampToKeySet w ->
  gKeyToValueHashMap w' = gKeyToValueHashMap w -> gTimestamp w <= gTimestamp w' ->
  0 <= gFlushAllTimestamp w' <= gTimestamp w' -> gen_ok (generator w') -> wf w'.
Proof.
  intros [Hsl Hml Hbk Hf Hgen] Es Em HT Hf' Hg.
  split; rewrite ?Es, ?Em; [done..| |done|done].
  intros h Hh. unfold set_of, map_of. rewrite Es, Em.
  eapply bucket_ok_mono; [exact HT|]. by apply Hbk.
Qed.

(** ** Mutexes *)

Lemma aget_free h : 0 <= h < 10 -> aget free h = false.
Proof. intros H. unfold aget, free. by rewrite lookup_total_replicate_2 by lia. Qed.

Lemma relock_free h : 0 <= h < 10 -> aset (aset free h true) h false = free.
Proof.
  intros H. rewrite aset_aset, <- (aget_free h H). apply aset_aget. unfold in_range, free. cbn. lia.
Qed.

(** The world after the clock was read, and after a timestamp was taken. *)
Definition tick (w : World) : World := set_ticks (S (ticks w)) w.
Definition stamp `{DM : DataModel} (w : World) : World := set_gTimestamp (ulong (gTimestamp w + 1)) (tick w).
Definition now `{E : Env} (w : World) : Z := clock (ticks w).

(** Runs an operation symbolically from a world whose fields are variables and whose
    mutexes are free. *)
Ltac exec_mutex :=
  repeat first
    [ rewrite aget_free by auto with cxx
    | rewrite relock_free by auto with cxx
    | rewrite aset_aset
    | rewrite aget_aset_eq by (apply in_range_10; auto with cxx) ].
Ltac exec_unfold :=
  cbv beta iota zeta delta [
    DbLru.gTimestampToKeySet DbLru.gKeyToValueHashMap DbLru.gTimestampToKeyMutex
    DbLru.gKeyToValueMutex DbLru.gStoredSize DbLru.gTimestamp DbLru.gFlushAllTimestamp
    DbLru.gFlushAllTime DbLru.gIsFlushAllSet DbLru.generator DbLru.gServMemLimit
    DbLru.gServWorkerThreads DbLru.ticks DbLru.allocs set_gTimestampToKeySet
    set_gKeyToValueHashMap set_gTimestampToKeyMutex set_gKeyToValueMutex set_gStoredSize
    set_gTimestamp set_gFlushAllTimestamp set_gFlushAllTime set_gIsFlushAllSet
    set_generator set_gServMemLimit set_gServWorkerThreads set_ticks set_allocs bind ret
    stuck throw gets modify lift sys_time lock_tk unlock_tk lock_kv unlock_kv get_set
    put_set get_map put_map stored_sub stored_add fetch_timestamp emplace
    draw_static_cas insert_place add_place evict_entry tick stamp now put_bucket set_of map_of negb andb ].
Ltac exec := repeat (progress (exec_unfold; exec_mutex)).

(** Starts such a run. *)
Ltac exec_start w H :=
  destruct w as [ss mm l1 l2 sz T fts ft fs g lim wk tk al]; destruct H as [Q1 Q2];
  cbn [DbLru.gTimestampToKeyMutex DbLru.gKeyToValueMutex] in Q1, Q2; subst l1 l2; cbn zeta.

Section Runs.
Context `{DM : DataModel} `{E : Env}.

Lemma dbGetElement_run k refs w : quiet w ->
  let h := getHashTblNbrFromKey k in
  dbGetElement k refs w =
  match map_of w h !! k with
  | None => (Ret (NOT_EXIST, refs), stamp w)
  | Some it =>
    if is_expired (now w) (gFlushAllTimestamp w) it then
      (Ret (NOT_EXIST, refs),
       set_gKeyToValueHashMap (aset (gKeyToValueHashMap w) h (delete k (map_of w h))) (stamp w))
    else
      (Ret (SUCCESS, mkRefs (getFlagsFromMap it) (getCasFromMap it) (getValueFromMap it)
                       (ulong (getExpiryFromMap it - ulong (now w)))),
       put_bucket h
         (set_insert (mkTK (gTimestamp w) k)
            (set_erase (mkTK (getTimestampFromMap it) k) (set_of w h)))
         (<[k := setTimestampToMap it (gTimestamp w)]> (map_of w h)) (stamp w))
  end.
Proof.
  intros Hq. exec_start w Hq. unfold dbGetElement. exec.
  destruct (aget mm (getHashTblNbrFromKey k) !! k) as [it|] eqn:Ek; exec; [|done].
  destruct (is_expired _ _ it) eqn:Ex; exec; done.
Qed.

Lemma dbDeleteElement_run k exp w : quiet w ->
  let h := getHashTblNbrFromKey k in
  let put m := set_gKeyToValueHashMap (aset (gKeyToValueHashMap w) h m) (tick w) in
  dbDeleteElement k exp w =
  match map_of w h !! k with
  | None => (Ret NOT_EXIST, tick w)
  | Some it =>
    if is_expired (now w) (gFlushAllTimestamp w) it then (Ret NOT_EXIST, tick w)
    else if exp =? 0 then (Ret SUCCESS, put (delete k (map_of w h)))
    else (Ret SUCCESS, put (<[k := setExpiryToMap it (ulong (now w + exp))]> (map_of w h)))
  end.
Proof.
  intros Hq. exec_start w Hq. unfold dbDeleteElement. exec.
  destruct (aget mm (getHashTblNbrFromKey k) !! k) as [it|] eqn:Ek; exec; [|done].
  destruct (is_expired _ _ it) eqn:Ex; exec; [done|].
  destruct (exp =? 0); exec; done.
Qed.

Lemma dbSetFlushAll_run exp w :
  dbSetFlushAll exp w =
  (Ret tt, set_gFlushAllTime (ulong (now w + exp)) (set_gIsFlushAllSet true (tick w))).
Proof. reflexivity. Qed.

Lemma dbHandleFlushAll_run w :
  dbHandleFlushAll w =
  if gIsFlushAllSet w then
    if gFlushAllTime w <=? ulong (now w) then
      (Ret tt, set_gIsFlushAllSet false
        (set_gFlushAllTimestamp (ulong (gTimestamp w + 1)) (stamp w)))
    else (Ret tt, tick w)
  else (Ret tt, w).
Proof.
  destruct w as [ss mm l1 l2 sz T fts ft fs g lim wk tk al]. unfold dbHandleFlushAll. exec.
  destruct fs; exec; [|done]. destruct (_ <=? _); exec; done.
Qed.

(** Which entry the scan picks is one of the set, found in the map or not as the case says. *)
Lemma lru_scan_spec kv cur fts s one :
  match lru_scan kv cur fts s one with
  | PickDeleted e => e ∈ s /\ kv !! key e = None
  | PickExpired e v => e ∈ s /\ kv !! key e = Some v /\ is_expired cur fts v = true
  | PickVictim e v => (e ∈ s \/ one = Some e) /\ kv !! key e = Some v
  | PickNone => True
  | PickUndefined => exists e, one = Some e /\ kv !! key e = None
  end.
Proof.
  revert one. induction s as [|e s IH]; intros one; [done|]. cbn.
  destruct (kv !! key e) as [v|] eqn:Ek; [|split; [set_solver|done]].
  destruct (is_expired cur fts v) eqn:Ex; [split; [set_solver|done]|].
  destruct one as [e0|].
  - destruct (kv !! key e0) as [v0|] eqn:E0; [|eauto].
    destruct (_ <? _); split; try done; [left; set_solver|by right].
  - specialize (IH (Some e)).
    destruct (lru_scan kv cur fts s (Some e)) as [e'|e' v'|e' v'| |]; [set_solver..|done|].
    destruct IH as (e' & [= <-] & He'). congruence.
Qed.

(** One call of [removeLRUElement] from a quiet world. *)
Lemma removeLRUElement_run h w : quiet w -> 0 <= h < 10 ->
  let s := set_of w h in
  let m := map_of w h in
  let w1 := tick w in
  removeLRUElement h w =
  match lru_scan m (now w) (gFlushAllTimestamp w) s None with
  | PickDeleted e =>
    (Ret tt, set_gStoredSize (ulong (gStoredSize w - (size (key e) + sizeof_ulong)))
               (set_gTimestampToKeySet (aset (gTimestampToKeySet w) h (set_erase e s)) w1))
  | PickExpired e v | PickVictim e v =>
    (Ret tt, set_gStoredSize (ulong (gStoredSize w - evicted_size e v))
               (put_bucket h (set_erase e s) (delete (key e) m) w1))
  | PickNone =>
    let w2 := set_gTimestampToKeyMutex (aset free h true)
                (set_gKeyToValueMutex (aset free h true) w1) in
    if singular_eq_end then (Ret tt, w2) else (Stuck Undefined, w2)
  | PickUndefined =>
    (Stuck Undefined, set_gTimestampToKeyMutex (aset free h true)
                        (set_gKeyToValueMutex (aset free h true) w1))
  end.
Proof.
  intros Hq Hh. exec_start w Hq. unfold removeLRUElement. exec.
  destruct (lru_scan _ _ _ _ _); exec; try done. destruct singular_eq_end; exec; done.
Qed.

(** The bytes an update takes off [gStoredSize]. *)
Definition size_diff (it : entry) (newCas f v : cstring) : Z :=
  s32 (sizeof_ulong - sizeof_ulong + size (getCasFromMap it) - size newCas
       + size (getFlagsFromMap it) - size f + size (getValueFromMap it) - size v).

(** The entry an update leaves: it keeps the timestamp of the old one. *)
Definition updated (it : entry) (cur exp : Z) (newCas f v : cstring) : entry :=
  (mkValue (ulong (cur + exp)) v f newCas, getTimestampFromMap it).

Definition alloced (w : World) : World := set_allocs (S (allocs w)) w.

Lemma insert_place_run cur ts newCas k f cas v exp w :
  quiet w -> wf w -> emplace_throws (allocs w) = false ->
  let h := getHashTblNbrFromKey k in
  let s := set_of w h in
  let m := map_of w h in
  let casCheck := negb (str_eqb cas []) in
  insert_place h cur ts newCas k f cas v exp w =
  match m !! k with
  | Some it =>
    if casCheck && negb (str_eqb (getCasFromMap it) cas) then (Ret EXIST, alloced w)
    else (Ret SUCCESS,
          set_gStoredSize (ulong (gStoredSize w - size_diff it newCas f v))
            (put_bucket h (set_insert (mkTK ts k) (set_erase (mkTK (getTimestampFromMap it) k) s))
               (<[k := updated it cur exp newCas f v]> m) (alloced w)))
  | None =>
    if casCheck then (Ret NOT_EXIST, alloced w)
    else (Ret SUCCESS,
          set_gStoredSize (ulong (gStoredSize w + insert_need k f newCas v))
            (put_bucket h (set_insert (mkTK ts k) s)
               (<[k := (mkValue (new_expiry cur exp) v f newCas, ts)]> m) (alloced w)))
  end.
Proof.
  intros Hq Hw Ha. pose proof (wf_sets w Hw) as Hs. pose proof (wf_maps w Hw) as Hm. clear Hw.
  exec_start w Hq. cbn [DbLru.gTimestampToKeySet DbLru.gKeyToValueHashMap DbLru.allocs] in *.
  exec. unfold alloced. rewrite Ha. exec.
  destruct (aget mm (getHashTblNbrFromKey k) !! k) as [it|] eqn:Ek; exec.
  - destruct (str_eqb cas []), (str_eqb (getCasFromMap it) cas); exec; done.
  - destruct (str_eqb cas []); exec; [done|]. rewrite delete_insert_id by done.
    rewrite aset_aget by (apply in_range_10; auto with cxx). done.
Qed.

Lemma add_place_run cur ts newCas k f v exp w :
  quiet w -> wf w -> emplace_throws (allocs w) = false ->
  let h := getHashTblNbrFromKey k in
  let s := set_of w h in
  let m := map_of w h in
  add_place h cur ts newCas k f v exp w =
  match m !! k with
  | Some it =>
    if is_expired cur (gFlushAllTimestamp w) it then
      (Ret SUCCESS,
       put_bucket h (set_insert (mkTK ts k) (set_erase (mkTK (getTimestampFromMap it) k) s))
         (<[k := updated it cur exp newCas f v]> m) (alloced w))
    else (Ret EXIST, alloced w)
  | None =>
    (Ret SUCCESS,
     set_gStoredSize (ulong (gStoredSize w + insert_need k f newCas v))
       (put_bucket h (set_insert (mkTK ts k) s)
          (<[k := (mkValue (new_expiry cur exp) v f newCas, ts)]> m) (alloced w)))
  end.
Proof.
  intros Hq Hw Ha. pose proof (wf_sets w Hw) as Hs. pose proof (wf_maps w Hw) as Hm. clear Hw.
  exec_start w Hq. cbn [DbLru.gTimestampToKeySet DbLru.gKeyToValueHashMap DbLru.allocs] in *.
  exec. unfold alloced. rewrite Ha. exec.
  destruct (aget mm (getHashTblNbrFromKey k) !! k) as [it|] eqn:Ek; exec; [|done].
  destruct (is_expired _ _ it); exec; done.
Qed.

(** ** Preservation *)

Lemma next_timestamp w : wf w -> gTimestamp w + 1 < ULONG_MOD ->
  ulong (gTimestamp w + 1) = gTimestamp w + 1.
Proof. intros [] ?. apply ulong_small. lia. Qed.

Lemma stamp_wf w : wf w -> gTimestamp w + 1 < ULONG_MOD -> wf (stamp w).
Proof.
  intros Hw HT. pose proof (wf_flush w Hw). pose proof (wf_gen w Hw).
  apply (wf_same w); cbn; rewrite ?next_timestamp by done; done || lia.
Qed.

Lemma tick_wf w : wf w -> wf (tick w).
Proof. intros Hw. apply (wf_same w); cbn; apply Hw || done || lia. Qed.

Lemma dbGetElement_wf k refs w : quiet w -> wf w -> gTimestamp w + 1 < ULONG_MOD ->
  exists r w', dbGetElement k refs w = (Ret r, w') /\ quiet w' /\ wf w'.
Proof.
  intros Hq Hw HT. rewrite dbGetElement_run by done. cbn zeta.
  pose proof (stamp_wf w Hw HT) as Hs. pose proof (wf_flush w Hw). pose proof (wf_gen w Hw).
  destruct (map_of w (getHashTblNbrFromKey k) !! k) as [it|] eqn:Ek; [|eauto].
  pose proof (wf_bucket w Hw (getHashTblNbrFromKey k) (hash_range k)) as Hb.
  destruct (is_expired _ _ it); (do 2 eexists; split; [reflexivity|split; [exact Hq|]]).
  - eapply (wf_update_map (getHashTblNbrFromKey k) _ w); [done|auto with cxx|done|done|..];
      cbn; rewrite ?next_timestamp by done; try (done || lia).
    eapply bucket_ok_mono, bucket_ok_delete, Hb. lia.
  - eapply (wf_update (getHashTblNbrFromKey k) _ _ w); [done|auto with cxx|done|done|..];
      cbn; rewrite ?next_timestamp by done; try (done || lia).
    eapply bucket_ok_move; [exact Ek|by right|done].
Qed.

Lemma dbDeleteElement_wf k exp w : quiet w -> wf w ->
  exists r w', dbDeleteElement k exp w = (Ret r, w') /\ quiet w' /\ wf w'.
Proof.
  intros Hq Hw. rewrite dbDeleteElement_run by done. cbn zeta.
  pose proof (tick_wf w Hw) as Ht. pose proof (wf_flush w Hw). pose proof (wf_gen w Hw).
  destruct (map_of w (getHashTblNbrFromKey k) !! k) as [it|] eqn:Ek; [|eauto].
  pose proof (wf_bucket w Hw (getHashTblNbrFromKey k) (hash_range k)) as Hb.
  destruct (is_expired _ _ it); [eauto|].
  destruct (exp =? 0); (do 2 eexists; split; [reflexivity|split; [exact Hq|]]);
    (eapply (wf_update_map (getHashTblNbrFromKey k) _ w); [done|auto with cxx|done|done|..];
     cbn; try (done || lia)).
  - by apply bucket_ok_delete.
  - by eapply bucket_ok_update.
Qed.

Lemma dbSetFlushAll_wf exp w : quiet w -> wf w ->
  exists w', dbSetFlushAll exp w = (Ret tt, w') /\ quiet w' /\ wf w'.
Proof.
  intros Hq Hw. rewrite dbSetFlushAll_run. eexists. split; [done|]. split; [exact Hq|].
  apply (wf_same w); cbn; apply Hw || done || lia.
Qed.

Lemma dbHandleFlushAll_wf w : quiet w -> wf w -> gTimestamp w + 1 < ULONG_MOD ->
  exists w', dbHandleFlushAll w = (Ret tt, w') /\ quiet w' /\ wf w'.
Proof.
  intros Hq Hw HT. rewrite dbHandleFlushAll_run.
  destruct (gIsFlushAllSet w); [|eauto]. pose proof (wf_flush w Hw). pose proof (wf_gen w Hw).
  destruct (_ <=? _); (eexists; split; [done|split; [exact Hq|]]); [|by apply tick_wf].
  apply (wf_same w); cbn; rewrite ?next_timestamp by done; done || lia.
Qed.

Lemma draw_static_cas_run cur w :
  exists c g, draw_static_cas cur w = (Ret c, set_generator (Some g) w)
    /\ (gen_ok (generator w) -> MT.wf g)
    /\ (gen_ok (generator w) -> exists x, MT.word x /\ c = to_string x).
Proof.
  unfold draw_static_cas.
  set (g := match generator w with Some g => g | None => MT.seed (u32 cur) end).
  assert (gen_ok (generator w) -> MT.wf g) as Hg
    by (unfold g; destruct (generator w); [done|intros _; apply MT.seed_wf]).
  destruct (MT.next g) as [x g'] eqn:En. do 2 eexists. split; [reflexivity|].
  split; intros Ho; destruct (MT.next_wf g (Hg Ho)) as [H1 H2]; rewrite En in H1, H2; [done|eauto].
Qed.

Lemma insert_place_wf cur newCas k f cas v exp w ts :
  quiet w -> wf w -> emplace_throws (allocs w) = false ->
  ts < gTimestamp w ->
  (forall h, 0 <= h < 10 -> bucket_ok h ts (set_of w h) (map_of w h)) ->
  0 <= ts ->
  exists r w', insert_place (getHashTblNbrFromKey k) cur ts newCas k f cas v exp w = (Ret r, w')
    /\ quiet w' /\ wf w'.
Proof.
  intros Hq Hw Ha HT Hold Hts. rewrite insert_place_run by done. cbn zeta.
  pose proof (wf_flush w Hw). pose proof (wf_gen w Hw).
  assert (wf (alloced w)) as Hal by (apply (wf_same w); cbn; done || lia).
  pose proof (Hold _ (hash_range k)) as Hb.
  destruct (map_of w (getHashTblNbrFromKey k) !! k) as [it|] eqn:Ek;
    (destruct (negb (str_eqb cas []) && _) || destruct (negb (str_eqb cas []))); [eauto| |eauto|];
    (do 2 eexists; split; [reflexivity|split; [exact Hq|]]);
    (eapply (wf_update (getHashTblNbrFromKey k) _ _ w); [done|auto with cxx|done|done|..];
     cbn; try (done || lia)).
  - apply (bucket_ok_mono _ (ts + 1)); [lia|]. eapply bucket_ok_move; [exact Ek|by left|done].
  - apply (bucket_ok_mono _ (ts + 1)); [lia|]. by eapply bucket_ok_new.
Qed.

Lemma add_place_wf cur newCas k f v exp w ts :
  quiet w -> wf w -> emplace_throws (allocs w) = false ->
  ts < gTimestamp w ->
  (forall h, 0 <= h < 10 -> bucket_ok h ts (set_of w h) (map_of w h)) ->
  0 <= ts ->
  exists r w', add_place (getHashTblNbrFromKey k) cur ts newCas k f v exp w = (Ret r, w')
    /\ quiet w' /\ wf w'.
Proof.
  intros Hq Hw Ha HT Hold Hts. rewrite add_place_run by done. cbn zeta.
  pose proof (wf_flush w Hw). pose proof (wf_gen w Hw).
  assert (wf (alloced w)) as Hal by (apply (wf_same w); cbn; done || lia).
  pose proof (Hold _ (hash_range k)) as Hb.
  destruct (map_of w (getHashTblNbrFromKey k) !! k) as [it|] eqn:Ek;
    [destruct (is_expired _ _ it); [|eauto]|];
    (do 2 eexists; split; [reflexivity|split; [exact Hq|]]);
    (eapply (wf_update (getHashTblNbrFromKey k) _ _ w); [done|auto with cxx|done|done|..];
     cbn; try (done || lia)).
  - apply (bucket_ok_mono _ (ts + 1)); [lia|]. eapply bucket_ok_move; [exact Ek|by left|done].
  - apply (bucket_ok_mono _ (ts + 1)); [lia|]. by eapply bucket_ok_new.
Qed.

End Runs.

(** * Eviction

    What one call of [removeLRUElement] does to a bucket, and that the loops of
    [dbInsertElement] and [dbAddElement] that make room end: every round either leaves the
    loop, moves to the next bucket or removes an element of an ordered set. The only other
    end is the fault of a bucket in which the scan finds fewer than two live entries and
    nothing to discard: there the function returns with both mutexes of the bucket held. *)

Section Evict.
Context `{DM : DataModel} `{E : Env}.

(** What eviction may change: entries and set elements go away, nothing else happens. *)
Record evicted (w w' : World) : Prop := {
  ev_time : gTimestamp w' = gTimestamp w;
  ev_flush : gFlushAllTimestamp w' = gFlushAllTimestamp w;
  ev_flush_time : gFlushAllTime w' = gFlushAllTime w;
  ev_flush_set : gIsFlushAllSet w' = gIsFlushAllSet w;
  ev_gen : generator w' = generator w;
  ev_limit : gServMemLimit w' = gServMemLimit w;
  ev_workers : gServWorkerThreads w' = gServWorkerThreads w;
  ev_allocs : allocs w' = allocs w;
  ev_ticks : (ticks w <= ticks w')%nat;
  ev_map h k it : 0 <= h < 10 -> map_of w' h !! k = Some it -> map_of w h !! k = Some it;
  ev_bucket h T : 0 <= h < 10 ->
    bucket_ok h T (set_of w h) (map_of w h) -> bucket_ok h T (set_of w' h) (map_of w' h);
}.

#[export] Instance evicted_preorder : PreOrder evicted.
Proof.
  split.
  - intros w. split; auto.
  - intros w1 w2 w3 [] []. split; try congruence; try lia; eauto.
Qed.

Lemma evicted_wf w w' :
  evicted w w' -> wf w -> List.length (gTimestampToKeySet w') = 10%nat ->
  List.length (gKeyToValueHashMap w') = 10%nat -> wf w'.
Proof.
  intros [] [Hs Hm Hb Hf Hg] Hl1 Hl2. split; try congruence.
  intros h Hh. rewrite ev_time0. auto.
Qed.

(** Whether the scan of a bucket finds something to remove. *)
Definition pickable (w : World) (h : Z) : bool :=
  match lru_scan (map_of w h) (now w) (gFlushAllTimestamp w) (set_of w h) None with
  | PickNone => false
  | _ => true
  end.

Lemma sum_list_insert {A} (f : A -> nat) (l : list A) i x y :
  l !! i = Some x -> (sum_list_with f (<[i := y]> l) + f x = sum_list_with f l + f y)%nat.
Proof.
  revert i. induction l as [|a l IH]; intros [|i]; cbn; [done|done|intros [= ->]; lia|].
  intros H. specialize (IH i H).
  change ((f a + sum_list_with f (<[i := y]> l)) + f x = f a + sum_list_with f l + f y)%nat. lia.
Qed.

Lemma total_entries_aset w w' h s :
  wf w -> 0 <= h < 10 -> gTimestampToKeySet w' = aset (gTimestampToKeySet w) h s ->
  (total_entries w' + List.length (set_of w h) = total_entries w + List.length s)%nat.
Proof.
  intros Hw Hh Es. unfold total_entries. rewrite Es. apply sum_list_insert.
  unfold set_of, aget. apply list_lookup_lookup_total_lt. rewrite (wf_sets w Hw). lia.
Qed.

Lemma put_bucket_map_id h s w : wf w -> 0 <= h < 10 ->
  put_bucket h s (map_of w h) (tick w) =
  set_gTimestampToKeySet (aset (gTimestampToKeySet w) h s) (tick w).
Proof.
  intros Hw Hh. unfold put_bucket, map_of, tick. cbn.
  rewrite aset_aget by (apply in_range_10; [apply Hw|done]). by destruct w.
Qed.

(** Removing element [e] of the set and the map entry of its key. *)
Lemma evict_bucket h w e sz w' m' :
  quiet w -> wf w -> 0 <= h < 10 -> e ∈ set_of w h -> m' = delete (key e) (map_of w h) ->
  w' = set_gStoredSize sz (put_bucket h (set_erase e (set_of w h)) m' (tick w)) ->
  quiet w' /\ wf w' /\ evicted w w' /\ set_of w' h = set_erase e (set_of w h)
  /\ map_of w' h = m' /\ S (total_entries w') = total_entries w.
Proof.
  intros Hq Hw Hh He Hm Hw'.
  assert (gTimestampToKeySet w' = aset (gTimestampToKeySet w) h (set_erase e (set_of w h))) as Es
    by by subst.
  assert (gKeyToValueHashMap w' = aset (gKeyToValueHashMap w) h m') as Em by by subst.
  assert (evicted w w') as Hev.
  { split; [subst; cbn; done || lia..| |].
    - intros h' k' it' Hh'. rewrite (map_of_update w w' h m' h') by (done || lia).
      case_decide as Heq; [|done]. subst h' m'. by intros [_ ?]%lookup_delete_Some.
    - intros h' T' Hh' Hbk.
      rewrite (map_of_update w w' h m' h'), (set_of_update w w' h _ h' Hw Es) by (done || lia).
      case_decide as Heq; [|done]. subst h' m'. by apply bucket_ok_evict. }
  split; [subst; exact Hq|]. split.
  { eapply evicted_wf; [exact Hev|done|..]; rewrite ?Es, ?Em, length_aset; apply Hw. }
  rewrite (map_of_update w w' h m' h), (set_of_update w w' h _ h Hw Es) by (done || lia).
  rewrite !decide_True by done. repeat (split; [done|]).
  pose proof (total_entries_aset w w' h _ Hw Hh Es).
  pose proof (length_set_erase e _ (bo_sorted _ _ _ _ (wf_bucket w Hw h Hh)) He). lia.
Qed.

(** One call on a bucket with something to remove: a set element goes, with the map entry
    of its key if there is one, and the mutexes are free again. *)
Lemma removeLRUElement_evicts h w : quiet w -> wf w -> 0 <= h < 10 -> pickable w h = true ->
  exists e w', removeLRUElement h w = (Ret tt, w') /\ quiet w' /\ wf w' /\ evicted w w'
    /\ e ∈ set_of w h
    /\ set_of w' h = set_erase e (set_of w h) /\ map_of w' h = delete (key e) (map_of w h)
    /\ S (total_entries w') = total_entries w.
Proof.
  intros Hq Hw Hh Hp.
  enough (exists e sz, e ∈ set_of w h /\ removeLRUElement h w =
    (Ret tt, set_gStoredSize sz (put_bucket h (set_erase e (set_of w h))
               (delete (key e) (map_of w h)) (tick w)))) as (e & sz & He & Hrun).
  { destruct (evict_bucket h w e sz _ _ Hq Hw Hh He eq_refl eq_refl) as (?&?&?&?&?&?).
    exists e. eexists. split; [exact Hrun|]. repeat (split; [done|]). done. }
  pose proof (lru_scan_spec (map_of w h) (now w) (gFlushAllTimestamp w) (set_of w h) None) as Hscan.
  rewrite removeLRUElement_run by done. cbn zeta. unfold pickable in Hp.
  destruct (lru_scan _ _ _ _ _) as [e|e v|e v| |]; [..|done|].
  - destruct Hscan as [He Hk]. exists e. eexists. split; [done|]. rewrite delete_id by done.
    rewrite put_bucket_map_id by done. reflexivity.
  - destruct Hscan as (He & _ & _). eauto.
  - destruct Hscan as ([He|?] & _); [eauto|done].
  - by destruct Hscan as (e & ? & _).
Qed.

(** A bucket in which the scan finds nothing to remove: the call changes no table, and if it
    returns at all it returns with both mutexes of the bucket held. *)
Lemma removeLRUElement_leaks h w : quiet w -> 0 <= h < 10 -> pickable w h = false ->
  exists w', removeLRUElement h w = (if singular_eq_end then Ret tt else Stuck Undefined, w')
    /\ gTimestampToKeyMutex w' = aset free h true /\ gKeyToValueMutex w' = aset free h true
    /\ gTimestampToKeySet w' = gTimestampToKeySet w
    /\ gKeyToValueHashMap w' = gKeyToValueHashMap w
    /\ gStoredSize w' = gStoredSize w /\ gServMemLimit w' = gServMemLimit w.
Proof.
  intros Hq Hh Hp. rewrite removeLRUElement_run by done. cbn zeta. unfold pickable in Hp.
  destruct (lru_scan _ _ _ _ _); try done.
  destruct singular_eq_end; (eexists; split; [reflexivity|]); done.
Qed.

(** ** Making room *)

(** The test at the head of the loops. *)
Definition fits (w : World) (need : Z) : bool := ulong (gStoredSize w + need) <? gServMemLimit w.

(** How often a loop can move on before it is back at [orig]. *)
Definition hops (h orig : Z) : Z := let d := (orig - h) mod 10 in if d =? 0 then 10 else d.

Lemma hops_pos h orig : 0 < hops h orig <= 10.
Proof.
  unfold hops. pose proof (Z.mod_pos_bound (orig - h) 10).
  destruct (Z.eqb_spec ((orig - h) mod 10) 0); lia.
Qed.

Lemma next_table_range h : 0 <= h < 10 -> 0 <= next_table h < 10.
Proof. unfold next_table, DB_MAX_HASH_TABLES. intros. destruct (Z.eqb_spec h (10 - 1)); cbn; lia. Qed.

Lemma hops_next h orig : 0 <= h < 10 -> 0 <= orig < 10 -> next_table h <> orig ->
  hops (next_table h) orig = hops h orig - 1.
Proof.
  unfold hops, next_table, DB_MAX_HASH_TABLES. intros Hh Ho.
  destruct (Z.eqb_spec h (10 - 1)); cbn [negb]; intros Hne;
    repeat match goal with |- context [?x =? 0] => destruct (Z.eqb_spec x 0) end;
    Z.to_euclidean_division_equations; lia.
Qed.

Lemma insert_make_room_step fuel need h orig w : quiet w -> 0 <= h < 10 ->
  insert_make_room (S fuel) need h orig w =
  if fits w need then (Ret true, w)
  else if (List.length (set_of w h) <=? 0)%nat then
    if orig =? next_table h then (Ret false, w)
    else insert_make_room fuel need (next_table h) orig w
  else bind (removeLRUElement h) (fun _ => insert_make_room fuel need h orig) w.
Proof.
  intros Hq Hh. exec_start w Hq. cbn [insert_make_room]. unfold fits. exec.
  destruct (_ <? _); exec; [done|]. destruct (_ <=? _)%nat; exec; [|done].
  destruct (_ =? _); exec; done.
Qed.

Lemma add_make_room_step fuel need h orig w : quiet w -> 0 <= h < 10 ->
  add_make_room (S fuel) need h orig w =
  if fits w need then (Ret true, w)
  else if (List.length (set_of w h) <=? 0)%nat then
    if orig =? next_table h then (Ret false, w)
    else bind (removeLRUElement (next_table h))
           (fun _ => add_make_room fuel need (next_table h) orig) w
  else bind (removeLRUElement h) (fun _ => add_make_room fuel need h orig) w.
Proof.
  intros Hq Hh. exec_start w Hq. cbn [add_make_room]. unfold fits. exec.
  destruct (_ <? _); exec; [done|]. destruct (_ <=? _)%nat; exec; [|done].
  destruct (_ =? _); exec; done.
Qed.

(** A round that finds the mutex of its bucket held waits for ever. *)
Lemma make_room_locked fuel need h orig w :
  aget (gTimestampToKeyMutex w) h = true -> fits w need = false ->
  insert_make_room (S fuel) need h orig w = (Stuck Deadlock, w)
  /\ add_make_room (S fuel) need h orig w = (Stuck Deadlock, w).
Proof.
  intros Hl Hf. cbn [insert_make_room add_make_room]. unfold bind, gets, lock_tk.
  change (ulong (gStoredSize w + need) <? gServMemLimit w) with (fits w need).
  by rewrite Hf, Hl.
Qed.

(** How a loop that makes room can end. *)
Definition room_made (w : World) (need : Z) (r : outcome bool * World) : Prop :=
  match r with
  | (Ret b, w') => quiet w' /\ wf w' /\ evicted w w' /\ fits w' need = b
  | (Stuck Deadlock, _) => singular_eq_end = true
  | (Stuck Undefined, _) => singular_eq_end = false
  | _ => False
  end.

Lemma room_made_trans w w1 need r : evicted w w1 -> room_made w1 need r -> room_made w need r.
Proof.
  intros Hev. destruct r as [[b|[]|[]] w']; cbn; try done.
  intros (Hq & Hw & Hev' & Hf). repeat (split; [done|]). split; [by transitivity w1|done].
Qed.

(** One eviction inside a loop [k] that goes on at the same bucket. *)
Lemma evict_then need h w (k : M bool) :
  quiet w -> wf w -> 0 <= h < 10 -> fits w need = false ->
  (forall w', aget (gTimestampToKeyMutex w') h = true -> fits w' need = false ->
     k w' = (Stuck Deadlock, w')) ->
  (forall w', quiet w' -> wf w' -> S (total_entries w') = total_entries w ->
     room_made w' need (k w')) ->
  room_made w need (bind (removeLRUElement h) (fun _ => k) w).
Proof.
  intros Hq Hw Hh Hf Hdead Hgo. destruct (pickable w h) eqn:Hp.
  - destruct (removeLRUElement_evicts h w Hq Hw Hh Hp) as (e & w' & Hrun & ? & ? & ? & _ & _ & _ & Ht).
    run Hrun. eapply room_made_trans; [done|]. auto.
  - destruct (removeLRUElement_leaks h w Hq Hh Hp) as (w' & Hrun & Hl & _ & _ & _ & Hs & Hm).
    destruct singular_eq_end eqn:Es.
    + run Hrun. rewrite Hdead; [done| |].
      * rewrite Hl. apply aget_aset_eq. unfold in_range, free. cbn. lia.
      * unfold fits in *. by rewrite Hs, Hm.
    + rewrite (bind_Stuck _ _ _ _ _ Hrun). done.
Qed.

Lemma insert_make_room_spec fuel need h orig w :
  quiet w -> wf w -> 0 <= h < 10 -> 0 <= orig < 10 ->
  Z.of_nat (total_entries w) + hops h orig < Z.of_nat fuel ->
  room_made w need (insert_make_room fuel need h orig w).
Proof.
  revert h w. induction fuel as [|fuel IH]; intros h w Hq Hw Hh Ho Hf;
    [pose proof (hops_pos h orig); lia|].
  pose proof (hops_pos h orig). rewrite insert_make_room_step by done.
  destruct (fits w need) eqn:Hfit; [by repeat (split; [done|])|].
  destruct (Nat.leb_spec (List.length (set_of w h)) 0) as [Hz|Hz].
  - destruct (Z.eqb_spec orig (next_table h)); [by repeat (split; [done|])|].
    apply IH; auto using next_table_range. rewrite hops_next by done. lia.
  - apply evict_then; try done.
    + intros w' Hl Hf'. destruct fuel as [|fuel']; [lia|]. by apply make_room_locked.
    + intros w' ? ? ?. apply IH; auto. lia.
Qed.

Lemma add_make_room_spec fuel need h orig w :
  quiet w -> wf w -> 0 <= h < 10 -> 0 <= orig < 10 ->
  Z.of_nat (total_entries w) + hops h orig < Z.of_nat fuel ->
  room_made w need (add_make_room fuel need h orig w).
Proof.
  revert h w. induction fuel as [|fuel IH]; intros h w Hq Hw Hh Ho Hf;
    [pose proof (hops_pos h orig); lia|].
  pose proof (hops_pos h orig). rewrite add_make_room_step by done.
  destruct (fits w need) eqn:Hfit; [by repeat (split; [done|])|].
  destruct (Nat.leb_spec (List.length (set_of w h)) 0) as [Hz|Hz].
  - destruct (Z.eqb_spec orig (next_table h)); [by repeat (split; [done|])|].
    pose proof (hops_pos (next_table h) orig). pose proof (hops_next h orig).
    apply evict_then; try done; [by apply next_table_range| |].
    + intros w' Hl Hf'. destruct fuel as [|fuel']; [lia|]. by apply make_room_locked.
    + intros w' ? ? ?. apply IH; auto using next_table_range. lia.
  - apply evict_then; try done.
    + intros w' Hl Hf'. destruct fuel as [|fuel']; [lia|]. by apply make_room_locked.
    + intros w' ? ? ?. apply IH; auto. lia.
Qed.

(** The fuel the operations give their loops is enough. *)
Lemma room_fuel_enough w h orig :
  Z.of_nat (total_entries w) + hops h orig < Z.of_nat (room_fuel w).
Proof. pose proof (hops_pos h orig). unfold room_fuel. lia. Qed.

End Evict.
