(* ===== verification/DbLruRefine.v ===== *)
(** * What the database promises: an abstract cache

    A cache maps a key to the stored item and to whether a flush has hidden it. Buckets,
    timestamps, the eviction order, the memory accounting and the mutexes are gone. The
    functions below say what every operation answers and what it leaves, as dblru.cpp does
    it; an insertion may first lose entries to eviction.

    [Database] is the interface of inc/sprot.h that the commands call and [DatabaseLaws]
    is what they may assume of it; DbLruRefine.v shows that dblru.cpp keeps these laws. *)

From stdpp Require Import base list gmap strings.
From Stdlib Require Import ZArith Lia Ascii String.
From S2P Require Import Prelude CxxString MersenneTwister DbLru DbLruInv.

Module Cache.
Section Cache.
Context `{DM : DataModel}.

Definition cache : Type := cstring -> option (ValueStruct * bool).

(** Caches are compared by what they hold for every key. *)
Definition ceq (c d : cache) : Prop := forall k, c k = d k.

Definition put (c : cache) (k : cstring) (x : option (ValueStruct * bool)) : cache :=
  fun k' => if decide (k = k') then x else c k'.

(** [sub c' c]: eviction took some entries of [c] away. *)
Definition sub (c' c : cache) : Prop := forall k x, c' k = Some x -> c k = Some x.

(** The item a client can see at time [t]. *)
Definition visible (c : cache) (t : Z) (k : cstring) : option ValueStruct :=
  match c k with
  | Some (v, false) => if expiry v <? t then None else Some v
  | _ => None
  end.

Definition get_result (c : cache) (t : Z) (k : cstring) (refs : GetRefs) : retStatus * GetRefs :=
  match visible c t k with
  | Some v => (SUCCESS, mkRefs (flags v) (casUniq v) (value v) (ulong (expiry v - t)))
  | None => (NOT_EXIST, refs)
  end.

Definition get_next (c : cache) (t : Z) (k : cstring) : cache :=
  match visible c t k with Some _ => c | None => put c k None end.

Definition delete_result (c : cache) (t : Z) (k : cstring) : retStatus :=
  match visible c t k with Some _ => SUCCESS | None => NOT_EXIST end.

Definition delete_next (c : cache) (t : Z) (k : cstring) (exp : Z) : cache :=
  match visible c t k with
  | Some v =>
    put c k (if exp =? 0 then None
             else Some (mkValue (ulong (t + exp)) (value v) (flags v) (casUniq v), false))
  | None => c
  end.

(** An update sets the expiry to [t + exp] and does not lift a flush. *)
Definition update (old : ValueStruct * bool) (t exp : Z) (f v c : cstring) : ValueStruct * bool :=
  (mkValue (ulong (t + exp)) v f c, old.2).

Definition create (t exp : Z) (f v c : cstring) : ValueStruct * bool :=
  (mkValue (new_expiry t exp) v f c, false).

Definition insert_result (c : cache) (k cas : cstring) : retStatus :=
  match c k with
  | Some (old, _) => if negb (str_eqb cas []) && negb (str_eqb (casUniq old) cas) then EXIST else SUCCESS
  | None => if negb (str_eqb cas []) then NOT_EXIST else SUCCESS
  end.

Definition insert_next (c : cache) (t : Z) (k f cas v newCas : cstring) (exp : Z) : cache :=
  if decide (insert_result c k cas = SUCCESS) then
    put c k (Some (match c k with
                   | Some old => update old t exp f v newCas
                   | None => create t exp f v newCas
                   end))
  else c.

Definition add_result (c : cache) (t : Z) (k : cstring) : retStatus :=
  match visible c t k with Some _ => EXIST | None => SUCCESS end.

Definition add_next (c : cache) (t : Z) (k f v newCas : cstring) (exp : Z) : cache :=
  match visible c t k with
  | Some _ => c
  | None =>
    put c k (Some (match c k with
                   | Some old => update old t exp f v newCas
                   | None => create t exp f v newCas
                   end))
  end.

Definition flush_next (c : cache) : cache := fun k =>
  match c k with Some (v, _) => Some (v, true) | None => None end.

(** ** Facts about caches *)

#[global] Instance ceq_equiv : Equivalence ceq.
Proof.
  split; [by intros c k|by intros c d H k; rewrite H|].
  intros c d e H1 H2 k. by rewrite H1, H2.
Qed.

#[global] Instance visible_proper : Proper (ceq ==> eq ==> eq ==> eq) visible.
Proof. intros c d H t ? <- k ? <-. unfold visible. by rewrite H. Qed.

#[global] Instance put_proper : Proper (ceq ==> eq ==> eq ==> ceq) put.
Proof. intros c d H k ? <- x ? <- k'. unfold put. case_decide; [done|apply H]. Qed.

#[global] Instance get_result_proper : Proper (ceq ==> eq ==> eq ==> eq ==> eq) get_result.
Proof. intros c d H t ? <- k ? <- r ? <-. unfold get_result. by rewrite H. Qed.

#[global] Instance get_next_proper : Proper (ceq ==> eq ==> eq ==> ceq) get_next.
Proof. intros c d H t ? <- k ? <-. unfold get_next. rewrite H. by destruct (visible d t k); [|rewrite H]. Qed.

#[global] Instance delete_result_proper : Proper (ceq ==> eq ==> eq ==> eq) delete_result.
Proof. intros c d H t ? <- k ? <-. unfold delete_result. by rewrite H. Qed.

#[global] Instance delete_next_proper : Proper (ceq ==> eq ==> eq ==> eq ==> ceq) delete_next.
Proof.
  intros c d H t ? <- k ? <- x ? <-. unfold delete_next. rewrite H. by destruct (visible d t k); rewrite H.
Qed.

#[global] Instance insert_result_proper : Proper (ceq ==> eq ==> eq ==> eq) insert_result.
Proof. intros c d H k ? <- cas ? <-. unfold insert_result. by rewrite H. Qed.

#[global] Instance insert_next_proper :
  Proper (ceq ==> eq ==> eq ==> eq ==> eq ==> eq ==> eq ==> eq ==> ceq) insert_next.
Proof.
  intros c d H t ? <- k ? <- f ? <- cas ? <- v ? <- nc ? <- x ? <-. unfold insert_next.
  rewrite (insert_result_proper c d H k k eq_refl cas cas eq_refl), (H k).
  by destruct (decide _); rewrite H.
Qed.

#[global] Instance add_result_proper : Proper (ceq ==> eq ==> eq ==> eq) add_result.
Proof. intros c d H t ? <- k ? <-. unfold add_result. by rewrite H. Qed.

#[global] Instance add_next_proper :
  Proper (ceq ==> eq ==> eq ==> eq ==> eq ==> eq ==> eq ==> ceq) add_next.
Proof.
  intros c d H t ? <- k ? <- f ? <- v ? <- nc ? <- x ? <-. unfold add_next. rewrite (H k), H.
  by destruct (visible d t k); rewrite H.
Qed.

#[global] Instance flush_next_proper : Proper (ceq ==> ceq) flush_next.
Proof. intros c d H k. unfold flush_next. by rewrite H. Qed.

(** Without a [cas unique] to compare, an insertion always succeeds. *)
Lemma insert_result_nocas c k : insert_result c k [] = SUCCESS.
Proof. unfold insert_result. by destruct (c k) as [[]|]. Qed.

Lemma insert_next_nocas c t k f v nc x :
  insert_next c t k f [] v nc x =
  put c k (Some (match c k with
                 | Some old => update old t x f v nc
                 | None => create t x f v nc
                 end)).
Proof. unfold insert_next. by rewrite insert_result_nocas, decide_True. Qed.

Lemma put_eq c k x : put c k x k = x.
Proof. unfold put. by rewrite decide_True. Qed.

Lemma put_ne c k k' x : k <> k' -> put c k x k' = c k'.
Proof. intros. unfold put. by rewrite decide_False. Qed.

Lemma put_id c k x : c k = x -> ceq (put c k x) c.
Proof. intros <- k'. unfold put. by case_decide as H; [rewrite H|]. Qed.

#[global] Instance sub_preorder : PreOrder sub.
Proof. split; [by intros c k x|]. intros c d e H1 H2 k x Hx. auto. Qed.

(** A lookup changes nothing that can be seen now or later. *)
Lemma visible_get_next c t t' k k' : t <= t' ->
  visible (get_next c t k) t' k' = visible c t' k'.
Proof.
  intros Ht. unfold get_next. destruct (visible c t k) as [v|] eqn:Ev; [done|].
  destruct (decide (k = k')) as [<-|Hne].
  - unfold visible. rewrite put_eq. unfold visible in Ev. destruct (c k) as [[v []]|]; [done| |done].
    destruct (Z.ltb_spec (expiry v) t); [|done]. by rewrite (proj2 (Z.ltb_lt _ _)) by lia.
  - unfold visible. by rewrite put_ne.
Qed.

Lemma visible_flush_next c t k : visible (flush_next c) t k = None.
Proof. unfold visible, flush_next. by destruct (c k) as [[]|]. Qed.
End Cache.
End Cache.

(** ** The interface of the database (inc/sprot.h) *)

Class Database (S : Type) := {
  op_time : ST S Z;
  op_insert : cstring -> cstring -> cstring -> cstring -> Z -> ST S retStatus;
  op_add : cstring -> cstring -> cstring -> cstring -> Z -> ST S retStatus;
  op_delete : cstring -> Z -> ST S retStatus;
  op_get : cstring -> GetRefs -> ST S (retStatus * GetRefs);
  op_set_flush : Z -> ST S unit;
  op_handle_flush : ST S unit;
  op_workers : ST S Z;
}.

(** Whether a flush that is pending for time [x] takes effect at time [t]. *)
Definition due (x : option Z) (t : Z) : bool :=
  match x with Some f => f <=? t | None => false end.

(** What the commands may assume of it. [db_ok n s]: no operation is under way and the
    counters have room for [n] more operations. [db_now] is the next reading of the clock,
    [db_roomy s k f v]: an item fits without eviction, [db_flush] the time of a pending
    flush. *)
Class DatabaseLaws (S : Type) `{DM : DataModel} `{DB : Database S} := {
  db_ok : nat -> S -> Prop;
  db_abs : S -> Cache.cache;
  db_now : S -> Z;
  db_flush : S -> option Z;
  db_roomy : S -> cstring -> cstring -> cstring -> Prop;
  db_now_range n s : db_ok n s -> 0 <= db_now s < ULONG_MOD;
  db_time_law n s : db_ok n s ->
    exists s', op_time s = (Ret (db_now s), s') /\ db_ok n s' /\ db_now s <= db_now s'
      /\ Cache.ceq (db_abs s') (db_abs s) /\ db_flush s' = db_flush s
      /\ (forall k f v, db_roomy s k f v -> db_roomy s' k f v);
  db_get_law n s k refs : db_ok (Datatypes.S n) s ->
    exists s', op_get k refs s = (Ret (Cache.get_result (db_abs s) (db_now s) k refs), s')
      /\ db_ok n s' /\ db_now s <= db_now s'
      /\ Cache.ceq (db_abs s') (Cache.get_next (db_abs s) (db_now s) k) /\ db_flush s' = db_flush s
      /\ (forall k f v, db_roomy s k f v -> db_roomy s' k f v);
  db_insert_law n s k f cas v exp : db_ok (Datatypes.S n) s -> db_roomy s k f v ->
    exists s' newCas,
      op_insert k f cas v exp s = (Ret (Cache.insert_result (db_abs s) k cas), s')
      /\ db_ok n s' /\ db_now s <= db_now s'
      /\ Cache.ceq (db_abs s') (Cache.insert_next (db_abs s) (db_now s) k f cas v newCas exp)
      /\ db_flush s' = db_flush s;
  db_add_law n s k f cas v exp : db_ok (Datatypes.S n) s -> db_roomy s k f v ->
    exists s' newCas,
      op_add k f cas v exp s = (Ret (Cache.add_result (db_abs s) (db_now s) k), s')
      /\ db_ok n s' /\ db_now s <= db_now s'
      /\ Cache.ceq (db_abs s') (Cache.add_next (db_abs s) (db_now s) k f v newCas exp)
      /\ db_flush s' = db_flush s;
  db_delete_law n s k exp : db_ok (Datatypes.S n) s ->
    exists s', op_delete k exp s = (Ret (Cache.delete_result (db_abs s) (db_now s) k), s')
      /\ db_ok n s' /\ db_now s <= db_now s'
      /\ Cache.ceq (db_abs s') (Cache.delete_next (db_abs s) (db_now s) k exp)
      /\ db_flush s' = db_flush s;
  db_set_flush_law n s exp : db_ok (Datatypes.S n) s ->
    exists s', op_set_flush exp s = (Ret tt, s') /\ db_ok n s' /\ db_now s <= db_now s'
      /\ Cache.ceq (db_abs s') (db_abs s)
      /\ db_flush s' = Some (ulong (db_now s + exp));
  db_handle_flush_law n s : db_ok (Datatypes.S n) s ->
    exists s', op_handle_flush s = (Ret tt, s') /\ db_ok n s' /\ db_now s <= db_now s'
      /\ Cache.ceq (db_abs s') (if due (db_flush s) (db_now s) then Cache.flush_next (db_abs s) else db_abs s)
      /\ db_flush s' = (if due (db_flush s) (db_now s) then None else db_flush s)
      /\ (forall k f v, db_roomy s k f v -> db_roomy s' k f v);
}.

(** * dblru.cpp implements the abstract cache

    [abs] forgets buckets, timestamps, sizes and mutexes. Every operation, started in a
    well-formed world with no mutex held, answers and changes the cache as the specification
    says; an insertion may first lose entries to eviction, or end in the fault of
    DbLruInv.v. *)

#[local] Opaque MT.next MT.seed.

Section Refine.
Context `{DM : DataModel} `{E : Env}.

Definition view (fts : Z) (x : option entry) : option (ValueStruct * bool) :=
  match x with
  | Some it => Some (it.1, getTimestampFromMap it <? fts)
  | None => None
  end.

Definition abs (w : World) : Cache.cache := fun k =>
  view (gFlushAllTimestamp w) (map_of w (getHashTblNbrFromKey k) !! k).

(** The state between two operations. *)
Definition ready (w : World) : Prop := quiet w /\ wf w /\ gTimestamp w + 1 < ULONG_MOD.

Definition time_ok (t : Z) : Prop := 0 <= t < ULONG_MOD.

(** An entry is visible exactly when the code finds it not expired. *)
Lemma visible_abs w k : time_ok (now w) ->
  Cache.visible (abs w) (now w) k =
  match map_of w (getHashTblNbrFromKey k) !! k with
  | Some it => if is_expired (now w) (gFlushAllTimestamp w) it then None else Some it.1
  | None => None
  end.
Proof.
  intros Ht. unfold Cache.visible, abs, view, is_expired, getExpiryFromMap. rewrite ulong_small by done.
  destruct (map_of w (getHashTblNbrFromKey k) !! k) as [it|]; [|done].
  destruct (getTimestampFromMap it <? gFlushAllTimestamp w); [by rewrite orb_true_r|].
  by rewrite orb_false_r.
Qed.

(** A write to the map of [k]'s bucket that touches [k] only. *)
Lemma abs_update w w' k m :
  wf w -> gKeyToValueHashMap w' = aset (gKeyToValueHashMap w) (getHashTblNbrFromKey k) m ->
  gFlushAllTimestamp w' = gFlushAllTimestamp w ->
  (forall k', k' <> k -> m !! k' = map_of w (getHashTblNbrFromKey k) !! k') ->
  Cache.ceq (abs w') (Cache.put (abs w) k (view (gFlushAllTimestamp w) (m !! k))).
Proof.
  intros Hw Em Hf Hm k'. unfold abs, Cache.put. rewrite Hf. pose proof (hash_range k').
  rewrite (map_of_update w w' (getHashTblNbrFromKey k) m) by auto with cxx lia.
  destruct (decide (k = k')) as [<-|Hne]; [by rewrite decide_True|].
  case_decide as Heq; [|done]. rewrite Hm by done. by rewrite Heq.
Qed.

Lemma abs_same w w' :
  gKeyToValueHashMap w' = gKeyToValueHashMap w -> gFlushAllTimestamp w' = gFlushAllTimestamp w ->
  Cache.ceq (abs w') (abs w).
Proof. intros Em Hf k. unfold abs, map_of. by rewrite Em, Hf. Qed.

Lemma evicted_sub w w' : evicted w w' -> Cache.sub (abs w') (abs w).
Proof.
  intros [] k x. unfold abs, view. rewrite ev_flush.
  destruct (map_of w' _ !! k) as [it|] eqn:Ek; [|done].
  apply ev_map in Ek; [by rewrite Ek|apply hash_range].
Qed.

(** ** Lookup, deletion, flush *)

Lemma get_refines k refs w : ready w -> time_ok (now w) ->
  exists w', dbGetElement k refs w = (Ret (Cache.get_result (abs w) (now w) k refs), w')
    /\ quiet w' /\ wf w' /\ gTimestamp w' = gTimestamp w + 1
    /\ Cache.ceq (abs w') (Cache.get_next (abs w) (now w) k).
Proof.
  intros (Hq & Hw & HT) Ht. pose proof (dbGetElement_wf k refs w Hq Hw HT) as (r & w' & Hr & Hq' & Hw').
  rewrite Hr. rewrite dbGetElement_run in Hr by done. cbn zeta in Hr.
  rewrite (ulong_small (now w)) in Hr by done. unfold Cache.get_result, Cache.get_next. rewrite visible_abs by done.
  pose proof (next_timestamp w Hw HT) as HT1.
  destruct (map_of w (getHashTblNbrFromKey k) !! k) as [it|] eqn:Ek.
  - destruct (is_expired _ _ it) eqn:Ex; injection Hr as <- <-;
      (eexists; split; [reflexivity|]; split; [done|]; split; [done|]; split; [exact HT1|]).
    + eapply transitivity; [eapply (abs_update w _ k); [done|reflexivity|done|]|].
      * intros k' Hne. by rewrite lookup_delete_ne.
      * by rewrite lookup_delete_eq.
    + eapply transitivity; [eapply (abs_update w _ k); [done|reflexivity|done|]|].
      * intros k' Hne. by rewrite lookup_insert_ne.
      * rewrite lookup_insert_eq. apply Cache.put_id. unfold abs. rewrite Ek. cbn.
        apply orb_false_iff in Ex as [_ ->]. pose proof (wf_flush w Hw).
        by rewrite (proj2 (Z.ltb_ge _ _)) by lia.
  - injection Hr as <- <-. eexists. split; [reflexivity|]. split; [done|]. split; [done|].
    split; [exact HT1|]. symmetry. etransitivity; [apply Cache.put_id|].
    + unfold abs, view. by rewrite Ek.
    + by apply abs_same.
Qed.

Lemma delete_refines k exp w : ready w -> time_ok (now w) ->
  exists w', dbDeleteElement k exp w = (Ret (Cache.delete_result (abs w) (now w) k), w')
    /\ quiet w' /\ wf w' /\ gTimestamp w' = gTimestamp w
    /\ Cache.ceq (abs w') (Cache.delete_next (abs w) (now w) k exp).
Proof.
  intros (Hq & Hw & HT) Ht. pose proof (dbDeleteElement_wf k exp w Hq Hw) as (r & w' & Hr & Hq' & Hw').
  rewrite Hr. rewrite dbDeleteElement_run in Hr by done. cbn zeta in Hr.
  unfold Cache.delete_result, Cache.delete_next. rewrite visible_abs by done.
  destruct (map_of w (getHashTblNbrFromKey k) !! k) as [it|] eqn:Ek.
  - destruct (is_expired _ _ it) eqn:Ex; [|destruct (exp =? 0)]; injection Hr as <- <-;
      (eexists; split; [reflexivity|]; split; [done|]; split; [done|]; split; [done|]).
    + by apply abs_same.
    + eapply transitivity; [eapply (abs_update w _ k); [done|reflexivity|done|]|].
      * intros k' Hne. by rewrite lookup_delete_ne.
      * by rewrite lookup_delete_eq.
    + eapply transitivity; [eapply (abs_update w _ k); [done|reflexivity|done|]|].
      * intros k' Hne. by rewrite lookup_insert_ne.
      * rewrite lookup_insert_eq. unfold view. apply orb_false_iff in Ex as [_ Ex].
        change (getTimestampFromMap (setExpiryToMap it _)) with (getTimestampFromMap it). by rewrite Ex.
  - injection Hr as <- <-. eexists. split; [reflexivity|]. repeat (split; [done|]). by apply abs_same.
Qed.

Lemma set_flush_refines exp w : ready w ->
  exists w', dbSetFlushAll exp w = (Ret tt, w')
    /\ quiet w' /\ wf w' /\ gTimestamp w' = gTimestamp w /\ Cache.ceq (abs w') (abs w)
    /\ gIsFlushAllSet w' = true /\ gFlushAllTime w' = ulong (now w + exp).
Proof.
  intros (Hq & Hw & HT). destruct (dbSetFlushAll_wf exp w Hq Hw) as (w' & Hr & Hq' & Hw').
  rewrite Hr. rewrite dbSetFlushAll_run in Hr. injection Hr as <-.
  eexists. split; [reflexivity|]. by repeat (split; [done|]).
Qed.

(** The time of the pending flush, and whether it takes effect at the next command. *)
Definition flush_time (w : World) : option Z :=
  if gIsFlushAllSet w then Some (gFlushAllTime w) else None.
Definition flush_due (w : World) : bool := due (flush_time w) (now w).

Lemma handle_flush_refines w : ready w -> time_ok (now w) ->
  exists w', dbHandleFlushAll w = (Ret tt, w')
    /\ quiet w' /\ wf w' /\ gTimestamp w <= gTimestamp w' <= gTimestamp w + 1
    /\ Cache.ceq (abs w') (if flush_due w then Cache.flush_next (abs w) else abs w)
    /\ flush_time w' = if flush_due w then None else flush_time w.
Proof.
  intros (Hq & Hw & HT) Ht. destruct (dbHandleFlushAll_wf w Hq Hw HT) as (w' & Hr & Hq' & Hw').
  rewrite Hr. rewrite dbHandleFlushAll_run in Hr. rewrite (ulong_small (now w)) in Hr by done.
  unfold flush_due, flush_time. pose proof (next_timestamp w Hw HT) as HT1.
  destruct (gIsFlushAllSet w) eqn:Ef; cbn [due].
  - destruct (Z.leb_spec (gFlushAllTime w) (now w)); injection Hr as <-;
      (eexists; split; [reflexivity|]; split; [done|]; split; [done|]; split;
       [cbn [set_gIsFlushAllSet set_gFlushAllTimestamp stamp tick gTimestamp]; cbn; lia|]).
    + split; [|done]. intros k. unfold Cache.flush_next, abs, view.
      change (map_of (set_gIsFlushAllSet _ _)) with (map_of w).
      destruct (map_of w (getHashTblNbrFromKey k) !! k) as [it|] eqn:Ek; [|done].
      pose proof (bo_map _ _ _ _ (wf_bucket w Hw _ (hash_range k)) k it Ek) as [_ Hr].
      cbn. rewrite HT1. by rewrite (proj2 (Z.ltb_lt _ _)) by lia.
    + split; [by apply abs_same|]. cbn. by rewrite Ef.
  - injection Hr as <-. eexists. split; [reflexivity|]. repeat (split; [done|]). split; [lia|].
    by rewrite Ef.
Qed.

(** Lookups, deletions and flushes read the clock once and leave the accounting alone. *)
Lemma get_keeps k refs w r w' : quiet w -> dbGetElement k refs w = (r, w') ->
  gStoredSize w' = gStoredSize w /\ gServMemLimit w' = gServMemLimit w /\ ticks w' = S (ticks w)
  /\ flush_time w' = flush_time w.
Proof.
  intros Hq. rewrite dbGetElement_run by done. cbn zeta.
  destruct (_ !! k) as [it|]; [destruct (is_expired _ _ it)|]; by intros [= <- <-].
Qed.

Lemma delete_keeps k exp w r w' : quiet w -> dbDeleteElement k exp w = (r, w') ->
  gStoredSize w' = gStoredSize w /\ gServMemLimit w' = gServMemLimit w /\ ticks w' = S (ticks w)
  /\ flush_time w' = flush_time w.
Proof.
  intros Hq. rewrite dbDeleteElement_run by done. cbn zeta.
  destruct (_ !! k) as [it|]; [destruct (is_expired _ _ it), (exp =? 0)|]; by intros [= <- <-].
Qed.

Lemma handle_flush_keeps w r w' : dbHandleFlushAll w = (r, w') ->
  gStoredSize w' = gStoredSize w /\ gServMemLimit w' = gServMemLimit w
  /\ (ticks w <= ticks w' <= S (ticks w))%nat.
Proof.
  rewrite dbHandleFlushAll_run.
  destruct (gIsFlushAllSet w); [destruct (_ <=? _)|]; intros [= <- <-]; cbn; auto with lia.
Qed.

Lemma place_keeps cur ts newCas k f cas v exp w r w' :
  quiet w -> wf w -> emplace_throws (allocs w) = false ->
  insert_place (getHashTblNbrFromKey k) cur ts newCas k f cas v exp w = (r, w')
  \/ add_place (getHashTblNbrFromKey k) cur ts newCas k f v exp w = (r, w') ->
  ticks w' = ticks w /\ flush_time w' = flush_time w.
Proof.
  intros Hq Hw Ha. rewrite insert_place_run, add_place_run by done. cbn zeta.
  destruct (_ !! k) as [it|]; [destruct (is_expired _ _ it)|];
    destruct (str_eqb cas []); try destruct (str_eqb (getCasFromMap it) cas);
    by intros [[= <- <-]|[= <- <-]].
Qed.

(** ** Insertion *)

(** A [cas unique] has at most 20 digits. *)
Lemma word_digits x : MT.word x -> size (to_string x) <= 20.
Proof. intros Hx. apply (to_string_size x 20); [|lia]. unfold MT.word in Hx. cbn in *. lia. Qed.

(** The part of an insertion before the loop that makes room. *)
Lemma insert_start k f cas v exp w : ready w ->
  exists newCas w1,
    size newCas <= 20 /\ quiet w1 /\ wf w1 /\ gTimestamp w1 = gTimestamp w + 1
    /\ allocs w1 = allocs w /\ gStoredSize w1 = gStoredSize w /\ gServMemLimit w1 = gServMemLimit w
    /\ ticks w1 = S (ticks w) /\ flush_time w1 = flush_time w
    /\ (forall h, 0 <= h < 10 -> bucket_ok h (gTimestamp w) (set_of w1 h) (map_of w1 h))
    /\ gKeyToValueHashMap w1 = gKeyToValueHashMap w
    /\ gFlushAllTimestamp w1 = gFlushAllTimestamp w
    /\ dbInsertElement k f cas v exp w =
       (let h := getHashTblNbrFromKey k in
        let* room := insert_make_room (room_fuel w1) (insert_need k f newCas v) h h in
        if negb room then ret MEMORY_FULL
        else insert_place h (now w) (gTimestamp w) newCas k f cas v exp) w1.
Proof.
  intros (Hq & Hw & HT). pose proof (next_timestamp w Hw HT) as HT1.
  destruct (draw_static_cas_run (now w) (stamp w)) as (c & g & Hd & Hg & Hc).
  destruct (Hc (wf_gen w Hw)) as (x & Hx & ->). specialize (Hg (wf_gen w Hw)).
  exists (to_string x), (set_generator (Some g) (stamp w)). pose proof (wf_flush w Hw).
  split; [by apply word_digits|].
  split; [exact Hq|]. split; [apply (wf_same w); cbn; rewrite ?HT1; done || lia|].
  split; [exact HT1|]. do 5 (split; [done|]). split; [exact (wf_bucket w Hw)|]. do 2 (split; [done|]).
  unfold dbInsertElement. unfold bind at 1. cbn [sys_time]. unfold bind at 1. cbn [fetch_timestamp].
  rewrite (bind_Ret _ _ _ _ _ Hd). reflexivity.
Qed.

(** How an operation that may evict ends: with an answer and a cache in the relation [R] to
    what eviction left of the old one, with [MEMORY_FULL], or in the fault. *)
Definition evict_outcome (w : World) (r : outcome retStatus * World)
    (R : Cache.cache -> retStatus -> Cache.cache -> Prop) : Prop :=
  match r with
  | (Ret st, w') =>
    quiet w' /\ wf w' /\ gTimestamp w' = gTimestamp w + 1
    /\ exists c, Cache.sub c (abs w) /\ (st = MEMORY_FULL /\ Cache.ceq (abs w') c \/ R c st (abs w'))
  | (Stuck Deadlock, _) => singular_eq_end = true
  | (Stuck Undefined, _) => singular_eq_end = false
  | _ => False
  end.

(** What [insert_place] does to the cache. *)
Lemma insert_place_refines cur ts newCas k f cas v exp w :
  quiet w -> wf w -> emplace_throws (allocs w) = false -> 0 <= ts < gTimestamp w ->
  gFlushAllTimestamp w <= ts ->
  (forall h, 0 <= h < 10 -> bucket_ok h ts (set_of w h) (map_of w h)) ->
  exists w', insert_place (getHashTblNbrFromKey k) cur ts newCas k f cas v exp w
      = (Ret (Cache.insert_result (abs w) k cas), w')
    /\ quiet w' /\ wf w' /\ gTimestamp w' = gTimestamp w
    /\ Cache.ceq (abs w') (Cache.insert_next (abs w) cur k f cas v newCas exp).
Proof.
  intros Hq Hw Ha Hts Hfl Hb.
  destruct (insert_place_wf cur newCas k f cas v exp w ts) as (r & w' & Hr & Hq' & Hw'); [done..|lia|done|lia|].
  rewrite Hr. rewrite insert_place_run in Hr by done. cbn zeta in Hr.
  assert (abs w k = view (gFlushAllTimestamp w) (map_of w (getHashTblNbrFromKey k) !! k)) as Habs by done.
  unfold Cache.insert_next, Cache.insert_result. rewrite !Habs.
  destruct (map_of w (getHashTblNbrFromKey k) !! k) as [it|] eqn:Ek; cbn [view].
  - unfold getCasFromMap in Hr. destruct (negb (str_eqb cas []) && _); injection Hr as <- <-;
      (eexists; split; [reflexivity|]; split; [done|]; split; [done|]; split; [done|]).
    + rewrite decide_False by done. by apply abs_same.
    + rewrite decide_True by done.
      eapply transitivity; [eapply (abs_update w _ k); [done|reflexivity|done|]|].
      * intros k' Hne. by rewrite lookup_insert_ne.
      * by rewrite lookup_insert_eq.
  - destruct (negb (str_eqb cas [])); injection Hr as <- <-;
      (eexists; split; [reflexivity|]; split; [done|]; split; [done|]; split; [done|]).
    + rewrite decide_False by done. by apply abs_same.
    + rewrite decide_True by done.
      eapply transitivity; [eapply (abs_update w _ k); [done|reflexivity|done|]|].
      * intros k' Hne. by rewrite lookup_insert_ne.
      * rewrite lookup_insert_eq. unfold view, Cache.create, getTimestampFromMap. cbn [fst snd].
        by rewrite (proj2 (Z.ltb_ge _ _)) by lia.
Qed.

Lemma insert_refines k f cas v exp w : ready w -> (forall i, emplace_throws i = false) ->
  evict_outcome w (dbInsertElement k f cas v exp w) (fun c st c' =>
    exists newCas, st = Cache.insert_result c k cas
      /\ Cache.ceq c' (Cache.insert_next c (now w) k f cas v newCas exp)).
Proof.
  intros Hr Ha. pose proof Hr as (Hq & Hw & HT). pose proof (wf_flush w Hw).
  destruct (insert_start k f cas v exp w Hr)
    as (nc & w1 & Hnc & Hq1 & Hw1 & HT1 & _ & _ & _ & _ & _ & Hb & Hm & Hfl & ->). cbn zeta.
  pose proof (insert_make_room_spec (room_fuel w1) (insert_need k f nc v) (getHashTblNbrFromKey k)
    (getHashTblNbrFromKey k) w1 Hq1 Hw1 (hash_range k) (hash_range k) (room_fuel_enough _ _ _)) as Hroom.
  unfold bind. destruct (insert_make_room _ _ _ _ w1) as [[b|[]|[]] w2]; try done.
  destruct Hroom as (Hq2 & Hw2 & Hev & _). pose proof Hev as [HT2 Hfl2 _ _ _ _ _ _ _ _ Hb2].
  assert (Cache.sub (abs w2) (abs w)) as Hsub.
  { eapply transitivity; [by apply evicted_sub|]. intros k' x. by rewrite (abs_same w w1). }
  destruct b; cbn [negb].
  - destruct (insert_place_refines (now w) (gTimestamp w) nc k f cas v exp w2) as
      (w' & -> & ? & ? & ? & ?); [done|done|apply Ha|lia|rewrite Hfl2, Hfl; lia|auto|].
    repeat (split; [done || congruence|]). exists (abs w2). split; [done|]. right. eauto.
  - repeat (split; [done || congruence|]). exists (abs w2). split; [done|]. by left.
Qed.

(** ** Insertion without eviction *)

(** Memory for an item with a [cas unique] of at most 20 digits. *)
Definition roomy (w : World) (k f v : cstring) : Prop :=
  0 <= gStoredSize w /\ gServMemLimit w < UINT_MOD
  /\ gStoredSize w + (2 * size k + 3 * sizeof_ulong + size f + 20 + size v) < gServMemLimit w.

Lemma roomy_fits w w1 k f v need :
  roomy w k f v -> gStoredSize w1 = gStoredSize w -> gServMemLimit w1 = gServMemLimit w ->
  0 <= need <= 2 * size k + 3 * sizeof_ulong + size f + 20 + size v -> fits w1 need = true.
Proof.
  intros (H1 & H2 & H3) Hs Hl Hn. unfold fits. rewrite Hs, Hl. pose proof ULONG_MOD_ge.
  rewrite ulong_small by lia. apply Z.ltb_lt. lia.
Qed.

Lemma insert_need_roomy k f c v : size c <= 20 ->
  0 <= insert_need k f c v <= 2 * size k + 3 * sizeof_ulong + size f + 20 + size v.
Proof.
  intros Hc. unfold insert_need. pose proof (size_nonneg k). pose proof (size_nonneg f).
  pose proof (size_nonneg c). pose proof (size_nonneg v). pose proof sizeof_ulong_cases. lia.
Qed.

Lemma insert_roomy k f cas v exp w :
  ready w -> emplace_throws (allocs w) = false -> roomy w k f v ->
  exists w' newCas,
    dbInsertElement k f cas v exp w = (Ret (Cache.insert_result (abs w) k cas), w')
    /\ quiet w' /\ wf w' /\ gTimestamp w' = gTimestamp w + 1
    /\ (ticks w' = S (ticks w) /\ flush_time w' = flush_time w)
    /\ Cache.ceq (abs w') (Cache.insert_next (abs w) (now w) k f cas v newCas exp).
Proof.
  intros Hr Ha Hro. pose proof Hr as (Hq & Hw & HT). pose proof (wf_flush w Hw).
  destruct (insert_start k f cas v exp w Hr)
    as (nc & w1 & Hnc & Hq1 & Hw1 & HT1 & Hal & Hst & Hli & Htk & Hft & Hb & Hm & Hfl & ->). cbn zeta.
  assert (Cache.ceq (abs w1) (abs w)) as Habs by by apply abs_same.
  unfold room_fuel. rewrite Nat.add_comm. cbn [Nat.add].
  rewrite (bind_Ret _ _ _ true w1).
  2:{ rewrite insert_make_room_step by auto with cxx.
      by rewrite (roomy_fits w w1 k f v) by auto using insert_need_roomy. }
  cbn [negb].
  destruct (insert_place_refines (now w) (gTimestamp w) nc k f cas v exp w1) as
    (w' & Hrun & ? & ? & ? & Habs'); [done|done|by rewrite Hal|lia|rewrite Hfl; lia|done|].
  assert (ticks w' = S (ticks w) /\ flush_time w' = flush_time w) as Htk'.
  { rewrite <- Htk, <- Hft. eapply place_keeps; [exact Hq1|exact Hw1|by rewrite Hal|by left]. }
  exists w', nc. rewrite Hrun. unfold Cache.insert_next, Cache.insert_result in *.
  rewrite Habs in *. split; [done|]. repeat (split; [done || congruence|]).
  etransitivity; [exact Habs'|]. destruct (decide _); [by rewrite Habs|done].
Qed.

(** ** Adding *)

(** The [cas unique] of an element that is added: a function of the second. *)
Definition add_cas (t : Z) : cstring := to_string (fst (MT.next (MT.seed (u32 t)))).

Lemma add_cas_size t : size (add_cas t) <= 20.
Proof.
  destruct (MT.next_wf (MT.seed (u32 t)) (MT.seed_wf _)) as [Hx _].
  by apply word_digits.
Qed.

Definition add_need (k v : cstring) : Z := 2 * size k + 2 * sizeof_ulong + sizeof_ulong + size v.

Lemma add_start k f cas v exp w : 
  dbAddElement k f cas v exp w =
  (let h := getHashTblNbrFromKey k in
   let* room := add_make_room (room_fuel (stamp w)) (add_need k v) h h in
   if negb room then ret MEMORY_FULL
   else add_place h (now w) (gTimestamp w) (add_cas (now w)) k f v exp) (stamp w).
Proof.
  unfold dbAddElement, add_need.
  rewrite (bind_Ret sys_time _ w (now w) (tick w) eq_refl).
  rewrite (bind_Ret fetch_timestamp _ (tick w) (gTimestamp w) (stamp w) eq_refl).
  by rewrite (bind_Ret (gets room_fuel) _ (stamp w) _ _ eq_refl).
Qed.

Lemma add_place_refines cur ts newCas k f v exp w :
  quiet w -> wf w -> emplace_throws (allocs w) = false -> 0 <= ts < gTimestamp w ->
  gFlushAllTimestamp w <= ts -> time_ok cur ->
  (forall h, 0 <= h < 10 -> bucket_ok h ts (set_of w h) (map_of w h)) ->
  exists w', add_place (getHashTblNbrFromKey k) cur ts newCas k f v exp w
      = (Ret (Cache.add_result (abs w) cur k), w')
    /\ quiet w' /\ wf w' /\ gTimestamp w' = gTimestamp w
    /\ Cache.ceq (abs w') (Cache.add_next (abs w) cur k f v newCas exp).
Proof.
  intros Hq Hw Ha Hts Hfl Hc Hb.
  destruct (add_place_wf cur newCas k f v exp w ts) as (r & w' & Hr & Hq' & Hw'); [done..|lia|done|lia|].
  rewrite Hr. rewrite add_place_run in Hr by done. cbn zeta in Hr.
  assert (Cache.visible (abs w) cur k = match map_of w (getHashTblNbrFromKey k) !! k with
    | Some it => if is_expired cur (gFlushAllTimestamp w) it then None else Some it.1
    | None => None end) as Hvis.
  { unfold Cache.visible, abs, view, is_expired, getExpiryFromMap. rewrite ulong_small by done.
    destruct (map_of w _ !! k) as [it|]; [|done].
    destruct (getTimestampFromMap it <? _); [by rewrite orb_true_r|by rewrite orb_false_r]. }
  assert (abs w k = view (gFlushAllTimestamp w) (map_of w (getHashTblNbrFromKey k) !! k)) as Habs by done.
  unfold Cache.add_next, Cache.add_result. rewrite Hvis, Habs.
  destruct (map_of w (getHashTblNbrFromKey k) !! k) as [it|] eqn:Ek; cbn [view].
  - destruct (is_expired cur _ it); injection Hr as <- <-;
      (eexists; split; [reflexivity|]; split; [done|]; split; [done|]; split; [done|]).
    + eapply transitivity; [eapply (abs_update w _ k); [done|reflexivity|done|]|].
      * intros k' Hne. by rewrite lookup_insert_ne.
      * by rewrite lookup_insert_eq.
    + by apply abs_same.
  - injection Hr as <- <-. eexists. split; [reflexivity|]. do 3 (split; [done|]).
    eapply transitivity; [eapply (abs_update w _ k); [done|reflexivity|done|]|].
    + intros k' Hne. by rewrite lookup_insert_ne.
    + rewrite lookup_insert_eq. unfold view, Cache.create, getTimestampFromMap. cbn [fst snd].
      by rewrite (proj2 (Z.ltb_ge _ _)) by lia.
Qed.

Lemma add_refines k f cas v exp w : ready w -> time_ok (now w) -> (forall i, emplace_throws i = false) ->
  evict_outcome w (dbAddElement k f cas v exp w) (fun c st c' =>
    st = Cache.add_result c (now w) k
    /\ Cache.ceq c' (Cache.add_next c (now w) k f v (add_cas (now w)) exp)).
Proof.
  intros (Hq & Hw & HT) Ht Ha. pose proof (wf_flush w Hw). rewrite add_start. cbn zeta.
  pose proof (stamp_wf w Hw HT) as Hw1. pose proof (next_timestamp w Hw HT) as HT1.
  pose proof (add_make_room_spec (room_fuel (stamp w)) (add_need k v) (getHashTblNbrFromKey k)
    (getHashTblNbrFromKey k) (stamp w) Hq Hw1 (hash_range k) (hash_range k) (room_fuel_enough _ _ _)) as Hroom.
  unfold bind. destruct (add_make_room _ _ _ _ (stamp w)) as [[b|[]|[]] w2]; try done.
  destruct Hroom as (Hq2 & Hw2 & Hev & _). pose proof Hev as [HT2 Hfl2 _ _ _ _ _ _ _ _ Hb2].
  cbn in HT2, Hfl2. rewrite HT1 in HT2.
  assert (Cache.sub (abs w2) (abs w)) as Hsub by (apply (evicted_sub (stamp w)); done).
  destruct b; cbn [negb].
  - destruct (add_place_refines (now w) (gTimestamp w) (add_cas (now w)) k f v exp w2) as
      (w' & -> & ? & ? & ? & ?); [done|done|apply Ha|lia|rewrite Hfl2; lia|done| |].
    { intros h Hh. apply Hb2; [done|]. by apply (wf_bucket w Hw). }
    repeat (split; [done || congruence|]). exists (abs w2). split; [done|]. right. eauto.
  - repeat (split; [done || congruence|]). exists (abs w2). split; [done|]. by left.
Qed.

Lemma add_roomy k f cas v exp w :
  ready w -> time_ok (now w) -> emplace_throws (allocs w) = false -> roomy w k f v ->
  exists w', dbAddElement k f cas v exp w = (Ret (Cache.add_result (abs w) (now w) k), w')
    /\ quiet w' /\ wf w' /\ gTimestamp w' = gTimestamp w + 1
    /\ (ticks w' = S (ticks w) /\ flush_time w' = flush_time w)
    /\ Cache.ceq (abs w') (Cache.add_next (abs w) (now w) k f v (add_cas (now w)) exp).
Proof.
  intros (Hq & Hw & HT) Ht Ha Hro. pose proof (wf_flush w Hw). rewrite add_start. cbn zeta.
  pose proof (stamp_wf w Hw HT) as Hw1. pose proof (next_timestamp w Hw HT) as HT1.
  unfold room_fuel. rewrite Nat.add_comm. cbn [Nat.add].
  rewrite (bind_Ret _ _ _ true (stamp w)).
  2:{ rewrite add_make_room_step by auto with cxx. rewrite (roomy_fits w (stamp w) k f v); [done..|].
      unfold add_need. pose proof (size_nonneg k). pose proof (size_nonneg f).
      pose proof (size_nonneg v). pose proof sizeof_ulong_cases. lia. }
  cbn [negb].
  destruct (add_place_refines (now w) (gTimestamp w) (add_cas (now w)) k f v exp (stamp w)) as
    (w' & Hrun & ? & ? & HT' & ?); [done|done|done|cbn; lia|cbn; lia|done|by apply (wf_bucket w Hw)|].
  exists w'. split; [exact Hrun|]. do 2 (split; [done|]). split; [rewrite HT'; exact HT1|].
  split; [|done]. change (flush_time w) with (flush_time (stamp w)).
  eapply (place_keeps _ _ _ _ _ [] _ _ (stamp w)); [done|done|done|by right].
Qed.

End Refine.

(** ** The database as an instance of its interface *)

#[export] Instance World_Database `{DM : DataModel} `{E : Env} : Database World := {|
  op_time := sys_time;
  op_insert := dbInsertElement;
  op_add := dbAddElement;
  op_delete := dbDeleteElement;
  op_get := dbGetElement;
  op_set_flush := dbSetFlushAll;
  op_handle_flush := dbHandleFlushAll;
  op_workers := gets gServWorkerThreads;
|}.

(** Surroundings without surprises: the clock is in range and does not go back, and no
    allocation fails. *)
Class CalmEnv `{DM : DataModel} `{E : Env} : Prop := {
  clock_range i : time_ok (clock i);
  clock_mono i j : (i <= j)%nat -> clock i <= clock j;
  no_bad_alloc i : emplace_throws i = false;
}.

(** [n] more operations: each takes at most one timestamp. *)
Definition ready_for `{DM : DataModel} (n : nat) (w : World) : Prop :=
  quiet w /\ wf w /\ gTimestamp w + Z.of_nat n < ULONG_MOD.

Section Laws.
Context `{CE : CalmEnv}.

Lemma ready_for_ready n w : ready_for (S n) w -> ready w.
Proof. intros (? & ? & ?). repeat (split; [done|]). lia. Qed.

Lemma now_le w w' : (ticks w <= ticks w')%nat -> now w <= now w'.
Proof. apply clock_mono. Qed.

Lemma roomy_same w w' k f v :
  gStoredSize w' = gStoredSize w -> gServMemLimit w' = gServMemLimit w ->
  roomy w k f v -> roomy w' k f v.
Proof. unfold roomy. by intros -> ->. Qed.

#[export] Program Instance World_Laws : DatabaseLaws World := {|
  db_ok := ready_for;
  db_abs := abs;
  db_now := now;
  db_flush := flush_time;
  db_roomy := roomy;
|}.
Next Obligation. intros n w _. apply clock_range. Qed.
Next Obligation.
  intros n w (Hq & Hw & HT). exists (tick w). split; [done|].
  split; [split; [exact Hq|]; split; [by apply tick_wf|done]|].
  split; [apply now_le; cbn; lia|]. split; [by apply abs_same|]. done.
Qed.
Next Obligation.
  intros n w k refs Hr. pose proof Hr as (Hq & _ & HT).
  destruct (get_refines k refs w) as (w' & Hrun & ? & ? & ? & ?);
    [by eapply ready_for_ready|apply clock_range|].
  destruct (get_keeps k refs w _ w' Hq Hrun) as (? & ? & Htk & ?). exists w'. split; [done|].
  split; [repeat (split; [done|]); lia|]. split; [apply now_le; lia|]. do 2 (split; [done|]).
  intros. by eapply roomy_same.
Qed.
Next Obligation.
  intros n w k f cas v exp Hr Hro. pose proof Hr as (_ & _ & HT).
  destruct (insert_roomy k f cas v exp w) as (w' & nc & Hrun & ? & ? & ? & [Htk ?] & ?);
    [by eapply ready_for_ready|apply no_bad_alloc|done|]. exists w', nc. split; [done|].
  split; [repeat (split; [done|]); lia|]. split; [apply now_le; lia|done].
Qed.
Next Obligation.
  intros n w k f cas v exp Hr Hro. pose proof Hr as (_ & _ & HT).
  destruct (add_roomy k f cas v exp w) as (w' & Hrun & ? & ? & ? & [Htk ?] & ?);
    [by eapply ready_for_ready|apply clock_range|apply no_bad_alloc|done|].
  exists w', (add_cas (now w)). split; [done|].
  split; [repeat (split; [done|]); lia|]. split; [apply now_le; lia|done].
Qed.
Next Obligation.
  intros n w k exp Hr. pose proof Hr as (Hq & _ & HT).
  destruct (delete_refines k exp w) as (w' & Hrun & ? & ? & ? & ?);
    [by eapply ready_for_ready|apply clock_range|].
  destruct (delete_keeps k exp w _ w' Hq Hrun) as (? & ? & Htk & ?). exists w'. split; [done|].
  split; [repeat (split; [done|]); lia|]. split; [apply now_le; lia|done].
Qed.
Next Obligation.
  intros n w exp Hr. pose proof Hr as (Hq & Hw & HT).
  destruct (set_flush_refines exp w) as (w' & Hrun & ? & ? & ? & ? & Hs & Hft);
    [by eapply ready_for_ready|]. exists w'. split; [done|].
  split; [repeat (split; [done|]); lia|].
  rewrite dbSetFlushAll_run in Hrun. injection Hrun as <-.
  split; [apply now_le; cbn; lia|]. split; [done|]. done.
Qed.
Next Obligation.
  intros n w Hr. pose proof Hr as (Hq & _ & HT).
  destruct (handle_flush_refines w) as (w' & Hrun & ? & ? & ? & ? & ?);
    [by eapply ready_for_ready|apply clock_range|].
  destruct (handle_flush_keeps w _ w' Hrun) as (? & ? & Htk). exists w'. split; [done|].
  split; [repeat (split; [done|]); lia|]. split; [apply now_le; lia|]. do 2 (split; [done|]).
  intros. by eapply roomy_same.
Qed.

End Laws.
