(* ===== verification/Commands.v ===== *)
(** * The text protocol: scmd.cpp

    Every [cmdProcess...] function, over the interface [Database] of DbLruRefine.v. A handler
    gets the input (a command line, with the data block of a storage command behind it) and
    gives the value it returns and what it leaves in [output]; the dispatcher clears [output]
    before it calls one. Messages to the server's own console are left out.

    Positions are [unsigned int] variables that receive [size_t] results: [u32] marks the
    conversion, and [npos] is compared after the usual promotion. *)

From stdpp Require Import base list gmap strings.
From Stdlib Require Import ZArith Lia Ascii String.
From S2P Require Import Prelude CxxString DbLru DbLruRefine.

(** ** Data (inc/scmd.h) *)

Record StorageStruct := mkStore {
  s_key : cstring;
  s_flags : cstring;
  s_expTime : Z;
  s_bytes : Z;
  s_casStr : cstring;
  s_noreply : bool;
  s_data : cstring;
}.

Definition set_s_key (x : cstring) (s : StorageStruct) : StorageStruct :=
  mkStore x (s_flags s) (s_expTime s) (s_bytes s) (s_casStr s) (s_noreply s) (s_data s).
Definition set_s_flags (x : cstring) (s : StorageStruct) : StorageStruct :=
  mkStore (s_key s) x (s_expTime s) (s_bytes s) (s_casStr s) (s_noreply s) (s_data s).
Definition set_s_expTime (x : Z) (s : StorageStruct) : StorageStruct :=
  mkStore (s_key s) (s_flags s) x (s_bytes s) (s_casStr s) (s_noreply s) (s_data s).
Definition set_s_bytes (x : Z) (s : StorageStruct) : StorageStruct :=
  mkStore (s_key s) (s_flags s) (s_expTime s) x (s_casStr s) (s_noreply s) (s_data s).
Definition set_s_casStr (x : cstring) (s : StorageStruct) : StorageStruct :=
  mkStore (s_key s) (s_flags s) (s_expTime s) (s_bytes s) x (s_noreply s) (s_data s).
Definition set_s_noreply (x : bool) (s : StorageStruct) : StorageStruct :=
  mkStore (s_key s) (s_flags s) (s_expTime s) (s_bytes s) (s_casStr s) x (s_data s).
Definition set_s_data (x : cstring) (s : StorageStruct) : StorageStruct :=
  mkStore (s_key s) (s_flags s) (s_expTime s) (s_bytes s) (s_casStr s) (s_noreply s) x.

Definition EXPIRY_THRESHOLD : Z := 60 * 60 * 24 * 30.

(** A reply line. *)
Definition line (s : string) : cstring := lit s ++ CRLF.

Definition VERSION_STRING : cstring := line "VERSION 1.0".

(** The reply that names the quoted word "noreply". *)
Definition junk_reply : cstring :=
  lit "CLIENT_ERROR junk found instead of " ++ [ascii_of_nat 34] ++ lit "noreply"
  ++ [ascii_of_nat 34] ++ CRLF.

Definition memory_reply : cstring := line "SERVER_ERROR not enough memory to store even single element".

(** [if (noreply == false) output.assign(s)] on an empty [output] *)
Definition reply (noreply : bool) (s : cstring) : cstring := if noreply then [] else s.

Section Commands.
Context `{DM : DataModel} `{E : Env} {W : Type} `{DB : Database W}.

(** [(x == string::npos) || (x > nextEndl)] *)
Definition missing (x nextEndl : Z) : bool := (x =? npos) || (nextEndl <? x).

(** [unsigned int x = input.find(' ', pos)] and [unsigned int x = input.find("\r\n", pos)] *)
Definition find_sp (input : cstring) (pos : Z) : Z := u32 (find_char input SP pos).
Definition find_endl (input : cstring) (pos : Z) : Z := u32 (find_str input CRLF pos).

(** [input.substr(from, to - from)] on [unsigned int] positions *)
Definition slice (input : cstring) (from to : Z) : outcome cstring :=
  substr input from (u32 (to - from)).

(** What the pieces of [cmdProcessCommon] hand on: an error reply that makes it return 0, or
    the position reached and the fields read so far. *)
Inductive parsed (A : Type) :=
  | BadInput (reply : cstring) (store : StorageStruct)
  | Parsed (a : A).
Arguments BadInput {A} reply store.
Arguments Parsed {A} a.

(** The storage arguments [<flags> <exptime>], read when [isExistData] is false; gives the
    position of the blank after them. *)
Definition common_flags_exptime (input : cstring) (nextSpace nextEndl : Z) (store : StorageStruct)
    : ST W (parsed (Z * StorageStruct)) :=
  let tempSpace := find_sp input nextSpace in
  let* flags := lift (slice input nextSpace tempSpace) in
  let store := set_s_flags flags store in
  let nextSpace := tempSpace in
  if missing nextSpace nextEndl then
    ret (BadInput (line "CLIENT_ERROR expiry time not found") store)
  else
  let nextSpace := u32 (nextSpace + 1) in
  let tempSpace := find_sp input nextSpace in
  let* expTimeStr := lift (slice input nextSpace tempSpace) in
  let* r :=
    catch_invalid_argument
      (let* expTime := lift (stoul expTimeStr) in
       if EXPIRY_THRESHOLD <? expTime then
         let* curSystemTime := op_time in
         let store := set_s_expTime (ulong (expTime - curSystemTime)) store in
         (* an unsigned value is never negative *)
         if s_expTime store <? 0 then
           ret (BadInput (line "CLIENT_ERROR invalid expiry time") store)
         else ret (Parsed store)
       else ret (Parsed (set_s_expTime expTime store)))
      (ret (BadInput (line "CLIENT_ERROR invalid expiry time") store)) in
  match r with
  | BadInput e store => ret (BadInput e store)
  | Parsed store =>
    let nextSpace := tempSpace in
    if missing nextSpace nextEndl then ret (BadInput (line "CLIENT_ERROR bytes not found") store)
    else ret (Parsed (nextSpace, store))
  end.

(** [<bytes>], [<cas unique>] and [noreply]: the text of the byte count, and the fields. *)
Definition common_bytes_cas_noreply (input : cstring) (nextSpace nextEndl : Z) (isCas : bool)
    (store : StorageStruct) : outcome (parsed (cstring * StorageStruct)) :=
  let tempSpace := find_sp input nextSpace in
  let? bytesStr := slice input nextSpace tempSpace in
  let? r :=
    if isCas && negb (tempSpace =? npos) then
      let nextSpace := tempSpace in
      if missing nextSpace nextEndl then
        Ret (BadInput (line "CLIENT_ERROR cas string not found") store)
      else
        let nextSpace := u32 (nextSpace + 1) in
        let tempSpace := find_sp input nextSpace in
        let? casStr := slice input nextSpace tempSpace in
        Ret (Parsed (nextSpace, tempSpace, set_s_casStr casStr store))
    else Ret (Parsed (nextSpace, tempSpace, store)) in
  match r with
  | BadInput e store => Ret (BadInput e store)
  | Parsed (nextSpace, tempSpace, store) =>
    if nextEndl <? tempSpace then
      let? s := slice input nextSpace (find_endl input nextSpace) in
      if isCas then Ret (Parsed (bytesStr, set_s_noreply false (set_s_casStr s store)))
      else Ret (Parsed (s, set_s_noreply false store))
    else
      let nextSpace := u32 (tempSpace + 1) in
      if nextSpace =? nextEndl then Ret (Parsed (bytesStr, set_s_noreply false store))
      else
        let? noReplyStr := slice input nextSpace (find_endl input nextSpace) in
        if negb (str_eqb noReplyStr (lit "noreply")) && negb (str_eqb noReplyStr (lit "noreply "))
        then Ret (BadInput junk_reply store)
        else Ret (Parsed (bytesStr, set_s_noreply true store))
  end.

(** The data block: how much is still to be read, 0 when the command is complete. *)
Definition common_data (input : cstring) (nextEndl : Z) (store : StorageStruct)
    : outcome (Z * StorageStruct) :=
  let nextSpace := nextEndl in
  let bytes := s_bytes store in
  if ((nextSpace =? npos) || (size input <? u32 (nextSpace + 2))) && negb (bytes =? 0) then
    Ret (s32 (u32 (bytes + 2)), store)
  else if bytes =? 0 then Ret (0, store)
  else
    let? data := substr input (u32 (nextSpace + 2)) bytes in
    let store := set_s_data data store in
    if size data <? bytes then Ret (s32 (u32 (bytes + 2) - size data), store)
    else Ret (0, store).

(** [cmdProcessCommon] from [<bytes>] on. *)
Definition common_tail (input output : cstring) (nextSpace nextEndl : Z) (isCas : bool)
    (store : StorageStruct) : ST W (Z * cstring * StorageStruct) :=
  let* r := lift (common_bytes_cas_noreply input nextSpace nextEndl isCas store) in
  match r with
  | BadInput e store => ret (0, e, store)
  | Parsed (bytesStr, store) =>
    let* r :=
      catch_invalid_argument
        (let* b := lift (stoul bytesStr) in ret (Parsed (set_s_bytes (u32 b) store)))
        (ret (BadInput (line "CLIENT_ERROR invalid number of bytes") store)) in
    match r with
    | BadInput e store => ret (0, e, store)
    | Parsed store =>
      let* r := lift (common_data input nextEndl store) in
      ret (r.1, output, r.2)
    end
  end.

(** Gives the returned value, [output] and [store]. *)
Definition cmdProcessCommon (input output : cstring) (isCas isExistData : bool)
    (store : StorageStruct) : ST W (Z * cstring * StorageStruct) :=
  let nextSpace := find_sp input 0 in
  let nextEndl := find_endl input 0 in
  if missing nextSpace nextEndl then
    ret (0, line "CLIENT_ERROR key not found", store)
  else
  let nextSpace := u32 (nextSpace + 1) in
  let tempSpace := find_sp input nextSpace in
  let* key := lift (slice input nextSpace tempSpace) in
  let store := set_s_key key store in
  let nextSpace := tempSpace in
  if missing nextSpace nextEndl then
    ret (0, line "CLIENT_ERROR flags not found", store)
  else
  let nextSpace := u32 (nextSpace + 1) in
  let* r :=
    if isExistData then ret (Parsed (nextSpace, store))
    else common_flags_exptime input nextSpace nextEndl store in
  match r with
  | BadInput e store => ret (0, e, store)
  | Parsed (nextSpace, store) =>
    common_tail input output (u32 (nextSpace + 1)) nextEndl isCas store
  end.

(** [StorageStruct store;]: the numeric fields are not initialised. *)
Definition fresh_store : StorageStruct :=
  mkStore [] [] uninit_ulong uninit_uint [] uninit_bool [].

(** Local variables passed by reference to [dbGetElement]. *)
Definition fresh_refs : GetRefs := mkRefs [] [] [] uninit_ulong.

(** [output.size() > 0] *)
Definition nonempty (s : cstring) : bool := 0 <? size s.

(** ** Storage commands *)

Definition cmdProcessSet (input : cstring) : ST W (Z * cstring) :=
  let* (r, output, store) := cmdProcessCommon input [] false false fresh_store in
  if nonempty output then ret (0, output) else
  if 0 <? r then ret (r, output) else
  let* st := op_insert (s_key store) (s_flags store) (s_casStr store) (s_data store)
               (s_expTime store) in
  if status_eqb st MEMORY_FULL then ret (0, reply (s_noreply store) memory_reply)
  else ret (0, reply (s_noreply store) (line "STORED")).

Definition cmdProcessAdd (input : cstring) : ST W (Z * cstring) :=
  let* (r, output, store) := cmdProcessCommon input [] false false fresh_store in
  if nonempty output then ret (0, output) else
  if 0 <? r then ret (r, output) else
  let* st := op_add (s_key store) (s_flags store) (s_casStr store) (s_data store)
               (s_expTime store) in
  if status_eqb st MEMORY_FULL then ret (0, reply (s_noreply store) memory_reply)
  else if status_eqb st EXIST then ret (0, reply (s_noreply store) (line "NOT_STORED"))
  else ret (0, reply (s_noreply store) (line "STORED")).

Definition cmdProcessReplace (input : cstring) : ST W (Z * cstring) :=
  let* (r, output, store) := cmdProcessCommon input [] false false fresh_store in
  if nonempty output then ret (0, output) else
  if 0 <? r then ret (r, output) else
  let* (st, _) := op_get (s_key store) fresh_refs in
  if negb (status_eqb st SUCCESS) then ret (0, reply (s_noreply store) (line "NOT_STORED")) else
  let* st := op_insert (s_key store) (s_flags store) (s_casStr store) (s_data store)
               (s_expTime store) in
  if status_eqb st MEMORY_FULL then ret (0, reply (s_noreply store) memory_reply)
  else ret (0, reply (s_noreply store) (line "STORED")).

(** The parsing that [append] and [prepend] share: without [<flags> <exptime>] first, then
    with them, into the same [store]. *)
Definition common_append (input : cstring) : ST W (Z * cstring * StorageStruct) :=
  let* (r, output, store) := cmdProcessCommon input [] false true fresh_store in
  if nonempty output then cmdProcessCommon input [] false false store
  else ret (r, output, store).

(** [dbGetElement(store.key, store.flags, store.casStr, value, store.expTime)] with an empty
    [value]. *)
Definition store_refs (store : StorageStruct) : GetRefs :=
  mkRefs (s_flags store) (s_casStr store) [] (s_expTime store).

Definition cmdProcessAppend (input : cstring) : ST W (Z * cstring) :=
  let* (r, output, store) := common_append input in
  if nonempty output then ret (0, output) else
  if 0 <? r then ret (r, output) else
  let* (st, refs) := op_get (s_key store) (store_refs store) in
  if negb (status_eqb st SUCCESS) then ret (0, reply (s_noreply store) (line "NOT_STORED")) else
  let value := r_value refs ++ s_data store in
  let* st := op_insert (s_key store) (r_flags refs) [] value (r_expiry refs) in
  if status_eqb st MEMORY_FULL then ret (0, reply (s_noreply store) memory_reply)
  else ret (0, reply (s_noreply store) (line "STORED")).

Definition cmdProcessPrepend (input : cstring) : ST W (Z * cstring) :=
  let* (r, output, store) := common_append input in
  if nonempty output then ret (0, output) else
  if 0 <? r then ret (r, output) else
  let* (st, refs) := op_get (s_key store) (store_refs store) in
  if negb (status_eqb st SUCCESS) then ret (0, reply (s_noreply store) (line "NOT_STORED")) else
  let data := s_data store ++ r_value refs in
  let* st := op_insert (s_key store) (r_flags refs) [] data (r_expiry refs) in
  if status_eqb st MEMORY_FULL then ret (0, reply (s_noreply store) memory_reply)
  else ret (0, reply (s_noreply store) (line "STORED")).

Definition cmdProcessCas (input : cstring) : ST W (Z * cstring) :=
  let* (r, output, store) := cmdProcessCommon input [] true false fresh_store in
  if nonempty output then ret (0, output) else
  if 0 <? r then ret (r, output) else
  let* st := op_insert (s_key store) (s_flags store) (s_casStr store) (s_data store)
               (s_expTime store) in
  if status_eqb st MEMORY_FULL then ret (0, reply (s_noreply store) memory_reply)
  else if status_eqb st EXIST then ret (0, reply (s_noreply store) (line "EXISTS"))
  else if status_eqb st NOT_EXIST then ret (0, reply (s_noreply store) (line "NOT_FOUND"))
  else ret (0, reply (s_noreply store) (line "STORED")).

(** ** Retrieval *)

(** The loop that splits the line at blanks; [nextSpace] is the position before the next
    key. Every round moves right by at least one, so the length of the input bounds the
    rounds ([read_keys_total] in CommandsGet). *)
Fixpoint read_keys (fuel : nat) (input : cstring) (nextSpace nextEndl : Z) (keys : list cstring)
    : outcome (list cstring) :=
  match fuel with
  | O => Stuck OutOfFuel
  | S fuel' =>
    let nextSpace := u32 (nextSpace + 1) in
    let tempSpace := find_sp input nextSpace in
    if missing tempSpace nextEndl then
      let? k := slice input nextSpace nextEndl in Ret (keys ++ [k])
    else
      let? k := slice input nextSpace tempSpace in
      read_keys fuel' input tempSpace nextEndl (keys ++ [k])
  end.

(** One [VALUE] block; [gets] adds the [cas unique]. *)
Definition value_block (withCas : bool) (k : cstring) (refs : GetRefs) : cstring :=
  lit "VALUE " ++ k ++ [SP] ++ r_flags refs ++ [SP] ++ to_string (size (r_value refs))
  ++ (if withCas then SP :: r_cas refs else []) ++ CRLF ++ r_value refs ++ CRLF.

Fixpoint answer_keys (withCas : bool) (keys : list cstring) (output : cstring) : ST W cstring :=
  match keys with
  | [] => ret output
  | k :: keys' =>
    let* (st, refs) := op_get k fresh_refs in
    if negb (status_eqb st SUCCESS) then answer_keys withCas keys' output
    else answer_keys withCas keys' (output ++ value_block withCas k refs)
  end.

Definition process_get (withCas : bool) (input : cstring) : ST W (Z * cstring) :=
  let nextSpace := find_sp input 0 in
  let nextEndl := find_endl input 0 in
  if missing nextSpace nextEndl then ret (0, line "CLIENT_ERROR no key found") else
  let* keys := lift (read_keys (S (List.length input)) input nextSpace nextEndl []) in
  let* output := answer_keys withCas keys [] in
  ret (0, output ++ line "END").

Definition cmdProcessGet (input : cstring) : ST W (Z * cstring) := process_get false input.
Definition cmdProcessGets (input : cstring) : ST W (Z * cstring) := process_get true input.

(** ** Deletion *)

Definition cmdProcessDelete (input : cstring) : ST W (Z * cstring) :=
  let nextSpace := find_sp input 0 in
  let nextEndl := find_endl input 0 in
  if missing nextSpace nextEndl then ret (0, line "CLIENT_ERROR key not found") else
  let nextSpace := u32 (nextSpace + 1) in
  let tempSpace := find_sp input nextSpace in
  let noreply := negb (missing tempSpace nextEndl) in
  let tempSpace := if noreply then tempSpace else nextEndl in
  let* key := lift (slice input nextSpace tempSpace) in
  let nextSpace := u32 (tempSpace + 1) in
  let* junk :=
    if noreply then
      let* noReplyStr := lift (slice input nextSpace nextEndl) in
      ret (negb (str_eqb noReplyStr (lit "noreply")))
    else ret false in
  if junk then ret (0, line "CLIENT_ERROR junk found after key") else
  let* st := op_delete key 0 in
  if status_eqb st NOT_EXIST then ret (0, reply noreply (line "NOT_FOUND"))
  else ret (0, reply noreply (line "DELETED")).

(** ** Arithmetic *)

(** The arguments [<key> <value> [noreply]] of [incr], [decr] and [touch]: the error reply, or
    the key, the text of the value, whether a third word is there, and where it starts. *)
Definition read_key_value (input : cstring) (nextEndl : Z)
    : outcome (cstring + cstring * cstring * bool * Z) :=
  let nextSpace := find_sp input 0 in
  if missing nextSpace nextEndl then Ret (inl (line "CLIENT_ERROR key not found")) else
  let nextSpace := u32 (nextSpace + 1) in
  let tempSpace := find_sp input nextSpace in
  if missing tempSpace nextEndl then Ret (inl (line "CLIENT_ERROR value not found")) else
  let? key := slice input nextSpace tempSpace in
  let nextSpace := u32 (tempSpace + 1) in
  let tempSpace := find_sp input nextSpace in
  let noreply := negb (missing tempSpace nextEndl) in
  let tempSpace := if noreply then tempSpace else nextEndl in
  let? value := slice input nextSpace tempSpace in
  Ret (inr (key, value, noreply, u32 (tempSpace + 1))).

(** [if (noreply == true) { ... noreply = false if the word is another one }] *)
Definition check_noreply (input : cstring) (nextSpace nextEndl : Z) (noreply : bool) : outcome bool :=
  if noreply then
    let? noReplyStr := slice input nextSpace nextEndl in
    Ret (str_eqb noReplyStr (lit "noreply"))
  else Ret false.

(** [incr] and [decr] differ in the new value only. *)
Definition process_arith (combine : Z -> Z -> Z) (input : cstring) : ST W (Z * cstring) :=
  let nextEndl := find_endl input 0 in
  let* args := lift (read_key_value input nextEndl) in
  match args with
  | inl e => ret (0, e)
  | inr (key, value, noreply, nextSpace) =>
    let* noreply := lift (check_noreply input nextSpace nextEndl noreply) in
    let* (st, refs) := op_get key fresh_refs in
    if negb (status_eqb st SUCCESS) then ret (0, reply noreply (line "NOT_FOUND")) else
    let* inputValue := lift (stoul value) in
    let* oldValue := lift (stoul (r_value refs)) in
    if (inputValue =? 0) && negb noreply then
      ret (0, line "CLIENT_ERROR invalid format for value")
    else
    let storedValue := to_string (combine oldValue inputValue) in
    let* st := op_insert key (r_flags refs) [] storedValue (r_expiry refs) in
    if status_eqb st MEMORY_FULL then ret (0, reply noreply memory_reply)
    else ret (0, reply noreply (storedValue ++ CRLF))
  end.

Definition incr_value (oldValue inputValue : Z) : Z := ulong (inputValue + oldValue).
Definition decr_value (oldValue inputValue : Z) : Z :=
  if oldValue <=? inputValue then 0 else ulong (oldValue - inputValue).

Definition cmdProcessIncr (input : cstring) : ST W (Z * cstring) := process_arith incr_value input.
Definition cmdProcessDecr (input : cstring) : ST W (Z * cstring) := process_arith decr_value input.

(** ** Touch *)

Definition cmdProcessTouch (input : cstring) : ST W (Z * cstring) :=
  let nextEndl := find_endl input 0 in
  let* args := lift (read_key_value input nextEndl) in
  match args with
  | inl e => ret (0, e)
  | inr (key, expTimeStr, noreply, nextSpace) =>
    let* r :=
      catch_invalid_argument
        (let* e := lift (stoul expTimeStr) in ret (Some (u32 e)))
        (ret None) in
    match r with
    | None => ret (0, line "CLIENT_ERROR invalid expiry time")
    | Some expTime =>
      let* noreply := lift (check_noreply input nextSpace nextEndl noreply) in
      let* (st, refs) := op_get key fresh_refs in
      if negb (status_eqb st SUCCESS) then ret (0, reply noreply (line "NOT_FOUND")) else
      let* st := op_insert key (r_flags refs) (r_cas refs) (r_value refs) expTime in
      if status_eqb st MEMORY_FULL then ret (0, reply noreply memory_reply)
      else ret (0, reply noreply (line "TOUCHED"))
    end
  end.

(** ** Flush, version, verbosity, quit, stats *)

Definition cmdProcessFlushAll (input : cstring) : ST W (Z * cstring) :=
  let nextSpace := find_sp input 0 in
  let nextEndl := find_endl input 0 in
  if missing nextSpace nextEndl then op_set_flush 0;;; ret (0, line "OK") else
  let nextSpace := u32 (nextSpace + 1) in
  let tempSpace := find_sp input nextSpace in
  if missing tempSpace nextEndl then
    let* expTimeStr := lift (slice input nextSpace nextEndl) in
    if str_eqb expTimeStr (lit "noreply") then op_set_flush 0;;; ret (0, []) else
    let* r :=
      catch_invalid_argument
        (let* e := lift (stoul expTimeStr) in ret (Some (u32 e)))
        (ret None) in
    match r with
    | None => ret (0, line "CLIENT_ERROR invalid expiry time")
    | Some expTime => op_set_flush expTime;;; ret (0, line "OK")
    end
  else
    let* expTimeStr := lift (slice input nextSpace tempSpace) in
    let nextSpace := u32 (tempSpace + 1) in
    let* r :=
      catch_invalid_argument
        (let* e := lift (stoul expTimeStr) in ret (Some (u32 e)))
        (ret None) in
    match r with
    | None => ret (0, line "CLIENT_ERROR invalid expiry time")
    | Some expTime =>
      let* noReplyStr := lift (slice input nextSpace nextEndl) in
      if negb (str_eqb noReplyStr (lit "noreply")) then
        ret (0, line "CLIENT_ERROR invalid noreply field")
      else op_set_flush expTime;;; ret (0, [])
    end.

Definition cmdProcessVersion (input : cstring) : ST W (Z * cstring) :=
  if 9 <? size input then ret (0, line "CLIENT_ERROR version does not accept options")
  else ret (0, VERSION_STRING).

Definition cmdProcessVerbosity (input : cstring) : ST W (Z * cstring) :=
  let nextSpace := find_sp input 0 in
  let nextEndl := find_endl input 0 in
  if missing nextSpace nextEndl then ret (0, line "CLIENT_ERROR exp time not found") else
  let nextSpace := u32 (nextSpace + 1) in
  let tempSpace := find_sp input nextSpace in
  let noreply := negb (missing tempSpace nextEndl) in
  let tempSpace := if noreply then tempSpace else nextEndl in
  let* verbStr := lift (slice input nextSpace tempSpace) in
  let nextSpace := u32 (tempSpace + 1) in
  let* r :=
    catch_invalid_argument
      (let* e := lift (stoul verbStr) in ret (Some (u32 e)))
      (ret None) in
  match r with
  | None => ret (0, line "CLIENT_ERROR invalid expiry time")
  | Some _ =>
    let* noreply := lift (check_noreply input nextSpace nextEndl noreply) in
    ret (0, reply noreply (line "OK"))
  end.

Definition cmdProcessQuit (input : cstring) : ST W (Z * cstring) :=
  if 6 <? size input then ret (0, line "CLIENT_ERROR quit has no options") else ret (-1, []).

(** [output.assign(s)]: replaces what [output] holds. *)
Definition assign (output s : cstring) : cstring := s.

Definition cmdProcessStats (input : cstring) : ST W (Z * cstring) :=
  if 7 <? size input then ret (0, line "CLIENT_ERROR quit has no options") else
  let output := assign [] (lit "STAT ") in
  let output := assign output (lit "pid ") in
  let output := assign output (to_string getpid) in
  let output := assign output CRLF in
  let output := assign output (lit "STAT ") in
  let output := assign output (lit "time ") in
  let* curSystemTime := op_time in
  let output := assign output (to_string curSystemTime) in
  let output := assign output CRLF in
  let output := assign output (lit "STAT ") in
  let output := assign output (lit "version ") in
  let output := assign output VERSION_STRING in
  let output := assign output (lit "STAT ") in
  let output := assign output (lit "threads ") in
  let* workers := op_workers in
  let output := assign output (to_string workers) in
  let output := assign output CRLF in
  let output := assign output (line "END") in
  ret (0, output).

(** ** The dispatcher *)

(** The chain of comparisons with the command word. *)
Definition dispatch (command input : cstring) : ST W (Z * cstring) :=
  if str_eqb command (lit "set") then cmdProcessSet input
  else if str_eqb command (lit "add") then cmdProcessAdd input
  else if str_eqb command (lit "replace") then cmdProcessReplace input
  else if str_eqb command (lit "append") then cmdProcessAppend input
  else if str_eqb command (lit "prepend") then cmdProcessPrepend input
  else if str_eqb command (lit "cas") then cmdProcessCas input
  else if str_eqb command (lit "get") then cmdProcessGet input
  else if str_eqb command (lit "gets") then cmdProcessGets input
  else if str_eqb command (lit "delete") then cmdProcessDelete input
  else if str_eqb command (lit "incr") then cmdProcessIncr input
  else if str_eqb command (lit "decr") then cmdProcessDecr input
  else if str_eqb command (lit "touch") then cmdProcessTouch input
  else if str_eqb command (lit "stats") then cmdProcessStats input
  else if str_eqb command (lit "flush_all") then cmdProcessFlushAll input
  else if str_eqb command (lit "version") then cmdProcessVersion input
  else if str_eqb command (lit "verbosity") then cmdProcessVerbosity input
  else if str_eqb command (lit "quit") then cmdProcessQuit input
  else ret (0, line "ERROR").

Definition cmdProcessCommand (input : cstring) : ST W (Z * cstring) :=
  let nextSpace := find_sp input 0 in
  let nextSpace := if nextSpace =? npos then find_endl input 0 else nextSpace in
  let* command := lift (substr input 0 nextSpace) in
  op_handle_flush;;;
  dispatch command input.

End Commands.
Arguments BadInput {A} reply store.
Arguments Parsed {A} a.
