(* ===== verification/CommandsParse.v ===== *)
(** * Parsing a command line

    How the position arithmetic of scmd.cpp reads a well-formed line: words without blanks
    and carriage returns, separated by single blanks, closed by a carriage return and a line
    feed. The inputs are shorter than [2^32 - 1] characters, so that no position is confused
    with [npos]. *)

From stdpp Require Import base list gmap strings.
From Stdlib Require Import ZArith Lia Ascii String.
From S2P Require Import Prelude CxxString DbLru DbLruRefine Commands.

(** A word of a command line. *)
Definition token (w : cstring) : Prop := (SP ∉ w) /\ (CR ∉ w).
#[export] Instance token_dec w : Decision (token w).
Proof. apply _. Defined.

(** Lengths for which positions fit an [unsigned int] below [npos]. *)
Definition small (s : cstring) : Prop := size s < UINT_MOD - 3.

Lemma SP_CRLF : SP ∉ CRLF.
Proof. unfold CRLF. by rewrite !not_elem_of_cons; repeat split; [..|apply not_elem_of_nil]. Qed.

Lemma to_string_token n : 0 <= n -> token (to_string n).
Proof. intros. split; by apply to_string_no_sep. Qed.

Section Parse.
Context `{DM : DataModel}.

Lemma u32_npos : u32 npos = UINT_MOD - 1.
Proof.
  unfold npos, ULONG_MAX, ULONG_MOD, u32. by destruct long_bits_cases as [-> | ->].
Qed.

Lemma npos_ge : UINT_MOD - 1 <= npos.
Proof. pose proof ULONG_MOD_ge. unfold npos, ULONG_MAX. lia. Qed.

(** The blank after a word. *)
Lemma find_sp_hit input pre w t p :
  input = pre ++ w ++ SP :: t -> p = size pre -> SP ∉ w -> small input ->
  find_sp input p = p + size w.
Proof.
  intros -> -> Hw Hs. unfold find_sp, find_char. rewrite find_str_after, find_at_char_hit by done.
  unfold small in Hs. autorewrite with cxx in Hs.
  pose proof (size_nonneg pre). pose proof (size_nonneg w). pose proof (size_nonneg t).
  apply u32_small. lia.
Qed.

Lemma find_endl_hit input pre w t p :
  input = pre ++ w ++ CRLF ++ t -> p = size pre -> CR ∉ w -> small input ->
  find_endl input p = p + size w.
Proof.
  intros -> -> Hw Hs. unfold find_endl. rewrite find_str_after, find_at_crlf_hit by done.
  unfold small in Hs. autorewrite with cxx in Hs.
  pose proof (size_nonneg pre). pose proof (size_nonneg w). pose proof (size_nonneg t).
  apply u32_small. lia.
Qed.

Lemma find_at_skip c w s i : c ∉ w -> find_at [c] (w ++ s) i = find_at [c] s (i + size w).
Proof.
  revert i. induction w as [|a w IH]; intros i Hc; [rewrite size_nil; cbn; f_equal; lia|].
  apply not_elem_of_cons in Hc as [Hne Hc]. cbn [app find_at is_prefix].
  rewrite (proj2 (Ascii.eqb_neq c a) Hne). cbn [andb]. rewrite IH, size_cons by done. f_equal. lia.
Qed.

(** After the last word of the line a blank is found behind the end of the line, or nowhere. *)
Lemma find_sp_beyond input pre w t p :
  input = pre ++ w ++ CRLF ++ t -> p = size pre -> SP ∉ w -> small input ->
  p + size w + 2 <= find_sp input p <= UINT_MOD - 1.
Proof.
  intros -> -> Hw Hs. unfold find_sp, find_char. rewrite find_str_after, find_at_skip by done.
  unfold small in Hs. autorewrite with cxx in Hs.
  pose proof (size_nonneg pre). pose proof (size_nonneg w). pose proof (size_nonneg t).
  rewrite (find_at_skip SP CRLF t) by exact SP_CRLF.
  rewrite size_CRLF.
  destruct (find_at_bounds [SP] t (size pre + size w + 2)) as [->|Hb]; [done|rewrite u32_npos; lia|].
  rewrite size_cons, size_nil in Hb. rewrite u32_small; lia.
Qed.

Lemma missing_false x e : 0 <= x <= e -> e < UINT_MOD - 1 -> missing x e = false.
Proof. intros. pose proof npos_ge. unfold missing. apply orb_false_iff. lia. Qed.

Lemma missing_true x e : e < x -> missing x e = true.
Proof. intros. unfold missing. apply orb_true_iff. right. lia. Qed.

Lemma slice_ok input pre w t p q :
  input = pre ++ w ++ t -> p = size pre -> q = p + size w -> small input ->
  slice input p q = Ret w.
Proof.
  intros -> -> -> Hs. unfold slice. unfold small in Hs. autorewrite with cxx in Hs.
  pose proof (size_nonneg pre). pose proof (size_nonneg w). pose proof (size_nonneg t).
  rewrite u32_small by lia. apply substr_ok. lia.
Qed.

(** Everything from [p] on, when the end position is [npos]. *)
Lemma slice_rest input pre w p q :
  input = pre ++ w -> p = size pre -> size input <= q -> q < UINT_MOD -> small input ->
  slice input p q = Ret w.
Proof.
  intros -> -> Hq Hq' Hs. unfold slice. unfold small in Hs. autorewrite with cxx in Hs, Hq.
  pose proof (size_nonneg pre). pose proof (size_nonneg w).
  rewrite u32_small by lia. apply substr_rest. lia.
Qed.
End Parse.


(** ** Storage commands *)

Definition nr_text (nr : bool) : cstring := if nr then SP :: lit "noreply" else [].

(** [<cmd> <key> <flags> <exptime> <bytes> [noreply]], without the end of line. *)
Definition storage_line (cmd k f e b : cstring) (nr : bool) : cstring :=
  cmd ++ [SP] ++ k ++ [SP] ++ f ++ [SP] ++ e ++ [SP] ++ b ++ nr_text nr.

Section Storage.
Context `{DM : DataModel} `{E : Env} {W : Type} `{DB : Database W}.

Lemma common_flags_exptime_ok input pre f e t p en store (s : W) ev :
  input = pre ++ f ++ SP :: e ++ SP :: t -> p = size pre -> small input ->
  SP ∉ f -> SP ∉ e -> p + size f + 1 + size e <= en < UINT_MOD - 1 ->
  stoul e = Ret ev -> ev <= EXPIRY_THRESHOLD ->
  common_flags_exptime input p en store s =
  (Ret (Parsed (p + size f + 1 + size e, set_s_expTime ev (set_s_flags f store))), s).
Proof.
  intros Hi Hp Hs Hf He Hen Hev Hth. unfold common_flags_exptime.
  pose proof (size_nonneg pre). pose proof (size_nonneg f). pose proof (size_nonneg e).
  rewrite (find_sp_hit input pre f (e ++ SP :: t) p) by done.
  rewrite (slice_ok input pre f (SP :: e ++ SP :: t) p) by done. cbn [lift bind].
  unfold bind at 1, lift. rewrite missing_false by lia. rewrite (u32_small (p + size f + 1)) by lia.
  assert (input = (pre ++ f ++ [SP]) ++ e ++ SP :: t) as Hi2 by (subst; by rewrite <- !app_assoc).
  rewrite (find_sp_hit input (pre ++ f ++ [SP]) e t) by (done || (autorewrite with cxx; lia)).
  rewrite (slice_ok input (pre ++ f ++ [SP]) e (SP :: t)) by (done || (autorewrite with cxx; lia)).
  unfold bind, catch_invalid_argument. rewrite Hev.
  rewrite (proj2 (Z.ltb_ge _ _)) by done. cbn [ret]. unfold ret. rewrite missing_false by lia. done.
Qed.

Lemma common_bytes_ok input pre b nr body p en store :
  input = pre ++ b ++ nr_text nr ++ CRLF ++ body -> p = size pre -> small input ->
  token b -> en = p + size b + size (nr_text nr) ->
  common_bytes_cas_noreply input p en false store = Ret (Parsed (b, set_s_noreply nr store)).
Proof.
  intros Hi Hp Hs [Hb1 Hb2] Hen. unfold common_bytes_cas_noreply.
  pose proof (size_nonneg pre). pose proof (size_nonneg b). pose proof (size_nonneg body).
  pose proof Hs as Hs'. unfold small in Hs'. rewrite Hi in Hs'. autorewrite with cxx in Hs'.
  cbn [andb]. destruct nr; cbn [nr_text] in *.
  - change (size (SP :: lit "noreply")) with 8 in *.
    rewrite (find_sp_hit input pre b (lit "noreply" ++ CRLF ++ body) p) by done.
    rewrite (slice_ok input pre b (SP :: lit "noreply" ++ CRLF ++ body) p) by done. cbn [obind].
    rewrite (proj2 (Z.ltb_ge _ _)) by lia. rewrite u32_small by lia.
    rewrite (proj2 (Z.eqb_neq _ _)) by lia.
    assert (input = (pre ++ b ++ [SP]) ++ lit "noreply" ++ CRLF ++ body) as Hi2
      by (subst; by rewrite <- !app_assoc).
    rewrite (find_endl_hit input (pre ++ b ++ [SP]) (lit "noreply") body)
      by (first [done | autorewrite with cxx; lia | by rewrite <- (bool_decide_spec (CR ∉ lit "noreply"))]).
    rewrite (slice_ok input (pre ++ b ++ [SP]) (lit "noreply") (CRLF ++ body))
      by (done || (autorewrite with cxx; lia)).
    cbn [obind]. by rewrite str_eqb_refl.
  - change (size []) with 0 in *. cbn [app] in Hi.
    pose proof (find_sp_beyond input pre b body p Hi Hp Hb1 Hs) as Hsp.
    destruct (substr_total input p (u32 (find_sp input p - p))) as [w Hw].
    { rewrite Hi, Hp. autorewrite with cxx. lia. }
    unfold slice at 1. rewrite Hw. cbn [obind].
    rewrite (proj2 (Z.ltb_lt _ _)) by lia.
    rewrite (find_endl_hit input pre b body p) by done.
    rewrite (slice_ok input pre b (CRLF ++ body) p) by done. done.
Qed.

Lemma common_data_spec input l body n store :
  input = l ++ CRLF ++ body -> small input -> s_bytes store = n -> 0 <= n < UINT_MOD ->
  common_data input (size l) store =
  if n =? 0 then Ret (0, store)
  else if size body <? n then Ret (s32 (u32 (n + 2) - size body), set_s_data body store)
  else Ret (0, set_s_data (take (Z.to_nat n) body) store).
Proof.
  intros Hi Hs Hn Hr. unfold common_data. rewrite Hn.
  unfold small in Hs. pose proof (size_nonneg l). pose proof (size_nonneg body). pose proof npos_ge.
  rewrite Hi in *. autorewrite with cxx in Hs. rewrite u32_small by lia.
  autorewrite with cxx. rewrite (proj2 (Z.eqb_neq _ npos)) by lia.
  rewrite (proj2 (Z.ltb_ge _ _)) by lia. cbn [orb andb].
  destruct (Z.eqb_spec n 0); [done|].
  replace (l ++ CRLF ++ body) with ((l ++ CRLF) ++ body) by by rewrite <- app_assoc.
  replace (size l + 2) with (size (l ++ CRLF)) by (autorewrite with cxx; lia).
  destruct (Z.ltb_spec (size body) n).
  - rewrite substr_rest by lia. cbn [obind]. by rewrite (proj2 (Z.ltb_lt _ _)) by lia.
  - rewrite <- (take_drop (Z.to_nat n) body) at 1.
    assert (size (take (Z.to_nat n) body) = n) as Ht.
    { unfold size in *. rewrite length_take. lia. }
    rewrite substr_ok by done. cbn [obind]. by rewrite Ht, (proj2 (Z.ltb_ge _ _)) by lia.
Qed.

(** A storage line up to [<bytes>]; [args] is the rest of the line. *)
Lemma cmdProcessCommon_head cmd k f e args body isCas store (s : W) ev :
  let pre := cmd ++ [SP] ++ k ++ [SP] ++ f ++ [SP] ++ e ++ [SP] in
  let input := (pre ++ args) ++ CRLF ++ body in
  small input -> token cmd -> token k -> token f -> token e -> CR ∉ args ->
  stoul e = Ret ev -> ev <= EXPIRY_THRESHOLD ->
  cmdProcessCommon input [] isCas false store s =
  common_tail input [] (size pre) (size pre + size args) isCas
    (set_s_expTime ev (set_s_flags f (set_s_key k store))) s.
Proof.
  intros pre input Hs [Hc1 Hc2] [Hk1 Hk2] [Hf1 Hf2] [He1 He2] Ha Hev Hth.
  assert (input = ((cmd ++ [SP] ++ k ++ [SP] ++ f ++ [SP] ++ e ++ [SP]) ++ args) ++ CRLF ++ body)
    as Hi by done.
  pose proof Hs as Hs'. unfold small in Hs'. rewrite Hi in Hs'. autorewrite with cxx in Hs'.
  pose proof (size_nonneg cmd). pose proof (size_nonneg k). pose proof (size_nonneg f).
  pose proof (size_nonneg e). pose proof (size_nonneg args). pose proof (size_nonneg body).
  assert (size pre = size cmd + size k + size f + size e + 4) as Hpre
    by (unfold pre; autorewrite with cxx; lia).
  assert (find_endl input 0 = size pre + size args) as Hen.
  { rewrite (find_endl_hit input [] _ body 0 Hi) by (done || (rewrite !not_elem_of_app; set_solver)).
    rewrite Hpre. autorewrite with cxx. lia. }
  unfold cmdProcessCommon. rewrite Hen.
  rewrite (find_sp_hit input [] cmd (k ++ [SP] ++ f ++ [SP] ++ e ++ [SP] ++ args ++ CRLF ++ body) 0)
    by first [done | rewrite Hi, <- !app_assoc; done].
  rewrite Z.add_0_l. rewrite missing_false by lia. rewrite u32_small by lia.
  rewrite (find_sp_hit input (cmd ++ [SP]) k (f ++ [SP] ++ e ++ [SP] ++ args ++ CRLF ++ body))
    by first [done | rewrite Hi, <- !app_assoc; done | autorewrite with cxx; lia].
  rewrite (slice_ok input (cmd ++ [SP]) k (SP :: f ++ [SP] ++ e ++ [SP] ++ args ++ CRLF ++ body))
    by first [done | rewrite Hi, <- !app_assoc; done | autorewrite with cxx; lia].
  unfold bind at 1, lift at 1. rewrite missing_false by lia. rewrite u32_small by lia.
  erewrite bind_Ret; cycle 1.
  { apply (common_flags_exptime_ok input (cmd ++ [SP] ++ k ++ [SP]) f e (args ++ CRLF ++ body)); try done;
      first [rewrite Hi, <- !app_assoc; done | autorewrite with cxx; lia | lia]. }
  cbv beta iota. rewrite u32_small by lia. f_equal. lia.
Qed.

(** [<bytes>] and the data block, once the words of the line are read. *)
Lemma common_tail_data input l body p isCas store store' n (s : W) :
  input = l ++ CRLF ++ body -> small input ->
  common_bytes_cas_noreply input p (size l) isCas store = Ret (Parsed (to_string n, store')) ->
  0 <= n < UINT_MOD ->
  let st := set_s_bytes n store' in
  common_tail input [] p (size l) isCas store s =
  (Ret (if n =? 0 then (0, [], st)
        else if size body <? n then (s32 (u32 (n + 2) - size body), [], set_s_data body st)
        else (0, [], set_s_data (take (Z.to_nat n) body) st)), s).
Proof.
  intros Hi Hs Hb Hn st. unfold common_tail. rewrite Hb.
  unfold bind at 1, lift at 1. unfold bind at 1, catch_invalid_argument, bind at 1, lift at 1.
  assert (stoul (to_string n) = Ret n) as ->.
  { rewrite <- (app_nil_r (to_string n)). pose proof ULONG_MOD_ge.
    apply stoul_to_string; [lia|done]. }
  unfold ret at 1. rewrite u32_small by done. fold st.
  rewrite (common_data_spec input l body n) by done.
  unfold bind, lift. destruct (n =? 0); [done|]. by destruct (size body <? n).
Qed.

Lemma nr_no_cr nr : CR ∉ nr_text nr.
Proof. destruct nr; apply (bool_decide_unpack _); reflexivity. Qed.

(** The whole of [cmdProcessCommon] on a well-formed storage line with a relative expiry,
    whatever part of the data block has arrived. *)
Lemma cmdProcessCommon_storage cmd k f e n nr body store (s : W) ev :
  let input := storage_line cmd k f e (to_string n) nr ++ CRLF ++ body in
  small input -> token cmd -> token k -> token f -> token e -> 0 <= n < UINT_MOD ->
  stoul e = Ret ev -> ev <= EXPIRY_THRESHOLD ->
  let st := mkStore k f ev n (s_casStr store) nr (s_data store) in
  cmdProcessCommon input [] false false store s =
  (Ret (if n =? 0 then (0, [], st)
        else if size body <? n then (s32 (u32 (n + 2) - size body), [], set_s_data body st)
        else (0, [], set_s_data (take (Z.to_nat n) body) st)), s).
Proof.
  intros input Hs Hc Hk Hf He Hn Hev Hth st. pose proof (to_string_token n) as Hb.
  set (pre := cmd ++ [SP] ++ k ++ [SP] ++ f ++ [SP] ++ e ++ [SP]).
  assert (input = (pre ++ to_string n ++ nr_text nr) ++ CRLF ++ body) as Hi
    by (unfold input, storage_line, pre; by rewrite <- !app_assoc).
  rewrite Hi in *. unfold pre. rewrite (cmdProcessCommon_head cmd k f e _ body false store s ev); fold pre;
    [|done..|rewrite not_elem_of_app; split; [apply Hb; lia|apply nr_no_cr]|done|done].
  rewrite <- size_app. rewrite (common_tail_data _ (pre ++ to_string n ++ nr_text nr) body _ false _
    (set_s_noreply nr (set_s_expTime ev (set_s_flags f (set_s_key k store)))) n); [done|done|done| |done].
  apply (common_bytes_ok _ pre _ nr body); [by rewrite <- !app_assoc|done|done|apply Hb; lia|].
  autorewrite with cxx. lia.
Qed.

(** [<bytes> <cas unique> [noreply]] *)
Lemma common_bytes_cas_ok input pre b c nr body p en store :
  input = pre ++ b ++ [SP] ++ c ++ nr_text nr ++ CRLF ++ body -> p = size pre -> small input ->
  token b -> token c -> en = p + size b + 1 + size c + size (nr_text nr) ->
  common_bytes_cas_noreply input p en true store =
  Ret (Parsed (b, set_s_noreply nr (set_s_casStr c store))).
Proof.
  intros Hi Hp Hs [Hb1 Hb2] [Hc1 Hc2] Hen. unfold common_bytes_cas_noreply.
  pose proof (size_nonneg pre). pose proof (size_nonneg b). pose proof (size_nonneg body).
  pose proof (size_nonneg c). pose proof npos_ge.
  pose proof Hs as Hs'. unfold small in Hs'. rewrite Hi in Hs'. autorewrite with cxx in Hs'.
  pose proof (size_nonneg (nr_text nr)).
  rewrite (find_sp_hit input pre b (c ++ nr_text nr ++ CRLF ++ body) p) by done.
  rewrite (slice_ok input pre b (SP :: c ++ nr_text nr ++ CRLF ++ body) p) by done. cbn [obind].
  rewrite (proj2 (Z.eqb_neq (p + size b) npos)) by lia. cbn [andb negb].
  rewrite missing_false by lia. rewrite u32_small by lia.
  assert (input = (pre ++ b ++ [SP]) ++ c ++ nr_text nr ++ CRLF ++ body) as Hi2
    by (subst; by rewrite <- !app_assoc).
  destruct nr; cbn [nr_text] in *.
  - change (size (SP :: lit "noreply")) with 8 in *.
    rewrite (find_sp_hit input (pre ++ b ++ [SP]) c (lit "noreply" ++ CRLF ++ body))
      by (done || (autorewrite with cxx; lia)).
    rewrite (slice_ok input (pre ++ b ++ [SP]) c (SP :: lit "noreply" ++ CRLF ++ body))
      by (done || (autorewrite with cxx; lia)). cbn [obind].
    rewrite (proj2 (Z.ltb_ge _ _)) by lia. rewrite u32_small by lia.
    rewrite (proj2 (Z.eqb_neq _ _)) by lia.
    assert (input = (pre ++ b ++ [SP] ++ c ++ [SP]) ++ lit "noreply" ++ CRLF ++ body) as Hi3
      by (subst; by rewrite <- !app_assoc).
    rewrite (find_endl_hit input (pre ++ b ++ [SP] ++ c ++ [SP]) (lit "noreply") body)
      by (first [done | autorewrite with cxx; lia | by rewrite <- (bool_decide_spec (CR ∉ lit "noreply"))]).
    rewrite (slice_ok input (pre ++ b ++ [SP] ++ c ++ [SP]) (lit "noreply") (CRLF ++ body))
      by (done || (autorewrite with cxx; lia)).
    cbn [obind]. by rewrite str_eqb_refl.
  - change (size []) with 0 in *. cbn [app] in Hi2.
    pose proof (find_sp_beyond input (pre ++ b ++ [SP]) c body (p + size b + 1) Hi2
      ltac:(autorewrite with cxx; lia) Hc1 Hs) as Hsp.
    destruct (substr_total input (p + size b + 1) (u32 (find_sp input (p + size b + 1) - (p + size b + 1))))
      as [w Hw]; [rewrite Hi2; autorewrite with cxx; lia|].
    unfold slice at 1. rewrite Hw. cbn [obind].
    rewrite (proj2 (Z.ltb_lt _ _)) by lia.
    rewrite (find_endl_hit input (pre ++ b ++ [SP]) c body) by (done || (autorewrite with cxx; lia)).
    rewrite (slice_ok input (pre ++ b ++ [SP]) c (CRLF ++ body)) by (done || (autorewrite with cxx; lia)).
    done.
Qed.

(** [cas <key> <flags> <exptime> <bytes> <cas unique> [noreply]] *)
Lemma cmdProcessCommon_cas cmd k f e n c nr body store (s : W) ev :
  let input := storage_line cmd k f e (to_string n ++ [SP] ++ c) nr ++ CRLF ++ body in
  small input -> token cmd -> token k -> token f -> token e -> token c -> 0 <= n < UINT_MOD ->
  stoul e = Ret ev -> ev <= EXPIRY_THRESHOLD ->
  let st := mkStore k f ev n c nr (s_data store) in
  cmdProcessCommon input [] true false store s =
  (Ret (if n =? 0 then (0, [], st)
        else if size body <? n then (s32 (u32 (n + 2) - size body), [], set_s_data body st)
        else (0, [], set_s_data (take (Z.to_nat n) body) st)), s).
Proof.
  intros input Hs Hcm Hk Hf He Hc Hn Hev Hth st. pose proof (to_string_token n) as Hb.
  set (pre := cmd ++ [SP] ++ k ++ [SP] ++ f ++ [SP] ++ e ++ [SP]).
  set (args := to_string n ++ [SP] ++ c ++ nr_text nr).
  assert (input = (pre ++ args) ++ CRLF ++ body) as Hi
    by (unfold input, storage_line, pre, args; by rewrite <- !app_assoc).
  rewrite Hi in *. unfold pre. rewrite (cmdProcessCommon_head cmd k f e args body true store s ev); fold pre;
    [|done..| |done|done].
  2:{ unfold args. rewrite !not_elem_of_app. split; [apply Hb; lia|]. split; [set_solver|].
      split; [apply Hc|apply nr_no_cr]. }
  rewrite <- size_app. rewrite (common_tail_data _ (pre ++ args) body _ true _
    (set_s_noreply nr (set_s_casStr c (set_s_expTime ev (set_s_flags f (set_s_key k store))))) n);
    [done|done|done| |done].
  apply (common_bytes_cas_ok _ pre _ c nr body);
    [unfold args; by rewrite <- !app_assoc|done|done|apply Hb; lia|done|].
  unfold args. autorewrite with cxx. lia.
Qed.

(** Two words are never taken for the word [noreply]. *)
Lemma args_not_noreply e b nr : SP ∉ e -> b <> [] ->
  e ++ [SP] ++ b ++ nr_text nr <> lit "noreply" /\ e ++ [SP] ++ b ++ nr_text nr <> lit "noreply ".
Proof.
  intros He Hb. assert (SP ∉ lit "noreply") as Hno by (apply (bool_decide_unpack _); reflexivity).
  split; intros Heq.
  - assert (SP ∈ lit "noreply") as Hin by (rewrite <- Heq; set_solver). done.
  - assert (e ++ SP :: (b ++ nr_text nr) = lit "noreply" ++ SP :: []) as Heq' by exact Heq.
    pose proof (@find_at_char_hit ILP32 SP e (b ++ nr_text nr) 0 He) as Q1. rewrite Heq' in Q1.
    rewrite (find_at_char_hit SP _ [] 0 Hno) in Q1.
    destruct (app_inj_1 e (lit "noreply") (SP :: b ++ nr_text nr) [SP]) as [_ [= Hq]];
      [unfold size in Q1; lia|done|]. by apply app_eq_nil in Hq as [? _].
Qed.

(** The first attempt of [append] and [prepend], which expects [<bytes>] right after the key
    and skips its first character, rejects a line that has [<flags> <exptime>]. *)
Lemma cmdProcessCommon_exist_rejects cmd k c f e n nr body store (s : W) :
  let input := storage_line cmd k (c :: f) e (to_string n) nr ++ CRLF ++ body in
  small input -> token cmd -> token k -> token (c :: f) -> token e -> 0 <= n ->
  cmdProcessCommon input [] false true store s = (Ret (0, junk_reply, set_s_key k store), s).
Proof.
  intros input Hs [Hc1 Hc2] [Hk1 Hk2] [Hf1 Hf2] [He1 He2] Hn.
  destruct (to_string_token n) as [Hb1 Hb2]; [lia|].
  assert (to_string n <> []) as Hbne by (destruct (to_string_spec n) as (_ & _ & ?); done).
  set (b := to_string n) in *. apply not_elem_of_cons in Hf1 as [_ Hf1].
  set (u := e ++ [SP] ++ b ++ nr_text nr).
  assert (input = (cmd ++ [SP] ++ k ++ [SP] ++ [c]) ++ f ++ SP :: u ++ CRLF ++ body) as Hi
    by (unfold input, storage_line, u; change (c :: f) with ([c] ++ f); rewrite <- !app_assoc; reflexivity).
  pose proof Hs as Hs'. unfold small in Hs'. rewrite Hi in Hs'. autorewrite with cxx in Hs'.
  pose proof (size_nonneg cmd). pose proof (size_nonneg k). pose proof (size_nonneg f).
  pose proof (size_nonneg u). pose proof (size_nonneg body).
  pose proof (nr_no_cr nr) as Hnr. assert (CR ∉ u) as Hu by (unfold u; rewrite !not_elem_of_app; set_solver).
  destruct (args_not_noreply e b nr He1 Hbne) as [Hu1 Hu2]. fold u in Hu1, Hu2.
  assert (0 < size u) as Hup.
  { unfold u. autorewrite with cxx. pose proof (size_nonneg e). pose proof (size_nonneg b).
    pose proof (size_nonneg (nr_text nr)). lia. }
  assert (find_endl input 0 = size cmd + size k + size f + size u + 4) as Hen.
  { rewrite (find_endl_hit input [] ((cmd ++ [SP] ++ k ++ [SP] ++ [c]) ++ f ++ [SP] ++ u) body 0);
      [autorewrite with cxx; lia|rewrite Hi, <- !app_assoc; done|done| |done].
    apply not_elem_of_cons in Hf2 as [? ?]. rewrite !not_elem_of_app. set_solver. }
  unfold cmdProcessCommon. rewrite Hen.
  rewrite (find_sp_hit input [] cmd (k ++ [SP] ++ [c] ++ f ++ SP :: u ++ CRLF ++ body) 0)
    by first [done | rewrite Hi, <- !app_assoc; done].
  rewrite Z.add_0_l. rewrite missing_false by lia. rewrite u32_small by lia.
  rewrite (find_sp_hit input (cmd ++ [SP]) k ([c] ++ f ++ SP :: u ++ CRLF ++ body))
    by first [done | rewrite Hi, <- !app_assoc; done | autorewrite with cxx; lia].
  rewrite (slice_ok input (cmd ++ [SP]) k (SP :: [c] ++ f ++ SP :: u ++ CRLF ++ body))
    by first [done | rewrite Hi, <- !app_assoc; done | autorewrite with cxx; lia].
  unfold bind at 1, lift at 1. rewrite missing_false by lia. rewrite !u32_small by lia.
  unfold bind at 1, ret at 1. cbv beta iota. rewrite u32_small by lia.
  unfold common_tail, common_bytes_cas_noreply. cbn [andb].
  rewrite (find_sp_hit input (cmd ++ [SP] ++ k ++ [SP] ++ [c]) f (u ++ CRLF ++ body))
    by first [done | rewrite Hi, <- !app_assoc; done | autorewrite with cxx; lia].
  rewrite (slice_ok input (cmd ++ [SP] ++ k ++ [SP] ++ [c]) f (SP :: u ++ CRLF ++ body))
    by first [done | rewrite Hi, <- !app_assoc; done | autorewrite with cxx; lia].
  cbn [obind]. rewrite (proj2 (Z.ltb_ge _ _)) by lia. rewrite u32_small by lia.
  rewrite (proj2 (Z.eqb_neq _ _)) by lia.
  rewrite (find_endl_hit input (cmd ++ [SP] ++ k ++ [SP] ++ [c] ++ f ++ [SP]) u body)
    by first [done | rewrite Hi, <- !app_assoc; done | autorewrite with cxx; lia].
  rewrite (slice_ok input (cmd ++ [SP] ++ k ++ [SP] ++ [c] ++ f ++ [SP]) u (CRLF ++ body))
    by first [done | rewrite Hi, <- !app_assoc; done | autorewrite with cxx; lia].
  cbn [obind]. by rewrite !str_eqb_neq by done.
Qed.

End Storage.

(** ** The other commands *)

(** [<cmd> <key> <value> [noreply]] *)
Definition key_value_line (cmd k v : cstring) (nr : bool) : cstring :=
  cmd ++ [SP] ++ k ++ [SP] ++ v ++ nr_text nr.

(** [<cmd> <key>*] *)
Definition keys_line (cmd : cstring) (ks : list cstring) : cstring :=
  cmd ++ List.concat (List.map (cons SP) ks).

Section Others.
Context `{DM : DataModel}.

(** The word after a value, or the end of the line. *)
Lemma after_value input pre v nr t p :
  input = pre ++ v ++ nr_text nr ++ CRLF ++ t -> p = size pre -> SP ∉ v -> small input ->
  missing (find_sp input p) (p + size v + size (nr_text nr)) = negb nr
  /\ (nr = true -> find_sp input p = p + size v).
Proof.
  intros Hi Hp Hv Hs. pose proof Hs as Hs'. unfold small in Hs'. rewrite Hi in Hs'.
  autorewrite with cxx in Hs'. pose proof (size_nonneg pre). pose proof (size_nonneg v).
  pose proof (size_nonneg t). destruct nr; cbn [nr_text negb app] in *.
  - rewrite (find_sp_hit input pre v (lit "noreply" ++ CRLF ++ t) p) by done.
    change (size (SP :: lit "noreply")) with 8 in *. split; [apply missing_false; lia|done].
  - pose proof (find_sp_beyond input pre v t p Hi Hp Hv Hs). change (size []) with 0.
    split; [apply missing_true; lia|done].
Qed.

Lemma check_noreply_ok input pre nr t p en :
  input = pre ++ nr_text nr ++ CRLF ++ t -> p = size pre + 1 ->
  en = size pre + size (nr_text nr) -> small input ->
  check_noreply input p en nr = Ret nr.
Proof.
  intros Hi Hp Hen Hs. unfold check_noreply. destruct nr; [|done]. cbn [nr_text] in *.
  rewrite (slice_ok input (pre ++ [SP]) (lit "noreply") (CRLF ++ t));
    [done|rewrite Hi, <- !app_assoc; done|autorewrite with cxx; lia| |done].
  rewrite Hen, Hp, size_cons. lia.
Qed.

Lemma read_key_value_ok cmd k v nr t :
  let input := key_value_line cmd k v nr ++ CRLF ++ t in
  let q := size cmd + 1 + size k + 1 + size v in
  small input -> token cmd -> token k -> token v ->
  find_endl input 0 = q + size (nr_text nr)
  /\ read_key_value input (q + size (nr_text nr)) = Ret (inr (k, v, nr, q + 1))
  /\ check_noreply input (q + 1) (q + size (nr_text nr)) nr = Ret nr.
Proof.
  intros input q Hs [Hc1 Hc2] [Hk1 Hk2] [Hv1 Hv2].
  assert (input = (cmd ++ [SP] ++ k ++ [SP] ++ v ++ nr_text nr) ++ CRLF ++ t) as Hi by done.
  pose proof Hs as Hs'. unfold small in Hs'. rewrite Hi in Hs'. autorewrite with cxx in Hs'.
  pose proof (size_nonneg cmd). pose proof (size_nonneg k). pose proof (size_nonneg v).
  pose proof (size_nonneg (nr_text nr)). pose proof (size_nonneg t). pose proof (nr_no_cr nr).
  split.
  { rewrite (find_endl_hit input [] _ t 0 Hi) by (done || (rewrite !not_elem_of_app; set_solver)).
    unfold q. autorewrite with cxx. lia. }
  destruct (after_value input (cmd ++ [SP] ++ k ++ [SP]) v nr t (size cmd + 1 + size k + 1)) as [Hm Hsp];
    [by rewrite Hi, <- !app_assoc|autorewrite with cxx; lia|done|done|].
  split.
  - unfold read_key_value.
    rewrite (find_sp_hit input [] cmd (k ++ [SP] ++ v ++ nr_text nr ++ CRLF ++ t) 0)
      by first [done | rewrite Hi, <- !app_assoc; done].
    rewrite Z.add_0_l. rewrite missing_false by (unfold q; lia). rewrite u32_small by lia.
    rewrite (find_sp_hit input (cmd ++ [SP]) k (v ++ nr_text nr ++ CRLF ++ t))
      by first [done | rewrite Hi, <- !app_assoc; done | autorewrite with cxx; lia].
    rewrite missing_false by (unfold q; lia).
    rewrite (slice_ok input (cmd ++ [SP]) k (SP :: v ++ nr_text nr ++ CRLF ++ t))
      by first [done | rewrite Hi, <- !app_assoc; done | autorewrite with cxx; lia].
    cbn [obind]. rewrite !(u32_small (size cmd + 1 + size k + 1)) by lia. unfold q in *. rewrite Hm.
    replace (if negb (negb nr) then _ else _) with (size cmd + 1 + size k + 1 + size v)
      by (destruct nr; cbn [negb nr_text]; [by rewrite Hsp|rewrite size_nil; lia]).
    rewrite (slice_ok input (cmd ++ [SP] ++ k ++ [SP]) v (nr_text nr ++ CRLF ++ t))
      by first [done | rewrite Hi, <- !app_assoc; done | autorewrite with cxx; lia].
    cbn [obind]. rewrite u32_small, negb_involutive by lia. done.
  - apply (check_noreply_ok input (cmd ++ [SP] ++ k ++ [SP] ++ v) nr t);
      [by rewrite Hi, <- !app_assoc|unfold q; autorewrite with cxx; lia..|done].
Qed.

Lemma read_keys_ok ks : forall fuel input pre t acc,
  ks <> [] -> Forall token ks -> small input ->
  input = pre ++ List.concat (List.map (cons SP) ks) ++ CRLF ++ t ->
  (List.length ks <= fuel)%nat ->
  read_keys fuel input (size pre) (size pre + size (List.concat (List.map (cons SP) ks))) acc
  = Ret (acc ++ ks).
Proof.
  induction ks as [|k ks IH]; intros fuel input pre t acc Hne Hks Hs Hi Hf; [done|].
  apply Forall_cons in Hks as [[Hk1 Hk2] Hks]. destruct fuel as [|fuel]; [cbn in Hf; lia|].
  cbn [List.map List.concat] in *. set (rest := List.concat (List.map (cons SP) ks)) in *.
  pose proof Hs as Hs'. unfold small in Hs'. rewrite Hi in Hs'. autorewrite with cxx in Hs'.
  pose proof (size_nonneg pre). pose proof (size_nonneg k). pose proof (size_nonneg rest).
  pose proof (size_nonneg t). autorewrite with cxx. cbn [read_keys]. rewrite u32_small by lia.
  destruct ks as [|k' ks].
  - cbn in rest. unfold rest in *. rewrite size_nil in *.
    pose proof (find_sp_beyond input (pre ++ [SP]) k t (size pre + 1)
      ltac:(rewrite Hi, app_nil_r, <- !app_assoc; done) ltac:(autorewrite with cxx; lia) Hk1 Hs).
    rewrite missing_true by lia.
    rewrite (slice_ok input (pre ++ [SP]) k (CRLF ++ t))
      by first [done | rewrite Hi, app_nil_r, <- !app_assoc; done | autorewrite with cxx; lia].
    done.
  - assert (rest = SP :: k' ++ List.concat (List.map (cons SP) ks)) as Hrest by done.
    rewrite (find_sp_hit input (pre ++ [SP]) k (k' ++ List.concat (List.map (cons SP) ks) ++ CRLF ++ t))
      by first [done | rewrite Hi, Hrest, <- !app_assoc; cbn; by rewrite <- !app_assoc | autorewrite with cxx; lia].
    rewrite missing_false by lia.
    rewrite (slice_ok input (pre ++ [SP]) k (rest ++ CRLF ++ t))
      by first [done | rewrite Hi, <- !app_assoc; done | autorewrite with cxx; lia].
    cbn [obind]. specialize (IH fuel input (pre ++ SP :: k) t (acc ++ [k])).
    replace (size pre + 1 + size k) with (size (pre ++ SP :: k)) by (autorewrite with cxx; lia).
    replace (size pre + (1 + size k + size rest)) with (size (pre ++ SP :: k) + size rest)
      by (autorewrite with cxx; lia).
    rewrite IH; [by rewrite <- app_assoc|done|done|done| |cbn in *; lia].
    by rewrite Hi, <- !app_assoc.
Qed.
End Others.
