(* ===== verification/CommandsSpec.v ===== *)
(** * What the commands do

    Theorems about the handlers of scmd.cpp, proved against [DatabaseLaws]: they hold for
    every database that keeps the laws, and for dblru.cpp through [World_Laws]. *)

From stdpp Require Import base list gmap strings.
From Stdlib Require Import ZArith Lia Ascii String.
From S2P Require Import Prelude CxxString DbLru DbLruRefine Commands CommandsParse.

(** Decides a closed goal about tokens. *)
Ltac decide_token := apply (bool_decide_unpack _); vm_compute; reflexivity.

(** Reduces the control flow of a handler and nothing else. *)
Ltac cmd_simpl :=
  cbn -[reply line memory_reply junk_reply op_insert op_get op_add op_delete op_set_flush stoul
        to_string ulong app size Cache.insert_result Cache.add_result Cache.get_result].

Section Commands.
Context `{DM : DataModel} `{E : Env} {W : Type} `{DB : Database W}.

Lemma status_eqb_refl st : status_eqb st st = true.
Proof. by destruct st. Qed.

Lemma nonempty_nil : nonempty [] = false.
Proof. done. Qed.

(** ** Dispatch *)

(** A command line whose first word is [cmd]. *)
Lemma cmdProcessCommand_word input cmd t (s : W) :
  input = cmd ++ SP :: t -> SP ∉ cmd -> small input ->
  cmdProcessCommand input s = bind op_handle_flush (fun _ => dispatch cmd input) s.
Proof.
  intros Hi Hc Hs. unfold cmdProcessCommand.
  rewrite (find_sp_hit input [] cmd t 0) by done. rewrite Z.add_0_l.
  pose proof npos_ge. pose proof (size_nonneg cmd). pose proof (size_nonneg t).
  pose proof Hs as Hs'. unfold small in Hs'. rewrite Hi in Hs'. autorewrite with cxx in Hs'.
  rewrite (proj2 (Z.eqb_neq _ _)) by lia.
  assert (substr input 0 (size cmd) = Ret cmd) as -> by (rewrite Hi; exact (substr_ok [] cmd (SP :: t) _ eq_refl)).
  done.
Qed.

(** ** Storing *)

Context {Laws : DatabaseLaws W}.

(** The cache a command finds: a flush that is due takes effect first. *)
Definition flushed (s : W) : Cache.cache :=
  if due (db_flush s) (db_now s) then Cache.flush_next (db_abs s) else db_abs s.

(** The flush that is still to come after that. *)
Definition pending (s : W) : option Z :=
  if due (db_flush s) (db_now s) then None else db_flush s.

Lemma handle_flush m (s : W) : db_ok (S m) s ->
  exists s1, op_handle_flush s = (Ret tt, s1) /\ db_ok m s1 /\ db_now s <= db_now s1
    /\ Cache.ceq (db_abs s1) (flushed s) /\ db_flush s1 = pending s
    /\ (forall k f v, db_roomy s k f v -> db_roomy s1 k f v).
Proof. apply db_handle_flush_law. Qed.

(** A complete storage line, as its handler sees it. *)
Lemma common_complete cmd k f e ev data nr (s : W) :
  let input := storage_line cmd k f e (to_string (size data)) nr ++ CRLF ++ data ++ CRLF in
  small input -> token cmd -> token k -> token f -> token e ->
  stoul e = Ret ev -> ev <= EXPIRY_THRESHOLD ->
  cmdProcessCommon input [] false false fresh_store s =
  (Ret (0, [], mkStore k f ev (size data) [] nr data), s).
Proof.
  intros input Hs Hc Hk Hf He Hev Hth. unfold input.
  pose proof (size_nonneg data).
  assert (size data < UINT_MOD) as Hd.
  { unfold small, input in Hs. autorewrite with cxx in Hs.
    pose proof (size_nonneg (storage_line cmd k f e (to_string (size data)) nr)). lia. }
  rewrite (cmdProcessCommon_storage cmd k f e (size data) nr _ fresh_store s ev) by done.
  destruct (Z.eqb_spec (size data) 0) as [Hz|Hz].
  - destruct data; [done|]. rewrite size_cons in Hz. pose proof (size_nonneg data). lia.
  - autorewrite with cxx. rewrite (proj2 (Z.ltb_ge _ _)) by lia. unfold set_s_data. cbn.
    unfold size. rewrite Nat2Z.id. by rewrite take_app_length.
Qed.

(** The first word of a storage line decides the handler. *)
Lemma storage_dispatch cmd k f e b nr body (s s1 : W) :
  op_handle_flush s = (Ret tt, s1) ->
  let input := storage_line cmd k f e b nr ++ CRLF ++ body in
  small input -> SP ∉ cmd -> cmdProcessCommand input s = dispatch cmd input s1.
Proof.
  intros Hfl input Hs Hc.
  rewrite (cmdProcessCommand_word input cmd
    (k ++ [SP] ++ f ++ [SP] ++ e ++ [SP] ++ b ++ nr_text nr ++ CRLF ++ body))
    by (done || (unfold input, storage_line; by rewrite <- !app_assoc)).
  by rewrite (bind_Ret _ _ _ _ _ Hfl).
Qed.

(** [set]: a complete line stores the item and is answered with STORED. *)
Lemma set_spec m (s : W) k f e ev data nr :
  let input := storage_line (lit "set") k f e (to_string (size data)) nr ++ CRLF ++ data ++ CRLF in
  small input -> token k -> token f -> token e -> stoul e = Ret ev -> ev <= EXPIRY_THRESHOLD ->
  db_ok (S (S m)) s -> db_roomy s k f data ->
  exists s' newCas t,
    cmdProcessCommand input s = (Ret (0, reply nr (line "STORED")), s')
    /\ db_ok m s' /\ db_now s <= t <= db_now s'
    /\ Cache.ceq (db_abs s') (Cache.insert_next (flushed s) t k f [] data newCas ev)
    /\ db_flush s' = pending s.
Proof.
  intros input Hs Hk Hf He Hev Hth Hok Hro.
  destruct (handle_flush _ s Hok) as (s1 & Hfl & Hok1 & Hn1 & Ha1 & Hp1 & Hr1).
  unfold input. rewrite (storage_dispatch (lit "set") k f e _ nr (data ++ CRLF) s s1 Hfl) by (done || decide_token).
  change (dispatch (lit "set") ?i) with (cmdProcessSet i).
  unfold cmdProcessSet. rewrite (bind_Ret _ _ _ _ _ (common_complete (lit "set") k f e ev data nr s1
    Hs ltac:(decide_token) Hk Hf He Hev Hth)).
  rewrite nonempty_nil. cmd_simpl.
  destruct (db_insert_law m s1 k f [] data ev Hok1 (Hr1 _ _ _ Hro)) as (s' & nc & Hi & Hok' & Hn' & Ha' & Hp').
  rewrite (bind_Ret _ _ _ _ _ Hi), Cache.insert_result_nocas.
  exists s', nc, (db_now s1). split; [done|]. split; [done|]. split; [lia|].
  split; [by rewrite <- Ha1|congruence].
Qed.

(** [add] stores only what a client cannot see. *)
Lemma add_spec m (s : W) k f e ev data nr :
  let input := storage_line (lit "add") k f e (to_string (size data)) nr ++ CRLF ++ data ++ CRLF in
  small input -> token k -> token f -> token e -> stoul e = Ret ev -> ev <= EXPIRY_THRESHOLD ->
  db_ok (S (S m)) s -> db_roomy s k f data ->
  exists s' newCas t,
    cmdProcessCommand input s =
      (Ret (0, reply nr (match Cache.visible (flushed s) t k with
                         | Some _ => line "NOT_STORED"
                         | None => line "STORED"
                         end)), s')
    /\ db_ok m s' /\ db_now s <= t <= db_now s'
    /\ Cache.ceq (db_abs s') (Cache.add_next (flushed s) t k f data newCas ev)
    /\ db_flush s' = pending s.
Proof.
  intros input Hs Hk Hf He Hev Hth Hok Hro.
  destruct (handle_flush _ s Hok) as (s1 & Hfl & Hok1 & Hn1 & Ha1 & Hp1 & Hr1).
  unfold input. rewrite (storage_dispatch (lit "add") k f e _ nr (data ++ CRLF) s s1 Hfl) by (done || decide_token).
  change (dispatch (lit "add") ?i) with (cmdProcessAdd i).
  unfold cmdProcessAdd. rewrite (bind_Ret _ _ _ _ _ (common_complete (lit "add") k f e ev data nr s1
    Hs ltac:(decide_token) Hk Hf He Hev Hth)).
  rewrite nonempty_nil. cmd_simpl.
  destruct (db_add_law m s1 k f [] data ev Hok1 (Hr1 _ _ _ Hro)) as (s' & nc & Hi & Hok' & Hn' & Ha' & Hp').
  rewrite (bind_Ret _ _ _ _ _ Hi). exists s', nc, (db_now s1).
  rewrite <- Ha1. split; [|split; [done|split; [lia|split; [done|congruence]]]].
  unfold Cache.add_result. by destruct (Cache.visible (db_abs s1) (db_now s1) k).
Qed.

(** ** Read-modify-write commands *)

(** A lookup that hits, followed by an insertion under the same key. *)
Lemma get_then_insert m (s : W) k refs v v' :
  db_ok (S (S m)) s -> Cache.visible (db_abs s) (db_now s) k = Some v ->
  db_roomy s k (flags v) v' ->
  exists s1,
    op_get k refs s =
      (Ret (SUCCESS, mkRefs (flags v) (casUniq v) (value v) (ulong (expiry v - db_now s))), s1)
    /\ db_now s <= db_now s1
    /\ forall cas x, cas = [] \/ cas = casUniq v ->
        exists s2 nc, op_insert k (flags v) cas v' x s1 = (Ret SUCCESS, s2)
          /\ db_ok m s2 /\ db_now s1 <= db_now s2
          /\ Cache.ceq (db_abs s2) (Cache.put (db_abs s) k
               (Some (mkValue (ulong (db_now s1 + x)) v' (flags v) nc, false))).
Proof.
  intros Hok Hv Hro. destruct (db_get_law (S m) s k refs Hok) as (s1 & Hg & Hok1 & Hn1 & Ha1 & Hp1 & Hr1).
  exists s1. unfold Cache.get_result in Hg. rewrite Hv in Hg. split; [done|]. split; [done|].
  unfold Cache.get_next in Ha1. rewrite Hv in Ha1.
  assert (db_abs s k = Some (v, false)) as Hk.
  { unfold Cache.visible in Hv. destruct (db_abs s k) as [[v0 []]|]; [done| |done].
    destruct (_ <? _); congruence. }
  intros cas x Hcas.
  destruct (db_insert_law m s1 k (flags v) cas v' x Hok1 (Hr1 _ _ _ Hro)) as (s2 & nc & Hi & Hok2 & Hn2 & Ha2 & Hp2).
  assert (Cache.insert_result (db_abs s1) k cas = SUCCESS) as Hres.
  { unfold Cache.insert_result. rewrite Ha1, Hk. destruct Hcas as [->| ->]; [done|].
    rewrite str_eqb_refl. by rewrite andb_false_r. }
  exists s2, nc. rewrite Hi, Hres. split; [done|]. split; [done|]. split; [done|].
  rewrite Ha2. unfold Cache.insert_next. rewrite decide_True by done.
  rewrite (Ha1 k), Hk. apply Cache.put_proper; [exact Ha1|done|done].
Qed.

(** The expiry a read-modify-write command leaves: the old one, later by the seconds that
    passed between its two readings of the clock. *)
Lemma expiry_kept t1 t2 x : ulong (t2 + ulong (x - t1)) = ulong (x + (t2 - t1)).
Proof. unfold ulong. rewrite Zplus_mod_idemp_r. f_equal. lia. Qed.

(** The parsing of [append] and [prepend] on a complete line with flags and expiry, which are
    read and not used. *)
Lemma common_append_complete cmd k f e ev data nr (s : W) :
  let input := storage_line cmd k f e (to_string (size data)) nr ++ CRLF ++ data ++ CRLF in
  small input -> token cmd -> token k -> token f -> f <> [] -> token e ->
  stoul e = Ret ev -> ev <= EXPIRY_THRESHOLD ->
  common_append input s = (Ret (0, [], mkStore k f ev (size data) [] nr data), s).
Proof.
  intros input Hs Hc Hk Hf Hne He Hev Hth. destruct f as [|c f]; [done|]. unfold common_append, input.
  rewrite (bind_Ret _ _ _ _ _ (cmdProcessCommon_exist_rejects cmd k c f e (size data) nr
    (data ++ CRLF) fresh_store s Hs Hc Hk Hf He (size_nonneg data))).
  change (nonempty junk_reply) with true. cbv beta iota.
  pose proof (common_complete cmd k (c :: f) e ev data nr s Hs Hc Hk Hf He Hev Hth) as Hcom.
  assert (size data < UINT_MOD) as Hd.
  { unfold small, input in Hs. autorewrite with cxx in Hs.
    pose proof (size_nonneg (storage_line cmd k (c :: f) e (to_string (size data)) nr)). lia. }
  pose proof (size_nonneg data).
  rewrite (cmdProcessCommon_storage cmd k (c :: f) e (size data) nr _ fresh_store s ev) in Hcom by done.
  rewrite (cmdProcessCommon_storage cmd k (c :: f) e (size data) nr _ (set_s_key k fresh_store) s ev) by done.
  exact Hcom.
Qed.

(** What [append] and [prepend] leave: the old item with the joined value and a new
    [cas unique]. *)
Definition joined (c : Cache.cache) (k : cstring) (v : ValueStruct) (x : Z) (v' nc : cstring) : Cache.cache :=
  Cache.put c k (Some (mkValue x v' (flags v) nc, false)).

Lemma append_spec m (s s1 : W) k f e ev data nr v :
  let input := storage_line (lit "append") k f e (to_string (size data)) nr ++ CRLF ++ data ++ CRLF in
  small input -> token k -> token f -> f <> [] -> token e -> stoul e = Ret ev -> ev <= EXPIRY_THRESHOLD ->
  op_handle_flush s = (Ret tt, s1) -> db_ok (S (S m)) s1 ->
  Cache.visible (db_abs s1) (db_now s1) k = Some v -> db_roomy s1 k (flags v) (value v ++ data) ->
  exists s' newCas d, 0 <= d /\
    cmdProcessCommand input s = (Ret (0, reply nr (line "STORED")), s')
    /\ db_ok m s'
    /\ Cache.ceq (db_abs s') (joined (db_abs s1) k v (ulong (expiry v + d)) (value v ++ data) newCas).
Proof.
  intros input Hs Hk Hf Hne He Hev Hth Hfl Hok Hv Hro.
  unfold input. rewrite (storage_dispatch (lit "append") k f e _ nr (data ++ CRLF) s s1 Hfl) by (done || decide_token).
  change (dispatch (lit "append") ?i) with (cmdProcessAppend i). unfold cmdProcessAppend.
  rewrite (bind_Ret _ _ _ _ _ (common_append_complete (lit "append") k f e ev data nr s1
    Hs ltac:(decide_token) Hk Hf Hne He Hev Hth)).
  rewrite nonempty_nil. cmd_simpl.
  destruct (get_then_insert m s1 k (store_refs (mkStore k f ev (size data) [] nr data)) v
    (value v ++ data) Hok Hv Hro) as (s2 & Hg & Hn2 & Hins).
  rewrite (bind_Ret _ _ _ _ _ Hg). cmd_simpl.
  destruct (Hins [] (ulong (expiry v - db_now s1)) (or_introl eq_refl)) as (s3 & nc & Hi & Hok3 & Hn3 & Ha3).
  rewrite (bind_Ret _ _ _ _ _ Hi). exists s3, nc, (db_now s2 - db_now s1). split; [lia|].
  split; [done|]. split; [done|]. rewrite Ha3, expiry_kept. done.
Qed.

Lemma prepend_spec m (s s1 : W) k f e ev data nr v :
  let input := storage_line (lit "prepend") k f e (to_string (size data)) nr ++ CRLF ++ data ++ CRLF in
  small input -> token k -> token f -> f <> [] -> token e -> stoul e = Ret ev -> ev <= EXPIRY_THRESHOLD ->
  op_handle_flush s = (Ret tt, s1) -> db_ok (S (S m)) s1 ->
  Cache.visible (db_abs s1) (db_now s1) k = Some v -> db_roomy s1 k (flags v) (data ++ value v) ->
  exists s' newCas d, 0 <= d /\
    cmdProcessCommand input s = (Ret (0, reply nr (line "STORED")), s')
    /\ db_ok m s'
    /\ Cache.ceq (db_abs s') (joined (db_abs s1) k v (ulong (expiry v + d)) (data ++ value v) newCas).
Proof.
  intros input Hs Hk Hf Hne He Hev Hth Hfl Hok Hv Hro.
  unfold input. rewrite (storage_dispatch (lit "prepend") k f e _ nr (data ++ CRLF) s s1 Hfl) by (done || decide_token).
  change (dispatch (lit "prepend") ?i) with (cmdProcessPrepend i). unfold cmdProcessPrepend.
  rewrite (bind_Ret _ _ _ _ _ (common_append_complete (lit "prepend") k f e ev data nr s1
    Hs ltac:(decide_token) Hk Hf Hne He Hev Hth)).
  rewrite nonempty_nil. cmd_simpl.
  destruct (get_then_insert m s1 k (store_refs (mkStore k f ev (size data) [] nr data)) v
    (data ++ value v) Hok Hv Hro) as (s2 & Hg & Hn2 & Hins).
  rewrite (bind_Ret _ _ _ _ _ Hg). cmd_simpl.
  destruct (Hins [] (ulong (expiry v - db_now s1)) (or_introl eq_refl)) as (s3 & nc & Hi & Hok3 & Hn3 & Ha3).
  rewrite (bind_Ret _ _ _ _ _ Hi). exists s3, nc, (db_now s2 - db_now s1). split; [lia|].
  split; [done|]. split; [done|]. rewrite Ha3, expiry_kept. done.
Qed.

(** ** Arithmetic *)

(** [incr] and [decr] on a number that is there: the stored text becomes the decimal text of
    the new value, which is also the reply. *)
Lemma arith_spec combine m (s1 : W) cmd k n x nr v :
  let input := key_value_line cmd k (to_string x) nr ++ CRLF in
  let r := to_string (combine n x) in
  small input -> token cmd -> token k -> 0 < x < ULONG_MOD -> 0 <= n < ULONG_MOD ->
  db_ok (S (S m)) s1 -> Cache.visible (db_abs s1) (db_now s1) k = Some v -> value v = to_string n ->
  db_roomy s1 k (flags v) r ->
  exists s' newCas d, 0 <= d /\
    process_arith combine input s1 = (Ret (0, reply nr (r ++ CRLF)), s')
    /\ db_ok m s'
    /\ Cache.ceq (db_abs s') (joined (db_abs s1) k v (ulong (expiry v + d)) r newCas).
Proof.
  intros input r Hs Hc Hk Hx Hn Hok Hv Hval Hro.
  assert (input = key_value_line cmd k (to_string x) nr ++ CRLF ++ []) as Hi by by rewrite app_nil_r.
  rewrite Hi in *. unfold process_arith.
  destruct (read_key_value_ok cmd k (to_string x) nr [] Hs Hc Hk) as (Hen & Hrd & Hnr);
    [apply to_string_token; lia|].
  rewrite Hen, Hrd. unfold bind at 1, lift at 1. rewrite Hnr. unfold bind at 1, lift at 1.
  destruct (get_then_insert m s1 k fresh_refs v r Hok Hv Hro) as (s2 & Hg & Hn2 & Hins).
  rewrite (bind_Ret _ _ _ _ _ Hg). cbn [status_eqb negb r_value r_flags r_expiry r_cas].
  assert (forall y, 0 <= y < ULONG_MOD -> stoul (to_string y) = Ret y) as Hst.
  { intros y Hy. rewrite <- (app_nil_r (to_string y)). by apply stoul_to_string. }
  rewrite Hval, !Hst by lia. unfold bind at 1, lift at 1. unfold bind at 1, lift at 1.
  rewrite (proj2 (Z.eqb_neq _ _)) by lia. cbn [andb]. fold r.
  destruct (Hins [] (ulong (expiry v - db_now s1)) (or_introl eq_refl)) as (s3 & nc & Hin & Hok3 & Hn3 & Ha3).
  rewrite (bind_Ret _ _ _ _ _ Hin). exists s3, nc, (db_now s2 - db_now s1). split; [lia|].
  split; [done|]. split; [done|]. rewrite Ha3, expiry_kept. done.
Qed.

(** A stored value that is not a number: the exception of [stoul] is not caught, so it ends
    the server. *)
Lemma arith_not_a_number combine m (s1 : W) cmd k x nr v :
  let input := key_value_line cmd k (to_string x) nr ++ CRLF in
  small input -> token cmd -> token k -> 0 <= x < ULONG_MOD ->
  db_ok (S m) s1 -> Cache.visible (db_abs s1) (db_now s1) k = Some v ->
  stoul (value v) = Throw invalid_argument ->
  exists s', process_arith combine input s1 = (Throw invalid_argument, s').
Proof.
  intros input Hs Hc Hk Hx Hok Hv Hval.
  assert (input = key_value_line cmd k (to_string x) nr ++ CRLF ++ []) as Hi by by rewrite app_nil_r.
  rewrite Hi in *. unfold process_arith.
  destruct (read_key_value_ok cmd k (to_string x) nr [] Hs Hc Hk) as (Hen & Hrd & Hnr);
    [apply to_string_token; lia|].
  rewrite Hen, Hrd. unfold bind at 1, lift at 1. rewrite Hnr. unfold bind at 1, lift at 1.
  destruct (db_get_law m s1 k fresh_refs Hok) as (s2 & Hg & _).
  unfold Cache.get_result in Hg. rewrite Hv in Hg.
  rewrite (bind_Ret _ _ _ _ _ Hg). cbn [status_eqb negb r_value r_flags r_expiry r_cas].
  rewrite <- (app_nil_r (to_string x)), stoul_to_string by done.
  unfold bind at 1, lift at 1. unfold bind at 1, lift at 1. rewrite Hval. eauto.
Qed.

(** ** Touch *)

(** [touch] writes the item back under its own [cas unique], with a new one and the new expiry. *)
Lemma touch_spec m (s1 : W) k x nr v :
  let input := key_value_line (lit "touch") k (to_string x) nr ++ CRLF in
  small input -> token k -> 0 <= x < UINT_MOD ->
  db_ok (S (S m)) s1 -> Cache.visible (db_abs s1) (db_now s1) k = Some v ->
  db_roomy s1 k (flags v) (value v) ->
  exists s' newCas t, db_now s1 <= t /\
    cmdProcessTouch input s1 = (Ret (0, reply nr (line "TOUCHED")), s')
    /\ db_ok m s'
    /\ Cache.ceq (db_abs s') (joined (db_abs s1) k v (ulong (t + x)) (value v) newCas).
Proof.
  intros input Hs Hk Hx Hok Hv Hro.
  assert (input = key_value_line (lit "touch") k (to_string x) nr ++ CRLF ++ []) as Hi by by rewrite app_nil_r.
  rewrite Hi in *. unfold cmdProcessTouch.
  destruct (read_key_value_ok (lit "touch") k (to_string x) nr [] Hs) as (Hen & Hrd & Hnr);
    [decide_token|done|apply to_string_token; lia|].
  rewrite Hen, Hrd. unfold bind at 1, lift at 1. pose proof ULONG_MOD_ge.
  assert (stoul (to_string x) = Ret x) as Hst.
  { rewrite <- (app_nil_r (to_string x)). apply stoul_to_string; [lia|done]. }
  unfold bind at 1, catch_invalid_argument, bind at 1, lift at 1. rewrite Hst.
  unfold ret at 1. rewrite u32_small by done. cbv beta iota.
  rewrite Hnr. unfold bind at 1, lift at 1.
  destruct (get_then_insert m s1 k fresh_refs v (value v) Hok Hv Hro) as (s2 & Hg & Hn2 & Hins).
  rewrite (bind_Ret _ _ _ _ _ Hg). cbn [status_eqb negb r_value r_flags r_expiry r_cas].
  destruct (Hins (casUniq v) x (or_intror eq_refl)) as (s3 & nc & Hin & Hok3 & Hn3 & Ha3).
  rewrite (bind_Ret _ _ _ _ _ Hin). exists s3, nc, (db_now s2). done.
Qed.
End Commands.
