(* ===== verification/CommandsGet.v ===== *)
(** * Retrieval, deletion, replacement, [cas] and flush commands

    The rest of the handlers, proved against [DatabaseLaws] as in CommandsSpec.v, and the
    round trips between commands: what one command stores, a later one reads. *)

From stdpp Require Import base list gmap strings.
From Stdlib Require Import ZArith Lia Ascii String.
From S2P Require Import Prelude CxxString DbLru DbLruRefine Commands CommandsParse CommandsSpec.
From Stdlib Require Import ZArith Lia Ascii String Sorting.Sorted.

(** [<cmd> <key> [noreply]] *)
Definition key_line (cmd k : cstring) (nr : bool) : cstring := cmd ++ [SP] ++ k ++ nr_text nr.

Lemma take_all (data t : cstring) : take (Z.to_nat (size data)) (data ++ t) = data.
Proof. unfold size. by rewrite Nat2Z.id, take_app_length. Qed.

(** Every word of a line takes at least its blank. *)
Lemma blanks_length (ks : list cstring) :
  (List.length ks <= List.length (List.concat (List.map (cons SP) ks)))%nat.
Proof. induction ks as [|k ks IH]; cbn; [done|]. rewrite length_app. lia. Qed.

Section Lines.
Context `{DM : DataModel}.

(** ** The key loop ends on every line *)

Lemma find_sp_bounds input p :
  small input -> 0 <= p <= size input ->
  find_sp input p = UINT_MOD - 1 \/ p <= find_sp input p < size input.
Proof.
  intros Hs Hp. unfold small in Hs. unfold find_sp, find_char.
  set (t := take (Z.to_nat p) input). set (d := drop (Z.to_nat p) input).
  assert (size t = p) as Ht by (unfold t, size in *; rewrite length_take; lia).
  assert (input = t ++ d) as Hi by (symmetry; apply take_drop).
  rewrite Hi in *. rewrite <- Ht. rewrite find_str_after. autorewrite with cxx in *.
  pose proof (size_nonneg d). pose proof (size_nonneg t).
  destruct (find_at_bounds [SP] d (size t)) as [->|Hb]; [done|left; apply u32_npos|].
  rewrite size_cons, size_nil in Hb. right. rewrite u32_small; lia.
Qed.

(** Every round of the loop moves right, so [fuel] rounds suffice, and no position leaves
    the input: [substr] never throws. *)
Lemma read_keys_total fuel : forall input p en acc,
  small input -> 0 <= p < size input -> 0 <= en < UINT_MOD - 1 ->
  size input - p <= Z.of_nat fuel ->
  exists ks, read_keys fuel input p en acc = Ret (acc ++ ks) /\ ks <> [].
Proof.
  induction fuel as [|fuel IH]; intros input p en acc Hs Hp Hen Hf; [lia|].
  pose proof Hs as Hs'. unfold small in Hs'. cbn [read_keys]. rewrite u32_small by lia.
  pose proof npos_ge. destruct (find_sp_bounds input (p + 1) Hs) as [Hsp|Hsp]; [lia| |].
  - rewrite missing_true by lia. destruct (substr_total input (p + 1) (u32 (en - (p + 1)))) as [k Hk]; [lia|].
    unfold slice. rewrite Hk. cbn [obind]. by exists [k].
  - set (q := find_sp input (p + 1)) in *. unfold slice.
    destruct (missing q en) eqn:Hm.
    + destruct (substr_total input (p + 1) (u32 (en - (p + 1)))) as [k Hk]; [lia|].
      rewrite Hk. cbn [obind]. by exists [k].
    + destruct (substr_total input (p + 1) (u32 (q - (p + 1)))) as [k Hk]; [lia|].
      rewrite Hk. cbn [obind]. destruct (IH input q en (acc ++ [k])) as (ks & -> & _); [done|lia..|].
      exists (k :: ks). by rewrite <- app_assoc.
Qed.

(** ** One key and [noreply] *)

Lemma key_line_ok cmd k nr t :
  let input := key_line cmd k nr ++ CRLF ++ t in
  let p := size cmd + 1 in
  let en := p + size k + size (nr_text nr) in
  small input -> token cmd -> token k ->
  find_sp input 0 = size cmd /\ find_endl input 0 = en /\ u32 (size cmd + 1) = p
  /\ missing (size cmd) en = false /\ missing (find_sp input p) en = negb nr
  /\ slice input p (if nr then find_sp input p else en) = Ret k
  /\ (nr = true -> slice input (u32 (find_sp input p + 1)) en = Ret (lit "noreply")).
Proof.
  intros input p en Hs [Hc1 Hc2] [Hk1 Hk2].
  assert (input = (cmd ++ [SP] ++ k ++ nr_text nr) ++ CRLF ++ t) as Hi by done.
  pose proof Hs as Hs'. unfold small in Hs'. rewrite Hi in Hs'. autorewrite with cxx in Hs'.
  pose proof (size_nonneg cmd). pose proof (size_nonneg k). pose proof (size_nonneg (nr_text nr)).
  pose proof (size_nonneg t). pose proof (nr_no_cr nr).
  destruct (after_value input (cmd ++ [SP]) k nr t p) as [Hm Hsp];
    [by rewrite Hi, <- !app_assoc|unfold p; autorewrite with cxx; lia|done|done|].
  split; [apply (find_sp_hit input [] cmd (k ++ nr_text nr ++ CRLF ++ t)); [by rewrite Hi, <- !app_assoc|done..]|].
  split.
  { rewrite (find_endl_hit input [] _ t 0 Hi) by (done || (rewrite !not_elem_of_app; set_solver)).
    unfold en, p. autorewrite with cxx. lia. }
  split; [apply u32_small; lia|]. split; [apply missing_false; unfold en, p; lia|]. split; [exact Hm|].
  assert (forall q, q = p + size k -> slice input p q = Ret k) as Hsl.
  { intros q ->. apply (slice_ok input (cmd ++ [SP]) k (nr_text nr ++ CRLF ++ t));
      [by rewrite Hi, <- !app_assoc|unfold p; autorewrite with cxx; lia|done|done]. }
  destruct nr.
  - rewrite Hsp by done. split; [by apply Hsl|]. intros _. rewrite u32_small by (unfold p; lia).
    apply (slice_ok input (cmd ++ [SP] ++ k ++ [SP]) (lit "noreply") (CRLF ++ t));
      [by rewrite Hi, <- !app_assoc|unfold p; autorewrite with cxx; lia| |done].
    unfold en, nr_text. rewrite size_cons. lia.
  - split; [apply Hsl; unfold en, nr_text; rewrite size_nil; lia|done].
Qed.
End Lines.

Section Handlers.
Context `{DM : DataModel} `{E : Env} {W : Type} `{DB : Database W} {Laws : DatabaseLaws W}.

(** ** Deletion *)

Lemma delete_spec m (s1 : W) k nr :
  let input := key_line (lit "delete") k nr ++ CRLF in
  small input -> token k -> db_ok (S m) s1 ->
  exists s', cmdProcessDelete input s1 =
      (Ret (0, reply nr (match Cache.visible (db_abs s1) (db_now s1) k with
                         | Some _ => line "DELETED" | None => line "NOT_FOUND" end)), s')
    /\ db_ok m s' /\ db_now s1 <= db_now s' /\ db_flush s' = db_flush s1
    /\ Cache.ceq (db_abs s') (Cache.delete_next (db_abs s1) (db_now s1) k 0).
Proof.
  intros input Hs Hk Hok.
  assert (input = key_line (lit "delete") k nr ++ CRLF ++ []) as Hi by by rewrite app_nil_r.
  rewrite Hi in *. destruct (key_line_ok (lit "delete") k nr [] Hs) as
    (Hsp & Hen & Hu & Hm1 & Hm2 & Hsl & Hnr); [decide_token|done|].
  unfold cmdProcessDelete. rewrite Hsp, Hen, Hm1, Hu, Hm2, negb_involutive, Hsl.
  unfold bind at 1, lift at 1.
  destruct (db_delete_law m s1 k 0 Hok) as (s' & Hd & Hok' & Hn' & Ha' & Hp').
  exists s'. split; [|done].
  assert (forall b : bool, b = false ->
    (if b then ret (0, line "CLIENT_ERROR junk found after key") else
     let* st := op_delete k 0 in
     if status_eqb st NOT_EXIST then ret (0, reply nr (line "NOT_FOUND"))
     else ret (0, reply nr (line "DELETED"))) s1 =
    (Ret (0, reply nr (match Cache.visible (db_abs s1) (db_now s1) k with
                       | Some _ => line "DELETED" | None => line "NOT_FOUND" end)), s')) as Hrest.
  { intros b ->. rewrite (bind_Ret _ _ _ _ _ Hd). unfold Cache.delete_result.
    by destruct (Cache.visible _ _ k). }
  destruct nr.
  - rewrite Hnr by done. unfold bind at 1, bind at 1, lift at 1, ret at 1. rewrite str_eqb_refl.
    by apply (Hrest (negb true)).
  - by apply (Hrest false).
Qed.

(** ** Retrieval *)

Definition item_refs (v : ValueStruct) : GetRefs := mkRefs (flags v) (casUniq v) (value v) 0.

(** The reply to [get] and [gets], the [i]-th key being looked up at the [i]-th time. *)
Fixpoint blocks (withCas : bool) (c : Cache.cache) (ks : list cstring) (ts : list Z) : cstring :=
  match ks, ts with
  | k :: ks', t :: ts' =>
    match Cache.visible c t k with
    | Some v => value_block withCas k (item_refs v)
    | None => []
    end ++ blocks withCas c ks' ts'
  | _, _ => []
  end.

Lemma blocks_eq withCas c d ks ts t :
  (forall t' k, t <= t' -> Cache.visible c t' k = Cache.visible d t' k) ->
  Forall (Z.le t) ts -> blocks withCas c ks ts = blocks withCas d ks ts.
Proof.
  intros Hv. revert ks. induction ts as [|x ts IH]; intros [|k ks] Ht; [done..|].
  apply Forall_cons in Ht as [Hx Ht]. cbn [blocks]. by rewrite Hv, IH.
Qed.

Lemma answer_keys_spec withCas ks : forall m (s : W) out,
  db_ok (List.length ks + m) s ->
  exists s' ts,
    answer_keys withCas ks out s = (Ret (out ++ blocks withCas (db_abs s) ks ts), s')
    /\ db_ok m s' /\ db_now s <= db_now s' /\ List.length ts = List.length ks
    /\ Forall (Z.le (db_now s)) ts /\ Forall (fun t => t <= db_now s') ts
    /\ db_flush s' = db_flush s
    /\ (forall t k, db_now s' <= t -> Cache.visible (db_abs s') t k = Cache.visible (db_abs s) t k).
Proof.
  induction ks as [|k ks IH]; intros m s out Hok.
  - exists s, []. rewrite app_nil_r. cbn. split; [done|]. split; [done|]. split; [lia|]. done.
  - cbn [List.length Nat.add] in Hok. cbn [answer_keys].
    destruct (db_get_law _ s k fresh_refs Hok) as (s1 & Hg & Hok1 & Hn1 & Ha1 & Hp1 & _).
    rewrite (bind_Ret _ _ _ _ _ Hg).
    assert (forall t' k', db_now s <= t' ->
      Cache.visible (db_abs s1) t' k' = Cache.visible (db_abs s) t' k') as Hv1
      by (intros; rewrite Ha1; by apply Cache.visible_get_next).
    set (b := match Cache.visible (db_abs s) (db_now s) k with
              | Some v => value_block withCas k (item_refs v) | None => [] end).
    destruct (IH m s1 (out ++ b) Hok1) as (s' & ts & Hr & Hok' & Hn' & Hl & Ht1 & Ht2 & Hp' & Hv').
    exists s', (db_now s :: ts). cbn [blocks List.length]. fold b.
    rewrite (blocks_eq withCas (db_abs s) (db_abs s1) ks ts (db_now s1)) by
      (try done; intros; symmetry; apply Hv1; lia).
    split.
    { rewrite app_assoc, <- Hr. unfold Cache.get_result, b.
      destruct (Cache.visible (db_abs s) (db_now s) k) as [v|]; cbn [status_eqb negb]; [done|].
      by rewrite app_nil_r. }
    split; [done|]. split; [lia|]. split; [lia|]. split.
    { apply Forall_cons. split; [lia|]. eapply Forall_impl; [exact Ht1|]. cbn. lia. }
    split; [apply Forall_cons; split; [lia|done]|]. split; [congruence|].
    intros t k' Ht. rewrite Hv' by done. apply Hv1. lia.
Qed.

(** [get] and [gets] with any number of keys. *)
Lemma process_get_spec withCas cmd m (s1 : W) ks :
  let input := keys_line cmd ks ++ CRLF in
  small input -> token cmd -> Forall token ks -> ks <> [] -> db_ok (List.length ks + m) s1 ->
  exists s' ts,
    process_get withCas input s1 = (Ret (0, blocks withCas (db_abs s1) ks ts ++ line "END"), s')
    /\ db_ok m s' /\ db_now s1 <= db_now s' /\ List.length ts = List.length ks
    /\ Forall (Z.le (db_now s1)) ts /\ Forall (fun t => t <= db_now s') ts
    /\ db_flush s' = db_flush s1
    /\ (forall t k, db_now s' <= t -> Cache.visible (db_abs s') t k = Cache.visible (db_abs s1) t k).
Proof.
  intros input Hs [Hc1 Hc2] Hks Hne Hok. unfold process_get.
  set (rest := List.concat (List.map (cons SP) ks)).
  assert (input = cmd ++ rest ++ CRLF ++ []) as Hi
    by (unfold input, keys_line; by rewrite app_nil_r, <- app_assoc).
  pose proof Hs as Hs'. unfold small in Hs'. rewrite Hi in Hs'. autorewrite with cxx in Hs'.
  pose proof (size_nonneg cmd). pose proof (size_nonneg rest).
  assert (CR ∉ rest) as Hr.
  { unfold rest. clear -Hks. induction Hks as [|k ks [_ Hk] _ IH]; [apply not_elem_of_nil|].
    cbn. rewrite not_elem_of_cons, not_elem_of_app. done. }
  assert (find_sp input 0 = size cmd) as ->.
  { destruct ks as [|k ks]; [done|].
    apply (find_sp_hit input [] cmd (k ++ List.concat (List.map (cons SP) ks) ++ CRLF ++ []));
      [rewrite Hi; unfold rest; cbn; by rewrite <- !app_assoc|done..]. }
  assert (find_endl input 0 = size cmd + size rest) as ->.
  { rewrite (find_endl_hit input [] (cmd ++ rest) [] 0);
      [autorewrite with cxx; lia|by rewrite Hi, <- app_assoc|done|by rewrite not_elem_of_app|done]. }
  rewrite missing_false by lia.
  rewrite (read_keys_ok ks _ input cmd []); [|done..|].
  2:{ rewrite Hi, !length_app. pose proof (blanks_length ks) as Hl. fold rest in Hl. lia. }
  unfold bind at 1, lift at 1. cbn [app].
  destruct (answer_keys_spec withCas ks m s1 [] Hok) as (s' & ts & Ha & Hrest).
  rewrite (bind_Ret _ _ _ _ _ Ha). by exists s', ts.
Qed.

(** ** Replacement *)

Lemma replace_spec m (s1 : W) k f e ev data nr :
  let input := storage_line (lit "replace") k f e (to_string (size data)) nr ++ CRLF ++ data ++ CRLF in
  small input -> token k -> token f -> token e -> stoul e = Ret ev -> ev <= EXPIRY_THRESHOLD ->
  db_ok (S (S m)) s1 -> db_roomy s1 k f data ->
  match Cache.visible (db_abs s1) (db_now s1) k with
  | Some v => exists s' newCas t, db_now s1 <= t <= db_now s' /\
      cmdProcessReplace input s1 = (Ret (0, reply nr (line "STORED")), s') /\ db_ok m s'
      /\ Cache.ceq (db_abs s') (Cache.insert_next (db_abs s1) t k f [] data newCas ev)
  | None => exists s',
      cmdProcessReplace input s1 = (Ret (0, reply nr (line "NOT_STORED")), s') /\ db_ok (S m) s'
      /\ (forall t k', db_now s1 <= t -> Cache.visible (db_abs s') t k' = Cache.visible (db_abs s1) t k')
  end.
Proof.
  intros input Hs Hk Hf He Hev Hth Hok Hro. unfold cmdProcessReplace, input.
  rewrite (bind_Ret _ _ _ _ _ (common_complete (lit "replace") k f e ev data nr s1
    Hs ltac:(decide_token) Hk Hf He Hev Hth)).
  rewrite nonempty_nil. cmd_simpl.
  destruct (db_get_law (S m) s1 k fresh_refs Hok) as (s2 & Hg & Hok2 & Hn2 & Ha2 & _ & Hr2).
  unfold Cache.get_result in Hg.
  destruct (Cache.visible (db_abs s1) (db_now s1) k) as [v|] eqn:Hv;
    rewrite (bind_Ret _ _ _ _ _ Hg); cmd_simpl.
  - destruct (db_insert_law m s2 k f [] data ev Hok2 (Hr2 _ _ _ Hro)) as (s' & nc & Hi & Hok' & Hn' & Ha' & _).
    rewrite (bind_Ret _ _ _ _ _ Hi), Cache.insert_result_nocas.
    exists s', nc, (db_now s2). split; [lia|]. split; [done|]. split; [done|].
    rewrite Ha'. unfold Cache.get_next in Ha2. rewrite Hv in Ha2. by rewrite Ha2.
  - exists s2. split; [done|]. split; [done|]. intros t k' Ht. rewrite Ha2. by apply Cache.visible_get_next.
Qed.

(** ** Check and set *)

Definition cas_reply (st : retStatus) : cstring :=
  match st with EXIST => line "EXISTS" | NOT_EXIST => line "NOT_FOUND" | _ => line "STORED" end.

Lemma cas_spec m (s1 : W) k f e ev data c nr :
  let input := storage_line (lit "cas") k f e (to_string (size data) ++ [SP] ++ c) nr
               ++ CRLF ++ data ++ CRLF in
  small input -> token k -> token f -> token e -> token c -> stoul e = Ret ev ->
  ev <= EXPIRY_THRESHOLD -> db_ok (S m) s1 -> db_roomy s1 k f data ->
  exists s' newCas,
    cmdProcessCas input s1 =
      (Ret (0, reply nr (cas_reply (Cache.insert_result (db_abs s1) k c))), s')
    /\ db_ok m s' /\ db_now s1 <= db_now s'
    /\ Cache.ceq (db_abs s') (Cache.insert_next (db_abs s1) (db_now s1) k f c data newCas ev).
Proof.
  intros input Hs Hk Hf He Hc Hev Hth Hok Hro. unfold cmdProcessCas, input.
  pose proof (size_nonneg data).
  assert (size data < UINT_MOD) as Hd.
  { unfold small, input in Hs. autorewrite with cxx in Hs.
    pose proof (size_nonneg (storage_line (lit "cas") k f e (to_string (size data) ++ [SP] ++ c) nr)). lia. }
  erewrite bind_Ret; [|by apply (cmdProcessCommon_cas (lit "cas") k f e (size data) c nr _ fresh_store s1 ev);
    [|decide_token|..]].
  rewrite size_app, (proj2 (Z.ltb_ge (size data + size CRLF) _)) by (rewrite size_CRLF; lia).
  rewrite take_all. cbv zeta.
  replace (if size data =? 0 then _ else _)
    with (0, [] : cstring, mkStore k f ev (size data) c nr data).
  2:{ destruct (Z.eqb_spec (size data) 0) as [Hz|]; [|done].
      destruct data; [done|]. rewrite size_cons in Hz. pose proof (size_nonneg data). lia. }
  rewrite nonempty_nil. cmd_simpl.
  destruct (db_insert_law m s1 k f c data ev Hok Hro) as (s' & nc & Hi & Hok' & Hn' & Ha' & _).
  rewrite (bind_Ret _ _ _ _ _ Hi). exists s', nc. split; [|done].
  unfold Cache.insert_result. destruct (db_abs s1 k) as [[]|];
    [destruct (negb (str_eqb c []) && _)|destruct (negb (str_eqb c []))]; done.
Qed.

(** ** A command that is not complete yet *)

(** While data is missing [set] asks for the rest, with its end of line, and stores nothing. *)
Lemma set_incomplete (s1 : W) k f e ev n body nr :
  let input := storage_line (lit "set") k f e (to_string n) nr ++ CRLF ++ body in
  small input -> token k -> token f -> token e -> stoul e = Ret ev -> ev <= EXPIRY_THRESHOLD ->
  size body < n -> n + 2 < 2 ^ 31 ->
  cmdProcessSet input s1 = (Ret (n + 2 - size body, []), s1).
Proof.
  intros input Hs Hk Hf He Hev Hth Hb Hn. unfold cmdProcessSet, input.
  pose proof (size_nonneg body). change (2 ^ 31) with 2147483648 in Hn.
  erewrite bind_Ret; [|apply (cmdProcessCommon_storage (lit "set") k f e n nr _ fresh_store s1 ev);
    [done|decide_token|done..|unfold UINT_MOD; lia|done|done]].
  rewrite (proj2 (Z.eqb_neq n 0)), (proj2 (Z.ltb_lt _ _)) by lia.
  rewrite u32_small by (unfold UINT_MOD; lia). rewrite s32_small by lia. rewrite nonempty_nil.
  cbv beta iota zeta. by rewrite (proj2 (Z.ltb_lt 0 _)) by lia.
Qed.
End Handlers.

(** * Whole commands and sequences of commands

    [cmdProcessCommand] on complete lines, and what a later command sees of an earlier one.
    Proved against [DatabaseLaws]. *)

(** The words that name a handler. *)
Definition command_words : list cstring :=
  List.map lit ["set"; "add"; "replace"; "append"; "prepend"; "cas"; "get"; "gets"; "delete"; "incr";
    "decr"; "touch"; "stats"; "flush_all"; "version"; "verbosity"; "quit"]%string.

Section Session.
Context `{DM : DataModel} `{E : Env} {W : Type} `{DB : Database W}.

(** ** Dispatch *)

Lemma dispatch_unknown cmd input (s : W) :
  cmd ∉ command_words -> dispatch cmd input s = (Ret (0, line "ERROR"), s).
Proof.
  intros Hc. unfold dispatch. unfold command_words in Hc. cbn [List.map] in Hc.
  rewrite !not_elem_of_cons in Hc. destruct_and! Hc. by rewrite !str_eqb_neq by done.
Qed.

(** No handler's name has a carriage return. *)
Lemma command_words_no_cr cmd : cmd ∈ command_words -> CR ∉ cmd.
Proof.
  revert cmd. apply Forall_forall. apply (bool_decide_unpack _). vm_compute. reflexivity.
Qed.

(** A line of one word. On a 32-bit machine the word is found at the end of line; on a
    64-bit one the test against [npos] never holds, so the word read is the whole line. *)
Lemma cmdProcessCommand_bare cmd (s : W) :
  token cmd -> small (cmd ++ CRLF) ->
  cmdProcessCommand (cmd ++ CRLF) s =
  bind op_handle_flush (fun _ => dispatch (if long_bits =? 32 then cmd else cmd ++ CRLF) (cmd ++ CRLF)) s.
Proof.
  intros [Hc1 Hc2] Hs. pose proof Hs as Hs'. unfold small in Hs'. autorewrite with cxx in Hs'.
  pose proof (size_nonneg cmd). unfold cmdProcessCommand.
  assert (find_sp (cmd ++ CRLF) 0 = UINT_MOD - 1) as ->.
  { unfold find_sp, find_char. rewrite find_str_0, find_at_char_absent, u32_npos; [done|].
    rewrite not_elem_of_app. split; [done|apply SP_CRLF]. }
  rewrite (find_endl_hit (cmd ++ CRLF) [] cmd [] 0) by first [done | by rewrite app_nil_r].
  rewrite Z.add_0_l. unfold npos, ULONG_MAX, ULONG_MOD.
  destruct long_bits_cases as [-> | ->]; cbn [Z.eqb Pos.eqb].
  - change (UINT_MOD - 1 =? UINT_MOD - 1) with true. cbv iota.
    assert (substr (cmd ++ CRLF) 0 (size cmd) = Ret cmd) as -> by exact (substr_ok [] cmd CRLF _ eq_refl).
    done.
  - change (UINT_MOD - 1 =? _) with false. cbv iota.
    assert (substr (cmd ++ CRLF) 0 (UINT_MOD - 1) = Ret (cmd ++ CRLF)) as ->; [|done].
    apply (substr_rest [] (cmd ++ CRLF)). autorewrite with cxx. lia.
Qed.

Context {Laws : DatabaseLaws W}.

(** ** Retrieval *)

Lemma keys_line_word (cmd k : cstring) (ks : list cstring) (t : cstring) :
  keys_line cmd (k :: ks) ++ t = cmd ++ SP :: k ++ List.concat (List.map (cons SP) ks) ++ t.
Proof. unfold keys_line. cbn [List.map List.concat]. by rewrite <- !app_assoc. Qed.

Lemma get_command (withCas : bool) m (s : W) ks :
  let cmd := lit (if withCas then "gets" else "get") in
  let input := keys_line cmd ks ++ CRLF in
  small input -> Forall token ks -> ks <> [] -> db_ok (S (List.length ks + m)) s ->
  exists s' ts,
    cmdProcessCommand input s = (Ret (0, blocks withCas (flushed s) ks ts ++ line "END"), s')
    /\ db_ok m s' /\ db_now s <= db_now s' /\ List.length ts = List.length ks
    /\ Forall (Z.le (db_now s)) ts /\ Forall (fun t => 0 <= t < ULONG_MOD) ts
    /\ db_flush s' = pending s
    /\ (forall t k, db_now s' <= t -> Cache.visible (db_abs s') t k = Cache.visible (flushed s) t k).
Proof.
  intros cmd input Hs Hks Hne Hok.
  destruct (handle_flush _ s Hok) as (s1 & Hfl & Hok1 & Hn1 & Ha1 & Hp1 & _).
  assert (token cmd) as Hc by (unfold cmd; destruct withCas; decide_token).
  assert (cmdProcessCommand input s = process_get withCas input s1) as ->.
  { destruct ks as [|k ks]; [done|].
    rewrite (cmdProcessCommand_word input cmd (k ++ List.concat (List.map (cons SP) ks) ++ CRLF))
      by first [apply Hc | exact Hs | apply keys_line_word].
    rewrite (bind_Ret _ _ _ _ _ Hfl). unfold cmd. by destruct withCas. }
  destruct (process_get_spec withCas cmd m s1 ks) as (s' & ts & Hr & Hok' & Hn' & Hl & Ht1 & Ht2 & Hp' & Hv');
    [done..|].
  exists s', ts. rewrite (blocks_eq withCas (flushed s) (db_abs s1) ks ts (db_now s1)) by
    (try done; intros; by rewrite Ha1).
  split; [done|]. split; [done|]. split; [lia|]. split; [done|].
  split; [eapply Forall_impl; [exact Ht1|cbn; lia]|].
  split.
  { pose proof (db_now_range _ s Hok) as R1. pose proof (db_now_range _ s' Hok') as R2.
    rewrite Forall_forall in *. intros t Ht. specialize (Ht1 t Ht). specialize (Ht2 t Ht). cbn in *. lia. }
  split; [congruence|]. intros t k Ht. rewrite Hv' by done. by rewrite Ha1.
Qed.

(** One key. *)
Lemma get_one m (s : W) k :
  small (keys_line (lit "get") [k] ++ CRLF) -> token k -> db_ok (S (S m)) s ->
  exists s' t, db_now s <= t < ULONG_MOD /\ db_ok m s' /\
    cmdProcessCommand (keys_line (lit "get") [k] ++ CRLF) s =
    (Ret (0, match Cache.visible (flushed s) t k with
             | Some v => value_block false k (item_refs v)
             | None => []
             end ++ line "END"), s').
Proof.
  intros Hs Hk Hok.
  destruct (get_command false m s [k] Hs) as (s' & ts & Hr & Hok' & _ & Hl & Ht & Hb & _); [auto|done|done|].
  destruct ts as [|t [|]]; try done. apply Forall_cons in Ht as [? _]. apply Forall_cons in Hb as [? _].
  exists s', t. split; [lia|]. split; [done|]. rewrite Hr. cbn [blocks]. by rewrite app_nil_r.
Qed.

(** ** Store, then read *)

(** The item a [set] of an absent key leaves. *)
Lemma set_new_visible m (s : W) k f e ev data nr :
  let input := storage_line (lit "set") k f e (to_string (size data)) nr ++ CRLF ++ data ++ CRLF in
  small input -> token k -> token f -> token e -> stoul e = Ret ev -> ev <= EXPIRY_THRESHOLD ->
  db_ok (S (S m)) s -> db_roomy s k f data -> db_abs s k = None -> db_flush s = None ->
  exists s' newCas t0,
    cmdProcessCommand input s = (Ret (0, reply nr (line "STORED")), s')
    /\ db_ok m s' /\ db_now s <= t0 <= db_now s' /\ db_flush s' = None
    /\ db_abs s' k = Some (mkValue (new_expiry t0 ev) data f newCas, false).
Proof.
  intros input Hs Hk Hf He Hev Hth Hok Hro Hno Hfl.
  destruct (set_spec m s k f e ev data nr Hs Hk Hf He Hev Hth Hok Hro)
    as (s' & nc & t0 & Hr & Hok' & Ht & Ha & Hp).
  exists s', nc, t0. split; [exact Hr|]. split; [done|]. split; [done|].
  unfold pending, flushed in *. rewrite Hfl in *. cbn in *. split; [done|].
  by rewrite Ha, Cache.insert_next_nocas, Cache.put_eq, Hno.
Qed.

(** What [set] stored, [get] returns, until its expiry. *)
Lemma set_then_get m (s : W) k f e ev data nr :
  let input := storage_line (lit "set") k f e (to_string (size data)) nr ++ CRLF ++ data ++ CRLF in
  small input -> token k -> token f -> token e -> stoul e = Ret ev -> ev <= EXPIRY_THRESHOLD ->
  db_ok (S (S (S (S m)))) s -> db_roomy s k f data -> db_abs s k = None -> db_flush s = None ->
  exists s' s'' t0 t,
    cmdProcessCommand input s = (Ret (0, reply nr (line "STORED")), s')
    /\ cmdProcessCommand (keys_line (lit "get") [k] ++ CRLF) s' =
       (Ret (0, if (negb (ev =? 0)) && (ulong (t0 + ev) <? t) then line "END"
                else lit "VALUE " ++ k ++ [SP] ++ f ++ [SP] ++ to_string (size data) ++ CRLF
                     ++ data ++ CRLF ++ line "END"), s'')
    /\ db_ok m s'' /\ db_now s <= t0 <= t.
Proof.
  intros input Hs Hk Hf He Hev Hth Hok Hro Hno Hfl.
  destruct (set_new_visible (S (S m)) s k f e ev data nr Hs Hk Hf He Hev Hth Hok Hro Hno Hfl)
    as (s' & nc & t0 & Hr & Hok' & Ht & Hp & Ha).
  assert (small (keys_line (lit "get") [k] ++ CRLF)) as Hs2.
  { unfold small, input, storage_line, keys_line in *. cbn [List.map List.concat] in *.
    autorewrite with cxx in *. pose proof (size_nonneg f). pose proof (size_nonneg e).
    pose proof (size_nonneg (to_string (size data))). pose proof (size_nonneg data).
    pose proof (size_nonneg (nr_text nr)). change (size (lit "set")) with 3 in *.
    change (size (lit "get")) with 3. lia. }
  destruct (get_one m s' k Hs2 Hk Hok') as (s'' & t & Hb & Hok'' & Hg).
  exists s', s'', t0, t. split; [exact Hr|]. split; [|split; [done|lia]]. rewrite Hg.
  do 3 f_equal. unfold Cache.visible, flushed. rewrite Hp. cbn [due]. rewrite Ha. cbn [expiry].
  unfold new_expiry. destruct (ev =? 0); cbn [negb andb].
  - unfold ULONG_MAX. rewrite (proj2 (Z.ltb_ge _ _)) by lia.
    unfold value_block, item_refs. cbn [r_flags r_value r_cas flags value casUniq].
    rewrite <- !app_assoc. reflexivity.
  - destruct (ulong (t0 + ev) <? t); [done|].
    unfold value_block, item_refs. cbn [r_flags r_value r_cas flags value casUniq].
    rewrite <- !app_assoc. reflexivity.
Qed.

(** ** Flush *)

(** [flush_all <delay>] only schedules the flush. *)
Lemma flush_all_delayed m (s : W) x nr :
  let input := key_line (lit "flush_all") (to_string x) nr ++ CRLF in
  small input -> 0 <= x < UINT_MOD -> db_ok (S (S m)) s ->
  exists s' t, cmdProcessCommand input s = (Ret (0, reply nr (line "OK")), s')
    /\ db_ok m s' /\ db_now s <= t <= db_now s' /\ db_flush s' = Some (ulong (t + x))
    /\ Cache.ceq (db_abs s') (flushed s).
Proof.
  intros input Hs Hx Hok.
  destruct (handle_flush _ s Hok) as (s1 & Hfl & Hok1 & Hn1 & Ha1 & Hp1 & _).
  assert (input = key_line (lit "flush_all") (to_string x) nr ++ CRLF ++ []) as Hi by by rewrite app_nil_r.
  rewrite Hi in *. destruct (to_string_token x) as [Hx1 Hx2]; [lia|].
  destruct (key_line_ok (lit "flush_all") (to_string x) nr [] Hs) as
    (Hsp & Hen & Hu & Hm1 & Hm2 & Hsl & Hnr); [decide_token|done|].
  rewrite (cmdProcessCommand_word _ (lit "flush_all") (to_string x ++ nr_text nr ++ CRLF ++ []));
    [|unfold key_line; by rewrite <- !app_assoc|decide_token|done].
  rewrite (bind_Ret _ _ _ _ _ Hfl). change (dispatch (lit "flush_all") ?i) with (cmdProcessFlushAll i).
  destruct (db_set_flush_law m s1 x Hok1) as (s' & Hd & Hok' & Hn' & Ha' & Hp').
  exists s', (db_now s1). split; [|split; [done|split; [lia|split; [done|by rewrite Ha']]]].
  assert (stoul (to_string x) = Ret x) as Hst.
  { rewrite <- (app_nil_r (to_string x)). pose proof ULONG_MOD_ge. apply stoul_to_string; [lia|done]. }
  assert (to_string x <> lit "noreply") as Hne.
  { intros Heq. rewrite Heq in Hst. discriminate Hst. }
  unfold cmdProcessFlushAll. rewrite Hsp, Hen, Hm1, Hu, Hm2.
  destruct nr; cbn [negb]; rewrite Hsl; unfold bind at 1, lift at 1; rewrite ?(str_eqb_neq _ _ Hne);
    unfold bind at 1, catch_invalid_argument, bind at 1, lift at 1; rewrite Hst;
    unfold ret at 1; rewrite (u32_small x) by done.
  - rewrite Hnr by done. unfold bind at 1, lift at 1. rewrite str_eqb_refl. cbn [negb].
    by rewrite (bind_Ret _ _ _ _ _ Hd).
  - by rewrite (bind_Ret _ _ _ _ _ Hd).
Qed.

(** After [flush_all 0] nothing that was stored before can be read. *)
Lemma flush_then_get m (s : W) k nr :
  let input := key_line (lit "flush_all") (to_string 0) nr ++ CRLF in
  small (keys_line (lit "get") [k] ++ CRLF) -> token k -> db_ok (S (S (S (S m)))) s ->
  exists s' s'',
    cmdProcessCommand input s = (Ret (0, reply nr (line "OK")), s')
    /\ cmdProcessCommand (keys_line (lit "get") [k] ++ CRLF) s' = (Ret (0, line "END"), s'')
    /\ db_ok m s''.
Proof.
  intros input Hs Hk Hok.
  destruct (flush_all_delayed (S (S m)) s 0 nr) as (s' & t & Hr & Hok' & Ht & Hp & Ha);
    [by destruct nr|unfold UINT_MOD; lia|done|].
  destruct (get_one m s' k Hs Hk Hok') as (s'' & t' & Hb & Hok'' & Hg).
  exists s', s''. split; [exact Hr|]. split; [|done]. rewrite Hg. unfold flushed. rewrite Hp.
  pose proof (db_now_range _ s Hok). pose proof (db_now_range _ s' Hok').
  rewrite Z.add_0_r, ulong_small by lia. cbn [due]. rewrite (proj2 (Z.leb_le _ _)) by lia.
  by rewrite Cache.visible_flush_next.
Qed.

(** ** A stored key does not come back after a flush *)

(** [set] on a key that a flush has hidden: the answer is STORED and the item stays hidden. *)
Lemma set_after_flush_hidden m (s : W) k f e ev data nr old :
  let input := storage_line (lit "set") k f e (to_string (size data)) nr ++ CRLF ++ data ++ CRLF in
  small input -> token k -> token f -> token e -> stoul e = Ret ev -> ev <= EXPIRY_THRESHOLD ->
  db_ok (S (S m)) s -> db_roomy s k f data -> flushed s k = Some (old, true) ->
  exists s', cmdProcessCommand input s = (Ret (0, reply nr (line "STORED")), s')
    /\ db_ok m s' /\ forall t, Cache.visible (db_abs s') t k = None.
Proof.
  intros input Hs Hk Hf He Hev Hth Hok Hro Hold.
  destruct (set_spec m s k f e ev data nr Hs Hk Hf He Hev Hth Hok Hro)
    as (s' & nc & t0 & Hr & Hok' & Ht & Ha & Hp).
  exists s'. split; [exact Hr|]. split; [done|]. intros t.
  rewrite Ha, Cache.insert_next_nocas, Hold. unfold Cache.visible. by rewrite Cache.put_eq.
Qed.
End Session.
