(* ===== verification/Connection.v ===== *)
(** * One connection: [sockHandleIncomingConn] of ssock.cpp

    The loop that receives up to 80 characters at a time, cuts the stream at ends of line and
    hands each command to [cmdProcessCommand]. The results of [recv] are a list of events;
    what is sent back is the list of the strings given to [send]. *)

From stdpp Require Import base list gmap strings.
From Stdlib Require Import ZArith Lia Ascii String.
From S2P Require Import Prelude CxxString DbLru DbLruRefine Commands.

(** ** State *)

(** The local variables that survive a round of the loop, and what was sent. *)
Record Conn := mkConn {
  data : cstring;
  persistentData : cstring;
  persistFlag : bool;
  readMore : Z;   (* int *)
  pos : Z;        (* unsigned int *)
  sent : list cstring;
}.

Definition initial_conn : Conn := mkConn [] [] false 0 0 [].

(** A result of [recv]: characters (none when the client has closed the connection), or -1
    with [errno] equal to [EWOULDBLOCK] or not. *)
Inductive recv_event :=
  | RecvBytes (buffer : cstring)
  | RecvWouldBlock
  | RecvError.

(** How the function ends: it closes the socket, leaves it open, or still waits in [recv]
    because no further event comes. *)
Inductive conn_end :=
  | ConnClosed
  | ConnLeft
  | ConnWaiting.

Section Connection.
Context `{DM : DataModel} {W : Type}.
Variable process : cstring -> ST W (Z * cstring).

(** The first half of a round: take what is left over, or receive. *)
Definition conn_receive (c : Conn) (evs : list recv_event)
    : (Conn * list recv_event) + (conn_end * Conn) :=
  if negb (size (persistentData c) =? 0) then
    inl (mkConn (data c ++ persistentData c) [] true (readMore c) (pos c) (sent c), evs)
  else
    match evs with
    | [] => inr (ConnWaiting, c)
    | RecvError :: _ => inr (ConnClosed, c)
    | RecvWouldBlock :: _ => inr (ConnLeft, c)
    | RecvBytes buffer :: evs' =>
      if size buffer =? 0 then inr (ConnClosed, c)
      else inl (mkConn (data c ++ buffer) (persistentData c) (persistFlag c)
                  (s32 (readMore c - size buffer)) (pos c) (sent c), evs')
    end.

(** [s.erase(pos, string::npos)] *)
Definition erase_from (s : cstring) (pos : Z) : outcome cstring :=
  if size s <? pos then Throw out_of_range else Ret (take (Z.to_nat pos) s).

(** Whether the last two characters are a carriage return and a line feed; reading before
    the start of the string is undefined. *)
Definition ends_with_crlf (s : cstring) : outcome bool :=
  if size s <? 2 then Stuck Undefined
  else Ret (str_eqb (drop (List.length s - 2) s) CRLF).

(** The second half: cut at the end of line and process. *)
Definition conn_cut (c : Conn) : ST W (Conn + conn_end * Conn) :=
  let oldPos := u32 (pos c + 2) in
  let pos := u32 (find_str (data c) CRLF oldPos) in
  if pos =? npos then
    ret (inl (mkConn (data c) (persistentData c) (persistFlag c) (readMore c) (u32 (oldPos - 2))
                (sent c)))
  else
  let* persistentData := lift (substr (data c) (u32 (pos + 2)) npos) in
  let* data := lift (erase_from (data c) (u32 (pos + 2))) in
  let readMore :=
    if persistFlag c then s32 (readMore c - u32 (pos - oldPos + 2)) else readMore c in
  let c := mkConn data persistentData false readMore pos (sent c) in
  if 0 <? readMore then ret (inl c) else
  let* complete := lift (ends_with_crlf data) in
  if complete : bool then
    let* (readMore, output) := process data in
    if 0 <? readMore then ret (inl (mkConn data persistentData false readMore pos (sent c)))
    else if readMore <? 0 then
      ret (inr (ConnClosed, mkConn data persistentData false readMore pos (sent c)))
    else ret (inl (mkConn [] persistentData false readMore 0 (sent c ++ [output])))
  else ret (inl c).

Definition conn_round (c : Conn) (evs : list recv_event)
    : ST W ((Conn * list recv_event) + (conn_end * Conn)) :=
  match conn_receive c evs with
  | inr e => ret (inr e)
  | inl (c, evs) =>
    let* r := conn_cut c in
    match r with
    | inl c => ret (inl (c, evs))
    | inr e => ret (inr e)
    end
  end.

Fixpoint conn_loop (fuel : nat) (c : Conn) (evs : list recv_event) : ST W (conn_end * Conn) :=
  match fuel with
  | O => stuck OutOfFuel
  | S fuel' =>
    let* r := conn_round c evs in
    match r with
    | inl (c, evs) => conn_loop fuel' c evs
    | inr e => ret e
    end
  end.

(** ** Termination *)

Definition bytes_of (e : recv_event) : cstring :=
  match e with RecvBytes b => b | _ => [] end.

(** Characters still to be received. *)
Fixpoint to_come (evs : list recv_event) : cstring :=
  match evs with [] => [] | e :: evs' => bytes_of e ++ to_come evs' end.

(** Every round takes an event, or moves the scanned position over the characters at hand. *)
Definition cost (c : Conn) (evs : list recv_event) : Z :=
  2 * (Z.of_nat (List.length evs) + size (to_come evs)
       + Z.max 0 (size (data c) + size (persistentData c) - (pos c + 2)))
  + (if size (persistentData c) =? 0 then 0 else 1).

Definition conn_fuel (evs : list recv_event) : nat :=
  Z.to_nat (2 * (Z.of_nat (List.length evs) + size (to_come evs)) + 1).

(** Positions fit an [unsigned int]. *)
Record fits_uint (c : Conn) (evs : list recv_event) : Prop := {
  fu_total : size (data c) + size (persistentData c) + size (to_come evs) < UINT_MOD - 3;
  fu_pos : 0 <= pos c /\ (pos c <= size (data c) \/ pos c = 0);
}.

Lemma substr_npos s p : 0 <= p <= size s -> size s <= npos -> substr s p npos = Ret (drop (Z.to_nat p) s).
Proof.
  intros Hp Hn. unfold substr. rewrite (proj2 (Z.ltb_ge _ _)) by lia. f_equal.
  apply take_ge. rewrite length_drop. unfold size in *. lia.
Qed.

(** What [find] of the end of line gives. *)
Lemma find_crlf_bounds s p : size s < UINT_MOD - 3 -> 0 <= p < UINT_MOD ->
  u32 (find_str s CRLF p) = UINT_MOD - 1
  \/ (p <= find_str s CRLF p <= size s - 2 /\ u32 (find_str s CRLF p) = find_str s CRLF p).
Proof.
  intros Hs Hp. unfold find_str. pose proof (size_nonneg s).
  assert (u32 npos = UINT_MOD - 1) as Hnp.
  { unfold npos, ULONG_MAX, ULONG_MOD, u32. by destruct long_bits_cases as [-> | ->]. }
  destruct (Z.ltb_spec (size s) p); [by left|].
  assert (size (drop (Z.to_nat p) s) = size s - p) as Hd by (unfold size in *; rewrite length_drop; lia).
  destruct (find_at_bounds CRLF (drop (Z.to_nat p) s) p) as [->|Hb]; [done|by left|].
  rewrite Hd, size_CRLF in Hb. right. split; [lia|]. apply u32_small. lia.
Qed.
End Connection.

Section Termination.
Context {W : Type} (process : cstring -> ST W (Z * cstring)).
Existing Instance ILP32.

Lemma npos_32 : npos = UINT_MOD - 1.
Proof. reflexivity. Qed.

(** One round of the second half: the scanned position moves over at least the two
    characters of an end of line, or nothing more is at hand. *)
Lemma conn_cut_cost c evs s c' s' :
  fits_uint c evs -> persistentData c = [] ->
  conn_cut process c s = (Ret (inl c'), s') ->
  fits_uint c' evs /\
  (data c' = data c /\ persistentData c' = [] /\ pos c' = pos c
   \/ cost c' evs + 3 <= cost c evs).
Proof.
  intros [Ht [Hp0 Hp]] Hpers. unfold conn_cut.
  pose proof (size_nonneg (data c)). pose proof (size_nonneg (to_come evs)).
  rewrite Hpers in *. rewrite size_nil in *. rewrite (u32_small (pos c + 2)) by lia.
  destruct (find_crlf_bounds (data c) (pos c + 2)) as [Hf|[Hf ->]]; [lia|lia| |].
  - rewrite Hf. change (UINT_MOD - 1 =? npos) with true. intros [= <- <-]. cbn. rewrite u32_small by lia.
    split; [|left; repeat split; lia]. split; cbn; rewrite ?size_nil; lia.
  - set (q := find_str (data c) CRLF (pos c + 2)) in *. rewrite (proj2 (Z.eqb_neq _ npos)) by (rewrite npos_32; lia).
    rewrite (u32_small (q + 2)) by lia. rewrite substr_npos by (rewrite ?npos_32; lia).
    unfold bind at 1, lift at 1. unfold erase_from. rewrite (proj2 (Z.ltb_ge _ _)) by lia.
    unfold bind at 1, lift at 1.
    set (pd := drop (Z.to_nat (q + 2)) (data c)). set (dt := take (Z.to_nat (q + 2)) (data c)).
    assert (size pd = size (data c) - (q + 2)) as Hpd by (unfold pd, size in *; rewrite length_drop; lia).
    assert (size dt = q + 2) as Hdt by (unfold dt, size in *; rewrite length_take; lia).
    assert (forall f r o, let c1 := mkConn dt pd f r q o in
      fits_uint c1 evs /\ (data c1 = data c /\ persistentData c1 = [] /\ pos c1 = pos c
        \/ cost c1 evs + 3 <= cost c evs)) as Hkeep.
    { intros f r o. split; [split; cbn; lia|]. right. unfold cost. cbn. rewrite Hpers, size_nil, Hpd, Hdt.
      cbn. destruct (size (data c) - (q + 2) =? 0); lia. }
    destruct (0 <? _); [intros [= <- <-]; apply Hkeep|].
    unfold bind at 1, lift at 1. unfold ends_with_crlf. rewrite (proj2 (Z.ltb_ge _ _)) by lia.
    destruct (str_eqb _ CRLF); [|intros [= <- <-]; apply Hkeep].
    unfold bind at 1. destruct (process dt s) as [[[r o]|e|f] s1]; [|done|done].
    destruct (0 <? r); [intros [= <- <-]; apply Hkeep|]. destruct (r <? 0); intros [= <- <-].
    split; [split; cbn; rewrite ?size_nil; lia|]. right. unfold cost. cbn. rewrite Hpers, !size_nil, Hpd.
    cbn. destruct (size (data c) - (q + 2) =? 0); lia.
Qed.
Lemma cost_same c c' evs : data c' = data c -> persistentData c' = persistentData c -> pos c' = pos c ->
  cost c' evs = cost c evs.
Proof. unfold cost. by intros -> -> ->. Qed.

Lemma conn_receive_cost c evs c1 evs1 :
  fits_uint c evs -> conn_receive c evs = inl (c1, evs1) ->
  fits_uint c1 evs1 /\ persistentData c1 = [] /\ cost c1 evs1 < cost c evs.
Proof.
  intros [Ht [Hp0 Hp]]. unfold conn_receive. pose proof (size_nonneg (data c)).
  pose proof (size_nonneg (persistentData c)).
  destruct (Z.eqb_spec (size (persistentData c)) 0) as [Hz|Hz]; cbn [negb].
  - destruct evs as [|[b| |] evs]; [done| |done|done]. destruct (Z.eqb_spec (size b) 0); [done|].
    intros [= <- <-]. cbn [to_come bytes_of] in Ht. rewrite size_app in Ht.
    pose proof (size_nonneg b). pose proof (size_nonneg (to_come evs)).
    split; [split; cbn; autorewrite with cxx; lia|]. cbn. unfold size in Hz.
    split; [destruct (persistentData c); [done|cbn in Hz; lia]|].
    unfold cost. cbn [data persistentData pos to_come bytes_of List.length].
    autorewrite with cxx. destruct (size (persistentData c) =? 0); lia.
  - intros [= <- <-]. split; [split; cbn; autorewrite with cxx; lia|]. split; [done|].
    unfold cost. cbn [data persistentData pos]. autorewrite with cxx.
    rewrite (proj2 (Z.eqb_neq _ _) Hz). cbn. lia.
Qed.

Lemma conn_round_cost c evs s c' evs' s' :
  fits_uint c evs -> conn_round process c evs s = (Ret (inl (c', evs')), s') ->
  fits_uint c' evs' /\ cost c' evs' < cost c evs.
Proof.
  intros Hf. unfold conn_round. destruct (conn_receive c evs) as [[c1 evs1]|e] eqn:Er; [|done].
  destruct (conn_receive_cost c evs c1 evs1 Hf Er) as (Hf1 & Hp1 & Hc1).
  intros (r & s1 & Hcut & Hr)%bind_inv_Ret. destruct r as [c2|]; [|done]. injection Hr as <- <- <-.
  destruct (conn_cut_cost c1 evs1 s c2 s1 Hf1 Hp1 Hcut) as [Hf2 [(Hd & Hp & Hq)|Hlt]]; [|split; [done|lia]].
  split; [done|]. rewrite (cost_same c1 c2) by congruence. done.
Qed.

(** The loop ends, whatever the client sends: more rounds than [cost] change nothing. *)
Lemma conn_loop_stable fuel : forall fuel' c evs s,
  fits_uint c evs -> cost c evs < Z.of_nat fuel -> (fuel <= fuel')%nat ->
  conn_loop process fuel' c evs s = conn_loop process fuel c evs s.
Proof.
  induction fuel as [|fuel IH]; intros fuel' c evs s Hf Hc Hle.
  { unfold cost in Hc. pose proof (size_nonneg (to_come evs)). destruct (_ =? 0); lia. }
  destruct fuel' as [|fuel']; [lia|]. cbn [conn_loop]. unfold bind.
  destruct (conn_round process c evs s) as [[[[c1 evs1]|e]|e|f] s1] eqn:Er; [|done..].
  destruct (conn_round_cost c evs s c1 evs1 s1 Hf Er) as [Hf1 Hc1]. apply IH; [done|lia|lia].
Qed.

Lemma initial_fits evs : size (to_come evs) < UINT_MOD - 3 -> fits_uint initial_conn evs.
Proof. intros. split; cbn; rewrite ?size_nil; lia. Qed.

Lemma initial_cost evs : cost initial_conn evs < Z.of_nat (conn_fuel evs).
Proof.
  unfold cost, conn_fuel. cbn [data persistentData pos initial_conn]. rewrite size_nil.
  pose proof (size_nonneg (to_come evs)). cbn. lia.
Qed.
End Termination.

(** ** The function itself *)

(** [sockHandleIncomingConn] on the results that [recv] gives; [conn_fuel] rounds are enough
    ([conn_loop_stable], [initial_cost]). *)
Definition sockHandleIncomingConn `{DM : DataModel} `{E : Env} {W : Type} `{DB : Database W}
    (evs : list recv_event) : ST W (conn_end * Conn) :=
  conn_loop cmdProcessCommand (conn_fuel evs) initial_conn evs.
