(* ===== verification/ConnectionSpec.v ===== *)
(** * Framing: how a connection cuts its stream into commands

    On the 32-bit data model the loop of [sockHandleIncomingConn] serves a stream of requests
    in order and exactly once, however the network cuts it into pieces. *)

From stdpp Require Import base list gmap strings.
From Stdlib Require Import ZArith Lia Ascii String.
From S2P Require Import Prelude CxxString Connection.

(** A command line, and the data block that follows a storage command. *)
Record Request := mkReq {
  req_line : cstring;
  req_data : option cstring;
}.

Definition text (r : Request) : cstring :=
  req_line r ++ CRLF ++ match req_data r with Some d => d ++ CRLF | None => [] end.

Definition texts (rs : list Request) : cstring := List.concat (List.map text rs).

(** The search for an end of line starts at the third character of a line. *)
Definition good_request (r : Request) : Prop :=
  2 <= size (req_line r) /\ (CR ∉ req_line r)
  /\ match req_data r with Some d => CR ∉ d | None => True end.

#[export] Instance good_request_dec r : Decision (good_request r).
Proof. unfold good_request. destruct (req_data r); apply _. Defined.

(** What a client sends before it closes the connection. *)
Definition stream (chunks : list cstring) : list recv_event :=
  List.map RecvBytes chunks ++ [RecvBytes []].

Lemma to_come_stream chunks : to_come (stream chunks) = List.concat chunks.
Proof. unfold stream. induction chunks as [|b bs IH]; [done|]. cbn in *. by rewrite IH. Qed.

(** A piece of a line that is not complete has no end of line. *)
Lemma find_at_crlf_short `{DM : DataModel} w0 : forall w u t i,
  CR ∉ w0 -> w ++ u = w0 ++ CRLF ++ t -> size w < size w0 + 2 -> find_at CRLF w i = npos.
Proof.
  induction w0 as [|a w0 IH]; intros w u t i Hc Heq Hs.
  - destruct w as [|x [|y w]]; [done|by injection Heq as -> _|]. autorewrite with cxx in Hs. pose proof (size_nonneg w). lia.
  - apply not_elem_of_cons in Hc as [Hne Hc]. destruct w as [|x w]; [done|].
    injection Heq as -> Heq. cbn [find_at]. change (is_prefix CRLF (a :: w)) with
      (Ascii.eqb CR a && is_prefix [LF] w).
    rewrite (proj2 (Ascii.eqb_neq CR a) Hne). cbn [andb]. eapply (IH w u t); [done|done|].
    autorewrite with cxx in Hs. lia.
Qed.

Section Framing.
Context {W : Type} (process : cstring -> ST W (Z * cstring)).
Existing Instance ILP32.

(** Requests served one after the other: a line is processed when it is complete; when the
    handler asks for the data block, it is processed again with it. *)
Inductive served : list Request -> W -> list cstring -> W -> Prop :=
  | served_nil s : served [] s [] s
  | served_line l rs s out s1 outs s' :
      process (l ++ CRLF) s = (Ret (0, out), s1) -> served rs s1 outs s' ->
      served (mkReq l None :: rs) s (out :: outs) s'
  | served_data l d rs s o s1 out s2 outs s' :
      process (l ++ CRLF) s = (Ret (size d + 2, o), s1) ->
      process (l ++ CRLF ++ d ++ CRLF) s1 = (Ret (0, out), s2) -> served rs s2 outs s' ->
      served (mkReq l (Some d) :: rs) s (out :: outs) s'.

(** ** One search for an end of line *)

Lemma cut_miss c s x w w0 u t :
  data c = x ++ w -> size x = pos c + 2 \/ size x < pos c + 2 /\ w = [] ->
  CR ∉ w0 -> w ++ u = w0 ++ CRLF ++ t -> size w < size w0 + 2 ->
  0 <= pos c < UINT_MOD - 3 ->
  conn_cut process c s = (Ret (inl c), s).
Proof.
  intros Hd Hx Hc Heq Hs Hp. unfold conn_cut. rewrite (u32_small (pos c + 2)) by lia.
  assert (find_str (data c) CRLF (pos c + 2) = npos) as ->.
  { rewrite Hd. destruct Hx as [<-|[Hx ->]].
    - rewrite find_str_after. by eapply find_at_crlf_short.
    - unfold find_str. by rewrite app_nil_r, (proj2 (Z.ltb_lt _ _)). }
  change (u32 npos =? npos) with true. cbv iota. rewrite u32_small by lia.
  replace (pos c + 2 - 2) with (pos c) by lia. by destruct c.
Qed.

Lemma cut_hit c s x w t :
  data c = x ++ w ++ CRLF ++ t -> size x = pos c + 2 -> CR ∉ w -> 0 <= pos c ->
  size (data c) < 2 ^ 30 -> - 2 ^ 30 <= readMore c <= 2 ^ 30 ->
  let rm := if persistFlag c then readMore c - (size w + 2) else readMore c in
  rm <= 0 ->
  conn_cut process c s =
  (let* (r, out) := process (x ++ w ++ CRLF) in
   if 0 <? r then ret (inl (mkConn (x ++ w ++ CRLF) t false r (pos c + 2 + size w) (sent c)))
   else if r <? 0 then
     ret (inr (ConnClosed, mkConn (x ++ w ++ CRLF) t false r (pos c + 2 + size w) (sent c)))
   else ret (inl (mkConn [] t false r 0 (sent c ++ [out])))) s.
Proof.
  intros Hd Hx Hw Hp Hs Hr rm Hrm. change (2 ^ 30) with 1073741824 in *.
  pose proof (size_nonneg w). pose proof (size_nonneg t).
  assert (size (data c) = pos c + 2 + size w + 2 + size t) as Hsz
    by (rewrite Hd; autorewrite with cxx; lia).
  unfold conn_cut. unfold UINT_MOD in *. rewrite (u32_small (pos c + 2)) by (unfold UINT_MOD; lia).
  assert (find_str (data c) CRLF (pos c + 2) = pos c + 2 + size w) as ->.
  { rewrite Hd, <- Hx, find_str_after. by apply find_at_crlf_hit. }
  rewrite (u32_small (pos c + 2 + size w)) by (unfold UINT_MOD; lia).
  rewrite (proj2 (Z.eqb_neq _ npos)) by (rewrite npos_32; unfold UINT_MOD; lia).
  rewrite (u32_small (pos c + 2 + size w + 2)) by (unfold UINT_MOD; lia).
  rewrite substr_npos by (rewrite ?npos_32; unfold UINT_MOD; lia). unfold bind at 1, lift at 1.
  unfold erase_from. rewrite (proj2 (Z.ltb_ge _ _)) by lia. unfold bind at 1, lift at 1.
  assert (data c = (x ++ w ++ CRLF) ++ t) as Hd2 by (rewrite Hd; by rewrite <- !app_assoc).
  replace (Z.to_nat (pos c + 2 + size w + 2)) with (List.length (x ++ w ++ CRLF)).
  2:{ apply Nat2Z.inj. rewrite Z2Nat.id by lia. change (size (x ++ w ++ CRLF) = pos c + 2 + size w + 2).
      autorewrite with cxx. lia. }
  rewrite Hd2, drop_app_length, take_app_length.
  replace (if persistFlag c then _ else _) with rm.
  2:{ unfold rm. destruct (persistFlag c); [|done].
      rewrite (u32_small (pos c + 2 + size w - (pos c + 2) + 2)) by (unfold UINT_MOD; lia).
      rewrite s32_small by lia. lia. }
  rewrite (proj2 (Z.ltb_ge 0 rm)) by done.
  unfold bind at 1, lift at 1, ends_with_crlf.
  rewrite (proj2 (Z.ltb_ge (size (x ++ w ++ CRLF)) 2)) by (autorewrite with cxx; lia).
  replace (drop _ (x ++ w ++ CRLF)) with CRLF; [done|].
  rewrite !length_app. cbn [List.length CRLF]. rewrite (app_assoc x w CRLF).
  replace (List.length x + (List.length w + 2) - 2)%nat with (List.length (x ++ w)) by (rewrite length_app; lia).
  by rewrite drop_app_length.
Qed.

(** ** The state of a connection against the requests that remain *)

(** Waiting for the line of the next request. *)
Record at_line (rs : list Request) (c : Conn) (rest : cstring) : Prop := {
  al_pos : pos c = 0;
  al_text : data c ++ persistentData c ++ rest = texts rs;
  al_read : - size (data c) <= readMore c <= 0;
}.

(** Waiting for the data block [d] of the line [l]; [x] has arrived. *)
Record at_data (l d x : cstring) (rs : list Request) (c : Conn) (rest : cstring) : Prop := {
  ad_pos : pos c = size l;
  ad_data : data c = l ++ CRLF ++ x;
  ad_text : x ++ persistentData c ++ rest = d ++ CRLF ++ texts rs;
  ad_read : - size (data c) <= readMore c <= (if persistFlag c then size d + 2 else size d + 2 - size x);
}.

(** What was received so far has been searched. *)
Definition line_searched (rs : list Request) (c : Conn) : Prop :=
  persistentData c = [] -> forall r rs', rs = r :: rs' -> size (data c) < size (req_line r) + 2.
Definition data_searched (d x : cstring) (c : Conn) : Prop :=
  persistentData c = [] /\ size x < size d + 2 \/ persistentData c <> [] /\ x = [].

Lemma texts_cons r rs : texts (r :: rs) = text r ++ texts rs.
Proof. done. Qed.

Lemma text_size r : size (req_line r) + 2 <= size (text r).
Proof.
  unfold text. autorewrite with cxx.
  pose proof (size_nonneg (match req_data r with Some d => d ++ CRLF | None => [] end)). lia.
Qed.

(** [w] and [w'] begin the same text: the shorter one begins the longer one. *)
Lemma split_at {A} (a b c d : list A) :
  a ++ b = c ++ d -> (List.length c <= List.length a)%nat -> exists t, a = c ++ t /\ d = t ++ b.
Proof.
  intros Heq Hl. exists (drop (List.length c) a).
  assert (take (List.length c) a = c) as Ht.
  { rewrite <- (take_app_le a b) by done. by rewrite Heq, take_app_length. }
  split; [by rewrite <- Ht at 1; rewrite take_drop|].
  rewrite <- (take_app_length c d) in Heq at 1. apply (f_equal (drop (List.length c))) in Heq.
  rewrite take_app_length, drop_app_length in Heq. by rewrite <- Heq, drop_app_le.
Qed.

(** ** Receiving *)

Definition small_total (c : Conn) (rest : cstring) : Prop :=
  size (data c) + size (persistentData c) + size rest < 2 ^ 29.

(** What a reception gives: the characters at hand, all in [data]. *)
Lemma receive_more c chunks :
  Forall (fun b => b <> []) chunks -> small_total c (List.concat chunks) ->
  - 2 ^ 29 <= readMore c <= 2 ^ 29 -> (persistentData c <> [] \/ chunks <> []) ->
  exists c1 chunks1 new, conn_receive c (stream chunks) = inl (c1, stream chunks1)
    /\ Forall (fun b => b <> []) chunks1 /\ small_total c1 (List.concat chunks1)
    /\ data c1 = data c ++ new /\ persistentData c1 = [] /\ new <> []
    /\ persistentData c ++ List.concat chunks = new ++ List.concat chunks1
    /\ pos c1 = pos c /\ sent c1 = sent c
    /\ (persistentData c <> [] /\ new = persistentData c /\ persistFlag c1 = true /\ readMore c1 = readMore c
        \/ persistentData c = [] /\ persistFlag c1 = persistFlag c /\ readMore c1 = readMore c - size new).
Proof.
  intros Hne Ht Hr Hsome. unfold conn_receive, small_total in *. change (2 ^ 29) with 536870912 in *.
  destruct (persistentData c) as [|a pd] eqn:Hpd.
  - rewrite size_nil in *. destruct chunks as [|b bs]; [by destruct Hsome|]. cbn [stream List.map app].
    apply Forall_cons in Hne as [Hb Hbs]. cbn [List.concat] in *. rewrite size_app in Ht.
    pose proof (size_nonneg (data c)). pose proof (size_nonneg b). pose proof (size_nonneg (List.concat bs)).
    assert (size b <> 0) as Hb0 by (destruct b; [done|rewrite size_cons; pose proof (size_nonneg b); lia]).
    change (negb (0 =? 0)) with false. cbv iota. rewrite (proj2 (Z.eqb_neq _ _) Hb0).
    rewrite s32_small by lia. eexists _, bs, b. split; [reflexivity|]. cbn. rewrite size_app, ?size_nil.
    split; [done|]. split; [lia|]. split; [done|]. repeat (split; [done|]). right. done.
  - rewrite (proj2 (Z.eqb_neq _ _)) by (rewrite size_cons; pose proof (size_nonneg pd); lia). cbn [negb].
    eexists _, chunks, (a :: pd). split; [reflexivity|]. cbn [data persistentData pos sent persistFlag readMore].
    rewrite size_app, size_nil. split; [done|]. split; [lia|]. repeat (split; [done|]).
    left. repeat (split; [done|]). done.
Qed.

(** ** One round *)

Lemma serve_line r rs c s chunks :
  good_request r -> at_line (r :: rs) c (List.concat chunks) -> persistentData c = [] ->
  small_total c (List.concat chunks) ->
  (size (data c) < size (req_line r) + 2 /\ conn_cut process c s = (Ret (inl c), s))
  \/ exists t, t ++ List.concat chunks = match req_data r with Some d => d ++ CRLF | None => [] end ++ texts rs
     /\ size (data c) = size (req_line r) + 2 + size t
     /\ conn_cut process c s =
       (let* (n, out) := process (req_line r ++ CRLF) in
        if 0 <? n then ret (inl (mkConn (req_line r ++ CRLF) t false n (size (req_line r)) (sent c)))
        else if n <? 0 then
          ret (inr (ConnClosed, mkConn (req_line r ++ CRLF) t false n (size (req_line r)) (sent c)))
        else ret (inl (mkConn [] t false n 0 (sent c ++ [out])))) s.
Proof.
  intros (Hl2 & Hl & Hd) [Hp Ht Hr] Hpd Hsm. unfold small_total in Hsm. change (2 ^ 29) with 536870912 in *.
  rewrite Hpd in *. cbn [app] in *. rewrite size_nil in *.
  rewrite texts_cons in Ht. unfold text in Ht. rewrite <- !app_assoc in Ht.
  pose proof (size_nonneg (data c)). pose proof (size_nonneg (List.concat chunks)).
  set (l := req_line r) in *. set (x := take 2 l). set (w := drop 2 l).
  assert (l = x ++ w) as Hlx by (symmetry; apply take_drop).
  assert (size x = 2) as Hx by (unfold x, size in *; rewrite length_take; lia).
  assert (CR ∉ w) as Hw by (rewrite Hlx in Hl; apply not_elem_of_app in Hl; apply Hl).
  destruct (Z.lt_ge_cases (size (data c)) (size l + 2)) as [Hlt|Hge].
  - left. split; [done|]. destruct c as [dt pd fl rm p o]. cbn in *. subst p pd.
    destruct (Z.lt_ge_cases (size dt) 2) as [Hs2|Hs2].
    + apply (cut_miss _ s dt [] [] (CRLF ++ []) []);
        [by rewrite app_nil_r|right; split; [cbn; lia|done]|apply not_elem_of_nil|done
        |rewrite size_nil; lia|cbn; unfold UINT_MOD; lia].
    + destruct (split_at dt (List.concat chunks) x (w ++ CRLF ++ match req_data r with
        Some d => d ++ CRLF | None => [] end ++ texts rs)) as (v & -> & Hv);
        [rewrite Ht, Hlx, <- !app_assoc; done|unfold size in *; lia|].
      apply (cut_miss _ s x v w (List.concat chunks) (match req_data r with
        Some d => d ++ CRLF | None => [] end ++ texts rs)); [done|by left|done|by rewrite <- Hv| |cbn; unfold UINT_MOD; lia].
      rewrite size_app in Hlt. rewrite Hlx, size_app in Hlt. lia.
  - right. destruct (split_at (data c) (List.concat chunks) (l ++ CRLF) (match req_data r with
      Some d => d ++ CRLF | None => [] end ++ texts rs)) as (t & Hdt & Hrest);
      [rewrite Ht, <- !app_assoc; done|rewrite length_app; unfold size in *; cbn; lia|].
    exists t. split; [done|]. split.
    { rewrite Hdt. autorewrite with cxx. lia. }
    rewrite (cut_hit c s x w t); rewrite ?Hp; try done; try lia.
    + rewrite (app_assoc x w CRLF), <- Hlx. replace (0 + 2 + size w) with (size l)
        by (rewrite Hlx, size_app; lia). done.
    + rewrite Hdt, Hlx, <- !app_assoc. done.
    + pose proof (size_nonneg w). destruct (persistFlag c); lia.
Qed.

Lemma serve_block l d x rs c s chunks :
  CR ∉ d -> at_data l d x rs c (List.concat chunks) -> persistentData c = [] ->
  small_total c (List.concat chunks) ->
  (size x < size d + 2 /\ conn_cut process c s = (Ret (inl c), s))
  \/ exists t, t ++ List.concat chunks = texts rs /\ size (data c) = size l + 2 + size d + 2 + size t
     /\ conn_cut process c s =
       (let* (n, out) := process (l ++ CRLF ++ d ++ CRLF) in
        if 0 <? n then
          ret (inl (mkConn (l ++ CRLF ++ d ++ CRLF) t false n (size l + 2 + size d) (sent c)))
        else if n <? 0 then
          ret (inr (ConnClosed, mkConn (l ++ CRLF ++ d ++ CRLF) t false n (size l + 2 + size d) (sent c)))
        else ret (inl (mkConn [] t false n 0 (sent c ++ [out])))) s.
Proof.
  intros Hd [Hp Hdt Ht Hr] Hpd Hsm. unfold small_total in Hsm. change (2 ^ 29) with 536870912 in *.
  rewrite Hpd in *. cbn [app] in *. rewrite size_nil in *. pose proof (size_nonneg (List.concat chunks)).
  pose proof (size_nonneg l). pose proof (size_nonneg d). pose proof (size_nonneg x).
  assert (size (data c) = size l + 2 + size x) as Hsz by (rewrite Hdt; autorewrite with cxx; lia).
  assert (data c = (l ++ CRLF) ++ x) as Hdx by by rewrite Hdt, app_assoc.
  assert (size (l ++ CRLF) = pos c + 2) as Hlp by (autorewrite with cxx; lia).
  destruct (Z.lt_ge_cases (size x) (size d + 2)) as [Hlt|Hge].
  - left. split; [done|].
    apply (cut_miss c s (l ++ CRLF) x d (List.concat chunks) (texts rs));
      [done|by left|done|done|done|unfold UINT_MOD; lia].
  - right. destruct (split_at x (List.concat chunks) (d ++ CRLF) (texts rs)) as (t & Hxt & Hrest);
      [rewrite Ht, <- !app_assoc; done|rewrite length_app; unfold size in *; cbn; lia|].
    exists t. split; [done|].
    assert (size x = size d + 2 + size t) as Hxs by (rewrite Hxt; autorewrite with cxx; lia).
    split; [lia|]. assert (size d + 2 + size t + size (List.concat chunks) < 536870912) as Hb by lia.
    pose proof (size_nonneg t).
    rewrite (cut_hit c s (l ++ CRLF) d t); [|rewrite Hdx, Hxt, <- !app_assoc; done|done|done|lia|lia| |].
    + rewrite Hp, <- !app_assoc. done.
    + destruct (persistFlag c); lia.
    + destruct (persistFlag c); lia.
Qed.

(** ** The whole connection *)

(** The connection serves the requests that remain and then finds the stream closed. *)
Definition completes (fuel : nat) (c : Conn) (s : W) (chunks : list cstring) (outs : list cstring) (s' : W)
    : Prop :=
  exists c', conn_loop process fuel c (stream chunks) s = (Ret (ConnClosed, c'), s')
    /\ sent c' = sent c ++ outs.

Lemma loop_round fuel c s chunks c1 chunks1 c2 s1 outs outs' s' :
  conn_receive c (stream chunks) = inl (c1, stream chunks1) -> sent c1 = sent c ->
  conn_cut process c1 s = (Ret (inl c2), s1) -> sent c2 ++ outs' = sent c1 ++ outs ->
  completes fuel c2 s1 chunks1 outs' s' -> completes (S fuel) c s chunks outs s'.
Proof.
  intros Hr Hs1 Hc Hs2 (c' & Hl & Hs'). exists c'. cbn [conn_loop]. unfold conn_round. rewrite Hr.
  unfold bind. rewrite Hc. split; [exact Hl|]. congruence.
Qed.

Lemma round_cost c chunks c1 chunks1 s c2 s1 :
  conn_receive c (stream chunks) = inl (c1, stream chunks1) ->
  conn_cut process c1 s = (Ret (inl c2), s1) -> fits_uint c (stream chunks) ->
  fits_uint c2 (stream chunks1) /\ cost c2 (stream chunks1) < cost c (stream chunks).
Proof.
  intros Hr Hc Hf. apply (conn_round_cost process c (stream chunks) s c2 (stream chunks1) s1 Hf).
  unfold conn_round. rewrite Hr. unfold bind. by rewrite Hc.
Qed.

Definition serves_lines (fuel : nat) : Prop := forall rs c s chunks outs s',
  Forall good_request rs -> Forall (fun b => b <> []) chunks -> fits_uint c (stream chunks) ->
  cost c (stream chunks) < Z.of_nat fuel -> small_total c (List.concat chunks) ->
  at_line rs c (List.concat chunks) -> line_searched rs c -> served rs s outs s' ->
  completes fuel c s chunks outs s'.

Definition serves_blocks (fuel : nat) : Prop := forall l d x rs c s chunks out s1 outs s',
  CR ∉ d -> Forall good_request rs -> Forall (fun b => b <> []) chunks -> fits_uint c (stream chunks) ->
  cost c (stream chunks) < Z.of_nat fuel -> small_total c (List.concat chunks) ->
  at_data l d x rs c (List.concat chunks) -> data_searched d x c ->
  process (l ++ CRLF ++ d ++ CRLF) s = (Ret (0, out), s1) -> served rs s1 outs s' ->
  completes fuel c s chunks (out :: outs) s'.

(** All requests are served when the stream ends. *)
Lemma line_end rs c s outs s' fuel :
  at_line rs c [] -> line_searched rs c -> persistentData c = [] -> served rs s outs s' ->
  completes (S fuel) c s [] outs s'.
Proof.
  intros [Hp Ht Hr] Hls Hpd Hsv. rewrite Hpd in Ht. rewrite !app_nil_r in Ht.
  destruct rs as [|r rs].
  - inversion Hsv; subst. exists c. cbn. unfold bind, conn_round, conn_receive. rewrite Hpd.
    split; [reflexivity|by rewrite app_nil_r].
  - specialize (Hls Hpd r rs eq_refl). rewrite Ht, texts_cons, size_app in Hls.
    pose proof (text_size r). pose proof (size_nonneg (texts rs)). lia.
Qed.

Lemma line_step fuel : serves_lines fuel -> serves_blocks fuel -> serves_lines (S fuel).
Proof.
  intros IHl IHd rs c s chunks outs s' Hg Hne Hf Hcost Hsm Hal Hls Hsv.
  destruct (decide (persistentData c = [] /\ chunks = [])) as [[Hpd ->]|Hmore]; [by eapply line_end|].
  pose proof Hal as [Hp Ht Hr]. pose proof Hsm as Hsm'. unfold small_total in Hsm'.
  change (2 ^ 29) with 536870912 in Hsm'.
  pose proof (size_nonneg (data c)). pose proof (size_nonneg (persistentData c)).
  pose proof (size_nonneg (List.concat chunks)).
  destruct (receive_more c chunks) as (c1 & ch1 & new & Hrc & Hne1 & Hsm1 & Hd1 & Hpd1 & Hnew & Hrest & Hp1 & Hs1 & Hw);
    [done|done|change (2 ^ 29) with 536870912; lia|destruct (persistentData c), chunks; naive_solver|].
  assert (at_line rs c1 (List.concat ch1)) as Hal1.
  { split; [congruence|by rewrite Hd1, Hpd1, <- Ht, <- app_assoc, Hrest|].
    rewrite Hd1, size_app. pose proof (size_nonneg new). destruct Hw as [(_ & _ & _ & ->)|(_ & _ & ->)]; lia. }
  destruct rs as [|r rs].
  { destruct Hal1 as [_ Ht1 _]. rewrite Hd1 in Ht1. destruct (data c), new; done. }
  apply Forall_cons in Hg as [Hgr Hg].
  destruct (serve_line r rs c1 s ch1 Hgr Hal1 Hpd1 Hsm1) as [[Hlt Hcut]|(t & Hrest1 & Hsz & Hcut)].
  - destruct (round_cost _ _ _ _ _ _ _ Hrc Hcut Hf) as [Hf2 Hc2].
    eapply (loop_round fuel); [exact Hrc|done|exact Hcut|done|].
    apply (IHl (r :: rs)); [by constructor|done|done|lia|done|done| |done].
    intros _ r' rs' [= <- <-]. done.
  - unfold small_total in Hsm1. rewrite Hpd1, size_nil in Hsm1. change (2 ^ 29) with 536870912 in *.
    pose proof (size_nonneg (req_line r)).
    inversion Hsv as [|l rs0 s0 out s1 outs0 s'0 Hpr Hsv'|l d rs0 s0 o s1 out s2 outs0 s'0 Hpr1 Hpr2 Hsv']; subst.
    + cbn [req_line req_data] in *. unfold bind in Hcut. rewrite Hpr in Hcut. cbn in Hcut.
      destruct (round_cost _ _ _ _ _ _ _ Hrc Hcut Hf) as [Hf2 Hc2].
      eapply (loop_round fuel); [exact Hrc|done|exact Hcut|by cbn; rewrite <- app_assoc|].
      apply (IHl rs); [done|done|done|lia| | | |done].
      * unfold small_total. cbn. rewrite size_nil. lia.
      * split; cbn; [done|done|rewrite size_nil; lia].
      * intros Hpt r' rs' ->. cbn in *. rewrite size_nil. pose proof (size_nonneg (req_line r')). lia.
    + cbn [req_line req_data] in *. pose proof (size_nonneg d). unfold bind in Hcut. rewrite Hpr1 in Hcut.
      rewrite (proj2 (Z.ltb_lt _ _)) in Hcut by lia.
      destruct (round_cost _ _ _ _ _ _ _ Hrc Hcut Hf) as [Hf2 Hc2].
      eapply (loop_round fuel); [exact Hrc|done|exact Hcut|done|].
      apply (IHd l d [] rs _ _ _ out s2); [apply Hgr|done|done|done|lia| | | |done|done].
      * unfold small_total. cbn. autorewrite with cxx. lia.
      * split; cbn; [done|done|by rewrite Hrest1, <- app_assoc|].
        autorewrite with cxx. lia.
      * destruct t; [left|right]; cbn; [split; [done|rewrite size_nil; lia]|done].
Qed.

Lemma block_step fuel : serves_lines fuel -> serves_blocks fuel -> serves_blocks (S fuel).
Proof.
  intros IHl IHd l d x rs c s chunks out s1 outs s' Hcr Hg Hne Hf Hcost Hsm Had Hds Hpr Hsv.
  pose proof Had as [Hp Hdt Ht Hr]. pose proof Hsm as Hsm'. unfold small_total in Hsm'.
  change (2 ^ 29) with 536870912 in Hsm'.
  pose proof (size_nonneg (data c)). pose proof (size_nonneg (persistentData c)).
  pose proof (size_nonneg (List.concat chunks)). pose proof (size_nonneg (texts rs)).
  pose proof (size_nonneg x). pose proof (size_nonneg d).
  assert (size x + size (persistentData c) + size (List.concat chunks) = size d + 2 + size (texts rs)) as Hlen.
  { apply (f_equal size) in Ht. autorewrite with cxx in Ht. lia. }
  assert (size x <= size (data c)) by (rewrite Hdt; autorewrite with cxx; pose proof (size_nonneg l); lia).
  destruct (receive_more c chunks) as (c1 & ch1 & new & Hrc & Hne1 & Hsm1 & Hd1 & Hpd1 & Hnew & Hrest & Hp1 & Hs1 & Hw);
    [done|done|change (2 ^ 29) with 536870912; destruct (persistFlag c); lia| |].
  { destruct Hds as [[Hpd Hx]|[Hpd _]]; [|by left]. right. intros ->. rewrite Hpd in Hlen.
    cbn in Hlen. rewrite size_nil in Hlen. lia. }
  assert (at_data l d (x ++ new) rs c1 (List.concat ch1)) as Had1.
  { split; [congruence|by rewrite Hd1, Hdt, <- !app_assoc|by rewrite Hpd1, <- Ht, <- app_assoc, Hrest|].
    rewrite Hd1, !size_app. pose proof (size_nonneg new).
    destruct Hw as [(? & -> & -> & ->)|(_ & -> & ->)]; [destruct Hds as [[? _]|[_ ->]]; [done|]|];
      rewrite ?size_nil in *; destruct (persistFlag c); lia. }
  destruct (serve_block l d (x ++ new) rs c1 s ch1 Hcr Had1 Hpd1 Hsm1) as [[Hlt Hcut]|(t & Hrest1 & Hsz & Hcut)].
  - destruct (round_cost _ _ _ _ _ _ _ Hrc Hcut Hf) as [Hf2 Hc2].
    eapply (loop_round fuel); [exact Hrc|done|exact Hcut|done|].
    apply (IHd l d (x ++ new) rs _ _ _ out s1); [done|done|done|done|lia|done|done| |done|done].
    by left.
  - unfold bind in Hcut. rewrite Hpr in Hcut. cbn in Hcut.
    destruct (round_cost _ _ _ _ _ _ _ Hrc Hcut Hf) as [Hf2 Hc2].
    eapply (loop_round fuel); [exact Hrc|done|exact Hcut|by cbn; rewrite <- app_assoc|].
    unfold small_total in Hsm1. rewrite Hpd1, size_nil in Hsm1. change (2 ^ 29) with 536870912 in *.
    pose proof (size_nonneg l).
    apply (IHl rs); [done|done|done|lia| | | |done].
    + unfold small_total. cbn. rewrite size_nil. lia.
    + split; cbn; [done|done|rewrite size_nil; lia].
    + intros Hpt r' rs' ->. cbn in *. rewrite size_nil. pose proof (size_nonneg (req_line r')). lia.
Qed.

Lemma loop_serves fuel : serves_lines fuel /\ serves_blocks fuel.
Proof.
  induction fuel as [|fuel [IHl IHd]]; [|split; [by apply line_step|by apply block_step]].
  split; repeat intro; match goal with H : cost ?c ?e < _ |- _ =>
    unfold cost in H; pose proof (size_nonneg (to_come e)); destruct (_ =? 0) in H; lia end.
Qed.

(** The requests are served in order, each exactly once, whatever the pieces. *)
Lemma connection_serves rs chunks s outs s' :
  Forall good_request rs -> Forall (fun b => b <> []) chunks -> List.concat chunks = texts rs ->
  size (texts rs) < 2 ^ 29 -> served rs s outs s' ->
  exists c', conn_loop process (conn_fuel (stream chunks)) initial_conn (stream chunks) s
             = (Ret (ConnClosed, c'), s') /\ sent c' = outs.
Proof.
  intros Hg Hne Htx Hsz Hsv. change (2 ^ 29) with 536870912 in *.
  destruct (loop_serves (conn_fuel (stream chunks))) as [Hl _].
  apply (Hl rs initial_conn s chunks outs s' Hg Hne).
  - apply initial_fits. rewrite to_come_stream, Htx. unfold UINT_MOD. lia.
  - apply initial_cost.
  - unfold small_total. cbn. rewrite size_nil, Htx. lia.
  - split; cbn; [done|done|rewrite size_nil; lia].
  - intros _ r rs' ->. cbn. rewrite size_nil. pose proof (size_nonneg (req_line r)). lia.
  - done.
Qed.
End Framing.
