(* ===== verification/ThreadPool.v ===== *)
(** * The thread pool of ssock.cpp

    [socketThread] and the part of [socketMain] that hands a descriptor to the pool, as a
    state machine: one action is one access to shared state of one thread. Threads interleave
    in any order.

    [threadNotifyMutex] is held by a worker from [wait] to [l.unlock()] (and given up while
    it is blocked in [wait]); the main thread never takes it. *)

From stdpp Require Import base list gmap.
From Stdlib Require Import ZArith Lia.
From S2P Require Import Prelude.

(** Where a worker is in [socketThread]. *)
Inductive worker_pc :=
  | WEnter             (* [unique_lock<mutex> l(threadNotifyMutex)] or [l.lock()] *)
  | WTest              (* the predicate of [threadNotify.wait] *)
  | WWait              (* the predicate was false: about to block *)
  | WBlocked           (* in [wait], the mutex released *)
  | WLockDesc          (* the predicate was true: [sockDescMutex.lock()] *)
  | WInside            (* [if (sockDescServiceList.size() == 0)] *)
  | WErased (fd : Z)   (* erased from the list: [sockDescMutex.unlock()] *)
  | WRelease (fd : Z)  (* [l.unlock()] *)
  | WStart (fd : Z)    (* [numberActiveThreads++] *)
  | WServe (fd : Z)    (* in [sockHandleIncomingConn(sockFd)] *).

#[export] Instance worker_pc_eq_dec : EqDecision worker_pc.
Proof. solve_decision. Defined.

(** Where the main thread is while it hands over the descriptor [i]. *)
Inductive main_pc :=
  | MIdle
  | MLock (i : Z)     (* [sockDescMutex.lock()] *)
  | MPush (i : Z)     (* [push_back(i)] *)
  | MUnlock           (* [sockDescMutex.unlock()] *)
  | MNotify           (* [threadNotify.notify_one()] *).

#[export] Instance main_pc_eq_dec : EqDecision main_pc.
Proof. solve_decision. Defined.

Inductive holder := ByMain | ByWorker (i : nat).

#[export] Instance holder_eq_dec : EqDecision holder.
Proof. solve_decision. Defined.

(** The shared variables of ssock.cpp and the positions of the threads; [handed] and [taken]
    record the descriptors pushed to and erased from the list, in order. *)
Record Pool := mkPool {
  sockDescServiceList : list Z;
  threadNotifyMutex : option nat;
  sockDescMutex : option holder;
  numberActiveThreads : Z;
  workers : list worker_pc;
  main : main_pc;
  handed : list Z;
  taken : list Z;
}.

Definition initial_pool (n : nat) : Pool := mkPool [] None None 0 (replicate n WEnter) MIdle [] [].

Definition set_worker (i : nat) (pc : worker_pc) (p : Pool) : Pool :=
  mkPool (sockDescServiceList p) (threadNotifyMutex p) (sockDescMutex p) (numberActiveThreads p)
    (<[i := pc]> (workers p)) (main p) (handed p) (taken p).
Definition set_main (pc : main_pc) (p : Pool) : Pool :=
  mkPool (sockDescServiceList p) (threadNotifyMutex p) (sockDescMutex p) (numberActiveThreads p)
    (workers p) pc (handed p) (taken p).
Definition set_notify (o : option nat) (p : Pool) : Pool :=
  mkPool (sockDescServiceList p) o (sockDescMutex p) (numberActiveThreads p)
    (workers p) (main p) (handed p) (taken p).
Definition set_desc (o : option holder) (p : Pool) : Pool :=
  mkPool (sockDescServiceList p) (threadNotifyMutex p) o (numberActiveThreads p)
    (workers p) (main p) (handed p) (taken p).
Definition set_active (n : Z) (p : Pool) : Pool :=
  mkPool (sockDescServiceList p) (threadNotifyMutex p) (sockDescMutex p) n
    (workers p) (main p) (handed p) (taken p).
Definition push_service (fd : Z) (p : Pool) : Pool :=
  mkPool (sockDescServiceList p ++ [fd]) (threadNotifyMutex p) (sockDescMutex p)
    (numberActiveThreads p) (workers p) (main p) (handed p ++ [fd]) (taken p).
Definition pop_service (fd : Z) (rest : list Z) (p : Pool) : Pool :=
  mkPool rest (threadNotifyMutex p) (sockDescMutex p) (numberActiveThreads p)
    (workers p) (main p) (handed p) (taken p ++ [fd]).

(** The next step of worker [i]; [None] while it cannot go on. *)
Definition worker_step (i : nat) (p : Pool) : option Pool :=
  match workers p !! i with
  | Some WEnter =>
    match threadNotifyMutex p with
    | None => Some (set_worker i WTest (set_notify (Some i) p))
    | Some _ => None
    end
  | Some WTest =>
    match sockDescServiceList p with
    | [] => Some (set_worker i WWait p)
    | _ :: _ => Some (set_worker i WLockDesc p)
    end
  | Some WWait => Some (set_worker i WBlocked (set_notify None p))
  | Some WBlocked => None
  | Some WLockDesc =>
    match sockDescMutex p with
    | None => Some (set_worker i WInside (set_desc (Some (ByWorker i)) p))
    | Some _ => None
    end
  | Some WInside =>
    match sockDescServiceList p with
    | [] => Some (set_worker i WTest p)   (* [continue]: [sockDescMutex] stays locked *)
    | fd :: rest => Some (set_worker i (WErased fd) (pop_service fd rest p))
    end
  | Some (WErased fd) => Some (set_worker i (WRelease fd) (set_desc None p))
  | Some (WRelease fd) => Some (set_worker i (WStart fd) (set_notify None p))
  | Some (WStart fd) => Some (set_worker i (WServe fd) (set_active (numberActiveThreads p + 1) p))
  | Some (WServe fd) => Some (set_worker i WEnter (set_active (numberActiveThreads p - 1) p))
  | None => None
  end.

(** [notify_one] wakes one of the threads that are blocked in [wait], if there is one. A
    woken thread takes the mutex again and tests the predicate. *)
Definition main_step (waiter : option nat) (p : Pool) : option Pool :=
  match main p with
  | MIdle => None
  | MLock i =>
    match sockDescMutex p with
    | None => Some (set_main (MPush i) (set_desc (Some ByMain) p))
    | Some _ => None
    end
  | MPush i => Some (set_main MUnlock (push_service i p))
  | MUnlock => Some (set_main MNotify (set_desc None p))
  | MNotify =>
    match waiter with
    | Some i => if decide (workers p !! i = Some WBlocked)
                then Some (set_main MIdle (set_worker i WEnter p)) else None
    | None => if decide (WBlocked ∈ workers p) then None else Some (set_main MIdle p)
    end
  end.

Inductive action :=
  | AWorker (i : nat)
  | AReady (fd : Z)              (* [select] reports the descriptor *)
  | AMain (waiter : option nat)
  | ASpurious (i : nat)          (* a spurious wake-up *).

Definition perform (a : action) (p : Pool) : option Pool :=
  match a with
  | AWorker i => worker_step i p
  | AReady fd => match main p with MIdle => Some (set_main (MLock fd) p) | _ => None end
  | AMain waiter => main_step waiter p
  | ASpurious i =>
    if decide (workers p !! i = Some WBlocked) then Some (set_worker i WEnter p) else None
  end.

(** All actions of a schedule, one after the other. *)
Fixpoint perform_all (l : list action) (p : Pool) : option Pool :=
  match l with
  | [] => Some p
  | a :: l' => match perform a p with Some p' => perform_all l' p' | None => None end
  end.

(** The states an interleaving of [n] workers and the main thread can reach. *)
Inductive reachable (n : nat) : Pool -> Prop :=
  | reach_init : reachable n (initial_pool n)
  | reach_step p a p' : reachable n p -> perform a p = Some p' -> reachable n p'.

Lemma reachable_all n l : forall p p', reachable n p -> perform_all l p = Some p' -> reachable n p'.
Proof.
  induction l as [|a l IH]; intros p p' Hr Hp; [by injection Hp as <-|]. cbn in Hp.
  destruct (perform a p) as [p1|] eqn:E; [|done]. eapply IH; [|done]. by eapply reach_step.
Qed.

(** ** The invariant *)

(** Whether a worker holds the two mutexes at a position. *)
Definition holds_notify (pc : worker_pc) : bool :=
  match pc with WTest | WWait | WLockDesc | WInside | WErased _ | WRelease _ => true | _ => false end.
Definition holds_desc (pc : worker_pc) : bool :=
  match pc with WInside | WErased _ => true | _ => false end.
Definition main_holds_desc (pc : main_pc) : bool :=
  match pc with MPush _ | MUnlock => true | _ => false end.
Definition is_active (pc : worker_pc) : bool := match pc with WServe _ => true | _ => false end.
(** The worker has seen a descriptor in the list and not taken it yet. *)
Definition expects (pc : worker_pc) : bool := match pc with WLockDesc | WInside => true | _ => false end.

Definition count_active (l : list worker_pc) : Z := Z.of_nat (List.length (List.filter is_active l)).

Record pool_inv (p : Pool) : Prop := {
  pi_notify i pc : workers p !! i = Some pc -> (holds_notify pc = true <-> threadNotifyMutex p = Some i);
  pi_desc i pc : workers p !! i = Some pc -> (holds_desc pc = true <-> sockDescMutex p = Some (ByWorker i));
  pi_main : main_holds_desc (main p) = true <-> sockDescMutex p = Some ByMain;
  pi_expect i pc : workers p !! i = Some pc -> expects pc = true -> sockDescServiceList p <> [];
  pi_active : numberActiveThreads p = count_active (workers p);
  pi_order : handed p = taken p ++ sockDescServiceList p;
  pi_holder j : sockDescMutex p = Some (ByWorker j) -> (j < List.length (workers p))%nat;
}.

Lemma count_active_update l i old new : l !! i = Some old ->
  count_active (<[i := new]> l) =
  count_active l - (if is_active old then 1 else 0) + (if is_active new then 1 else 0).
Proof.
  unfold count_active. revert i. induction l as [|x l IH]; intros [|i] Hi; try done.
  - injection Hi as ->. cbn. destruct (is_active old), (is_active new); cbn; lia.
  - specialize (IH i Hi). change (<[S i := new]> (x :: l)) with (x :: <[i := new]> l).
    cbn [List.filter]. destruct (is_active x), (is_active old), (is_active new);
      cbn [List.length]; lia.
Qed.

Lemma initial_inv n : pool_inv (initial_pool n).
Proof.
  split; cbn; try done.
  - intros i pc [-> _]%lookup_replicate. done.
  - intros i pc [-> _]%lookup_replicate. done.
  - intros i pc [-> _]%lookup_replicate. done.
  - unfold count_active. induction n as [|n IH]; [done|]. cbn. exact IH.
Qed.

(** A worker moves to [pc'], the other workers stay, and the mutexes and the list change as
    the positions say. *)
Lemma worker_move p p' i pc pc' :
  pool_inv p -> workers p !! i = Some pc -> workers p' = <[i := pc']> (workers p) -> main p' = main p ->
  (holds_notify pc = holds_notify pc' /\ threadNotifyMutex p' = threadNotifyMutex p
   \/ holds_notify pc = false /\ holds_notify pc' = true /\ threadNotifyMutex p = None
      /\ threadNotifyMutex p' = Some i
   \/ holds_notify pc = true /\ holds_notify pc' = false /\ threadNotifyMutex p' = None) ->
  (holds_desc pc = holds_desc pc' /\ sockDescMutex p' = sockDescMutex p
   \/ holds_desc pc = false /\ holds_desc pc' = true /\ sockDescMutex p = None
      /\ sockDescMutex p' = Some (ByWorker i)
   \/ holds_desc pc = true /\ holds_desc pc' = false /\ sockDescMutex p' = None) ->
  (sockDescServiceList p' = sockDescServiceList p \/ holds_notify pc = true) ->
  (expects pc' = true -> sockDescServiceList p' <> []) ->
  numberActiveThreads p' = numberActiveThreads p - (if is_active pc then 1 else 0)
                           + (if is_active pc' then 1 else 0) ->
  handed p' = taken p' ++ sockDescServiceList p' ->
  pool_inv p'.
Proof.
  intros [In Id Im Ie Ia Io Ih] Hi Hw Hm Hn Hd Hl He Ha Ho.
  assert (forall j pcj, workers p' !! j = Some pcj ->
    j = i /\ pcj = pc' \/ j <> i /\ workers p !! j = Some pcj) as Hj.
  { intros j pcj. rewrite Hw. destruct (decide (j = i)) as [->|Hne].
    - rewrite list_lookup_insert_eq by (by eapply lookup_lt_Some). intros [= ->]. by left.
    - rewrite list_lookup_insert_ne by done. by right. }
  pose proof (In i pc Hi) as Ini. pose proof (Id i pc Hi) as Idi.
  split.
  - intros j pcj [[-> ->]|[Hne Hpj]]%Hj; [naive_solver congruence|].
    pose proof (In j pcj Hpj). naive_solver congruence.
  - intros j pcj [[-> ->]|[Hne Hpj]]%Hj; [naive_solver congruence|].
    pose proof (Id j pcj Hpj). naive_solver congruence.
  - rewrite Hm. naive_solver congruence.
  - intros j pcj [[-> ->]|[Hne Hpj]]%Hj; [done|]. intros Hex.
    destruct Hl as [->|Hl]; [by apply (Ie j pcj)|].
    apply Ini in Hl. pose proof (proj1 (In j pcj Hpj)) as Hnj.
    destruct pcj; try done; rewrite Hl in Hnj; specialize (Hnj eq_refl); congruence.
  - rewrite Ha, Ia, Hw. by rewrite (count_active_update _ _ pc).
  - done.
  - intros j. rewrite Hw, length_insert. apply lookup_lt_Some in Hi. naive_solver congruence.
Qed.

Lemma worker_step_inv i p p' : pool_inv p -> worker_step i p = Some p' -> pool_inv p'.
Proof.
  intros Hp. unfold worker_step. destruct (workers p !! i) as [pc|] eqn:Hi; [|done].
  pose proof Hp as [_ _ _ Ie _ Io _]. pose proof (pi_active p Hp) as Ia.
  destruct pc as [| | | | | |fd|fd|fd|fd]; try done.
  - destruct (threadNotifyMutex p) eqn:En; [done|]. intros [= <-].
    eapply (worker_move p _ i WEnter WTest); try done; cbn; naive_solver lia.
  - destruct (sockDescServiceList p) as [|x l] eqn:El; intros [= <-].
    + eapply (worker_move p _ i WTest WWait); try done; cbn; rewrite ?El in *; naive_solver lia.
    + eapply (worker_move p _ i WTest WLockDesc); try done; cbn; rewrite ?El in *; naive_solver lia.
  - intros [= <-]. eapply (worker_move p _ i WWait WBlocked); try done; cbn; naive_solver lia.
  - destruct (sockDescMutex p) eqn:Ed; [done|]. intros [= <-].
    specialize (Ie i WLockDesc Hi eq_refl).
    eapply (worker_move p _ i WLockDesc WInside); try done; cbn; naive_solver lia.
  - specialize (Ie i WInside Hi eq_refl).
    destruct (sockDescServiceList p) as [|x l] eqn:El; [done|]. intros [= <-].
    eapply (worker_move p _ i WInside (WErased x)); try done; cbn; try naive_solver lia.
    by rewrite Io, <- app_assoc.
  - intros [= <-]. eapply (worker_move p _ i (WErased fd) (WRelease fd)); try done; cbn; naive_solver lia.
  - intros [= <-]. eapply (worker_move p _ i (WRelease fd) (WStart fd)); try done; cbn; naive_solver lia.
  - intros [= <-]. eapply (worker_move p _ i (WStart fd) (WServe fd)); try done; cbn; naive_solver lia.
  - intros [= <-]. eapply (worker_move p _ i (WServe fd) WEnter); try done; cbn; naive_solver lia.
Qed.

Lemma wake_inv i p : pool_inv p -> workers p !! i = Some WBlocked -> pool_inv (set_worker i WEnter p).
Proof.
  intros Hp Hi. pose proof (pi_order p Hp).
  eapply (worker_move p _ i WBlocked WEnter); try done; cbn; naive_solver lia.
Qed.

(** The main thread moves; it changes the list only while it holds [sockDescMutex]. *)
Lemma main_move p p' :
  pool_inv p -> workers p' = workers p -> threadNotifyMutex p' = threadNotifyMutex p ->
  (main_holds_desc (main p) = main_holds_desc (main p') /\ sockDescMutex p' = sockDescMutex p
   \/ main_holds_desc (main p') = true /\ sockDescMutex p = None /\ sockDescMutex p' = Some ByMain
   \/ main_holds_desc (main p) = true /\ main_holds_desc (main p') = false /\ sockDescMutex p' = None) ->
  (exists new, sockDescServiceList p' = sockDescServiceList p ++ new /\ handed p' = handed p ++ new) ->
  taken p' = taken p -> numberActiveThreads p' = numberActiveThreads p -> pool_inv p'.
Proof.
  intros [In Id Im Ie Ia Io Ih] Hw Hn Hd (new & Hl & Hh) Ht Ha. split; rewrite ?Hw, ?Hn.
  - done.
  - intros j pcj Hj. pose proof (Id j pcj Hj). naive_solver congruence.
  - naive_solver congruence.
  - intros j pcj Hj Hex. rewrite Hl. specialize (Ie j pcj Hj Hex). by destruct (sockDescServiceList p).
  - by rewrite Ha.
  - by rewrite Hh, Ht, Hl, Io, app_assoc.
  - naive_solver congruence.
Qed.

Lemma perform_inv a p p' : pool_inv p -> perform a p = Some p' -> pool_inv p'.
Proof.
  intros Hp. destruct a as [i|fd|waiter|i]; cbn [perform].
  - by apply worker_step_inv.
  - destruct (main p) eqn:Em; try done. intros [= <-].
    apply (main_move p); cbn; rewrite ?Em; try done; [by left|exists []; by rewrite !app_nil_r].
  - unfold main_step. destruct (main p) as [|j|j| |] eqn:Em; [done| | | |].
    + destruct (sockDescMutex p) eqn:Ed; [done|]. intros [= <-].
      apply (main_move p); cbn; rewrite ?Em, ?Ed; try done; [by right; left|exists []; by rewrite !app_nil_r].
    + intros [= <-]. apply (main_move p); cbn; rewrite ?Em; try done; [by left|by exists [j]].
    + intros [= <-]. apply (main_move p); cbn; rewrite ?Em; try done;
        [by right; right|exists []; by rewrite !app_nil_r].
    + destruct waiter as [i|]; [case_decide as Hi; [|done]|case_decide; [done|]]; intros [= <-].
      * apply (main_move (set_worker i WEnter p)); cbn; rewrite ?Em; try done;
          [by apply wake_inv|by left|exists []; by rewrite !app_nil_r].
      * apply (main_move p); cbn; rewrite ?Em; try done; [by left|exists []; by rewrite !app_nil_r].
  - case_decide as Hi; [|done]. intros [= <-]. by apply wake_inv.
Qed.

Lemma reachable_inv n p : reachable n p -> pool_inv p.
Proof.
  induction 1 as [|p a p' _ IH Hs]; [apply initial_inv|by eapply perform_inv].
Qed.

Lemma reachable_workers n p : reachable n p -> List.length (workers p) = n.
Proof.
  induction 1 as [|p a p' _ IH Hs]; [apply length_replicate|].
  rewrite <- IH. destruct a as [i|fd|waiter|i]; cbn in Hs;
    unfold worker_step, main_step in Hs; repeat case_match; simplify_eq; cbn;
    rewrite ?length_insert; done.
Qed.

(** ** What the invariant gives *)

(** A worker that gets to the second test of the list finds a descriptor there. *)
Lemma inside_not_empty n p i :
  reachable n p -> workers p !! i = Some WInside -> sockDescServiceList p <> [].
Proof. intros Hr Hi. by apply (pi_expect p (reachable_inv n p Hr) i WInside). Qed.

(** At most one worker is between [wait] and [l.unlock()]. *)
Lemma notify_exclusive n p i j pci pcj :
  reachable n p -> workers p !! i = Some pci -> workers p !! j = Some pcj ->
  holds_notify pci = true -> holds_notify pcj = true -> i = j.
Proof.
  intros Hr Hi Hj Hci Hcj. pose proof (reachable_inv n p Hr) as [In _ _ _ _ _ _].
  apply (In i pci Hi) in Hci. apply (In j pcj Hj) in Hcj. congruence.
Qed.

(** The list is changed under [sockDescMutex], by one thread at a time. *)
Lemma desc_exclusive n p i pci :
  reachable n p -> workers p !! i = Some pci -> holds_desc pci = true -> main_holds_desc (main p) = false.
Proof.
  intros Hr Hi Hc. pose proof (reachable_inv n p Hr) as [_ Id Im _ _ _ _].
  apply (Id i pci Hi) in Hc. destruct (main_holds_desc (main p)); [|done].
  pose proof (proj1 Im eq_refl). congruence.
Qed.

(** A worker that has seen a descriptor, while the main thread is not at the list, serves
    the first one. *)
Lemma takes_first n p i fd rest :
  reachable n p -> workers p !! i = Some WLockDesc -> main_holds_desc (main p) = false ->
  sockDescServiceList p = fd :: rest ->
  exists p', perform_all (replicate 5 (AWorker i)) p = Some p' /\ workers p' !! i = Some (WServe fd)
    /\ sockDescServiceList p' = rest /\ sockDescMutex p' = None /\ threadNotifyMutex p' = None
    /\ taken p' = taken p ++ [fd].
Proof.
  intros Hr Hi Hm Hl. pose proof (reachable_inv n p Hr) as [In Id Im _ _ _ Ih].
  assert (i < List.length (workers p))%nat as Hlt by (by eapply lookup_lt_Some).
  assert (sockDescMutex p = None) as Hd.
  { destruct (sockDescMutex p) as [[|j]|] eqn:E; [|exfalso|done].
    - rewrite (proj2 Im eq_refl) in Hm. done.
    - destruct (lookup_lt_is_Some_2 _ _ (Ih j eq_refl)) as [pcj Hj].
      pose proof (proj2 (Id j pcj Hj) eq_refl) as Hhd.
      assert (holds_notify pcj = true) as Hhn by by destruct pcj.
      apply (In j pcj Hj) in Hhn. pose proof (proj1 (In i WLockDesc Hi) eq_refl). simplify_eq. }
  clear Hr In Id Im Ih. destruct p as [sl tn sd na ws mn hd tk]. cbn in Hi, Hm, Hl, Hlt, Hd. subst sl sd.
  cbn [replicate perform_all perform].
  unfold worker_step at 1; cbn [workers]; rewrite Hi. cbn.
  do 4 (unfold worker_step at 1; cbn; rewrite list_lookup_insert_eq by (rewrite ?length_insert; done); cbn).
  eexists. split; [reflexivity|]. cbn. rewrite list_lookup_insert_eq by (rewrite ?length_insert; done). done.
Qed.

(** ** Lost wake-up *)

(** The schedule in which the only worker tests the list, the main thread pushes and
    notifies, and then the worker blocks. *)
Definition lost_wakeup_schedule : list action :=
  [AWorker 0; AWorker 0; AReady 5; AMain None; AMain None; AMain None; AMain None; AWorker 0].

Example lost_wakeup_run :
  perform_all lost_wakeup_schedule (initial_pool 1) =
  Some (mkPool [5%Z] None None 0 [WBlocked] MIdle [5%Z] []).
Proof. vm_compute. reflexivity. Qed.
