(* ===== verification/SocketMain.v ===== *)
(** * The main thread: [socketMain] of ssock.cpp

    The setup of the listening socket, the [select] loop with its descriptor sets, the
    acceptance of connections and the hand-over of readable descriptors to the pool. The
    results of the system calls are arguments. An [fd_set] is the set of its descriptors;
    the macros are undefined outside [0 .. FD_SETSIZE - 1]. *)

From stdpp Require Import base list gmap sets list_numbers.
From Stdlib Require Import ZArith Lia.
From S2P Require Import Prelude.

Definition FD_SETSIZE : Z := 1024.
Definition SERV_DEF_LIST_PORT : Z := 11211.

(** ** Setup *)

(** The end of the setup: [exit(-1)], with the socket closed or not, or the listening socket
    and the port it is bound to. *)
Inductive setup_end :=
  | SetupExit (closed : option Z)
  | Listening (listen_sd port : Z).

(** What [socket], [setsockopt], [ioctl], [bind] and [listen] return. *)
Definition socket_setup (socket_rc setsockopt_rc ioctl_rc : Z) (bind_rc : Z -> Z) (listen_rc : Z)
    : setup_end :=
  let listen_sd := socket_rc in
  if listen_sd <? 0 then SetupExit None
  else if setsockopt_rc <? 0 then SetupExit (Some listen_sd)
  else if ioctl_rc <? 0 then SetupExit (Some listen_sd)
  else
    let port := SERV_DEF_LIST_PORT in
    if bind_rc port <? 0 then SetupExit (Some listen_sd)
    else if listen_rc <? 0 then SetupExit (Some listen_sd)
    else Listening listen_sd port.

(** ** State *)

Record Server := mkServer {
  master_set : gset Z;
  max_sd : Z;
  service_list : list Z;   (* descriptors pushed to [sockDescServiceList] *)
  closed_fds : list Z;     (* descriptors given to [close] *)
}.

Definition set_master_set (x : gset Z) (v : Server) : Server :=
  mkServer x (max_sd v) (service_list v) (closed_fds v).
Definition set_max_sd (x : Z) (v : Server) : Server :=
  mkServer (master_set v) x (service_list v) (closed_fds v).
Definition push_fd (fd : Z) (v : Server) : Server :=
  mkServer (master_set v) (max_sd v) (service_list v ++ [fd]) (closed_fds v).
Definition close_fd (fd : Z) (v : Server) : Server :=
  mkServer (master_set v) (max_sd v) (service_list v) (closed_fds v ++ [fd]).

Definition in_fd_range (fd : Z) : bool := (0 <=? fd) && (fd <? FD_SETSIZE).

Definition FD_SET (fd : Z) : ST Server unit :=
  if in_fd_range fd then modify (fun v => set_master_set ({[fd]} ∪ master_set v) v)
  else stuck Undefined.
Definition FD_CLR (fd : Z) : ST Server unit :=
  if in_fd_range fd then modify (fun v => set_master_set (master_set v ∖ {[fd]}) v)
  else stuck Undefined.
Definition FD_ISSET (fd : Z) (s : gset Z) : ST Server bool :=
  if in_fd_range fd then ret (bool_decide (fd ∈ s)) else stuck Undefined.

(** The initialisation of the master set. *)
Definition init_server (listen_sd : Z) : ST Server unit :=
  modify (set_master_set ∅);;;
  modify (set_max_sd listen_sd);;;
  FD_SET listen_sd.

(** ** One round of the loop *)

(** What [accept] returns on the listening socket until it fails: new descriptors, each with
    the value of [numberActiveThreads] read after it, and whether the failure is another one
    than [EWOULDBLOCK]. *)
Record accept_results := mkAccepts {
  accepted : list (Z * Z);
  accept_failed : bool;
}.

Section Loop.
Variable gServWorkerThreads : Z.

(** The body of the accept loop for one connection. *)
Definition accept_one (new_sd numberActiveThreads : Z) : ST Server unit :=
  if gServWorkerThreads <=? numberActiveThreads then modify (close_fd new_sd)
  else
    FD_SET new_sd;;;
    let* m := gets max_sd in
    if m <? new_sd then modify (set_max_sd new_sd) else ret tt.

Fixpoint accept_all (l : list (Z * Z)) : ST Server unit :=
  match l with
  | [] => ret tt
  | (new_sd, active) :: l' => accept_one new_sd active;;; accept_all l'
  end.

(** [while (FD_ISSET(max_sd, &master_set) == FALSE) max_sd -= 1;] *)
Fixpoint lower_max (fuel : nat) : ST Server unit :=
  match fuel with
  | O => stuck OutOfFuel
  | S fuel' =>
    let* m := gets max_sd in
    let* s := gets master_set in
    let* isset := FD_ISSET m s in
    if isset : bool then ret tt
    else modify (set_max_sd (m - 1));;; lower_max fuel'
  end.

(** A readable connection: hand it to the pool and take it out of the set. *)
Definition hand_over (i : Z) : ST Server unit :=
  modify (push_fd i);;;
  FD_CLR i;;;
  let* m := gets max_sd in
  if i =? m then lower_max (S (Z.to_nat FD_SETSIZE)) else ret tt.

(** The loop over the descriptors; gives [end_server]. *)
Fixpoint scan (fuel : nat) (listen_sd : Z) (working_set : gset Z) (acc : accept_results)
    (i desc_ready : Z) (end_server : bool) : ST Server bool :=
  match fuel with
  | O => stuck OutOfFuel
  | S fuel' =>
    let* m := gets max_sd in
    if (i <=? m) && (0 <? desc_ready) then
      let* isset := FD_ISSET i working_set in
      if isset : bool then
        let desc_ready := desc_ready - 1 in
        if i =? listen_sd then
          accept_all (accepted acc);;;
          scan fuel' listen_sd working_set acc (i + 1) desc_ready (end_server || accept_failed acc)
        else
          hand_over i;;;
          scan fuel' listen_sd working_set acc (i + 1) desc_ready end_server
      else scan fuel' listen_sd working_set acc (i + 1) desc_ready end_server
    else ret end_server
  end.

(** What [select] does: it fails, or leaves the readable descriptors in [working_set] and
    returns their number. *)
Inductive select_result :=
  | SelectFailed
  | SelectReady (ready : gset Z) (acc : accept_results).

(** Descriptors below [FD_SETSIZE], so that many rounds are enough. *)
Definition scan_fuel : nat := S (Z.to_nat FD_SETSIZE).

(** The cleanup after the loop. *)
Definition cleanup : ST Server unit :=
  let* m := gets max_sd in
  let* s := gets master_set in
  modify (fun v => mkServer (master_set v) (max_sd v) (service_list v)
    (closed_fds v ++ List.filter (fun i => bool_decide (i ∈ s)) (seqZ 0 (m + 1)))).

(** The loop; it waits in [select] when no further result is given ([None]), and otherwise
    ends with the cleanup. *)
Fixpoint select_loop (listen_sd : Z) (results : list select_result) : ST Server (option unit) :=
  match results with
  | [] => ret None
  | SelectFailed :: _ => cleanup;;; ret (Some tt)
  | SelectReady ready acc :: results' =>
    let* end_server := scan scan_fuel listen_sd ready acc 0 (Z.of_nat (size ready)) false in
    if end_server : bool then cleanup;;; ret (Some tt)
    else select_loop listen_sd results'
  end.

(** ** The invariant of the descriptor set *)

Record server_inv (listen_sd : Z) (v : Server) : Prop := {
  si_listen : listen_sd ∈ master_set v;
  si_range fd : fd ∈ master_set v -> 0 <= fd <= max_sd v;
  si_max : max_sd v ∈ master_set v;
  si_size : max_sd v < FD_SETSIZE;
}.

Lemma in_fd_range_true fd : 0 <= fd < FD_SETSIZE -> in_fd_range fd = true.
Proof. intros. unfold in_fd_range. apply andb_true_iff. lia. Qed.

Lemma init_server_inv listen_sd v : 0 <= listen_sd < FD_SETSIZE ->
  exists v', init_server listen_sd v = (Ret tt, v') /\ server_inv listen_sd v'
    /\ master_set v' = {[listen_sd]} /\ service_list v' = service_list v.
Proof.
  intros Hl. unfold init_server, FD_SET. rewrite in_fd_range_true by done.
  eexists. split; [reflexivity|]. cbn. split; [|split; [set_solver|done]].
  split; cbn; [set_solver| |set_solver|lia]. intros fd. rewrite right_id_L, elem_of_singleton by apply _. lia.
Qed.

(** The new connections that are kept, as descriptors. *)
Definition kept_fds (l : list (Z * Z)) : list Z :=
  List.map fst (List.filter (fun x => x.2 <? gServWorkerThreads) l).

Lemma accept_one_spec listen_sd fd act v :
  server_inv listen_sd v -> 0 <= fd < FD_SETSIZE ->
  exists v', accept_one fd act v = (Ret tt, v') /\ server_inv listen_sd v'
    /\ master_set v' = (if act <? gServWorkerThreads then {[fd]} else ∅) ∪ master_set v
    /\ service_list v' = service_list v.
Proof.
  intros [Hl Hr Hm Hs] Hfd. unfold accept_one.
  destruct (Z.leb_spec gServWorkerThreads act).
  - rewrite (proj2 (Z.ltb_ge _ _)) by lia. eexists. split; [reflexivity|]. cbn.
    split; [by split|]. split; [by rewrite left_id_L by apply _|done].
  - rewrite (proj2 (Z.ltb_lt _ _)) by lia. unfold FD_SET. rewrite in_fd_range_true by done.
    unfold bind, modify, gets. cbn [max_sd set_master_set].
    destruct (Z.ltb_spec (max_sd v) fd); (eexists; split; [reflexivity|]; cbn; split; [|done];
      split; cbn; [set_solver|intros x [->%elem_of_singleton|Hx%Hr]%elem_of_union; lia|set_solver|lia]).
Qed.

Lemma accept_all_spec listen_sd l : forall v,
  server_inv listen_sd v -> Forall (fun x => 0 <= x.1 < FD_SETSIZE) l ->
  exists v', accept_all l v = (Ret tt, v') /\ server_inv listen_sd v'
    /\ master_set v' = list_to_set (kept_fds l) ∪ master_set v /\ service_list v' = service_list v.
Proof.
  induction l as [|[fd act] l IH]; intros v Hv Hl.
  - exists v. cbn. split; [done|]. split; [done|]. split; [set_solver|done].
  - apply Forall_cons in Hl as [Hfd Hl]. cbn [accept_all].
    destruct (accept_one_spec listen_sd fd act v Hv Hfd) as (v1 & H1 & Hv1 & Hm1 & Hs1).
    rewrite (bind_Ret _ _ _ _ _ H1). destruct (IH v1 Hv1 Hl) as (v2 & H2 & Hv2 & Hm2 & Hs2).
    exists v2. split; [done|]. split; [done|]. split; [|congruence].
    rewrite Hm2, Hm1. unfold kept_fds. cbn [List.filter snd]. destruct (act <? gServWorkerThreads); set_solver.
Qed.

(** The loop that lowers [max_sd] stops at a descriptor of the set. *)
Lemma lower_max_spec listen_sd fuel : forall v,
  listen_sd ∈ master_set v -> (forall fd, fd ∈ master_set v -> 0 <= fd <= max_sd v) ->
  max_sd v < FD_SETSIZE -> max_sd v - listen_sd < Z.of_nat fuel ->
  exists v', lower_max fuel v = (Ret tt, v') /\ server_inv listen_sd v'
    /\ master_set v' = master_set v /\ service_list v' = service_list v.
Proof.
  induction fuel as [|fuel IH]; intros v Hl Hr Hs Hf; pose proof (Hr _ Hl); [lia|].
  cbn [lower_max]. unfold bind, gets, FD_ISSET. rewrite in_fd_range_true by lia. unfold ret.
  case_bool_decide as Hin.
  - exists v. split; [done|]. by split; [split|].
  - unfold modify.
    assert (forall fd, fd ∈ master_set v -> 0 <= fd <= max_sd v - 1) as Hr1.
    { intros fd Hfd. pose proof (Hr fd Hfd). assert (fd <> max_sd v) by congruence. lia. }
    destruct (IH (set_max_sd (max_sd v - 1) v)) as (v' & Hrun & Hrest); cbn;
      [done|done|lia|lia|]. exists v'. by rewrite Hrun.
Qed.

Lemma hand_over_spec listen_sd i v :
  server_inv listen_sd v -> i ∈ master_set v -> i <> listen_sd ->
  exists v', hand_over i v = (Ret tt, v') /\ server_inv listen_sd v'
    /\ master_set v' = master_set v ∖ {[i]} /\ service_list v' = service_list v ++ [i].
Proof.
  intros [Hl Hr Hm Hs] Hi Hne. unfold hand_over. pose proof (Hr i Hi). pose proof (Hr _ Hl).
  unfold FD_CLR. rewrite in_fd_range_true by lia. unfold bind, modify, gets.
  cbn [max_sd push_fd set_master_set].
  destruct (Z.eqb_spec i (max_sd v)) as [Heq|Hneq].
  - destruct (lower_max_spec listen_sd (S (Z.to_nat FD_SETSIZE)) (set_master_set (master_set v ∖ {[i]}) (push_fd i v)))
      as (v' & Hrun & Hv' & Hm' & Hs');
      cbn [master_set max_sd set_master_set push_fd service_list] in *; [set_solver| |done|unfold FD_SETSIZE in *; lia|].
    + intros fd [Hfd _]%elem_of_difference. by apply Hr.
    + exists v'. split; [exact Hrun|done].
  - eexists. split; [reflexivity|]. cbn. split; [|done].
    split; cbn; [set_solver| |set_solver|done]. intros fd [Hfd _]%elem_of_difference. by apply Hr.
Qed.

(** The descriptors from [i] on that a round hands to the pool. *)
Definition to_hand (listen_sd : Z) (ready : gset Z) (i : Z) (n : nat) : list Z :=
  List.filter (fun j => bool_decide (j ∈ ready) && negb (j =? listen_sd)) (seqZ i (Z.of_nat n)).

Definition from (i : Z) (s : gset Z) : gset Z := filter (fun x => i <= x) s.

Lemma from_cons i s : i ∈ s -> from i s = {[i]} ∪ from (i + 1) s.
Proof.
  intros Hi. apply set_eq. intros x. unfold from. rewrite elem_of_union, !elem_of_filter, elem_of_singleton.
    split; [intros [Hx ?]; destruct (decide (x = i)); [by left|right; split; [lia|done]]|].
  intros [->|[? ?]]; [split; [lia|done]|split; [lia|done]].
Qed.

Lemma from_next i s : i ∉ from (i + 1) s.
Proof. unfold from. intros [? _]%elem_of_filter. lia. Qed.

Lemma from_in i s : i ∈ s -> size (from i s) = S (size (from (i + 1) s)).
Proof.
  intros Hi. rewrite from_cons, size_union, size_singleton by (done || pose proof (from_next i s); set_solver). done.
Qed.

Lemma from_out i s : i ∉ s -> from i s = from (i + 1) s.
Proof.
  intros Hi. apply set_eq. intros x. unfold from. rewrite !elem_of_filter.
  split; intros [? ?]; (split; [|done]); [|lia]. assert (x <> i) by congruence. lia.
Qed.

Lemma to_hand_nil listen_sd ready i n : from i ready = ∅ -> to_hand listen_sd ready i n = [].
Proof.
  unfold to_hand. intros Hf. assert (forall j, i <= j -> j ∉ ready) as Hno.
  { intros j Hj Hin. assert (j ∈ from i ready) as Hx by (by apply elem_of_filter). rewrite Hf in Hx. set_solver. }
  assert (forall k, i <= k -> List.filter (fun j => bool_decide (j ∈ ready) && negb (j =? listen_sd))
    (seqZ k (Z.of_nat n)) = []) as H; [|by apply H].
  induction n as [|n IH]; intros k Hk; [done|].
  rewrite seqZ_cons by lia. cbn [List.filter]. rewrite bool_decide_eq_false_2 by (by apply Hno). cbn [andb].
  replace (Z.pred (Z.of_nat (S n))) with (Z.of_nat n) by lia. apply IH. lia.
Qed.

Lemma to_hand_cons listen_sd ready i n :
  to_hand listen_sd ready i (S n) =
  (if bool_decide (i ∈ ready) && negb (i =? listen_sd) then [i] else []) ++ to_hand listen_sd ready (i + 1) n.
Proof.
  unfold to_hand. rewrite seqZ_cons by lia. cbn [List.filter].
  replace (Z.pred (Z.of_nat (S n))) with (Z.of_nat n) by lia.
  replace (Z.succ i) with (i + 1) by lia. by destruct (_ && _).
Qed.

(** The set after a round. *)
Definition after_round (listen_sd : Z) (ready : gset Z) (new : list Z) (m m' : gset Z) : Prop :=
  forall fd, fd ∈ m' <-> fd ∈ m /\ (fd ∈ ready -> fd = listen_sd) \/ listen_sd ∈ ready /\ fd ∈ new.

(** A round hands every readable connection to the pool, in ascending order. *)
Lemma scan_spec listen_sd ready acc fuel : forall i es v,
  server_inv listen_sd v -> from i ready ⊆ master_set v -> 0 <= i <= FD_SETSIZE ->
  Forall (fun x => 0 <= x.1 < FD_SETSIZE) (accepted acc) ->
  (forall fd, fd ∈ kept_fds (accepted acc) -> fd ∉ ready) ->
  FD_SETSIZE - i < Z.of_nat fuel ->
  exists v', scan fuel listen_sd ready acc i (Z.of_nat (size (from i ready))) es v
      = (Ret (es || (bool_decide (listen_sd ∈ from i ready) && accept_failed acc)), v')
    /\ server_inv listen_sd v'
    /\ service_list v' = service_list v ++ to_hand listen_sd ready i fuel
    /\ after_round listen_sd (from i ready) (kept_fds (accepted acc)) (master_set v) (master_set v').
Proof.
  induction fuel as [|fuel IH]; intros i es v Hv Hsub Hi Hacc Hdis Hf; [lia|].
  pose proof Hv as [Hl Hr Hm Hs]. cbn [scan]. unfold bind at 1, gets at 1.
  destruct (decide (from i ready = ∅)) as [He|He].
  { rewrite He, size_empty, andb_false_r. exists v. rewrite bool_decide_eq_false_2 by set_solver.
    rewrite orb_false_r. split; [done|]. split; [done|]. split; [by rewrite to_hand_nil, app_nil_r|].
    intros fd. set_solver. }
  destruct (set_choose_L _ He) as [x Hx]. pose proof (Hr x (Hsub x Hx)) as Hxr.
  assert (i <= x) as Hix by (apply elem_of_filter in Hx; apply Hx).
  assert (0 < size (from i ready))%nat as Hpos.
  { destruct (size (from i ready)) eqn:E; [|lia]. apply size_empty_inv in E. set_solver. }
  rewrite (proj2 (Z.leb_le _ _)), (proj2 (Z.ltb_lt _ _)) by lia. cbn [andb].
  unfold bind at 1, FD_ISSET. rewrite in_fd_range_true by lia. unfold ret at 1.
  rewrite to_hand_cons. case_bool_decide as Hin; cbn [andb].
  - pose proof (from_cons i ready Hin) as Hfi. pose proof (from_next i ready) as Hni.
    rewrite (from_in i ready Hin). replace (Z.of_nat (S _) - 1) with (Z.of_nat (size (from (i + 1) ready))) by lia.
    assert (i ∈ master_set v) as Him by (apply Hsub; rewrite Hfi; set_solver).
    destruct (Z.eqb_spec i listen_sd) as [->|Hne]; cbn [negb app].
    + destruct (accept_all_spec listen_sd (accepted acc) v Hv Hacc) as (v1 & H1 & Hv1 & Hm1 & Hs1).
      rewrite (bind_Ret _ _ _ _ _ H1).
      destruct (IH (listen_sd + 1) (es || accept_failed acc) v1) as (v2 & H2 & Hv2 & Hs2 & Hm2);
        [done|rewrite Hm1; set_solver|lia|done|done|lia|].
      exists v2. rewrite H2. rewrite (bool_decide_eq_false_2 _ Hni), bool_decide_eq_true_2 by (rewrite Hfi; set_solver).
      cbn [andb]. rewrite orb_false_r. split; [done|]. split; [done|]. split; [by rewrite Hs2, Hs1|].
      intros fd. rewrite (Hm2 fd), Hm1, Hfi. set_solver.
    + destruct (hand_over_spec listen_sd i v Hv Him Hne) as (v1 & H1 & Hv1 & Hm1 & Hs1).
      rewrite (bind_Ret _ _ _ _ _ H1).
      destruct (IH (i + 1) es v1) as (v2 & H2 & Hv2 & Hs2 & Hm2);
        [done|rewrite Hm1; set_solver|lia|done|done|lia|].
      exists v2. rewrite H2. split; [|split; [done|split; [by rewrite Hs2, Hs1, <- app_assoc|]]].
      * do 4 f_equal. apply bool_decide_ext. rewrite Hfi. set_solver.
      * intros fd. rewrite (Hm2 fd), Hm1, Hfi.
        assert (fd ∈ kept_fds (accepted acc) -> fd <> i) by (intros ? ->; by eapply Hdis). set_solver.
  - rewrite (from_out i ready Hin) in *.
    destruct (IH (i + 1) es v) as (v2 & H2 & Hv2 & Hs2 & Hm2); [done|done|lia|done|done|lia|].
    exists v2. rewrite H2. done.
Qed.
End Loop.
