(* ===== verification/Main.v ===== *)
(** * The command line: [main] of smain.cpp

    [main] sets the three globals, reads its options and calls [socketMain]. The arguments
    are the list [argv]; [argv[argc]] is the null pointer, and a C string ends with a null
    character. *)

From stdpp Require Import base list gmap strings.
From Stdlib Require Import ZArith Lia Ascii String.
From S2P Require Import Prelude CxxString DbLru SocketMain.

Definition SERV_DEF_MEM_LIMIT : Z := 7000.
Definition SERV_DEF_WORKER_THREADS : Z := 100.

(** The globals of smain.cpp. *)
Record Options := mkOptions {
  opt_gServMemLimit : Z;
  opt_gServListPort : Z;
  opt_gServWorkerThreads : Z;
}.

Definition default_options : Options :=
  mkOptions SERV_DEF_MEM_LIMIT SERV_DEF_LIST_PORT SERV_DEF_WORKER_THREADS.

Definition set_opt_port (x : Z) (o : Options) : Options :=
  mkOptions (opt_gServMemLimit o) x (opt_gServWorkerThreads o).
Definition set_opt_workers (x : Z) (o : Options) : Options :=
  mkOptions (opt_gServMemLimit o) (opt_gServListPort o) x.

Inductive main_end :=
  | ExitFailure
  | ExitSuccess                (* after the help text *)
  | RunServer (opts : Options) (* [socketMain()] *).

Definition u16 (x : Z) : Z := x mod 65536.

(** The [j]-th character of a C string. *)
Definition c_char (s : cstring) (j : nat) : ascii :=
  match s !! j with Some c => c | None => ascii_of_nat 0 end.

Definition DASH : ascii := ascii_of_nat 45.

(** [atoi]: blanks, a sign, digits; a value that is no [int] is undefined. *)
Definition atoi (s : cstring) : outcome Z :=
  let s := skip_spaces s in
  let n :=
    match s with
    | c :: s' =>
      if Ascii.eqb c DASH then - dec_value (digit_prefix s')
      else if Ascii.eqb c (ascii_of_nat 43) then dec_value (digit_prefix s')
      else dec_value (digit_prefix s)
    | [] => 0
    end in
  if (-2147483648 <=? n) && (n <=? 2147483647) then Ret n else Stuck Undefined.

(** [argv[i]] handed to [atoi]: the null pointer is undefined. *)
Definition atoi_arg (argv : list cstring) (i : Z) : outcome Z :=
  match argv !! Z.to_nat i with Some s => atoi s | None => Stuck Undefined end.

(** [(optionIndex >= argc) || (argv[optionIndex][0] == '-')] *)
Definition value_missing (argv : list cstring) (i : Z) : bool :=
  match argv !! Z.to_nat i with
  | Some s => Ascii.eqb (c_char s 0) DASH
  | None => true
  end.

(** The loop over the options. *)
Fixpoint parse_options (fuel : nat) (argv : list cstring) (optionIndex : Z) (o : Options)
    : outcome main_end :=
  match fuel with
  | O => Stuck OutOfFuel
  | S fuel' =>
    match argv !! Z.to_nat optionIndex with
    | None => Ret (RunServer o)
    | Some arg =>
      if negb (Ascii.eqb (c_char arg 0) DASH) then Ret ExitFailure
      else if Ascii.eqb (c_char arg 1) (ascii_of_nat 116) then
        let optionIndex := u16 (optionIndex + 1) in
        if value_missing argv optionIndex then Ret ExitFailure else
        let? n := atoi_arg argv optionIndex in
        parse_options fuel' argv (u16 (optionIndex + 1)) (set_opt_workers (u32 n) o)
      else if Ascii.eqb (c_char arg 1) (ascii_of_nat 112) then
        let optionIndex := u16 (optionIndex + 1) in
        let? n := atoi_arg argv optionIndex in
        let o := set_opt_port (u32 n) o in
        if value_missing argv optionIndex then Ret ExitFailure else
        let? n := atoi_arg argv optionIndex in
        parse_options fuel' argv (u16 (optionIndex + 1)) (set_opt_port (u32 n) o)
      else if Ascii.eqb (c_char arg 1) (ascii_of_nat 104) then Ret ExitSuccess
      else parse_options fuel' argv optionIndex o
    end
  end.

Definition main_run (fuel : nat) (argv : list cstring) : outcome main_end :=
  if (List.length argv =? 1)%nat then Ret (RunServer default_options)
  else parse_options fuel argv 1 default_options.

(** ** Options that are known *)

(** [-t] or [-p] and a number, as a user writes them. *)
Inductive known_option :=
  | OptThreads (n : Z)
  | OptPort (n : Z).

Definition option_text (x : known_option) : list cstring :=
  match x with
  | OptThreads n => [lit "-t"; to_string n]
  | OptPort n => [lit "-p"; to_string n]
  end.

Definition option_value (x : known_option) : Z := match x with OptThreads n | OptPort n => n end.

Definition apply_option (o : Options) (x : known_option) : Options :=
  match x with
  | OptThreads n => set_opt_workers n o
  | OptPort n => set_opt_port n o
  end.

Lemma atoi_to_string n : 0 <= n <= 2147483647 -> atoi (to_string n) = Ret n.
Proof.
  intros Hn. destruct (to_string_spec n) as (Hval & Hall & Hne); [lia|]. unfold atoi.
  destruct (to_string n) as [|c ds]; [done|].
  assert (isdigit c = true) as Hc by (cbn in Hall; by apply andb_prop in Hall as [? _]).
  destruct (isdigit_plain c Hc) as (Hs & Hm & Hp). cbn [skip_spaces]. rewrite Hs.
  change (Ascii.eqb c DASH) with (Ascii.eqb c "-"). rewrite Hm.
  change (Ascii.eqb c (ascii_of_nat 43)) with (Ascii.eqb c "+"). rewrite Hp.
  assert (digit_prefix (c :: ds) = c :: ds) as ->.
  { rewrite <- (app_nil_r (c :: ds)) at 1. by apply digit_prefix_app. }
  rewrite Hval. rewrite (proj2 (Z.leb_le _ _)), (proj2 (Z.leb_le _ _)) by lia. done.
Qed.

Lemma to_string_not_dash n : 0 <= n -> Ascii.eqb (c_char (to_string n) 0) DASH = false.
Proof.
  intros Hn. destruct (to_string_spec n) as (_ & Hall & Hne); [lia|].
  destruct (to_string n) as [|c ds]; [done|]. cbn in Hall. apply andb_prop in Hall as [Hc _].
  apply (isdigit_plain c Hc).
Qed.

(** One option and its value move the index by two. *)
Lemma parse_known fuel argv pre x rest o :
  argv = pre ++ option_text x ++ rest -> Z.of_nat (List.length argv) < 65536 ->
  0 <= option_value x <= 2147483647 ->
  parse_options (S fuel) argv (Z.of_nat (List.length pre)) o =
  parse_options fuel argv (Z.of_nat (List.length pre + 2)) (apply_option o x).
Proof.
  intros Hargv Hlen Hv.
  assert (List.length argv = List.length pre + 2 + List.length rest)%nat as Hl
    by (rewrite Hargv, !length_app; destruct x; cbn; lia).
  assert (forall j y, option_text x !! j = Some y -> argv !! (List.length pre + j)%nat = Some y) as Hlk.
  { intros j y Hy. rewrite Hargv, lookup_app_r by lia.
    replace (List.length pre + j - List.length pre)%nat with j by lia. by apply lookup_app_l_Some. }
  set (i := Z.of_nat (List.length pre)).
  assert (Z.to_nat i = List.length pre + 0)%nat as Hi0 by (unfold i; lia).
  assert (Z.to_nat (i + 1) = List.length pre + 1)%nat as Hi1 by (unfold i; lia).
  assert (u16 (i + 1) = i + 1) as Hu1 by (apply Z.mod_small; unfold i; lia).
  assert (u16 (i + 1 + 1) = Z.of_nat (List.length pre + 2)) as Hu2
    by (unfold u16, i; rewrite Z.mod_small; lia).
  cbn [parse_options]. rewrite Hi0. destruct x as [n|n]; cbn [option_text option_value apply_option] in *.
  - rewrite (Hlk 0%nat (lit "-t") eq_refl). cbn -[parse_options].
    rewrite Hu1, Hu2. unfold value_missing, atoi_arg. rewrite Hi1, (Hlk 1%nat (to_string n) eq_refl).
    rewrite to_string_not_dash, atoi_to_string by lia. cbn [obind]. by rewrite u32_small by (unfold UINT_MOD; lia).
  - rewrite (Hlk 0%nat (lit "-p") eq_refl). cbn -[parse_options].
    rewrite Hu1, Hu2. unfold value_missing, atoi_arg. rewrite Hi1, (Hlk 1%nat (to_string n) eq_refl).
    rewrite to_string_not_dash, atoi_to_string by lia. cbn [obind]. by rewrite !u32_small by (unfold UINT_MOD; lia).
Qed.

Definition option_line (xs : list known_option) : list cstring := List.concat (List.map option_text xs).

Lemma parse_known_all xs : forall fuel argv pre o,
  argv = pre ++ option_line xs -> Z.of_nat (List.length argv) < 65536 ->
  Forall (fun x => 0 <= option_value x <= 2147483647) xs -> (List.length xs < fuel)%nat ->
  parse_options fuel argv (Z.of_nat (List.length pre)) o = Ret (RunServer (fold_left apply_option xs o)).
Proof.
  induction xs as [|x xs IH]; intros fuel argv pre o Hargv Hlen Hv Hf;
    (destruct fuel as [|fuel]; [cbn in Hf; lia|]).
  - cbn [parse_options fold_left]. rewrite Hargv, app_nil_r, Nat2Z.id.
    by rewrite lookup_ge_None_2.
  - apply Forall_cons in Hv as [Hx Hv].
    rewrite (parse_known fuel argv pre x (option_line xs)) by done.
    assert (List.length (option_text x) = 2%nat) as Hl by by destruct x.
    rewrite <- Hl, <- length_app. cbn [fold_left]. apply IH; [|done|done|cbn in Hf; lia].
    by rewrite Hargv, <- app_assoc.
Qed.

(** ** An option that is not known *)

Definition unknown_option (arg : cstring) : Prop :=
  c_char arg 0 = DASH /\ c_char arg 1 <> ascii_of_nat 116 /\ c_char arg 1 <> ascii_of_nat 112
  /\ c_char arg 1 <> ascii_of_nat 104.

(** The index does not move: the loop never ends. *)
Lemma unknown_loops fuel argv i arg o :
  argv !! Z.to_nat i = Some arg -> unknown_option arg -> parse_options fuel argv i o = Stuck OutOfFuel.
Proof.
  intros Ha (H0 & Ht & Hp & Hh). induction fuel as [|fuel IH]; [done|]. cbn [parse_options].
  rewrite Ha, H0. rewrite (proj2 (Ascii.eqb_neq _ _) Ht), (proj2 (Ascii.eqb_neq _ _) Hp),
    (proj2 (Ascii.eqb_neq _ _) Hh). exact IH.
Qed.
