(* ===== verification/Demo.v ===== *)
(** * A concrete machine

    An environment and states at which the theorems are applied: the 32-bit data model, a
    clock that stands at 1000, no failing allocation. *)

From stdpp Require Import base list gmap strings.
From Stdlib Require Import ZArith Lia Ascii String.
From S2P Require Import Prelude CxxString MersenneTwister DbLru DbLruInv DbLruRefine.

#[local] Existing Instance ILP32.

Definition demo_env : Env := {|
  clock := fun _ => 1000;
  emplace_throws := fun _ => false;
  singular_eq_end := true;
  uninit_ulong := 0;
  uninit_uint := 0;
  uninit_bool := false;
  getpid := 4242;
|}.
#[local] Existing Instance demo_env.

Lemma demo_calm : CalmEnv.
Proof. split; cbn; unfold time_ok; intros; [vm_compute; split; [by intros [=]|done]|lia|done]. Qed.

(** The state of a server that has just started, and the same after [key] was stored. *)
Definition demo_world : World := initial_world 7000 100.
Definition demo_key : cstring := lit "key".
Definition demo_stored (v : cstring) : World :=
  snd (dbInsertElement demo_key (lit "0") [] v 0 demo_world).

Lemma demo_world_ready n : Z.of_nat n < 4294967296 -> ready_for n demo_world.
Proof.
  intros Hn. split; [apply initial_quiet|]. split; [apply initial_wf|]. cbn. unfold ULONG_MOD. cbn.
  unfold UINT_MOD. lia.
Qed.

Lemma demo_time_ok w : time_ok (now w).
Proof. apply (@clock_range _ _ demo_calm). Qed.

Lemma demo_stored_ready v n : roomy demo_world demo_key (lit "0") v -> Z.of_nat n < 4294967290 ->
  ready_for n (demo_stored v).
Proof.
  intros Hro Hn.
  destruct (insert_roomy demo_key (lit "0") [] v 0 demo_world) as (w' & nc & Hrun & Hq & Hw & Ht & _);
    [by apply (ready_for_ready 0), demo_world_ready|done|done|].
  unfold demo_stored. rewrite Hrun. cbn [snd]. split; [done|]. split; [done|]. rewrite Ht. cbn.
  unfold ULONG_MOD. cbn. unfold UINT_MOD. lia.
Qed.

Lemma demo_roomy w : gStoredSize w <= 1000 -> 0 <= gStoredSize w -> gServMemLimit w = 7000 ->
  forall k f v, size k + size f + size v <= 200 -> roomy w k f v.
Proof.
  intros H1 H2 H3 k f v Hs. unfold roomy. rewrite H3. unfold UINT_MOD.
  pose proof (size_nonneg k). pose proof (size_nonneg f). pose proof (size_nonneg v).
  change sizeof_ulong with 4. lia.
Qed.

Lemma demo_stored_for v n : size v <= 100 -> Z.of_nat n < 4294967290 -> ready_for n (demo_stored v).
Proof.
  intros Hv. apply demo_stored_ready, demo_roomy; [cbn; lia..|]. change (size demo_key) with 3.
  change (size (lit "0")) with 1. lia.
Qed.

Lemma demo_stored_now v : size v <= 100 -> ready (demo_stored v).
Proof. intros. apply (ready_for_ready 0), demo_stored_for; [done|cbn; lia]. Qed.

(** A flush that is pending does not touch the tables. *)
Lemma flush_set_ready w : ready w -> ready (set_gIsFlushAllSet true w).
Proof. intros (Hq & Hw & HT). split; [exact Hq|]. split; [|exact HT]. destruct Hw. by split. Qed.

Lemma demo_stored_run v : size v <= 100 ->
  dbInsertElement demo_key (lit "0") [] v 0 demo_world = (Ret SUCCESS, demo_stored v).
Proof.
  intros Hv. destruct (insert_roomy demo_key (lit "0") [] v 0 demo_world) as (w' & nc & Hrun & _);
    [by apply (ready_for_ready 0), demo_world_ready|done| |].
  - apply demo_roomy; [cbn; lia..|]. change (size demo_key) with 3. change (size (lit "0")) with 1. lia.
  - unfold demo_stored. rewrite Hrun. by rewrite Cache.insert_result_nocas.
Qed.

(** The stored item can be read. *)
Lemma demo_item v : size v <= 100 ->
  exists nc, abs (demo_stored v) demo_key = Some (mkValue ULONG_MAX v (lit "0") nc, false).
Proof.
  intros Hv. destruct (insert_roomy demo_key (lit "0") [] v 0 demo_world) as (w' & nc & Hrun & _ & _ & _ & _ & Ha);
    [by apply (ready_for_ready 0), demo_world_ready|done| |].
  - apply demo_roomy; [cbn; lia..|]. change (size demo_key) with 3. change (size (lit "0")) with 1. lia.
  - exists nc. unfold demo_stored. rewrite Hrun. cbn [snd].
    by rewrite Ha, Cache.insert_next_nocas, Cache.put_eq.
Qed.

Lemma demo_visible v : size v <= 100 ->
  exists nc, Cache.visible (abs (demo_stored v)) (now (demo_stored v)) demo_key
             = Some (mkValue ULONG_MAX v (lit "0") nc).
Proof.
  intros Hv. destruct (demo_item v Hv) as [nc Hi]. exists nc. unfold Cache.visible. by rewrite Hi.
Qed.

Lemma get_visible k refs w v : ready w -> time_ok (now w) -> Cache.visible (abs w) (now w) k = Some v ->
  exists r w', dbGetElement k refs w = (Ret (SUCCESS, r), w').
Proof.
  intros Hr Ht Hv. destruct (get_refines k refs w Hr Ht) as (w' & Hrun & _).
  unfold Cache.get_result in Hrun. rewrite Hv in Hrun. eexists _, w'. exact Hrun.
Qed.

Lemma demo_get refs :
  exists r w', dbGetElement demo_key refs (demo_stored (lit "v")) = (Ret (SUCCESS, r), w').
Proof.
  destruct (demo_visible (lit "v")) as [nc Hv]; [done|].
  exact (get_visible demo_key refs _ _ (demo_stored_now (lit "v") ltac:(done)) (demo_time_ok _) Hv).
Qed.

(** It leaves most of the memory free. *)
Lemma demo_stored_roomy k f v : size k + size f + size v <= 200 ->
  roomy (demo_stored (lit "v")) k f v.
Proof. apply demo_roomy; vm_compute; [by intros [=]..|reflexivity]. Qed.

Lemma demo_number_roomy k f v : size k + size f + size v <= 200 ->
  roomy (demo_stored (lit "41")) k f v.
Proof. apply demo_roomy; vm_compute; [by intros [=]..|reflexivity]. Qed.

Lemma demo_stored_flush v : size v <= 100 -> flush_time (demo_stored v) = None.
Proof.
  intros Hv. destruct (insert_roomy demo_key (lit "0") [] v 0 demo_world) as (w' & nc & Hrun & _ & _ & _ & [_ Hf] & _);
    [by apply (ready_for_ready 0), demo_world_ready|done| |].
  - apply demo_roomy; [cbn; lia..|]. change (size demo_key) with 3. change (size (lit "0")) with 1. lia.
  - unfold demo_stored. rewrite Hrun. exact Hf.
Qed.

(** A state right after a flush. *)
Definition flush_now (w : World) : World := set_gFlushAllTimestamp (gTimestamp w) w.

Lemma flush_now_ready n w : ready_for n w -> ready_for n (flush_now w).
Proof.
  intros (Hq & [Hs Hm Hb Hf Hg] & HT). split; [exact Hq|]. split; [|exact HT].
  split; [exact Hs|exact Hm|exact Hb|cbn; lia|exact Hg].
Qed.

Lemma flush_now_hides w k v b : wf w -> abs w k = Some (v, b) -> abs (flush_now w) k = Some (v, true).
Proof.
  intros Hw. unfold abs, view. change (map_of (flush_now w)) with (map_of w).
  destruct (map_of w (getHashTblNbrFromKey k) !! k) as [it|] eqn:Ek; [|done]. intros [= <- _].
  pose proof (bo_map _ _ _ _ (wf_bucket w Hw _ (hash_range k)) k it Ek) as [_ Hr]. cbn.
  by rewrite (proj2 (Z.ltb_lt _ _)) by lia.
Qed.
