(* ===== verification/HashWords.v ===== *)
(** * 32-bit and 64-bit words of libhashkit

    The unsigned arithmetic of the hash functions in libmemcached/libhashkit, the bytes a
    key pointer leads to, and the lemmas the hash components share: a mask of low bits is
    a remainder, a sum may be reduced late, and the word operations stay in range. *)

From stdpp Require Import base list.
From Stdlib Require Import ZArith Lia Ascii.
From S2P Require Import Prelude CxxString.

Definition add32 (x y : Z) : Z := u32 (x + y).
Definition sub32 (x y : Z) : Z := u32 (x - y).
Definition mul32 (x y : Z) : Z := u32 (x * y).
Definition shl32 (x n : Z) : Z := u32 (Z.shiftl x n).
Definition not32 (x : Z) : Z := u32 (Z.lnot x).
Definition mul64 (x y : Z) : Z := u64 (x * y).

(** [(x << r) | (x >> (32 - r))] *)
Definition rotl32 (x r : Z) : Z := Z.lor (shl32 x r) (Z.shiftr x (32 - r)).

(** A little-endian word of four bytes, and of two. *)
Definition le32 (b0 b1 b2 b3 : Z) : Z :=
  b0 + Z.shiftl b1 8 + Z.shiftl b2 16 + Z.shiftl b3 24.
Definition le16 (b0 b1 : Z) : Z := b0 + Z.shiftl b1 8.

(** What a [const char *key, size_t length] argument leads to: the address of the first
    character, the characters of the key, and those that follow it in memory. *)
Record KeyPtr := mkKeyPtr {
  key_addr : Z;
  key_bytes : cstring;
  key_beyond : nat -> ascii;
}.

Definition key_length (k : KeyPtr) : nat := List.length (key_bytes k).

(** The unsigned character at an offset from the pointer. *)
Definition load8 (k : KeyPtr) (o : nat) : Z :=
  uchar (match key_bytes k !! o with
         | Some c => c
         | None => key_beyond k (o - key_length k)
         end).
Definition load16 (k : KeyPtr) (o : nat) : Z := le16 (load8 k o) (load8 k (o + 1)).
Definition load32 (k : KeyPtr) (o : nat) : Z :=
  le32 (load8 k o) (load8 k (o + 1)) (load8 k (o + 2)) (load8 k (o + 3)).

(** ** Ranges *)

Create HintDb hash.
Create Rewrite HintDb hash.

Definition word32 (x : Z) : Prop := 0 <= x < UINT_MOD.
Definition byte (x : Z) : Prop := 0 <= x < 256.

Lemma uchar_byte c : byte (uchar c).
Proof. unfold byte, uchar. pose proof (N_ascii_bounded c). lia. Qed.

Lemma load8_byte k o : byte (load8 k o).
Proof. apply uchar_byte. Qed.

Lemma u32_word x : word32 (u32 x).
Proof. apply u32_range. Qed.

Lemma word32_bits x :
  word32 x <-> 0 <= x /\ (forall i, 32 <= i -> Z.testbit x i = false).
Proof.
  unfold word32, UINT_MOD. split.
  - intros H. split; [lia|]. intros i Hi.
    destruct (decide (x = 0)) as [->|]; [apply Z.bits_0|].
    apply Z.bits_above_log2; [lia|]. enough (Z.log2 x < 32) by lia. apply Z.log2_lt_pow2; lia.
  - intros [Hx H]. split; [done|]. destruct (decide (x = 0)) as [->|]; [done|].
    change 4294967296 with (2 ^ 32). apply Z.log2_lt_pow2; [lia|].
    destruct (decide (Z.log2 x < 32)) as [|Hge]; [done|].
    exfalso. pose proof (Z.bit_log2 x). rewrite H in *; naive_solver lia.
Qed.

Lemma word32_lxor x y : word32 x -> word32 y -> word32 (Z.lxor x y).
Proof.
  rewrite !word32_bits. intros [Hx Bx] [Hy By]. split; [by apply Z.lxor_nonneg|].
  intros i Hi. by rewrite Z.lxor_spec, Bx, By.
Qed.

Lemma word32_lor x y : word32 x -> word32 y -> word32 (Z.lor x y).
Proof.
  rewrite !word32_bits. intros [Hx Bx] [Hy By]. split; [by apply Z.lor_nonneg|].
  intros i Hi. by rewrite Z.lor_spec, Bx, By.
Qed.

Lemma word32_land x y : word32 x -> 0 <= y -> word32 (Z.land x y).
Proof.
  rewrite !word32_bits. intros [Hx Bx] Hy. split; [apply Z.land_nonneg; by left|].
  intros i Hi. by rewrite Z.land_spec, Bx.
Qed.

Lemma word32_shiftr x n : 0 <= n -> word32 x -> word32 (Z.shiftr x n).
Proof.
  rewrite !word32_bits. intros Hn [Hx Bx]. split; [by apply Z.shiftr_nonneg|].
  intros i Hi. rewrite Z.shiftr_spec by lia. apply Bx. lia.
Qed.

Lemma word32_rotl x r : 0 <= r <= 32 -> word32 x -> word32 (rotl32 x r).
Proof.
  intros Hr Hx. apply word32_lor; [apply u32_word|]. apply word32_shiftr; [lia|done].
Qed.

#[export] Hint Resolve u32_word word32_lxor word32_lor word32_land word32_shiftr
  word32_rotl uchar_byte load8_byte : hash.

(** ** Sums of 32-bit words *)

Lemma u32_add_l x y : u32 (u32 x + y) = u32 (x + y).
Proof. unfold u32. by rewrite Z.add_mod_idemp_l. Qed.

Lemma u32_add_r x y : u32 (x + u32 y) = u32 (x + y).
Proof. unfold u32. by rewrite Z.add_mod_idemp_r. Qed.

Lemma u32_add_l2 x y z : u32 (u32 x + y + z) = u32 (x + y + z).
Proof. by rewrite <- !Z.add_assoc, u32_add_l. Qed.

#[export] Hint Rewrite u32_add_l u32_add_r u32_add_l2 : hash.

(** A mask of low bits is a remainder. *)
Lemma mask8 x : Z.land x 0xff = x mod 256.
Proof. change 0xff with (Z.ones 8). by rewrite Z.land_ones. Qed.

Lemma mask16 x : Z.land x 0xffff = x mod 65536.
Proof. change 0xffff with (Z.ones 16). by rewrite Z.land_ones. Qed.

Lemma mask24 x : Z.land x 0xffffff = x mod 16777216.
Proof. change 0xffffff with (Z.ones 24). by rewrite Z.land_ones. Qed.

Lemma shl_mul x n : 0 <= n -> Z.shiftl x n = x * 2 ^ n.
Proof. apply Z.shiftl_mul_pow2. Qed.

(** The bytes of a word that a mask keeps. *)
Section Masks.
Context (b0 b1 b2 b3 : Z) (H0 : byte b0) (H1 : byte b1) (H2 : byte b2) (H3 : byte b3).

Lemma le32_mask8 : Z.land (le32 b0 b1 b2 b3) 0xff = b0.
Proof.
  rewrite mask8. unfold le32, byte in *. rewrite !shl_mul by lia.
  symmetry. apply (Z.mod_unique _ _ (b1 + b2 * 2 ^ 8 + b3 * 2 ^ 16)); lia.
Qed.

Lemma le32_mask16 : Z.land (le32 b0 b1 b2 b3) 0xffff = le16 b0 b1.
Proof.
  rewrite mask16. unfold le32, le16, byte in *. rewrite !shl_mul by lia.
  symmetry. apply (Z.mod_unique _ _ (b2 + b3 * 2 ^ 8)); lia.
Qed.

Lemma le32_mask24 : Z.land (le32 b0 b1 b2 b3) 0xffffff = le16 b0 b1 + Z.shiftl b2 16.
Proof.
  rewrite mask24. unfold le32, le16, byte in *. rewrite !shl_mul by lia.
  symmetry. apply (Z.mod_unique _ _ b3); lia.
Qed.

Lemma le32_word : word32 (le32 b0 b1 b2 b3).
Proof. unfold word32, le32, byte, UINT_MOD in *. rewrite !shl_mul by lia. lia. Qed.
End Masks.

#[export] Hint Resolve le32_word : hash.

Lemma load32_split k o :
  load32 k o = load16 k o + Z.shiftl (load16 k (o + 2)) 16.
Proof.
  unfold load32, load16, le32, le16. rewrite !shl_mul by lia.
  replace (o + 2 + 1)%nat with (o + 3)%nat by lia. lia.
Qed.

(** Within the key the loads see its characters. *)
Lemma load8_key k o c : key_bytes k !! o = Some c -> load8 k o = uchar c.
Proof. intros H. unfold load8. by rewrite H. Qed.

(** * hashkit_jenkins (libhashkit/jenkins.cc)

    The function reads the key in 32-bit words, 16-bit halves or bytes, according to the
    alignment of the pointer; the word reads may go past the end of the key. [jenkins_spec]
    is the same hash on the characters of the key alone, with the last block padded by
    zeroes, and [hashkit_jenkins_correct] shows that all three ways compute it. *)

Module Jenkins.

Definition JENKINS_INITVAL : Z := 13.

(** The internal state [a], [b], [c]. *)
Record abc := mkAbc { ra : Z; rb : Z; rc : Z }.

(** The macro [rot] is [rotl32]. *)
Definition mix (s : abc) : abc :=
  let '(mkAbc a b c) := s in
  let a := sub32 a c in let a := Z.lxor a (rotl32 c 4) in let c := add32 c b in
  let b := sub32 b a in let b := Z.lxor b (rotl32 a 6) in let a := add32 a c in
  let c := sub32 c b in let c := Z.lxor c (rotl32 b 8) in let b := add32 b a in
  let a := sub32 a c in let a := Z.lxor a (rotl32 c 16) in let c := add32 c b in
  let b := sub32 b a in let b := Z.lxor b (rotl32 a 19) in let a := add32 a c in
  let c := sub32 c b in let c := Z.lxor c (rotl32 b 4) in let b := add32 b a in
  mkAbc a b c.

Definition final (s : abc) : abc :=
  let '(mkAbc a b c) := s in
  let c := Z.lxor c b in let c := sub32 c (rotl32 b 14) in
  let a := Z.lxor a c in let a := sub32 a (rotl32 c 11) in
  let b := Z.lxor b a in let b := sub32 b (rotl32 a 25) in
  let c := Z.lxor c b in let c := sub32 c (rotl32 b 16) in
  let a := Z.lxor a c in let a := sub32 a (rotl32 c 4) in
  let b := Z.lxor b a in let b := sub32 b (rotl32 a 14) in
  let c := Z.lxor c b in let c := sub32 c (rotl32 b 24) in
  mkAbc a b c.

Definition init (length : nat) : abc :=
  let i := u32 (0xdeadbeef + u32 (Z.of_nat length) + JENKINS_INITVAL) in
  mkAbc i i i.

Definition add_a (x : Z) (s : abc) : abc := mkAbc (add32 (ra s) x) (rb s) (rc s).
Definition add_b (x : Z) (s : abc) : abc := mkAbc (ra s) (add32 (rb s) x) (rc s).
Definition add_c (x : Z) (s : abc) : abc := mkAbc (ra s) (rb s) (add32 (rc s) x).

(** A statement sequence, left to right. *)
Notation "f ;> g" := (fun s : abc => g (f s)) (at level 50, left associativity).

(** [while (length > 12) { block; mix(a,b,c); length -= 12; k += ... }]: what it leaves in
    the state, in the pointer and in [length]. *)
Fixpoint block_loop (fuel : nat) (block : nat -> abc -> abc) (o length : nat) (s : abc)
    : option (abc * nat * nat) :=
  match fuel with
  | O => None
  | S fuel' =>
    if (12 <? length)%nat
    then block_loop fuel' block (o + 12) (length - 12) (mix (block o s))
    else Some (s, o, length)
  end.

(** ** Aligned words *)

Definition words_block (k : KeyPtr) (o : nat) : abc -> abc :=
  add_a (load32 k o) ;> add_b (load32 k (o + 4)) ;> add_c (load32 k (o + 8)).

(** The switch over the rest of the length; [None] is [return c] without mixing. *)
Definition words_tail (k : KeyPtr) (o length : nat) (s : abc) : option abc :=
  let k0 := load32 k o in let k1 := load32 k (o + 4) in let k2 := load32 k (o + 8) in
  match length with
  | 12%nat => Some ((add_c k2 ;> add_b k1 ;> add_a k0) s)
  | 11%nat => Some ((add_c (Z.land k2 0xffffff) ;> add_b k1 ;> add_a k0) s)
  | 10%nat => Some ((add_c (Z.land k2 0xffff) ;> add_b k1 ;> add_a k0) s)
  | 9%nat => Some ((add_c (Z.land k2 0xff) ;> add_b k1 ;> add_a k0) s)
  | 8%nat => Some ((add_b k1 ;> add_a k0) s)
  | 7%nat => Some ((add_b (Z.land k1 0xffffff) ;> add_a k0) s)
  | 6%nat => Some ((add_b (Z.land k1 0xffff) ;> add_a k0) s)
  | 5%nat => Some ((add_b (Z.land k1 0xff) ;> add_a k0) s)
  | 4%nat => Some (add_a k0 s)
  | 3%nat => Some (add_a (Z.land k0 0xffffff) s)
  | 2%nat => Some (add_a (Z.land k0 0xffff) s)
  | 1%nat => Some (add_a (Z.land k0 0xff) s)
  | _ => None
  end.

(** ** Aligned halves *)

(** [k[i] + (((uint32_t)k[i+1])<<16)] *)
Definition halves (k : KeyPtr) (o : nat) : Z := u32 (load16 k o + shl32 (load16 k (o + 2)) 16).

Definition halves_block (k : KeyPtr) (o : nat) : abc -> abc :=
  add_a (halves k o) ;> add_b (halves k (o + 4)) ;> add_c (halves k (o + 8)).

Definition halves_tail (k : KeyPtr) (o length : nat) (s : abc) : option abc :=
  let k8 i := load8 k (o + i) in
  let case10 := add_c (load16 k (o + 8)) ;> add_b (halves k (o + 4)) ;> add_a (halves k o) in
  let case8 := add_b (halves k (o + 4)) ;> add_a (halves k o) in
  let case6 := add_b (load16 k (o + 4)) ;> add_a (halves k o) in
  let case4 := add_a (halves k o) in
  let case2 := add_a (load16 k o) in
  match length with
  | 12%nat => Some ((add_c (halves k (o + 8)) ;> add_b (halves k (o + 4)) ;> add_a (halves k o)) s)
  | 11%nat => Some ((add_c (shl32 (k8 10%nat) 16) ;> case10) s)
  | 10%nat => Some (case10 s)
  | 9%nat => Some ((add_c (k8 8%nat) ;> case8) s)
  | 8%nat => Some (case8 s)
  | 7%nat => Some ((add_b (shl32 (k8 6%nat) 16) ;> case6) s)
  | 6%nat => Some (case6 s)
  | 5%nat => Some ((add_b (k8 4%nat) ;> case4) s)
  | 4%nat => Some (case4 s)
  | 3%nat => Some ((add_a (shl32 (k8 2%nat) 16) ;> case2) s)
  | 2%nat => Some (case2 s)
  | 1%nat => Some (add_a (k8 0%nat) s)
  | _ => None
  end.

(** ** Bytes *)

Definition bytes_block (k : KeyPtr) (o : nat) : abc -> abc :=
  let b i := load8 k (o + i) in
  add_a (b 0%nat) ;> add_a (shl32 (b 1%nat) 8) ;> add_a (shl32 (b 2%nat) 16)
    ;> add_a (shl32 (b 3%nat) 24)
  ;> add_b (b 4%nat) ;> add_b (shl32 (b 5%nat) 8) ;> add_b (shl32 (b 6%nat) 16)
    ;> add_b (shl32 (b 7%nat) 24)
  ;> add_c (b 8%nat) ;> add_c (shl32 (b 9%nat) 8) ;> add_c (shl32 (b 10%nat) 16)
    ;> add_c (shl32 (b 11%nat) 24).

(** Every case falls through to the next. *)
Definition bytes_tail (k : KeyPtr) (o length : nat) (s : abc) : option abc :=
  let b i := load8 k (o + i) in
  let case1 := add_a (b 0%nat) in
  let case2 := add_a (shl32 (b 1%nat) 8) ;> case1 in
  let case3 := add_a (shl32 (b 2%nat) 16) ;> case2 in
  let case4 := add_a (shl32 (b 3%nat) 24) ;> case3 in
  let case5 := add_b (b 4%nat) ;> case4 in
  let case6 := add_b (shl32 (b 5%nat) 8) ;> case5 in
  let case7 := add_b (shl32 (b 6%nat) 16) ;> case6 in
  let case8 := add_b (shl32 (b 7%nat) 24) ;> case7 in
  let case9 := add_c (b 8%nat) ;> case8 in
  let case10 := add_c (shl32 (b 9%nat) 8) ;> case9 in
  let case11 := add_c (shl32 (b 10%nat) 16) ;> case10 in
  let case12 := add_c (shl32 (b 11%nat) 24) ;> case11 in
  match length with
  | 12%nat => Some (case12 s) | 11%nat => Some (case11 s) | 10%nat => Some (case10 s)
  | 9%nat => Some (case9 s) | 8%nat => Some (case8 s) | 7%nat => Some (case7 s)
  | 6%nat => Some (case6 s) | 5%nat => Some (case5 s) | 4%nat => Some (case4 s)
  | 3%nat => Some (case3 s) | 2%nat => Some (case2 s) | 1%nat => Some (case1 s)
  | _ => None
  end.

(** ** The whole function, on a little-endian machine *)

Definition run_path (k : KeyPtr) (block : nat -> abc -> abc)
    (tail : nat -> nat -> abc -> option abc) : option Z :=
  match block_loop (S (key_length k)) block 0 (key_length k) (init (key_length k)) with
  | None => None
  | Some (s, o, length) =>
    match tail o length s with
    | None => Some (rc s)
    | Some s' => Some (rc (final s'))
    end
  end.

Definition hashkit_jenkins (k : KeyPtr) : option Z :=
  if Z.land (key_addr k) 0x3 =? 0 then run_path k (words_block k) (words_tail k)
  else if Z.land (key_addr k) 0x1 =? 0 then run_path k (halves_block k) (halves_tail k)
  else run_path k (bytes_block k) (bytes_tail k).

(** ** Reference *)

(** The [i]-th little-endian word of a block, with zeroes after its end. *)
Definition byte_at (l : list Z) (i : nat) : Z := default 0 (l !! i).
Definition word_at (l : list Z) (i : nat) : Z :=
  le32 (byte_at l (4 * i)) (byte_at l (4 * i + 1)) (byte_at l (4 * i + 2)) (byte_at l (4 * i + 3)).

Definition absorb (l : list Z) (s : abc) : abc :=
  mkAbc (add32 (ra s) (word_at l 0)) (add32 (rb s) (word_at l 1)) (add32 (rc s) (word_at l 2)).

(** [n] blocks of twelve bytes that are followed by more, then the last one. *)
Fixpoint spec_blocks (n : nat) (l : list Z) (s : abc) : Z :=
  match n with
  | O => match l with [] => rc s | _ => rc (final (absorb l s)) end
  | S n' => spec_blocks n' (drop 12 l) (mix (absorb (take 12 l) s))
  end.

Definition jenkins_spec (key : cstring) : Z :=
  spec_blocks ((List.length key - 1) / 12) (map uchar key) (init (List.length key)).

(** ** The three ways agree with the reference *)

(** The bytes from an offset on. *)
Definition from (k : KeyPtr) (o : nat) : list Z := drop o (map uchar (key_bytes k)).

Lemma length_from k o : List.length (from k o) = (key_length k - o)%nat.
Proof. unfold from, key_length. by rewrite length_drop, length_map. Qed.

Lemma byte_at_from k o i :
  (o + i < key_length k)%nat -> byte_at (from k o) i = load8 k (o + i).
Proof.
  intros H. unfold byte_at, from, load8. rewrite lookup_drop, list_lookup_fmap.
  destruct (lookup_lt_is_Some_2 (key_bytes k) (o + i) H) as [c ->]. done.
Qed.

Lemma byte_at_beyond k o i : (key_length k <= o + i)%nat -> byte_at (from k o) i = 0.
Proof.
  intros H. unfold byte_at. rewrite lookup_ge_None_2; [done|]. rewrite length_from. lia.
Qed.

Lemma byte_at_take l n i : (i < n)%nat -> byte_at (take n l) i = byte_at l i.
Proof. intros H. unfold byte_at. by rewrite lookup_take_lt. Qed.

Lemma absorb_take l s : absorb (take 12 l) s = absorb l s.
Proof. unfold absorb, word_at. by rewrite !byte_at_take by lia. Qed.

(** The registers hold 32-bit words. *)
Definition wf (s : abc) : Prop := word32 (ra s) /\ word32 (rb s) /\ word32 (rc s).

Lemma wf_init n : wf (init n).
Proof. repeat split; apply u32_word. Qed.

Lemma wf_absorb l s : wf (absorb l s).
Proof. repeat split; apply u32_word. Qed.

Lemma word32_lxor_rotl x y r : word32 x -> word32 y -> 0 <= r <= 32 -> word32 (Z.lxor x (rotl32 y r)).
Proof. auto with hash. Qed.

(** Every value a step writes is a sum, a difference or an exclusive or of words. *)
Ltac word_steps :=
  repeat match goal with
  | |- word32 (add32 _ _) => apply u32_word
  | |- word32 (sub32 _ _) => apply u32_word
  | |- word32 (Z.lxor _ (rotl32 _ _)) => apply word32_lxor_rotl; [| |lia]
  | |- word32 (Z.lxor _ _) => apply word32_lxor
  end.

Lemma wf_mix s : wf s -> wf (mix s).
Proof. intros (Ha & Hb & Hc). destruct s as [a b c]. cbn in *.
  unfold mix, wf. cbn [ra rb rc]. split_and!; word_steps; done. Qed.

Lemma wf_final s : wf (final s).
Proof. destruct s as [a b c].
  unfold final, wf. cbn [ra rb rc]. split_and!; word_steps. Qed.

(** What a block must add, whichever way it reads it. *)
Definition block_ok (k : KeyPtr) (block : nat -> abc -> abc) : Prop :=
  forall o s, (o + 12 <= key_length k)%nat -> block o s = absorb (from k o) s.

Definition tail_ok (k : KeyPtr) (tail : nat -> nat -> abc -> option abc) : Prop :=
  forall o s n, wf s -> n = (key_length k - o)%nat -> (n <= 12)%nat ->
  tail o n s = if decide (n = 0%nat) then None else Some (absorb (from k o) s).

Lemma block_loop_spec k block fuel o s n :
  block_ok k block -> wf s -> n = ((key_length k - o - 1) / 12)%nat ->
  (o <= key_length k)%nat -> (key_length k - o < fuel)%nat ->
  exists s' o',
    block_loop fuel block o (key_length k - o) s = Some (s', o', (key_length k - o')%nat) /\
    wf s' /\ (o' <= key_length k)%nat /\ (key_length k - o' <= 12)%nat /\
    spec_blocks n (from k o) s = spec_blocks 0 (from k o') s'.
Proof.
  intros Hb. revert fuel o s. induction n as [|n IH]; intros [|fuel] o s Hw Hn Ho Hf; try lia.
  - exists s, o. cbn [block_loop].
    assert (Hs : (key_length k - o - 1 < 12)%nat) by (apply Nat.div_small_iff; lia).
    destruct (Nat.ltb_spec 12 (key_length k - o)); [lia|]. split_and!; done || lia.
  - cbn [block_loop].
    assert (Hge : (12 <= key_length k - o - 1)%nat).
    { destruct (decide (key_length k - o - 1 < 12)%nat) as [Hlt|]; [|lia].
      rewrite (Nat.div_small _ _ Hlt) in Hn. lia. }
    destruct (Nat.ltb_spec 12 (key_length k - o)); [|lia].
    rewrite Hb by lia. replace (key_length k - o - 12)%nat with (key_length k - (o + 12))%nat by lia.
    destruct (IH fuel (o + 12)%nat (mix (absorb (from k o) s))) as (s' & o' & E & H0 & H1 & H2 & H3);
      [apply wf_mix, wf_absorb| |lia..|].
    { replace (key_length k - o - 1)%nat with (key_length k - (o + 12) - 1 + 1 * 12)%nat in Hn by lia.
      rewrite Nat.div_add in Hn by lia. lia. }
    exists s', o'. split_and!; [done..|]. cbn [spec_blocks]. rewrite absorb_take.
    unfold from at 1. rewrite drop_drop. exact H3.
Qed.

Lemma run_path_spec k block tail :
  block_ok k block -> tail_ok k tail -> run_path k block tail = Some (jenkins_spec (key_bytes k)).
Proof.
  intros Hb Ht. unfold run_path, jenkins_spec. fold (key_length k).
  destruct (block_loop_spec k block (S (key_length k)) 0 (init (key_length k))
    ((key_length k - 1) / 12)) as (s' & o' & E & H0 & H1 & H2 & H3);
    [done|apply wf_init|by rewrite Nat.sub_0_r|lia..|].
  rewrite Nat.sub_0_r in E. rewrite E, (Ht o' s' _ H0 eq_refl H2).
  change (map uchar (key_bytes k)) with (from k 0). rewrite H3. cbn [spec_blocks].
  pose proof (length_from k o') as Hl.
  destruct (decide (key_length k - o' = 0)%nat) as [He|He], (from k o') as [|x l]; simpl in Hl; done || lia.
Qed.

Lemma shl_byte k o n : 0 <= n <= 24 -> shl32 (load8 k o) n = Z.shiftl (load8 k o) n.
Proof.
  intros Hn. unfold shl32. apply u32_small. pose proof (load8_byte k o) as Hb.
  unfold byte, UINT_MOD in *. rewrite shl_mul by lia.
  assert (2 ^ n <= 2 ^ 24) by (apply Z.pow_le_mono_r; lia). nia.
Qed.

Lemma load16_range k o : 0 <= load16 k o < 65536.
Proof.
  unfold load16, le16. pose proof (load8_byte k o) as Ha. pose proof (load8_byte k (o + 1)) as Hb.
  unfold byte in *. rewrite shl_mul by lia. lia.
Qed.

Lemma halves_load32 k o : halves k o = load32 k o.
Proof.
  unfold halves, shl32. rewrite load32_split, !shl_mul by lia. 
  pose proof (load16_range k o). pose proof (load16_range k (o + 2)).
  rewrite !u32_small; unfold UINT_MOD; rewrite ?u32_small; unfold UINT_MOD; lia.
Qed.

Lemma word_full k o i :
  (o + 4 * i + 4 <= key_length k)%nat -> word_at (from k o) i = load32 k (o + 4 * i).
Proof.
  intros H. unfold word_at, load32. rewrite !byte_at_from by lia.
  by rewrite <- !Nat.add_assoc.
Qed.

(** A word of a last block that ends inside it. *)
Section Partial.
Context (k : KeyPtr) (o : nat).

Lemma word_three i : (key_length k = o + 4 * i + 3)%nat ->
  word_at (from k o) i = le16 (load8 k (o + 4 * i)) (load8 k (o + (4 * i + 1)))
    + Z.shiftl (load8 k (o + (4 * i + 2))) 16.
Proof.
  intros H. unfold word_at. rewrite !byte_at_from by lia. rewrite byte_at_beyond by lia.
  unfold le32, le16. rewrite Z.shiftl_0_l. lia.
Qed.

Lemma word_two i : (key_length k = o + 4 * i + 2)%nat ->
  word_at (from k o) i = le16 (load8 k (o + 4 * i)) (load8 k (o + (4 * i + 1))).
Proof.
  intros H. unfold word_at. rewrite !byte_at_from by lia. rewrite !byte_at_beyond by lia.
  unfold le32, le16. rewrite !Z.shiftl_0_l. lia.
Qed.

Lemma word_one i : (key_length k = o + 4 * i + 1)%nat ->
  word_at (from k o) i = load8 k (o + 4 * i).
Proof.
  intros H. unfold word_at. rewrite !byte_at_from by lia. rewrite !byte_at_beyond by lia.
  unfold le32. rewrite !Z.shiftl_0_l. lia.
Qed.

Lemma word_none i : (key_length k <= o + 4 * i)%nat -> word_at (from k o) i = 0.
Proof. intros H. unfold word_at. by rewrite !byte_at_beyond by lia. Qed.
End Partial.

Lemma load32_mask8 k o : Z.land (load32 k o) 0xff = load8 k o.
Proof. apply le32_mask8; apply load8_byte. Qed.
Lemma load32_mask16 k o : Z.land (load32 k o) 0xffff = load16 k o.
Proof. apply le32_mask16; apply load8_byte. Qed.
Lemma load32_mask24 k o :
  Z.land (load32 k o) 0xffffff = load16 k o + Z.shiftl (load8 k (o + 2)) 16.
Proof. apply le32_mask24; apply load8_byte. Qed.

#[local] Hint Rewrite halves_load32 load32_mask8 load32_mask16 load32_mask24 : hash.
#[local] Hint Rewrite shl_byte using lia : hash.
#[local] Hint Rewrite word_full word_three word_two word_one word_none using lia : hash.

Ltac offsets :=
  rewrite ?Nat.add_0_r, <- ?Nat.add_assoc in *; cbn [Nat.add Nat.mul] in *.

(** Both sides add the same pieces to [a], [b] and [c]. *)
Ltac same_sums :=
  unfold absorb, add_a, add_b, add_c, add32; cbn [ra rb rc];
  autorewrite with hash; unfold load32, load16, le32, le16; offsets;
  f_equal; try (rewrite Z.add_0_r; symmetry; by apply u32_small); f_equal; lia.

Lemma words_block_ok k : block_ok k (words_block k).
Proof. intros o s H. unfold words_block. same_sums. Qed.

Lemma halves_block_ok k : block_ok k (halves_block k).
Proof. intros o s H. unfold halves_block. same_sums. Qed.

Lemma bytes_block_ok k : block_ok k (bytes_block k).
Proof. intros o s H. unfold bytes_block. same_sums. Qed.

(** The switch: no case for an empty rest, otherwise one of twelve. *)
Ltac tail_case :=
  first [ reflexivity
        | rewrite decide_False by lia; cbv beta iota zeta; f_equal; same_sums ].
Ltac tail_cases t :=
  intros o s n (Ha & Hb & Hc) Hn Hle; unfold t; do 13 (destruct n as [|n]; [tail_case|]); lia.

Lemma words_tail_ok k : tail_ok k (words_tail k).
Proof. tail_cases words_tail. Qed.

Lemma halves_tail_ok k : tail_ok k (halves_tail k).
Proof. tail_cases halves_tail. Qed.

Lemma bytes_tail_ok k : tail_ok k (bytes_tail k).
Proof. tail_cases bytes_tail. Qed.

Lemma hashkit_jenkins_correct k : hashkit_jenkins k = Some (jenkins_spec (key_bytes k)).
Proof.
  unfold hashkit_jenkins.
  destruct (_ =? 0); [|destruct (_ =? 0)]; apply run_path_spec.
  - apply words_block_ok.
  - apply words_tail_ok.
  - apply halves_block_ok.
  - apply halves_tail_ok.
  - apply bytes_block_ok.
  - apply bytes_tail_ok.
Qed.

Lemma jenkins_spec_word key : word32 (jenkins_spec key).
Proof.
  unfold jenkins_spec. generalize (wf_init (List.length key)).
  generalize (init (List.length key)), (map uchar key), ((List.length key - 1) / 12)%nat.
  intros s l n. revert s l. induction n as [|n IH]; intros s l Hs; cbn [spec_blocks].
  - destruct l; [apply Hs|apply wf_final].
  - apply IH, wf_mix, wf_absorb.
Qed.

End Jenkins.
