(* ===== verification/HashMd5.v ===== *)
(** * MD5 (libhashkit/md5.cc)

    The context with its bit count and its buffer, [MD5Update] with the partial blocks,
    [MD5Final] with the padding, and the 64 steps of [MD5Transform], which the source writes
    out one by one, as a list of macro calls on the registers. The buffer of a new context is
    not initialised: its content is an argument. *)

From stdpp Require Import base list numbers.
From Stdlib Require Import ZArith Lia Ascii.
From S2P Require Import Prelude CxxString HashWords.

Module Md5.

(** ** Data *)

(** [UINT4 state[4]] *)
Record State := mkState { st_a : Z; st_b : Z; st_c : Z; st_d : Z }.

Record MD5_CTX := mkCtx {
  state : State;
  count0 : Z;
  count1 : Z;
  buffer : list Z;
}.

Definition S11 : Z := 7.
Definition S12 : Z := 12.
Definition S13 : Z := 17.
Definition S14 : Z := 22.
Definition S21 : Z := 5.
Definition S22 : Z := 9.
Definition S23 : Z := 14.
Definition S24 : Z := 20.
Definition S31 : Z := 4.
Definition S32 : Z := 11.
Definition S33 : Z := 16.
Definition S34 : Z := 23.
Definition S41 : Z := 6.
Definition S42 : Z := 10.
Definition S43 : Z := 15.
Definition S44 : Z := 21.

Definition PADDING : list Z := 0x80 :: replicate 63 0.

(** ** Rounds *)

Definition F (x y z : Z) : Z := Z.lor (Z.land x y) (Z.land (not32 x) z).
Definition G (x y z : Z) : Z := Z.lor (Z.land x z) (Z.land y (not32 z)).
Definition H (x y z : Z) : Z := Z.lxor (Z.lxor x y) z.
Definition I (x y z : Z) : Z := Z.lxor y (Z.lor x (not32 z)).
Definition ROTATE_LEFT (x n : Z) : Z := rotl32 x n.

Inductive reg := A | B | C | D.

Definition get (r : reg) (s : State) : Z :=
  match r with A => st_a s | B => st_b s | C => st_c s | D => st_d s end.

Definition set (r : reg) (v : Z) (s : State) : State :=
  let '(mkState a b c d) := s in
  match r with
  | A => mkState v b c d
  | B => mkState a v c d
  | C => mkState a b v d
  | D => mkState a b c v
  end.

(** The basic function of a macro. *)
Inductive basic := basic_F | basic_G | basic_H | basic_I.

Definition apply_basic (f : basic) : Z -> Z -> Z -> Z :=
  match f with basic_F => F | basic_G => G | basic_H => H | basic_I => I end.

(** One macro call: its function, its registers, the index of the word, the shift and the
    constant. *)
Record op := mkOp {
  o_fn : basic;
  o_a : reg; o_b : reg; o_c : reg; o_d : reg;
  o_x : nat; o_s : Z; o_ac : Z;
}.

Definition FF := mkOp basic_F.
Definition GG := mkOp basic_G.
Definition HH := mkOp basic_H.
Definition II := mkOp basic_I.

(** The body of the macros:
    [(a) += F((b),(c),(d)) + (x) + (UINT4)(ac); (a) = ROTATE_LEFT((a),(s)); (a) += (b);] *)
Definition exec (x : list Z) (s : State) (i : op) : State :=
  let f := apply_basic (o_fn i) (get (o_b i) s) (get (o_c i) s) (get (o_d i) s) in
  let s := set (o_a i) (add32 (get (o_a i) s) (u32 (f + aget x (Z.of_nat (o_x i)) + o_ac i))) s in
  let s := set (o_a i) (ROTATE_LEFT (get (o_a i) s) (o_s i)) s in
  set (o_a i) (add32 (get (o_a i) s) (get (o_b i) s)) s.

(** The statements of [MD5Transform]. *)
Definition steps : list op := [
  FF A B C D 0 S11 0xd76aa478;
  FF D A B C 1 S12 0xe8c7b756;
  FF C D A B 2 S13 0x242070db;
  FF B C D A 3 S14 0xc1bdceee;
  FF A B C D 4 S11 0xf57c0faf;
  FF D A B C 5 S12 0x4787c62a;
  FF C D A B 6 S13 0xa8304613;
  FF B C D A 7 S14 0xfd469501;
  FF A B C D 8 S11 0x698098d8;
  FF D A B C 9 S12 0x8b44f7af;
  FF C D A B 10 S13 0xffff5bb1;
  FF B C D A 11 S14 0x895cd7be;
  FF A B C D 12 S11 0x6b901122;
  FF D A B C 13 S12 0xfd987193;
  FF C D A B 14 S13 0xa679438e;
  FF B C D A 15 S14 0x49b40821;
  GG A B C D 1 S21 0xf61e2562;
  GG D A B C 6 S22 0xc040b340;
  GG C D A B 11 S23 0x265e5a51;
  GG B C D A 0 S24 0xe9b6c7aa;
  GG A B C D 5 S21 0xd62f105d;
  GG D A B C 10 S22 0x2441453;
  GG C D A B 15 S23 0xd8a1e681;
  GG B C D A 4 S24 0xe7d3fbc8;
  GG A B C D 9 S21 0x21e1cde6;
  GG D A B C 14 S22 0xc33707d6;
  GG C D A B 3 S23 0xf4d50d87;
  GG B C D A 8 S24 0x455a14ed;
  GG A B C D 13 S21 0xa9e3e905;
  GG D A B C 2 S22 0xfcefa3f8;
  GG C D A B 7 S23 0x676f02d9;
  GG B C D A 12 S24 0x8d2a4c8a;
  HH A B C D 5 S31 0xfffa3942;
  HH D A B C 8 S32 0x8771f681;
  HH C D A B 11 S33 0x6d9d6122;
  HH B C D A 14 S34 0xfde5380c;
  HH A B C D 1 S31 0xa4beea44;
  HH D A B C 4 S32 0x4bdecfa9;
  HH C D A B 7 S33 0xf6bb4b60;
  HH B C D A 10 S34 0xbebfbc70;
  HH A B C D 13 S31 0x289b7ec6;
  HH D A B C 0 S32 0xeaa127fa;
  HH C D A B 3 S33 0xd4ef3085;
  HH B C D A 6 S34 0x4881d05;
  HH A B C D 9 S31 0xd9d4d039;
  HH D A B C 12 S32 0xe6db99e5;
  HH C D A B 15 S33 0x1fa27cf8;
  HH B C D A 2 S34 0xc4ac5665;
  II A B C D 0 S41 0xf4292244;
  II D A B C 7 S42 0x432aff97;
  II C D A B 14 S43 0xab9423a7;
  II B C D A 5 S44 0xfc93a039;
  II A B C D 12 S41 0x655b59c3;
  II D A B C 3 S42 0x8f0ccc92;
  II C D A B 10 S43 0xffeff47d;
  II B C D A 1 S44 0x85845dd1;
  II A B C D 8 S41 0x6fa87e4f;
  II D A B C 15 S42 0xfe2ce6e0;
  II C D A B 6 S43 0xa3014314;
  II B C D A 13 S44 0x4e0811a1;
  II A B C D 4 S41 0xf7537e82;
  II D A B C 11 S42 0xbd3af235;
  II C D A B 2 S43 0x2ad7d2bb;
  II B C D A 9 S44 0xeb86d391
].

(** ** Words and bytes *)

Fixpoint Encode (input : list Z) : list Z :=
  match input with
  | [] => []
  | w :: input' =>
    Z.land w 0xff :: Z.land (Z.shiftr w 8) 0xff :: Z.land (Z.shiftr w 16) 0xff
      :: Z.land (Z.shiftr w 24) 0xff :: Encode input'
  end.

Fixpoint Decode (input : list Z) : list Z :=
  match input with
  | b0 :: b1 :: b2 :: b3 :: input' =>
    Z.lor (Z.lor (Z.lor b0 (shl32 b1 8)) (shl32 b2 16)) (shl32 b3 24) :: Decode input'
  | _ => []
  end.

Definition MD5Transform (s : State) (block : list Z) : State :=
  let x := Decode block in
  let '(mkState a b c d) := fold_left (exec x) steps s in
  mkState (add32 (st_a s) a) (add32 (st_b s) b) (add32 (st_c s) c) (add32 (st_d s) d).

(** ** The context *)

Definition MD5Init (garbage : list Z) : MD5_CTX :=
  mkCtx (mkState 0x67452301 0xefcdab89 0x98badcfe 0x10325476) 0 0 garbage.

(** [memcpy(&dst[i], src, length src)] inside the array. *)
Definition memcpy (dst : list Z) (i : Z) (src : list Z) : list Z :=
  take (Z.to_nat i) dst ++ src ++ drop (Z.to_nat i + List.length src) dst.

(** [for (i = partLen; i + 63 < inputLen; i += 64) MD5Transform (state, &input[i]);]
    the state and the last [i]; a read past the input is undefined. *)
Fixpoint update_loop (fuel : nat) (s : State) (input : list Z) (i inputLen : Z)
    : outcome (State * Z) :=
  match fuel with
  | O => Stuck OutOfFuel
  | S fuel' =>
    if u32 (i + 63) <? inputLen then
      if inputLen <? i + 64 then Stuck Undefined else
      let block := take 64 (drop (Z.to_nat i) input) in
      update_loop fuel' (MD5Transform s block) input (u32 (i + 64)) inputLen
    else Ret (s, i)
  end.

(** [inputLen] is an [unsigned int], at most the length of the input. *)
Definition MD5Update (context : MD5_CTX) (input : list Z) (inputLen : Z) : outcome MD5_CTX :=
  let idx := Z.land (Z.shiftr (count0 context) 3) 0x3F in
  let bits := shl32 inputLen 3 in
  let c0 := add32 (count0 context) bits in
  let c1 := if c0 <? bits then add32 (count1 context) 1 else count1 context in
  let c1 := add32 c1 (Z.shiftr inputLen 29) in
  let partLen := 64 - idx in
  let? r :=
    if partLen <=? inputLen then
      let buf := memcpy (buffer context) idx (take (Z.to_nat partLen) input) in
      let s := MD5Transform (state context) buf in
      let? r := update_loop (S (Z.to_nat inputLen)) s input partLen inputLen in
      Ret (fst r, buf, snd r, 0)
    else Ret (state context, buffer context, 0, idx) in
  let '(s, buf, i, idx) := r in
  let rest := take (Z.to_nat (inputLen - i)) (drop (Z.to_nat i) input) in
  Ret (mkCtx s c0 c1 (memcpy buf idx rest)).

(** The digest; the context is cleared and not used again. *)
Definition MD5Final (context : MD5_CTX) : outcome (list Z) :=
  let bits := Encode [count0 context; count1 context] in
  let idx := Z.land (Z.shiftr (count0 context) 3) 0x3f in
  let padLen := if idx <? 56 then 56 - idx else 120 - idx in
  let? context := MD5Update context PADDING padLen in
  let? context := MD5Update context bits 8 in
  let s := state context in
  Ret (Encode [st_a s; st_b s; st_c s; st_d s]).

Definition md5_signature (garbage : list Z) (key : list Z) (length : Z) : outcome (list Z) :=
  let? context := MD5Update (MD5Init garbage) key length in
  MD5Final context.

Definition hashkit_md5 (garbage : list Z) (key : cstring) : outcome Z :=
  let? results := md5_signature garbage (map uchar key) (u32 (size key)) in
  Ret (Z.lor (Z.lor (Z.lor (shl32 (Z.land (aget results 3) 0xFF) 24)
                           (shl32 (Z.land (aget results 2) 0xFF) 16))
                    (shl32 (Z.land (aget results 1) 0xFF) 8))
             (Z.land (aget results 0) 0xFF)).

(** ** Reference: the description of RFC 1321 *)

(** The message, a bit one, zeroes up to 56 modulo 64 bytes, and the length in bits. *)
Definition pad_zeroes (n : Z) : Z := (55 - n) mod 64.
Definition padded (msg : list Z) : list Z :=
  let n := Z.of_nat (List.length msg) in
  msg ++ [0x80] ++ replicate (Z.to_nat (pad_zeroes n)) 0
    ++ Encode [u32 (8 * n); u32 ((8 * n) / UINT_MOD)].

Definition shifts (round : nat) : list Z :=
  match round with
  | 0%nat => [7; 12; 17; 22] | 1%nat => [5; 9; 14; 20]
  | 2%nat => [4; 11; 16; 23] | _ => [6; 10; 15; 21]
  end.

Definition index (round : nat) (i : Z) : Z :=
  match round with
  | 0%nat => i | 1%nat => 5 * i + 1 | 2%nat => 3 * i + 5 | _ => 7 * i
  end mod 16.

(** The integer part of 2^32 times the absolute value of the sine of [i], from the power
    series in fixed-point arithmetic with 300 binary digits. *)
Fixpoint series (fuel : nat) (x2 n term acc : Z) : Z :=
  match fuel with
  | O => acc
  | S fuel' => series fuel' x2 (n + 2) (- term * x2 / ((n + 1) * (n + 2))) (acc + term)
  end.
Definition sine_constant (i : Z) : Z :=
  Z.shiftr (Z.abs (series 150 (i * i) 1 (Z.shiftl i 300) 0)) 268.

Definition round_function (round : nat) : basic :=
  match round with
  | 0%nat => basic_F | 1%nat => basic_G | 2%nat => basic_H | _ => basic_I
  end.

(** The registers move one place per step. *)
Definition registers (i : nat) : reg * reg * reg * reg :=
  match (i mod 4)%nat with
  | 0%nat => (A, B, C, D) | 1%nat => (D, A, B, C)
  | 2%nat => (C, D, A, B) | _ => (B, C, D, A)
  end.

Definition spec_step (i : nat) : op :=
  let round := (i / 16)%nat in
  let '(a, b, c, d) := registers i in
  mkOp (round_function round) a b c d (Z.to_nat (index round (Z.of_nat i)))
    (aget (shifts round) (Z.of_nat (i mod 4))) (sine_constant (Z.of_nat i + 1)).

Definition word_of (l : list Z) (j : nat) : Z :=
  le32 (l !!! (4 * j)%nat) (l !!! (4 * j + 1)%nat) (l !!! (4 * j + 2)%nat) (l !!! (4 * j + 3)%nat).

Definition compress (s : State) (block : list Z) : State :=
  let s' := fold_left (exec (map (word_of block) (seq 0 16))) (map spec_step (seq 0 64)) s in
  mkState (add32 (st_a s) (st_a s')) (add32 (st_b s) (st_b s'))
          (add32 (st_c s) (st_c s')) (add32 (st_d s) (st_d s')).

(** The first [n] blocks of a message. *)
Fixpoint compress_blocks (n : nat) (s : State) (msg : list Z) : State :=
  match n with
  | O => s
  | S n' => compress_blocks n' (compress s (take 64 msg)) (drop 64 msg)
  end.

Definition initial_state : State := mkState 0x67452301 0xefcdab89 0x98badcfe 0x10325476.

Definition md5_spec (msg : list Z) : list Z :=
  let m := padded msg in
  let s := compress_blocks (List.length m / 64) initial_state m in
  Encode [st_a s; st_b s; st_c s; st_d s].

Example steps_of_rfc : steps = map spec_step (seq 0 64).
Proof. vm_compute. reflexivity. Qed.

End Md5.

(** * MD5: the implementation against its reference

    [ctx_ok] relates a context to the bytes it has absorbed: the state is that of the whole
    blocks, the buffer starts with the bytes after them, and the two counters hold the
    number of bits. [MD5Update] preserves it on every input, so the digest is that of the
    padded message, whatever the buffer held at first. *)

Import Md5.

(** ** Bytes and words *)

Lemma lor_shift a b n : 0 <= n -> 0 <= a < 2 ^ n -> Z.lor a (Z.shiftl b n) = a + Z.shiftl b n.
Proof.
  intros Hn Ha. rewrite <- (Z.add_lor_land a). enough (Z.land a (Z.shiftl b n) = 0) by lia.
  apply Z.bits_inj'. intros i Hi. rewrite Z.land_spec, Z.bits_0.
  destruct (decide (i < n)); [by rewrite Z.shiftl_spec_low, andb_false_r by lia|].
  destruct (decide (a = 0)) as [->|]; [by rewrite Z.bits_0|].
  rewrite (Z.bits_above_log2 a i); [done|lia|].
  enough (Z.log2 a < n) by lia. apply Z.log2_lt_pow2; lia.
Qed.

Lemma lor_bytes b0 b1 b2 b3 : byte b0 -> byte b1 -> byte b2 -> byte b3 ->
  Z.lor (Z.lor (Z.lor b0 (shl32 b1 8)) (shl32 b2 16)) (shl32 b3 24) = le32 b0 b1 b2 b3.
Proof.
  intros H0 H1 H2 H3. unfold byte, shl32 in *.
  rewrite !u32_small by (rewrite shl_mul; unfold UINT_MOD; lia).
  assert (0 <= b0 + Z.shiftl b1 8 < 2 ^ 16) by (rewrite shl_mul; lia).
  assert (0 <= b0 + Z.shiftl b1 8 + Z.shiftl b2 16 < 2 ^ 24) by (rewrite !shl_mul in *; lia).
  rewrite (lor_shift b0), (lor_shift (b0 + _)), lor_shift by lia. done.
Qed.

Lemma word_of_drop4 b0 b1 b2 b3 l j :
  word_of (b0 :: b1 :: b2 :: b3 :: l) (S j) = word_of l j.
Proof. unfold word_of. by replace (4 * S j)%nat with (S (S (S (S (4 * j))))) by lia. Qed.

Lemma Decode_words n l : List.length l = (4 * n)%nat -> Forall byte l ->
  Decode l = map (word_of l) (seq 0 n).
Proof.
  revert l. induction n as [|n IH]; intros l Hl Hb; [by destruct l|].
  destruct l as [|b0 [|b1 [|b2 [|b3 l]]]]; simpl in Hl; try lia.
  rewrite !Forall_cons_iff in Hb. destruct Hb as (H0 & H1 & H2 & H3 & Hb).
  cbn [Decode seq map]. rewrite lor_bytes by done. f_equal.
  rewrite <- seq_shift, map_map, (IH l) by (done || lia).
  apply map_ext. intros j. symmetry. apply word_of_drop4.
Qed.

Lemma Encode_bytes l : Forall byte (Encode l).
Proof.
  induction l as [|w l IH]; [constructor|].
  repeat constructor; auto; rewrite mask8; by apply Z.mod_pos_bound.
Qed.

Lemma length_Encode l : List.length (Encode l) = (4 * List.length l)%nat.
Proof. induction l as [|w l IH]; [done|]. simpl. lia. Qed.

(** ** The compression function *)

Lemma MD5Transform_compress s block :
  List.length block = 64%nat -> Forall byte block -> MD5Transform s block = compress s block.
Proof.
  intros Hl Hb. unfold MD5Transform, compress.
  rewrite <- steps_of_rfc, (Decode_words 16) by done.
  by destruct (fold_left _ _ _).
Qed.

Lemma compress_blocks_add n k s msg :
  compress_blocks (n + k) s msg = compress_blocks k (compress_blocks n s msg) (drop (64 * n) msg).
Proof.
  revert s msg. induction n as [|n IH]; intros s msg; [done|].
  cbn [compress_blocks Nat.add]. rewrite IH, drop_drop. do 2 f_equal. lia.
Qed.

Lemma compress_blocks_app n s msg rest :
  (64 * n <= List.length msg)%nat -> compress_blocks n s (msg ++ rest) = compress_blocks n s msg.
Proof.
  revert s msg. induction n as [|n IH]; intros s msg H; [done|]. cbn [compress_blocks].
  rewrite take_app_le, drop_app_le by lia. apply IH. rewrite length_drop. lia.
Qed.

(** ** The context *)

Definition len (m : list Z) : Z := Z.of_nat (List.length m).

Record ctx_ok (ctx : MD5_CTX) (m : list Z) : Prop := {
  ok_state : state ctx = compress_blocks (List.length m / 64) initial_state m;
  ok_count0 : count0 ctx = u32 (8 * len m);
  ok_count1 : count1 ctx = u32 ((8 * len m) / UINT_MOD);
  ok_length : List.length (buffer ctx) = 64%nat;
  ok_buffer : take (List.length m mod 64) (buffer ctx) = drop (64 * (List.length m / 64)) m;
}.

Lemma MD5Init_ok garbage : List.length garbage = 64%nat -> ctx_ok (MD5Init garbage) [].
Proof. by constructor. Qed.

Lemma index_ok m : Z.land (Z.shiftr (u32 (8 * len m)) 3) 0x3F = len m mod 64.
Proof.
  change 0x3F with (Z.ones 6). rewrite Z.land_ones, Z.shiftr_div_pow2 by lia.
  unfold u32, UINT_MOD. change (2 ^ 3) with 8. change (2 ^ 6) with 64.
  Z.to_euclidean_division_equations; lia.
Qed.

(** The carry between the counters. *)
Lemma counters l n :
  let bits := u32 (8 * n) in let c0 := u32 (u32 (8 * l) + bits) in
  let c1 := u32 ((8 * l) / UINT_MOD) in
  u32 ((if c0 <? bits then u32 (c1 + 1) else c1) + n / 536870912) = u32 ((8 * (l + n)) / UINT_MOD).
Proof.
  intros bits c0 c1.
  assert (E : (8 * (l + n)) / UINT_MOD
    = (8 * l) / UINT_MOD + n / 536870912 + (if c0 <? bits then 1 else 0)).
  { subst c0 bits. unfold u32, UINT_MOD.
    destruct (Z.ltb_spec ((((8 * l) mod 4294967296 + (8 * n) mod 4294967296)) mod 4294967296)
      ((8 * n) mod 4294967296)); Z.to_euclidean_division_equations; lia. }
  rewrite E. subst c1. destruct (c0 <? bits).
  - rewrite u32_add_l, u32_add_l2. f_equal. lia.
  - rewrite u32_add_l. f_equal. lia.
Qed.

(** ** MD5Update *)

Lemma length_memcpy dst i src : 0 <= i -> (Z.to_nat i + List.length src <= List.length dst)%nat ->
  List.length (memcpy dst i src) = List.length dst.
Proof. intros Hi H. unfold memcpy. rewrite !length_app, length_take, length_drop. lia. Qed.

(** The part of the buffer that a copy has filled. *)
Lemma take_memcpy dst i src n :
  (i <= List.length dst)%nat -> n = (i + List.length src)%nat ->
  take n (memcpy dst (Z.of_nat i) src) = take i dst ++ src.
Proof.
  intros Hi ->. unfold memcpy. rewrite Nat2Z.id, app_assoc.
  apply take_app_length'. rewrite length_app, length_take. lia.
Qed.

(** The loop over the whole blocks of the input, from [i] to [n]. *)
Lemma update_loop_spec input n k fuel s i :
  Forall byte input -> (n <= List.length input)%nat -> Z.of_nat n < UINT_MOD - 64 ->
  (i <= n)%nat -> k = ((n - i) / 64)%nat -> (k < fuel)%nat ->
  update_loop fuel s input (Z.of_nat i) (Z.of_nat n)
  = Ret (compress_blocks k s (drop i input), Z.of_nat (i + 64 * k)).
Proof.
  intros Hb Hn Hlim. unfold UINT_MOD in Hlim. revert fuel s i.
  induction k as [|k IH]; intros [|fuel] s i Hi Hk Hf; try lia; cbn [update_loop].
  - assert ((n - i < 64)%nat) by (apply Nat.div_small_iff; lia).
    rewrite u32_small by (unfold UINT_MOD; lia).
    destruct (Z.ltb_spec (Z.of_nat i + 63) (Z.of_nat n)); [lia|]. do 3 f_equal. lia.
  - assert (64 <= n - i)%nat.
    { destruct (decide (n - i < 64)%nat) as [H|]; [|lia]. rewrite Nat.div_small in Hk; lia. }
    rewrite !u32_small by (unfold UINT_MOD; lia).
    destruct (Z.ltb_spec (Z.of_nat i + 63) (Z.of_nat n)); [|lia].
    destruct (Z.ltb_spec (Z.of_nat n) (Z.of_nat i + 64)); [lia|]. rewrite Nat2Z.id.
    replace (Z.of_nat i + 64) with (Z.of_nat (i + 64)) by lia.
    rewrite IH; [|lia| |lia].
    2:{ replace (n - i)%nat with (n - (i + 64) + 1 * 64)%nat in Hk by lia.
        rewrite Nat.div_add in Hk by lia. lia. }
    rewrite MD5Transform_compress; [|rewrite length_take, length_drop; lia|].
    2:{ by apply Forall_take, Forall_drop. }
    cbn [compress_blocks]. rewrite drop_drop. do 3 f_equal; lia.
Qed.

Section Update.
Context (ctx : MD5_CTX) (m input : list Z) (n : nat).
Context (Hok : ctx_ok ctx m) (Hm : Forall byte m) (Hb : Forall byte input).
Context (Hn : (n <= List.length input)%nat) (Hlim : Z.of_nat n < UINT_MOD - 64).

Let q := (List.length m / 64)%nat.
Let r := (List.length m mod 64)%nat.
Let inp := take n input.

Lemma length_split : List.length m = (64 * q + r)%nat /\ (r < 64)%nat.
Proof. split; [apply Nat.div_mod_eq|apply Nat.mod_upper_bound; lia]. Qed.

Lemma length_inp : List.length inp = n.
Proof. unfold inp. rewrite length_take. lia. Qed.

Lemma length_left : List.length (drop (64 * q) m) = r.
Proof. rewrite length_drop. pose proof length_split. lia. Qed.

(** The new bytes that do not complete a block stay in the buffer. *)
Lemma short_ok c0 c1 : (n < 64 - r)%nat ->
  c0 = u32 (8 * (len m + Z.of_nat n)) -> c1 = u32 ((8 * (len m + Z.of_nat n)) / UINT_MOD) ->
  ctx_ok (mkCtx (state ctx) c0 c1 (memcpy (buffer ctx) (Z.of_nat r) inp)) (m ++ inp).
Proof.
  intros Hlt -> ->. pose proof length_split as [Hl Hr]. pose proof length_inp as Hi.
  assert (Eq : (List.length (m ++ inp) / 64 = q)%nat).
  { rewrite length_app, Hl. symmetry. apply (Nat.div_unique _ _ _ (r + n)); lia. }
  assert (Er : (List.length (m ++ inp) mod 64 = r + n)%nat).
  { rewrite length_app, Hl. symmetry. apply (Nat.mod_unique _ _ q); lia. }
  assert (El : len (m ++ inp) = len m + Z.of_nat n) by (unfold len; rewrite length_app; lia).
  destruct Hok as [Hs Hc0 Hc1 HL HB].
  constructor; cbn [state count0 count1 buffer]; rewrite ?El, ?Eq, ?Er; try done.
  - rewrite compress_blocks_app by (fold q in Hs; lia). exact Hs.
  - rewrite length_memcpy; [done|lia|]. rewrite Nat2Z.id. lia.
  - rewrite take_memcpy by lia. rewrite drop_app_le by lia. f_equal. exact HB.
Qed.

(** Otherwise the first block is completed, and the rest of the input goes on from there. *)
Lemma long_ok c0 c1 : (64 - r <= n)%nat ->
  c0 = u32 (8 * (len m + Z.of_nat n)) -> c1 = u32 ((8 * (len m + Z.of_nat n)) / UINT_MOD) ->
  let part := (64 - r)%nat in let k := ((n - part) / 64)%nat in
  let buf := memcpy (buffer ctx) (Z.of_nat r) (take part input) in
  let s := compress_blocks k (MD5Transform (state ctx) buf) (drop part input) in
  ctx_ok (mkCtx s c0 c1 (memcpy buf 0 (drop (part + 64 * k) inp))) (m ++ inp).
Proof.
  intros Hge -> -> part k buf s. pose proof length_split as [Hl Hr]. pose proof length_inp as Hi.
  pose proof (Nat.div_mod_eq (n - part) 64) as Hk. fold k in Hk.
  pose proof (Nat.mod_upper_bound (n - part) 64 ltac:(lia)) as Hk'.
  destruct Hok as [Hs Hc0 Hc1 HL HB]. fold q r in Hs, HB.
  assert (Eq : (List.length (m ++ inp) / 64 = q + S k)%nat).
  { rewrite length_app, Hl. symmetry. apply (Nat.div_unique _ _ _ ((n - part) mod 64)); lia. }
  assert (Er : (List.length (m ++ inp) mod 64 = (n - part) mod 64)%nat).
  { rewrite length_app, Hl. symmetry. apply (Nat.mod_unique _ _ (q + S k)); lia. }
  assert (El : len (m ++ inp) = len m + Z.of_nat n) by (unfold len; rewrite length_app; lia).
  assert (Ebuf : buf = drop (64 * q) m ++ take part inp).
  { unfold buf, memcpy, inp. rewrite Nat2Z.id, take_take, Nat.min_l by lia.
    rewrite drop_ge by (rewrite length_take; lia). by rewrite app_nil_r, HB. }
  assert (Lbuf : List.length buf = 64%nat).
  { rewrite Ebuf, length_app, length_left, length_take. lia. }
  assert (Etake : take 64 (drop (64 * q) (m ++ inp)) = buf).
  { rewrite Ebuf, drop_app_le by lia. rewrite take_app, length_left.
    rewrite (take_ge (drop _ m)) by (rewrite length_left; lia). done. }
  constructor; cbn [state count0 count1 buffer]; rewrite ?El, ?Eq, ?Er; try done.
  - rewrite compress_blocks_add. cbn [compress_blocks]. rewrite Etake.
    rewrite compress_blocks_app by lia. rewrite <- Hs. unfold s.
    rewrite MD5Transform_compress; [|done|].
    2:{ rewrite Ebuf. apply Forall_app. split; [by apply Forall_drop|].
        by apply Forall_take, Forall_take. }
    rewrite drop_drop, drop_app_ge by lia.
    rewrite <- (take_drop n input) at 1. fold inp.
    rewrite drop_app_le by lia. rewrite compress_blocks_app by (rewrite length_drop; lia).
    f_equal. f_equal. lia.
  - rewrite length_memcpy; [done|lia|]. rewrite length_drop. lia.
  - change 0 with (Z.of_nat 0). rewrite take_memcpy; [|lia|rewrite length_drop; lia].
    rewrite drop_app_ge by lia. simpl. f_equal. lia.
Qed.

Lemma MD5Update_ok : exists ctx',
  MD5Update ctx input (Z.of_nat n) = Ret ctx' /\ ctx_ok ctx' (m ++ take n input).
Proof.
  unfold MD5Update. rewrite (ok_count0 _ _ Hok), (ok_count1 _ _ Hok), index_ok.
  assert (Ei : len m mod 64 = Z.of_nat r) by (unfold len, r; by rewrite Nat2Z.inj_mod).
  pose proof length_split as [Hl Hr]. rewrite Ei.
  replace (64 - Z.of_nat r) with (Z.of_nat (64 - r)) by lia.
  rewrite Z.shiftr_div_pow2 by lia. unfold shl32, add32. rewrite shl_mul by lia.
  change (2 ^ 3) with 8. change (2 ^ 29) with 536870912. rewrite (Z.mul_comm (Z.of_nat n) 8).
  rewrite (counters (len m) (Z.of_nat n)), u32_add_l, u32_add_r, <- Z.mul_add_distr_l.
  destruct (Z.leb_spec (Z.of_nat (64 - r)) (Z.of_nat n)).
  - rewrite (update_loop_spec input n ((n - (64 - r)) / 64)); [|done..|lia|done|].
    2:{ pose proof (Nat.Div0.div_le_upper_bound (n - (64 - r)) 64 (n - (64 - r))). lia. }
    cbn [obind fst snd]. eexists. split; [reflexivity|]. rewrite !Nat2Z.id.
    rewrite <- Nat2Z.inj_sub, Nat2Z.id, <- skipn_firstn_comm.
    2:{ pose proof (Nat.Div0.mul_div_le (n - (64 - r)) 64). lia. }
    by apply long_ok; [lia|..].
  - cbn [obind]. eexists. split; [reflexivity|].
    rewrite Z.sub_0_r, Nat2Z.id. simpl. apply short_ok; [lia|done..].
Qed.
End Update.

(** ** The digest *)

Lemma padding_bytes : Forall byte PADDING.
Proof. apply Forall_cons. { done. } by apply Forall_replicate. Qed.

Lemma take_PADDING n : (0 < n <= 64)%nat -> take n PADDING = [0x80] ++ replicate (n - 1) 0.
Proof.
  intros Hn. destruct n as [|n]; [lia|]. unfold PADDING.
  rewrite firstn_cons. simpl app. f_equal. rewrite ?Nat.sub_succ, Nat.sub_0_r.
  rewrite take_replicate. f_equal. lia.
Qed.

Lemma MD5Final_ok ctx m : ctx_ok ctx m -> Forall byte m -> MD5Final ctx = Ret (md5_spec m).
Proof.
  intros Hok Hm. unfold MD5Final. rewrite (ok_count0 _ _ Hok), (ok_count1 _ _ Hok), index_ok.
  set (p := Z.to_nat (pad_zeroes (len m))).
  assert (Hp : (if len m mod 64 <? 56 then 56 - len m mod 64 else 120 - len m mod 64)
               = Z.of_nat (S p)).
  { subst p. unfold pad_zeroes.
    destruct (Z.ltb_spec (len m mod 64) 56); Z.to_euclidean_division_equations; lia. }
  assert (Hr : (S p <= 64)%nat).
  { subst p. unfold pad_zeroes. pose proof (Z.mod_pos_bound (55 - len m) 64). lia. }
  rewrite Hp.
  destruct (MD5Update_ok ctx m PADDING (S p) Hok Hm padding_bytes) as (ctx1 & E1 & Hok1);
    [simpl; rewrite ?length_replicate; lia|unfold UINT_MOD; lia|].
  rewrite E1. cbn [obind].
  rewrite take_PADDING in Hok1 by lia.
  set (bits := Encode _).
  change (MD5Update ctx1 bits 8) with (MD5Update ctx1 bits (Z.of_nat 8)).
  destruct (MD5Update_ok ctx1 (m ++ [0x80] ++ replicate (S p - 1) 0) bits 8 Hok1)
    as (ctx2 & E2 & Hok2); [|apply Encode_bytes|done|done|].
  { apply Forall_app. split; [done|]. apply Forall_cons; [done|]. by apply Forall_replicate. }
  rewrite E2. cbn [obind]. rewrite (ok_state _ _ Hok2). rewrite take_ge by done.
  unfold md5_spec. do 2 f_equal.
  assert (Ep : (m ++ [128] ++ replicate (S p - 1) 0) ++ bits = padded m).
  { unfold padded. fold (len m). rewrite <- !app_assoc. do 3 f_equal. f_equal. subst p. lia. }
  by rewrite Ep.
Qed.

Lemma md5_signature_ok garbage key :
  List.length garbage = 64%nat -> Forall byte key -> len key < UINT_MOD - 64 ->
  md5_signature garbage key (len key) = Ret (md5_spec key).
Proof.
  intros Hg Hb Hl. unfold md5_signature.
  destruct (MD5Update_ok (MD5Init garbage) [] key (List.length key)) as (ctx & E & Hok);
    [by apply MD5Init_ok|done..|].
  unfold len at 1. rewrite E. cbn [obind]. simpl in Hok. rewrite take_ge in Hok by done.
  by apply MD5Final_ok.
Qed.

Lemma lor_bytes_high b0 b1 b2 b3 : byte b0 -> byte b1 -> byte b2 -> byte b3 ->
  Z.lor (Z.lor (Z.lor (shl32 b3 24) (shl32 b2 16)) (shl32 b1 8)) b0 = le32 b0 b1 b2 b3.
Proof.
  intros. rewrite <- lor_bytes by done. apply Z.bits_inj'. intros i _. rewrite !Z.lor_spec.
  by destruct (Z.testbit b0 i), (Z.testbit (shl32 b1 8) i), (Z.testbit (shl32 b2 16) i),
    (Z.testbit (shl32 b3 24) i).
Qed.

(** [hashkit_md5] is the first word of the digest. *)
Lemma hashkit_md5_ok garbage key :
  List.length garbage = 64%nat -> size key < UINT_MOD - 64 ->
  exists v, hashkit_md5 garbage key = Ret v /\ word32 v /\
    v = word_of (md5_spec (map uchar key)) 0.
Proof.
  intros Hg Hl. unfold hashkit_md5.
  assert (Hb : Forall byte (map uchar key)).
  { apply List.Forall_map, List.Forall_forall. intros c _. apply uchar_byte. }
  assert (El : len (map uchar key) = u32 (size key)).
  { unfold len, size. rewrite length_map, u32_small; [done|]. unfold size in Hl. lia. }
  rewrite <- El, md5_signature_ok; [|done..|rewrite El; unfold u32; rewrite Z.mod_small; unfold size, UINT_MOD in *; lia].
  cbn [obind]. eexists. split; [done|].
  assert (Hs : Forall byte (md5_spec (map uchar key))) by apply Encode_bytes.
  unfold md5_spec in *. cbn [Encode] in *. rewrite !Forall_cons_iff in Hs.
  destruct Hs as (H0 & H1 & H2 & H3 & _). unfold aget. simpl. rewrite !mask8 in *.
  rewrite !Z.mod_mod by lia.
  rewrite lor_bytes_high by (by apply Z.mod_pos_bound). split; [|done].
  apply le32_word; by apply Z.mod_pos_bound.
Qed.
