(* ===== verification/HashSmall.v ===== *)
(** * The small hash functions of libhashkit

    one_at_a_time.cc, fnv_32.cc, fnv_64.cc, crc32.cc, murmur.cc, murmur3.cc (with
    murmur3_api.cc) and hsieh.cc, each on the characters of the key. A [char] is signed on
    x86, so the conversion of a character to an unsigned word extends its sign. The macros
    of config.h select the full functions or stubs; they are an argument. *)

From stdpp Require Import base list numbers.
From Stdlib Require Import ZArith Lia Ascii.
From S2P Require Import Prelude CxxString HashWords.

(** The switches the build generates. *)
Class HashConfig := {
  HAVE_FNV64_HASH : bool;
  HAVE_HSIEH_HASH : bool;
  HAVE_MURMUR_HASH : bool;
}.

(** ** one_at_a_time.cc *)
Module OneAtATime.

Definition round (value : Z) (c : ascii) : Z :=
  let val := u32 (schar c) in
  let value := add32 value val in
  let value := add32 value (shl32 value 10) in
  Z.lxor value (Z.shiftr value 6).

Definition hashkit_one_at_a_time (key : cstring) : Z :=
  let value := fold_left round key 0 in
  let value := add32 value (shl32 value 3) in
  let value := Z.lxor value (Z.shiftr value 11) in
  add32 value (shl32 value 15).
End OneAtATime.

(** ** fnv_32.cc and fnv_64.cc *)
Module Fnv.

Definition FNV_32_INIT : Z := 2166136261.
Definition FNV_32_PRIME : Z := 16777619.
Definition FNV_64_INIT : Z := 0xcbf29ce484222325.
Definition FNV_64_PRIME : Z := 0x100000001b3.

Definition hashkit_fnv1_32 (key : cstring) : Z :=
  fold_left (fun hash c =>
    let val := u32 (schar c) in
    let hash := mul32 hash FNV_32_PRIME in
    Z.lxor hash val) key FNV_32_INIT.

Definition hashkit_fnv1a_32 (key : cstring) : Z :=
  fold_left (fun hash c =>
    let val := u32 (schar c) in
    let hash := Z.lxor hash val in
    mul32 hash FNV_32_PRIME) key FNV_32_INIT.

Section Fnv64.
Context `{DM : DataModel} `{HC : HashConfig}.

(** [__WORDSIZE == 64 && defined(HAVE_FNV64_HASH)] *)
Definition fnv64_enabled : bool := (long_bits =? 64) && HAVE_FNV64_HASH.

Definition hashkit_fnv1_64 (key : cstring) : Z :=
  if fnv64_enabled then
    u32 (fold_left (fun hash c =>
      let hash := mul64 hash FNV_64_PRIME in
      Z.lxor hash (u64 (schar c))) key FNV_64_INIT)
  else 0.

(** The hash is a [uint32_t] here. *)
Definition hashkit_fnv1a_64 (key : cstring) : Z :=
  if fnv64_enabled then
    fold_left (fun hash c =>
      let val := u32 (schar c) in
      let hash := Z.lxor hash val in
      mul32 hash (u32 FNV_64_PRIME)) key (u32 FNV_64_INIT)
  else 0.
End Fnv64.

(** The 64-bit FNV-1a hash. *)
Definition fnv1a_64_spec (key : cstring) : Z :=
  fold_left (fun hash c => mul64 (Z.lxor hash (u64 (schar c))) FNV_64_PRIME) key FNV_64_INIT.
End Fnv.

(** ** crc32.cc *)
Module Crc32.

Definition crc32tab : list Z := [
  0x00000000; 0x77073096; 0xee0e612c; 0x990951ba;
  0x076dc419; 0x706af48f; 0xe963a535; 0x9e6495a3;
  0x0edb8832; 0x79dcb8a4; 0xe0d5e91e; 0x97d2d988;
  0x09b64c2b; 0x7eb17cbd; 0xe7b82d07; 0x90bf1d91;
  0x1db71064; 0x6ab020f2; 0xf3b97148; 0x84be41de;
  0x1adad47d; 0x6ddde4eb; 0xf4d4b551; 0x83d385c7;
  0x136c9856; 0x646ba8c0; 0xfd62f97a; 0x8a65c9ec;
  0x14015c4f; 0x63066cd9; 0xfa0f3d63; 0x8d080df5;
  0x3b6e20c8; 0x4c69105e; 0xd56041e4; 0xa2677172;
  0x3c03e4d1; 0x4b04d447; 0xd20d85fd; 0xa50ab56b;
  0x35b5a8fa; 0x42b2986c; 0xdbbbc9d6; 0xacbcf940;
  0x32d86ce3; 0x45df5c75; 0xdcd60dcf; 0xabd13d59;
  0x26d930ac; 0x51de003a; 0xc8d75180; 0xbfd06116;
  0x21b4f4b5; 0x56b3c423; 0xcfba9599; 0xb8bda50f;
  0x2802b89e; 0x5f058808; 0xc60cd9b2; 0xb10be924;
  0x2f6f7c87; 0x58684c11; 0xc1611dab; 0xb6662d3d;
  0x76dc4190; 0x01db7106; 0x98d220bc; 0xefd5102a;
  0x71b18589; 0x06b6b51f; 0x9fbfe4a5; 0xe8b8d433;
  0x7807c9a2; 0x0f00f934; 0x9609a88e; 0xe10e9818;
  0x7f6a0dbb; 0x086d3d2d; 0x91646c97; 0xe6635c01;
  0x6b6b51f4; 0x1c6c6162; 0x856530d8; 0xf262004e;
  0x6c0695ed; 0x1b01a57b; 0x8208f4c1; 0xf50fc457;
  0x65b0d9c6; 0x12b7e950; 0x8bbeb8ea; 0xfcb9887c;
  0x62dd1ddf; 0x15da2d49; 0x8cd37cf3; 0xfbd44c65;
  0x4db26158; 0x3ab551ce; 0xa3bc0074; 0xd4bb30e2;
  0x4adfa541; 0x3dd895d7; 0xa4d1c46d; 0xd3d6f4fb;
  0x4369e96a; 0x346ed9fc; 0xad678846; 0xda60b8d0;
  0x44042d73; 0x33031de5; 0xaa0a4c5f; 0xdd0d7cc9;
  0x5005713c; 0x270241aa; 0xbe0b1010; 0xc90c2086;
  0x5768b525; 0x206f85b3; 0xb966d409; 0xce61e49f;
  0x5edef90e; 0x29d9c998; 0xb0d09822; 0xc7d7a8b4;
  0x59b33d17; 0x2eb40d81; 0xb7bd5c3b; 0xc0ba6cad;
  0xedb88320; 0x9abfb3b6; 0x03b6e20c; 0x74b1d29a;
  0xead54739; 0x9dd277af; 0x04db2615; 0x73dc1683;
  0xe3630b12; 0x94643b84; 0x0d6d6a3e; 0x7a6a5aa8;
  0xe40ecf0b; 0x9309ff9d; 0x0a00ae27; 0x7d079eb1;
  0xf00f9344; 0x8708a3d2; 0x1e01f268; 0x6906c2fe;
  0xf762575d; 0x806567cb; 0x196c3671; 0x6e6b06e7;
  0xfed41b76; 0x89d32be0; 0x10da7a5a; 0x67dd4acc;
  0xf9b9df6f; 0x8ebeeff9; 0x17b7be43; 0x60b08ed5;
  0xd6d6a3e8; 0xa1d1937e; 0x38d8c2c4; 0x4fdff252;
  0xd1bb67f1; 0xa6bc5767; 0x3fb506dd; 0x48b2364b;
  0xd80d2bda; 0xaf0a1b4c; 0x36034af6; 0x41047a60;
  0xdf60efc3; 0xa867df55; 0x316e8eef; 0x4669be79;
  0xcb61b38c; 0xbc66831a; 0x256fd2a0; 0x5268e236;
  0xcc0c7795; 0xbb0b4703; 0x220216b9; 0x5505262f;
  0xc5ba3bbe; 0xb2bd0b28; 0x2bb45a92; 0x5cb36a04;
  0xc2d7ffa7; 0xb5d0cf31; 0x2cd99e8b; 0x5bdeae1d;
  0x9b64c2b0; 0xec63f226; 0x756aa39c; 0x026d930a;
  0x9c0906a9; 0xeb0e363f; 0x72076785; 0x05005713;
  0x95bf4a82; 0xe2b87a14; 0x7bb12bae; 0x0cb61b38;
  0x92d28e9b; 0xe5d5be0d; 0x7cdcefb7; 0x0bdbdf21;
  0x86d3d2d4; 0xf1d4e242; 0x68ddb3f8; 0x1fda836e;
  0x81be16cd; 0xf6b9265b; 0x6fb077e1; 0x18b74777;
  0x88085ae6; 0xff0f6a70; 0x66063bca; 0x11010b5c;
  0x8f659eff; 0xf862ae69; 0x616bffd3; 0x166ccf45;
  0xa00ae278; 0xd70dd2ee; 0x4e048354; 0x3903b3c2;
  0xa7672661; 0xd06016f7; 0x4969474d; 0x3e6e77db;
  0xaed16a4a; 0xd9d65adc; 0x40df0b66; 0x37d83bf0;
  0xa9bcae53; 0xdebb9ec5; 0x47b2cf7f; 0x30b5ffe9;
  0xbdbdf21c; 0xcabac28a; 0x53b39330; 0x24b4a3a6;
  0xbad03605; 0xcdd70693; 0x54de5729; 0x23d967bf;
  0xb3667a2e; 0xc4614ab8; 0x5d681b02; 0x2a6f2b94;
  0xb40bbe37; 0xc30c8ea1; 0x5a05df1b; 0x2d02ef8d
].

(** [(crc ^ (uint64_t)key[x]) & 0xff] is an index below 256. *)
Definition step (crc : Z) (c : ascii) : Z :=
  Z.lxor (Z.shiftr crc 8) (aget crc32tab (Z.land (Z.lxor crc (u64 (schar c))) 0xff)).

Definition hashkit_crc32 (key : cstring) : Z :=
  let crc := fold_left step key 0xffffffff in
  Z.land (Z.shiftr (not32 crc) 16) 0x7fff.

(** *** Reference: the division of CRC-32, bit by bit *)

Definition crc_bit (crc : Z) : Z :=
  if Z.odd crc then Z.lxor (Z.shiftr crc 1) 0xedb88320 else Z.shiftr crc 1.

Fixpoint crc_bits (n : nat) (crc : Z) : Z :=
  match n with O => crc | S n' => crc_bits n' (crc_bit crc) end.

(** The CRC-32 register before the final complement. *)
Definition crc_register (key : cstring) : Z :=
  fold_left (fun crc c => crc_bits 8 (Z.lxor crc (uchar c))) key 0xffffffff.

Definition crc32_spec (key : cstring) : Z :=
  Z.land (Z.shiftr (Z.lxor (crc_register key) 0xffffffff) 16) 0x7fff.
End Crc32.

(** ** murmur.cc *)
Module Murmur.
Section Murmur.
Context `{HC : HashConfig}.

Definition m : Z := 0x5bd1e995.

(** [while (length >= 4)]: the hash and the bytes that are left. *)
Fixpoint murmur_body (h : Z) (data : list Z) : Z * list Z :=
  match data with
  | d0 :: d1 :: d2 :: d3 :: data' =>
    let k := le32 d0 d1 d2 d3 in
    let k := mul32 k m in
    let k := Z.lxor k (Z.shiftr k 24) in
    let k := mul32 k m in
    let h := mul32 h m in
    murmur_body (Z.lxor h k) data'
  | _ => (h, data)
  end.

(** The switch over the rest; the cases fall through. *)
Definition murmur_rest (h : Z) (data : list Z) : Z :=
  match data with
  | [d0; d1; d2] =>
    mul32 (Z.lxor (Z.lxor (Z.lxor h (shl32 d2 16)) (shl32 d1 8)) d0) m
  | [d0; d1] => mul32 (Z.lxor (Z.lxor h (shl32 d1 8)) d0) m
  | [d0] => mul32 (Z.lxor h d0) m
  | _ => h
  end.

Definition hashkit_murmur (key : cstring) : Z :=
  if HAVE_MURMUR_HASH then
    let length := u32 (size key) in
    let seed := mul32 0xdeadbeef length in
    let '(h, data) := murmur_body (Z.lxor seed length) (map uchar key) in
    let h := murmur_rest h data in
    let h := Z.lxor h (Z.shiftr h 13) in
    let h := mul32 h m in
    Z.lxor h (Z.shiftr h 15)
  else 0.
End Murmur.
End Murmur.

(** ** murmur3.cc and murmur3_api.cc *)
Module Murmur3.

Definition c1 : Z := 0xcc9e2d51.
Definition c2 : Z := 0x1b873593.

Definition fmix32 (h : Z) : Z :=
  let h := Z.lxor h (Z.shiftr h 16) in
  let h := mul32 h 0x85ebca6b in
  let h := Z.lxor h (Z.shiftr h 13) in
  let h := mul32 h 0xc2b2ae35 in
  Z.lxor h (Z.shiftr h 16).

(** [k1 *= c1; k1 = ROTL32(k1,15); k1 *= c2;] *)
Definition scramble (k1 : Z) : Z := mul32 (rotl32 (mul32 k1 c1) 15) c2.

(** The loop over the blocks of four bytes: the hash and the tail. *)
Fixpoint murmur3_body (h1 : Z) (data : list Z) : Z * list Z :=
  match data with
  | d0 :: d1 :: d2 :: d3 :: data' =>
    let k1 := scramble (le32 d0 d1 d2 d3) in
    let h1 := Z.lxor h1 k1 in
    let h1 := rotl32 h1 13 in
    murmur3_body (u32 (h1 * 5 + 0xe6546b64)) data'
  | _ => (h1, data)
  end.

(** [switch(len & 3)]; the cases fall through. *)
Definition murmur3_tail (h1 : Z) (data : list Z) : Z :=
  match data with
  | [d0; d1; d2] =>
    Z.lxor h1 (scramble (Z.lxor (Z.lxor (Z.lxor 0 (Z.shiftl d2 16)) (Z.shiftl d1 8)) d0))
  | [d0; d1] => Z.lxor h1 (scramble (Z.lxor (Z.lxor 0 (Z.shiftl d1 8)) d0))
  | [d0] => Z.lxor h1 (scramble (Z.lxor 0 d0))
  | _ => h1
  end.

(** [len] is an [int] that is not negative. *)
Definition MurmurHash3_x86_32 (key : list Z) (len seed : Z) : Z :=
  let '(h1, data) := murmur3_body seed key in
  let h1 := murmur3_tail h1 data in
  fmix32 (Z.lxor h1 len).

(** From 2^31 characters on the conversion of the length to [int] is negative, and the
    loop over the blocks leaves the range of [int]. *)
Definition hashkit_murmur3 (key : cstring) : outcome Z :=
  if 2147483648 <=? size key then Stuck Undefined else
  let seed := mul32 0xdeadbeef (u32 (size key)) in
  Ret (MurmurHash3_x86_32 (map uchar key) (size key) seed).
End Murmur3.

(** ** hsieh.cc *)
Module Hsieh.
Section Hsieh.
Context `{HC : HashConfig}.

Definition get16bits (d : cstring) : Z :=
  match d with
  | c0 :: c1 :: _ => shl32 (uchar c1) 8 + uchar c0
  | _ => 0
  end.

(** The loop over [key_length >> 2] blocks. *)
Fixpoint main_loop (hash : Z) (key : cstring) : Z * cstring :=
  match key with
  | c0 :: c1 :: c2 :: c3 :: key' =>
    let hash := add32 hash (get16bits [c0; c1]) in
    let tmp := Z.lxor (shl32 (get16bits [c2; c3]) 11) hash in
    let hash := Z.lxor (shl32 hash 16) tmp in
    main_loop (add32 hash (Z.shiftr hash 11)) key'
  | _ => (hash, key)
  end.

(** [switch (rem)]; in case 3 the last character is read as a signed [char]. *)
Definition end_cases (hash : Z) (key : cstring) : Z :=
  match key with
  | [c0; c1; c2] =>
    let hash := add32 hash (get16bits [c0; c1]) in
    let hash := Z.lxor hash (shl32 hash 16) in
    let hash := Z.lxor hash (shl32 (u32 (schar c2)) 18) in
    add32 hash (Z.shiftr hash 11)
  | [c0; c1] =>
    let hash := add32 hash (get16bits [c0; c1]) in
    let hash := Z.lxor hash (shl32 hash 11) in
    add32 hash (Z.shiftr hash 17)
  | [c0] =>
    let hash := add32 hash (uchar c0) in
    let hash := Z.lxor hash (shl32 hash 10) in
    add32 hash (Z.shiftr hash 1)
  | _ => hash
  end.

Definition avalanche (hash : Z) : Z :=
  let hash := Z.lxor hash (shl32 hash 3) in
  let hash := add32 hash (Z.shiftr hash 5) in
  let hash := Z.lxor hash (shl32 hash 4) in
  let hash := add32 hash (Z.shiftr hash 17) in
  let hash := Z.lxor hash (shl32 hash 25) in
  add32 hash (Z.shiftr hash 6).

Definition hashkit_hsieh (key : cstring) : Z :=
  if HAVE_HSIEH_HASH then
    if size key <=? 0 then 0 else
    let '(hash, key) := main_loop 0 key in
    avalanche (end_cases hash key)
  else 0.
End Hsieh.
End Hsieh.

(** * The small hash functions: references and ranges

    The table of crc32.cc holds eight steps of the bitwise division for every byte, so the
    table-driven loop is CRC-32; the 32-bit loop of [hashkit_fnv1a_64] computes the low half
    of FNV-1a; every function returns a 32-bit word. *)

Lemma land_lxor x y z : Z.land (Z.lxor x y) z = Z.lxor (Z.land x z) (Z.land y z).
Proof.
  apply Z.bits_inj'. intros i _. rewrite ?Z.land_spec, ?Z.lxor_spec, ?Z.land_spec.
  by destruct (Z.testbit x i), (Z.testbit y i), (Z.testbit z i).
Qed.

Lemma byte_word b : byte b -> word32 b.
Proof. unfold byte, word32, UINT_MOD. lia. Qed.

(** ** CRC-32 *)
Module Crc32Spec.
Import Crc32.

Lemma odd_lxor x y : Z.odd (Z.lxor x y) = xorb (Z.odd x) (Z.odd y).
Proof. by rewrite <- !Z.bit0_odd, Z.lxor_spec. Qed.

(** The division is linear. *)
Lemma crc_bit_lxor x y : crc_bit (Z.lxor x y) = Z.lxor (crc_bit x) (crc_bit y).
Proof.
  unfold crc_bit. rewrite odd_lxor, Z.shiftr_lxor. generalize (Z.shiftr x 1), (Z.shiftr y 1).
  intros a b. destruct (Z.odd x), (Z.odd y); simpl; apply Z.bits_inj'; intros i _;
    rewrite !Z.lxor_spec; destruct (Z.testbit a i), (Z.testbit b i), (Z.testbit 0xedb88320 i); done.
Qed.

Lemma crc_bits_lxor n x y : crc_bits n (Z.lxor x y) = Z.lxor (crc_bits n x) (crc_bits n y).
Proof. revert x y. induction n as [|n IH]; intros x y; simpl; [done|]. by rewrite crc_bit_lxor. Qed.

(** Zero bits at the bottom are only shifted out. *)
Lemma crc_bits_shift n z : crc_bits n (Z.shiftl z (Z.of_nat n)) = z.
Proof.
  revert z. induction n as [|n IH]; intros z; [apply Z.shiftl_0_r|].
  cbn [crc_bits]. rewrite <- (IH z) at 2. f_equal. unfold crc_bit.
  replace (Z.of_nat (S n)) with (1 + Z.of_nat n) by lia.
  rewrite <- Z.bit0_odd, Z.shiftl_spec_low by lia. rewrite Z.shiftr_shiftl_r by lia.
  replace (1 - (1 + Z.of_nat n)) with (- Z.of_nat n) by lia. by rewrite Z.shiftr_opp_r.
Qed.

Lemma low_byte_split x : x = Z.lxor (Z.shiftl (Z.shiftr x 8) 8) (Z.land x 0xff).
Proof.
  change 0xff with (Z.ones 8). apply Z.bits_inj'. intros i Hi.
  rewrite Z.lxor_spec, Z.land_spec. destruct (decide (i < 8)).
  - rewrite Z.shiftl_spec_low, Z.ones_spec_low by lia. by rewrite andb_true_r.
  - rewrite Z.shiftl_spec_high, Z.shiftr_spec, Z.ones_spec_high by lia.
    rewrite andb_false_r, xorb_false_r. f_equal. lia.
Qed.

Lemma crc_bits_byte x :
  crc_bits 8 x = Z.lxor (Z.shiftr x 8) (crc_bits 8 (Z.land x 0xff)).
Proof.
  rewrite (low_byte_split x) at 1. rewrite crc_bits_lxor. f_equal.
  apply (crc_bits_shift 8 (Z.shiftr x 8)).
Qed.

Lemma crc32tab_bits i : 0 <= i < 256 -> aget crc32tab i = crc_bits 8 i.
Proof.
  intros Hi. assert (E : crc32tab = map (crc_bits 8) (seqZ 0 256)) by (vm_compute; reflexivity).
  unfold aget. rewrite E. apply list_lookup_total_correct. rewrite list_lookup_fmap.
  rewrite lookup_seqZ_lt by lia.
  by rewrite Z2Nat.id, Z.add_0_l by lia.
Qed.

(** The sign that a negative [char] brings along is masked out. *)
Lemma low_byte_char c : Z.land (u64 (schar c)) 0xff = uchar c.
Proof.
  rewrite mask8. unfold u64, schar. pose proof (uchar_byte c) as H. unfold byte in H.
  destruct (Z.ltb_spec (uchar c) 128).
  - rewrite (Z.mod_small (uchar c)) by lia. apply Z.mod_small. lia.
  - rewrite <- (Z.mod_add (uchar c - 256) 1 18446744073709551616) by lia.
    rewrite (Z.mod_small (uchar c - 256 + _)) by lia.
    symmetry. apply (Z.mod_unique _ _ 72057594037927935); lia.
Qed.

Lemma uchar_mask c : Z.land (uchar c) 0xff = uchar c.
Proof. rewrite mask8. apply Z.mod_small, uchar_byte. Qed.

Lemma step_bits crc c : step crc c = crc_bits 8 (Z.lxor crc (uchar c)).
Proof.
  unfold step. rewrite (crc_bits_byte (Z.lxor crc (uchar c))), Z.shiftr_lxor.
  assert (Hs : Z.shiftr (uchar c) 8 = 0).
  { rewrite Z.shiftr_div_pow2 by lia. apply Z.div_small, uchar_byte. }
  rewrite Hs, Z.lxor_0_r. f_equal.
  assert (Hm : Z.land (Z.lxor crc (u64 (schar c))) 0xff = Z.land (Z.lxor crc (uchar c)) 0xff).
  { by rewrite !land_lxor, low_byte_char, uchar_mask. }
  rewrite Hm. apply crc32tab_bits. rewrite mask8. by apply Z.mod_pos_bound.
Qed.

Lemma crc_bit_word x : word32 x -> word32 (crc_bit x).
Proof.
  intros H. unfold crc_bit. destruct (Z.odd x); [apply word32_lxor; [|done]|];
    by apply word32_shiftr.
Qed.

Lemma crc_bits_word n x : word32 x -> word32 (crc_bits n x).
Proof. revert x. induction n as [|n IH]; intros x H; simpl; [done|]. apply IH. by apply crc_bit_word. Qed.

Lemma crc_register_word key : word32 (crc_register key).
Proof.
  unfold crc_register. assert (H : word32 0xffffffff) by done. revert H.
  generalize 0xffffffff. induction key as [|c key IH]; intros r H; [done|].
  cbn [fold_left]. apply IH, crc_bits_word, word32_lxor; [done|]. apply byte_word, uchar_byte.
Qed.

Lemma register_loop key r : fold_left step key r
  = fold_left (fun crc c => crc_bits 8 (Z.lxor crc (uchar c))) key r.
Proof. revert r. induction key as [|c key IH]; intros r; [done|]. cbn [fold_left]. by rewrite step_bits, IH. Qed.

Lemma not32_lxor x : word32 x -> not32 x = Z.lxor x 0xffffffff.
Proof.
  intros H. unfold not32, u32, UINT_MOD. change 4294967296 with (2 ^ 32).
  rewrite <- Z.land_ones by lia. apply word32_bits in H as [_ H].
  change 0xffffffff with (Z.ones 32). apply Z.bits_inj'. intros i Hi.
  rewrite Z.land_spec, Z.lnot_spec, Z.lxor_spec by lia. destruct (decide (i < 32)).
  - rewrite Z.ones_spec_low by lia. by destruct (Z.testbit x i).
  - rewrite Z.ones_spec_high, H by lia. done.
Qed.

Lemma hashkit_crc32_correct key : hashkit_crc32 key = crc32_spec key.
Proof.
  unfold hashkit_crc32, crc32_spec. rewrite register_loop.
  rewrite not32_lxor; [done|]. apply crc_register_word.
Qed.

(** [((~crc) >> 16) & 0x7fff] keeps fifteen bits. *)
Lemma hashkit_crc32_range key : 0 <= hashkit_crc32 key < 32768.
Proof.
  unfold hashkit_crc32. change 0x7fff with (Z.ones 15). rewrite Z.land_ones by lia.
  by apply Z.mod_pos_bound.
Qed.
End Crc32Spec.

(** ** FNV *)
Module FnvSpec.
Import Fnv.

Lemma u32_land x : u32 x = Z.land x (Z.ones 32).
Proof. unfold u32, UINT_MOD. by rewrite Z.land_ones. Qed.

(** The low half of a product or of an exclusive or depends on the low halves only. *)
Lemma u32_lxor x y : u32 (Z.lxor x y) = Z.lxor (u32 x) (u32 y).
Proof. rewrite !u32_land. apply land_lxor. Qed.

Lemma u32_u64 x : u32 (u64 x) = u32 x.
Proof.
  unfold u32, u64, UINT_MOD. change 18446744073709551616 with (4294967296 * 4294967296).
  rewrite Z.rem_mul_r by lia.
  by rewrite Z.mul_comm, Z.mod_add, Z.mod_mod by lia.
Qed.

Lemma u32_mul64 x y : u32 (mul64 x y) = mul32 (u32 x) (u32 y).
Proof. unfold mul64, mul32. rewrite u32_u64. unfold u32. by rewrite <- Z.mul_mod. Qed.

(** [hashkit_fnv1a_64] works on 32 bits, and yet it returns the low half of FNV-1a. *)
Lemma fnv1a_64_low `{DM : DataModel} `{HC : HashConfig} key :
  fnv64_enabled = true -> hashkit_fnv1a_64 key = u32 (fnv1a_64_spec key).
Proof.
  unfold hashkit_fnv1a_64, fnv1a_64_spec. intros ->. generalize FNV_64_INIT.
  induction key as [|c key IH]; intros h; [done|]. cbn [fold_left].
  by rewrite <- IH, u32_mul64, u32_lxor, u32_u64.
Qed.

Lemma fold_word (f : Z -> ascii -> Z) key h :
  (forall h c, word32 h -> word32 (f h c)) -> word32 h -> word32 (fold_left f key h).
Proof. intros Hf. revert h. induction key as [|c key IH]; intros h Hh; [done|]. apply IH, Hf, Hh. Qed.

Lemma fnv1_32_word key : word32 (hashkit_fnv1_32 key).
Proof. apply fold_word; [|done]. intros h c Hh. apply word32_lxor; apply u32_word. Qed.

Lemma fnv1a_32_word key : word32 (hashkit_fnv1a_32 key).
Proof. apply fold_word; [|done]. intros h c Hh. apply u32_word. Qed.

Lemma fnv1_64_word `{DM : DataModel} `{HC : HashConfig} key : word32 (hashkit_fnv1_64 key).
Proof. unfold hashkit_fnv1_64. destruct fnv64_enabled; [apply u32_word|done]. Qed.

Lemma fnv1a_64_word `{DM : DataModel} `{HC : HashConfig} key : word32 (hashkit_fnv1a_64 key).
Proof.
  unfold hashkit_fnv1a_64. destruct fnv64_enabled; [|done].
  apply fold_word; [|apply u32_word]. intros h c Hh. apply u32_word.
Qed.
End FnvSpec.

(** ** The ranges of the others *)

Lemma one_at_a_time_word key : word32 (OneAtATime.hashkit_one_at_a_time key).
Proof. apply u32_word. Qed.

Lemma murmur_word `{HC : HashConfig} key : word32 (Murmur.hashkit_murmur key).
Proof.
  unfold Murmur.hashkit_murmur. destruct HAVE_MURMUR_HASH; [|done].
  destruct (Murmur.murmur_body _ _) as [h data]. apply word32_lxor; [apply u32_word|].
  apply word32_shiftr; [lia|apply u32_word].
Qed.

Lemma fmix32_word h : word32 (Murmur3.fmix32 h).
Proof.
  apply word32_lxor; [apply u32_word|]. apply word32_shiftr; [lia|apply u32_word].
Qed.

Lemma murmur3_word key :
  size key < 2147483648 -> exists v, Murmur3.hashkit_murmur3 key = Ret v /\ word32 v.
Proof.
  intros H. unfold Murmur3.hashkit_murmur3. destruct (Z.leb_spec 2147483648 (size key)); [lia|].
  eexists. split; [done|]. unfold Murmur3.MurmurHash3_x86_32.
  destruct (Murmur3.murmur3_body _ _). apply fmix32_word.
Qed.

Lemma hsieh_word `{HC : HashConfig} key : word32 (Hsieh.hashkit_hsieh key).
Proof.
  unfold Hsieh.hashkit_hsieh. destruct HAVE_HSIEH_HASH; [|done].
  destruct (_ <=? 0); [done|]. destruct (Hsieh.main_loop _ _). apply u32_word.
Qed.
