(* ===== verification/HashkitString.v ===== *)
(** * Strings of libhashkit: string.cc

    A buffer that grows by blocks of 1024 bytes, and the memory it comes from. The allocator
    is an argument: whether a request is granted, and what a new block holds. A computation
    counts its requests; a store outside the buffer is undefined. *)

From stdpp Require Import base list numbers.
From Stdlib Require Import ZArith Lia.
From S2P Require Import Prelude HashWords.

(** Whether request number [k] for so many bytes is granted, and the bytes of the block. *)
Class Allocator := {
  grants : nat -> Z -> bool;
  content : nat -> Z -> Z;
}.

Section Memory.
Context `{AL : Allocator}.

Definition fresh (k : nat) (size : Z) : list Z := map (fun i => content k i mod 256) (seqZ 0 size).

(** [malloc(size)] *)
Definition malloc (size : Z) : ST nat (option (list Z)) := fun k =>
  (Ret (if grants k size then Some (fresh k size) else None), S k).

(** [calloc(1, size)] of a structure whose members are then set: whether it is granted. *)
Definition calloc (size : Z) : ST nat bool := fun k => (Ret (grants k size), S k).

(** [realloc(p, size)] for a size not smaller than the block: its bytes are kept. *)
Definition realloc (p : option (list Z)) (size : Z) : ST nat (option (list Z)) := fun k =>
  let old := from_option id [] p in
  (Ret (if grants k size then Some (old ++ drop (length old) (fresh k size)) else None), S k).
End Memory.

Definition HASHKIT_BLOCK_SIZE : Z := 1024.

(** [end] is the offset of the pointer from [string], whose null pointer is [None]. *)
Record hashkit_string_st := mkString {
  string_end : Z;
  current_size : Z;
  string : option (list Z);
}.

(** What [calloc] leaves, and what [_init_string] sets. *)
Definition _init_string : hashkit_string_st := mkString 0 0 None.

(** The bytes from [string] to [end]. *)
Definition string_bytes (self : hashkit_string_st) : list Z :=
  take (Z.to_nat (string_end self)) (from_option id [] (string self)).

(** [memcpy] or single stores at an offset of the buffer. *)
Definition poke (self : hashkit_string_st) (o : Z) (bytes : list Z) : outcome hashkit_string_st :=
  match string self with
  | None => if bytes is [] then Ret self else Stuck Undefined
  | Some buf =>
    if (0 <=? o) && (o + Z.of_nat (length bytes) <=? Z.of_nat (length buf))
    then Ret (mkString (string_end self) (current_size self)
               (Some (take (Z.to_nat o) buf ++ bytes ++ drop (Z.to_nat o + length bytes) buf)))
    else Stuck Undefined
  end.

Section Operations.
Context `{DM : DataModel} `{AL : Allocator}.

(** The result, and the object as it is then. *)
Definition _string_check (self : hashkit_string_st) (need : Z) : ST nat (bool * hashkit_string_st) :=
  let room := ulong (current_size self - string_end self) in
  if negb (need =? 0) && (room <? need) then
    let adjust := ulong (ulong (need - room) / HASHKIT_BLOCK_SIZE + 1) in
    let new_size := ulong (adjust * HASHKIT_BLOCK_SIZE + current_size self) in
    if new_size <? need then ret (false, self) else
    let* new_value := realloc (string self) new_size in
    match new_value with
    | None => ret (false, self)
    | Some buf =>
      ret (true, mkString (string_end self)
                   (ulong (current_size self + HASHKIT_BLOCK_SIZE * adjust)) (Some buf))
    end
  else ret (true, self).

Definition hashkit_string_create (initial_size : Z) : ST nat (option hashkit_string_st) :=
  let* ok := calloc (3 * sizeof_ulong) in
  if negb ok then ret None else
  let* r := _string_check _init_string initial_size in
  let '(granted, self) := r in ret (if granted then Some self else None).

Definition hashkit_string_append_character (self : hashkit_string_st) (character : Z)
    : ST nat (bool * hashkit_string_st) :=
  let* r := _string_check self 1 in
  let '(granted, self) := r in
  if negb granted then ret (false, self) else
  let* self := lift (poke self (string_end self) [character]) in
  ret (true, mkString (string_end self + 1) (current_size self) (string self)).

(** The third assertion, [end >= string], is about pointers into one block. *)
Definition hashkit_string_append (self : hashkit_string_st) (value : list Z)
    : ST nat (bool * hashkit_string_st) :=
  let length := Z.of_nat (length value) in
  let* r := _string_check self length in
  let '(granted, self) := r in
  if negb granted then ret (false, self) else
  if negb ((length <=? current_size self) && (if string self is Some _ then true else false)
           && (0 <=? string_end self))
  then stuck AssertionFailed else
  let* self := lift (poke self (string_end self) value) in
  ret (true, mkString (string_end self + length) (current_size self) (string self)).

Definition hashkit_string_length (self : hashkit_string_st) : Z := string_end self.
Definition hashkit_string_max_size (self : hashkit_string_st) : Z := current_size self.

(** The copy, with its terminating null. *)
Definition hashkit_string_c_copy (self : hashkit_string_st) : ST nat (option (list Z)) :=
  if hashkit_string_length self =? 0 then ret None else
  let* c_ptr := malloc (hashkit_string_length self + 1) in
  ret (match c_ptr with None => None | Some _ => Some (string_bytes self ++ [0]) end).

Definition hashkit_string_reset (self : hashkit_string_st) : hashkit_string_st :=
  mkString 0 (current_size self) (string self).

Definition hashkit_string_resize (self : hashkit_string_st) (need : Z)
    : ST nat (bool * hashkit_string_st) := _string_check self need.

(** The buffer, and the emptied object. *)
Definition hashkit_string_take (self : hashkit_string_st) : option (list Z) * hashkit_string_st :=
  (string self, _init_string).

Definition hashkit_string_set_length (self : hashkit_string_st) (length : Z) : ST nat hashkit_string_st :=
  let* r := _string_check self length in
  let '(granted, self) := r in
  ret (if granted then mkString length (current_size self) (string self) else self).
End Operations.

(** ** The invariant of the string *)

(** No block is larger than PTRDIFF_MAX, which malloc(3) documents. *)
Class BoundedAllocator `{DM : DataModel} (AL : Allocator) :=
  grants_bound : forall k size, grants k size = true -> 2 * size < ULONG_MOD.

(** The buffer has the recorded size and [end] points into it, or just behind it. *)
Definition buffer_ok (self : hashkit_string_st) : Prop :=
  match string self with
  | None => self = _init_string
  | Some buf => Z.of_nat (length buf) = current_size self /\ Forall byte buf
  end.
Definition string_ok `{DM : DataModel} (self : hashkit_string_st) : Prop :=
  buffer_ok self /\ 0 <= string_end self <= current_size self /\ 2 * current_size self < ULONG_MOD.

Section Invariant.
Context `{DM : DataModel} `{AL : Allocator} `{BA : !BoundedAllocator AL}.

Lemma length_fresh k size : length (fresh k size) = Z.to_nat size.
Proof using Type. unfold fresh. by rewrite length_map, length_seqZ. Qed.

Lemma byte_fresh k size : Forall byte (fresh k size).
Proof using Type.
  unfold fresh. apply Forall_map, Forall_true. intros i. unfold byte, compose.
  apply Z.mod_pos_bound. lia.
Qed.

Lemma init_ok : string_ok _init_string.
Proof using Type. pose proof ULONG_MOD_ge. unfold UINT_MOD in *. split_and!; done || (cbn; lia). Qed.

(** What a request that needs more room computes: no wrap-around goes unnoticed. *)
Lemma grow_size self need :
  string_ok self -> current_size self - string_end self < need < ULONG_MOD ->
  let adjust := ulong (ulong (need - (current_size self - string_end self)) / HASHKIT_BLOCK_SIZE + 1) in
  let new_size := ulong (adjust * HASHKIT_BLOCK_SIZE + current_size self) in
  adjust = (need - (current_size self - string_end self)) / HASHKIT_BLOCK_SIZE + 1
  /\ (need <= new_size -> new_size = current_size self + HASHKIT_BLOCK_SIZE * adjust).
Proof using Type.
  intros (_ & He & Hc) Hn. cbv zeta. pose proof ULONG_MOD_ge. unfold UINT_MOD in *.
  set (d := need - (current_size self - string_end self)) in *.
  rewrite (ulong_small d) by lia.
  assert (Hq : 0 <= d / HASHKIT_BLOCK_SIZE /\ HASHKIT_BLOCK_SIZE * (d / HASHKIT_BLOCK_SIZE) <= d
    < HASHKIT_BLOCK_SIZE * (d / HASHKIT_BLOCK_SIZE) + HASHKIT_BLOCK_SIZE).
  { unfold HASHKIT_BLOCK_SIZE. Z.to_euclidean_division_equations. lia. }
  unfold HASHKIT_BLOCK_SIZE in *. set (q := d / 1024) in *.
  rewrite (ulong_small (q + 1)) by lia. split; [done|]. intros Hle. unfold ulong in *.
  destruct (decide ((q + 1) * 1024 + current_size self < ULONG_MOD)); [rewrite Z.mod_small; lia|].
  rewrite (Z.mod_eq _ ULONG_MOD) in Hle by lia.
  assert (1 <= ((q + 1) * 1024 + current_size self) / ULONG_MOD) by (apply Z.div_le_lower_bound; lia).
  nia.
Qed.

(** After a successful check there is room; the bytes are kept, a failure changes nothing. *)
Lemma string_check_spec self need k : string_ok self -> 0 <= need < ULONG_MOD ->
  exists granted self' k', _string_check self need k = (Ret (granted, self'), k')
    /\ string_ok self' /\ string_end self' = string_end self
    /\ string_bytes self' = string_bytes self
    /\ (if granted then need <= current_size self' - string_end self'
          /\ current_size self' = if need <=? current_size self - string_end self then current_size self
             else current_size self + HASHKIT_BLOCK_SIZE
                    * ((need - (current_size self - string_end self)) / HASHKIT_BLOCK_SIZE + 1)
        else self' = self).
Proof using BA.
  intros Hok Hn. unfold _string_check. pose proof Hok as (Hb & He & Hc).
  rewrite (ulong_small (current_size self - string_end self)) by lia.
  destruct (Z.leb_spec need (current_size self - string_end self)) as [Hfit|Hfit].
  { rewrite (proj2 (Z.ltb_ge _ _)), andb_false_r by lia. exists true, self, k. split_and!; done || lia. }
  rewrite (proj2 (Z.ltb_lt _ _)), (proj2 (Z.eqb_neq need 0)) by lia. cbn [negb andb].
  destruct (grow_size self need Hok) as [Ea Es]; [lia|]. cbv zeta in *.
  set (adjust := ulong (_ / _ + 1)) in *. set (new_size := ulong (_ * _ + _)) in *.
  destruct (Z.ltb_spec new_size need); [exists false, self, k; split_and!; done|].
  unfold bind, realloc. destruct (grants k new_size) eqn:Eg; [|exists false, self, (S k); split_and!; done].
  specialize (Es ltac:(lia)). apply grants_bound in Eg.
  assert (Hd : need - (current_size self - string_end self) < HASHKIT_BLOCK_SIZE * adjust)
    by (unfold HASHKIT_BLOCK_SIZE in *; Z.to_euclidean_division_equations; lia).
  rewrite (ulong_small (_ + _)) by (unfold HASHKIT_BLOCK_SIZE in *; lia).
  set (buf := from_option id [] (string self)).
  assert (Hlen : Z.of_nat (length buf) = current_size self /\ Forall byte buf).
  { subst buf. unfold buffer_ok in Hb. destruct (string self); [done|]. by rewrite Hb. }
  destruct Hlen as [Hlen Hbytes].
  eexists true, _, (S k). split; [reflexivity|]. split_and!; cbn.
  - split_and!; cbn; [split|..]; [|apply Forall_app_2; [done|apply Forall_drop, byte_fresh]|lia..].
    rewrite length_app, length_drop, length_fresh. lia.
  - done.
  - unfold string_bytes. cbn. fold buf. rewrite take_app_le by lia. done.
  - lia.
  - by rewrite <- Ea.
Qed.
(** A store within the buffer. *)
Lemma poke_spec self o bytes :
  string_ok self -> Forall byte bytes -> 0 <= o -> o + Z.of_nat (length bytes) <= current_size self ->
  0 < current_size self ->
  exists buf, poke self o bytes = Ret (mkString (string_end self) (current_size self) (Some buf))
    /\ string_ok (mkString (string_end self) (current_size self) (Some buf))
    /\ take (Z.to_nat o + length bytes) buf
       = take (Z.to_nat o) (from_option id [] (string self)) ++ bytes.
Proof using Type.
  intros (Hb & He & Hc) Hby Ho Hfit Hne. unfold poke, buffer_ok in *.
  destruct (string self) as [buf|]; [|subst self; cbn in *; lia].
  destruct Hb as [Hl Hbuf].
  rewrite (proj2 (Z.leb_le _ _) Ho), (proj2 (Z.leb_le _ _)) by lia. cbn [andb].
  eexists. split; [reflexivity|]. split.
  - split_and!; cbn; [split|lia..].
    + rewrite !length_app, length_take, length_drop. lia.
    + apply Forall_app_2; [by apply Forall_take|]. apply Forall_app_2; [done|by apply Forall_drop].
  - cbn. rewrite app_assoc, take_app_le by (rewrite length_app, length_take; lia).
    apply take_ge. rewrite length_app, length_take. lia.
Qed.

(** Appending extends the bytes, or fails and leaves the object. *)
Lemma string_append_spec self value k :
  string_ok self -> Forall byte value -> value <> [] -> Z.of_nat (length value) < ULONG_MOD ->
  exists granted self' k', hashkit_string_append self value k = (Ret (granted, self'), k')
    /\ string_ok self'
    /\ (if granted then string_bytes self' = string_bytes self ++ value else self' = self).
Proof using BA.
  intros Hok Hv Hne Hl. unfold hashkit_string_append. unfold bind at 1.
  destruct (string_check_spec self (Z.of_nat (length value)) k Hok ltac:(lia))
    as (granted & s1 & k1 & -> & Hok1 & Hend & Hbytes & Hroom).
  destruct granted; [|exists false, s1, k1; done]. destruct Hroom as [Hroom _]. cbn [negb].
  pose proof Hok1 as (Hb1 & He1 & Hc1).
  assert (0 < Z.of_nat (length value)) by (destruct value; [done|cbn; lia]).
  destruct (poke_spec s1 (string_end s1) value Hok1 Hv ltac:(lia) ltac:(lia) ltac:(lia))
    as (buf & Hp & Hok2 & Htake).
  assert (Hs1 : exists b, string s1 = Some b).
  { destruct value; [done|]. cbn in Hroom. unfold buffer_ok in Hb1.
    destruct (string s1); [eauto|]. subst s1. cbn in *. lia. }
  destruct Hs1 as [b Hb]. rewrite Hb, (proj2 (Z.leb_le _ _)), (proj2 (Z.leb_le 0 _)) by lia. cbn [negb andb].
  unfold bind, lift. rewrite Hp. eexists true, _, k1. split; [reflexivity|]. cbn.
  destruct Hok2 as (Hb2 & _ & _). split; [split_and!; [done|cbn; lia..]|].
  rewrite <- Hbytes. unfold string_bytes. cbn. rewrite <- Htake. f_equal. lia.
Qed.

Lemma append_character_spec self c k : string_ok self -> byte c ->
  exists granted self' k', hashkit_string_append_character self c k = (Ret (granted, self'), k')
    /\ string_ok self'
    /\ (if granted then string_bytes self' = string_bytes self ++ [c] else self' = self).
Proof using BA.
  intros Hok Hc. unfold hashkit_string_append_character. unfold bind at 1.
  pose proof ULONG_MOD_ge. unfold UINT_MOD in *.
  destruct (string_check_spec self 1 k Hok ltac:(lia)) as (granted & s1 & k1 & -> & Hok1 & Hend & Hbytes & Hroom).
  destruct granted; [|exists false, s1, k1; done]. destruct Hroom as [Hroom _]. cbn [negb].
  pose proof Hok1 as (Hb1 & He1 & Hc1).
  destruct (poke_spec s1 (string_end s1) [c] Hok1) as (buf & Hp & Hok2 & Htake);
    [by apply Forall_singleton|lia|cbn; lia|lia|].
  unfold bind, lift. rewrite Hp. eexists true, _, k1. split; [reflexivity|]. cbn.
  destruct Hok2 as (Hb2 & _ & _). split; [split_and!; [done|cbn; lia..]|].
  rewrite <- Hbytes. unfold string_bytes. cbn. rewrite <- Htake. f_equal. cbn. lia.
Qed.

(** A new string is empty, with a buffer larger than asked for: by whole blocks. *)
Lemma create_spec size k : 0 <= size < ULONG_MOD ->
  exists r k', hashkit_string_create size k = (Ret r, k')
    /\ match r with
       | None => True
       | Some self => string_ok self /\ string_end self = 0
           /\ (0 < size -> current_size self = (size / HASHKIT_BLOCK_SIZE + 1) * HASHKIT_BLOCK_SIZE)
       end.
Proof using BA.
  intros Hn. unfold hashkit_string_create, bind, calloc.
  destruct (grants k _); cbn [negb]; [|by eexists None, _].
  destruct (string_check_spec _init_string size (S k) init_ok Hn)
    as (granted & s1 & k1 & E & Hok1 & Hend & Hbytes & Hroom).
  rewrite E. destruct granted; [|by eexists None, _]. destruct Hroom as [_ Hsize].
  eexists (Some s1), k1. split; [done|]. split_and!; [done..|]. intros Hpos. rewrite Hsize. cbn.
  rewrite (proj2 (Z.leb_gt _ _)), Z.sub_0_r by lia. unfold HASHKIT_BLOCK_SIZE. lia.
Qed.

(** [set_length] within the buffer moves [end] and asks for nothing. *)
Lemma set_length_spec self n k : string_ok self -> string_end self = 0 -> 0 <= n <= current_size self ->
  exists self', hashkit_string_set_length self n k = (Ret self', k)
    /\ string_ok self' /\ string_bytes self' = take (Z.to_nat n) (from_option id [] (string self)).
Proof using BA.
  intros (Hb & He & Hc) H0 Hn. unfold hashkit_string_set_length, _string_check, bind.
  rewrite (ulong_small (current_size self - string_end self)) by lia.
  rewrite (proj2 (Z.ltb_ge _ n)), andb_false_r by lia.
  eexists. split; [reflexivity|]. split; [|done]. unfold string_ok, buffer_ok in *. cbn.
  split_and!; try lia. destruct (string self); [done|]. subst self. cbn in *. f_equal. lia.
Qed.
End Invariant.
