(* ===== verification/Rijndael.v ===== *)
(** * The Rijndael cipher of libhashkit/rijndael.cc

    Key set-up for encryption and decryption, and both ciphers, on 32-bit words. The key
    schedule is the caller's array [rk]; [o] is how far the pointer [rk] has moved into it.
    Both forms of the ciphers are here: the loop, and the rounds written out one after the
    other when FULL_UNROLL is defined. *)

From stdpp Require Import base list numbers.
From Stdlib Require Import ZArith Lia.
From S2P Require Import Prelude HashWords RijndaelTables.

(** Whether the build defines FULL_UNROLL. *)
Class CipherConfig := { FULL_UNROLL : bool }.

(** The four words [s0] .. [s3] of the cipher state. *)
Record quad := Q { q0 : Z; q1 : Z; q2 : Z; q3 : Z }.

(** [pt[0] << 24 ^ pt[1] << 16 ^ pt[2] << 8 ^ pt[3]] at offset [o] of a byte array. *)
Definition GETU32 (p : list Z) (o : Z) : Z :=
  Z.lxor (Z.lxor (Z.lxor (shl32 (aget p o) 24) (shl32 (aget p (o + 1)) 16))
                 (shl32 (aget p (o + 2)) 8)) (aget p (o + 3)).

(** The four bytes that [PUTU32] writes; [(u8)] keeps the low byte. *)
Definition PUTU32 (st : Z) : list Z :=
  [Z.land (Z.shiftr st 24) 0xff; Z.land (Z.shiftr st 16) 0xff;
   Z.land (Z.shiftr st 8) 0xff; Z.land st 0xff].

(** ** Key set-up *)

(** [prev ^ (Te4[(temp >> 16) & 0xff] & 0xff000000) ^ ... ^ rcon[i]] *)
Definition rot_sub_word (prev temp i : Z) : Z :=
  Z.lxor (Z.lxor (Z.lxor (Z.lxor (Z.lxor prev
    (Z.land (aget Te4 (Z.land (Z.shiftr temp 16) 0xff)) 0xff000000))
    (Z.land (aget Te4 (Z.land (Z.shiftr temp 8) 0xff)) 0x00ff0000))
    (Z.land (aget Te4 (Z.land temp 0xff)) 0x0000ff00))
    (Z.land (aget Te4 (Z.shiftr temp 24)) 0x000000ff))
    (aget rcon i).

(** The word in the middle of the 256-bit schedule, without rotation and constant. *)
Definition plain_sub_word (prev temp : Z) : Z :=
  Z.lxor (Z.lxor (Z.lxor (Z.lxor prev
    (Z.land (aget Te4 (Z.shiftr temp 24)) 0xff000000))
    (Z.land (aget Te4 (Z.land (Z.shiftr temp 16) 0xff)) 0x00ff0000))
    (Z.land (aget Te4 (Z.land (Z.shiftr temp 8) 0xff)) 0x0000ff00))
    (Z.land (aget Te4 (Z.land temp 0xff)) 0x000000ff).

(** [rk[o + d] = rk[o + a] ^ rk[o + b]] *)
Definition xor_into (o d a b : Z) (rk : list Z) : list Z :=
  aset rk (o + d) (Z.lxor (aget rk (o + a)) (aget rk (o + b))).

Fixpoint expand128 (fuel : nat) (rk : list Z) (o i : Z) : option (list Z) :=
  match fuel with
  | O => None
  | S fuel' =>
    let rk := aset rk (o + 4) (rot_sub_word (aget rk o) (aget rk (o + 3)) i) in
    let rk := xor_into o 5 1 4 rk in
    let rk := xor_into o 6 2 5 rk in
    let rk := xor_into o 7 3 6 rk in
    if i + 1 =? 10 then Some rk else expand128 fuel' rk (o + 4) (i + 1)
  end.

Fixpoint expand192 (fuel : nat) (rk : list Z) (o i : Z) : option (list Z) :=
  match fuel with
  | O => None
  | S fuel' =>
    let rk := aset rk (o + 6) (rot_sub_word (aget rk o) (aget rk (o + 5)) i) in
    let rk := xor_into o 7 1 6 rk in
    let rk := xor_into o 8 2 7 rk in
    let rk := xor_into o 9 3 8 rk in
    if i + 1 =? 8 then Some rk else
    let rk := xor_into o 10 4 9 rk in
    let rk := xor_into o 11 5 10 rk in
    expand192 fuel' rk (o + 6) (i + 1)
  end.

Fixpoint expand256 (fuel : nat) (rk : list Z) (o i : Z) : option (list Z) :=
  match fuel with
  | O => None
  | S fuel' =>
    let rk := aset rk (o + 8) (rot_sub_word (aget rk o) (aget rk (o + 7)) i) in
    let rk := xor_into o 9 1 8 rk in
    let rk := xor_into o 10 2 9 rk in
    let rk := xor_into o 11 3 10 rk in
    if i + 1 =? 7 then Some rk else
    let rk := aset rk (o + 12) (plain_sub_word (aget rk (o + 4)) (aget rk (o + 11))) in
    let rk := xor_into o 13 5 12 rk in
    let rk := xor_into o 14 6 13 rk in
    let rk := xor_into o 15 7 14 rk in
    expand256 fuel' rk (o + 8) (i + 1)
  end.

(** The array and the number of rounds; ten turns of a loop are enough for every size. *)
Definition rijndaelKeySetupEnc (rk cipherKey : list Z) (keyBits : Z) : option (list Z * Z) :=
  let load i rk := aset rk i (GETU32 cipherKey (4 * i)) in
  let rk := load 3 (load 2 (load 1 (load 0 rk))) in
  if keyBits =? 128 then option_map (fun rk => (rk, 10)) (expand128 10 rk 0 0) else
  let rk := load 5 (load 4 rk) in
  if keyBits =? 192 then option_map (fun rk => (rk, 12)) (expand192 10 rk 0 0) else
  let rk := load 7 (load 6 rk) in
  if keyBits =? 256 then option_map (fun rk => (rk, 14)) (expand256 10 rk 0 0) else
  Some (rk, 0).

Definition swap_words (i j : Z) (rk : list Z) : list Z :=
  let temp := aget rk i in aset (aset rk i (aget rk j)) j temp.

(** [for (i = 0, j = 4*Nr; i < j; i += 4, j -= 4)] *)
Fixpoint reverse_keys (fuel : nat) (rk : list Z) (i j : Z) : list Z :=
  match fuel with
  | O => rk
  | S fuel' =>
    if i <? j then
      let rk := swap_words i j rk in
      let rk := swap_words (i + 1) (j + 1) rk in
      let rk := swap_words (i + 2) (j + 2) rk in
      let rk := swap_words (i + 3) (j + 3) rk in
      reverse_keys fuel' rk (i + 4) (j - 4)
    else rk
  end.

(** The inverse MixColumn of one word of a round key. *)
Definition inv_mix_key (w : Z) : Z :=
  Z.lxor (Z.lxor (Z.lxor
    (aget Td0 (Z.land (aget Te4 (Z.shiftr w 24)) 0xff))
    (aget Td1 (Z.land (aget Te4 (Z.land (Z.shiftr w 16) 0xff)) 0xff)))
    (aget Td2 (Z.land (aget Te4 (Z.land (Z.shiftr w 8) 0xff)) 0xff)))
    (aget Td3 (Z.land (aget Te4 (Z.land w 0xff)) 0xff)).

(** [for (i = 1; i < Nr; i++) { rk += 4; rk[0] = ...; ... rk[3] = ...; }] *)
Fixpoint inv_mix_keys (n : nat) (rk : list Z) (o : Z) : list Z :=
  match n with
  | O => rk
  | S n' =>
    let put i rk := aset rk (o + i) (inv_mix_key (aget rk (o + i))) in
    inv_mix_keys n' (put 3 (put 2 (put 1 (put 0 rk)))) (o + 4)
  end.

Definition rijndaelKeySetupDec (rk cipherKey : list Z) (keyBits : Z) : option (list Z * Z) :=
  match rijndaelKeySetupEnc rk cipherKey keyBits with
  | None => None
  | Some (rk, Nr) =>
    let rk := reverse_keys (Z.to_nat (4 * Nr)) rk 0 (4 * Nr) in
    Some (inv_mix_keys (Z.to_nat (Nr - 1)) rk 4, Nr)
  end.

(** ** Encryption *)

Definition te_word (a b c d k : Z) : Z :=
  Z.lxor (Z.lxor (Z.lxor (Z.lxor (aget Te0 (Z.shiftr a 24))
    (aget Te1 (Z.land (Z.shiftr b 16) 0xff)))
    (aget Te2 (Z.land (Z.shiftr c 8) 0xff)))
    (aget Te3 (Z.land d 0xff))) k.

(** One full round with the keys at [o]. *)
Definition enc_round (rk : list Z) (o : Z) (s : quad) : quad :=
  let '(Q s0 s1 s2 s3) := s in
  Q (te_word s0 s1 s2 s3 (aget rk o)) (te_word s1 s2 s3 s0 (aget rk (o + 1)))
    (te_word s2 s3 s0 s1 (aget rk (o + 2))) (te_word s3 s0 s1 s2 (aget rk (o + 3))).

Definition te4_word (a b c d k : Z) : Z :=
  Z.lxor (Z.lxor (Z.lxor (Z.lxor (Z.land (aget Te4 (Z.shiftr a 24)) 0xff000000)
    (Z.land (aget Te4 (Z.land (Z.shiftr b 16) 0xff)) 0x00ff0000))
    (Z.land (aget Te4 (Z.land (Z.shiftr c 8) 0xff)) 0x0000ff00))
    (Z.land (aget Te4 (Z.land d 0xff)) 0x000000ff)) k.

Definition enc_last (rk : list Z) (o : Z) (t : quad) : list Z :=
  let '(Q t0 t1 t2 t3) := t in
  PUTU32 (te4_word t0 t1 t2 t3 (aget rk o)) ++ PUTU32 (te4_word t1 t2 t3 t0 (aget rk (o + 1)))
  ++ PUTU32 (te4_word t2 t3 t0 t1 (aget rk (o + 2))) ++ PUTU32 (te4_word t3 t0 t1 t2 (aget rk (o + 3))).

(** [s0 = GETU32(pt) ^ rk[0]; ...] *)
Definition load_state (rk p : list Z) : quad :=
  Q (Z.lxor (GETU32 p 0) (aget rk 0)) (Z.lxor (GETU32 p 4) (aget rk 1))
    (Z.lxor (GETU32 p 8) (aget rk 2)) (Z.lxor (GETU32 p 12) (aget rk 3)).

(** [for (;;) { t = round of s; rk += 8; if (--r == 0) break; s = round of t; }] with the
    round of either cipher: the words [t] and where [rk] points then. With [r] not positive
    the loop leaves the array. *)
Fixpoint round_loop (round : Z -> quad -> quad) (r : nat) (o : Z) (s : quad) : option (quad * Z) :=
  match r with
  | O => None
  | S r' =>
    let t := round (o + 4) s in
    let o := o + 8 in
    match r' with
    | O => Some (t, o)
    | _ => round_loop round r' o (round o t)
    end
  end.

(** The rounds written out; [Nr] decides how many. *)
Definition unrolled (round : Z -> quad -> quad) (Nr : Z) (s : quad) : quad :=
  let t := round 4 s in
  let s := round 8 t in
  let t := round 12 s in
  let s := round 16 t in
  let t := round 20 s in
  let s := round 24 t in
  let t := round 28 s in
  let s := round 32 t in
  let t := round 36 s in
  if 10 <? Nr then
    let s := round 40 t in
    let t := round 44 s in
    if 12 <? Nr then
      let s := round 48 t in
      round 52 s
    else t
  else t.

Section Cipher.
Context `{CC : CipherConfig}.

(** The full rounds, in the form the build has. *)
Definition full_rounds (round : Z -> quad -> quad) (Nr : Z) (s : quad) : option (quad * Z) :=
  if FULL_UNROLL then Some (unrolled round Nr s, Z.shiftl Nr 2)
  else round_loop round (Z.to_nat (Z.shiftr Nr 1)) 0 s.

Definition rijndaelEncrypt (rk : list Z) (Nr : Z) (pt : list Z) : option (list Z) :=
  match full_rounds (enc_round rk) Nr (load_state rk pt) with
  | None => None
  | Some (t, o) => Some (enc_last rk o t)
  end.
End Cipher.

(** ** Decryption *)

Definition td_word (a b c d k : Z) : Z :=
  Z.lxor (Z.lxor (Z.lxor (Z.lxor (aget Td0 (Z.shiftr a 24))
    (aget Td1 (Z.land (Z.shiftr b 16) 0xff)))
    (aget Td2 (Z.land (Z.shiftr c 8) 0xff)))
    (aget Td3 (Z.land d 0xff))) k.

Definition dec_round (rk : list Z) (o : Z) (s : quad) : quad :=
  let '(Q s0 s1 s2 s3) := s in
  Q (td_word s0 s3 s2 s1 (aget rk o)) (td_word s1 s0 s3 s2 (aget rk (o + 1)))
    (td_word s2 s1 s0 s3 (aget rk (o + 2))) (td_word s3 s2 s1 s0 (aget rk (o + 3))).

Definition td4_word (a b c d k : Z) : Z :=
  Z.lxor (Z.lxor (Z.lxor (Z.lxor (Z.land (aget Td4 (Z.shiftr a 24)) 0xff000000)
    (Z.land (aget Td4 (Z.land (Z.shiftr b 16) 0xff)) 0x00ff0000))
    (Z.land (aget Td4 (Z.land (Z.shiftr c 8) 0xff)) 0x0000ff00))
    (Z.land (aget Td4 (Z.land d 0xff)) 0x000000ff)) k.

Definition dec_last (rk : list Z) (o : Z) (t : quad) : list Z :=
  let '(Q t0 t1 t2 t3) := t in
  PUTU32 (td4_word t0 t3 t2 t1 (aget rk o)) ++ PUTU32 (td4_word t1 t0 t3 t2 (aget rk (o + 1)))
  ++ PUTU32 (td4_word t2 t1 t0 t3 (aget rk (o + 2))) ++ PUTU32 (td4_word t3 t2 t1 t0 (aget rk (o + 3))).

Definition rijndaelDecrypt `{CC : CipherConfig} (rk : list Z) (Nr : Z) (ct : list Z)
    : option (list Z) :=
  match full_rounds (dec_round rk) Nr (load_state rk ct) with
  | None => None
  | Some (t, o) => Some (dec_last rk o t)
  end.

(** ** Reduced rounds (INTERMEDIATE_VALUE_KAT) *)

(** [for (r = ...; r > 0; r--) { t = round of s; s = t; rk += 4; }] *)
Fixpoint some_rounds (round : Z -> quad -> quad) (r : nat) (o : Z) (s : quad) : quad * Z :=
  match r with O => (s, o) | S r' => some_rounds round r' (o + 4) (round o s) end.

Definition rijndaelEncryptRound (rk : list Z) (Nr : Z) (block : list Z) (rounds : Z) : list Z :=
  let r := if rounds <? Nr then rounds else Nr - 1 in
  let '(s, o) := some_rounds (enc_round rk) (Z.to_nat r) 4 (load_state rk block) in
  if rounds =? Nr then enc_last rk o s
  else let '(Q s0 s1 s2 s3) := s in PUTU32 s0 ++ PUTU32 s1 ++ PUTU32 s2 ++ PUTU32 s3.

(** The last key is added with all the rounds only; [0] stands for the missing addition. *)
Definition rijndaelDecryptRound (rk : list Z) (Nr : Z) (block : list Z) (rounds : Z) : list Z :=
  let r := (if rounds <? Nr then rounds else Nr) - 1 in
  let '(s, o) := some_rounds (dec_round rk) (Z.to_nat r) 4 (load_state rk block) in
  let '(Q s0 s1 s2 s3) := s in
  let key i := if rounds =? Nr then aget rk (o + i) else 0 in
  PUTU32 (td4_word s0 s3 s2 s1 (key 0)) ++ PUTU32 (td4_word s1 s0 s3 s2 (key 1))
  ++ PUTU32 (td4_word s2 s1 s0 s3 (key 2)) ++ PUTU32 (td4_word s3 s2 s1 s0 (key 3)).

(** ** The examples of FIPS-197, appendix C *)

Module Vectors.
Definition plain : list Z := map (fun i => 17 * i) (seqZ 0 16).
Definition cipher_key (n : Z) : list Z := seqZ 0 n.

Definition encrypt (unroll : bool) (keyBits : Z) : option (list Z) :=
  match rijndaelKeySetupEnc (replicate 60 0) (cipher_key (keyBits / 8)) keyBits with
  | Some (rk, Nr) => rijndaelEncrypt (CC := {| FULL_UNROLL := unroll |}) rk Nr plain
  | None => None
  end.

Example aes128 : map (fun b => encrypt b 128) [false; true] = replicate 2 (Some
  [0x69; 0xc4; 0xe0; 0xd8; 0x6a; 0x7b; 0x04; 0x30; 0xd8; 0xcd; 0xb7; 0x80; 0x70; 0xb4; 0xc5; 0x5a]).
Proof. vm_compute. reflexivity. Qed.
Example aes192 : map (fun b => encrypt b 192) [false; true] = replicate 2 (Some
  [0xdd; 0xa9; 0x7c; 0xa4; 0x86; 0x4c; 0xdf; 0xe0; 0x6e; 0xaf; 0x70; 0xa0; 0xec; 0x0d; 0x71; 0x91]).
Proof. vm_compute. reflexivity. Qed.
Example aes256 : map (fun b => encrypt b 256) [false; true] = replicate 2 (Some
  [0x8e; 0xa2; 0xb7; 0xca; 0x51; 0x67; 0x45; 0xbf; 0xea; 0xfc; 0x49; 0x90; 0x4b; 0x49; 0x60; 0x89]).
Proof. vm_compute. reflexivity. Qed.
End Vectors.
