(* ===== verification/RijndaelSpec.v ===== *)
(** * FIPS-197 and the tables of rijndael.cc

    The field GF(2^8), the S-box from inversion and the affine map, and the layers of the
    cipher on words whose most significant byte is the first of a column. Every table of
    rijndael.cc is shown to hold what its comment says, and a round by table is the
    composition of the layers. *)

From stdpp Require Import base list numbers.
From Stdlib Require Import ZArith Lia Btauto.
From S2P Require Import Prelude HashWords HashSmall RijndaelTables Rijndael.

(** ** The field *)

(** Multiplication by x modulo x^8 + x^4 + x^3 + x + 1. *)
Definition xtime (x : Z) : Z :=
  if Z.testbit x 7 then Z.lxor (Z.shiftl x 1) 0x11b else Z.shiftl x 1.

(** [n] bits of [k], from the lowest. *)
Fixpoint gmul_bits (n : nat) (k x : Z) : Z :=
  match n with
  | O => 0
  | S n' => Z.lxor (if Z.odd k then x else 0) (gmul_bits n' (Z.shiftr k 1) (xtime x))
  end.
Definition gmul (k x : Z) : Z := gmul_bits 8 k x.

(** The inverse, with 0 for 0: the 254th power. *)
Definition ginv (x : Z) : Z :=
  let x2 := gmul x x in let x4 := gmul x2 x2 in let x8 := gmul x4 x4 in
  let x16 := gmul x8 x8 in let x32 := gmul x16 x16 in let x64 := gmul x32 x32 in
  let x128 := gmul x64 x64 in
  gmul x128 (gmul x64 (gmul x32 (gmul x16 (gmul x8 (gmul x4 x2))))).

Definition rotl8 (x n : Z) : Z := Z.land (Z.lor (Z.shiftl x n) (Z.shiftr x (8 - n))) 0xff.

Definition sbox (x : Z) : Z :=
  let b := ginv x in
  Z.lxor (Z.lxor (Z.lxor (Z.lxor (Z.lxor b (rotl8 b 1)) (rotl8 b 2)) (rotl8 b 3)) (rotl8 b 4)) 0x63.

Definition inv_sbox (y : Z) : Z :=
  ginv (Z.lxor (Z.lxor (Z.lxor (rotl8 y 1) (rotl8 y 3)) (rotl8 y 6)) 0x05).

(** ** Words as columns *)

Definition pack (a b c d : Z) : Z :=
  Z.lxor (Z.lxor (Z.lxor (Z.shiftl a 24) (Z.shiftl b 16)) (Z.shiftl c 8)) d.

Definition b0 (w : Z) : Z := Z.land (Z.shiftr w 24) 0xff.
Definition b1 (w : Z) : Z := Z.land (Z.shiftr w 16) 0xff.
Definition b2 (w : Z) : Z := Z.land (Z.shiftr w 8) 0xff.
Definition b3 (w : Z) : Z := Z.land w 0xff.

(** A function on the bytes of a word. *)
Definition map_word (f : Z -> Z) (w : Z) : Z := pack (f (b0 w)) (f (b1 w)) (f (b2 w)) (f (b3 w)).

Definition sub_word : Z -> Z := map_word sbox.
Definition inv_sub_word : Z -> Z := map_word inv_sbox.
Definition rot_word (w : Z) : Z := pack (b1 w) (b2 w) (b3 w) (b0 w).

(** A circulant matrix with first row [m0 m1 m2 m3], applied to a column. *)
Definition circulant (m0 m1 m2 m3 w : Z) : Z :=
  let row a b c d := Z.lxor (Z.lxor (Z.lxor (gmul a (b0 w)) (gmul b (b1 w))) (gmul c (b2 w)))
                            (gmul d (b3 w)) in
  pack (row m0 m1 m2 m3) (row m3 m0 m1 m2) (row m2 m3 m0 m1) (row m1 m2 m3 m0).

Definition mix_word : Z -> Z := circulant 2 3 1 1.
Definition inv_mix_word : Z -> Z := circulant 0x0e 0x0b 0x0d 0x09.

(** ** The layers *)

Definition map_quad (f : Z -> Z) (s : quad) : quad :=
  let '(Q w0 w1 w2 w3) := s in Q (f w0) (f w1) (f w2) (f w3).

Definition sub_bytes : quad -> quad := map_quad sub_word.
Definition inv_sub_bytes : quad -> quad := map_quad inv_sub_word.
Definition mix_columns : quad -> quad := map_quad mix_word.
Definition inv_mix_columns : quad -> quad := map_quad inv_mix_word.

Definition diagonal (w x y z : Z) : Z := pack (b0 w) (b1 x) (b2 y) (b3 z).

Definition shift_rows (s : quad) : quad :=
  let '(Q s0 s1 s2 s3) := s in
  Q (diagonal s0 s1 s2 s3) (diagonal s1 s2 s3 s0) (diagonal s2 s3 s0 s1) (diagonal s3 s0 s1 s2).

Definition inv_shift_rows (s : quad) : quad :=
  let '(Q s0 s1 s2 s3) := s in
  Q (diagonal s0 s3 s2 s1) (diagonal s1 s0 s3 s2) (diagonal s2 s1 s0 s3) (diagonal s3 s2 s1 s0).

Definition add_round_key (s k : quad) : quad :=
  let '(Q s0 s1 s2 s3) := s in let '(Q k0 k1 k2 k3) := k in
  Q (Z.lxor s0 k0) (Z.lxor s1 k1) (Z.lxor s2 k2) (Z.lxor s3 k3).

(** Cipher and EqInvCipher of FIPS-197: the keys of the first and of the last addition, and
    those of the rounds between them. *)
Definition fips_cipher (first last : quad) (middle : list quad) (s : quad) : quad :=
  let s := fold_left (fun s k => add_round_key (mix_columns (shift_rows (sub_bytes s))) k)
             middle (add_round_key s first) in
  add_round_key (shift_rows (sub_bytes s)) last.

Definition fips_eq_inv_cipher (first last : quad) (middle : list quad) (s : quad) : quad :=
  let s := fold_left (fun s k => add_round_key (inv_mix_columns (inv_shift_rows (inv_sub_bytes s))) k)
             middle (add_round_key s first) in
  add_round_key (inv_shift_rows (inv_sub_bytes s)) last.

(** ** Exhaustive checks on bytes *)

Lemma all_bytes (P : Z -> bool) : forallb P (seqZ 0 256) = true -> forall x, byte x -> P x = true.
Proof.
  intros H x Hx. unfold byte in Hx. rewrite forallb_forall in H. apply H.
  apply list_elem_of_In, elem_of_seqZ. lia.
Qed.

Lemma byte_table (t : list Z) (f : Z -> Z) :
  t = map f (seqZ 0 256) -> forall x, byte x -> aget t x = f x.
Proof.
  intros -> x Hx. unfold byte in Hx. unfold aget. apply list_lookup_total_correct.
  rewrite list_lookup_fmap, lookup_seqZ_lt by lia. by rewrite Z2Nat.id, Z.add_0_l by lia.
Qed.

(** The byte functions used below map bytes to bytes. *)
Definition byte_fun (f : Z -> Z) : Prop := forall x, byte x -> byte (f x).

Lemma byte_fun_check (f : Z -> Z) :
  forallb (fun x => (0 <=? f x) && (f x <? 256)) (seqZ 0 256) = true -> byte_fun f.
Proof.
  intros H x Hx. apply (all_bytes _ H) in Hx. unfold byte. lia.
Qed.

Lemma sbox_byte : byte_fun sbox.
Proof. apply byte_fun_check. vm_compute. reflexivity. Qed.
Lemma inv_sbox_byte : byte_fun inv_sbox.
Proof. apply byte_fun_check. vm_compute. reflexivity. Qed.

Lemma inv_sbox_sbox x : byte x -> inv_sbox (sbox x) = x.
Proof.
  intros Hx. apply Z.eqb_eq. revert x Hx. apply all_bytes. vm_compute. reflexivity.
Qed.

(** ** Linearity over exclusive or *)

(** Both sides are exclusive ors of the same atoms. *)
Ltac xor_solve :=
  apply Z.bits_inj'; let i := fresh "i" in intros i _; rewrite ?Z.lxor_spec, ?Z.bits_0;
  repeat match goal with |- context [Z.testbit ?x i] => generalize (Z.testbit x i); intros ? end;
  btauto.

Lemma xtime_lxor x y : xtime (Z.lxor x y) = Z.lxor (xtime x) (xtime y).
Proof.
  unfold xtime. rewrite Z.lxor_spec, Z.shiftl_lxor.
  destruct (Z.testbit x 7), (Z.testbit y 7); simpl xorb; cbv iota; xor_solve.
Qed.

Lemma gmul_bits_lxor n k x y :
  gmul_bits n k (Z.lxor x y) = Z.lxor (gmul_bits n k x) (gmul_bits n k y).
Proof.
  revert k x y. induction n as [|n IH]; intros k x y; [done|]. cbn [gmul_bits].
  rewrite xtime_lxor, IH. destruct (Z.odd k); xor_solve.
Qed.

Lemma gmul_lxor k x y : gmul k (Z.lxor x y) = Z.lxor (gmul k x) (gmul k y).
Proof. apply gmul_bits_lxor. Qed.

Lemma pack_lxor a b c d a' b' c' d' :
  Z.lxor (pack a b c d) (pack a' b' c' d')
  = pack (Z.lxor a a') (Z.lxor b b') (Z.lxor c c') (Z.lxor d d').
Proof. unfold pack. rewrite !Z.shiftl_lxor. xor_solve. Qed.

Lemma b0_lxor v w : b0 (Z.lxor v w) = Z.lxor (b0 v) (b0 w).
Proof. unfold b0. by rewrite Z.shiftr_lxor, land_lxor. Qed.
Lemma b1_lxor v w : b1 (Z.lxor v w) = Z.lxor (b1 v) (b1 w).
Proof. unfold b1. by rewrite Z.shiftr_lxor, land_lxor. Qed.
Lemma b2_lxor v w : b2 (Z.lxor v w) = Z.lxor (b2 v) (b2 w).
Proof. unfold b2. by rewrite Z.shiftr_lxor, land_lxor. Qed.
Lemma b3_lxor v w : b3 (Z.lxor v w) = Z.lxor (b3 v) (b3 w).
Proof. unfold b3. by rewrite land_lxor. Qed.

Lemma circulant_lxor m0 m1 m2 m3 v w :
  circulant m0 m1 m2 m3 (Z.lxor v w)
  = Z.lxor (circulant m0 m1 m2 m3 v) (circulant m0 m1 m2 m3 w).
Proof.
  unfold circulant. rewrite b0_lxor, b1_lxor, b2_lxor, b3_lxor, pack_lxor, !gmul_lxor.
  f_equal; xor_solve.
Qed.

(** ** Words and their bytes *)

Lemma land_byte x : byte (Z.land x 0xff).
Proof. rewrite mask8. by apply Z.mod_pos_bound. Qed.

Lemma b0_byte w : byte (b0 w). Proof. apply land_byte. Qed.
Lemma b1_byte w : byte (b1 w). Proof. apply land_byte. Qed.
Lemma b2_byte w : byte (b2 w). Proof. apply land_byte. Qed.
Lemma b3_byte w : byte (b3 w). Proof. apply land_byte. Qed.

Lemma byte_mask x : byte x -> Z.land x 0xff = x.
Proof. intros Hx. rewrite mask8. by apply Z.mod_small. Qed.

Lemma b0_word w : word32 w -> Z.shiftr w 24 = b0 w.
Proof.
  intros Hw. unfold b0. symmetry. apply byte_mask. unfold byte, word32, UINT_MOD in *.
  rewrite Z.shiftr_div_pow2 by lia. split; [apply Z.div_pos; lia|apply Z.div_lt_upper_bound; lia].
Qed.

(** A byte below a shifted number: no carries. *)
Lemma lxor_byte x y : byte y -> Z.lxor (Z.shiftl x 8) y = 256 * x + y.
Proof.
  intros Hy. rewrite <- Z.add_nocarry_lxor.
  - rewrite shl_mul by lia. lia.
  - apply Z.bits_inj'. intros i Hi. rewrite Z.land_spec, Z.bits_0.
    destruct (decide (i < 8)); [by rewrite Z.shiftl_spec_low by lia|].
    rewrite <- (byte_mask y Hy). change 0xff with (Z.ones 8).
    by rewrite Z.land_spec, Z.ones_spec_high, !andb_false_r by lia.
Qed.

Section Pack.
Context (a b c d : Z) (Ha : byte a) (Hb : byte b) (Hc : byte c) (Hd : byte d).

Lemma pack_sum : pack a b c d = 16777216 * a + 65536 * b + 256 * c + d.
Proof using All.
  unfold pack. change 24 with (8 + (8 + 8)). change 16 with (8 + 8).
  rewrite <- !Z.shiftl_shiftl, <- !Z.shiftl_lxor by lia. rewrite !lxor_byte by done. lia.
Qed.

Ltac pack_bytes :=
  unfold b0, b1, b2, b3; rewrite pack_sum, mask8, ?Z.shiftr_div_pow2 by lia;
  unfold byte in *; Z.to_euclidean_division_equations; lia.

Lemma b0_pack : b0 (pack a b c d) = a. Proof using All. pack_bytes. Qed.
Lemma b1_pack : b1 (pack a b c d) = b. Proof using All. pack_bytes. Qed.
Lemma b2_pack : b2 (pack a b c d) = c. Proof using All. pack_bytes. Qed.
Lemma b3_pack : b3 (pack a b c d) = d. Proof using All. pack_bytes. Qed.

Lemma pack_word : word32 (pack a b c d).
Proof using All. rewrite pack_sum. unfold word32, UINT_MOD, byte in *. lia. Qed.
End Pack.

Lemma pack_bytes_of w : word32 w -> pack (b0 w) (b1 w) (b2 w) (b3 w) = w.
Proof.
  intros Hw. rewrite pack_sum; [|apply b0_byte|apply b1_byte|apply b2_byte|apply b3_byte].
  unfold b0, b1, b2, b3, word32, UINT_MOD in *. rewrite !mask8, !Z.shiftr_div_pow2 by lia.
  replace (w / 2 ^ 24) with (w / 256 / 256 / 256) by (rewrite !Z.div_div by lia; done).
  replace (w / 2 ^ 16) with (w / 256 / 256) by (rewrite !Z.div_div by lia; done).
  change (2 ^ 8) with 256.
  pose proof (Z.div_mod w 256). pose proof (Z.div_mod (w / 256) 256).
  pose proof (Z.div_mod (w / 256 / 256) 256).
  rewrite (Z.mod_small (w / 256 / 256 / 256)); [lia|].
  rewrite !Z.div_div by lia. split; [apply Z.div_pos; lia|apply Z.div_lt_upper_bound; lia].
Qed.

#[export] Hint Resolve b0_byte b1_byte b2_byte b3_byte pack_word : hash.
#[export] Hint Extern 1 (byte (sbox _)) => apply sbox_byte : hash.
#[export] Hint Extern 1 (byte (inv_sbox _)) => apply inv_sbox_byte : hash.

(** The bytes of a word built from bytes. *)
Ltac bytes_of_pack :=
  repeat first [ rewrite b0_pack by auto with hash | rewrite b1_pack by auto with hash
               | rewrite b2_pack by auto with hash | rewrite b3_pack by auto with hash ].

(** ** The layers and their inverses *)

Lemma byte_0 : byte 0. Proof. done. Qed.
#[export] Hint Resolve byte_0 : hash.

Lemma pack_columns a b c d :
  pack a b c d = Z.lxor (Z.lxor (Z.lxor (pack a 0 0 0) (pack 0 b 0 0)) (pack 0 0 c 0)) (pack 0 0 0 d).
Proof. rewrite !pack_lxor, ?Z.lxor_0_r, ?Z.lxor_0_l. done. Qed.

(** An additive function on words is determined by the columns with one byte. *)
Lemma additive_word (F : Z -> Z) :
  (forall v w, F (Z.lxor v w) = Z.lxor (F v) (F w)) ->
  (forall x, byte x -> F (pack x 0 0 0) = pack x 0 0 0 /\ F (pack 0 x 0 0) = pack 0 x 0 0
     /\ F (pack 0 0 x 0) = pack 0 0 x 0 /\ F (pack 0 0 0 x) = pack 0 0 0 x) ->
  forall w, word32 w -> F w = w.
Proof.
  intros HF Hc w Hw. rewrite <- (pack_bytes_of w Hw), pack_columns, !HF.
  destruct (Hc _ (b0_byte w)) as (-> & _), (Hc _ (b1_byte w)) as (_ & -> & _).
  destruct (Hc _ (b2_byte w)) as (_ & _ & -> & _), (Hc _ (b3_byte w)) as (_ & _ & _ & ->). done.
Qed.

Lemma inv_mix_mix w : word32 w -> inv_mix_word (mix_word w) = w.
Proof.
  revert w. apply (additive_word (fun w => inv_mix_word (mix_word w))).
  - intros v w. unfold inv_mix_word, mix_word. by rewrite !circulant_lxor.
  - intros x Hx. rewrite <- !Z.eqb_eq, <- !andb_true_iff. revert x Hx. apply all_bytes.
    vm_compute. reflexivity.
Qed.

Lemma byte_lxor x y : byte x -> byte y -> byte (Z.lxor x y).
Proof.
  intros Hx Hy. rewrite <- (byte_mask x Hx), <- (byte_mask y Hy), <- land_lxor. apply land_byte.
Qed.

Lemma xtime_byte : byte_fun xtime.
Proof. apply byte_fun_check. vm_compute. reflexivity. Qed.

Lemma gmul_byte k : byte_fun (gmul k).
Proof.
  unfold gmul. generalize 8%nat. intros n. revert k.
  induction n as [|n IH]; intros k x Hx; [done|]. cbn [gmul_bits].
  apply byte_lxor; [by destruct (Z.odd k)|]. by apply IH, xtime_byte.
Qed.

#[export] Hint Resolve byte_lxor : hash.
#[export] Hint Extern 1 (byte (gmul _ _)) => apply gmul_byte : hash.

Lemma circulant_word m0 m1 m2 m3 w : word32 (circulant m0 m1 m2 m3 w).
Proof. unfold circulant. auto 10 with hash. Qed.

Lemma map_word_word f w : byte_fun f -> word32 (map_word f w).
Proof. intros Hf. unfold map_word. auto with hash. Qed.

Lemma map_word_map_word f g w : byte_fun f -> (forall x, byte x -> g (f x) = x) ->
  word32 w -> map_word g (map_word f w) = w.
Proof.
  intros Hf Hg Hw. unfold map_word. bytes_of_pack. rewrite !Hg by auto with hash.
  by apply pack_bytes_of.
Qed.

Definition wf (s : quad) : Prop := word32 (q0 s) /\ word32 (q1 s) /\ word32 (q2 s) /\ word32 (q3 s).

Lemma wf_map f s : (forall w, word32 w -> word32 (f w)) -> wf s -> wf (map_quad f s).
Proof. intros Hf (H0 & H1 & H2 & H3). destruct s. cbn in *. split_and!; cbn; auto. Qed.

Lemma map_quad_inv f g s : (forall w, word32 w -> g (f w) = w) -> wf s -> map_quad g (map_quad f s) = s.
Proof. intros Hg (H0 & H1 & H2 & H3). destruct s. cbn in *. by rewrite !Hg. Qed.

Lemma diagonal_word w x y z : word32 (diagonal w x y z).
Proof. unfold diagonal. auto with hash. Qed.

Lemma wf_shift s : wf (shift_rows s).
Proof. destruct s. split_and!; apply diagonal_word. Qed.
Lemma wf_inv_shift s : wf (inv_shift_rows s).
Proof. destruct s. split_and!; apply diagonal_word. Qed.
Lemma wf_sub s : wf s -> wf (sub_bytes s).
Proof. apply wf_map. intros w _. apply map_word_word, sbox_byte. Qed.
Lemma wf_inv_sub s : wf s -> wf (inv_sub_bytes s).
Proof. apply wf_map. intros w _. apply map_word_word, inv_sbox_byte. Qed.
Lemma wf_mix_columns s : wf s -> wf (mix_columns s).
Proof. apply wf_map. intros w _. apply circulant_word. Qed.
Lemma wf_inv_mix s : wf s -> wf (inv_mix_columns s).
Proof. apply wf_map. intros w _. apply circulant_word. Qed.
Lemma wf_add s k : wf s -> wf k -> wf (add_round_key s k).
Proof.
  intros (H0 & H1 & H2 & H3) (K0 & K1 & K2 & K3). destruct s, k. cbn in *.
  split_and!; cbn; by apply word32_lxor.
Qed.
#[export] Hint Resolve wf_shift wf_inv_shift wf_sub wf_inv_sub wf_mix_columns wf_inv_mix wf_add : hash.

Lemma diagonal_bytes w x y z :
  b0 (diagonal w x y z) = b0 w /\ b1 (diagonal w x y z) = b1 x
  /\ b2 (diagonal w x y z) = b2 y /\ b3 (diagonal w x y z) = b3 z.
Proof. unfold diagonal. bytes_of_pack. done. Qed.

Lemma inv_shift_shift s : wf s -> inv_shift_rows (shift_rows s) = s.
Proof.
  intros (H0 & H1 & H2 & H3). destruct s as [s0 s1 s2 s3]. cbn in *.
  unfold diagonal at 1 4 7 10. bytes_of_pack.
  f_equal; unfold diagonal; bytes_of_pack; by apply pack_bytes_of.
Qed.

Lemma sub_shift s : inv_shift_rows (inv_sub_bytes s) = inv_sub_bytes (inv_shift_rows s).
Proof.
  destruct s as [s0 s1 s2 s3]. cbn. unfold diagonal, inv_sub_word, map_word.
  bytes_of_pack. done.
Qed.

Lemma add_add s k : add_round_key (add_round_key s k) k = s.
Proof.
  destruct s, k. cbn. by rewrite !Z.lxor_assoc, !Z.lxor_nilpotent, !Z.lxor_0_r.
Qed.

Lemma inv_mix_add s k :
  inv_mix_columns (add_round_key s k) = add_round_key (inv_mix_columns s) (inv_mix_columns k).
Proof. destruct s, k. cbn. unfold inv_mix_word. by rewrite !circulant_lxor. Qed.

(** ** The equivalent inverse cipher undoes the cipher *)

Lemma undo_sub_shift s : wf s -> inv_shift_rows (inv_sub_bytes (shift_rows (sub_bytes s))) = s.
Proof.
  intros Hs. rewrite sub_shift, inv_shift_shift by auto with hash.
  apply map_quad_inv; [|done]. intros w Hw. apply map_word_map_word; [|apply inv_sbox_sbox|done].
  apply sbox_byte.
Qed.

Lemma undo_round s k : wf s -> wf k ->
  add_round_key (inv_mix_columns (inv_shift_rows (inv_sub_bytes (shift_rows (sub_bytes
    (add_round_key (mix_columns s) k)))))) (inv_mix_columns k) = s.
Proof.
  intros Hs Hk. rewrite undo_sub_shift by auto with hash. rewrite <- inv_mix_add, add_add.
  apply map_quad_inv; [apply inv_mix_mix|done].
Qed.

Lemma undo_rounds middle s : wf s -> Forall wf middle ->
  fold_left (fun s k => add_round_key (inv_mix_columns (inv_shift_rows (inv_sub_bytes s))) k)
    (map inv_mix_columns (rev middle))
    (shift_rows (sub_bytes (fold_left
      (fun s k => add_round_key (mix_columns (shift_rows (sub_bytes s))) k) middle s)))
  = shift_rows (sub_bytes s).
Proof.
  intros Hs. induction middle as [|k m IH] using rev_ind; intros Hm; [done|].
  apply Forall_app in Hm as [Hm Hk]. rewrite Forall_singleton in Hk.
  rewrite rev_app_distr, fold_left_app. cbn [rev app map fold_left].
  rewrite undo_round; [by apply IH| |done].
  apply wf_shift.
Qed.

Lemma fips_inverse first last middle s :
  wf first -> Forall wf middle -> wf s ->
  fips_eq_inv_cipher last first (map inv_mix_columns (rev middle)) (fips_cipher first last middle s) = s.
Proof.
  intros Hf Hm Hs. unfold fips_eq_inv_cipher, fips_cipher.
  rewrite add_add, undo_rounds, undo_sub_shift, add_add by auto with hash. done.
Qed.

(** ** What the tables hold *)

Lemma Te0_spec x : byte x -> aget Te0 x = mix_word (pack (sbox x) 0 0 0).
Proof. revert x. apply byte_table. vm_compute. reflexivity. Qed.
Lemma Te1_spec x : byte x -> aget Te1 x = mix_word (pack 0 (sbox x) 0 0).
Proof. revert x. apply byte_table. vm_compute. reflexivity. Qed.
Lemma Te2_spec x : byte x -> aget Te2 x = mix_word (pack 0 0 (sbox x) 0).
Proof. revert x. apply byte_table. vm_compute. reflexivity. Qed.
Lemma Te3_spec x : byte x -> aget Te3 x = mix_word (pack 0 0 0 (sbox x)).
Proof. revert x. apply byte_table. vm_compute. reflexivity. Qed.
Lemma Td0_spec x : byte x -> aget Td0 x = inv_mix_word (pack (inv_sbox x) 0 0 0).
Proof. revert x. apply byte_table. vm_compute. reflexivity. Qed.
Lemma Td1_spec x : byte x -> aget Td1 x = inv_mix_word (pack 0 (inv_sbox x) 0 0).
Proof. revert x. apply byte_table. vm_compute. reflexivity. Qed.
Lemma Td2_spec x : byte x -> aget Td2 x = inv_mix_word (pack 0 0 (inv_sbox x) 0).
Proof. revert x. apply byte_table. vm_compute. reflexivity. Qed.
Lemma Td3_spec x : byte x -> aget Td3 x = inv_mix_word (pack 0 0 0 (inv_sbox x)).
Proof. revert x. apply byte_table. vm_compute. reflexivity. Qed.

(** The last tables repeat the box in every byte; a mask keeps one of them. *)
Definition one_byte (t : list Z) (f : Z -> Z) (x : Z) : Prop :=
  Z.land (aget t x) 0xff000000 = pack (f x) 0 0 0 /\ Z.land (aget t x) 0x00ff0000 = pack 0 (f x) 0 0
  /\ Z.land (aget t x) 0x0000ff00 = pack 0 0 (f x) 0 /\ Z.land (aget t x) 0x000000ff = pack 0 0 0 (f x).

Lemma Te4_spec x : byte x -> one_byte Te4 sbox x.
Proof.
  unfold one_byte. intros Hx. rewrite <- !Z.eqb_eq, <- !andb_true_iff. revert x Hx.
  apply all_bytes. vm_compute. reflexivity.
Qed.

Lemma Td4_spec x : byte x -> one_byte Td4 inv_sbox x.
Proof.
  unfold one_byte. intros Hx. rewrite <- !Z.eqb_eq, <- !andb_true_iff. revert x Hx.
  apply all_bytes. vm_compute. reflexivity.
Qed.

(** ** Rounds by table *)

(** [(x >> 16) & 0xff] and the like name the bytes of a word. *)
Ltac name_bytes :=
  repeat match goal with
  | |- context [Z.land (Z.shiftr ?w 16) 0xff] => change (Z.land (Z.shiftr w 16) 0xff) with (b1 w)
  | |- context [Z.land (Z.shiftr ?w 8) 0xff] => change (Z.land (Z.shiftr w 8) 0xff) with (b2 w)
  end.

Lemma te_word_spec a b c d k : word32 a ->
  te_word a b c d k = Z.lxor (mix_word (sub_word (diagonal a b c d))) k.
Proof.
  intros Ha. unfold te_word, sub_word, map_word. destruct (diagonal_bytes a b c d) as (-> & -> & -> & ->).
  rewrite (b0_word a Ha). name_bytes. fold (b3 d).
  rewrite Te0_spec, Te1_spec, Te2_spec, Te3_spec by auto with hash.
  rewrite (pack_columns (sbox (b0 a)) (sbox (b1 b))). unfold mix_word. by rewrite !circulant_lxor.
Qed.

Lemma td_word_spec a b c d k : word32 a ->
  td_word a b c d k = Z.lxor (inv_mix_word (inv_sub_word (diagonal a b c d))) k.
Proof.
  intros Ha. unfold td_word, inv_sub_word, map_word.
  destruct (diagonal_bytes a b c d) as (-> & -> & -> & ->).
  rewrite (b0_word a Ha). name_bytes. fold (b3 d).
  rewrite Td0_spec, Td1_spec, Td2_spec, Td3_spec by auto with hash.
  rewrite (pack_columns (inv_sbox (b0 a)) (inv_sbox (b1 b))). unfold inv_mix_word. by rewrite !circulant_lxor.
Qed.

Lemma te4_word_spec a b c d k : word32 a ->
  te4_word a b c d k = Z.lxor (sub_word (diagonal a b c d)) k.
Proof.
  intros Ha. unfold te4_word, sub_word, map_word. destruct (diagonal_bytes a b c d) as (-> & -> & -> & ->).
  rewrite (b0_word a Ha). name_bytes. change (Z.land d 255) with (b3 d).
  destruct (Te4_spec _ (b0_byte a)) as (-> & _), (Te4_spec _ (b1_byte b)) as (_ & -> & _).
  destruct (Te4_spec _ (b2_byte c)) as (_ & _ & -> & _), (Te4_spec _ (b3_byte d)) as (_ & _ & _ & ->).
  by rewrite <- pack_columns.
Qed.

Lemma td4_word_spec a b c d k : word32 a ->
  td4_word a b c d k = Z.lxor (inv_sub_word (diagonal a b c d)) k.
Proof.
  intros Ha. unfold td4_word, inv_sub_word, map_word.
  destruct (diagonal_bytes a b c d) as (-> & -> & -> & ->).
  rewrite (b0_word a Ha). name_bytes. change (Z.land d 255) with (b3 d).
  destruct (Td4_spec _ (b0_byte a)) as (-> & _), (Td4_spec _ (b1_byte b)) as (_ & -> & _).
  destruct (Td4_spec _ (b2_byte c)) as (_ & _ & -> & _), (Td4_spec _ (b3_byte d)) as (_ & _ & _ & ->).
  by rewrite <- pack_columns.
Qed.

(** * rijndael.cc implements FIPS-197

    Both ciphers, looped or unrolled, are the ciphers of FIPS-197 over the round keys in the
    array; the set-up for decryption produces the keys of the equivalent inverse cipher; so
    decryption undoes encryption for every key schedule of words. *)

(** ** Blocks of bytes *)

Definition block_of (p : list Z) : quad := Q (GETU32 p 0) (GETU32 p 4) (GETU32 p 8) (GETU32 p 12).
Definition bytes_of (s : quad) : list Z :=
  PUTU32 (q0 s) ++ PUTU32 (q1 s) ++ PUTU32 (q2 s) ++ PUTU32 (q3 s).
Definition key_at (rk : list Z) (j : Z) : quad :=
  Q (aget rk (4 * j)) (aget rk (4 * j + 1)) (aget rk (4 * j + 2)) (aget rk (4 * j + 3)).

Definition block (p : list Z) : Prop := List.length p = 16%nat /\ Forall byte p.

Lemma PUTU32_bytes w : PUTU32 w = [b0 w; b1 w; b2 w; b3 w].
Proof. done. Qed.

Lemma GETU32_pack p o : byte (aget p o) -> byte (aget p (o + 1)) -> byte (aget p (o + 2)) ->
  GETU32 p o = pack (aget p o) (aget p (o + 1)) (aget p (o + 2)) (aget p (o + 3)).
Proof.
  unfold byte. intros H0 H1 H2. unfold GETU32, pack, shl32.
  rewrite !u32_small by (rewrite shl_mul; unfold UINT_MOD; lia). done.
Qed.

Lemma aget_byte p o : Forall byte p -> byte (aget p o).
Proof.
  intros H. unfold aget. rewrite list_lookup_total_alt.
  destruct (p !! Z.to_nat o) as [x|] eqn:E; [|done]. by eapply Forall_lookup_1 in E.
Qed.

Lemma aget_word rk o : Forall word32 rk -> word32 (aget rk o).
Proof.
  intros H. unfold aget. rewrite list_lookup_total_alt.
  destruct (rk !! Z.to_nat o) as [x|] eqn:E; [|done]. by eapply Forall_lookup_1 in E.
Qed.
#[export] Hint Resolve aget_byte aget_word : hash.

Lemma GETU32_word p o : Forall byte p -> word32 (GETU32 p o).
Proof. intros H. rewrite GETU32_pack by auto with hash. auto with hash. Qed.

Lemma wf_block_of p : Forall byte p -> wf (block_of p).
Proof. intros H. split_and!; by apply GETU32_word. Qed.

Lemma wf_key_at rk j : Forall word32 rk -> wf (key_at rk j).
Proof. intros H. split_and!; by apply aget_word. Qed.
#[export] Hint Resolve GETU32_word wf_block_of wf_key_at : hash.

Lemma bytes_of_block s : block (bytes_of s).
Proof.
  split; [done|]. unfold bytes_of. rewrite !PUTU32_bytes. cbn [app].
  repeat (apply Forall_cons; [auto with hash|]). apply Forall_nil.
Qed.

Lemma block_of_bytes_of s : wf s -> block_of (bytes_of s) = s.
Proof.
  intros (H0 & H1 & H2 & H3). destruct (bytes_of_block s) as [_ Hb]. unfold block_of.
  rewrite !GETU32_pack by auto with hash. unfold bytes_of. rewrite !PUTU32_bytes.
  destruct s as [w0 w1 w2 w3]. cbn in *. f_equal; by apply pack_bytes_of.
Qed.

Lemma bytes_of_block_of p : block p -> bytes_of (block_of p) = p.
Proof.
  intros [Hl Hb]. unfold bytes_of, block_of. rewrite !GETU32_pack by auto with hash.
  rewrite !PUTU32_bytes. cbn [q0 q1 q2 q3]. bytes_of_pack.
  do 17 (destruct p as [|? p]; [try discriminate Hl|]); [done|discriminate Hl].
Qed.

(** ** Rounds *)

Lemma diagonal_map f a b c d : byte_fun f ->
  diagonal (map_word f a) (map_word f b) (map_word f c) (map_word f d) = map_word f (diagonal a b c d).
Proof.
  intros Hf. unfold map_word. destruct (diagonal_bytes a b c d) as (-> & -> & -> & ->).
  unfold diagonal. by rewrite b0_pack, b1_pack, b2_pack, b3_pack by auto with hash.
Qed.

Section Rounds.
Context (rk : list Z) (j : Z) (s : quad) (Hs : wf s).

Lemma enc_round_spec :
  enc_round rk (4 * j) s = add_round_key (mix_columns (shift_rows (sub_bytes s))) (key_at rk j).
Proof using Hs.
  destruct Hs as (H0 & H1 & H2 & H3), s as [s0 s1 s2 s3]. cbn in *.
  rewrite !te_word_spec by done. unfold sub_word. by rewrite !(diagonal_map sbox) by apply sbox_byte.
Qed.

Lemma enc_last_spec :
  enc_last rk (4 * j) s = bytes_of (add_round_key (shift_rows (sub_bytes s)) (key_at rk j)).
Proof using Hs.
  destruct Hs as (H0 & H1 & H2 & H3), s as [s0 s1 s2 s3]. unfold enc_last, bytes_of. cbn in *.
  rewrite !te4_word_spec by done. unfold sub_word. by rewrite !(diagonal_map sbox) by apply sbox_byte.
Qed.

Lemma dec_round_spec :
  dec_round rk (4 * j) s
  = add_round_key (inv_mix_columns (inv_shift_rows (inv_sub_bytes s))) (key_at rk j).
Proof using Hs.
  destruct Hs as (H0 & H1 & H2 & H3), s as [s0 s1 s2 s3]. cbn in *.
  rewrite !td_word_spec by done. unfold inv_sub_word.
  by rewrite !(diagonal_map inv_sbox) by apply inv_sbox_byte.
Qed.

Lemma dec_last_spec :
  dec_last rk (4 * j) s = bytes_of (add_round_key (inv_shift_rows (inv_sub_bytes s)) (key_at rk j)).
Proof using Hs.
  destruct Hs as (H0 & H1 & H2 & H3), s as [s0 s1 s2 s3]. unfold dec_last, bytes_of. cbn in *.
  rewrite !td4_word_spec by done. unfold inv_sub_word.
  by rewrite !(diagonal_map inv_sbox) by apply inv_sbox_byte.
Qed.
End Rounds.

(** The three numbers of rounds. *)
Definition rounds_ok (Nr : Z) : Prop := Nr = 10 \/ Nr = 12 \/ Nr = 14.

(** Looped or unrolled: the rounds [1 .. Nr - 1]. *)
Lemma full_rounds_spec `{CC : CipherConfig} round Nr s : rounds_ok Nr ->
  full_rounds round Nr s = Some (fold_left (fun s j => round (4 * j) s) (seqZ 1 (Nr - 1)) s, 4 * Nr).
Proof. intros [-> | [-> | ->]]; unfold full_rounds; destruct FULL_UNROLL; reflexivity. Qed.

(** A fold of table rounds is a fold of the rounds it implements. *)
Lemma fold_rounds (table : Z -> quad -> quad) (layer : quad -> quad -> quad) (key : Z -> quad) js s :
  (forall s j, wf s -> table (4 * j) s = layer s (key j)) -> (forall s j, wf s -> wf (layer s (key j))) ->
  wf s ->
  fold_left (fun s j => table (4 * j) s) js s = fold_left layer (map key js) s
  /\ wf (fold_left layer (map key js) s).
Proof.
  intros Ht Hl. revert s. induction js as [|j js IH]; intros s Hs; [done|].
  cbn [fold_left map]. rewrite Ht by done. apply IH. by apply Hl.
Qed.

Section Ciphers.
Context `{CC : CipherConfig} (rk : list Z) (Nr : Z) (p : list Z).
Context (Hrk : Forall word32 rk) (HNr : rounds_ok Nr) (Hp : Forall byte p).

Lemma load_state_spec : load_state rk p = add_round_key (block_of p) (key_at rk 0).
Proof using Type. done. Qed.

Lemma rijndaelEncrypt_spec :
  rijndaelEncrypt rk Nr p = Some (bytes_of (fips_cipher (key_at rk 0) (key_at rk Nr)
    (map (key_at rk) (seqZ 1 (Nr - 1))) (block_of p))).
Proof using All.
  unfold rijndaelEncrypt. rewrite full_rounds_spec, load_state_spec by done.
  destruct (fold_rounds (enc_round rk)
    (fun s k => add_round_key (mix_columns (shift_rows (sub_bytes s))) k) (key_at rk)
    (seqZ 1 (Nr - 1)) (add_round_key (block_of p) (key_at rk 0))) as [-> Hw]; auto with hash.
  { intros s j Hs. by apply enc_round_spec. }
  by rewrite enc_last_spec.
Qed.

Lemma rijndaelDecrypt_spec :
  rijndaelDecrypt rk Nr p = Some (bytes_of (fips_eq_inv_cipher (key_at rk 0) (key_at rk Nr)
    (map (key_at rk) (seqZ 1 (Nr - 1))) (block_of p))).
Proof using All.
  unfold rijndaelDecrypt. rewrite full_rounds_spec, load_state_spec by done.
  destruct (fold_rounds (dec_round rk)
    (fun s k => add_round_key (inv_mix_columns (inv_shift_rows (inv_sub_bytes s))) k) (key_at rk)
    (seqZ 1 (Nr - 1)) (add_round_key (block_of p) (key_at rk 0))) as [-> Hw]; auto with hash.
  { intros s j Hs. by apply dec_round_spec. }
  by rewrite dec_last_spec.
Qed.
End Ciphers.

(** With all the rounds, the functions for intermediate values are the ciphers. *)
Lemma some_rounds_spec round n j s :
  some_rounds round n (4 * j) s
  = (fold_left (fun s j => round (4 * j) s) (seqZ j (Z.of_nat n)) s, 4 * (j + Z.of_nat n)).
Proof.
  revert j s. induction n as [|n IH]; intros j s; [cbn; f_equal; lia|].
  cbn [some_rounds]. rewrite (seqZ_cons j) by lia. cbn [fold_left].
  replace (4 * j + 4) with (4 * Z.succ j) by lia. rewrite IH.
  replace (Z.pred (Z.of_nat (S n))) with (Z.of_nat n) by lia. f_equal. lia.
Qed.

Lemma reduced_rounds_full `{CC : CipherConfig} rk Nr p : rounds_ok Nr ->
  rijndaelEncrypt rk Nr p = Some (rijndaelEncryptRound rk Nr p Nr)
  /\ rijndaelDecrypt rk Nr p = Some (rijndaelDecryptRound rk Nr p Nr).
Proof.
  intros HNr. unfold rijndaelEncrypt, rijndaelDecrypt, rijndaelEncryptRound, rijndaelDecryptRound.
  rewrite !full_rounds_spec, Z.ltb_irrefl, Z.eqb_refl by done. change 4 with (4 * 1).
  rewrite !some_rounds_spec, Z2Nat.id by (unfold rounds_ok in HNr; lia).
  replace (1 + (Nr - 1)) with Nr by lia. split; [done|].
  destruct (fold_left _ _ _) as [s0 s1 s2 s3]. unfold dec_last. by rewrite Z.add_0_r.
Qed.
