(* ===== verification/RijndaelKeys.v ===== *)
(** * The key schedules of rijndael.cc

    The loops of [rijndaelKeySetupEnc] write the key expansion of FIPS-197 for each of the
    three key sizes, and [rijndaelKeySetupDec] turns it into the schedule of the equivalent
    inverse cipher. Together with RijndaelSpec.v: encryption is FIPS-197, and decryption
    undoes it. *)

From stdpp Require Import base list numbers.
From Stdlib Require Import ZArith Lia Btauto.
From S2P Require Import Prelude HashWords RijndaelTables Rijndael RijndaelSpec.

(** ** Key expansion of FIPS-197 *)

Fixpoint rcon_byte (n : nat) : Z := match n with O => 1 | S n' => xtime (rcon_byte n') end.

(** ** The words with the S-box *)

Lemma rcon_spec i : 0 <= i < 10 -> aget rcon i = pack (rcon_byte (Z.to_nat i)) 0 0 0.
Proof.
  intros Hi. assert (H : forallb (fun i => aget rcon i =? pack (rcon_byte (Z.to_nat i)) 0 0 0) (seqZ 0 10) = true)
    by (vm_compute; reflexivity).
  rewrite forallb_forall in H. apply Z.eqb_eq, H, list_elem_of_In, elem_of_seqZ. lia.
Qed.

Lemma rot_sub_word_spec prev temp i : word32 temp ->
  rot_sub_word prev temp i = Z.lxor prev (Z.lxor (sub_word (rot_word temp)) (aget rcon i)).
Proof.
  intros Ht. unfold rot_sub_word, sub_word, map_word, rot_word.
  rewrite (b0_word temp Ht). name_bytes. change (Z.land temp 255) with (b3 temp). bytes_of_pack.
  destruct (Te4_spec _ (b1_byte temp)) as (-> & _), (Te4_spec _ (b2_byte temp)) as (_ & -> & _).
  destruct (Te4_spec _ (b3_byte temp)) as (_ & _ & -> & _), (Te4_spec _ (b0_byte temp)) as (_ & _ & _ & ->).
  rewrite (pack_columns (sbox (b1 temp)) (sbox (b2 temp))). xor_solve.
Qed.

Lemma plain_sub_word_spec prev temp : word32 temp ->
  plain_sub_word prev temp = Z.lxor prev (sub_word temp).
Proof.
  intros Ht. unfold plain_sub_word, sub_word, map_word.
  rewrite (b0_word temp Ht). name_bytes. change (Z.land temp 255) with (b3 temp).
  destruct (Te4_spec _ (b0_byte temp)) as (-> & _), (Te4_spec _ (b1_byte temp)) as (_ & -> & _).
  destruct (Te4_spec _ (b2_byte temp)) as (_ & _ & -> & _), (Te4_spec _ (b3_byte temp)) as (_ & _ & _ & ->).
  rewrite (pack_columns (sbox (b0 temp)) (sbox (b1 temp))). xor_solve.
Qed.

Section Expansion.
Context (Nk : nat) (key : list Z).

Definition transform (i : nat) (temp : Z) : Z :=
  if (i mod Nk =? 0)%nat
  then Z.lxor (sub_word (rot_word temp)) (pack (rcon_byte (i / Nk - 1)) 0 0 0)
  else if (6 <? Nk)%nat && (i mod Nk =? 4)%nat then sub_word temp else temp.

Definition next_word (w : list Z) (i : nat) : Z :=
  if (i <? Nk)%nat then GETU32 key (4 * Z.of_nat i)
  else Z.lxor (w !!! (i - Nk)%nat) (transform i (w !!! (i - 1)%nat)).

(** The first [n] words. *)
Fixpoint schedule (n : nat) : list Z :=
  match n with O => [] | S n' => schedule n' ++ [next_word (schedule n') n'] end.

Definition fips_word (i : nat) : Z := schedule (S i) !!! i.

Lemma length_schedule n : List.length (schedule n) = n.
Proof. induction n as [|n IH]; [done|]. cbn [schedule]. rewrite length_app, IH. simpl. lia. Qed.

Lemma schedule_word n i : (i < n)%nat -> schedule n !!! i = fips_word i.
Proof.
  intros Hi. induction Hi as [|n Hi IH]; [done|]. rewrite <- IH. cbn [schedule].
  rewrite lookup_total_app_l; [done|]. rewrite length_schedule. lia.
Qed.

Lemma fips_word_next n : fips_word n = next_word (schedule n) n.
Proof.
  unfold fips_word. cbn [schedule]. rewrite lookup_total_app_r; rewrite length_schedule; [|lia].
  by rewrite Nat.sub_diag.
Qed.

Lemma fips_word_key n : (n < Nk)%nat -> fips_word n = GETU32 key (4 * Z.of_nat n).
Proof. intros H. rewrite fips_word_next. unfold next_word. by rewrite (proj2 (Nat.ltb_lt _ _)). Qed.

Lemma fips_word_rec n : (0 < Nk <= n)%nat ->
  fips_word n = Z.lxor (fips_word (n - Nk)) (transform n (fips_word (n - 1))).
Proof.
  intros H. rewrite fips_word_next. unfold next_word. rewrite (proj2 (Nat.ltb_ge _ _)) by lia.
  by rewrite !schedule_word by lia.
Qed.

Lemma rcon_byte_byte n : byte (rcon_byte n).
Proof. induction n as [|n IH]; [done|]. by apply xtime_byte. Qed.

Lemma transform_word i w : word32 w -> word32 (transform i w).
Proof.
  intros Hw. unfold transform.
  destruct (_ =? 0)%nat; [|destruct (_ && _); [|done]].
  - apply word32_lxor; [apply map_word_word, sbox_byte|]. apply pack_word; auto using rcon_byte_byte with hash.
  - apply map_word_word, sbox_byte.
Qed.

Lemma fips_word_word n : (0 < Nk)%nat -> Forall byte key -> word32 (fips_word n).
Proof.
  intros HNk Hk. induction (lt_wf n) as [n _ IH]. destruct (decide (n < Nk)%nat).
  - rewrite fips_word_key by done. by apply GETU32_word.
  - rewrite fips_word_rec by lia. apply word32_lxor; [apply IH; lia|]. apply transform_word, IH. lia.
Qed.

(** ** The array holds the first words of the expansion *)

Context (HNk : (0 < Nk)%nat) (Hkey : Forall byte key) (len : nat).

Definition agree (rk : list Z) (n : nat) : Prop :=
  List.length rk = len /\ Forall word32 rk
  /\ forall j, (j < n)%nat -> aget rk (Z.of_nat j) = fips_word j.

Lemma agree_set rk n z v : agree rk n -> (n < len)%nat -> z = Z.of_nat n ->
  v = fips_word n -> agree (aset rk z v) (S n).
Proof using HNk Hkey.
  intros (Hl & Hw & Ha) Hn -> ->. split_and!; [by rewrite length_aset| |].
  - unfold aset. apply Forall_insert; [done|]. by apply fips_word_word.
  - intros j Hj. destruct (decide (j = n)) as [->|].
    + apply aget_aset_eq. unfold in_range. lia.
    + rewrite aget_aset_ne by lia. apply Ha. lia.
Qed.

Lemma agree_get rk n z j : agree rk n -> z = Z.of_nat j -> (j < n)%nat -> aget rk z = fips_word j.
Proof using Type. intros (_ & _ & Ha) -> Hj. by apply Ha. Qed.

Section Step.
Context (rk : list Z) (n : nat) (d a b : Z).
Context (Ha : agree rk n) (Hl : (n < len)%nat) (Hn : (Nk <= n)%nat).
Context (Ed : d = Z.of_nat n) (Ea : a = Z.of_nat (n - Nk)) (Eb : b = Z.of_nat (n - 1)).

Lemma agree_xor : (n mod Nk <> 0)%nat -> ~ (6 < Nk /\ n mod Nk = 4)%nat ->
  agree (aset rk d (Z.lxor (aget rk a) (aget rk b))) (S n).
Proof using All.
  intros H0 H4. apply agree_set; [done..|].
  rewrite (agree_get rk n _ (n - Nk)), (agree_get rk n _ (n - 1)) by (assumption || lia).
  rewrite (fips_word_rec n) by lia. unfold transform.
  rewrite (proj2 (Nat.eqb_neq _ _) H0).
  destruct (Nat.ltb_spec 6 Nk), (Nat.eqb_spec (n mod Nk) 4); try done. by destruct H4.
Qed.

Lemma agree_rot i : (n mod Nk = 0)%nat -> i = Z.of_nat (n / Nk - 1) -> 0 <= i < 10 ->
  agree (aset rk d (rot_sub_word (aget rk a) (aget rk b) i)) (S n).
Proof using All.
  intros H0 Hi Hr. apply agree_set; [done..|].
  rewrite rot_sub_word_spec by (apply aget_word, Ha). rewrite rcon_spec by assumption.
  rewrite (agree_get rk n _ (n - Nk)), (agree_get rk n _ (n - 1)) by (assumption || lia).
  rewrite (fips_word_rec n) by lia. unfold transform. rewrite H0, Hi, Nat2Z.id. cbn [Nat.eqb]. reflexivity.
Qed.

Lemma agree_sub : (6 < Nk)%nat -> (n mod Nk = 4)%nat ->
  agree (aset rk d (plain_sub_word (aget rk a) (aget rk b))) (S n).
Proof using All.
  intros H6 H4. apply agree_set; [done..|].
  rewrite plain_sub_word_spec by (apply aget_word, Ha).
  rewrite (agree_get rk n _ (n - Nk)), (agree_get rk n _ (n - 1)) by (assumption || lia).
  rewrite (fips_word_rec n) by lia. unfold transform. rewrite H4.
  rewrite (proj2 (Nat.ltb_lt _ _) H6). cbn [Nat.eqb andb]. reflexivity.
Qed.
End Step.

Lemma agree_xor_into rk n o d a b : agree rk n -> (n < len)%nat -> (Nk <= n)%nat ->
  o + d = Z.of_nat n -> o + a = Z.of_nat (n - Nk) -> o + b = Z.of_nat (n - 1) ->
  (n mod Nk <> 0)%nat -> ~ (6 < Nk /\ n mod Nk = 4)%nat -> agree (xor_into o d a b rk) (S n).
Proof using All. apply agree_xor. Qed.
End Expansion.

(** ** The loops *)

Lemma mod_index (k q r : nat) : (r < k)%nat -> ((k * q + r) mod k = r)%nat.
Proof.
  intros H. rewrite Nat.add_comm, Nat.mul_comm, Nat.Div0.mod_add. by apply Nat.mod_small.
Qed.
Lemma div_index (k q r : nat) : (r < k)%nat -> ((k * q + r) / k = q)%nat.
Proof.
  intros H. rewrite Nat.add_comm, Nat.mul_comm, Nat.div_add by lia. by rewrite Nat.div_small.
Qed.

(** The last store of a chain: its word has index [k * q + r]. *)
Ltac store k q r :=
  replace (k * q + S r)%nat with (S (k * q + r)) by lia;
  first [ apply agree_xor_into; [lia|assumption| |lia..|rewrite mod_index; lia|rewrite mod_index; lia]
        | apply agree_rot; [lia|assumption| |lia..|rewrite mod_index; lia|rewrite div_index; lia|lia]
        | apply agree_sub; [lia|assumption| |lia..|rewrite mod_index; lia] ].

(** A store loop that runs out of turns at [last] extends the words it holds. *)
Ltac next_turn IH i k :=
  replace (Z.of_nat i + 1) with (Z.of_nat (S i)) by lia;
  replace (k * Z.of_nat i + k) with (k * Z.of_nat (S i)) by lia; apply IH; [lia..|].

(** The last [n] stores of a turn, the first of them at [k * q + lo]. *)
Ltac stores k q lo n :=
  lazymatch n with
  | O => assumption
  | S ?n' => let r := eval cbv in (lo + n')%nat in store k q r; stores k q lo n'
  end.

Section Loops.
Context (key : list Z) (Hkey : Forall byte key) (len : nat).

Lemma expand128_spec fuel rk i : (44 <= len)%nat -> (i < 10)%nat -> (10 <= fuel + i)%nat ->
  agree 4 key len rk (4 * (i + 1) + 0) ->
  exists rk', expand128 fuel rk (4 * Z.of_nat i) (Z.of_nat i) = Some rk' /\ agree 4 key len rk' 44.
Proof using All.
  intros Hlen. revert rk i. induction fuel as [|fuel IH]; intros rk i Hi Hf Ha; [lia|].
  cbn [expand128]. cbv zeta.
  match goal with |- exists _, (if _ then Some ?r else _) = _ /\ _ => set (rk1 := r) end.
  assert (H1 : agree 4 key len rk1 (4 * (i + 1) + 4)).
  { subst rk1. stores 4%nat (i + 1)%nat 0%nat 4%nat. }
  clearbody rk1. destruct (Z.eqb_spec (Z.of_nat i + 1) 10).
  - exists rk1. split; [done|]. by replace 44%nat with (4 * (i + 1) + 4)%nat by lia.
  - next_turn IH i 4. by replace (4 * (S i + 1) + 0)%nat with (4 * (i + 1) + 4)%nat by lia.
Qed.

Lemma expand192_spec fuel rk i : (52 <= len)%nat -> (i < 8)%nat -> (8 <= fuel + i)%nat ->
  agree 6 key len rk (6 * (i + 1) + 0) ->
  exists rk', expand192 fuel rk (6 * Z.of_nat i) (Z.of_nat i) = Some rk' /\ agree 6 key len rk' 52.
Proof using All.
  intros Hlen. revert rk i. induction fuel as [|fuel IH]; intros rk i Hi Hf Ha; [lia|].
  cbn [expand192]. cbv zeta.
  match goal with |- exists _, (if _ then Some ?r else _) = _ /\ _ => set (rk1 := r) end.
  assert (H1 : agree 6 key len rk1 (6 * (i + 1) + 4)).
  { subst rk1. stores 6%nat (i + 1)%nat 0%nat 4%nat. }
  clearbody rk1. destruct (Z.eqb_spec (Z.of_nat i + 1) 8).
  - exists rk1. split; [done|]. by replace 52%nat with (6 * (i + 1) + 4)%nat by lia.
  - next_turn IH i 6. replace (6 * (S i + 1) + 0)%nat with (6 * (i + 1) + 6)%nat by lia.
    stores 6%nat (i + 1)%nat 4%nat 2%nat.
Qed.

Lemma expand256_spec fuel rk i : (60 <= len)%nat -> (i < 7)%nat -> (7 <= fuel + i)%nat ->
  agree 8 key len rk (8 * (i + 1) + 0) ->
  exists rk', expand256 fuel rk (8 * Z.of_nat i) (Z.of_nat i) = Some rk' /\ agree 8 key len rk' 60.
Proof using All.
  intros Hlen. revert rk i. induction fuel as [|fuel IH]; intros rk i Hi Hf Ha; [lia|].
  cbn [expand256]. cbv zeta.
  match goal with |- exists _, (if _ then Some ?r else _) = _ /\ _ => set (rk1 := r) end.
  assert (H1 : agree 8 key len rk1 (8 * (i + 1) + 4)).
  { subst rk1. stores 8%nat (i + 1)%nat 0%nat 4%nat. }
  clearbody rk1. destruct (Z.eqb_spec (Z.of_nat i + 1) 7).
  - exists rk1. split; [done|]. by replace 60%nat with (8 * (i + 1) + 4)%nat by lia.
  - next_turn IH i 8. replace (8 * (S i + 1) + 0)%nat with (8 * (i + 1) + 8)%nat by lia.
    stores 8%nat (i + 1)%nat 4%nat 4%nat.
Qed.
End Loops.

(** ** Set-up for encryption *)

(** Bits of a key, its words, and the rounds. *)
Definition key_size (keyBits : Z) (Nk : nat) (Nr : Z) : Prop :=
  (keyBits, Nk, Nr) ∈ [(128, 4%nat, 10); (192, 6%nat, 12); (256, 8%nat, 14)].

Lemma key_size_rounds keyBits Nk Nr : key_size keyBits Nk Nr -> rounds_ok Nr /\ (0 < Nk <= 8)%nat.
Proof. unfold key_size, rounds_ok. rewrite !elem_of_cons, elem_of_nil. naive_solver lia. Qed.

Section Setup.
Context (rk key : list Z) (Hkey : Forall byte key) (Hrk : Forall word32 rk).

Lemma agree_load Nk len n z rk0 : (0 < Nk)%nat -> agree Nk key len rk0 n -> (n < Nk)%nat -> (Nk <= len)%nat ->
  z = Z.of_nat n -> agree Nk key len (aset rk0 z (GETU32 key (4 * z))) (S n).
Proof using Hkey.
  intros HNk Ha Hn Hl ->. apply agree_set; try (done || lia). by rewrite fips_word_key.
Qed.

Lemma agree_start Nk : agree Nk key (List.length rk) rk 0.
Proof using Hrk. split_and!; [done..|]. intros j Hj. lia. Qed.

Ltac loads :=
  match goal with |- agree _ _ _ _ ?n => let m := eval cbv in n in change n with m end;
  repeat (apply agree_load; [lia| |lia..]); apply agree_start.

Lemma rijndaelKeySetupEnc_spec keyBits Nk Nr :
  key_size keyBits Nk Nr -> 4 * (Nr + 1) <= Z.of_nat (List.length rk) ->
  exists rk', rijndaelKeySetupEnc rk key keyBits = Some (rk', Nr)
    /\ agree Nk key (List.length rk) rk' (Z.to_nat (4 * (Nr + 1))).
Proof using All.
  unfold key_size. rewrite !elem_of_cons, elem_of_nil. unfold rijndaelKeySetupEnc. cbv zeta.
  intros [[= -> -> ->]|[[= -> -> ->]|[[= -> -> ->]|[]]]] Hl.
  - match goal with |- context [expand128 10 ?r 0 0] =>
      destruct (expand128_spec key Hkey (List.length rk) 10 r 0) as (rk' & E & Ha); [lia..|loads|] end.
    exists rk'. change (4 * Z.of_nat 0) with 0 in E. change (Z.of_nat 0) with 0 in E. rewrite E. done.
  - match goal with |- context [expand192 10 ?r 0 0] =>
      destruct (expand192_spec key Hkey (List.length rk) 10 r 0) as (rk' & E & Ha); [lia..|loads|] end.
    exists rk'. change (6 * Z.of_nat 0) with 0 in E. change (Z.of_nat 0) with 0 in E. rewrite E. done.
  - match goal with |- context [expand256 10 ?r 0 0] =>
      destruct (expand256_spec key Hkey (List.length rk) 10 r 0) as (rk' & E & Ha); [lia..|loads|] end.
    exists rk'. change (8 * Z.of_nat 0) with 0 in E. change (Z.of_nat 0) with 0 in E. rewrite E. done.
Qed.
End Setup.

(** * The decryption keys of rijndael.cc, and decryption after encryption

    [rijndaelKeySetupDec] reverses the round keys and applies the inverse MixColumns to all
    but the first and the last, which gives the keys of the equivalent inverse cipher. With
    the key expansion and the ciphers: [rijndaelEncrypt] is FIPS-197 for the three key sizes,
    and [rijndaelDecrypt] returns the block it was given. *)

(** ** Stores into an array of words *)

Lemma aget_aset_if (a : list Z) i x k : in_range a i -> 0 <= k ->
  aget (aset a i x) k = if decide (k = i) then x else aget a k.
Proof.
  intros Hi Hk. case_decide as E; [subst; by apply aget_aset_eq|].
  apply aget_aset_ne; unfold in_range in *; lia.
Qed.

Lemma aget_swap (rk : list Z) i j k : in_range rk i -> in_range rk j -> 0 <= k ->
  aget (swap_words i j rk) k
  = if decide (k = i) then aget rk j else if decide (k = j) then aget rk i else aget rk k.
Proof.
  intros Hi Hj Hk. unfold swap_words. cbv zeta.
  rewrite aget_aset_if, aget_aset_if by (rewrite ?in_range_aset; done).
  by repeat case_decide; subst.
Qed.

Lemma length_swap i j rk : List.length (swap_words i j rk) = List.length rk.
Proof. unfold swap_words. by rewrite !length_aset. Qed.

Lemma Forall_aset (P : Z -> Prop) a i x : Forall P a -> P x -> Forall P (aset a i x).
Proof. intros. unfold aset. by apply Forall_insert. Qed.

Lemma Forall_swap rk i j : Forall word32 rk -> Forall word32 (swap_words i j rk).
Proof. intros H. unfold swap_words. auto using Forall_aset, aget_word. Qed.

(** ** Reversal *)

Definition swap_keys (a b : Z) (rk : list Z) : list Z :=
  swap_words (4 * a + 3) (4 * b + 3) (swap_words (4 * a + 2) (4 * b + 2)
    (swap_words (4 * a + 1) (4 * b + 1) (swap_words (4 * a + 0) (4 * b + 0) rk))).

Definition has_key (rk : list Z) (j : Z) : Prop := 0 <= j /\ 4 * (j + 1) <= Z.of_nat (List.length rk).

Definition swapped (a b m : Z) : Z := if decide (m = a) then b else if decide (m = b) then a else m.

(** Word [s] of two keys is exchanged: word [r] of key [m]. *)
Lemma aget_swap_at rk a b s m r : has_key rk a -> has_key rk b -> 0 <= m -> 0 <= s < 4 -> 0 <= r < 4 ->
  aget (swap_words (4 * a + s) (4 * b + s) rk) (4 * m + r)
  = aget rk (4 * (if decide (r = s) then swapped a b m else m) + r).
Proof.
  unfold has_key. intros Ha Hb Hm Hs Hr. rewrite aget_swap by (unfold in_range; lia).
  unfold swapped. repeat case_decide; subst; try lia; f_equal; lia.
Qed.

Lemma aget_swap_keys rk a b m r : has_key rk a -> has_key rk b -> 0 <= m -> 0 <= r < 4 ->
  aget (swap_keys a b rk) (4 * m + r) = aget rk (4 * swapped a b m + r).
Proof.
  intros Ha Hb Hm Hr.
  assert (Hsw : 0 <= swapped a b m) by (unfold swapped; destruct Ha, Hb; repeat case_decide; lia).
  unfold swap_keys. rewrite !aget_swap_at
    by (unfold has_key in *; rewrite ?length_swap; repeat case_decide; lia).
  f_equal. repeat case_decide; lia.
Qed.

Lemma key_at_swap rk a b m : has_key rk a -> has_key rk b -> 0 <= m ->
  key_at (swap_keys a b rk) m = key_at rk (swapped a b m).
Proof.
  intros Ha Hb Hm. unfold key_at. rewrite <- (Z.add_0_r (4 * m)), <- (Z.add_0_r (4 * swapped a b m)).
  rewrite <- !Z.add_assoc. by rewrite !aget_swap_keys by (assumption || lia).
Qed.

Lemma length_swap_keys a b rk : List.length (swap_keys a b rk) = List.length rk.
Proof. unfold swap_keys. by rewrite !length_swap. Qed.

Lemma reverse_keys_step fuel rk a b :
  reverse_keys (S fuel) rk (4 * a) (4 * b)
  = if a <? b then reverse_keys fuel (swap_keys a b rk) (4 * (a + 1)) (4 * (b - 1)) else rk.
Proof.
  cbn [reverse_keys]. cbv zeta. unfold swap_keys. rewrite !Z.add_0_r.
  replace (4 * a <? 4 * b) with (a <? b) by lia. 
  by replace (4 * a + 4) with (4 * (a + 1)) by lia; replace (4 * b - 4) with (4 * (b - 1)) by lia.
Qed.

Definition reflected (a b m : Z) : Z := if decide (a <= m <= b) then a + b - m else m.

Lemma reverse_keys_spec fuel rk a b :
  0 <= a -> has_key rk b -> b - a <= Z.of_nat fuel -> Forall word32 rk ->
  let rk' := reverse_keys fuel rk (4 * a) (4 * b) in
  List.length rk' = List.length rk /\ Forall word32 rk'
  /\ forall m, 0 <= m -> key_at rk' m = key_at rk (reflected a b m).
Proof.
  revert rk a b. induction fuel as [|fuel IH]; intros rk a b Ha Hb Hf Hw; cbv zeta.
  - split_and!; [done..|]. intros m Hm. f_equal. unfold reflected. case_decide; lia.
  - rewrite reverse_keys_step. destruct (Z.ltb_spec a b) as [Hab|Hab].
    2: { split_and!; [done..|]. intros m Hm. f_equal. unfold reflected. case_decide; lia. }
    assert (Ha' : has_key rk a) by (unfold has_key in *; lia).
    destruct (IH (swap_keys a b rk) (a + 1) (b - 1)) as (Hl & Hw' & Hk); [lia| |lia| |].
    { unfold has_key in *. rewrite length_swap_keys. lia. }
    { unfold swap_keys. auto using Forall_swap. }
    rewrite length_swap_keys in Hl. split_and!; [done..|]. intros m Hm.
    rewrite Hk, key_at_swap by (done || (unfold reflected; case_decide; lia)).
    f_equal. unfold reflected, swapped. repeat case_decide; lia.
Qed.

(** ** The inverse MixColumns of the round keys *)

Lemma Te4_low x : byte x -> Z.land (aget Te4 x) 0xff = sbox x.
Proof.
  intros Hx. destruct (Te4_spec x Hx) as (_ & _ & _ & ->). unfold pack. by rewrite !Z.shiftl_0_l.
Qed.

Lemma inv_mix_key_spec w : word32 w -> inv_mix_key w = inv_mix_word w.
Proof.
  intros Hw. unfold inv_mix_key. rewrite (b0_word w Hw). name_bytes.
  change (Z.land w 255) with (b3 w). rewrite !Te4_low by auto with hash.
  rewrite Td0_spec, Td1_spec, Td2_spec, Td3_spec, !inv_sbox_sbox by auto with hash.
  rewrite <- (pack_bytes_of w Hw) at 5. rewrite (pack_columns (b0 w) (b1 w)).
  unfold inv_mix_word. by rewrite !circulant_lxor.
Qed.

Definition mix_key_at (o : Z) (rk : list Z) : list Z :=
  let put i rk := aset rk (o + i) (inv_mix_key (aget rk (o + i))) in put 3 (put 2 (put 1 (put 0 rk))).

Lemma mix_key_at_spec rk j : has_key rk j -> Forall word32 rk ->
  List.length (mix_key_at (4 * j) rk) = List.length rk /\ Forall word32 (mix_key_at (4 * j) rk)
  /\ forall m, 0 <= m -> key_at (mix_key_at (4 * j) rk) m
       = if decide (m = j) then inv_mix_columns (key_at rk m) else key_at rk m.
Proof.
  intros [Hj Hl] Hw. unfold mix_key_at. cbv zeta.
  assert (Hmix : forall i, inv_mix_key (aget rk i) = inv_mix_word (aget rk i)).
  { intros i. by apply inv_mix_key_spec, aget_word. }
  rewrite !aget_aset_ne, !Hmix by lia. split_and!.
  - by rewrite !length_aset.
  - repeat (apply Forall_aset; [|apply circulant_word]). done.
  - intros m Hm. unfold key_at.
    rewrite !aget_aset_if by (unfold in_range; rewrite ?length_aset; lia).
    destruct (decide (m = j)) as [->|].
    + repeat first [rewrite decide_True by lia | rewrite decide_False by lia]. by rewrite Z.add_0_r.
    + repeat rewrite decide_False by lia. done.
Qed.

Lemma inv_mix_keys_spec n rk j :
  0 <= j -> 4 * (j + Z.of_nat n) <= Z.of_nat (List.length rk) -> Forall word32 rk ->
  Forall word32 (inv_mix_keys n rk (4 * j))
  /\ forall m, 0 <= m -> key_at (inv_mix_keys n rk (4 * j)) m
       = if decide (j <= m < j + Z.of_nat n) then inv_mix_columns (key_at rk m) else key_at rk m.
Proof.
  revert rk j. induction n as [|n IH]; intros rk j Hj Hl Hw.
  - split; [done|]. intros m Hm. by rewrite decide_False by lia.
  - change (inv_mix_keys (S n) rk (4 * j)) with (inv_mix_keys n (mix_key_at (4 * j) rk) (4 * j + 4)).
    replace (4 * j + 4) with (4 * (j + 1)) by lia.
    destruct (mix_key_at_spec rk j) as (Hl' & Hw' & Hk); [unfold has_key; lia|done|].
    destruct (IH (mix_key_at (4 * j) rk) (j + 1)) as [Hw2 Hk2]; [lia|lia|done|].
    split; [done|]. intros m Hm. rewrite Hk2, Hk by done. by repeat case_decide; try lia.
Qed.

(** ** Both schedules against FIPS-197 *)

Section Schedules.
Context (Nk : nat) (key : list Z).

Definition fips_key (j : Z) : quad :=
  let w i := fips_word Nk key (Z.to_nat (4 * j + i)) in Q (w 0) (w 1) (w 2) (w 3).

(** AES with this key on one block. *)
Definition fips_aes (Nr : Z) (s : quad) : quad :=
  fips_cipher (fips_key 0) (fips_key Nr) (map fips_key (seqZ 1 (Nr - 1))) s.

Lemma agree_keys len rk Nr j : 0 <= j <= Nr -> agree Nk key len rk (Z.to_nat (4 * (Nr + 1))) ->
  key_at rk j = fips_key j.
Proof.
  intros Hj (_ & _ & Ha). unfold key_at, fips_key. rewrite <- (Z.add_0_r (4 * j)) at 1.
  assert (E : forall i, 0 <= i < 4 -> aget rk (4 * j + i) = fips_word Nk key (Z.to_nat (4 * j + i))).
  { intros i Hi. rewrite <- Ha by lia. f_equal. lia. }
  f_equal; apply E; lia.
Qed.

Lemma rev_rounds Nr : rounds_ok Nr -> rev (seqZ 1 (Nr - 1)) = map (fun j => Nr - j) (seqZ 1 (Nr - 1)).
Proof. intros [-> | [-> | ->]]; reflexivity. Qed.

Context (keyBits Nr : Z) (Hsize : key_size keyBits Nk Nr) (Hkey : Forall byte key).
Context (rk : list Z) (Hrk : Forall word32 rk) (Hlen : 4 * (Nr + 1) <= Z.of_nat (List.length rk)).

Lemma encrypt_is_fips `{CC : CipherConfig} p : Forall byte p ->
  exists rk', rijndaelKeySetupEnc rk key keyBits = Some (rk', Nr)
    /\ rijndaelEncrypt rk' Nr p = Some (bytes_of (fips_aes Nr (block_of p))).
Proof using All.
  intros Hp. destruct (rijndaelKeySetupEnc_spec rk key Hkey Hrk keyBits Nk Nr) as (rk' & E & Ha); [done..|].
  destruct (key_size_rounds _ _ _ Hsize) as [HNr _].
  assert (0 <= Nr) by (unfold rounds_ok in HNr; lia).
  exists rk'. split; [done|]. rewrite rijndaelEncrypt_spec by (done || apply Ha). unfold fips_aes.
  rewrite !(agree_keys (List.length rk) rk' Nr) by (lia || done). do 3 f_equal. apply map_ext_in.
  intros j Hj. apply list_elem_of_In, elem_of_seqZ in Hj. apply (agree_keys (List.length rk) _ Nr); [lia|done].
Qed.

Lemma rijndaelKeySetupDec_spec :
  exists rk', rijndaelKeySetupDec rk key keyBits = Some (rk', Nr) /\ Forall word32 rk'
    /\ key_at rk' 0 = fips_key Nr /\ key_at rk' Nr = fips_key 0
    /\ map (key_at rk') (seqZ 1 (Nr - 1)) = map inv_mix_columns (rev (map fips_key (seqZ 1 (Nr - 1)))).
Proof using All.
  destruct (rijndaelKeySetupEnc_spec rk key Hkey Hrk keyBits Nk Nr) as (rk1 & E & Ha); [done..|].
  destruct (key_size_rounds _ _ _ Hsize) as [HNr _].
  assert (HNr' : 10 <= Nr) by (unfold rounds_ok in HNr; lia).
  pose proof Ha as (Hl & Hw & _).
  unfold rijndaelKeySetupDec. rewrite E. cbv zeta.
  destruct (reverse_keys_spec (Z.to_nat (4 * Nr)) rk1 0 Nr) as (Hl2 & Hw2 & Hk2);
    [lia|unfold has_key; lia|lia|done|]. change (4 * 0) with 0 in *.
  set (rk2 := reverse_keys _ _ _ _) in *.
  destruct (inv_mix_keys_spec (Z.to_nat (Nr - 1)) rk2 1) as [Hw3 Hk3]; [lia|lia|done|].
  change (4 * 1) with 4 in *.
  assert (Hfk : forall j, 0 <= j <= Nr -> key_at rk2 j = fips_key (Nr - j)).
  { intros j Hj. rewrite Hk2 by lia. unfold reflected. rewrite decide_True by lia.
    rewrite Z.add_0_l. apply (agree_keys (List.length rk) rk1 Nr); [lia|done]. }
  eexists. split_and!; [reflexivity|done|..].
  - rewrite Hk3, decide_False, Hfk by lia. f_equal. lia.
  - rewrite Hk3, decide_False, Hfk by lia. f_equal. lia.
  - rewrite <- map_rev, rev_rounds, !map_map by done. apply map_ext_in. intros j Hj.
    apply list_elem_of_In, elem_of_seqZ in Hj. by rewrite Hk3, decide_True, Hfk by lia.
Qed.

(** Decryption with the other schedule returns the block. *)
Lemma decrypt_encrypt `{CC : CipherConfig} p : block p ->
  exists ek dk c, rijndaelKeySetupEnc rk key keyBits = Some (ek, Nr)
    /\ rijndaelKeySetupDec rk key keyBits = Some (dk, Nr)
    /\ rijndaelEncrypt ek Nr p = Some c /\ block c /\ rijndaelDecrypt dk Nr c = Some p.
Proof using All.
  intros Hp. destruct (encrypt_is_fips p (proj2 Hp)) as (ek & E1 & E2).
  destruct rijndaelKeySetupDec_spec as (dk & E3 & Hw & K0 & KN & Km).
  destruct (key_size_rounds _ _ _ Hsize) as [HNr HNk].
  exists ek, dk, (bytes_of (fips_aes Nr (block_of p))).
  split_and!; [done..|apply bytes_of_block| ].
  assert (Hfk : forall j, wf (fips_key j)) by (intros j; split_and!; apply fips_word_word; (done || lia)).
  assert (Hwf : wf (fips_aes Nr (block_of p))).
  { unfold fips_aes, fips_cipher. apply wf_add; [apply wf_shift|done]. }
  rewrite rijndaelDecrypt_spec; [|done|done|apply bytes_of_block].
  rewrite block_of_bytes_of, K0, KN, Km by done. unfold fips_aes.
  rewrite fips_inverse; [by rewrite bytes_of_block_of|done| |apply wf_block_of, Hp].
  apply Forall_map, Forall_true. done.
Qed.
End Schedules.
