(* ===== verification/Aes.v ===== *)
(** * Encrypted values: aes.cc and encrypt.cc

    The key object with both schedules, and the encryption of a message in blocks of 16
    bytes with the length of the padding in every byte of it. The blocks are chained to
    nothing (each is ciphered on its own), as in the source. *)

From stdpp Require Import base list numbers.
From Stdlib Require Import ZArith Lia.
From S2P Require Import Prelude HashWords HashkitString RijndaelTables Rijndael RijndaelSpec RijndaelKeys.

Definition AES_KEY_LENGTH : Z := 256.
Definition AES_BLOCK_SIZE : Z := 16.
Definition AES_MAXNR : Z := 14.

Record _key_t := mkKey { nr : Z; rk : list Z }.
Record aes_key_t := mkAesKey { encode_key : _key_t; decode_key : _key_t }.

(** [for (; sptr < key_end; ptr++, sptr++)]: the characters go round and round the 32 bytes. *)
Fixpoint fold_key (rkey : list Z) (ptr : Z) (key : list Z) : list Z :=
  match key with
  | [] => rkey
  | c :: key' =>
    let ptr := if ptr =? AES_KEY_LENGTH / 8 then 0 else ptr in
    fold_key (aset rkey ptr (Z.lxor (aget rkey ptr) c)) (ptr + 1) key'
  end.

(** [calloc] leaves the schedules zero. *)
Definition zero_rk : list Z := replicate (Z.to_nat (4 * (AES_MAXNR + 1))) 0.

Definition sizeof_aes_key_t : Z := 2 * (4 + 4 * (4 * (AES_MAXNR + 1))).

Section Aes.
Context `{DM : DataModel} `{AL : Allocator} `{CC : CipherConfig}.

Definition aes_create_key (key : list Z) : ST nat (option aes_key_t) :=
  let* ok := calloc sizeof_aes_key_t in
  if negb ok then ret None else
  let rkey := fold_key (replicate (Z.to_nat (AES_KEY_LENGTH / 8)) 0) 0 key in
  match rijndaelKeySetupDec zero_rk rkey AES_KEY_LENGTH, rijndaelKeySetupEnc zero_rk rkey AES_KEY_LENGTH with
  | Some (dk, dn), Some (ek, en) => ret (Some (mkAesKey (mkKey en ek) (mkKey dn dk)))
  | _, _ => stuck OutOfFuel
  end.

Definition aes_clone_key (_aes_key : option aes_key_t) : ST nat (option aes_key_t) :=
  match _aes_key with
  | None => ret None
  | Some k => let* ok := calloc sizeof_aes_key_t in ret (if ok then Some k else None)
  end.

(** A cipher on the 16 bytes at [source], its result stored at offset [dest] of the string. *)
Definition cipher_to (cipher : list Z -> option (list Z)) (destination : hashkit_string_st)
    (source : list Z) (dest : Z) : outcome hashkit_string_st :=
  match cipher source with
  | None => Stuck OutOfFuel
  | Some out => poke destination dest out
  end.

(** The loop over complete blocks: the string, and where [source] and [dest] point then. *)
Fixpoint cipher_blocks (cipher : list Z -> option (list Z)) (x : nat) (destination : hashkit_string_st)
    (source : list Z) (dest : Z) : outcome (hashkit_string_st * list Z * Z) :=
  match x with
  | O => Ret (destination, source, dest)
  | S x' =>
    let? destination := cipher_to cipher destination source dest in
    cipher_blocks cipher x' destination (drop (Z.to_nat AES_BLOCK_SIZE) source) (dest + AES_BLOCK_SIZE)
  end.

Definition aes_encrypt (_aes_key : option aes_key_t) (source : list Z)
    : ST nat (option hashkit_string_st) :=
  match _aes_key with
  | None => ret None
  | Some key =>
    let source_length := Z.of_nat (length source) in
    let num_blocks := source_length / AES_BLOCK_SIZE in
    let* destination := hashkit_string_create source_length in
    match destination with
    | None => ret None
    | Some destination =>
      let cipher := rijndaelEncrypt (rk (encode_key key)) (nr (encode_key key)) in
      let* r := lift (cipher_blocks cipher (Z.to_nat num_blocks) destination source 0) in
      let '(destination, source, dest) := r in
      let pad_len := AES_BLOCK_SIZE - (source_length - AES_BLOCK_SIZE * num_blocks) in
      let block := take (Z.to_nat (16 - pad_len)) source ++ replicate (Z.to_nat pad_len) pad_len in
      let* destination := lift (cipher_to cipher destination block dest) in
      let* destination := hashkit_string_set_length destination (AES_BLOCK_SIZE * (num_blocks + 1)) in
      ret (Some destination)
    end
  end.

Definition aes_decrypt (_aes_key : option aes_key_t) (source : list Z)
    : ST nat (option hashkit_string_st) :=
  match _aes_key with
  | None => ret None
  | Some key =>
    let source_length := Z.of_nat (length source) in
    let num_blocks := source_length / AES_BLOCK_SIZE in
    if negb (source_length =? num_blocks * AES_BLOCK_SIZE) || (num_blocks =? 0) then ret None else
    let* destination := hashkit_string_create source_length in
    match destination with
    | None => ret None
    | Some destination =>
      let cipher := rijndaelDecrypt (rk (decode_key key)) (nr (decode_key key)) in
      let* r := lift (cipher_blocks cipher (Z.to_nat (num_blocks - 1)) destination source 0) in
      let '(destination, source, dest) := r in
      match cipher source with
      | None => stuck OutOfFuel
      | Some block =>
        let pad_len := aget block (AES_BLOCK_SIZE - 1) in
        if AES_BLOCK_SIZE <? pad_len then ret None else
        let* destination := lift (poke destination dest (take (Z.to_nat (AES_BLOCK_SIZE - pad_len)) block)) in
        let* destination := hashkit_string_set_length destination (AES_BLOCK_SIZE * num_blocks - pad_len) in
        ret (Some destination)
      end
    end
  end.
End Aes.

(** ** A computed example *)

Module Demo.
#[local] Instance plenty : Allocator := {| grants := fun _ size => size <=? 1000000; content := fun _ _ => 170 |}.
#[local] Instance looped : CipherConfig := {| FULL_UNROLL := false |}.

Definition there_and_back (key msg : list Z) : outcome (list Z * list Z) :=
  fst ((let* k := aes_create_key (AL := plenty) key in
        let* c := aes_encrypt (DM := LP64) k msg in
        match c with
        | None => stuck AssertionFailed
        | Some c =>
          let* p := aes_decrypt (DM := LP64) k (string_bytes c) in
          match p with None => stuck AssertionFailed | Some p => ret (string_bytes c, string_bytes p) end
        end) 0%nat).

Definition agrees (key msg : list Z) : bool :=
  match there_and_back key msg with
  | Ret (c, p) => bool_decide (p = msg) && (Z.of_nat (length c) =? 16 * (Z.of_nat (length msg) / 16 + 1))
  | _ => false
  end.

Example short_messages : forallb (fun n => agrees (seqZ 40 7) (seqZ 0 n)) [1; 15; 16; 17; 32; 40] = true.
Proof. vm_compute. reflexivity. Qed.

(** The empty message gets no buffer, and the padding block is stored through a null pointer. *)
Example empty_message : there_and_back (seqZ 40 7) [] = Stuck Undefined.
Proof. vm_compute. reflexivity. Qed.
End Demo.

(** * The encryption of messages is a padded block cipher, and is undone

    [aes_encrypt] stores the FIPS-197 ciphertext of the padded message, block by block,
    inside the buffer it asked for, and [aes_decrypt] of it gives the message back. *)

(** ** Specification *)

(** The block function on every 16 bytes in turn. *)
Fixpoint ecb (C : list Z -> list Z) (n : nat) (p : list Z) : list Z :=
  match n with O => [] | S n' => C (take 16 p) ++ ecb C n' (drop 16 p) end.

(** Between 1 and 16 bytes, each the number of them. *)
Definition padding (n : nat) : list Z := let p := (16 - n mod 16)%nat in replicate p (Z.of_nat p).
Definition pad (msg : list Z) : list Z := msg ++ padding (length msg).

Definition block_count (msg : list Z) : nat := (length msg / 16 + 1)%nat.

Lemma length_pad msg : length (pad msg) = (16 * block_count msg)%nat.
Proof.
  unfold pad, padding, block_count. rewrite length_app, length_replicate.
  pose proof (Nat.div_mod_eq (length msg) 16). pose proof (Nat.mod_upper_bound (length msg) 16). lia.
Qed.

Section Ecb.
Context (C : list Z -> list Z).

Lemma ecb_app n m p q : length p = (16 * n)%nat -> ecb C (n + m) (p ++ q) = ecb C n p ++ ecb C m q.
Proof using Type.
  revert p. induction n as [|n IH]; intros p Hp.
  - destruct p; [done|discriminate].
  - cbn [ecb Nat.add]. rewrite take_app_le, drop_app_le by lia.
    rewrite IH, app_assoc by (rewrite length_drop; lia). done.
Qed.

Lemma ecb_take n p : ecb C n (take (16 * n) p) = ecb C n p.
Proof using Type.
  revert p. induction n as [|n IH]; intros p; [done|]. cbn [ecb].
  rewrite take_take, Nat.min_l by lia. f_equal. rewrite skipn_firstn_comm.
  replace (16 * S n - 16)%nat with (16 * n)%nat by lia. apply IH.
Qed.

Context (HC : forall p, block p -> block (C p)).

Lemma block_take p n : Forall byte p -> (16 <= length p)%nat -> n = 16%nat -> block (take n p).
Proof using Type. intros Hp Hl ->. split; [rewrite length_take; lia|by apply Forall_take]. Qed.

Lemma ecb_bytes n p : Forall byte p -> (16 * n <= length p)%nat ->
  length (ecb C n p) = (16 * n)%nat /\ Forall byte (ecb C n p).
Proof using HC.
  revert p. induction n as [|n IH]; intros p Hp Hl; [done|]. cbn [ecb].
  destruct (HC (take 16 p)) as [Hl1 Hb1]; [apply block_take; done || lia|].
  destruct (IH (drop 16 p)) as [Hl2 Hb2]; [by apply Forall_drop|rewrite length_drop; lia|].
  rewrite length_app. split; [lia|by apply Forall_app_2].
Qed.

Lemma ecb_last n p : Forall byte p -> length p = (16 * S n)%nat ->
  drop (16 * n) (ecb C (S n) p) = C (drop (16 * n) p).
Proof using HC.
  intros Hp Hl. replace (S n) with (n + 1)%nat by lia. rewrite <- (take_drop (16 * n) p) at 1.
  rewrite ecb_app, ecb_take by (rewrite length_take; lia). cbn [ecb].
  rewrite drop_app_length', app_nil_r by (symmetry; apply ecb_bytes; done || lia).
  rewrite take_ge; [done|]. rewrite length_drop. lia.
Qed.
End Ecb.

Lemma ecb_inverse (C D : list Z -> list Z) n p :
  (forall p, block p -> block (C p)) -> (forall p, block p -> D (C p) = p) ->
  Forall byte p -> length p = (16 * n)%nat -> ecb D n (ecb C n p) = p.
Proof.
  intros HC HD. revert p. induction n as [|n IH]; intros p Hp Hl; [by destruct p|].
  cbn [ecb]. assert (Hb : block (take 16 p)) by (apply block_take; done || lia).
  destruct (HC _ Hb) as [Hl1 Hb1].
  rewrite take_app_length', drop_app_length' by done. rewrite HD by done.
  rewrite IH, take_drop; [done|by apply Forall_drop|rewrite length_drop; lia].
Qed.

(** ** The loops of aes.cc *)

Section Blocks.
Context `{DM : DataModel} (cipher : list Z -> option (list Z)) (C : list Z -> list Z).
Context (Hcipher : forall p, Forall byte p -> (16 <= length p)%nat -> cipher p = Some (C (take 16 p))).
Context (HC : forall p, block p -> block (C p)).

Definition buffer (self : hashkit_string_st) : list Z := from_option id [] (string self).

(** The string after stores that leave [end] and the size. *)
Definition stored (self self' : hashkit_string_st) : Prop :=
  string_ok self' /\ string_end self' = string_end self /\ current_size self' = current_size self.

Lemma cipher_to_spec dst src dest :
  string_ok dst -> Forall byte src -> (16 <= length src)%nat -> 0 <= dest -> dest + 16 <= current_size dst ->
  exists dst', cipher_to cipher dst src dest = Ret dst' /\ stored dst dst'
    /\ take (Z.to_nat (dest + 16)) (buffer dst') = take (Z.to_nat dest) (buffer dst) ++ C (take 16 src).
Proof using All.
  intros Hok Hs Hl Hd Hfit. unfold cipher_to. rewrite Hcipher by done.
  destruct (HC (take 16 src)) as [Hlen Hb]; [by apply block_take|].
  destruct (poke_spec dst dest (C (take 16 src))) as (buf & Hp & Hok' & Ht); [done..|lia|lia|].
  eexists. split; [exact Hp|]. split; [done|]. unfold buffer. cbn.
  rewrite <- Ht, Hlen. f_equal. lia.
Qed.

Lemma cipher_blocks_spec x dst src dest :
  string_ok dst -> Forall byte src -> (16 * x <= length src)%nat -> 0 <= dest ->
  dest + 16 * Z.of_nat x <= current_size dst ->
  exists dst', cipher_blocks cipher x dst src dest
      = Ret (dst', drop (16 * x) src, dest + 16 * Z.of_nat x)
    /\ stored dst dst'
    /\ take (Z.to_nat (dest + 16 * Z.of_nat x)) (buffer dst')
       = take (Z.to_nat dest) (buffer dst) ++ ecb C x src.
Proof using All.
  revert dst src dest. induction x as [|x IH]; intros dst src dest Hok Hs Hl Hd Hfit.
  - exists dst. cbn [cipher_blocks ecb]. rewrite app_nil_r, Z.add_0_r. done.
  - cbn [cipher_blocks ecb]. unfold obind.
    destruct (cipher_to_spec dst src dest) as (dst1 & -> & (Hok1 & He1 & Hc1) & Ht1); [done|done|lia..|].
    unfold AES_BLOCK_SIZE. change (Z.to_nat 16) with 16%nat.
    destruct (IH dst1 (drop 16 src) (dest + 16)) as (dst2 & -> & (Hok2 & He2 & Hc2) & Ht2);
      [done|by apply Forall_drop|rewrite length_drop; lia|lia|lia|].
    exists dst2. rewrite drop_drop. split_and!.
    + do 2 f_equal; [f_equal; f_equal; lia|lia].
    + by split_and!; [|rewrite He2|rewrite Hc2].
    + rewrite app_assoc, <- Ht1, <- Ht2. f_equal. lia.
Qed.
End Blocks.

(** ** The key object *)

Lemma block_of_take p : block_of (take 16 p) = block_of p.
Proof.
  assert (E : forall o, 0 <= o < 16 -> aget (take 16 p) o = aget p o).
  { intros o Ho. unfold aget. by rewrite lookup_total_take, decide_True by lia. }
  unfold block_of, GETU32. by rewrite !E by lia.
Qed.

Lemma fold_key_bytes key rkey ptr : Forall byte key -> Forall byte rkey -> Forall byte (fold_key rkey ptr key).
Proof.
  intros Hk. revert rkey ptr. induction Hk as [|c key Hc Hk IH]; intros rkey ptr Hr; [done|].
  cbn [fold_key]. apply IH, Forall_aset; [done|]. apply byte_lxor; [by apply aget_byte|done].
Qed.

(** The 32 bytes a key of any length is folded to. *)
Definition folded (key : list Z) : list Z := fold_key (replicate 32 0) 0 key.

Lemma folded_bytes key : Forall byte key -> Forall byte (folded key).
Proof. intros H. apply fold_key_bytes; [done|]. by apply Forall_replicate. Qed.

(** AES-256 on 16 bytes, with the folded key. *)
Definition aes256 (key p : list Z) : list Z := bytes_of (fips_aes 8 (folded key) 14 (block_of p)).

Lemma aes256_block key p : block (aes256 key p).
Proof. apply bytes_of_block. Qed.

Section Keyed.
Context `{CC : CipherConfig}.

(** What a key object made from [key] computes: AES-256, and a function that undoes it. *)
Record keyed (key : list Z) (ko : aes_key_t) (D : list Z -> list Z) : Prop := {
  keyed_enc : forall p, Forall byte p -> (16 <= length p)%nat ->
    rijndaelEncrypt (rk (encode_key ko)) (nr (encode_key ko)) p = Some (aes256 key (take 16 p));
  keyed_dec : forall p, Forall byte p -> (16 <= length p)%nat ->
    rijndaelDecrypt (rk (decode_key ko)) (nr (decode_key ko)) p = Some (D (take 16 p));
  keyed_block : forall p, block p -> block (D p);
  keyed_inverse : forall p, block p -> D (aes256 key p) = p;
}.

Lemma create_key_spec `{AL : Allocator} key k : Forall byte key ->
  exists ko D, keyed key ko D
    /\ aes_create_key key k = (Ret (if grants k sizeof_aes_key_t then Some ko else None), S k).
Proof.
  intros Hk. pose proof (folded_bytes key Hk) as Hf.
  assert (Hsize : key_size 256 8 14) by (unfold key_size; rewrite !elem_of_cons; tauto).
  assert (Hz : Forall word32 zero_rk) by (by apply Forall_replicate).
  assert (Hlen : 4 * (14 + 1) <= Z.of_nat (length zero_rk)) by (by vm_compute).
  destruct (rijndaelKeySetupDec_spec 8 (folded key) 256 14 Hsize Hf zero_rk Hz Hlen)
    as (dk & Ed & Hw & _).
  set (D := fun p => bytes_of (fips_eq_inv_cipher (key_at dk 0) (key_at dk 14)
    (map (key_at dk) (seqZ 1 13)) (block_of p))).
  assert (HD : forall p, Forall byte p -> rijndaelDecrypt dk 14 p = Some (D p)).
  { intros p Hp. apply rijndaelDecrypt_spec; [done|unfold rounds_ok; lia|done]. }
  destruct (encrypt_is_fips 8 (folded key) 256 14 Hsize Hf zero_rk Hz Hlen [] ltac:(done)) as (ek & Ee & _).
  exists (mkAesKey (mkKey 14 ek) (mkKey 14 dk)), D. split.
  - split; cbn [encode_key decode_key nr rk].
    + intros p Hp _. destruct (encrypt_is_fips 8 (folded key) 256 14 Hsize Hf zero_rk Hz Hlen p Hp) as (ek' & E1 & E2).
      rewrite Ee in E1. injection E1 as <-. unfold aes256. by rewrite block_of_take.
    + intros p Hp _. rewrite HD by done. unfold D. by rewrite block_of_take.
    + intros p _. apply bytes_of_block.
    + intros p Hp. destruct (decrypt_encrypt 8 (folded key) 256 14 Hsize Hf zero_rk Hz Hlen p Hp)
        as (ek' & dk' & c & E1 & E2 & E3 & Hc & E4).
      destruct (encrypt_is_fips 8 (folded key) 256 14 Hsize Hf zero_rk Hz Hlen p (proj2 Hp)) as (ek2 & E5 & E6).
      rewrite E1 in E5. injection E5 as <-. rewrite E3 in E6. injection E6 as ->.
      rewrite Ed in E2. injection E2 as <-. rewrite HD in E4 by apply Hc. injection E4. done.
  - unfold aes_create_key, bind, calloc. destruct (grants _ _); [|done]. cbn [negb].
    change (fold_key (replicate (Z.to_nat (AES_KEY_LENGTH / 8)) 0) 0 key) with (folded key).
    change AES_KEY_LENGTH with 256. by rewrite Ed, Ee.
Qed.
End Keyed.

(** ** Messages *)

Lemma ecb_pad (C : list Z -> list Z) msg :
  let nb := (length msg / 16)%nat in
  ecb C (block_count msg) (pad msg)
  = ecb C nb msg ++ C (drop (16 * nb) msg ++ padding (length msg)).
Proof.
  cbv zeta. set (nb := (length msg / 16)%nat).
  assert (Hnb : (16 * nb + length msg mod 16 = length msg)%nat)
    by (pose proof (Nat.div_mod_eq (length msg) 16); unfold nb; lia).
  pose proof (Nat.mod_upper_bound (length msg) 16).
  unfold block_count, pad. fold nb.
  rewrite <- (take_drop (16 * nb)%nat msg) at 1. rewrite <- app_assoc, ecb_app by (rewrite length_take; lia).
  rewrite ecb_take. cbn [ecb]. rewrite take_ge, app_nil_r; [done|].
  unfold padding. rewrite length_app, length_drop, length_replicate. lia.
Qed.

(** The last byte of a padded message is the length of the padding. *)
Lemma pad_last msg : aget (drop (16 * (length msg / 16)) (pad msg)) 15 = 16 - Z.of_nat (length msg mod 16).
Proof.
  pose proof (Nat.div_mod_eq (length msg) 16). pose proof (Nat.mod_upper_bound (length msg) 16).
  unfold pad, padding, aget. rewrite drop_app_le by lia.
  rewrite lookup_total_app_r by (rewrite length_drop; lia).
  rewrite length_drop, lookup_total_replicate_2 by lia. lia.
Qed.

Lemma pad_take msg : take (length msg) (pad msg) = msg.
Proof. unfold pad. by rewrite take_app_length. Qed.

Lemma pad_bytes msg : Forall byte msg -> Forall byte (pad msg).
Proof.
  intros H. apply Forall_app_2; [done|]. apply Forall_replicate. unfold byte.
  pose proof (Nat.mod_upper_bound (length msg) 16). lia.
Qed.

(** What [create] answers decides whether the caller sees a string with property [P]. *)
Definition after_create `{DM : DataModel} `{AL : Allocator} (size : Z) (k : nat)
    (res : outcome (option hashkit_string_st) * nat) (P : hashkit_string_st -> Prop) : Prop :=
  match hashkit_string_create size k with
  | (Ret None, k') => res = (Ret None, k')
  | (Ret (Some _), k') => exists s, res = (Ret (Some s), k') /\ string_ok s /\ P s
  | _ => False
  end.

Section Messages.
Context `{DM : DataModel} `{AL : Allocator} `{BA : !BoundedAllocator AL} `{CC : CipherConfig}.
Context (key : list Z) (ko : aes_key_t) (D : list Z -> list Z) (Hko : keyed key ko D).

Lemma encrypt_spec msg k : Forall byte msg -> msg <> [] -> Z.of_nat (length msg) < ULONG_MOD ->
  after_create (Z.of_nat (length msg)) k (aes_encrypt (Some ko) msg k)
    (fun s => string_bytes s = ecb (aes256 key) (block_count msg) (pad msg)).
Proof using All.
  intros Hm Hne Hl. unfold after_create, aes_encrypt. cbv zeta.
  assert (Hl' : 0 <= Z.of_nat (length msg) < ULONG_MOD) by lia.
  destruct (create_spec (Z.of_nat (length msg)) k Hl') as (r & k' & E & Hr).
  rewrite E. run E. destruct r as [dst|]; [|done]. destruct Hr as (Hok & He & Hc).
  assert (Hpos : (0 < length msg)%nat) by (destruct msg; [done|cbn; lia]).
  specialize (Hc ltac:(lia)). unfold HASHKIT_BLOCK_SIZE in Hc.
  set (nb := (length msg / 16)%nat).
  assert (Hnb : (16 * nb + length msg mod 16 = length msg)%nat)
    by (pose proof (Nat.div_mod_eq (length msg) 16); unfold nb; lia).
  pose proof (Nat.mod_upper_bound (length msg) 16) as Hmod.
  assert (Ez : Z.of_nat (length msg) / AES_BLOCK_SIZE = Z.of_nat nb)
    by (unfold nb, AES_BLOCK_SIZE; by rewrite Nat2Z.inj_div).
  rewrite Ez, Nat2Z.id. unfold AES_BLOCK_SIZE.
  assert (Hfit : 16 * (Z.of_nat nb + 1) <= current_size dst).
  { pose proof (Z.div_mod (Z.of_nat (length msg)) 1024). pose proof (Z.mod_pos_bound (Z.of_nat (length msg)) 1024).
    clearbody nb. lia. }
  destruct (cipher_blocks_spec _ _ (keyed_enc _ _ _ Hko) (fun p _ => aes256_block key p) nb dst msg 0)
    as (dst1 & E1 & (Hok1 & He1 & Hc1) & Ht1); [done..|lia|lia|lia|].
  rewrite Z.add_0_l in *. unfold bind, lift. rewrite E1.
  set (plen := (16 - length msg mod 16)%nat).
  replace (16 - (Z.of_nat (length msg) - 16 * Z.of_nat nb)) with (Z.of_nat plen) by lia.
  set (blk := _ ++ _).
  assert (Eblk : blk = drop (16 * nb) msg ++ padding (length msg)).
  { unfold blk, padding. fold plen. rewrite Nat2Z.id, take_ge; [done|]. rewrite length_drop. lia. }
  assert (Hblk : block blk).
  { rewrite Eblk. split.
    - unfold padding. rewrite length_app, length_drop, length_replicate. lia.
    - apply Forall_app_2; [by apply Forall_drop|]. by apply (Forall_app byte msg), pad_bytes. }
  destruct (cipher_to_spec _ _ (keyed_enc _ _ _ Hko) (fun p _ => aes256_block key p) dst1 blk (16 * Z.of_nat nb))
    as (dst2 & E2 & (Hok2 & He2 & Hc2) & Ht2); [done|apply Hblk|rewrite (proj1 Hblk); lia|lia|lia|].
  rewrite E2. destruct (set_length_spec dst2 (16 * (Z.of_nat nb + 1)) k') as (s & -> & Hs & Hb); [done|lia|lia|].
  exists s. split_and!; [done..|]. rewrite Hb. fold (buffer dst2).
  replace (16 * (Z.of_nat nb + 1)) with (16 * Z.of_nat nb + 16) by lia.
  rewrite Ht2, Ht1, ecb_pad. cbv zeta. fold nb. rewrite <- Eblk. cbn [app Z.to_nat take]. f_equal. rewrite take_ge; [done|].
  rewrite (proj1 Hblk). lia.
Qed.

(** The buffer of an empty value is a null pointer. *)
Lemma encrypt_empty k : grants k (3 * sizeof_ulong) = true ->
  aes_encrypt (Some ko) [] k = (Stuck Undefined, S k).
Proof using Hko.
  intros Hg. assert (E : hashkit_string_create 0 k = (Ret (Some _init_string), S k)).
  { unfold hashkit_string_create, bind, calloc. by rewrite Hg. }
  unfold aes_encrypt. cbv zeta. change (Z.of_nat (length [])) with 0. run E.
  change (Z.to_nat (0 / AES_BLOCK_SIZE)) with 0%nat. cbn [cipher_blocks]. unfold bind at 1, lift at 1.
  unfold bind, lift, cipher_to.
  set (blk := _ ++ _). assert (Eb : blk = replicate 16 16) by (vm_compute; reflexivity). clearbody blk. subst blk.
  rewrite (keyed_enc _ _ _ Hko); [|by apply Forall_replicate|done].
  destruct (aes256_block key (take 16 (replicate 16 16))) as [Hl _].
  destruct (aes256 key _); [discriminate Hl|reflexivity].
Qed.

(** The last byte of the deciphered text is the length of the padding; above 16 the text is
    refused. *)
Lemma decrypt_spec text n k :
  Forall byte text -> length text = (16 * S n)%nat -> Z.of_nat (length text) < ULONG_MOD ->
  aget (D (drop (16 * n) text)) 15 <= 16 ->
  after_create (Z.of_nat (length text)) k (aes_decrypt (Some ko) text k)
    (fun s => string_bytes s
       = take (16 * S n - Z.to_nat (aget (D (drop (16 * n) text)) 15)) (ecb D (S n) text)).
Proof using All.
  intros Hm Hlen Hl Hpad. unfold after_create, aes_decrypt. cbv zeta.
  assert (Hl' : 0 <= Z.of_nat (length text) < ULONG_MOD) by lia.
  assert (Ez : Z.of_nat (length text) / AES_BLOCK_SIZE = Z.of_nat n + 1)
    by (unfold AES_BLOCK_SIZE; Z.to_euclidean_division_equations; lia).
  rewrite Ez. unfold AES_BLOCK_SIZE.
  rewrite (proj2 (Z.eqb_eq (Z.of_nat (length text)) _)), (proj2 (Z.eqb_neq (Z.of_nat n + 1) 0)) by lia.
  cbn [negb orb]. destruct (create_spec (Z.of_nat (length text)) k Hl') as (r & k' & E & Hr).
  rewrite E. run E. destruct r as [dst|]; [|done]. destruct Hr as (Hok & He & Hc).
  specialize (Hc ltac:(lia)). unfold HASHKIT_BLOCK_SIZE in Hc.
  assert (Hfit : 16 * (Z.of_nat n + 1) <= current_size dst).
  { pose proof (Z.div_mod (Z.of_nat (length text)) 1024).
    pose proof (Z.mod_pos_bound (Z.of_nat (length text)) 1024). lia. }
  destruct (cipher_blocks_spec _ _ (keyed_dec _ _ _ Hko) (keyed_block _ _ _ Hko) n dst text 0)
    as (dst1 & E1 & (Hok1 & He1 & Hc1) & Ht1); [done..|lia|lia|lia|].
  replace (Z.to_nat (Z.of_nat n + 1 - 1)) with n by lia.
  rewrite Z.add_0_l in *. unfold bind, lift. rewrite E1.
  assert (Hlast : block (drop (16 * n) text)) by (split; [rewrite length_drop; lia|by apply Forall_drop]).
  rewrite (keyed_dec _ _ _ Hko) by (apply Hlast || (rewrite (proj1 Hlast); lia)).
  rewrite take_ge by (rewrite (proj1 Hlast); lia).
  destruct (keyed_block _ _ _ Hko _ Hlast) as [HDl HDb].
  set (blk := D (drop (16 * n) text)) in *.
  pose proof (aget_byte blk (16 - 1) HDb) as Hpb. change (16 - 1) with 15 in *. set (plen := aget blk 15) in *.
  unfold byte in Hpb. rewrite (proj2 (Z.ltb_ge 16 plen)) by lia.
  destruct (poke_spec dst1 (16 * Z.of_nat n) (take (Z.to_nat (16 - plen)) blk)) as (buf & -> & Hok2 & Ht2);
    [done|by apply Forall_take|lia|rewrite length_take; lia|lia|].
  destruct (set_length_spec _ (16 * (Z.of_nat n + 1) - plen) k' Hok2) as (s & -> & Hs & Hb); [cbn; lia..|].
  exists s. split_and!; [done..|]. rewrite Hb. cbn [from_option string id].
  rewrite length_take in Ht2. fold (buffer dst1) in Ht2.
  replace (Z.to_nat (16 * (Z.of_nat n + 1) - plen))
    with (Z.to_nat (16 * Z.of_nat n) + Z.to_nat (16 - plen) `min` length blk)%nat by lia.
  rewrite Ht2, Ht1. cbn [app Z.to_nat take].
  replace (S n) with (n + 1)%nat by lia. rewrite <- (take_drop (16 * n) text) at 2.
  rewrite ecb_app, ecb_take by (rewrite length_take; lia). cbn [ecb].
  rewrite (take_ge (drop _ _)) by (rewrite (proj1 Hlast); lia). fold blk. rewrite app_nil_r.
  destruct (ecb_bytes D (keyed_block _ _ _ Hko) n text Hm ltac:(lia)) as [Hel _].
  rewrite take_app_ge by lia. do 2 f_equal. lia.
Qed.
End Messages.

(** ** There and back *)

(** Every request below the bound of malloc(3) is granted. *)
Definition generous `{DM : DataModel} `{AL : Allocator} : Prop :=
  forall k size, 2 * size < ULONG_MOD -> grants k size = true.

Section Generous.
Context `{DM : DataModel} `{AL : Allocator} `{BA : !BoundedAllocator AL}.
Context (Hgen : generous).

Lemma create_succeeds size k : 0 <= size -> 2 * (size + 1024) < ULONG_MOD ->
  exists s k', hashkit_string_create size k = (Ret (Some s), k').
Proof using All.
  intros H0 Hs. unfold hashkit_string_create, bind, calloc, _string_check. pose proof ULONG_MOD_ge.
  unfold UINT_MOD in *.
  assert (sizeof_ulong <= 8) by (unfold sizeof_ulong; by destruct long_bits_cases as [-> | ->]).
  rewrite Hgen by lia. cbn [negb].
  destruct (negb (size =? 0) && _) eqn:Hb; [|by eexists _, _].
  cbn [_init_string current_size string_end] in *.
  destruct (grow_size _init_string size init_ok) as [Ea Es]; [cbn; lia|]. cbv zeta in Ea, Es.
  cbn [_init_string current_size string_end] in Ea, Es. change (0 - 0) with 0 in *.
  rewrite !(ulong_small 0) by lia. rewrite Ea.
  assert (Hd : size < (( size - 0) / HASHKIT_BLOCK_SIZE + 1) * HASHKIT_BLOCK_SIZE <= size + 1024)
    by (unfold HASHKIT_BLOCK_SIZE; Z.to_euclidean_division_equations; lia).
  rewrite ulong_small by lia. rewrite (proj2 (Z.ltb_ge _ _)) by lia.
  unfold bind, realloc. rewrite Hgen by lia. by eexists _, _.
Qed.

(** [encrypt] then [decrypt] with one key object. *)
Lemma round_trip `{CC : CipherConfig} key ko D msg k :
  keyed key ko D -> Forall byte msg -> msg <> [] -> 2 * (Z.of_nat (length msg) + 2048) < ULONG_MOD ->
  exists c k1, aes_encrypt (Some ko) msg k = (Ret (Some c), k1)
    /\ string_ok c /\ string_bytes c = ecb (aes256 key) (block_count msg) (pad msg)
    /\ forall k2, exists m k3, aes_decrypt (Some ko) (string_bytes c) k2 = (Ret (Some m), k3)
         /\ string_ok m /\ string_bytes m = msg.
Proof using All.
  intros Hko Hm Hne Hl. assert (Hl1 : Z.of_nat (length msg) < ULONG_MOD) by lia.
  pose proof (encrypt_spec key ko D Hko msg k Hm Hne Hl1) as He. unfold after_create in He.
  destruct (create_succeeds (Z.of_nat (length msg)) k) as (s0 & k1 & E0); [lia|lia|].
  rewrite E0 in He. destruct He as (c & E1 & Hc & Hcb). exists c, k1. split_and!; [done..|]. intros k2.
  pose proof (length_pad msg) as Hpl. pose proof (pad_bytes msg Hm) as Hpb.
  pose proof (pad_last msg) as Hlastb. unfold block_count in *. set (n := (length msg / 16)%nat) in *.
  pose proof (Nat.div_mod_eq (length msg) 16) as Hdm. fold n in Hdm.
  pose proof (Nat.mod_upper_bound (length msg) 16) as Hmu.
  replace (n + 1)%nat with (S n) in * by lia.
  destruct (ecb_bytes (aes256 key) (fun p _ => aes256_block key p) (S n) (pad msg) Hpb ltac:(lia)) as [Hel Heb].
  rewrite <- Hcb in Hel, Heb.
  assert (Hdec : ecb D (S n) (string_bytes c) = pad msg).
  { rewrite Hcb. apply ecb_inverse; [intros; apply aes256_block|apply Hko|done|done]. }
  assert (Hblk : D (drop (16 * n) (string_bytes c)) = drop (16 * n) (pad msg)).
  { rewrite <- Hdec. symmetry. apply ecb_last; [apply Hko|done|done]. }
  pose proof (decrypt_spec key ko D Hko (string_bytes c) n k2 Heb Hel) as Hd.
  rewrite Hblk, Hlastb, Hdec in Hd. specialize (Hd ltac:(lia) ltac:(lia)). unfold after_create in Hd.
  destruct (create_succeeds (Z.of_nat (length (string_bytes c))) k2) as (s1 & k3 & E2); [lia|lia|].
  rewrite E2 in Hd. destruct Hd as (m & E3 & Hm2 & Hmb). exists m, k3. split_and!; [done..|].
  rewrite Hmb. etransitivity; [|apply pad_take]. f_equal. lia.
Qed.
End Generous.
