(* ===== verification/HashKit.v ===== *)
(** * The front end of libhashkit

    The algorithms by name (types.h), which of them the build has (has.cc), the direct call
    (digest.cc and the wrappers of algorithm.cc) and the configured object [hashkit_st]
    (hashkit.cc, function.cc) whose function pointers are set, read back and called, and
    whose key encrypts and decrypts (encrypt.cc). A function pointer is a constructor; the
    functions a client brings along and the stack content that md5.cc reads are arguments. *)

From stdpp Require Import base list strings.
From Stdlib Require Import ZArith Lia Ascii.
From S2P Require Import Prelude CxxString HashWords HashMd5 HashSmall HashkitString Rijndael Aes.

Inductive hashkit_hash_algorithm_t :=
  | HASHKIT_HASH_DEFAULT
  | HASHKIT_HASH_MD5
  | HASHKIT_HASH_CRC
  | HASHKIT_HASH_FNV1_64
  | HASHKIT_HASH_FNV1A_64
  | HASHKIT_HASH_FNV1_32
  | HASHKIT_HASH_FNV1A_32
  | HASHKIT_HASH_HSIEH
  | HASHKIT_HASH_MURMUR
  | HASHKIT_HASH_JENKINS
  | HASHKIT_HASH_MURMUR3
  | HASHKIT_HASH_CUSTOM
  | HASHKIT_HASH_MAX.

#[export] Instance algorithm_eq_dec : EqDecision hashkit_hash_algorithm_t.
Proof. solve_decision. Defined.

Inductive hashkit_return_t :=
  | HASHKIT_SUCCESS
  | HASHKIT_FAILURE
  | HASHKIT_MEMORY_ALLOCATION_FAILURE
  | HASHKIT_INVALID_HASH
  | HASHKIT_INVALID_ARGUMENT
  | HASHKIT_MAXIMUM_RETURN.

(** A function pointer: one of the library's, or a client's by its address. *)
Inductive hashkit_hash_fn :=
  | hashkit_one_at_a_time
  | hashkit_md5
  | hashkit_crc32
  | hashkit_fnv1_64
  | hashkit_fnv1a_64
  | hashkit_fnv1_32
  | hashkit_fnv1a_32
  | hashkit_hsieh
  | hashkit_murmur
  | hashkit_murmur3
  | hashkit_jenkins
  | client_function (address : Z).

#[export] Instance fn_eq_dec : EqDecision hashkit_hash_fn.
Proof. solve_decision. Defined.

(** [void *context] is an address; 0 is [NULL]. *)
Record hashkit_function_st := mkFunction { function : hashkit_hash_fn; context : Z }.

Record hashkit_st := mkHashkit {
  base_hash : hashkit_function_st;
  distribution_hash : hashkit_function_st;
  is_base_same_distributed : bool;
  is_allocated : bool;
  _key : option aes_key_t;
}.

Definition with_base_hash (h : hashkit_st) (f : hashkit_function_st) : hashkit_st :=
  mkHashkit f (distribution_hash h) (is_base_same_distributed h) (is_allocated h) (_key h).
Definition with_distribution_hash (h : hashkit_st) (f : hashkit_function_st) : hashkit_st :=
  mkHashkit (base_hash h) f (is_base_same_distributed h) (is_allocated h) (_key h).
Definition with_key (h : hashkit_st) (k : option aes_key_t) : hashkit_st :=
  mkHashkit (base_hash h) (distribution_hash h) (is_base_same_distributed h) (is_allocated h) k.

Section HashKit.
Context `{DM : DataModel} `{HC : HashConfig}.
(** The uninitialised buffer of the MD5 context, and the client's functions. *)
Context (garbage : list Z) (client : Z -> KeyPtr -> Z -> outcome Z).

(** ** has.cc *)

Definition libhashkit_has_algorithm (algo : hashkit_hash_algorithm_t) : bool :=
  match algo with
  | HASHKIT_HASH_FNV1_64 | HASHKIT_HASH_FNV1A_64 => Fnv.fnv64_enabled
  | HASHKIT_HASH_HSIEH => HAVE_HSIEH_HASH
  | HASHKIT_HASH_MURMUR3 | HASHKIT_HASH_MURMUR => HAVE_MURMUR_HASH
  | HASHKIT_HASH_FNV1_32 | HASHKIT_HASH_FNV1A_32 | HASHKIT_HASH_DEFAULT | HASHKIT_HASH_MD5
  | HASHKIT_HASH_CRC | HASHKIT_HASH_JENKINS | HASHKIT_HASH_CUSTOM => true
  | HASHKIT_HASH_MAX => false
  end.

(** ** The call through a pointer *)

Definition jenkins_outcome (k : KeyPtr) : outcome Z :=
  match Jenkins.hashkit_jenkins k with Some v => Ret v | None => Stuck OutOfFuel end.

Definition call (f : hashkit_hash_fn) (k : KeyPtr) (ctx : Z) : outcome Z :=
  let key := key_bytes k in
  match f with
  | hashkit_one_at_a_time => Ret (OneAtATime.hashkit_one_at_a_time key)
  | hashkit_md5 => Md5.hashkit_md5 garbage key
  | hashkit_crc32 => Ret (Crc32.hashkit_crc32 key)
  | hashkit_fnv1_64 => Ret (Fnv.hashkit_fnv1_64 key)
  | hashkit_fnv1a_64 => Ret (Fnv.hashkit_fnv1a_64 key)
  | hashkit_fnv1_32 => Ret (Fnv.hashkit_fnv1_32 key)
  | hashkit_fnv1a_32 => Ret (Fnv.hashkit_fnv1a_32 key)
  | hashkit_hsieh => Ret (Hsieh.hashkit_hsieh key)
  | hashkit_murmur => Ret (Murmur.hashkit_murmur key)
  | hashkit_murmur3 => Murmur3.hashkit_murmur3 key
  | hashkit_jenkins => jenkins_outcome k
  | client_function a => client a k ctx
  end.

(** ** digest.cc and algorithm.cc *)

Definition hashkit_digest (self : hashkit_st) (k : KeyPtr) : outcome Z :=
  call (function (base_hash self)) k (context (base_hash self)).

(** The wrappers of algorithm.cc pass a null context. *)
Definition libhashkit (f : hashkit_hash_fn) (k : KeyPtr) : outcome Z := call f k 0.

(** With DEBUG off, the cases without a function return 1. *)
Definition libhashkit_digest (k : KeyPtr) (algo : hashkit_hash_algorithm_t) : outcome Z :=
  match algo with
  | HASHKIT_HASH_DEFAULT => libhashkit hashkit_one_at_a_time k
  | HASHKIT_HASH_MD5 => libhashkit hashkit_md5 k
  | HASHKIT_HASH_CRC => libhashkit hashkit_crc32 k
  | HASHKIT_HASH_FNV1_64 => libhashkit hashkit_fnv1_64 k
  | HASHKIT_HASH_FNV1A_64 => libhashkit hashkit_fnv1a_64 k
  | HASHKIT_HASH_FNV1_32 => libhashkit hashkit_fnv1_32 k
  | HASHKIT_HASH_FNV1A_32 => libhashkit hashkit_fnv1a_32 k
  | HASHKIT_HASH_HSIEH => if HAVE_HSIEH_HASH then libhashkit hashkit_hsieh k else Ret 1
  | HASHKIT_HASH_MURMUR3 => libhashkit hashkit_murmur3 k
  | HASHKIT_HASH_MURMUR => if HAVE_MURMUR_HASH then libhashkit hashkit_murmur k else Ret 1
  | HASHKIT_HASH_JENKINS => libhashkit hashkit_jenkins k
  | HASHKIT_HASH_CUSTOM | HASHKIT_HASH_MAX => Ret 1
  end.

(** ** function.cc *)

(** The result, and the object; [self] is not null. A [break] clears the context. *)
Definition _set_function (self : hashkit_function_st) (algo : hashkit_hash_algorithm_t)
    : hashkit_return_t * hashkit_function_st :=
  let ok f := (HASHKIT_SUCCESS, mkFunction f 0) in
  let guarded a f :=
    if libhashkit_has_algorithm a then ok f else (HASHKIT_INVALID_ARGUMENT, self) in
  match algo with
  | HASHKIT_HASH_MD5 => ok hashkit_md5
  | HASHKIT_HASH_CRC => ok hashkit_crc32
  | HASHKIT_HASH_FNV1_64 => guarded HASHKIT_HASH_FNV1_64 hashkit_fnv1_64
  | HASHKIT_HASH_FNV1A_64 => guarded HASHKIT_HASH_FNV1_64 hashkit_fnv1a_64
  | HASHKIT_HASH_FNV1_32 => ok hashkit_fnv1_32
  | HASHKIT_HASH_FNV1A_32 => ok hashkit_fnv1a_32
  | HASHKIT_HASH_HSIEH => guarded HASHKIT_HASH_HSIEH hashkit_hsieh
  | HASHKIT_HASH_MURMUR3 | HASHKIT_HASH_MURMUR => guarded HASHKIT_HASH_MURMUR hashkit_murmur
  | HASHKIT_HASH_JENKINS => ok hashkit_jenkins
  | HASHKIT_HASH_CUSTOM => (HASHKIT_INVALID_ARGUMENT, self)
  | HASHKIT_HASH_DEFAULT => ok hashkit_one_at_a_time
  | HASHKIT_HASH_MAX =>
    (HASHKIT_INVALID_HASH, mkFunction hashkit_one_at_a_time (context self))
  end.

Definition hashkit_set_function (self : hashkit_st) (algo : hashkit_hash_algorithm_t)
    : hashkit_return_t * hashkit_st :=
  let '(rc, f) := _set_function (base_hash self) algo in
  (rc, with_base_hash self f).

Definition hashkit_set_distribution_function (self : hashkit_st)
    (algo : hashkit_hash_algorithm_t) : hashkit_return_t * hashkit_st :=
  let '(rc, f) := _set_function (distribution_hash self) algo in
  (rc, with_distribution_hash self f).

(** [None] is a null function pointer. *)
Definition _set_custom_function (self : hashkit_function_st) (f : option hashkit_hash_fn)
    (ctx : Z) : hashkit_return_t * hashkit_function_st :=
  match f with
  | Some f => (HASHKIT_SUCCESS, mkFunction f ctx)
  | None => (HASHKIT_FAILURE, self)
  end.

(** [None] is a null [self]. *)
Definition hashkit_set_custom_function (self : option hashkit_st) (f : option hashkit_hash_fn)
    (ctx : Z) : hashkit_return_t * option hashkit_st :=
  match self with
  | None => (HASHKIT_INVALID_ARGUMENT, None)
  | Some h =>
    let '(rc, g) := _set_custom_function (base_hash h) f ctx in
    (rc, Some (with_base_hash h g))
  end.

Definition hashkit_set_custom_distribution_function (self : option hashkit_st)
    (f : option hashkit_hash_fn) (ctx : Z) : hashkit_return_t * option hashkit_st :=
  match self with
  | None => (HASHKIT_INVALID_ARGUMENT, None)
  | Some h =>
    let '(rc, g) := _set_custom_function (distribution_hash h) f ctx in
    (rc, Some (with_distribution_hash h g))
  end.

(** The chain of comparisons has no test for [hashkit_murmur3]. *)
Definition get_function_type (f : hashkit_hash_fn) : hashkit_hash_algorithm_t :=
  if decide (f = hashkit_one_at_a_time) then HASHKIT_HASH_DEFAULT
  else if decide (f = hashkit_md5) then HASHKIT_HASH_MD5
  else if decide (f = hashkit_crc32) then HASHKIT_HASH_CRC
  else if decide (f = hashkit_fnv1_64) then HASHKIT_HASH_FNV1_64
  else if decide (f = hashkit_fnv1a_64) then HASHKIT_HASH_FNV1A_64
  else if decide (f = hashkit_fnv1_32) then HASHKIT_HASH_FNV1_32
  else if decide (f = hashkit_fnv1a_32) then HASHKIT_HASH_FNV1A_32
  else if decide (f = hashkit_hsieh) then HASHKIT_HASH_HSIEH
  else if decide (f = hashkit_murmur) then HASHKIT_HASH_MURMUR
  else if decide (f = hashkit_jenkins) then HASHKIT_HASH_JENKINS
  else HASHKIT_HASH_CUSTOM.

Definition hashkit_get_function (self : option hashkit_st) : hashkit_hash_algorithm_t :=
  match self with
  | None => HASHKIT_HASH_DEFAULT
  | Some h => get_function_type (function (base_hash h))
  end.

Definition hashkit_get_distribution_function (self : option hashkit_st)
    : hashkit_hash_algorithm_t :=
  match self with
  | None => HASHKIT_HASH_DEFAULT
  | Some h => get_function_type (function (distribution_hash h))
  end.

(** ** hashkit.cc *)

(** Every member but [options] is set. *)
Definition _hashkit_init (is_allocated : bool) : hashkit_st :=
  mkHashkit (mkFunction hashkit_one_at_a_time 0) (mkFunction hashkit_one_at_a_time 0) true
    is_allocated None.

Definition hashkit_compare (first second : option hashkit_st) : bool :=
  match first, second with
  | Some a, Some b =>
    bool_decide (function (base_hash a) = function (base_hash b))
    && (context (base_hash a) =? context (base_hash b))
    && bool_decide (function (distribution_hash a) = function (distribution_hash b))
    && (context (distribution_hash a) =? context (distribution_hash b))
    && Bool.eqb (is_base_same_distributed a) (is_base_same_distributed b)
  | _, _ => false
  end.
End HashKit.

Section Objects.
Context `{DM : DataModel} `{AL : Allocator} `{CC : CipherConfig}.

(** Two functions with their contexts, the two bit-fields (a byte each), and the key. *)
Definition sizeof_hashkit_st : Z := 6 * sizeof_ulong.

(** The [options] of the object returned, whose other members the callers set; [None] for a
    null pointer. [self] says whether the caller brings the memory. *)
Definition _hashkit_create (self : bool) : ST nat (option bool) :=
  if self then ret (Some false) else
  let* granted := calloc sizeof_hashkit_st in ret (if granted then Some true else None).

Definition hashkit_create (self : bool) : ST nat (option hashkit_st) :=
  let* o := _hashkit_create self in
  ret (match o with None => None | Some is_allocated => Some (_hashkit_init is_allocated) end).

(** What is left of the object; the macro [hashkit_is_allocated] reads through a null
    pointer. *)
Definition hashkit_free (self : option hashkit_st) : outcome (option hashkit_st) :=
  match self with
  | None => Stuck Undefined
  | Some h => Ret (if is_allocated h then None else Some (with_key h None))
  end.

Definition hashkit_clone (destination : bool) (source : option hashkit_st) : ST nat (option hashkit_st) :=
  match source with
  | None => hashkit_create destination
  | Some src =>
    let* o := _hashkit_create destination in
    match o with
    | None => ret None
    | Some alloc =>
      let* k := aes_clone_key (_key src) in
      ret (Some (mkHashkit (base_hash src) (distribution_hash src) (is_base_same_distributed src) alloc k))
    end
  end.

(** ** encrypt.cc *)

Definition hashkit_encrypt (kit : hashkit_st) (source : list Z) : ST nat (option hashkit_string_st) :=
  aes_encrypt (_key kit) source.

Definition hashkit_decrypt (kit : hashkit_st) (source : list Z) : ST nat (option hashkit_string_st) :=
  aes_decrypt (_key kit) source.

Definition hashkit_key (kit : hashkit_st) (key : list Z) : ST nat (bool * hashkit_st) :=
  let* k := aes_create_key key in
  ret (match k with Some _ => true | None => false end, with_key kit k).
End Objects.

(** * The expected values of libmemcached/tests/hash_results.h

    The model of libhashkit computes the values the library's own tests expect, for every
    algorithm and all 25 keys, on a 64-bit machine with all algorithms built in. *)

Definition all_hashes : HashConfig :=
  {| HAVE_FNV64_HASH := true; HAVE_HSIEH_HASH := true; HAVE_MURMUR_HASH := true |}.
Definition no_client (a : Z) (k : KeyPtr) (ctx : Z) : outcome Z := Ret 0.
Definition stack_garbage : list Z := replicate 64 170.

(** A key at an address, followed by the letter x. *)
Definition key_at (addr : Z) (s : String.string) : KeyPtr :=
  mkKeyPtr addr (lit s) (fun _ => ascii_of_nat 120).

Definition list_to_hash : list String.string := [
  "apple"; "beat"; "carrot"; "daikon"; "eggplant"; "flower"; "green"; "hide"; "ick";
  "jack"; "kick"; "lime"; "mushrooms"; "nectarine"; "orange"; "peach"; "quant"; "ripen";
  "strawberry"; "tang"; "up"; "volumne"; "when"; "yellow"; "zip"
]%string.

Definition digests (algo : hashkit_hash_algorithm_t) : list (outcome Z) :=
  map (fun s => libhashkit_digest (DM := LP64) (HC := all_hashes) stack_garbage no_client
                  (key_at 1 s) algo) list_to_hash.

Example one_at_a_time_values : digests HASHKIT_HASH_DEFAULT = map Ret [
  2297466611; 3902465932; 469785835; 1937308741; 261917617; 3785641677; 1439605128;
  1649152283; 1493851484; 1246520657; 2221159044; 1973511823; 384136800; 214358653;
  2379473940; 4269788650; 2864377005; 2638630052; 427683330; 990491717; 1747111141;
  792127364; 2599214128; 2553037199; 2509838425
].
Proof. vm_compute. reflexivity. Qed.

Example md5_values : digests HASHKIT_HASH_MD5 = map Ret [
  3195025439; 2556848621; 3724893440; 3332385401; 245758794; 2550894432; 121710495;
  3053817768; 1250994555; 1862072655; 2631955953; 2951528551; 1451250070; 2820856945;
  2060845566; 3646985608; 2138080750; 217675895; 2230934345; 1234361223; 3968582726;
  2455685270; 1293568479; 199067604; 2042482093
].
Proof. vm_compute. reflexivity. Qed.

Example crc_values : digests HASHKIT_HASH_CRC = map Ret [
  10542; 22009; 14526; 19510; 19432; 10199; 20634; 9369; 11511; 10362; 7893; 31289; 11313;
  9354; 7621; 30628; 15218; 25967; 2695; 9380; 17300; 28156; 9192; 20484; 16925
].
Proof. vm_compute. reflexivity. Qed.

Example fnv1_64_values : digests HASHKIT_HASH_FNV1_64 = map Ret [
  473199127; 4148981457; 3971873300; 3257986707; 1722477987; 2991193800; 4147007314;
  3633179701; 1805162104; 3503289120; 3395702895; 3325073042; 2345265314; 3340346032;
  2722964135; 1173398992; 2815549194; 2562818319; 224996066; 2680194749; 3035305390;
  246890365; 2395624193; 4145193337; 1801941682
].
Proof. vm_compute. reflexivity. Qed.

Example fnv1a_64_values : digests HASHKIT_HASH_FNV1A_64 = map Ret [
  1488911807; 2500855813; 1510099634; 1390325195; 3647689787; 3241528582; 1669328060;
  2604311949; 734810122; 1516407546; 560948863; 1767346780; 561034892; 4156330026;
  3716417003; 3475297030; 1518272172; 227211583; 3938128828; 126112909; 3043416448;
  3131561933; 1328739897; 2455664041; 2272238452
].
Proof. vm_compute. reflexivity. Qed.

Example fnv1_32_values : digests HASHKIT_HASH_FNV1_32 = map Ret [
  67176023; 1190179409; 2043204404; 3221866419; 2567703427; 3787535528; 4147287986;
  3500475733; 344481048; 3865235296; 2181839183; 119581266; 510234242; 4248244304;
  1362796839; 103389328; 1449620010; 182962511; 3554262370; 3206747549; 1551306158;
  4127558461; 1889140833; 2774173721; 1180552018
].
Proof. vm_compute. reflexivity. Qed.

Example fnv1a_32_values : digests HASHKIT_HASH_FNV1A_32 = map Ret [
  280767167; 2421315013; 3072375666; 855001899; 459261019; 3521085446; 18738364;
  1625305005; 2162232970; 777243802; 3323728671; 132336572; 3654473228; 260679466;
  1169454059; 2698319462; 1062177260; 235516991; 2218399068; 405302637; 1128467232;
  3579622413; 2138539289; 96429129; 2877453236
].
Proof. vm_compute. reflexivity. Qed.

Example hsieh_values : digests HASHKIT_HASH_HSIEH = map Ret [
  3738850110; 3636226060; 3821074029; 3489929160; 3485772682; 80540287; 1805464076;
  1895033657; 409795758; 979934958; 3634096985; 1284445480; 2265380744; 707972988;
  353823508; 1549198350; 1327930172; 9304163; 4220749037; 2493964934; 2777873870;
  2057831732; 1510213931; 2027828987; 3395453351
].
Proof. vm_compute. reflexivity. Qed.

Example murmur_values : digests HASHKIT_HASH_MURMUR = map Ret [
  4142305122; 734504955; 3802834688; 4076891445; 387802650; 560515427; 3274673488;
  3150339524; 1527441970; 2728642900; 3613992239; 2938419259; 2321988328; 1145154116;
  4038540960; 2224541613; 264013145; 3995512858; 2400956718; 2346666219; 926327338;
  442757446; 1770805201; 560483147; 3902279934
].
Proof. vm_compute. reflexivity. Qed.

Example murmur3_values : digests HASHKIT_HASH_MURMUR3 = map Ret [
  1120212521; 1448785489; 4186307405; 2686268514; 444808887; 221750260; 3074673162;
  1946933257; 2826416675; 2430719166; 3200429559; 297894347; 732888124; 4050076964;
  3298336176; 1336207361; 810553576; 3748182674; 3860119212; 3439537197; 3044240981;
  1464271804; 3896193724; 2915115798; 1702843840
].
Proof. vm_compute. reflexivity. Qed.

Example jenkins_values : digests HASHKIT_HASH_JENKINS = map Ret [
  1442444624; 4253821186; 1885058256; 2120131735; 3261968576; 3515188778; 4232909173;
  4288625128; 1812047395; 3689182164; 2502979932; 1214050606; 2415988847; 1494268927;
  1025545760; 3920481083; 4153263658; 3824871822; 3072759809; 798622255; 3065432577;
  1453328165; 2691550971; 3408888387; 2629893356
].
Proof. vm_compute. reflexivity. Qed.
