(* ===== verification/ClientTypes.v ===== *)
(** * The client object of libmemcached

    The enumerations of libmemcached-1.2/types and the members of [memcached_st] that the
    distribution of keys (hash.cc, hosts.cc, virtual_bucket.c), the behaviours (behavior.cc)
    and the text protocol (key.cc, storage.cc, get.cc, response.cc) read or write. *)

From stdpp Require Import base list.
From Stdlib Require Import ZArith Ascii.
From S2P Require Import Prelude CxxString HashWords HashKit.

Inductive memcached_return_t :=
  | MEMCACHED_SUCCESS
  | MEMCACHED_FAILURE
  | MEMCACHED_HOST_LOOKUP_FAILURE
  | MEMCACHED_CONNECTION_FAILURE
  | MEMCACHED_CONNECTION_BIND_FAILURE
  | MEMCACHED_WRITE_FAILURE
  | MEMCACHED_READ_FAILURE
  | MEMCACHED_UNKNOWN_READ_FAILURE
  | MEMCACHED_PROTOCOL_ERROR
  | MEMCACHED_CLIENT_ERROR
  | MEMCACHED_SERVER_ERROR
  | MEMCACHED_ERROR
  | MEMCACHED_DATA_EXISTS
  | MEMCACHED_DATA_DOES_NOT_EXIST
  | MEMCACHED_NOTSTORED
  | MEMCACHED_STORED
  | MEMCACHED_NOTFOUND
  | MEMCACHED_MEMORY_ALLOCATION_FAILURE
  | MEMCACHED_PARTIAL_READ
  | MEMCACHED_SOME_ERRORS
  | MEMCACHED_NO_SERVERS
  | MEMCACHED_END
  | MEMCACHED_DELETED
  | MEMCACHED_VALUE
  | MEMCACHED_STAT
  | MEMCACHED_ITEM
  | MEMCACHED_ERRNO
  | MEMCACHED_FAIL_UNIX_SOCKET
  | MEMCACHED_NOT_SUPPORTED
  | MEMCACHED_NO_KEY_PROVIDED
  | MEMCACHED_FETCH_NOTFINISHED
  | MEMCACHED_TIMEOUT
  | MEMCACHED_BUFFERED
  | MEMCACHED_BAD_KEY_PROVIDED
  | MEMCACHED_INVALID_HOST_PROTOCOL
  | MEMCACHED_SERVER_MARKED_DEAD
  | MEMCACHED_UNKNOWN_STAT_KEY
  | MEMCACHED_E2BIG
  | MEMCACHED_INVALID_ARGUMENTS
  | MEMCACHED_KEY_TOO_BIG
  | MEMCACHED_AUTH_PROBLEM
  | MEMCACHED_AUTH_FAILURE
  | MEMCACHED_AUTH_CONTINUE
  | MEMCACHED_PARSE_ERROR
  | MEMCACHED_PARSE_USER_ERROR
  | MEMCACHED_DEPRECATED
  | MEMCACHED_IN_PROGRESS
  | MEMCACHED_SERVER_TEMPORARILY_DISABLED
  | MEMCACHED_SERVER_MEMORY_ALLOCATION_FAILURE
  | MEMCACHED_MAXIMUM_RETURN.

Inductive memcached_server_distribution_t :=
  | MEMCACHED_DISTRIBUTION_MODULA
  | MEMCACHED_DISTRIBUTION_CONSISTENT
  | MEMCACHED_DISTRIBUTION_CONSISTENT_KETAMA
  | MEMCACHED_DISTRIBUTION_RANDOM
  | MEMCACHED_DISTRIBUTION_CONSISTENT_KETAMA_SPY
  | MEMCACHED_DISTRIBUTION_CONSISTENT_WEIGHTED
  | MEMCACHED_DISTRIBUTION_VIRTUAL_BUCKET
  | MEMCACHED_DISTRIBUTION_CONSISTENT_MAX.

Inductive memcached_behavior_t :=
  | MEMCACHED_BEHAVIOR_NO_BLOCK
  | MEMCACHED_BEHAVIOR_TCP_NODELAY
  | MEMCACHED_BEHAVIOR_HASH
  | MEMCACHED_BEHAVIOR_KETAMA
  | MEMCACHED_BEHAVIOR_SOCKET_SEND_SIZE
  | MEMCACHED_BEHAVIOR_SOCKET_RECV_SIZE
  | MEMCACHED_BEHAVIOR_CACHE_LOOKUPS
  | MEMCACHED_BEHAVIOR_SUPPORT_CAS
  | MEMCACHED_BEHAVIOR_POLL_TIMEOUT
  | MEMCACHED_BEHAVIOR_DISTRIBUTION
  | MEMCACHED_BEHAVIOR_BUFFER_REQUESTS
  | MEMCACHED_BEHAVIOR_USER_DATA
  | MEMCACHED_BEHAVIOR_SORT_HOSTS
  | MEMCACHED_BEHAVIOR_VERIFY_KEY
  | MEMCACHED_BEHAVIOR_CONNECT_TIMEOUT
  | MEMCACHED_BEHAVIOR_RETRY_TIMEOUT
  | MEMCACHED_BEHAVIOR_KETAMA_WEIGHTED
  | MEMCACHED_BEHAVIOR_KETAMA_HASH
  | MEMCACHED_BEHAVIOR_BINARY_PROTOCOL
  | MEMCACHED_BEHAVIOR_SND_TIMEOUT
  | MEMCACHED_BEHAVIOR_RCV_TIMEOUT
  | MEMCACHED_BEHAVIOR_SERVER_FAILURE_LIMIT
  | MEMCACHED_BEHAVIOR_IO_MSG_WATERMARK
  | MEMCACHED_BEHAVIOR_IO_BYTES_WATERMARK
  | MEMCACHED_BEHAVIOR_IO_KEY_PREFETCH
  | MEMCACHED_BEHAVIOR_HASH_WITH_PREFIX_KEY
  | MEMCACHED_BEHAVIOR_NOREPLY
  | MEMCACHED_BEHAVIOR_USE_UDP
  | MEMCACHED_BEHAVIOR_AUTO_EJECT_HOSTS
  | MEMCACHED_BEHAVIOR_NUMBER_OF_REPLICAS
  | MEMCACHED_BEHAVIOR_RANDOMIZE_REPLICA_READ
  | MEMCACHED_BEHAVIOR_CORK
  | MEMCACHED_BEHAVIOR_TCP_KEEPALIVE
  | MEMCACHED_BEHAVIOR_TCP_KEEPIDLE
  | MEMCACHED_BEHAVIOR_LOAD_FROM_FILE
  | MEMCACHED_BEHAVIOR_REMOVE_FAILED_SERVERS
  | MEMCACHED_BEHAVIOR_DEAD_TIMEOUT
  | MEMCACHED_BEHAVIOR_MAX.

Inductive memcached_connection_t :=
  | MEMCACHED_CONNECTION_TCP
  | MEMCACHED_CONNECTION_UDP
  | MEMCACHED_CONNECTION_UNIX_SOCKET.

#[export] Instance return_eq_dec : EqDecision memcached_return_t.
Proof. solve_decision. Defined.
#[export] Instance distribution_eq_dec : EqDecision memcached_server_distribution_t.
Proof. solve_decision. Defined.
#[export] Instance behavior_eq_dec : EqDecision memcached_behavior_t.
Proof. solve_decision. Defined.

(** [memcached_hash_t] has the enumerators of [hashkit_hash_algorithm_t], in the same order. *)
Definition memcached_hash_t : Type := hashkit_hash_algorithm_t.

(** ** Servers and the continuum *)

Record Instance_ := mkInstance {
  _hostname : cstring;
  port_ : Z;
  weight : Z;
  next_retry : Z;
}.

Record memcached_continuum_item_st := mkItem { index : Z; value : Z }.

#[export] Instance item_eq_dec : EqDecision memcached_continuum_item_st.
Proof. solve_decision. Defined.
#[export] Instance item_inhabited : Inhabited memcached_continuum_item_st := populate (mkItem 0 0).

(** The null pointer and an array of no items are both the empty list. *)
Record ketama_st := mkKetama {
  weighted_ : bool;
  continuum_count : Z;
  continuum_points_counter : Z;
  next_distribution_rebuild : Z;
  continuum : list memcached_continuum_item_st;
}.

Record bucket_t := mkBucket { master : Z; forward : Z }.
#[export] Instance bucket_inhabited : Inhabited bucket_t := populate (mkBucket 0 0).

(** [size] is the length of [buckets]; [has_forward] is never set. *)
Record memcached_virtual_bucket_t := mkVirtualBucket { replicas : Z; buckets : list bucket_t }.

(** ** The client *)

Record flags_st := mkFlags {
  auto_eject_hosts : bool;
  binary_protocol : bool;
  buffer_requests : bool;
  hash_with_namespace : bool;
  no_block : bool;
  reply : bool;
  randomize_replica_read : bool;
  support_cas : bool;
  tcp_nodelay : bool;
  use_sort_hosts : bool;
  use_udp : bool;
  verify_key : bool;
  tcp_keepalive : bool;
  is_fetching_version : bool;
}.

Record limits_st := mkLimits {
  snd_timeout : Z;
  rcv_timeout : Z;
  server_failure_limit : Z;
  io_msg_watermark : Z;
  io_bytes_watermark : Z;
  io_key_prefetch : Z;
  tcp_keepidle : Z;
  poll_timeout : Z;
  connect_timeout : Z;
  retry_timeout : Z;
  dead_timeout : Z;
  send_size : Z;
  recv_size : Z;
  number_of_replicas : Z;
}.

Record Memcached := mkMemcached {
  flags : flags_st;
  distribution : memcached_server_distribution_t;
  hashkit : hashkit_st;
  servers : list Instance_;
  limits : limits_st;
  ketama : ketama_st;
  virtual_bucket : option memcached_virtual_bucket_t;
  _namespace : cstring;
}.

Definition memcached_server_count (ptr : Memcached) : Z := Z.of_nat (length (servers ptr)).

Definition with_flags (p : Memcached) (f : flags_st) : Memcached :=
  mkMemcached f (distribution p) (hashkit p) (servers p) (limits p) (ketama p) (virtual_bucket p) (_namespace p).
Definition with_distribution (p : Memcached) (d : memcached_server_distribution_t) : Memcached :=
  mkMemcached (flags p) d (hashkit p) (servers p) (limits p) (ketama p) (virtual_bucket p) (_namespace p).
Definition with_hashkit (p : Memcached) (h : hashkit_st) : Memcached :=
  mkMemcached (flags p) (distribution p) h (servers p) (limits p) (ketama p) (virtual_bucket p) (_namespace p).
Definition with_servers (p : Memcached) (s : list Instance_) : Memcached :=
  mkMemcached (flags p) (distribution p) (hashkit p) s (limits p) (ketama p) (virtual_bucket p) (_namespace p).
Definition with_limits (p : Memcached) (l : limits_st) : Memcached :=
  mkMemcached (flags p) (distribution p) (hashkit p) (servers p) l (ketama p) (virtual_bucket p) (_namespace p).
Definition with_ketama (p : Memcached) (k : ketama_st) : Memcached :=
  mkMemcached (flags p) (distribution p) (hashkit p) (servers p) (limits p) k (virtual_bucket p) (_namespace p).
Definition with_virtual_bucket (p : Memcached) (v : option memcached_virtual_bucket_t) : Memcached :=
  mkMemcached (flags p) (distribution p) (hashkit p) (servers p) (limits p) (ketama p) v (_namespace p).

Definition memcached_set_weighted_ketama (p : Memcached) (b : bool) : Memcached :=
  with_ketama p (mkKetama b (continuum_count (ketama p)) (continuum_points_counter (ketama p))
    (next_distribution_rebuild (ketama p)) (continuum (ketama p))).

(** [_memcached_init] of memcached.cc, with the constants of libmemcached-1.2/defaults.h. *)
Definition MEMCACHED_DEFAULT_TIMEOUT : Z := 5000.
Definition MEMCACHED_DEFAULT_CONNECT_TIMEOUT : Z := 4000.
Definition MEMCACHED_SERVER_FAILURE_LIMIT : Z := 5.
Definition MEMCACHED_SERVER_FAILURE_RETRY_TIMEOUT : Z := 2.
Definition MEMCACHED_SERVER_FAILURE_DEAD_TIMEOUT : Z := 0.

Definition _memcached_init : Memcached := {|
  flags := {| auto_eject_hosts := false; binary_protocol := false; buffer_requests := false;
    hash_with_namespace := false; no_block := false; reply := true; randomize_replica_read := false;
    support_cas := false; tcp_nodelay := false; use_sort_hosts := false; use_udp := false;
    verify_key := true; tcp_keepalive := false; is_fetching_version := false |};
  distribution := MEMCACHED_DISTRIBUTION_MODULA;
  hashkit := _hashkit_init false;
  servers := [];
  limits := {| snd_timeout := 0; rcv_timeout := 0; server_failure_limit := MEMCACHED_SERVER_FAILURE_LIMIT;
    io_msg_watermark := 500; io_bytes_watermark := 65 * 1024; io_key_prefetch := 0; tcp_keepidle := 0;
    poll_timeout := MEMCACHED_DEFAULT_TIMEOUT; connect_timeout := MEMCACHED_DEFAULT_CONNECT_TIMEOUT;
    retry_timeout := MEMCACHED_SERVER_FAILURE_RETRY_TIMEOUT;
    dead_timeout := MEMCACHED_SERVER_FAILURE_DEAD_TIMEOUT; send_size := -1; recv_size := -1;
    number_of_replicas := 0 |};
  ketama := {| weighted_ := false; continuum_count := 0; continuum_points_counter := 0;
    next_distribution_rebuild := 0; continuum := [] |};
  virtual_bucket := None;
  _namespace := [];
|}.
