(* ===== verification/ByteOrder.v ===== *)
(** * Byte order: byteorder.cc and the functions of arpa/inet.h

    The binary protocol sends numbers with the most significant byte first; a little-endian
    machine keeps them the other way round and swaps. [le] and [be] are the bytes of a number in
    memory and on the wire. *)

From stdpp Require Import base list.
From Stdlib Require Import ZArith Lia.
From S2P Require Import Prelude.
Local Open Scope Z_scope.

(** ** Bytes of a number *)

Fixpoint le (n : nat) (x : Z) : list Z :=
  match n with O => [] | S n => x mod 256 :: le n (x / 256) end.
Definition be (n : nat) (x : Z) : list Z := rev (le n x).

Fixpoint le_value (bytes : list Z) : Z :=
  match bytes with [] => 0 | b :: bytes => b + 256 * le_value bytes end.
Definition be_value (bytes : list Z) : Z := le_value (rev bytes).

(** ** The library functions, on a little-endian machine *)

Definition htons (x : Z) : Z := le_value (be 2 x).
Definition htonl (x : Z) : Z := le_value (be 4 x).
Definition ntohs (x : Z) : Z := htons x.
Definition ntohl (x : Z) : Z := htonl x.

(** ** byteorder.cc *)

Fixpoint swap64_loop (rounds : nat) (rv x : Z) : Z :=
  match rounds with
  | O => rv
  | S rounds => swap64_loop rounds (Z.lor (u64 (Z.shiftl rv 8)) (Z.land x 0xff)) (Z.shiftr x 8)
  end.
Definition swap64 (x : Z) : Z := swap64_loop 8 0 x.

Definition memcached_ntohll (value : Z) : Z := swap64 value.
Definition memcached_htonll (value : Z) : Z := swap64 value.

(** ** Their meaning *)

Definition byte (b : Z) : Prop := 0 <= b < 256.

Lemma length_le n x : length (le n x) = n.
Proof. revert x. induction n as [|n IH]; intros x; cbn; [done|by rewrite IH]. Qed.
Lemma length_be n x : length (be n x) = n.
Proof. unfold be. by rewrite length_rev, length_le. Qed.

Lemma le_bytes n x : Forall byte (le n x).
Proof.
  revert x. induction n as [|n IH]; intros x; cbn; constructor; [|apply IH].
  pose proof (Z.mod_pos_bound x 256). unfold byte. lia.
Qed.
Lemma be_bytes n x : Forall byte (be n x).
Proof. apply Forall_rev, le_bytes. Qed.

Lemma le_le_value l : Forall byte l -> le (length l) (le_value l) = l.
Proof.
  induction 1 as [|b l Hb _ IH]; cbn [length le le_value]; [done|]. unfold byte in Hb.
  replace (b + 256 * le_value l) with (b + le_value l * 256) by lia.
  rewrite Z.mod_add, Z.div_add by lia.
  rewrite Z.mod_small, (Z.div_small b) by lia. rewrite Z.add_0_l. by rewrite IH.
Qed.

Lemma le_value_le n x : le_value (le n x) = x mod 256 ^ Z.of_nat n.
Proof.
  revert x. induction n as [|n IH]; intros x; cbn [le le_value].
  - by rewrite Z.mod_1_r.
  - rewrite IH, Nat2Z.inj_succ, Z.pow_succ_r by lia.
    symmetry. rewrite Z.rem_mul_r by lia. done.
Qed.

Lemma be_value_be n x : be_value (be n x) = x mod 256 ^ Z.of_nat n.
Proof. unfold be_value, be. rewrite rev_involutive. apply le_value_le. Qed.

Lemma be_be_value l : Forall byte l -> be (length l) (be_value l) = l.
Proof.
  intros Hl. unfold be, be_value. rewrite <- (length_rev l), le_le_value by by apply Forall_rev.
  apply rev_involutive.
Qed.

Lemma le_value_range l : Forall byte l -> 0 <= le_value l < 256 ^ Z.of_nat (length l).
Proof.
  induction 1 as [|b l Hb _ IH]; cbn [length le_value]; [lia|].
  rewrite Nat2Z.inj_succ, Z.pow_succ_r by lia. unfold byte in Hb. lia.
Qed.
Lemma be_value_range l : Forall byte l -> 0 <= be_value l < 256 ^ Z.of_nat (length l).
Proof. intros Hl. unfold be_value. rewrite <- (length_rev l). by apply le_value_range, Forall_rev. Qed.

(** In memory, a swapped number has the bytes that go on the wire. *)
Lemma le_htons x : le 2 (htons x) = be 2 x.
Proof. unfold htons. rewrite <- (length_be 2 x) at 1. apply le_le_value, be_bytes. Qed.
Lemma le_htonl x : le 4 (htonl x) = be 4 x.
Proof. unfold htonl. rewrite <- (length_be 4 x) at 1. apply le_le_value, be_bytes. Qed.

(** The loop takes the bytes of [x] from the lowest on and puts each one below the others. *)
Lemma swap64_loop_spec n : forall rv x, 0 <= rv -> (rv + 1) * 256 ^ Z.of_nat n <= 2 ^ 64 ->
  swap64_loop n rv x = rv * 256 ^ Z.of_nat n + be_value (le n x).
Proof.
  induction n as [|n IH]; intros rv x Hrv Hb; cbn [swap64_loop le]; [change (be_value []) with 0; lia|].
  rewrite Nat2Z.inj_succ, Z.pow_succ_r in * by lia.
  pose proof (Z.mod_pos_bound x 256 ltac:(lia)) as Hx.
  assert (0 < 256 ^ Z.of_nat n) as Hp by (apply Z.pow_pos_nonneg; lia).
  assert (Z.lor (u64 (Z.shiftl rv 8)) (Z.land x 255) = rv * 256 + x mod 256) as ->.
  { change 255 with (Z.ones 8). rewrite Z.land_ones, Z.shiftl_mul_pow2 by lia. change (2 ^ 8) with 256.
    unfold u64. rewrite Z.mod_small by (change (2 ^ 64) with 18446744073709551616 in Hb; nia).
    rewrite <- Z.lxor_lor, <- Z.add_nocarry_lxor; [done| |];
      apply Z.bits_inj'; intros k Hk; rewrite Z.land_spec, Z.bits_0;
      (destruct (Z.ltb_spec k 8);
        [rewrite (Z.mul_pow2_bits_low rv 8) by lia; done
        |change 256 with (2 ^ 8); rewrite Z.mod_pow2_bits_high by lia; apply andb_false_r]). }
  rewrite Z.shiftr_div_pow2 by lia. change (2 ^ 8) with 256.
  unfold be_value. cbn [rev].
  assert (forall l b, le_value (l ++ [b]) = le_value l + b * 256 ^ Z.of_nat (length l)) as Happ.
  { intros l b. induction l as [|a l IHl]; cbn [app le_value fold_right length].
    - change (Z.of_nat 0) with 0. lia.
    - rewrite IHl, Nat2Z.inj_succ, Z.pow_succ_r by lia. lia. }
  rewrite Happ, length_rev, length_le. rewrite IH; [unfold be_value; nia|lia|].
  change (2 ^ 64) with 18446744073709551616 in *. nia.
Qed.

Lemma swap64_spec x : swap64 x = be_value (le 8 x).
Proof. unfold swap64. rewrite swap64_loop_spec; lia. Qed.

Lemma le_htonll x : le 8 (memcached_htonll x) = be 8 x.
Proof.
  unfold memcached_htonll. rewrite swap64_spec. unfold be_value. change (rev (le 8 x)) with (be 8 x).
  rewrite <- (length_be 8 x) at 1. apply le_le_value, be_bytes.
Qed.

(** Read from memory and swapped, the bytes of the wire are the number. *)
Lemma ntohs_le l : Forall byte l -> length l = 2%nat -> ntohs (le_value l) = be_value l.
Proof. intros Hl Hn. unfold ntohs, htons, be. by rewrite <- Hn, le_le_value. Qed.
Lemma ntohl_le l : Forall byte l -> length l = 4%nat -> ntohl (le_value l) = be_value l.
Proof. intros Hl Hn. unfold ntohl, htonl, be. by rewrite <- Hn, le_le_value. Qed.
Lemma ntohll_le l : Forall byte l -> length l = 8%nat -> memcached_ntohll (le_value l) = be_value l.
Proof. intros Hl Hn. unfold memcached_ntohll. by rewrite swap64_spec, <- Hn, le_le_value. Qed.
