(* ===== verification/ClientString.v ===== *)
(** * Strings of libmemcached: string.cc

    The growing buffer in which a client keeps a value ([memcached_string_st]). It grows by
    blocks of 1024 bytes; the allocator is the one of HashkitString, so a request may be
    refused and a new block holds arbitrary bytes. A store outside the block is undefined. *)

From stdpp Require Import base list numbers.
From Stdlib Require Import ZArith Lia Ascii.
From S2P Require Import Prelude CxxString HashkitString.

Definition MEMCACHED_BLOCK_SIZE : Z := 1024.

(** [end] is the offset of the pointer from [string], whose null pointer is [None]. *)
Record memcached_string_st := mkMString {
  str_end : Z;
  str_mem : option cstring;
  str_size : Z;
}.

Definition _init_string : memcached_string_st := mkMString 0 None 0.

(** [*(string + o)] and the following bytes are set to [bytes]. *)
Definition str_poke (self : memcached_string_st) (o : Z) (bytes : cstring) : outcome memcached_string_st :=
  match str_mem self with
  | None => if bytes is [] then Ret self else Stuck Undefined
  | Some buf =>
    if (0 <=? o) && (o + size bytes <=? size buf)
    then Ret (mkMString (str_end self)
               (Some (take (Z.to_nat o) buf ++ bytes ++ drop (Z.to_nat o + length bytes) buf)) (str_size self))
    else Stuck Undefined
  end.

Definition memcached_string_length (self : memcached_string_st) : Z := str_end self.
Definition memcached_string_size (self : memcached_string_st) : Z := str_size self.
Definition memcached_string_reset (self : memcached_string_st) : memcached_string_st :=
  mkMString 0 (str_mem self) (str_size self).
(** The overload on pointers, which does not look at the size. *)
Definition memcached_string_set_length (self : memcached_string_st) (length : Z) : memcached_string_st :=
  mkMString length (str_mem self) (str_size self).

(** The characters from [string] to [end]. *)
Definition str_chars (self : memcached_string_st) : cstring :=
  take (Z.to_nat (str_end self)) (default [] (str_mem self)).

Section Operations.
Context `{DM : DataModel} `{AL : Allocator}.

Definition char_of (b : Z) : ascii := ascii_of_N (Z.to_N b).

(** [libmemcached_xrealloc] with the default allocator: the old characters are kept. *)
Definition xrealloc (p : option cstring) (size : Z) : ST nat (option cstring) := fun k =>
  let old := default [] p in
  (Ret (if grants k size then Some (old ++ drop (length old) (map char_of (fresh k size))) else None), S k).

(** Why a request for room fails: the size overflows (the error names it), or no memory. *)
Inductive check_result := CheckOk | CheckOverflow | CheckNoMemory.

Definition _string_check (self : memcached_string_st) (need : Z)
    : ST nat (check_result * memcached_string_st) :=
  let room := ulong (str_size self - str_end self) in
  if negb (need =? 0) && (room <? need) then
    let adjust := ulong (ulong (need - room) / MEMCACHED_BLOCK_SIZE + 1) in
    let new_size := ulong (adjust * MEMCACHED_BLOCK_SIZE + str_size self) in
    if new_size <? need then ret (CheckOverflow, self) else
    let* new_value := xrealloc (str_mem self) new_size in
    match new_value with
    | None => ret (CheckNoMemory, self)
    | Some buf => ret (CheckOk, mkMString (str_end self) (Some buf)
                                  (ulong (str_size self + MEMCACHED_BLOCK_SIZE * adjust)))
    end
  else ret (CheckOk, self).

(** With memory for the object itself given by the caller. *)
Definition memcached_string_create (initial_size : Z) : ST nat (option memcached_string_st) :=
  let* r := _string_check _init_string initial_size in
  let '(c, self) := r in ret (if c is CheckOk then Some self else None).

Definition memcached_string_append_null (self : memcached_string_st) : ST nat (bool * memcached_string_st) :=
  let* r := _string_check self 1 in
  let '(c, self) := r in
  if c is CheckOk then
    let* self := lift (str_poke self (str_end self) [zero]) in ret (true, self)
  else ret (false, self).

Definition memcached_string_append_character (self : memcached_string_st) (character : ascii)
    : ST nat (bool * memcached_string_st) :=
  let* r := _string_check self 1 in
  let '(c, self) := r in
  if c is CheckOk then
    let* self := lift (str_poke self (str_end self) [character]) in
    ret (true, memcached_string_set_length self (str_end self + 1))
  else ret (false, self).

Definition memcached_string_append (self : memcached_string_st) (value : cstring)
    : ST nat (bool * memcached_string_st) :=
  let* r := _string_check self (size value) in
  let '(c, self) := r in
  if c is CheckOk then
    let* self := lift (str_poke self (str_end self) value) in
    ret (true, memcached_string_set_length self (str_end self + size value))
  else ret (false, self).

(** A block of its own with the characters and a null character; the null pointer for an empty
    string and when there is no memory. *)
Definition memcached_string_c_copy (self : memcached_string_st) : ST nat (option cstring) := fun k =>
  if memcached_string_length self =? 0 then (Ret None, k) else
  (Ret (if grants k (ulong (memcached_string_length self + 1)) then Some (str_chars self ++ [zero]) else None), S k).

Definition memcached_string_set (self : memcached_string_st) (value : cstring)
    : ST nat (bool * memcached_string_st) :=
  let* r := memcached_string_append (memcached_string_reset self) value in
  let '(done, self) := r in
  if done then let* r := memcached_string_append_null self in ret (true, snd r) else ret (false, self).

(** On success of the null character it returns a copy; only when that fails does it hand out
    its own buffer and forget it. *)
Definition memcached_string_take_value (self : memcached_string_st)
    : ST nat (option cstring * memcached_string_st) :=
  if memcached_string_length self =? 0 then ret (None, self) else
  let* r := memcached_string_append_null self in
  let '(done, self) := r in
  if done then let* c := memcached_string_c_copy self in ret (c, self)
  else ret (str_mem self, _init_string).

(** ** Well-formed strings *)

Record mstring_ok (s : memcached_string_st) : Prop := {
  mok_end : 0 <= str_end s <= str_size s;
  mok_size : str_size s < ULONG_MOD;
  mok_mem : size (default [] (str_mem s)) = str_size s;
}.

Lemma mstring_ok_init : mstring_ok _init_string.
Proof.
  pose proof ULONG_MOD_ge as H. unfold UINT_MOD in H. split; [done| |done].
  cbn [_init_string str_size]. lia.
Qed.

Lemma mstring_ok_reset s : mstring_ok s -> mstring_ok (memcached_string_reset s).
Proof. intros [? ? ?]. split; cbn [memcached_string_reset str_end str_size str_mem]; try done; lia. Qed.

Lemma size_fresh k n : 0 <= n -> Z.of_nat (length (fresh k n)) = n.
Proof. intros. unfold fresh. rewrite length_map, length_seqZ. lia. Qed.

(** A granted check leaves room for what was asked, keeps the characters, and keeps the object
    well-formed. *)
Lemma mstring_check_spec s need k :
  mstring_ok s -> 0 <= need -> str_size s + need + MEMCACHED_BLOCK_SIZE < ULONG_MOD ->
  exists r s' k', _string_check s need k = (Ret (r, s'), k')
    /\ mstring_ok s' /\ str_end s' = str_end s /\ str_chars s' = str_chars s
    /\ (r = CheckOk -> str_end s + need <= str_size s')
    /\ (r <> CheckOk -> s' = s)
    /\ ((forall j n, grants j n = true) -> r = CheckOk)
    /\ str_size s' <= str_size s + need + MEMCACHED_BLOCK_SIZE.
Proof.
  intros Hok Hn Hb. pose proof Hok as [He Hs Hm]. unfold MEMCACHED_BLOCK_SIZE in *.
  unfold _string_check. rewrite (ulong_small (str_size s - str_end s)) by lia.
  destruct (negb (need =? 0) && (str_size s - str_end s <? need)) eqn:Hc.
  - apply andb_true_iff in Hc as [H1 H2]. apply negb_true_iff, Z.eqb_neq in H1. apply Z.ltb_lt in H2.
    set (a := need - (str_size s - str_end s)).
    assert (0 <= a / 1024 /\ a / 1024 * 1024 <= a < (a / 1024 + 1) * 1024) as (Ha1 & Ha2).
    { pose proof (Z.div_mod a 1024 ltac:(lia)). pose proof (Z.mod_pos_bound a 1024 ltac:(lia)).
      assert (0 <= a / 1024) by (apply Z.div_pos; lia). lia. }
    rewrite (ulong_small a) by lia.
    unfold MEMCACHED_BLOCK_SIZE. rewrite (ulong_small (a / 1024 + 1)) by lia.
    rewrite (ulong_small ((a / 1024 + 1) * 1024 + str_size s)) by lia.
    rewrite (proj2 (Z.ltb_ge _ need)) by lia.
    unfold bind, xrealloc. destruct (grants k _) eqn:Hg; cbn [ret].
    + do 3 eexists. split; [reflexivity|]. cbn.
      rewrite (ulong_small (str_size s + _)) by lia.
      set (n := (a / 1024 + 1) * 1024 + str_size s).
      assert (length (default [] (str_mem s)) = Z.to_nat (str_size s)) as Hlen
        by (unfold size in Hm; lia).
      split; [|split; [done|split; [|split; [lia|split; [done|split; [done|unfold MEMCACHED_BLOCK_SIZE; lia]]]]]].
      * split; cbn; [lia|lia|]. unfold size. rewrite length_app, length_drop, length_map.
        pose proof (size_fresh k n ltac:(lia)). lia.
      * unfold str_chars. cbn. rewrite take_app_le by lia. done.
    + do 3 eexists. split; [reflexivity|]. split; [done|]. split; [done|]. split; [done|].
      split; [done|]. split; [done|]. unfold MEMCACHED_BLOCK_SIZE.
      split; [intros Hall; by rewrite Hall in Hg|lia].
  - do 3 eexists. split; [reflexivity|]. split; [done|]. split; [done|]. split; [done|].
    unfold MEMCACHED_BLOCK_SIZE. split; [|split; [done|split; [done|lia]]].
    intros _. apply andb_false_iff in Hc as [Hc|Hc].
    + apply negb_false_iff, Z.eqb_eq in Hc. lia.
    + apply Z.ltb_ge in Hc. lia.
Qed.

(** A store inside the block. *)
Lemma str_poke_ok s o bytes :
  mstring_ok s -> 0 <= o -> o + size bytes <= str_size s ->
  exists s', str_poke s o bytes = Ret s' /\ mstring_ok s' /\ str_end s' = str_end s /\ str_size s' = str_size s
    /\ default [] (str_mem s') = take (Z.to_nat o) (default [] (str_mem s)) ++ bytes
         ++ drop (Z.to_nat o + length bytes) (default [] (str_mem s)).
Proof.
  intros [He Hs Hm] Ho Hb. unfold str_poke. destruct (str_mem s) as [buf|] eqn:Hbuf; cbn in *.
  - rewrite (proj2 (Z.leb_le 0 o)), (proj2 (Z.leb_le (o + size bytes) _)) by lia. cbn.
    eexists. split; [reflexivity|]. split; [|done]. split; cbn; [done..|].
    unfold size in *. rewrite !length_app, length_take, length_drop. lia.
  - destruct bytes as [|b bytes]; [|unfold size in *; cbn in *; lia].
    exists s. split; [done|]. split; [by split; rewrite ?Hbuf|]. rewrite Hbuf. cbn. split; [done|].
    split; [done|]. by rewrite take_nil, drop_nil.
Qed.

(** Appending adds the characters at the end, or leaves the object as it was. *)
Lemma mstring_append_spec s value k :
  mstring_ok s -> str_size s + size value + MEMCACHED_BLOCK_SIZE < ULONG_MOD ->
  exists b s' k', memcached_string_append s value k = (Ret (b, s'), k')
    /\ mstring_ok s' /\ str_chars s' = (if b then str_chars s ++ value else str_chars s)
    /\ ((forall j n, grants j n = true) -> b = true).
Proof.
  intros Hok Hb. pose proof (size_nonneg value) as Hv.
  destruct (mstring_check_spec s (size value) k Hok Hv Hb) as (r & s1 & k1 & E & Hok1 & He & Hc & Hroom & Hsame & Hall & _).
  unfold memcached_string_append. run E. destruct r; cbn [fst snd].
  - specialize (Hroom eq_refl). pose proof Hok1 as [He1 Hs1 Hm1].
    destruct (str_poke_ok s1 (str_end s1) value Hok1 ltac:(lia) ltac:(lia)) as (s2 & E2 & Hok2 & He2 & Hz2 & Hmem).
    unfold bind, lift. rewrite E2. do 3 eexists. split; [reflexivity|].
    pose proof Hok2 as [? ? Hm2].
    split; [split; cbn; [|done|]; [lia|done]|]. split; [|done].
    unfold str_chars in *. cbn. rewrite Hmem, He2, <- Hc, app_assoc. unfold size in *.
    rewrite take_app_le by (rewrite length_app, length_take; lia).
    rewrite take_ge by (rewrite length_app, length_take; lia). done.
  - do 3 eexists. split; [reflexivity|]. rewrite (Hsame ltac:(done)). split; [done|]. split; [done|].
    intros Ha. by specialize (Hall Ha).
  - do 3 eexists. split; [reflexivity|]. rewrite (Hsame ltac:(done)). split; [done|]. split; [done|].
    intros Ha. by specialize (Hall Ha).
Qed.

(** Taking the value returns its characters with a null character behind them. *)
Lemma take_value_spec s k :
  mstring_ok s -> str_size s + 1 + MEMCACHED_BLOCK_SIZE < ULONG_MOD -> (forall j n, grants j n = true) ->
  exists s' k', memcached_string_take_value s k =
    (Ret (if str_end s =? 0 then None else Some (str_chars s ++ [zero]), s'), k') /\ mstring_ok s'.
Proof.
  intros Hok Hb Hg. unfold memcached_string_take_value, memcached_string_length.
  destruct (str_end s =? 0) eqn:Hz; [by do 2 eexists|].
  destruct (mstring_check_spec s 1 k Hok ltac:(lia) ltac:(lia)) as (r & s1 & k1 & E & Hok1 & He & Hc & Hroom & _ & Hall & _).
  specialize (Hall Hg) as ->. specialize (Hroom eq_refl). unfold memcached_string_append_null.
  rewrite bind_assoc. run E.
  destruct (str_poke_ok s1 (str_end s1) [zero] Hok1) as (s2 & E2 & Hok2 & He2 & Hz2 & Hmem);
    [pose proof Hok1 as [? ? ?]; lia|cbn; unfold size; cbn; lia|].
  unfold bind, lift. rewrite E2. cbn [ret]. unfold memcached_string_c_copy, memcached_string_length.
  rewrite He2, He, Hz, Hg. do 2 eexists. split; [|done]. cbn. do 4 f_equal.
  unfold str_chars in *. rewrite Hmem, He2, <- Hc.
  pose proof Hok1 as [? ? Hm1]. unfold size in *.
  rewrite take_app_le by (rewrite length_take; lia). rewrite take_ge by (rewrite length_take; lia). done.
Qed.
End Operations.
