(* ===== verification/Continuum.v ===== *)
(** * Which server a key goes to: hash.cc, hosts.cc and virtual_bucket.c

    The points of the servers on the circle of 32-bit hashes ([update_continuum]), and the
    search for the point that follows the hash of a key ([dispatch_host]). The clock, the
    result of [realloc] and the content of the new memory are arguments, and so is [qsort]:
    any function that sorts. Floating point is the binary32 and binary64 arithmetic of
    IEEE 754. *)

From stdpp Require Import base list numbers sorting.
From Stdlib Require Import ZArith Lia Ascii String Sorted SpecFloat.
From S2P Require Import Prelude CxxString HashWords HashMd5 HashSmall HashKit ClientTypes.

Definition MEMCACHED_DEFAULT_PORT : Z := 11211.
Definition MEMCACHED_POINTS_PER_SERVER : Z := 100.
Definition MEMCACHED_POINTS_PER_SERVER_KETAMA : Z := 160.
Definition MEMCACHED_CONTINUUM_SIZE : Z := MEMCACHED_POINTS_PER_SERVER * 100.
Definition MEMCACHED_CONTINUUM_ADDITION : Z := 10.
Definition MEMCACHED_NI_MAXHOST : Z := 1025.
Definition MEMCACHED_NI_MAXSERV : Z := 32.
Definition MEMCACHED_MAX_KEY : Z := 251.

(** ** Floating point *)

Module Float.
Definition binary32_of (m e : Z) : spec_float := binary_normalize 24 128 m e false.
Definition binary64_of (m e : Z) : spec_float := binary_normalize 53 1024 m e false.

(** Conversion between the formats: to the nearest, ties to even. *)
Definition convert (f : Z -> Z -> spec_float) (x : spec_float) : spec_float :=
  match x with
  | S754_finite s m e => f (cond_Zopp s (Zpos m)) e
  | _ => x
  end.

(** [floor] as an integer; [None] for an infinity or a NaN. *)
Definition floor (x : spec_float) : option Z :=
  match x with
  | S754_zero _ => Some 0
  | S754_finite s m e => Some (Z.shiftl (cond_Zopp s (Zpos m)) e)
  | _ => None
  end.

(** [pct * 160 / 4 * (float)live_servers + 0.0000000001]: the sum is a double, since the
    constant is, and is rounded to a float again. *)
Definition share (weight total_weight live_servers : Z) : spec_float :=
  let pct := SFdiv 24 128 (binary32_of weight 0) (binary32_of total_weight 0) in
  let points := SFmul 24 128 pct (binary32_of MEMCACHED_POINTS_PER_SERVER_KETAMA 0) in
  let points := SFdiv 24 128 points (binary32_of 4 0) in
  let points := SFmul 24 128 points (binary32_of live_servers 0) in
  let tiny := SFdiv 53 1024 (binary64_of 1 0) (binary64_of 10000000000 0) in
  convert binary32_of (SFadd 53 1024 (convert binary64_of points) tiny).

(** [(uint32_t) (floor(...) * 4)]: a value that does not fit is undefined. *)
Definition weighted_points (weight total_weight live_servers : Z) : outcome Z :=
  match floor (share weight total_weight live_servers) with
  | Some n => if (0 <=? n * 4) && (n * 4 <? UINT_MOD) then Ret (n * 4) else Stuck Undefined
  | None => Stuck Undefined
  end.

(** Equal weights: the constant is lost in the rounding to a float, and with these numbers of
    servers everyone gets 156 points instead of 160. *)
Example equal_weights :
  List.filter (fun n => match weighted_points 1 n n with Ret v => negb (v =? 160) | _ => true end) (seqZ 1 100)
  = [25; 47; 50; 55; 61; 71; 94; 100].
Proof. vm_compute. reflexivity. Qed.
End Float.

(** ** Sorting *)

Definition value_le (a b : memcached_continuum_item_st) : Prop := value a <= value b.

Class Qsort := {
  qsort : list memcached_continuum_item_st -> list memcached_continuum_item_st;
  qsort_perm : forall l, qsort l ≡ₚ l;
  qsort_sorted : forall l, StronglySorted value_le (qsort l);
}.

(** The sign of the result is what [qsort] looks at. *)
Definition continuum_item_cmp (ct1 ct2 : memcached_continuum_item_st) : Z :=
  if value ct1 =? value ct2 then 0 else if value ct2 <? value ct1 then 1 else -1.

(** ** The continuum *)

(** Whether the assertions of the build are off. *)
Class ClientConfig := { NDEBUG : bool }.

Definition assert_msg `{ClientConfig} (b : bool) : outcome unit :=
  if NDEBUG || b then Ret tt else Stuck AssertionFailed.

Section Continuum.
Context `{DM : DataModel} `{HC : HashConfig} `{CF : ClientConfig} `{QS : Qsort}.
Context (garbage : list Z) (client : Z -> KeyPtr -> Z -> outcome Z).
(** The address of a local array, and what follows the characters in it. *)
Context (stack_addr : Z) (stack_rest : nat -> ascii).

Definition local_key (s : cstring) : KeyPtr := mkKeyPtr stack_addr s stack_rest.

Definition ketama_server_hash (key : cstring) (alignment : Z) : outcome Z :=
  let? results := Md5.md5_signature garbage (map uchar key) (u32 (size key)) in
  Ret (Z.lor (Z.lor (Z.lor (shl32 (Z.land (aget results (3 + alignment * 4)) 0xFF) 24)
                           (shl32 (Z.land (aget results (2 + alignment * 4)) 0xFF) 16))
                    (shl32 (Z.land (aget results (1 + alignment * 4)) 0xFF) 8))
             (Z.land (aget results (0 + alignment * 4)) 0xFF)).

(** The name of a point, and the size of the array it is printed to. *)
Definition sort_host (spy : bool) (host : Instance_) (pointer_index : Z) : cstring :=
  if spy then lit "/" ++ _hostname host ++ lit ":"
    ++ to_string (port_ host) ++ lit "-" ++ to_string pointer_index
  else if port_ host =? MEMCACHED_DEFAULT_PORT then
    _hostname host ++ lit "-" ++ to_string (pointer_index - 1)
  else _hostname host ++ lit ":" ++ to_string (port_ host)
    ++ lit "-" ++ to_string (pointer_index - 1).

Definition sizeof_sort_host (spy : bool) : Z :=
  (if spy then 1 else 0) + MEMCACHED_NI_MAXHOST + 1 + MEMCACHED_NI_MAXSERV + 1 + MEMCACHED_NI_MAXSERV.

(** The hashes of one name: four of the MD5, or one of the configured function. *)
Definition point_values (hk : hashkit_st) (weighted : bool) (name : cstring) : outcome (list Z) :=
  if weighted then
    let? v0 := ketama_server_hash name 0 in let? v1 := ketama_server_hash name 1 in
    let? v2 := ketama_server_hash name 2 in let? v3 := ketama_server_hash name 3 in
    Ret [v0; v1; v2; v3]
  else let? v := hashkit_digest garbage client hk (local_key name) in Ret [v].

(** [continuum[continuum_index].index= host_index; continuum[continuum_index++].value= value] *)
Fixpoint put_points (c : list memcached_continuum_item_st) (continuum_index host_index : Z)
    (values : list Z) : outcome (list memcached_continuum_item_st * Z) :=
  match values with
  | [] => Ret (c, continuum_index)
  | v :: values' =>
    if continuum_index <? Z.of_nat (List.length c)
    then put_points (aset c continuum_index (mkItem host_index v)) (continuum_index + 1) host_index values'
    else Stuck Undefined
  end.

(** The loop over [pointer_index]; [false] when a name does not fit its array. *)
Fixpoint host_points (n : nat) (hk : hashkit_st) (weighted spy : bool) (host : Instance_)
    (host_index pointer_index : Z) (c : list memcached_continuum_item_st) (continuum_index : Z)
    : outcome (bool * list memcached_continuum_item_st * Z) :=
  match n with
  | O => Ret (true, c, continuum_index)
  | S n' =>
    let name := sort_host spy host pointer_index in
    if sizeof_sort_host spy <=? size name then Ret (false, c, continuum_index) else
    let? values := point_values hk weighted name in
    let? r := put_points c continuum_index host_index values in
    let '(c, continuum_index) := r in
    host_points n' hk weighted spy host host_index (pointer_index + 1) c continuum_index
  end.

(** A server with a retry delay does not count while hosts are ejected. *)
Definition is_live (ejecting : bool) (now : Z) (host : Instance_) : bool :=
  negb ejecting || (next_retry host <=? now).

Definition live_servers (ejecting : bool) (now : Z) (list : list Instance_) : Z :=
  Z.of_nat (List.length (List.filter (is_live ejecting now) list)).

(** The earliest retry of the servers that are not live. *)
Definition next_rebuild (now : Z) (list : list Instance_) : Z :=
  fold_left (fun acc host =>
    if next_retry host <=? now then acc
    else if (acc =? 0) || (next_retry host <? acc) then next_retry host else acc) list 0.

Definition total_weight (ejecting : bool) (now : Z) (list : list Instance_) : Z :=
  fold_left (fun acc host => if is_live ejecting now host then (acc + weight host) mod 2 ^ 64 else acc) list 0.

(** What the loop over the hosts carries: [pointer_per_server], the array, the index of the
    next point and [pointer_counter]. *)
Record build := mkBuild {
  pointer_per_server : Z;
  points : list memcached_continuum_item_st;
  continuum_index : Z;
  pointer_counter : Z;
}.

Section Loop.
Context (hk : hashkit_st) (weighted spy ejecting : bool) (now live total : Z).

(** One host: [false] when a name does not fit. *)
Definition host_step (host : Instance_) (host_index : Z) (b : build) : outcome (bool * build) :=
  if negb (is_live ejecting now host) then Ret (true, b) else
  let? pps := if weighted then Float.weighted_points (weight host) total live else Ret (pointer_per_server b) in
  let pointer_per_hash := if weighted then 4 else 1 in
  let? r := host_points (Z.to_nat (pps / pointer_per_hash)) hk weighted spy host host_index
              (if spy then 0 else 1) (points b) (continuum_index b) in
  let '(fits, c, ci) := r in
  Ret (fits, mkBuild pps c ci (if fits then u32 (pointer_counter b + pps) else pointer_counter b)).

Fixpoint hosts_loop (hosts : list Instance_) (host_index : Z) (b : build) : outcome (bool * build) :=
  match hosts with
  | [] => Ret (true, b)
  | host :: hosts' =>
    let? r := host_step host host_index b in
    let '(fits, b) := r in
    if fits then hosts_loop hosts' (host_index + 1) b else Ret (false, b)
  end.
End Loop.

Section Environment.
(** [gettimeofday] ([None] when it fails), whether memory is granted, and what it holds. *)
Context (clock : option Z) (granted : bool) (junk : nat -> memcached_continuum_item_st).

(** [realloc] of the array to [n] items. *)
Definition resize_items (c : list memcached_continuum_item_st) (n : nat) : list memcached_continuum_item_st :=
  take n c ++ map junk (seq (List.length c) (n - List.length c)).

Definition update_continuum (ptr : Memcached) : outcome (memcached_return_t * Memcached) :=
  match clock with
  | None => Ret (MEMCACHED_ERRNO, ptr)
  | Some now =>
    let k := ketama ptr in
    let list := servers ptr in
    let is_auto_ejecting := auto_eject_hosts (flags ptr) in
    let live := live_servers is_auto_ejecting now list in
    let rebuild := if is_auto_ejecting then next_rebuild now list else next_distribution_rebuild k in
    let points_per_server :=
      if weighted_ k then MEMCACHED_POINTS_PER_SERVER_KETAMA else MEMCACHED_POINTS_PER_SERVER in
    let grown c count counter := with_ketama ptr (mkKetama (weighted_ k) count counter rebuild c) in
    if live =? 0 then
      Ret (MEMCACHED_SUCCESS, grown (continuum k) (continuum_count k) (continuum_points_counter k)) else
    let must_grow := continuum_count k <? live in
    if must_grow && negb granted then
      Ret (MEMCACHED_MEMORY_ALLOCATION_FAILURE,
           grown (continuum k) (continuum_count k) (continuum_points_counter k)) else
    let c := if must_grow
             then resize_items (continuum k)
                    (Z.to_nat (u32 ((live + MEMCACHED_CONTINUUM_ADDITION) * points_per_server)))
             else continuum k in
    let count := if must_grow then u32 (live + MEMCACHED_CONTINUUM_ADDITION) else continuum_count k in
    let? _ := assert_msg (negb (Nat.eqb (List.length c) 0)) in
    let spy := bool_decide (distribution ptr = MEMCACHED_DISTRIBUTION_CONSISTENT_KETAMA_SPY) in
    let total := if weighted_ k then total_weight is_auto_ejecting now list else 0 in
    let? r := hosts_loop (hashkit ptr) (weighted_ k) spy is_auto_ejecting now live total list 0
                (mkBuild MEMCACHED_POINTS_PER_SERVER c 0 0) in
    let '(fits, b) := r in
    if negb fits then
      Ret (MEMCACHED_MEMORY_ALLOCATION_FAILURE, grown (points b) count (continuum_points_counter k)) else
    let? _ := assert_msg (u32 (memcached_server_count ptr * MEMCACHED_POINTS_PER_SERVER) <=? MEMCACHED_CONTINUUM_SIZE) in
    let n := Z.to_nat (pointer_counter b) in
    if Nat.ltb (List.length (points b)) n then Stuck Undefined else
    Ret (MEMCACHED_SUCCESS, grown (qsort (take n (points b)) ++ drop n (points b)) count (pointer_counter b))
  end.
End Environment.
End Continuum.
