(* ===== verification/Distribution.v ===== *)
(** * Servers and keys: the rest of hosts.cc, hash.cc and virtual_bucket.c

    Adding servers, running the distribution, and the server of a key. The null pointer for
    a client is [None]. *)

From stdpp Require Import base list numbers sorting.
From Stdlib Require Import ZArith Lia Ascii String.
From S2P Require Import Prelude CxxString HashWords HashMd5 HashSmall HashkitString Rijndael Aes HashKit.
From S2P Require Import ClientTypes Continuum.

(** ** virtual_bucket.c *)

(** [host_map] and [forward_map] are arrays of [buckets] items; [None] is a null pointer. *)
Definition memcached_virtual_bucket_create (granted : bool) (self : option Memcached)
    (host_map forward_map : option (list Z)) (nbuckets nreplicas : Z)
    : memcached_return_t * option Memcached :=
  match self, host_map with
  | Some ptr, Some hosts =>
    if nbuckets =? 0 then (MEMCACHED_INVALID_ARGUMENTS, self) else
    if negb granted then (MEMCACHED_MEMORY_ALLOCATION_FAILURE, Some (with_virtual_bucket ptr None)) else
    let bucket x := mkBucket (aget hosts x) (match forward_map with Some f => aget f x | None => 0 end) in
    (MEMCACHED_SUCCESS,
     Some (with_virtual_bucket ptr (Some (mkVirtualBucket nreplicas (map bucket (seqZ 0 nbuckets))))))
  | _, _ => (MEMCACHED_INVALID_ARGUMENTS, self)
  end.

Definition memcached_virtual_bucket_free (self : Memcached) : Memcached := with_virtual_bucket self None.

Definition memcached_virtual_bucket_get (self : Memcached) (digest : Z) : Z :=
  match virtual_bucket self with
  | Some v =>
    let result := Z.land digest (u32 (Z.of_nat (List.length (buckets v)) - 1)) in
    master (aget (buckets v) result)
  | None => 0
  end.

(** ** Sorting the hosts *)

(** The sign of [strcmp] on strings without a null character. *)
Fixpoint strcmp (a b : cstring) : Z :=
  match a, b with
  | [], [] => 0
  | [], _ :: _ => -1
  | _ :: _, [] => 1
  | x :: a', y :: b' =>
    if uchar x <? uchar y then -1 else if uchar y <? uchar x then 1 else strcmp a' b'
  end.

Definition compare_servers (a b : Instance_) : Z :=
  let return_value := strcmp (_hostname a) (_hostname b) in
  if return_value =? 0 then port_ a - port_ b else return_value.

(** [qsort] on the list of servers. *)
Class SortHosts := {
  sort_servers : list Instance_ -> list Instance_;
  sort_servers_perm : forall l, sort_servers l ≡ₚ l;
}.

Section Distribution.
Context `{DM : DataModel} `{HC : HashConfig} `{CF : ClientConfig} `{QS : Qsort} `{SH : SortHosts}.
Context (garbage : list Z) (client : Z -> KeyPtr -> Z -> outcome Z).
Context (stack_addr : Z) (stack_rest : nat -> ascii).
Context (clock : option Z) (granted : bool) (junk : nat -> memcached_continuum_item_st).

Definition sort_hosts (ptr : Memcached) : Memcached :=
  if memcached_server_count ptr =? 0 then ptr else with_servers ptr (sort_servers (servers ptr)).

(** The part of [run_distribution] that follows the sorting. *)
Definition rebuild_distribution (ptr : Memcached) : outcome (memcached_return_t * Memcached) :=
  match distribution ptr with
  | MEMCACHED_DISTRIBUTION_CONSISTENT | MEMCACHED_DISTRIBUTION_CONSISTENT_KETAMA
  | MEMCACHED_DISTRIBUTION_CONSISTENT_KETAMA_SPY | MEMCACHED_DISTRIBUTION_CONSISTENT_WEIGHTED =>
    update_continuum garbage client stack_addr stack_rest clock granted junk ptr
  | MEMCACHED_DISTRIBUTION_VIRTUAL_BUCKET | MEMCACHED_DISTRIBUTION_MODULA
  | MEMCACHED_DISTRIBUTION_RANDOM => Ret (MEMCACHED_SUCCESS, ptr)
  | MEMCACHED_DISTRIBUTION_CONSISTENT_MAX => let? _ := assert_msg false in Ret (MEMCACHED_SUCCESS, ptr)
  end.

Definition run_distribution (ptr : Memcached) : outcome (memcached_return_t * Memcached) :=
  rebuild_distribution (if use_sort_hosts (flags ptr) then sort_hosts ptr else ptr).

(** ** hash.cc *)

Definition generate_hash (ptr : Memcached) (key : KeyPtr) : outcome Z :=
  hashkit_digest garbage client (hashkit ptr) key.

Definition memcached_generate_hash_value (key : KeyPtr) (algo : memcached_hash_t) : outcome Z :=
  libhashkit_digest garbage client key algo.

(** [while (left < right) { ... }] on offsets into the array. *)
Fixpoint search (fuel : nat) (c : list memcached_continuum_item_st) (hash left right : Z) : outcome Z :=
  match fuel with
  | O => Stuck OutOfFuel
  | S fuel' =>
    if left <? right then
      let middle := left + (right - left) / 2 in
      match c !! Z.to_nat middle with
      | None => Stuck Undefined
      | Some item =>
        if value item <? hash then search fuel' c hash (middle + 1) right
        else search fuel' c hash left middle
      end
    else Ret right
  end.

(** [random_value] is what [random()] returns. *)
Definition dispatch_host (random_value : Z) (ptr : Memcached) (hash : Z) : outcome Z :=
  let modulo n := if memcached_server_count ptr =? 0 then Stuck Undefined
                  else Ret (n mod memcached_server_count ptr) in
  match distribution ptr with
  | MEMCACHED_DISTRIBUTION_CONSISTENT | MEMCACHED_DISTRIBUTION_CONSISTENT_WEIGHTED
  | MEMCACHED_DISTRIBUTION_CONSISTENT_KETAMA | MEMCACHED_DISTRIBUTION_CONSISTENT_KETAMA_SPY =>
    let num := continuum_points_counter (ketama ptr) in
    let c := continuum (ketama ptr) in
    let? r := search (S (Z.to_nat num)) c hash 0 num in
    let r := if r =? num then 0 else r in
    match c !! Z.to_nat r with None => Stuck Undefined | Some item => Ret (index item) end
  | MEMCACHED_DISTRIBUTION_MODULA => modulo hash
  | MEMCACHED_DISTRIBUTION_RANDOM => modulo (u32 random_value)
  | MEMCACHED_DISTRIBUTION_VIRTUAL_BUCKET => Ret (memcached_virtual_bucket_get ptr hash)
  | MEMCACHED_DISTRIBUTION_CONSISTENT_MAX => modulo hash
  end.

(** [strncpy(dest, src, n)]: up to a null character, then nulls. *)
Definition strncpy (src : cstring) (n : nat) : cstring :=
  let fix go n s := match n, s with
    | O, _ => []
    | S n', [] => zero :: go n' []
    | S n', c :: s' => if Ascii.eqb c zero then zero :: go n' [] else c :: go n' s'
    end in go n src.

Definition _generate_hash_wrapper (ptr : Memcached) (key : KeyPtr) : outcome Z :=
  if memcached_server_count ptr =? 1 then Ret 0 else
  if hash_with_namespace (flags ptr) then
    let temp_length := size (_namespace ptr) + size (key_bytes key) in
    if MEMCACHED_MAX_KEY - 1 <? temp_length then Ret 0 else
    generate_hash ptr (local_key stack_addr stack_rest
      (strncpy (_namespace ptr) (List.length (_namespace ptr))
       ++ strncpy (key_bytes key) (List.length (key_bytes key))))
  else generate_hash ptr key.

(** [now] is this function's own reading of the clock. *)
Definition _regen_for_auto_eject (now : option Z) (ptr : Memcached) : outcome Memcached :=
  if auto_eject_hosts (flags ptr) && negb (next_distribution_rebuild (ketama ptr) =? 0) then
    match now with
    | Some t => if next_distribution_rebuild (ketama ptr) <? t
                then let? r := run_distribution ptr in Ret (snd r) else Ret ptr
    | None => Ret ptr
    end
  else Ret ptr.

Definition memcached_autoeject : option Z -> Memcached -> outcome Memcached := _regen_for_auto_eject.

Definition memcached_generate_hash_with_redistribution (now : option Z) (random_value : Z)
    (ptr : Memcached) (key : KeyPtr) : outcome (Z * Memcached) :=
  let? hash := _generate_hash_wrapper ptr key in
  let? ptr := _regen_for_auto_eject now ptr in
  let? server := dispatch_host random_value ptr hash in
  Ret (server, ptr).

Definition memcached_generate_hash (random_value : Z) (shell : option Memcached) (key : KeyPtr) : outcome Z :=
  match shell with
  | Some ptr => let? hash := _generate_hash_wrapper ptr key in dispatch_host random_value ptr hash
  | None => Ret (UINT_MOD - 1)
  end.

(** ** Adding servers *)

Definition memcached_is_consistent_distribution (memc : Memcached) : bool :=
  match distribution memc with
  | MEMCACHED_DISTRIBUTION_CONSISTENT | MEMCACHED_DISTRIBUTION_CONSISTENT_KETAMA
  | MEMCACHED_DISTRIBUTION_CONSISTENT_KETAMA_SPY | MEMCACHED_DISTRIBUTION_CONSISTENT_WEIGHTED => true
  | MEMCACHED_DISTRIBUTION_MODULA | MEMCACHED_DISTRIBUTION_RANDOM
  | MEMCACHED_DISTRIBUTION_VIRTUAL_BUCKET | MEMCACHED_DISTRIBUTION_CONSISTENT_MAX => false
  end.

Definition memcached_is_valid_servername (arg : cstring) : bool := size arg <? MEMCACHED_NI_MAXHOST.
Definition memcached_is_valid_filename (arg : cstring) : bool :=
  (0 <? size arg) && (size arg <? MEMCACHED_NI_MAXHOST).

(** The members that the distribution reads; [None] for an invalid name. *)
Definition __instance_create_with (hostname : cstring) (port weight : Z) : option Instance_ :=
  if memcached_is_valid_servername hostname
  then Some (mkInstance hostname port (if weight =? 0 then 1 else weight) 0) else None.

(** Memory for the list of servers, and the instances it holds before they are created. *)
Context (list_granted : bool) (junk_instance : nat -> Instance_).

Definition server_add (memc : Memcached) (hostname : cstring) (port weight : Z)
    : outcome (memcached_return_t * Memcached) :=
  if negb list_granted then Ret (MEMCACHED_MEMORY_ALLOCATION_FAILURE, memc) else
  match __instance_create_with hostname port weight with
  | None => Ret (MEMCACHED_MEMORY_ALLOCATION_FAILURE, with_servers memc (servers memc ++ [junk_instance 0]))
  | Some instance =>
    let memc := with_servers memc (servers memc ++ [instance]) in
    let memc := if (1 <? weight) && memcached_is_consistent_distribution memc
                then memcached_set_weighted_ketama memc true else memc in
    run_distribution memc
  end.

(** The loop of [memcached_server_push] and of [memcached_instance_push]: [false] when an
    instance cannot be created. *)
Fixpoint create_instances (ptr : Memcached) (hosts : list Instance_) : bool * Memcached :=
  match hosts with
  | [] => (true, ptr)
  | h :: hosts' =>
    match __instance_create_with (_hostname h) (port_ h) (weight h) with
    | None => (false, with_servers ptr (servers ptr ++ map junk_instance (seq 0 (List.length hosts))))
    | Some instance =>
      let ptr := with_servers ptr (servers ptr ++ [instance]) in
      let ptr := if 1 <? weight h then memcached_set_weighted_ketama ptr true else ptr in
      create_instances ptr hosts'
    end
  end.

Definition memcached_instance_push (ptr : Memcached) (hosts : list Instance_)
    : outcome (memcached_return_t * Memcached) :=
  if negb list_granted then Ret (MEMCACHED_MEMORY_ALLOCATION_FAILURE, ptr) else
  let '(ok, ptr) := create_instances ptr hosts in
  if ok then run_distribution ptr else Ret (MEMCACHED_MEMORY_ALLOCATION_FAILURE, ptr).

(** [None] is a null list. *)
Definition memcached_server_push (shell : option Memcached) (hosts : option (list Instance_))
    : outcome (memcached_return_t * option Memcached) :=
  match hosts, shell with
  | None, _ => Ret (MEMCACHED_SUCCESS, shell)
  | Some hosts, Some ptr =>
    let? r := memcached_instance_push ptr hosts in Ret (fst r, Some (snd r))
  | Some _, None => Ret (MEMCACHED_INVALID_ARGUMENTS, None)
  end.

Definition memcached_server_add_with_weight (shell : option Memcached) (hostname : option cstring)
    (port weight : Z) : outcome (memcached_return_t * option Memcached) :=
  match shell with
  | None => Ret (MEMCACHED_INVALID_ARGUMENTS, None)
  | Some ptr =>
    let port := if port =? 0 then MEMCACHED_DEFAULT_PORT else port in
    let hostname := match hostname with None | Some [] => lit "localhost" | Some h => h end in
    if negb (memcached_is_valid_servername hostname) then Ret (MEMCACHED_INVALID_ARGUMENTS, shell) else
    let? r := server_add ptr hostname port weight in Ret (fst r, Some (snd r))
  end.

Definition memcached_server_add (shell : option Memcached) (hostname : option cstring) (port : Z)
    : outcome (memcached_return_t * option Memcached) :=
  memcached_server_add_with_weight shell hostname port 0.

Definition memcached_server_add_unix_socket_with_weight (shell : option Memcached) (filename : cstring)
    (weight : Z) : outcome (memcached_return_t * option Memcached) :=
  match shell with
  | None => Ret (MEMCACHED_FAILURE, None)
  | Some ptr =>
    if negb (memcached_is_valid_filename filename) then Ret (MEMCACHED_INVALID_ARGUMENTS, shell) else
    let? r := server_add ptr filename 0 weight in Ret (fst r, Some (snd r))
  end.

Definition memcached_server_add_unix_socket (ptr : option Memcached) (filename : cstring)
    : outcome (memcached_return_t * option Memcached) :=
  memcached_server_add_unix_socket_with_weight ptr filename 0.

Definition memcached_server_add_udp_with_weight (shell : option Memcached) : memcached_return_t :=
  match shell with Some _ => MEMCACHED_DEPRECATED | None => MEMCACHED_INVALID_ARGUMENTS end.
Definition memcached_server_add_udp (ptr : option Memcached) : memcached_return_t :=
  memcached_server_add_udp_with_weight ptr.

(** The name is copied to an array of MEMCACHED_NI_MAXHOST characters, with a null. *)
Definition memcached_server_add_parsed (ptr : Memcached) (hostname : cstring) (port weight : Z)
    : outcome (memcached_return_t * Memcached) :=
  if size hostname <? MEMCACHED_NI_MAXHOST then server_add ptr hostname port weight else Stuck Undefined.

(** memcached.cc: the count of the array is left as it is. *)
Definition memcached_servers_reset (self : Memcached) : Memcached :=
  let k := ketama self in
  with_servers (with_ketama self (mkKetama (weighted_ k) (continuum_count k) (continuum_points_counter k)
    (next_distribution_rebuild k) [])) [].
End Distribution.

(** ** The hash functions of a client *)

Section Hashkit.
Context `{DM : DataModel} `{AL : Allocator}.

Definition memcached_get_hashkit (shell : option Memcached) : option hashkit_st := option_map hashkit shell.

(** The member cannot be given back to [free], so an object that says it was allocated is a
    fault. *)
Definition memcached_set_hashkit (shell : option Memcached) (hashk : option hashkit_st)
    : ST nat (memcached_return_t * option Memcached) :=
  match shell with
  | None => ret (MEMCACHED_INVALID_ARGUMENTS, None)
  | Some self =>
    let* rest := lift (hashkit_free (Some (hashkit self))) in
    match rest with
    | None => stuck Undefined
    | Some h =>
      let* clone := hashkit_clone true hashk in
      ret (MEMCACHED_SUCCESS, Some (with_hashkit self (default h clone)))
    end
  end.
End Hashkit.
