(* ===== verification/ClientState.v ===== *)
(** * The running client of libmemcached: state, system calls and errors

    What a client has besides its configuration (ClientTypes): per server the socket, its two
    buffers and counters (instance.hpp), for the whole client the error list, the result
    buffer and the flags that stop recursion. The kernel's side of a socket is a list of
    results for each system call. Statistics counters ([io_wait_count]), the text of error
    messages and [last_disconnected_server] are left out. *)

From stdpp Require Import base list.
From Stdlib Require Import ZArith Ascii.
From S2P Require Import Prelude CxxString HashWords HashKit HashkitString Continuum ClientTypes ClientString.

(** ** The kernel's side of a connection *)

Inductive errno_t :=
  | E_OK | EINTR | EAGAIN | ETIMEDOUT | ERESTART | ENOTCONN | ENOTSOCK | EBADF | EINVAL | EFAULT
  | ECONNREFUSED | ECONNRESET | ENOMEM | ENOBUFS | EPIPE | ERANGE | EMSGSIZE | EINPROGRESS | EALREADY | EISCONN
  | EOTHER.

#[export] Instance errno_eq_dec : EqDecision errno_t.
Proof. solve_decision. Defined.

(** Bytes that have arrived (none of them: the peer has closed), or an error. *)
Inductive recv_event := RecvBytes (bytes : cstring) | RecvError (e : errno_t).
(** How many bytes the kernel takes at most, or an error. *)
Inductive send_event := SendUpTo (n : nat) | SendError (e : errno_t).
(** What [poll] says about the one descriptor: ready, POLLHUP, POLLERR with what [getsockopt]
    then reports ([None] when it fails), another event, no event in time, an error. *)
Inductive poll_event :=
  | PollReady | PollHangup | PollErr (so_error : option errno_t) | PollOther | PollTimeout | PollFails (e : errno_t).

(** The results to come, and the bytes the kernel has taken so far. *)
Record Socket := mkSocket {
  recvs : list recv_event;
  sends : list send_event;
  polls : list poll_event;
  wire : cstring;
}.

(** What [socket] and [connect] do at an attempt to reach the server: no socket, or a socket and
    the error of [connect], if any. *)
Inductive dial_event := DialNoSocket (e : errno_t) | DialSocket (s : Socket) (connect : option errno_t).

(** ** One server: [org::libmemcached::Instance] *)

Inductive memcached_server_state_t :=
  | MEMCACHED_SERVER_STATE_NEW
  | MEMCACHED_SERVER_STATE_ADDRINFO
  | MEMCACHED_SERVER_STATE_IN_PROGRESS
  | MEMCACHED_SERVER_STATE_CONNECTED
  | MEMCACHED_SERVER_STATE_IN_TIMEOUT
  | MEMCACHED_SERVER_STATE_DISABLED.

#[export] Instance server_state_eq_dec : EqDecision memcached_server_state_t.
Proof. solve_decision. Defined.

Definition MEMCACHED_MAX_BUFFER : Z := 8196.

(** [read_ptr] is an offset from [read_buffer], an array of [MEMCACHED_MAX_BUFFER] characters. *)
Record ReadBuffer := mkRead {
  read_buffer : cstring;
  read_ptr : Z;
  read_buffer_length : Z;
  read_data_length : Z;
}.

(** Only the characters before [write_buffer_offset] are ever read: they are the list. *)
Definition WriteBuffer : Type := cstring.

Record memcached_error_t := mkError { err_query_id : Z; err_rc : memcached_return_t; local_errno : errno_t }.

Inductive memcached_connection_t := MEMCACHED_CONNECTION_TCP | MEMCACHED_CONNECTION_UDP | MEMCACHED_CONNECTION_UNIX_SOCKET.

(** How the server is reached: [address_info] is the list that [getaddrinfo] returned (of each
    address whether its family is AF_INET), [address_info_next] the part that has not been tried,
    [dials] the attempts to come. *)
Record Dial := mkDial {
  conn_type : memcached_connection_t;
  address_info : option (list bool);
  address_info_next : list bool;
  dials : list dial_event;
}.

Record Inst := mkInst {
  position : nat;
  fd : bool;
  net : Socket;
  rd : ReadBuffer;
  write_buffer : WriteBuffer;
  cursor_active_ : Z;
  io_bytes_sent : Z;
  server_state : memcached_server_state_t;
  is_shutting_down : bool;
  server_failure_counter : Z;
  server_failure_counter_query_id : Z;
  versions : Z * Z * Z;
  request_id : Z;
  dial : Dial;
  error_messages : list memcached_error_t;
}.

Definition write_buffer_offset (i : Inst) : Z := size (write_buffer i).

(** ** The client *)

(** [Result] of result.h; [item_key] is an array of [MEMCACHED_MAX_KEY] characters, the list its
    first [key_length]. *)
Record Result := mkResult {
  item_key : cstring;
  item_flags : Z;
  item_cas : Z;
  item_expiration : Z;
  res_value : memcached_string_st;
  numeric_value : Z;
  res_count : Z;
}.

Definition UINT64_MAX : Z := 18446744073709551615.

(** The constructor of [Result]; the string asks for no memory. *)
Definition new_Result : Result := mkResult [] 0 0 0 _init_string UINT64_MAX 0.

(** [filename] is [configure.filename]. [callbacks] is left out: only memcached_mget_execute sets
    it, and only for the binary protocol. [allocs] counts requests for memory, [ticks] calls of [gettimeofday]. *)
Record Root := mkRoot {
  memc : Memcached;
  query_id : Z;
  is_purging : bool;
  is_processing_input : bool;
  root_errors : list memcached_error_t;
  result : Result;
  allocs : nat;
  ticks : nat;
  errno : errno_t;
  filename : option cstring;
}.

(** A call on one server, which may use its client: the state of [instance] and of
    [instance->root]. *)
Record Ctx := mkCtx { root : Root; inst : Inst }.
Abbreviation IO := (ST Ctx).

(** ** Updates of single members *)

Definition upd_net (f : Socket -> Socket) (i : Inst) : Inst :=
  mkInst (position i) (fd i) (f (net i)) (rd i) (write_buffer i) (cursor_active_ i) (io_bytes_sent i) (server_state i)
    (is_shutting_down i) (server_failure_counter i) (server_failure_counter_query_id i) (versions i) (request_id i) (dial i) (error_messages i).
Definition set_rd (r : ReadBuffer) (i : Inst) : Inst :=
  mkInst (position i) (fd i) (net i) r (write_buffer i) (cursor_active_ i) (io_bytes_sent i) (server_state i)
    (is_shutting_down i) (server_failure_counter i) (server_failure_counter_query_id i) (versions i) (request_id i) (dial i) (error_messages i).
Definition set_write_buffer (w : cstring) (i : Inst) : Inst :=
  mkInst (position i) (fd i) (net i) (rd i) w (cursor_active_ i) (io_bytes_sent i) (server_state i)
    (is_shutting_down i) (server_failure_counter i) (server_failure_counter_query_id i) (versions i) (request_id i) (dial i) (error_messages i).
Definition set_cursor (c : Z) (i : Inst) : Inst :=
  mkInst (position i) (fd i) (net i) (rd i) (write_buffer i) c (io_bytes_sent i) (server_state i)
    (is_shutting_down i) (server_failure_counter i) (server_failure_counter_query_id i) (versions i) (request_id i) (dial i) (error_messages i).
Definition set_io_bytes_sent (n : Z) (i : Inst) : Inst :=
  mkInst (position i) (fd i) (net i) (rd i) (write_buffer i) (cursor_active_ i) n (server_state i)
    (is_shutting_down i) (server_failure_counter i) (server_failure_counter_query_id i) (versions i) (request_id i) (dial i) (error_messages i).
Definition set_versions (v : Z * Z * Z) (i : Inst) : Inst :=
  mkInst (position i) (fd i) (net i) (rd i) (write_buffer i) (cursor_active_ i) (io_bytes_sent i) (server_state i)
    (is_shutting_down i) (server_failure_counter i) (server_failure_counter_query_id i) v (request_id i) (dial i) (error_messages i).
Definition set_shutting_down (b : bool) (i : Inst) : Inst :=
  mkInst (position i) (fd i) (net i) (rd i) (write_buffer i) (cursor_active_ i) (io_bytes_sent i) (server_state i)
    b (server_failure_counter i) (server_failure_counter_query_id i) (versions i) (request_id i) (dial i) (error_messages i).
Definition set_failures (n q : Z) (i : Inst) : Inst :=
  mkInst (position i) (fd i) (net i) (rd i) (write_buffer i) (cursor_active_ i) (io_bytes_sent i) (server_state i)
    (is_shutting_down i) n q (versions i) (request_id i) (dial i) (error_messages i).
Definition set_state (s : memcached_server_state_t) (i : Inst) : Inst :=
  mkInst (position i) (fd i) (net i) (rd i) (write_buffer i) (cursor_active_ i) (io_bytes_sent i) s
    (is_shutting_down i) (server_failure_counter i) (server_failure_counter_query_id i) (versions i) (request_id i) (dial i) (error_messages i).
Definition set_request_id (n : Z) (i : Inst) : Inst :=
  mkInst (position i) (fd i) (net i) (rd i) (write_buffer i) (cursor_active_ i) (io_bytes_sent i) (server_state i)
    (is_shutting_down i) (server_failure_counter i) (server_failure_counter_query_id i) (versions i) n (dial i) (error_messages i).
Definition set_dial (d : Dial) (i : Inst) : Inst :=
  mkInst (position i) (fd i) (net i) (rd i) (write_buffer i) (cursor_active_ i) (io_bytes_sent i) (server_state i)
    (is_shutting_down i) (server_failure_counter i) (server_failure_counter_query_id i) (versions i) (request_id i) d (error_messages i).
Definition set_errors (e : list memcached_error_t) (i : Inst) : Inst :=
  mkInst (position i) (fd i) (net i) (rd i) (write_buffer i) (cursor_active_ i) (io_bytes_sent i) (server_state i)
    (is_shutting_down i) (server_failure_counter i) (server_failure_counter_query_id i) (versions i) (request_id i) (dial i) e.

Definition set_memc (m : Memcached) (r : Root) : Root :=
  mkRoot m (query_id r) (is_purging r) (is_processing_input r) (root_errors r) (result r) (allocs r) (ticks r) (errno r) (filename r).
Definition set_query_id (q : Z) (r : Root) : Root :=
  mkRoot (memc r) q (is_purging r) (is_processing_input r) (root_errors r) (result r) (allocs r) (ticks r) (errno r) (filename r).
Definition set_purging (b : bool) (r : Root) : Root :=
  mkRoot (memc r) (query_id r) b (is_processing_input r) (root_errors r) (result r) (allocs r) (ticks r) (errno r) (filename r).
Definition set_root_errors (e : list memcached_error_t) (r : Root) : Root :=
  mkRoot (memc r) (query_id r) (is_purging r) (is_processing_input r) e (result r) (allocs r) (ticks r) (errno r) (filename r).
Definition set_result (x : Result) (r : Root) : Root :=
  mkRoot (memc r) (query_id r) (is_purging r) (is_processing_input r) (root_errors r) x (allocs r) (ticks r) (errno r) (filename r).
Definition set_allocs (n : nat) (r : Root) : Root :=
  mkRoot (memc r) (query_id r) (is_purging r) (is_processing_input r) (root_errors r) (result r) n (ticks r) (errno r) (filename r).
Definition set_ticks (n : nat) (r : Root) : Root :=
  mkRoot (memc r) (query_id r) (is_purging r) (is_processing_input r) (root_errors r) (result r) (allocs r) n (errno r) (filename r).
Definition set_errno (e : errno_t) (r : Root) : Root :=
  mkRoot (memc r) (query_id r) (is_purging r) (is_processing_input r) (root_errors r) (result r) (allocs r) (ticks r) e (filename r).

Definition on_inst (f : Inst -> Inst) : IO unit := modify (fun c => mkCtx (root c) (f (inst c))).
Definition on_root (f : Root -> Root) : IO unit := modify (fun c => mkCtx (f (root c)) (inst c)).
Definition geti {A} (f : Inst -> A) : IO A := gets (fun c => f (inst c)).
Definition getr {A} (f : Root -> A) : IO A := gets (fun c => f (root c)).
Definition conf {A} (f : Memcached -> A) : IO A := gets (fun c => f (memc (root c))).

(** A computation that asks for memory. *)
Definition with_allocs {A} (m : ST nat A) : IO A := fun c =>
  let '(o, k) := m (allocs (root c)) in (o, mkCtx (set_allocs k (root c)) (inst c)).

(** ** Return values: libmemcached-1.2/return.h *)

Definition memcached_success (rc : memcached_return_t) : bool :=
  bool_decide (rc ∈ [MEMCACHED_BUFFERED; MEMCACHED_DELETED; MEMCACHED_END; MEMCACHED_ITEM; MEMCACHED_STAT;
    MEMCACHED_STORED; MEMCACHED_SUCCESS; MEMCACHED_VALUE]).
Definition memcached_failed (rc : memcached_return_t) : bool :=
  bool_decide (rc ∉ [MEMCACHED_SUCCESS; MEMCACHED_END; MEMCACHED_STORED; MEMCACHED_STAT; MEMCACHED_DELETED;
    MEMCACHED_BUFFERED; MEMCACHED_VALUE]).
Definition memcached_fatal (rc : memcached_return_t) : bool :=
  bool_decide (rc ∉ [MEMCACHED_BUFFERED; MEMCACHED_CLIENT_ERROR; MEMCACHED_DATA_EXISTS; MEMCACHED_DELETED;
    MEMCACHED_E2BIG; MEMCACHED_END; MEMCACHED_ITEM; MEMCACHED_ERROR; MEMCACHED_NOTFOUND; MEMCACHED_NOTSTORED;
    MEMCACHED_SERVER_MEMORY_ALLOCATION_FAILURE; MEMCACHED_STAT; MEMCACHED_STORED; MEMCACHED_SUCCESS; MEMCACHED_VALUE]).
Definition rc_eqb (a b : memcached_return_t) : bool := bool_decide (a = b).

(** ** Errors: error.cc *)

(** What [gettimeofday] returns at each call. *)
Class Clock := { timeofday : nat -> option Z }.

Section Errors.
Context `{DM : DataModel} `{AL : Allocator} `{CF : ClientConfig} `{CK : Clock}.

Definition assert_io (b : bool) : IO unit := lift (assert_msg b).

(** [sizeof(memcached_error_t)] *)
Definition sizeof_error : Z := 3 * sizeof_ulong + 16 + 2048.

Definition alloc (n : Z) : IO bool := fun c =>
  (Ret (grants (allocs (root c)) n), mkCtx (set_allocs (S (allocs (root c))) (root c)) (inst c)).

Definition stale (q : Z) (es : list memcached_error_t) : bool :=
  match es with e :: _ => negb (err_query_id e =? q) | [] => false end.

(** [_set] on the client: the code that is kept, which [rc] becomes as well. *)
Definition set_rc (rc : memcached_return_t) (local_errno errno : errno_t) : memcached_return_t * errno_t :=
  let rc := if bool_decide (local_errno = ENOMEM) && rc_eqb rc MEMCACHED_ERRNO
            then MEMCACHED_MEMORY_ALLOCATION_FAILURE else rc in
  let local_errno := if rc_eqb rc MEMCACHED_MEMORY_ALLOCATION_FAILURE then ENOMEM else local_errno in
  let local_errno := if rc_eqb rc MEMCACHED_ERRNO && bool_decide (local_errno = E_OK) then errno else local_errno in
  let rc := if rc_eqb rc MEMCACHED_ERRNO && bool_decide (local_errno ∈ [ENOTCONN; ECONNRESET])
            then MEMCACHED_CONNECTION_FAILURE else rc in
  let rc := if bool_decide (local_errno = EINVAL) then MEMCACHED_INVALID_ARGUMENTS else rc in
  let rc := if bool_decide (local_errno = ECONNREFUSED) then MEMCACHED_CONNECTION_FAILURE else rc in
  (rc, local_errno).

Definition _set_root (rc : memcached_return_t) (local_errno : errno_t) : IO memcached_return_t :=
  let* q := getr query_id in
  let* es := getr root_errors in
  (if stale q es then on_root (set_root_errors []) else ret tt) ;;;
  let* e := getr errno in
  let '(rc, local_errno) := set_rc rc local_errno e in
  let* granted := alloc sizeof_error in
  (if granted then on_root (fun r => set_root_errors (mkError (query_id r) rc local_errno :: root_errors r) r)
   else ret tt) ;;;
  ret rc.

(** [_set] on the server: it copies the client's newest error. *)
Definition _set_instance : IO unit :=
  let* q := getr query_id in
  let* es := geti error_messages in
  (if stale q es then on_inst (set_errors []) else ret tt) ;;;
  let* rs := getr root_errors in
  match rs with
  | [] => ret tt
  | e :: _ =>
    let* granted := alloc sizeof_error in
    if granted then on_inst (fun i => set_errors (e :: error_messages i) i) else ret tt
  end.

(** The overloads for a client, with and without a message. *)
Definition memcached_set_error_root (rc : memcached_return_t) : IO memcached_return_t :=
  assert_io (negb (rc_eqb rc MEMCACHED_ERRNO)) ;;;
  if memcached_fatal rc then _set_root rc E_OK else ret rc.

(** The overload for a server with a message. *)
Definition memcached_set_error_msg (rc : memcached_return_t) : IO memcached_return_t :=
  assert_io (negb (rc_eqb rc MEMCACHED_ERRNO)) ;;;
  assert_io (negb (rc_eqb rc MEMCACHED_SOME_ERRORS)) ;;;
  if negb (memcached_fatal rc) && negb (rc_eqb rc MEMCACHED_CLIENT_ERROR) then ret rc else
  let* rc := _set_root rc E_OK in
  _set_instance ;;;
  let* rs := getr root_errors in
  let* es := geti error_messages in
  assert_io (match rs, es with r :: _, e :: _ => rc_eqb (err_rc e) (err_rc r) | _, _ => false end) ;;;
  ret rc.

(** The overload for a server without a message. *)
Definition memcached_set_error (rc : memcached_return_t) : IO memcached_return_t :=
  assert_io (negb (rc_eqb rc MEMCACHED_SOME_ERRORS)) ;;;
  if memcached_fatal rc then
    let* rc := _set_root rc E_OK in
    _set_instance ;;; ret rc
  else ret rc.

(** The overloads for a server. *)
Definition memcached_set_errno (e : errno_t) : IO memcached_return_t :=
  if bool_decide (e = E_OK) then ret MEMCACHED_SUCCESS else
  let* rc := _set_root MEMCACHED_ERRNO e in
  _set_instance ;;; ret rc.

(** The overload for a client. *)
Definition memcached_set_errno_root (e : errno_t) : IO memcached_return_t :=
  if bool_decide (e = E_OK) then ret MEMCACHED_SUCCESS else _set_root MEMCACHED_ERRNO e.

Definition memcached_error_free (r : Root) : Root := set_root_errors [] r.

Definition memcached_has_current_error (r : Root) : bool :=
  match root_errors r with
  | e :: _ => (err_query_id e =? query_id r) && memcached_failed (err_rc e)
  | [] => false
  end.

Definition memcached_last_error (r : Root) : memcached_return_t :=
  match root_errors r with e :: _ => err_rc e | [] => MEMCACHED_SUCCESS end.

Definition memcached_last_error_errno (r : Root) : errno_t :=
  match root_errors r with e :: _ => local_errno e | [] => E_OK end.

Definition memcached_instance_error_return (i : Inst) : memcached_return_t :=
  match error_messages i with e :: _ => err_rc e | [] => MEMCACHED_SUCCESS end.

(** ** Closing a connection: io.cc, server.hpp, quit.cc *)

Definition reset_socket (i : Inst) : Inst :=
  mkInst (position i) false (net i) (rd i) (write_buffer i) (cursor_active_ i) (io_bytes_sent i) (server_state i)
    (is_shutting_down i) (server_failure_counter i) (server_failure_counter_query_id i) (versions i) (request_id i) (dial i) (error_messages i).

Definition start_close_socket (i : Inst) : Inst := if fd i then set_shutting_down true i else i.

Definition UDP_DATAGRAM_HEADER_LENGTH : Z := 8.

(** [write_buffer_offset] becomes 0, or the length of the header that every datagram begins with;
    [read_data_length] is kept. *)
Definition close_socket (udp : bool) (i : Inst) : Inst :=
  mkInst (position i) false (net i) (mkRead (read_buffer (rd i)) 0 0 (read_data_length (rd i)))
    (take (if udp then Z.to_nat UDP_DATAGRAM_HEADER_LENGTH else 0%nat) (write_buffer i)) 0 0
    MEMCACHED_SERVER_STATE_NEW false (server_failure_counter i) (server_failure_counter_query_id i)
    (255, 255, 255) (request_id i) (dial i) (error_messages i).

Definition gettimeofday : IO (option Z) := fun c =>
  (Ret (timeofday (ticks (root c))), mkCtx (set_ticks (S (ticks (root c))) (root c)) (inst c)).

(** Sets [next_retry] of server [n]. *)
Definition with_next_retry (t : Z) (n : nat) (m : Memcached) : Memcached :=
  with_servers m (alter (fun s => mkInstance (_hostname s) (port_ s) (weight s) t) n (servers m)).

Definition memcached_mark_server_for_timeout : IO unit :=
  let* st := geti server_state in
  if bool_decide (st = MEMCACHED_SERVER_STATE_IN_TIMEOUT) then ret tt else
  let* now := gettimeofday in
  let* retry := conf (fun m => retry_timeout (limits m)) in
  let* n := geti position in
  on_root (fun r => set_memc (with_next_retry (match now with Some t => t + retry | None => 1 end) n (memc r)) r) ;;;
  on_inst (set_state MEMCACHED_SERVER_STATE_IN_TIMEOUT) ;;;
  let* q := getr query_id in
  let* qi := geti server_failure_counter_query_id in
  if qi =? q then ret tt else on_inst (fun i => set_failures (u32 (server_failure_counter i + 1)) q i).

(** [memcached_quit_server(instance, true)], which is [memcached_io_reset] as well. *)
Definition memcached_io_reset : IO unit :=
  let* udp := conf (fun m => use_udp (flags m)) in
  on_inst (close_socket udp) ;;; memcached_mark_server_for_timeout.
End Errors.

(** ** System calls *)

Definition set_recvs (l : list recv_event) (n : Socket) : Socket := mkSocket l (sends n) (polls n) (wire n).
Definition set_polls (l : list poll_event) (n : Socket) : Socket := mkSocket (recvs n) (sends n) l (wire n).

(** [recv(fd, p, n)]: the bytes received (at most [n] of those that have arrived, the rest stays
    with the kernel) or the error, which is [errno]. Without a result to come it waits for ever. *)
Definition sys_recv (n : Z) : IO (cstring + errno_t) := fun c =>
  match recvs (net (inst c)) with
  | [] => (Stuck Deadlock, c)
  | RecvError e :: l => (Ret (inr e), mkCtx (set_errno e (root c)) (upd_net (set_recvs l) (inst c)))
  | RecvBytes b :: l =>
    let rest := drop (Z.to_nat n) b in
    (Ret (inl (take (Z.to_nat n) b)),
     mkCtx (root c) (upd_net (set_recvs (if rest is [] then l else RecvBytes rest :: l)) (inst c)))
  end.

(** [send(fd, p, n)] of these bytes: how many the kernel took, which are then on their way. *)
Definition sys_send (bytes : cstring) : IO (Z + errno_t) := fun c =>
  match sends (net (inst c)) with
  | [] => (Stuck Deadlock, c)
  | SendError e :: l =>
    (Ret (inr e), mkCtx (set_errno e (root c)) (upd_net (fun n => mkSocket (recvs n) l (polls n) (wire n)) (inst c)))
  | SendUpTo k :: l =>
    let now := take k bytes in
    (Ret (inl (size now)),
     mkCtx (root c) (upd_net (fun n => mkSocket (recvs n) l (polls n) (wire n ++ now)) (inst c)))
  end.

Definition sys_poll : IO poll_event := fun c =>
  match polls (net (inst c)) with
  | [] => (Stuck Deadlock, c)
  | p :: l => (Ret p, mkCtx (if p is PollFails e then set_errno e (root c) else root c)
                        (upd_net (set_polls l) (inst c)))
  end.

(** The bytes to come, which bound the rounds of the loops that read them. *)
Definition to_read (l : list recv_event) : nat :=
  list_sum (map (fun e => match e with RecvBytes b => S (List.length b) | RecvError _ => 1%nat end) l).

(** ** Response counts: common.h *)

Definition memcached_server_response_increment : IO unit := on_inst (fun i => set_cursor (u32 (cursor_active_ i + 1)) i).
Definition memcached_server_response_decrement : IO unit := on_inst (fun i => set_cursor (u32 (cursor_active_ i - 1)) i).
Definition memcached_server_response_reset : IO unit := on_inst (set_cursor 0).
