(* ===== verification/BinaryProtocol.v ===== *)
(** * Packets of the binary protocol: protocol_binary.h

    A packet begins with a header of 24 bytes, which a struct in memory overlays: its numbers
    are swapped before they are sent and after they are read. *)

From stdpp Require Import base list.
From Stdlib Require Import ZArith Ascii.
From S2P Require Import Prelude CxxString HashWords HashKit Continuum ClientTypes ByteOrder ClientString ClientState.

(** ** Constants: protocol_binary.h *)

Definition PROTOCOL_BINARY_REQ : Z := 0x80.
Definition PROTOCOL_BINARY_RES : Z := 0x81.

Definition PROTOCOL_BINARY_RESPONSE_SUCCESS : Z := 0x00.
Definition PROTOCOL_BINARY_RESPONSE_KEY_ENOENT : Z := 0x01.
Definition PROTOCOL_BINARY_RESPONSE_KEY_EEXISTS : Z := 0x02.
Definition PROTOCOL_BINARY_RESPONSE_E2BIG : Z := 0x03.
Definition PROTOCOL_BINARY_RESPONSE_NOT_STORED : Z := 0x05.
Definition PROTOCOL_BINARY_RESPONSE_AUTH_ERROR : Z := 0x20.
Definition PROTOCOL_BINARY_RESPONSE_AUTH_CONTINUE : Z := 0x21.
Definition PROTOCOL_BINARY_RESPONSE_ENOMEM : Z := 0x82.

Definition PROTOCOL_BINARY_CMD_SET : Z := 0x01.
Definition PROTOCOL_BINARY_CMD_ADD : Z := 0x02.
Definition PROTOCOL_BINARY_CMD_REPLACE : Z := 0x03.
Definition PROTOCOL_BINARY_CMD_DELETE : Z := 0x04.
Definition PROTOCOL_BINARY_CMD_INCREMENT : Z := 0x05.
Definition PROTOCOL_BINARY_CMD_DECREMENT : Z := 0x06.
Definition PROTOCOL_BINARY_CMD_QUIT : Z := 0x07.
Definition PROTOCOL_BINARY_CMD_FLUSH : Z := 0x08.
Definition PROTOCOL_BINARY_CMD_NOOP : Z := 0x0a.
Definition PROTOCOL_BINARY_CMD_VERSION : Z := 0x0b.
Definition PROTOCOL_BINARY_CMD_GETK : Z := 0x0c.
Definition PROTOCOL_BINARY_CMD_GETKQ : Z := 0x0d.
Definition PROTOCOL_BINARY_CMD_APPEND : Z := 0x0e.
Definition PROTOCOL_BINARY_CMD_PREPEND : Z := 0x0f.
Definition PROTOCOL_BINARY_CMD_STAT : Z := 0x10.
Definition PROTOCOL_BINARY_CMD_SETQ : Z := 0x11.
Definition PROTOCOL_BINARY_CMD_ADDQ : Z := 0x12.
Definition PROTOCOL_BINARY_CMD_REPLACEQ : Z := 0x13.
Definition PROTOCOL_BINARY_CMD_DELETEQ : Z := 0x14.
Definition PROTOCOL_BINARY_CMD_INCREMENTQ : Z := 0x15.
Definition PROTOCOL_BINARY_CMD_DECREMENTQ : Z := 0x16.
Definition PROTOCOL_BINARY_CMD_FLUSHQ : Z := 0x18.
Definition PROTOCOL_BINARY_CMD_APPENDQ : Z := 0x19.
Definition PROTOCOL_BINARY_CMD_PREPENDQ : Z := 0x1a.
Definition PROTOCOL_BINARY_CMD_TOUCH : Z := 0x1c.
Definition PROTOCOL_BINARY_CMD_SASL_LIST_MECHS : Z := 0x20.
Definition PROTOCOL_BINARY_CMD_SASL_AUTH : Z := 0x21.
Definition PROTOCOL_BINARY_CMD_SASL_STEP : Z := 0x22.

Definition PROTOCOL_BINARY_RAW_BYTES : Z := 0x00.

(** ** Headers *)

(** The struct of either header, with its numbers as they are in memory; [status] is [vbucket]
    in a request. *)
Record Header := mkHeader {
  magic : Z;
  opcode : Z;
  keylen : Z;
  extlen : Z;
  datatype : Z;
  status : Z;
  bodylen : Z;
  opaque : Z;
  hdr_cas : Z;
}.

Definition sizeof_header : Z := 24.

(** The bytes of the struct, and the struct over 24 bytes. *)
Definition header_bytes (h : Header) : list Z :=
  [magic h; opcode h] ++ le 2 (keylen h) ++ [extlen h; datatype h] ++ le 2 (status h) ++ le 4 (bodylen h)
  ++ le 4 (opaque h) ++ le 8 (hdr_cas h).

Definition field (b : list Z) (o n : nat) : Z := le_value (take n (drop o b)).
Definition header_of (b : list Z) : Header :=
  mkHeader (field b 0 1) (field b 1 1) (field b 2 2) (field b 4 1) (field b 5 1) (field b 6 2) (field b 8 4)
    (field b 12 4) (field b 16 8).

(** The conversion after a header was read; [opaque] is not looked at. *)
Definition to_host (h : Header) : Header :=
  mkHeader (magic h) (opcode h) (ntohs (keylen h)) (extlen h) (datatype h) (ntohs (status h)) (ntohl (bodylen h))
    (opaque h) (memcached_ntohll (hdr_cas h)).

(** The bytes of a request as characters. *)
Definition octets (b : list Z) : cstring := map char_of b.

(** ** Requests: io.cc *)

Definition with_opcode (op : Z) (h : Header) : Header :=
  mkHeader (magic h) op (keylen h) (extlen h) (datatype h) (status h) (bodylen h) (opaque h) (hdr_cas h).

(** A request that is all zero but for its command. *)
Definition new_request (op : Z) : Header := mkHeader 0 op 0 0 PROTOCOL_BINARY_RAW_BYTES 0 0 0 0.

(** [htons] cuts the number to 16 bits; the field has 32. *)
Definition initialize_binary_request (h : Header) : IO Header :=
  on_inst (fun i => set_request_id (u32 (request_id i + 1)) i) ;;;
  let* n := geti request_id in
  ret (mkHeader PROTOCOL_BINARY_REQ (opcode h) (keylen h) (extlen h) (datatype h) (status h) (bodylen h) (htons n)
         (hdr_cas h)).
