(* ===== verification/ClientRead.v ===== *)
(** * Reading from a server: the receiving half of io.cc, result.cc, response.cc

    From the socket to a parsed response of the text protocol. A local character array that
    is only partly initialised is the list of its initialised characters: an access behind
    them is undefined. *)

From stdpp Require Import base list.
From Stdlib Require Import ZArith Ascii String.
From S2P Require Import Prelude CxxString HashWords HashKit HashkitString Rijndael Aes Continuum ClientTypes.
From S2P Require Import ClientString ClientState.

Definition MEMCACHED_DEFAULT_COMMAND_SIZE : Z := 350.
Definition SMALL_STRING_LEN : Z := 1024.

(** ** Character arrays and the number parsers of the C library *)

Definition char_at (buf : cstring) (i : nat) : outcome ascii :=
  match buf !! i with Some c => Ret c | None => Stuck Undefined end.

Definition ascii_eqb (a b : ascii) : bool := bool_decide (a = b).

(** [buffer[i] == pat[0] and buffer[i+1] == pat[1] and ...], from left to right. *)
Fixpoint matches (buf : cstring) (i : nat) (pat : cstring) : outcome bool :=
  match pat with
  | [] => Ret true
  | p :: pat => let? c := char_at buf i in if ascii_eqb c p then matches buf (S i) pat else Ret false
  end.

(** Moves over the characters that satisfy [p], and returns the offset of the first other one. *)
Fixpoint span (p : ascii -> bool) (buf : cstring) (i : nat) : outcome nat :=
  match buf with
  | [] => Stuck Undefined
  | c :: buf => if p c then span p buf (S i) else Ret i
  end.
Definition skip_while (p : ascii -> bool) (buf : cstring) (i : nat) : outcome nat := span p (drop i buf) i.

Definition iscntrl (c : ascii) : bool := (uchar c <? 32) || (uchar c =? 127).

(** The digits of a number from offset [i]: its sign, its absolute value, where it ends. Without
    digits the number is 0 and ends where the text began. *)
Definition scan_number (buf : cstring) (i : nat) : outcome (bool * Z * nat) :=
  let? j := skip_while isspace buf i in
  let? c := char_at buf j in
  let neg := ascii_eqb c "-"%char in
  let start := if neg || ascii_eqb c "+"%char then S j else j in
  let? stop := skip_while isdigit buf start in
  Ret (neg, dec_value (take (stop - start) (drop start buf)), if (stop =? start)%nat then i else stop).

(** [strtoul] and [strtoull] to [bits] bits: value, end, and whether it was out of range. *)
Definition strtou (bits : Z) (buf : cstring) (i : nat) : outcome (Z * nat * bool) :=
  let? (neg, v, stop) := scan_number buf i in
  if 2 ^ bits <=? v then Ret (2 ^ bits - 1, stop, true)
  else Ret ((if neg then - v else v) mod 2 ^ bits, stop, false).

Section Numbers.
Context `{DM : DataModel}.

Definition LONG_MAX : Z := 2 ^ (long_bits - 1) - 1.
Definition LONG_MIN : Z := - 2 ^ (long_bits - 1).

Definition strtol (buf : cstring) (i : nat) : outcome (Z * nat * bool) :=
  let? (neg, v, stop) := scan_number buf i in
  let x := if neg then - v else v in
  if x <? LONG_MIN then Ret (LONG_MIN, stop, true) else
  if LONG_MAX <? x then Ret (LONG_MAX, stop, true) else Ret (x, stop, false).
End Numbers.

(** [index(buffer, ' ')]; a string without a blank gives the null pointer, which [strtol] then
    reads. *)
Definition index_blank (buf : cstring) : outcome nat :=
  let? j := skip_while (fun c => negb (ascii_eqb c SP) && negb (ascii_eqb c zero)) buf 0 in
  let? c := char_at buf j in
  if ascii_eqb c SP then Ret j else Stuck Undefined.

(** ** Results: result.cc *)

Definition memcached_result_reset (r : Result) : Result :=
  mkResult [] 0 0 0 (memcached_string_reset (res_value r)) UINT64_MAX (res_count r).
Definition memcached_result_reset_value (r : Result) : Result :=
  mkResult (item_key r) (item_flags r) (item_cas r) (item_expiration r) (memcached_string_reset (res_value r))
    (numeric_value r) (res_count r).
Definition memcached_result_length (r : Result) : Z := memcached_string_length (res_value r).
Definition memcached_result_value (r : Result) : cstring := str_chars (res_value r).
Definition set_value (v : memcached_string_st) (r : Result) : Result :=
  mkResult (item_key r) (item_flags r) (item_cas r) (item_expiration r) v (numeric_value r) (res_count r).
Definition set_numeric_value (n : Z) (r : Result) : Result :=
  mkResult (item_key r) (item_flags r) (item_cas r) (item_expiration r) (res_value r) n (res_count r).
Definition set_count (n : Z) (r : Result) : Result :=
  mkResult (item_key r) (item_flags r) (item_cas r) (item_expiration r) (res_value r) (numeric_value r) n.

(** The reader of binary responses, whose code is not modelled. *)
Class BinaryReader := {
  binary_read_one_response : cstring -> Z -> Result -> IO (memcached_return_t * cstring * Result);
}.

Section Reading.
Context `{DM : DataModel} `{AL : Allocator} `{CF : ClientConfig} `{CK : Clock} `{CC : CipherConfig} `{BR : BinaryReader}.

(** [memcached_string_check] and [memcached_string_append] as they act on the client: a refused
    request is an error of the root. *)
Definition string_check_io (s : memcached_string_st) (need : Z) : IO (bool * memcached_string_st) :=
  let* r := with_allocs (ClientString._string_check s need) in
  let '(c, s) := r in
  if c is CheckOk then ret (true, s)
  else let* _ := memcached_set_error_root MEMCACHED_MEMORY_ALLOCATION_FAILURE in ret (false, s).

Definition string_append_io (s : memcached_string_st) (value : cstring) : IO (bool * memcached_string_st) :=
  let* r := with_allocs (memcached_string_append s value) in
  let '(done, s) := r in
  if done then ret (true, s)
  else let* _ := memcached_set_error_root MEMCACHED_MEMORY_ALLOCATION_FAILURE in ret (false, s).

Definition memcached_result_set_value (r : Result) (value : cstring) : IO (memcached_return_t * Result) :=
  let* x := string_append_io (res_value r) value in
  let '(done, v) := x in
  if done then ret (MEMCACHED_SUCCESS, set_value v r)
  else let* e := getr errno in let* rc := memcached_set_errno_root e in ret (rc, set_value v r).

(** ** Waiting: [io_wait] *)

(** The rounds of the loop; [None] when it is left without a result. *)
Fixpoint io_wait_loop (rounds : nat) : IO (option memcached_return_t) :=
  match rounds with
  | O => ret None
  | S rounds =>
    let* p := sys_poll in
    match p with
    | PollReady => ret (Some MEMCACHED_SUCCESS)
    | PollHangup => let* rc := memcached_set_error_msg MEMCACHED_CONNECTION_FAILURE in ret (Some rc)
    | PollErr (Some E_OK) => io_wait_loop rounds
    | PollErr so =>
      memcached_io_reset ;;;
      let* rc := memcached_set_errno (default EINVAL so) in ret (Some rc)
    | PollOther => let* rc := memcached_set_error_msg MEMCACHED_FAILURE in ret (Some rc)
    | PollTimeout => let* rc := memcached_set_error MEMCACHED_TIMEOUT in ret (Some rc)
    | PollFails e =>
      match e with
      | EINTR | ERESTART => io_wait_loop rounds
      | _ =>
        (if bool_decide (e ∈ [EFAULT; ENOMEM]) then
           let* _ := memcached_set_error MEMCACHED_MEMORY_ALLOCATION_FAILURE in ret tt
         else ret tt) ;;;
        (if bool_decide (e ∈ [EFAULT; ENOMEM; EINVAL]) then
           let* _ := memcached_set_error_msg MEMCACHED_MEMORY_ALLOCATION_FAILURE in ret tt
         else ret tt) ;;;
        let* _ := memcached_set_errno e in ret None
      end
    end
  end.

(** [io_wait(instance, MEM_READ)]; for a write, the purge comes first. *)
Definition io_wait_read : IO memcached_return_t :=
  let* timeout := conf (fun m => poll_timeout (limits m)) in
  if timeout =? 0 then memcached_set_error MEMCACHED_TIMEOUT else
  let* r := io_wait_loop 4 in
  match r with
  | Some rc => ret rc
  | None =>
    memcached_io_reset ;;;
    let* es := geti error_messages in
    if es is _ :: _ then geti memcached_instance_error_return
    else memcached_set_error_msg MEMCACHED_CONNECTION_FAILURE
  end.

(** ** Filling the buffer: [_io_fill] *)

Definition fill (bytes : cstring) (i : Inst) : Inst :=
  set_io_bytes_sent 0
    (set_rd (mkRead (bytes ++ drop (List.length bytes) (read_buffer (rd i))) 0 (size bytes) (size bytes)) i).

Fixpoint io_fill_loop (fuel : nat) : IO memcached_return_t :=
  match fuel with
  | O => stuck OutOfFuel
  | S fuel =>
    let* r := sys_recv MEMCACHED_MAX_BUFFER in
    match r with
    | inr EINTR => io_fill_loop fuel
    | inr (ETIMEDOUT | EAGAIN | ERESTART) =>
      let* w := io_wait_read in
      if memcached_success w then io_fill_loop fuel else ret w
    | inr e =>
      (if bool_decide (e ∈ [ENOTCONN; ENOTSOCK; EBADF]) then let* o := geti fd in assert_io o else ret tt) ;;;
      memcached_io_reset ;;;
      let* e := getr errno in
      let* _ := memcached_set_errno e in
      geti memcached_instance_error_return
    | inl [] =>
      memcached_io_reset ;;; memcached_set_error_msg MEMCACHED_CONNECTION_FAILURE
    | inl bytes => on_inst (fill bytes) ;;; ret MEMCACHED_SUCCESS
    end
  end.

(** Every round uses up one result of [recv]. *)
Definition _io_fill : IO memcached_return_t := fun c =>
  io_fill_loop (S (List.length (recvs (net (inst c))))) c.

(** ** Reading bytes and lines *)

(** The unread characters, all within the array when [read_ptr] and [read_buffer_length] are. *)
Definition advance (n : Z) (i : Inst) : Inst :=
  set_rd (mkRead (read_buffer (rd i)) (read_ptr (rd i) + n) (ulong (read_buffer_length (rd i) - n))
            (read_data_length (rd i))) i.

(** [memcpy] of [n] characters from [read_ptr]. *)
Definition copy_out (n : Z) : IO cstring :=
  let* r := geti rd in
  if size (read_buffer r) <? read_ptr r + n then stuck Undefined else
  on_inst (advance n) ;;;
  ret (take (Z.to_nat n) (drop (Z.to_nat (read_ptr r)) (read_buffer r))).

(** The loop of [memcached_io_read]: the result and the characters stored so far. *)
Fixpoint io_read_loop (fuel : nat) (length : Z) (acc : cstring) : IO (memcached_return_t * cstring) :=
  match fuel with
  | O => stuck OutOfFuel
  | S fuel =>
    if length =? 0 then ret (MEMCACHED_SUCCESS, acc) else
    let* have := geti (fun i => read_buffer_length (rd i)) in
    let* rc := if have =? 0 then _io_fill else ret MEMCACHED_SUCCESS in
    if (have =? 0) && memcached_fatal rc then ret (rc, acc) else
    if 1 <? length then
      let* have := geti (fun i => read_buffer_length (rd i)) in
      let difference := if have <? length then have else length in
      let* bytes := copy_out difference in
      io_read_loop fuel (length - difference) (acc ++ bytes)
    else
      let* c := copy_out 1 in
      ret (MEMCACHED_SUCCESS, acc ++ c)
  end.

(** A round stores a character or uses up a result of [recv]. *)
Definition memcached_io_read (length : Z) : IO (memcached_return_t * cstring) :=
  let* udp := conf (fun m => use_udp (flags m)) in
  assert_io (negb udp) ;;;
  let* o := geti fd in
  if negb o then ret (MEMCACHED_CONNECTION_FAILURE, []) else
  let* events := geti (fun i => List.length (recvs (net i))) in
  io_read_loop (S (S (Z.to_nat length + events))) length [].

(** The inner loop of [memcached_io_readline]: up to [n] characters that are in the buffer. *)
Fixpoint copy_line (n : nat) (size_ : Z) (acc : cstring) : IO (bool * cstring) :=
  match n with
  | O => ret (false, acc)
  | S n =>
    if size_ <=? size acc then ret (false, acc) else
    let* c := copy_out 1 in
    let acc := acc ++ c in
    if bool_decide (c = [LF]) then ret (true, acc) else copy_line n size_ acc
  end.

Fixpoint readline_loop (fuel : nat) (size_ : Z) (acc : cstring) : IO (memcached_return_t * cstring) :=
  match fuel with
  | O => stuck OutOfFuel
  | S fuel =>
    let* have := geti (fun i => read_buffer_length (rd i)) in
    let* r := if have =? 0 then memcached_io_read 1 else ret (MEMCACHED_SUCCESS, []) in
    let '(rc, c) := r in
    if memcached_failed rc && rc_eqb rc MEMCACHED_IN_PROGRESS then
      memcached_io_reset ;;; let* rc := memcached_set_error rc in ret (rc, acc)
    else if memcached_failed rc then ret (rc, acc) else
    let acc := acc ++ c in
    let* have := geti (fun i => read_buffer_length (rd i)) in
    let* r := if bool_decide (c = [LF]) then ret (true, acc) else copy_line (Z.to_nat have) size_ acc in
    let '(complete, acc) := r in
    if size acc =? size_ then ret (MEMCACHED_PROTOCOL_ERROR, acc) else
    if complete then ret (MEMCACHED_SUCCESS, acc) else readline_loop fuel size_ acc
  end.

(** Every round stores a character, and the array has [size] of them. *)
Definition memcached_io_readline (size : Z) : IO (memcached_return_t * cstring) :=
  readline_loop (S (Z.to_nat size)) size [].

(** ** A value: [textual_value_fetch] *)

(** Leaves the function through [read_error]. *)
Definition read_error (r : Result) : IO (memcached_return_t * Result) :=
  memcached_io_reset ;;; ret (MEMCACHED_PARTIAL_READ, r).

(** The characters of the key behind the prefix, which must fit [item_key] with a null character. *)
Definition load_key (buf : cstring) (prefix : nat) : outcome (cstring * nat) :=
  let? stop := skip_while (fun c => negb (iscntrl c || isspace c)) buf 6 in
  let key := drop (6 + prefix) (take stop buf) in
  if size key <? MEMCACHED_MAX_KEY then Ret (key, stop) else Stuck Undefined.

(** [errno] after a number parser. *)
Definition note_range (overflow : bool) : IO unit :=
  if overflow then on_root (set_errno ERANGE) else ret tt.

(** Reading the data block of [value_length] characters and decrypting it. *)
Definition fetch_data (value_length : Z) (r : Result) : IO (memcached_return_t * Result) :=
  let* x := string_check_io (res_value r) (ulong (value_length + 2)) in
  let '(ok, v) := x in
  let r := set_value v r in
  if negb ok then let* rc := memcached_set_error MEMCACHED_MEMORY_ALLOCATION_FAILURE in ret (rc, r) else
  let* y := memcached_io_read (ulong (value_length + 2)) in
  let '(rrc, bytes) := y in
  let* v := lift (str_poke v 0 bytes) in
  let r := set_value v r in
  if memcached_failed rrc && rc_eqb rrc MEMCACHED_IN_PROGRESS then
    memcached_io_reset ;;; let* rc := memcached_set_error MEMCACHED_IN_PROGRESS in ret (rc, r)
  else if memcached_failed rrc then ret (rrc, r) else
  if negb (size bytes =? ulong (value_length + 2)) then read_error r else
  let* v := lift (str_poke v value_length [zero]) in
  let* v := lift (str_poke v (value_length + 1) [zero]) in
  let r := set_value (memcached_string_set_length v value_length) r in
  let* kit := conf hashkit in
  if match _key kit with Some _ => true | None => false end && negb (memcached_result_length r =? 0) then
    let* destination := with_allocs (hashkit_decrypt kit (map uchar (memcached_result_value r))) in
    match destination with
    | None => let* rc := memcached_set_error_root MEMCACHED_FAILURE in ret (rc, memcached_result_reset r)
    | Some d =>
      let* z := memcached_result_set_value (memcached_result_reset_value r) (map char_of (string_bytes d)) in
      let '(rc, r) := z in
      if memcached_failed rc then
        let* rc := memcached_set_error_root MEMCACHED_FAILURE in
        ret (rc, if memcached_failed rc then memcached_result_reset r else r)
      else ret (MEMCACHED_SUCCESS, r)
    end
  else ret (MEMCACHED_SUCCESS, r).

Definition textual_value_fetch (buf : cstring) (r : Result) : IO (memcached_return_t * Result) :=
  let end_ptr := Z.to_nat MEMCACHED_DEFAULT_COMMAND_SIZE in
  let r := memcached_result_reset r in
  let* prefix := conf (fun m => List.length (_namespace m)) in
  let* k := lift (load_key buf prefix) in
  let '(key, p) := k in
  let r := mkResult key (item_flags r) (item_cas r) (item_expiration r) (res_value r) (numeric_value r) (res_count r) in
  if (p =? end_ptr)%nat || (S p =? end_ptr)%nat then read_error r else
  let* _ := lift (skip_while isdigit buf (S p)) in
  let* f := lift (strtou long_bits buf (S p)) in
  let '(flags, p, over) := f in
  note_range over ;;;
  let r := mkResult (item_key r) (u32 flags) (item_cas r) (item_expiration r) (res_value r) (numeric_value r) (res_count r) in
  if (p =? end_ptr)%nat || (S p =? end_ptr)%nat then read_error r else
  let* _ := lift (skip_while isdigit buf (S p)) in
  let* n := lift (strtou 64 buf (S p)) in
  let '(value_length, p, over) := n in
  note_range over ;;;
  let value_length := ulong value_length in
  if (p =? end_ptr)%nat then read_error r else
  let* c := lift (char_at buf p) in
  let* x := if ascii_eqb c CR then ret (r, (p + 2)%nat) else
    let* _ := lift (skip_while isdigit buf (S p)) in
    let* n := lift (strtou 64 buf (S p)) in
    let '(cas, p, over) := n in
    note_range over ;;;
    ret (mkResult (item_key r) (item_flags r) cas (item_expiration r) (res_value r) (numeric_value r) (res_count r), p) in
  let '(r, p) := x in
  if (end_ptr <? p)%nat then read_error r else fetch_data value_length r.

(** ** A response: [textual_read_one_response] *)

(** One of the three parts of the version: whether it is acceptable, and where it ends. *)
Definition version_part (buf : cstring) (p : nat) (zero_bad : bool) : IO (option (Z * nat)) :=
  let* v := lift (strtol buf p) in
  let '(version, stop, over) := v in
  note_range over ;;;
  let* e := getr errno in
  ret (if (version =? LONG_MIN) || (version =? LONG_MAX) || bool_decide (e = EINVAL) || (255 <? version)
          || (zero_bad && (version =? 0))
       then None else Some (version mod 256, stop)).

Definition bad_version : IO memcached_return_t :=
  on_inst (set_versions (255, 255, 255)) ;;; memcached_set_error_msg MEMCACHED_UNKNOWN_READ_FAILURE.

(** The three parts, the first one at [p]. *)
Definition version_at (buf : cstring) (p : nat) : IO memcached_return_t :=
  let* v := version_part buf p true in
  match v with
  | None => bad_version
  | Some (major, p) =>
    on_inst (fun i => set_versions (major, snd (fst (versions i)), snd (versions i)) i) ;;;
    let* v := version_part buf (S p) false in
    match v with
    | None => bad_version
    | Some (minor, p) =>
      on_inst (fun i => set_versions (fst (fst (versions i)), minor, snd (versions i)) i) ;;;
      let* v := version_part buf (S p) false in
      match v with
      | None => bad_version
      | Some (micro, _) =>
        on_inst (fun i => set_versions (fst (versions i), micro) i) ;;; ret MEMCACHED_SUCCESS
      end
    end
  end.

Definition read_version (buf : cstring) : IO memcached_return_t :=
  let* p := lift (index_blank buf) in version_at buf p.

(** The message behind SERVER_ERROR or CLIENT_ERROR ends at the end of the line. *)
Definition error_line (buf : cstring) (rc : memcached_return_t) : IO memcached_return_t :=
  let* c := lift (char_at buf 12) in
  let start := if ascii_eqb c SP then 13%nat else 12%nat in
  let* _ := lift (skip_while (fun c => negb (ascii_eqb c CR) && negb (ascii_eqb c LF)) buf start) in
  memcached_set_error_msg rc.

Definition numeric_response (buf : cstring) (r : Result) : IO (memcached_return_t * Result) :=
  let* n := lift (strtou 64 buf 0) in
  let '(auto_return_value, _, over) := n in
  note_range over ;;;
  let* e := getr errno in
  if ((auto_return_value =? UINT64_MAX) && bool_decide (e = ERANGE)) || bool_decide (e = EINVAL) then
    let* rc := memcached_set_error_msg MEMCACHED_UNKNOWN_READ_FAILURE in
    ret (rc, set_numeric_value UINT64_MAX r)
  else ret (MEMCACHED_SUCCESS, set_numeric_value auto_return_value r).

(** What the first line says, but for the three responses that read on. *)
Inductive response_kind :=
  | RValue | RVersion | RServerError | RClientError | RNumber | RCode (rc : memcached_return_t) | RCounted (rc : memcached_return_t) | RUnknown.

Definition first_match (buf : cstring) (alts : list (String.string * response_kind)) : outcome response_kind :=
  fold_right (fun a rest => let? m := matches buf 1 (lit (fst a)) in if m : bool then Ret (snd a) else rest)
    (Ret RUnknown) alts.

Definition classify (buf : cstring) : outcome response_kind :=
  let? c := char_at buf 0 in
  if ascii_eqb c "V" then first_match buf [("ALUE", RValue); ("ERSION", RVersion)]%string
  else if ascii_eqb c "O" then first_match buf [("K", RCode MEMCACHED_SUCCESS)]%string
  else if ascii_eqb c "S" then
    first_match buf [("TAT", RCounted MEMCACHED_STAT); ("ERVER_ERROR", RServerError); ("TOR", RCode MEMCACHED_STORED)]%string
  else if ascii_eqb c "D" then first_match buf [("ELETED", RCode MEMCACHED_DELETED)]%string
  else if ascii_eqb c "N" then
    first_match buf [("OT_FOUND", RCode MEMCACHED_NOTFOUND); ("OT_STORED", RCode MEMCACHED_NOTSTORED)]%string
  else if ascii_eqb c "E" then
    first_match buf [("ND", RCode MEMCACHED_END); ("RROR", RCode MEMCACHED_ERROR); ("XISTS", RCode MEMCACHED_DATA_EXISTS)]%string
  else if ascii_eqb c "T" then first_match buf [("OUCHED", RCode MEMCACHED_SUCCESS)]%string
  else if ascii_eqb c "I" then first_match buf [("TEM", RCounted MEMCACHED_ITEM)]%string
  else if ascii_eqb c "C" then first_match buf [("LIENT_ERROR", RClientError)]%string
  else Ret (if isdigit c then RNumber else RUnknown).

(** [memcmp(buffer, text) == 0] when so many characters were read. *)
Definition begins (buf : cstring) (total_read : Z) (text : String.string) : bool :=
  (size (lit text) <=? total_read) && is_prefix (lit text) buf.

(** [old] is what the array held before. *)
Definition textual_read_one_response (old : cstring) (buffer_length : Z) (r : Result)
    : IO (memcached_return_t * cstring * Result) :=
  let* x := memcached_io_readline buffer_length in
  let '(rc, line) := x in
  let buf := line ++ drop (List.length line) old in
  if memcached_failed rc then ret (rc, buf, r) else
  let total_read := size line in
  assert_io (negb (total_read =? 0)) ;;;
  let* k := lift (classify buf) in
  match k with
  | RValue =>
    memcached_server_response_increment ;;;
    let* y := textual_value_fetch buf r in ret (fst y, buf, snd y)
  | RVersion => let* rc := read_version buf in ret (rc, buf, r)
  | RCode rc => ret (rc, buf, r)
  | RCounted rc => memcached_server_response_increment ;;; ret (rc, buf, r)
  | RServerError =>
    if total_read =? size (lit "SERVER_ERROR") then ret (MEMCACHED_SERVER_ERROR, buf, r) else
    if begins buf total_read "SERVER_ERROR object too large for cache" then ret (MEMCACHED_E2BIG, buf, r) else
    if begins buf total_read "SERVER_ERROR out of memory storing object"
    then ret (MEMCACHED_SERVER_MEMORY_ALLOCATION_FAILURE, buf, r) else
    let* rc := error_line buf MEMCACHED_SERVER_ERROR in ret (rc, buf, r)
  | RClientError => let* rc := error_line buf MEMCACHED_CLIENT_ERROR in ret (rc, buf, r)
  | RNumber => let* y := numeric_response buf r in ret (fst y, buf, snd y)
  | RUnknown =>
    let buf := take (List.length line) buf ++ zero :: drop (S (List.length line)) buf in
    let* rc := memcached_set_error_msg MEMCACHED_UNKNOWN_READ_FAILURE in ret (rc, buf, r)
  end.

Definition _read_one_response (old : cstring) (buffer_length : Z) (r : Result)
    : IO (memcached_return_t * cstring * Result) :=
  memcached_server_response_decrement ;;;
  let* binary := conf (fun m => binary_protocol (flags m)) in
  let* x := if binary : bool then binary_read_one_response old buffer_length r
            else textual_read_one_response old buffer_length r in
  let '(rc, buf, r) := x in
  (if memcached_fatal rc then memcached_io_reset else ret tt) ;;;
  ret (rc, buf, r).

Definition memcached_read_one_response (r : Result) : IO (memcached_return_t * Result) :=
  let* udp := conf (fun m => use_udp (flags m)) in
  if udp : bool then let* rc := memcached_set_error MEMCACHED_NOT_SUPPORTED in ret (rc, r) else
  let* x := _read_one_response [] SMALL_STRING_LEN r in
  ret (fst (fst x), snd x).
End Reading.
