(* ===== verification/ClientBinary.v ===== *)
(** * Responses of the binary protocol: [binary_read_one_response] of response.cc

    The reader of one packet, which is the instance of [BinaryReader] that the other files of
    the client are written against. *)

From stdpp Require Import base list.
From Stdlib Require Import ZArith Ascii.
From S2P Require Import Prelude CxxString HashWords HashKit HashkitString Rijndael Aes Continuum ClientTypes.
From S2P Require Import ByteOrder ClientString ClientState BinaryProtocol ClientRead.

Section Responses.
Context `{DM : DataModel} `{AL : Allocator} `{CF : ClientConfig} `{CK : Clock}.

(** ** Reading so many bytes: [memcached_safe_read] *)

Fixpoint safe_read_loop (fuel : nat) (size_ : Z) (acc : cstring) : IO (memcached_return_t * cstring) :=
  if size_ <=? size acc then ret (MEMCACHED_SUCCESS, acc) else
  match fuel with
  | O => stuck OutOfFuel
  | S fuel =>
    let* x := memcached_io_read (size_ - size acc) in
    let '(rc, bytes) := x in
    if rc_eqb rc MEMCACHED_IN_PROGRESS then safe_read_loop fuel size_ acc else
    if memcached_failed rc then ret (rc, acc ++ bytes) else safe_read_loop fuel size_ (acc ++ bytes)
  end.

(** The characters stored, all of them when the code is SUCCESS. A round that fails has used up a
    result of [recv], another one is the last. *)
Definition memcached_safe_read (size_ : Z) : IO (memcached_return_t * cstring) :=
  let* events := geti (fun i => List.length (recvs (net i))) in
  safe_read_loop (S events) size_ [].

(** [memcached_safe_read(instance, array + o, ...)] into an array of [room] characters that holds
    [old]: the characters must fit. *)
Definition read_into (room : Z) (old : cstring) (o size_ : Z) : IO (memcached_return_t * cstring) :=
  let* x := memcached_safe_read size_ in
  let '(rc, bytes) := x in
  if (size bytes =? 0) || (o + size bytes <=? room)
  then ret (rc, take (Z.to_nat o) old ++ bytes ++ drop (Z.to_nat o + List.length bytes) old)
  else stuck Undefined.

(** ** The parts of a response *)

Definition ok (rc : memcached_return_t) : bool := rc_eqb rc MEMCACHED_SUCCESS.

(** [bodylen] characters into the value of the result. *)
Definition read_value (n : Z) (r : Result) : IO (memcached_return_t * Result) :=
  let* x := string_check_io (res_value r) n in
  let '(granted, v) := x in
  if negb granted then ret (MEMCACHED_MEMORY_ALLOCATION_FAILURE, set_value v r) else
  let* y := memcached_safe_read n in
  let '(rc, bytes) := y in
  let* v := lift (str_poke v 0 bytes) in
  if memcached_failed rc then ret (MEMCACHED_UNKNOWN_READ_FAILURE, set_value v r) else
  ret (MEMCACHED_SUCCESS, set_value (memcached_string_set_length v n) r).

Definition set_key (k : cstring) (r : Result) : Result :=
  mkResult k (item_flags r) (item_cas r) (item_expiration r) (res_value r) (numeric_value r) (res_count r).
Definition set_flags (f : Z) (r : Result) : Result :=
  mkResult (item_key r) f (item_cas r) (item_expiration r) (res_value r) (numeric_value r) (res_count r).
Definition set_cas (c : Z) (r : Result) : Result :=
  mkResult (item_key r) (item_flags r) c (item_expiration r) (res_value r) (numeric_value r) (res_count r).

(** GETK and GETKQ: flags, key and value. When reading fails the result is not used: its flags
    stay 0 and its key is what came of it. *)
Definition read_item (h : Header) (r : Result) : IO (memcached_return_t * Result) :=
  let r := set_cas (hdr_cas h) (memcached_result_reset r) in
  let* x := memcached_safe_read 4 in
  let '(rc, f) := x in
  if negb (ok rc) then ret (MEMCACHED_UNKNOWN_READ_FAILURE, r) else
  let r := set_flags (ntohl (le_value (map uchar f))) r in
  let body := u32 (bodylen h - extlen h) in
  let* x := read_into MEMCACHED_MAX_KEY [] 0 (keylen h) in
  let '(rc, k) := x in
  let r := set_key k r in
  if memcached_failed rc then ret (MEMCACHED_UNKNOWN_READ_FAILURE, r) else
  let* ns := conf (fun m => size (_namespace m)) in
  if negb (keylen h =? 0) && negb (ns =? 0) && (keylen h <=? ns) then
    let* rc := memcached_set_error MEMCACHED_UNKNOWN_READ_FAILURE in ret (rc, r)
  else
  let r := set_key (drop (Z.to_nat ns) k) r in
  read_value (u32 (body - keylen h)) r.

(** INCREMENT and DECREMENT. *)
Definition read_number (h : Header) (r : Result) : IO (memcached_return_t * Result) :=
  if negb (bodylen h =? 8) then
    let* rc := memcached_set_error MEMCACHED_UNKNOWN_READ_FAILURE in ret (rc, set_numeric_value UINT64_MAX r)
  else
  let* x := memcached_safe_read 8 in
  let '(rc, b) := x in
  if negb (ok rc) then ret (MEMCACHED_UNKNOWN_READ_FAILURE, set_numeric_value UINT64_MAX r)
  else ret (MEMCACHED_SUCCESS, set_numeric_value (memcached_ntohll (le_value (map uchar b))) r).

(** VERSION, into an array of 32 characters that are zero. *)
Definition read_binary_version (h : Header) : IO memcached_return_t :=
  let* x := read_into 32 (repeat zero 32) 0 (bodylen h) in
  let '(rc, b) := x in
  if negb (ok rc) then ret MEMCACHED_UNKNOWN_READ_FAILURE else version_at b 0.

(** STAT: the key, a null character and the value. *)
Definition read_stat (h : Header) (buffer_length : Z) (buf : cstring) : IO (memcached_return_t * cstring) :=
  let buf := repeat zero (Z.to_nat buffer_length) in
  let* x := read_into buffer_length buf 0 (keylen h) in
  let '(rc, buf) := x in
  if negb (ok rc) then ret (MEMCACHED_UNKNOWN_READ_FAILURE, buf) else
  let* x := read_into buffer_length buf (keylen h + 1) (ulong (bodylen h - keylen h)) in
  let '(rc, buf) := x in
  ret (if ok rc then MEMCACHED_SUCCESS else MEMCACHED_UNKNOWN_READ_FAILURE, buf).

(** The body of a response without an error: the code, and whether the function returns it at once. *)
Definition read_body (h : Header) (buf : cstring) (buffer_length : Z) (r : Result)
    : IO (bool * memcached_return_t * cstring * Result) :=
  let op := opcode h in
  if (op =? PROTOCOL_BINARY_CMD_GETKQ) || (op =? PROTOCOL_BINARY_CMD_GETK) then
    (if op =? PROTOCOL_BINARY_CMD_GETKQ then memcached_server_response_increment else ret tt) ;;;
    let* x := read_item h r in
    ret (negb (ok (fst x)), fst x, buf, snd x)
  else if (op =? PROTOCOL_BINARY_CMD_INCREMENT) || (op =? PROTOCOL_BINARY_CMD_DECREMENT) then
    let* x := read_number h r in
    ret (negb (ok (fst x)), fst x, buf, snd x)
  else if op =? PROTOCOL_BINARY_CMD_SASL_LIST_MECHS then
    if negb (keylen h =? 0) || (buffer_length <? u32 (bodylen h + 1)) then
      ret (true, MEMCACHED_UNKNOWN_READ_FAILURE, buf, r)
    else
    let* x := read_into buffer_length buf 0 (bodylen h) in
    ret (if ok (fst x) then (false, MEMCACHED_SUCCESS, snd x, r) else (true, MEMCACHED_UNKNOWN_READ_FAILURE, snd x, r))
  else if op =? PROTOCOL_BINARY_CMD_VERSION then
    let* rc := read_binary_version h in
    ret (negb (ok rc), rc, buf, r)
  else if bool_decide (op ∈ [PROTOCOL_BINARY_CMD_FLUSH; PROTOCOL_BINARY_CMD_QUIT; PROTOCOL_BINARY_CMD_SET;
      PROTOCOL_BINARY_CMD_ADD; PROTOCOL_BINARY_CMD_REPLACE; PROTOCOL_BINARY_CMD_APPEND; PROTOCOL_BINARY_CMD_PREPEND;
      PROTOCOL_BINARY_CMD_DELETE; PROTOCOL_BINARY_CMD_TOUCH]) then
    let* x := if bodylen h =? 0 then ret (MEMCACHED_SUCCESS, buf) else read_into buffer_length buf 0 32 in
    ret (true, MEMCACHED_SUCCESS, snd x, r)
  else if op =? PROTOCOL_BINARY_CMD_NOOP then ret (true, MEMCACHED_END, buf, r)
  else if op =? PROTOCOL_BINARY_CMD_STAT then
    if bodylen h =? 0 then ret (true, MEMCACHED_END, buf, r) else
    if buffer_length <? u32 (bodylen h + 1) then ret (true, MEMCACHED_UNKNOWN_READ_FAILURE, buf, r) else
    let* x := read_stat h buffer_length buf in
    ret (negb (ok (fst x)), fst x, snd x, r)
  else if (op =? PROTOCOL_BINARY_CMD_SASL_AUTH) || (op =? PROTOCOL_BINARY_CMD_SASL_STEP) then
    let* x := read_value (bodylen h) (set_cas (hdr_cas h) (memcached_result_reset r)) in
    ret (negb (ok (fst x)), fst x, buf, snd x)
  else
    let* rc := memcached_set_error MEMCACHED_UNKNOWN_READ_FAILURE in ret (true, rc, buf, r).

(** The message of an error, which is dropped in pieces of [SMALL_STRING_LEN]. *)
Fixpoint skip_body (rounds : nat) (body : Z) : IO bool :=
  if body =? 0 then ret true else
  match rounds with
  | O => stuck OutOfFuel
  | S rounds =>
    let nr := if SMALL_STRING_LEN <? body then SMALL_STRING_LEN else body in
    let* x := memcached_safe_read nr in
    if ok (fst x) then skip_body rounds (body - nr) else ret false
  end.

Definition is_quiet_store (op : Z) : bool :=
  bool_decide (op ∈ [PROTOCOL_BINARY_CMD_SETQ; PROTOCOL_BINARY_CMD_ADDQ; PROTOCOL_BINARY_CMD_REPLACEQ;
    PROTOCOL_BINARY_CMD_APPENDQ; PROTOCOL_BINARY_CMD_PREPENDQ]).

(** The code of the status. *)
Definition status_code (s : Z) : IO memcached_return_t :=
  if s =? PROTOCOL_BINARY_RESPONSE_SUCCESS then ret MEMCACHED_SUCCESS else
  if s =? PROTOCOL_BINARY_RESPONSE_KEY_ENOENT then ret MEMCACHED_NOTFOUND else
  if s =? PROTOCOL_BINARY_RESPONSE_KEY_EEXISTS then ret MEMCACHED_DATA_EXISTS else
  if s =? PROTOCOL_BINARY_RESPONSE_NOT_STORED then ret MEMCACHED_NOTSTORED else
  if s =? PROTOCOL_BINARY_RESPONSE_E2BIG then ret MEMCACHED_E2BIG else
  if s =? PROTOCOL_BINARY_RESPONSE_ENOMEM then ret MEMCACHED_MEMORY_ALLOCATION_FAILURE else
  if s =? PROTOCOL_BINARY_RESPONSE_AUTH_CONTINUE then ret MEMCACHED_AUTH_CONTINUE else
  if s =? PROTOCOL_BINARY_RESPONSE_AUTH_ERROR then ret MEMCACHED_AUTH_FAILURE else
  memcached_set_error MEMCACHED_UNKNOWN_READ_FAILURE.

(** A response whose header has been read; [again] reads the next one. *)
Definition after_header (again : IO (memcached_return_t * cstring * Result)) (h : Header) (buf : cstring)
    (buffer_length : Z) (r : Result) : IO (memcached_return_t * cstring * Result) :=
  if (status h =? PROTOCOL_BINARY_RESPONSE_SUCCESS) || (status h =? PROTOCOL_BINARY_RESPONSE_AUTH_CONTINUE) then
    let* x := read_body h buf buffer_length r in
    let '(returns, rc, buf, r) := x in
    if returns : bool then ret (rc, buf, r) else
    let* rc := status_code (status h) in ret (rc, buf, r)
  else
  let* done := skip_body (S (Z.to_nat (bodylen h / SMALL_STRING_LEN))) (bodylen h) in
  if negb done then let* rc := memcached_set_error MEMCACHED_UNKNOWN_READ_FAILURE in ret (rc, buf, r) else
  if negb (bodylen h =? 0) && is_quiet_store (opcode h) then again else
  let* rc := status_code (status h) in ret (rc, buf, r).

Fixpoint binary_response_loop (fuel : nat) (buf : cstring) (buffer_length : Z) (r : Result)
    : IO (memcached_return_t * cstring * Result) :=
  match fuel with
  | O => stuck OutOfFuel
  | S fuel =>
    let* x := memcached_safe_read sizeof_header in
    let '(rc, b) := x in
    if negb (ok rc) then ret (rc, buf, r) else
    let h := header_of (map uchar b) in
    if negb (magic h =? PROTOCOL_BINARY_RES) then
      let* rc := memcached_set_error MEMCACHED_UNKNOWN_READ_FAILURE in ret (rc, buf, r)
    else after_header (binary_response_loop fuel buf buffer_length r) (to_host h) buf buffer_length r
  end.

(** [binary_read_one_response]; every round takes a header from the bytes to come. *)
Definition binary_read (buf : cstring) (buffer_length : Z) (r : Result) : IO (memcached_return_t * cstring * Result) :=
  let* n := geti (fun i => (to_read (recvs (net i)) + Z.to_nat (read_buffer_length (rd i)))%nat) in
  binary_response_loop (S n) buf buffer_length r.
End Responses.

#[export] Instance binary_reader `{DM : DataModel} `{AL : Allocator} `{CF : ClientConfig} `{CK : Clock} : BinaryReader :=
  {| binary_read_one_response := binary_read |}.
