(* ===== verification/ClientReadSpec.v ===== *)
(** * What reading from a server returns

    The bytes to come are the unread ones of the buffer and those the kernel will deliver, in
    any pieces. Reading [n] bytes or a line takes exactly them, wherever the pieces end. *)

From stdpp Require Import base list.
From Stdlib Require Import ZArith Lia Ascii.
From S2P Require Import Prelude CxxString HashWords HashkitString Rijndael Aes HashKit ClientTypes ClientString Continuum.
From S2P Require Import ClientState ClientRead.

(** ** The input of a server *)

Definition unread (i : Inst) : cstring :=
  take (Z.to_nat (read_buffer_length (rd i))) (drop (Z.to_nat (read_ptr (rd i))) (read_buffer (rd i))).

(** The unread characters are within the array. *)
Record rd_ok (r : ReadBuffer) : Prop := {
  rd_ptr : 0 <= read_ptr r;
  rd_len : 0 <= read_buffer_length r;
  rd_within : read_ptr r + read_buffer_length r <= MEMCACHED_MAX_BUFFER;
  rd_array : size (read_buffer r) = MEMCACHED_MAX_BUFFER;
}.

(** The bytes [s] are to come, in pieces of any size. *)
Definition incoming (i : Inst) (s : cstring) : Prop :=
  exists chunks, recvs (net i) = map RecvBytes chunks /\ Forall (fun b => b <> []) chunks
    /\ s = unread i ++ concat chunks.

(** [i'] is [i] but for its input. *)
Definition with_input (i : Inst) (l : list recv_event) (r : ReadBuffer) (b : Z) : Inst :=
  set_io_bytes_sent b (set_rd r (upd_net (set_recvs l) i)).
Definition reads (i i' : Inst) : Prop := exists l r b, i' = with_input i l r b.

Lemma reads_refl i : reads i i.
Proof.
  exists (recvs (net i)), (rd i), (io_bytes_sent i). destruct i as [? ? [] ? ? ? ? ? ? ? ? ? ?]. reflexivity.
Qed.

Lemma reads_trans i j k : reads i j -> reads j k -> reads i k.
Proof.
  intros (l & r & b & ->) (l' & r' & b' & ->). exists l', r', b'. destruct i as [? ? [] ? ? ? ? ? ? ? ? ? ?]. reflexivity.
Qed.

Lemma reads_rd i r : reads i (set_rd r i).
Proof.
  exists (recvs (net i)), r, (io_bytes_sent i). destruct i as [? ? [] ? ? ? ? ? ? ? ? ? ?]. reflexivity.
Qed.

Create HintDb client.
#[export] Hint Resolve reads_refl reads_rd : client.

(** A line in a text, of at most [lim] characters. *)
Fixpoint until_lf (lim : nat) (s : cstring) : bool * cstring :=
  match lim, s with
  | S lim, c :: s =>
    if bool_decide ([c] = [LF]) then (true, [c])
    else let '(b, l) := until_lf lim s in (b, c :: l)
  | _, _ => (false, [])
  end.

Lemma until_lf_prefix lim : forall s, (until_lf lim s).2 = take (length (until_lf lim s).2) s.
Proof.
  induction lim as [|lim IH]; intros [|c s]; cbn; try done.
  case_bool_decide; cbn; [done|]. specialize (IH s). destruct (until_lf lim s). cbn in *. congruence.
Qed.

Lemma until_lf_length lim s : (length (until_lf lim s).2 <= lim)%nat.
Proof.
  revert s. induction lim as [|lim IH]; intros [|c s]; cbn; try lia.
  case_bool_decide; cbn; [lia|]. specialize (IH s). destruct (until_lf lim s). cbn in *. lia.
Qed.

(** A line that is not in the first part goes on in the second one. *)
Lemma until_lf_app lim : forall u t,
  until_lf lim (u ++ t) =
  if (until_lf lim u).1 then until_lf lim u
  else let '(b, l) := until_lf (lim - length u) t in (b, take lim u ++ l).
Proof.
  induction lim as [|lim IH]; intros [|c u] t.
  - done.
  - done.
  - cbn [app length]. rewrite Nat.sub_0_r, take_nil.
    change ((until_lf (S lim) []).1) with false. by destruct (until_lf (S lim) t).
  - cbn. case_bool_decide; cbn; [done|]. rewrite IH.
    destruct (until_lf lim u) as [[] l] eqn:E; cbn; [done|]. by destruct (until_lf (lim - length u) t).
Qed.

(** Without an end of line it is the whole part. *)
Lemma until_lf_none lim : forall u, (until_lf lim u).1 = false -> (until_lf lim u).2 = take lim u.
Proof.
  induction lim as [|lim IH]; intros [|c u]; cbn; try done.
  case_bool_decide; cbn; [done|]. specialize (IH u). destruct (until_lf lim u). cbn in *. intros Hb. by rewrite IH.
Qed.

Lemma until_lf_line lim line t :
  LF ∉ line -> (length line < lim)%nat -> until_lf lim (line ++ LF :: t) = (true, line ++ [LF]).
Proof.
  revert lim. induction line as [|c line IH]; intros [|lim] Hn Hl; cbn in *; try lia.
  - by rewrite bool_decide_true.
  - apply not_elem_of_cons in Hn as [Hc Hn]. rewrite bool_decide_false by congruence.
    by rewrite IH by (done || lia).
Qed.

Section Reading.
Context `{DM : DataModel} `{AL : Allocator} `{CF : ClientConfig} `{CK : Clock}.

(** The size of the buffer is an [unsigned long]. *)
Lemma small_buffer n : 0 <= n <= MEMCACHED_MAX_BUFFER -> 0 <= n < ULONG_MOD.
Proof. pose proof ULONG_MOD_ge. unfold MEMCACHED_MAX_BUFFER, UINT_MOD in *. lia. Qed.

Lemma unread_length i : rd_ok (rd i) -> length (unread i) = Z.to_nat (read_buffer_length (rd i)).
Proof. intros [? ? ? ?]. unfold unread, size in *. rewrite length_take, length_drop. lia. Qed.

(** What is to come has a bound. *)
Lemma incoming_length i s : rd_ok (rd i) -> incoming i s ->
  (length s <= to_read (recvs (net i)) + Z.to_nat (read_buffer_length (rd i)))%nat.
Proof.
  intros Hrd (ps & Hr & _ & ->). rewrite length_app, unread_length by done.
  assert (length (concat ps) <= to_read (recvs (net i)))%nat; [|lia].
  rewrite Hr. clear. induction ps as [|b ps IH]; [done|]. cbn [concat]. rewrite length_app. unfold to_read, list_sum in *. cbn in *. lia.
Qed.

Lemma advance_ok n i : rd_ok (rd i) -> 0 <= n <= read_buffer_length (rd i) ->
  rd_ok (rd (advance n i)) /\ unread (advance n i) = drop (Z.to_nat n) (unread i)
  /\ read_buffer_length (rd (advance n i)) = read_buffer_length (rd i) - n.
Proof.
  intros [? ? ? ?] Hn. unfold unread, advance. cbn [rd set_rd read_buffer read_ptr read_buffer_length].
  rewrite ulong_small by (apply small_buffer; lia).
  split; [split; cbn; lia|]. split; [|done].
  rewrite skipn_firstn_comm, skipn_skipn. f_equal; [lia|]. f_equal. lia.
Qed.

Lemma copy_out_ok n r i : rd_ok (rd i) -> 0 <= n <= read_buffer_length (rd i) ->
  copy_out n (mkCtx r i) = (Ret (take (Z.to_nat n) (unread i)), mkCtx r (advance n i)).
Proof.
  intros [? ? ? ?] Hn. unfold copy_out, geti, gets, on_inst, modify, bind, ret. cbn [inst root].
  rewrite (proj2 (Z.ltb_ge _ _)) by lia. do 2 f_equal. unfold unread.
  by rewrite take_take, Nat.min_l by lia.
Qed.

Lemma incoming_advance n i s : rd_ok (rd i) -> 0 <= n <= read_buffer_length (rd i) -> incoming i s ->
  incoming (advance n i) (drop (Z.to_nat n) s) /\ take (Z.to_nat n) (unread i) = take (Z.to_nat n) s.
Proof.
  intros Hok Hn (chunks & Hr & Hne & ->). destruct (advance_ok n i Hok Hn) as (Hok' & Hu & _).
  pose proof (unread_length i Hok) as Hl. split.
  - exists chunks. split; [done|]. split; [done|]. rewrite Hu, drop_app_le by lia. done.
  - by rewrite take_app_le by lia.
Qed.

(** ** Filling *)

(** With bytes to come and none in the buffer, one call of [recv] brings some of them. *)
Lemma io_fill_ok r i s : rd_ok (rd i) -> read_buffer_length (rd i) = 0 -> incoming i s -> s <> [] ->
  exists i', _io_fill (mkCtx r i) = (Ret MEMCACHED_SUCCESS, mkCtx r i')
    /\ reads i i' /\ rd_ok (rd i') /\ 0 < read_buffer_length (rd i') /\ incoming i' s.
Proof.
  intros [? ? ? Ha] Hz (chunks & Hr & Hne & Hs) Hs0.
  assert (unread i = []) as Hu by (unfold unread; by rewrite Hz).
  rewrite Hu in Hs. cbn in Hs. destruct chunks as [|b chunks]; [done|]. cbn in Hr, Hs.
  inversion_clear Hne as [|? ? Hb Hc].
  unfold _io_fill. cbn [inst]. rewrite Hr. cbn [io_fill_loop].
  set (n := Z.to_nat MEMCACHED_MAX_BUFFER).
  assert (take n b <> []) as Ht by (destruct b as [|c b]; [done|intros Hx%(f_equal length);
    rewrite length_take in Hx; unfold n, MEMCACHED_MAX_BUFFER in Hx; cbn [length] in Hx; lia]).
  unfold bind at 1, sys_recv at 1. cbn [inst root]. rewrite Hr. fold n.
  destruct (take n b) as [|c t] eqn:Et; [done|].
  assert (length (c :: t) <= n)%nat as Hlen by (rewrite <- Et, length_take; lia).
  unfold on_inst, modify, bind, ret. cbn [inst root].
  eexists. split; [reflexivity|]. set (data := c :: t) in *.
  split; [by do 3 eexists|]. cbn [rd set_io_bytes_sent set_rd fill read_buffer_length].
  unfold size in *. split; [split; cbn [read_ptr read_buffer_length read_buffer]|].
  - lia.
  - lia.
  - unfold n in Hlen. lia.
  - unfold size. rewrite length_app, length_drop. cbn [rd upd_net]. unfold n in Hlen. lia.
  - split; [cbn; lia|].
    exists (if drop n b is [] then chunks else drop n b :: chunks).
    split; [|split].
    + cbn [net set_io_bytes_sent set_rd fill upd_net recvs set_recvs]. by destruct (drop n b).
    + destruct (drop n b) eqn:Ed; [done|]. by constructor.
    + unfold unread. cbn [rd set_io_bytes_sent set_rd fill read_buffer read_ptr read_buffer_length].
      change (Z.to_nat 0) with 0%nat. rewrite drop_0, take_app_le, take_ge by (unfold size; lia).
      rewrite Hs, <- (take_drop n b) at 1. rewrite Et, <- app_assoc. f_equal.
      by destruct (drop n b).
Qed.

(** ** Reading *)

Lemma io_read_loop_ok fuel : forall length acc r i s,
  rd_ok (rd i) -> incoming i s -> 0 <= length <= size s -> (Z.to_nat length < fuel)%nat ->
  exists i', io_read_loop fuel length acc (mkCtx r i)
      = (Ret (MEMCACHED_SUCCESS, acc ++ take (Z.to_nat length) s), mkCtx r i')
    /\ reads i i' /\ rd_ok (rd i') /\ incoming i' (drop (Z.to_nat length) s).
Proof.
  induction fuel as [|fuel IH]; intros len acc r i s Hok Hin Hl Hf; [lia|].
  cbn [io_read_loop]. destruct (len =? 0) eqn:Hz.
  { apply Z.eqb_eq in Hz as ->. exists i. rewrite take_0, app_nil_r, drop_0. auto with client. }
  apply Z.eqb_neq in Hz.
  assert (exists i1, (let* have := geti (fun i => read_buffer_length (rd i)) in
      let* rc := if have =? 0 then _io_fill else ret MEMCACHED_SUCCESS in
      ret (have, rc)) (mkCtx r i) = (Ret (read_buffer_length (rd i), MEMCACHED_SUCCESS), mkCtx r i1)
    /\ reads i i1 /\ rd_ok (rd i1) /\ 0 < read_buffer_length (rd i1) /\ incoming i1 s) as (i1 & E & Hr1 & Hok1 & Hp1 & Hin1).
  { unfold bind at 1, geti at 1, gets. cbn [inst].
    destruct (read_buffer_length (rd i) =? 0) eqn:Hb.
    - apply Z.eqb_eq in Hb. destruct (io_fill_ok r i s Hok Hb Hin) as (i1 & E & ?);
        [by intros ->; unfold size in *; cbn in *; lia|].
      exists i1. run E. done.
    - apply Z.eqb_neq in Hb. exists i. pose proof (rd_len _ Hok). split; [done|].
      split; [auto with client|]. split; [done|]. split; [lia|done]. }
  unfold bind, geti, gets, ret in E. cbn [inst] in E.
  unfold bind at 1, geti at 1, gets. cbn [inst].
  unfold bind at 1. destruct ((if read_buffer_length (rd i) =? 0 then _io_fill else ret MEMCACHED_SUCCESS) (mkCtx r i))
    as [[rc|?|?] c] eqn:E'; unfold ret in E'; rewrite E' in E; try done.
  injection E as -> ->. change (memcached_fatal MEMCACHED_SUCCESS) with false. rewrite andb_false_r.
  pose proof (size_nonneg s) as Hss.
  destruct (1 <? len) eqn:H1.
  - apply Z.ltb_lt in H1. unfold bind at 1, geti, gets. cbn [inst].
    set (d := if read_buffer_length (rd i1) <? len then read_buffer_length (rd i1) else len).
    assert (0 < d <= read_buffer_length (rd i1) /\ d <= len) as (Hd & Hdl)
      by (unfold d; destruct (Z.ltb_spec (read_buffer_length (rd i1)) len); lia).
    run (copy_out_ok d r i1 Hok1 ltac:(lia)).
    destruct (advance_ok d i1 Hok1 ltac:(lia)) as (Hok2 & _).
    destruct (incoming_advance d i1 s Hok1 ltac:(lia) Hin1) as (Hin2 & Ht).
    rewrite Ht. destruct (IH (len - d) (acc ++ take (Z.to_nat d) s) r (advance d i1) (drop (Z.to_nat d) s)) as (i2 & E2 & Hr2 & Hok3 & Hin3);
      [done|done|unfold size in *; rewrite length_drop; lia|lia|].
    exists i2. rewrite E2. split.
    + do 3 f_equal. rewrite <- app_assoc. f_equal.
      rewrite <- (take_drop (Z.to_nat d) (take (Z.to_nat len) s)). rewrite take_take, Nat.min_l by lia. f_equal.
      rewrite skipn_firstn_comm. f_equal. lia.
    + split; [eapply reads_trans; [exact Hr1|]; eapply reads_trans; [|exact Hr2]; apply reads_rd|].
      split; [done|]. rewrite drop_drop in Hin3. by replace (Z.to_nat len) with (Z.to_nat d + Z.to_nat (len - d))%nat by lia.
  - apply Z.ltb_ge in H1. assert (len = 1) as -> by lia.
    run (copy_out_ok 1 r i1 Hok1 ltac:(lia)).
    destruct (advance_ok 1 i1 Hok1 ltac:(lia)) as (Hok2 & _).
    destruct (incoming_advance 1 i1 s Hok1 ltac:(lia) Hin1) as (Hin2 & Ht).
    exists (advance 1 i1). rewrite Ht. split; [done|].
    split; [eapply reads_trans; [exact Hr1|apply reads_rd]|]. done.
Qed.

(** Over a TCP connection that is open, [n] bytes are read as they were sent. *)
Lemma io_read_ok n r i s :
  use_udp (flags (memc r)) = false -> fd i = true ->
  rd_ok (rd i) -> incoming i s -> 0 <= n <= size s ->
  exists i', memcached_io_read n (mkCtx r i) = (Ret (MEMCACHED_SUCCESS, take (Z.to_nat n) s), mkCtx r i')
    /\ reads i i' /\ rd_ok (rd i') /\ incoming i' (drop (Z.to_nat n) s).
Proof.
  intros Hu Hfd Hok Hin Hn. unfold memcached_io_read, bind at 1, conf, gets. cbn [root]. rewrite Hu. cbn [negb].
  unfold bind at 1, assert_io, lift, assert_msg. rewrite orb_true_r.
  unfold bind at 1, geti, gets. cbn [inst]. rewrite Hfd. cbn [negb].
  unfold bind at 1. cbn [inst].
  eapply (io_read_loop_ok _ n [] r i s Hok Hin Hn). lia.
Qed.

(** ** Lines *)

Lemma copy_line_ok n : forall size_ acc r i s,
  rd_ok (rd i) -> incoming i s -> n = Z.to_nat (read_buffer_length (rd i)) ->
  let l := until_lf (Z.to_nat (size_ - size acc)) (unread i) in
  exists i', copy_line n size_ acc (mkCtx r i) = (Ret (l.1, acc ++ l.2), mkCtx r i')
    /\ reads i i' /\ rd_ok (rd i') /\ incoming i' (drop (length l.2) s)
    /\ (l.1 = false -> (length (unread i) < Z.to_nat (size_ - size acc))%nat -> read_buffer_length (rd i') = 0).
Proof.
  induction n as [|n IH]; intros size_ acc r i s Hok Hin Hn; cbn [copy_line].
  - pose proof (unread_length i Hok) as Hl. rewrite <- Hn in Hl. apply nil_length_inv in Hl. rewrite Hl.
    destruct (Z.to_nat (size_ - size acc)); cbn; exists i; rewrite app_nil_r, drop_0;
      (split; [done|split; [auto with client|split; [done|split; [done|]]]]);
      pose proof (rd_len _ Hok); lia.
  - destruct (size_ <=? size acc) eqn:Hs.
    + apply Z.leb_le in Hs. replace (Z.to_nat (size_ - size acc)) with 0%nat by lia. cbn. exists i.
      rewrite app_nil_r, drop_0. split; [done|]. split; [auto with client|]. split; [done|]. split; [done|]. lia.
    + apply Z.leb_gt in Hs. pose proof (rd_len _ Hok).
      run (copy_out_ok 1 r i Hok ltac:(lia)).
      destruct (advance_ok 1 i Hok ltac:(lia)) as (Hok1 & Hu1 & Hl1).
      destruct (incoming_advance 1 i s Hok ltac:(lia) Hin) as (Hin1 & Ht).
      pose proof (unread_length i Hok) as Hl. destruct (unread i) as [|c u] eqn:Hu; [cbn in Hl; lia|].
      change (Z.to_nat 1) with 1%nat in *. cbn [take drop] in *. rewrite ?take_0, ?drop_0 in *.
      replace (Z.to_nat (size_ - size acc)) with (S (Z.to_nat (size_ - size (acc ++ [c])))) by (rewrite size_app; unfold size in *; cbn; lia).
      cbn [until_lf]. case_bool_decide as Hc.
      * exists (advance 1 i). cbn. split; [done|]. split; [apply reads_rd|]. done.
      * destruct (IH size_ (acc ++ [c]) r (advance 1 i) (drop 1 s) Hok1 Hin1 ltac:(lia)) as (i' & E & Hr & Hok' & Hin' & Hz).
        rewrite Hu1 in *. destruct (until_lf _ u) as [b l]. cbn in *. exists i'. rewrite <- app_assoc in E.
        split; [exact E|]. split; [eapply reads_trans; [apply reads_rd|exact Hr]|]. split; [done|].
        split; [by rewrite drop_drop in Hin'|]. intros Hb Hlen. apply Hz; [done|lia].
Qed.

Lemma size_length (s : cstring) : Z.to_nat (size s) = length s.
Proof. unfold size. lia. Qed.

Lemma memcached_failed_success : memcached_failed MEMCACHED_SUCCESS = false.
Proof. reflexivity. Qed.

(** The first part of a round: a character from the kernel, or what is in the buffer already. *)
Lemma readline_first r i s :
  use_udp (flags (memc r)) = false -> fd i = true -> rd_ok (rd i) -> incoming i s -> s <> [] ->
  exists c i1, (if read_buffer_length (rd i) =? 0 then memcached_io_read 1 else ret (MEMCACHED_SUCCESS, []))
      (mkCtx r i) = (Ret (MEMCACHED_SUCCESS, c), mkCtx r i1)
    /\ reads i i1 /\ rd_ok (rd i1) /\ incoming i1 (drop (length c) s) /\ c = take (length c) s
    /\ (length c <= 1)%nat /\ (length c = 0%nat -> (0 < length (unread i1))%nat).
Proof.
  intros Hu Hfd Hok Hin Hs0. destruct (Z.eqb_spec (read_buffer_length (rd i)) 0) as [Hz|Hz].
  - destruct (io_read_ok 1 r i s Hu Hfd Hok Hin) as (i1 & E & ? & ? & ?).
    { destruct s; [done|]. unfold size. cbn. lia. }
    exists (take 1 s), i1. destruct s as [|c s]; [done|]. cbn [take length] in *. repeat (split; [done|]). lia.
  - exists [], i. split; [done|]. split; [auto with client|]. split; [done|]. split; [done|].
    split; [done|]. split; [cbn; lia|]. intros _. rewrite (unread_length i Hok). pose proof (rd_len _ Hok). lia.
Qed.

(** The line of [c ++ u ++ t], when [c] is at most one character and [u] is looked at next. *)
Lemma until_lf_pieces lim (c u t : cstring) :
  (length c <= 1)%nat -> c <> [LF] -> (0 < lim)%nat ->
  let lim1 := (lim - length c)%nat in
  let v := until_lf lim1 u in
  let m := until_lf (lim1 - length u) t in
  (v.1 = true /\ until_lf lim (c ++ u ++ t) = (true, c ++ v.2))
  \/ (v.1 = false /\ (lim1 <= length u)%nat /\ length v.2 = lim1 /\ until_lf lim (c ++ u ++ t) = (false, c ++ v.2))
  \/ (v.1 = false /\ (length u < lim1)%nat /\ v.2 = u /\ until_lf lim (c ++ u ++ t) = (m.1, c ++ u ++ m.2)).
Proof.
  intros Hc Hlf Hlim lim1 v m.
  assert (until_lf lim (c ++ u ++ t) = let '(b, l) := until_lf lim1 (u ++ t) in (b, c ++ l)) as ->.
  { destruct c as [|c0 [|]]; cbn [length] in *; [|destruct lim as [|lim0]; [lia|]|lia].
    - rewrite app_nil_l. unfold lim1. rewrite Nat.sub_0_r. by destruct (until_lf lim (u ++ t)).
    - cbn [app until_lf]. rewrite bool_decide_false by done. unfold lim1. cbn. rewrite Nat.sub_0_r. done. }
  rewrite until_lf_app. fold v. destruct (v.1) eqn:Hv.
  - left. split; [done|]. destruct v. cbn in *. by subst.
  - right. pose proof (until_lf_none lim1 u Hv) as Htk. fold v in Htk.
    destruct (decide (lim1 <= length u)%nat) as [Hfull|Hmore].
    + left. replace (lim1 - length u)%nat with 0%nat by lia. cbn. rewrite app_nil_r, <- Htk.
      split; [done|]. split; [done|]. split; [rewrite Htk, length_take; lia|done].
    + right. rewrite take_ge in Htk by lia. rewrite (take_ge u) by lia. fold m. destruct m.
      split; [done|]. split; [lia|]. done.
Qed.

(** Comparing the characters stored with the array's size. *)
Lemma size_acc_eqb size_ (acc l : cstring) : size acc < size_ ->
  (size (acc ++ l) =? size_) = (length l =? Z.to_nat (size_ - size acc))%nat.
Proof.
  intros Ha. rewrite size_app. unfold size in *.
  destruct (Z.eqb_spec (Z.of_nat (length acc) + Z.of_nat (length l)) size_),
    (Nat.eqb_spec (length l) (Z.to_nat (size_ - Z.of_nat (length acc)))); lia || done.
Qed.

(** The rounds of the loop read the line of the input, wherever the pieces end. *)
Lemma readline_loop_ok fuel : forall size_ acc r i s,
  use_udp (flags (memc r)) = false -> fd i = true -> rd_ok (rd i) -> incoming i s -> size acc < size_ ->
  let lim := Z.to_nat (size_ - size acc) in
  let l := until_lf lim s in
  (l.1 = true \/ length l.2 = lim) -> (lim < fuel)%nat ->
  exists i', readline_loop fuel size_ acc (mkCtx r i)
      = (Ret (if (length l.2 =? lim)%nat then MEMCACHED_PROTOCOL_ERROR else MEMCACHED_SUCCESS, acc ++ l.2), mkCtx r i')
    /\ reads i i' /\ rd_ok (rd i') /\ incoming i' (drop (length l.2) s).
Proof.
  induction fuel as [|fuel IH]; intros size_ acc r i s Hu Hfd Hok Hin Hacc lim l Hend Hf; [lia|].
  assert (0 < lim)%nat as Hlim by (unfold lim; lia).
  assert (s <> []) as Hs0.
  { intros ->. unfold l in Hend. destruct lim; [lia|]. cbn in Hend. by destruct Hend. }
  cbn [readline_loop]. unfold bind at 1, geti at 1, gets at 1. cbn [inst].
  destruct (readline_first r i s Hu Hfd Hok Hin Hs0) as (c & i1 & E & Hr1 & Hok1 & Hin1 & Hc & Hc1 & Hc0).
  run E. clear E. rewrite memcached_failed_success. cbn [andb].
  unfold bind at 1, geti at 1, gets at 1. cbn [inst].
  assert (Hsc := take_drop (length c) s). rewrite <- Hc in Hsc.
  destruct (bool_decide (c = [LF])) eqn:Hlf.
  { apply bool_decide_eq_true in Hlf as ->.
    assert (l = (true, [LF])) as -> by (unfold l; destruct lim; [lia|]; rewrite <- Hsc; done).
    unfold bind, ret. rewrite size_acc_eqb by done. fold lim. cbn [fst snd] in *. exists i1.
    by destruct (length [LF] =? lim)%nat. }
  apply bool_decide_eq_false in Hlf.
  destruct (copy_line_ok (Z.to_nat (read_buffer_length (rd i1))) size_ (acc ++ c) r i1 _ Hok1 Hin1 eq_refl)
    as (i2 & E & Hr2 & Hok2 & Hin2 & _).
  run E. clear E. rewrite drop_drop in Hin2. destruct Hin1 as (chunks & _ & _ & Hs1). rewrite Hs1 in Hsc.
  replace (Z.to_nat (size_ - size (acc ++ c))) with (lim - length c)%nat in * by (unfold lim; rewrite size_app; unfold size; lia).
  pose proof (until_lf_pieces lim c (unread i1) (concat chunks) Hc1 Hlf Hlim) as Hp. cbv zeta in Hp.
  set (v := until_lf (lim - length c) (unread i1)) in *. rewrite Hsc in Hp. fold l in Hp.
  rewrite <- app_assoc, size_acc_eqb by done. fold lim. rewrite length_app. pose proof (reads_trans _ _ _ Hr1 Hr2) as Hr.
  destruct Hp as [(Hv & El)|[(Hv & Hfull & Hlv & El)|(Hv & Hmore & Hlv & El)]]; rewrite Hv, El in *; cbn [fst snd] in *;
    rewrite ?length_app in *.
  - exists i2. by destruct (length c + length v.2 =? lim)%nat.
  - rewrite (proj2 (Nat.eqb_eq _ lim)) by lia. by exists i2.
  - rewrite Hlv in *. rewrite (proj2 (Nat.eqb_neq _ lim)) by lia.
    set (m := until_lf (lim - length c - length (unread i1)) (concat chunks)) in *.
    assert (Z.to_nat (size_ - size (acc ++ c ++ unread i1)) = lim - length c - length (unread i1))%nat as Hl2
      by (rewrite !size_app; unfold lim, size; lia).
    assert (drop (length c + length (unread i1)) s = concat chunks) as Hd
      by (rewrite <- Hsc, app_assoc, <- length_app; apply drop_app_length).
    rewrite Hd in Hin2.
    destruct (IH size_ (acc ++ c ++ unread i1) r i2 (concat chunks)) as (i3 & E3 & Hr3 & Hok3 & Hin3).
    { done. } { destruct Hr as (? & ? & ? & ->). done. } { done. } { done. }
    { rewrite !size_app. unfold lim, size in *. lia. }
    { rewrite Hl2. fold m. destruct Hend as [->|Hend]; [by left|right; lia]. }
    { rewrite Hl2. destruct c as [|c0 c]; cbn [length] in *; [specialize (Hc0 eq_refl)|]; lia. }
    rewrite Hl2 in E3, Hin3. fold m in E3, Hin3. exists i3. rewrite E3, <- !app_assoc. split.
    + do 3 f_equal.
      by destruct (Nat.eqb_spec (length m.2) (lim - length c - length (unread i1))),
        (Nat.eqb_spec (length c + (length (unread i1) + length m.2)) lim); try done; lia.
    + split; [by eapply reads_trans|]. split; [done|]. by rewrite Nat.add_assoc, <- drop_drop, Hd.
Qed.

(** A line that ends before the array does is read up to and with its end. *)
Lemma readline_ok size_ r i line rest :
  use_udp (flags (memc r)) = false -> fd i = true -> rd_ok (rd i) ->
  incoming i (line ++ LF :: rest) -> LF ∉ line -> size line + 1 < size_ ->
  exists i', memcached_io_readline size_ (mkCtx r i) = (Ret (MEMCACHED_SUCCESS, line ++ [LF]), mkCtx r i')
    /\ reads i i' /\ rd_ok (rd i') /\ incoming i' rest.
Proof.
  intros Hu Hfd Hok Hin Hlf Hs. pose proof (size_nonneg line).
  assert (until_lf (Z.to_nat (size_ - size [])) (line ++ LF :: rest) = (true, line ++ [LF])) as El
    by (apply until_lf_line; [done|unfold size in *; cbn; lia]).
  destruct (readline_loop_ok (S (Z.to_nat size_)) size_ [] r i _ Hu Hfd Hok Hin) as (i' & E & Hr & Hok' & Hin').
  - unfold size in *. cbn. lia.
  - rewrite El. by left.
  - unfold size. cbn. lia.
  - rewrite El in E, Hin'. cbn [fst snd] in E, Hin'. exists i'. unfold memcached_io_readline. rewrite E.
    rewrite (proj2 (Nat.eqb_neq _ _)) by (rewrite length_app; unfold size in *; cbn in *; lia).
    split; [done|]. split; [done|]. split; [done|].
    by rewrite length_app, (cons_middle LF), app_assoc, <- length_app, drop_app_length in Hin'.
Qed.

(** A line that fills the array is refused. *)
Lemma readline_too_long size_ r i line rest :
  use_udp (flags (memc r)) = false -> fd i = true -> rd_ok (rd i) ->
  incoming i (line ++ rest) -> LF ∉ line -> size line = size_ -> 0 < size_ ->
  exists i', memcached_io_readline size_ (mkCtx r i) = (Ret (MEMCACHED_PROTOCOL_ERROR, line), mkCtx r i')
    /\ reads i i' /\ rd_ok (rd i') /\ incoming i' rest.
Proof.
  intros Hu Hfd Hok Hin Hlf Hs Hp.
  assert (until_lf (Z.to_nat (size_ - size [])) (line ++ rest) = (false, line)) as El.
  { replace (Z.to_nat (size_ - size [])) with (length line) by (unfold size in *; cbn; lia). clear -Hlf.
    induction line as [|c line IH]; cbn; [done|]. apply not_elem_of_cons in Hlf as [? ?].
    rewrite bool_decide_false by congruence. by rewrite IH. }
  destruct (readline_loop_ok (S (Z.to_nat size_)) size_ [] r i _ Hu Hfd Hok Hin) as (i' & E & Hr & Hok' & Hin').
  - unfold size in *. cbn. lia.
  - rewrite El. right. unfold size in *. cbn. lia.
  - unfold size. cbn. lia.
  - rewrite El in E, Hin'. cbn [fst snd] in E, Hin'. exists i'. unfold memcached_io_readline. rewrite E.
    rewrite (proj2 (Nat.eqb_eq _ _)) by (unfold size in *; cbn in *; lia). by rewrite drop_app_length in Hin'.
Qed.
End Reading.

(** * What the client makes of a response

    Lines and value blocks as the server writes them, read by [textual_read_one_response]. *)

From Stdlib Require Import String.

(** ** Scanning *)

Lemma span_app p (w t : cstring) c n : forallb p w = true -> p c = false ->
  span p (w ++ c :: t) n = Ret (n + List.length w)%nat.
Proof.
  intros Hw Hc. revert n. induction w as [|x w IH]; intros n; cbn in *.
  - rewrite Hc. f_equal. lia.
  - apply andb_prop in Hw as [-> Hw]. rewrite IH by done. f_equal. lia.
Qed.

Lemma skip_while_app p (pre w t : cstring) c n : n = List.length pre -> forallb p w = true -> p c = false ->
  skip_while p (pre ++ w ++ c :: t) n = Ret (n + List.length w)%nat.
Proof. intros -> Hw Hc. unfold skip_while. rewrite drop_app_length. by apply span_app. Qed.

Lemma char_at_app (pre t : cstring) c n : n = List.length pre -> char_at (pre ++ c :: t) n = Ret c.
Proof. intros ->. unfold char_at. by rewrite lookup_app_r, Nat.sub_diag by lia. Qed.

(** A printed number followed by a character that is no digit is read back. *)
Lemma scan_to_string (pre t : cstring) c n x :
  n = List.length pre -> 0 <= x -> isdigit c = false ->
  scan_number (pre ++ to_string x ++ c :: t) n = Ret (false, x, (n + List.length (to_string x))%nat).
Proof.
  intros Hn Hx Hc. destruct (to_string_spec x Hx) as (Hv & Hd & Hne).
  destruct (to_string x) as [|d ds] eqn:Et; [done|]. unfold scan_number.
  assert (isdigit d = true) as Hd1 by (cbn in Hd; by apply andb_prop in Hd as [? _]).
  destruct (isdigit_plain d Hd1) as (Hsp & Hm & Hp).
  assert (skip_while isspace (pre ++ (d :: ds) ++ c :: t) n = Ret n) as ->.
  { pose proof (skip_while_app isspace pre [] (ds ++ c :: t) d n Hn eq_refl Hsp) as E.
    rewrite Nat.add_0_r in E. exact E. }
  cbn [obind]. cbn [app]. rewrite char_at_app by done. cbn [obind].
  assert (ascii_eqb d "-" = false /\ ascii_eqb d "+" = false) as (-> & ->).
  { unfold ascii_eqb. apply Ascii.eqb_neq in Hm, Hp. split; by apply bool_decide_eq_false. }
  cbn [orb]. change (d :: ds ++ c :: t) with ((d :: ds) ++ c :: t).
  rewrite (skip_while_app isdigit pre (d :: ds) t c n Hn Hd Hc). cbn [obind].
  rewrite (proj2 (Nat.eqb_neq _ _)) by (cbn; lia).
  replace (n + List.length (d :: ds) - n)%nat with (List.length (d :: ds)) by lia.
  by rewrite Hn, drop_app_length, take_app_length, Hv.
Qed.

Lemma strtou_to_string bits (pre t : cstring) c n x :
  n = List.length pre -> 0 <= x < 2 ^ bits -> isdigit c = false ->
  strtou bits (pre ++ to_string x ++ c :: t) n = Ret (x, (n + List.length (to_string x))%nat, false).
Proof.
  intros Hn Hx Hc. unfold strtou. rewrite (scan_to_string pre t c n x Hn ltac:(lia) Hc). cbn [obind].
  rewrite (proj2 (Z.leb_gt _ _)) by lia. by rewrite Z.mod_small by lia.
Qed.

(** Keys as the client accepts them: printing characters. *)
Definition graphic (k : cstring) : Prop := forallb (fun c => negb (iscntrl c || isspace c)) k = true.

Definition VALUE : cstring := lit "VALUE ".

Lemma load_key_ok (ns k t : cstring) :
  graphic ns -> graphic k -> size k < MEMCACHED_MAX_KEY ->
  load_key (VALUE ++ ns ++ k ++ SP :: t) (List.length ns)
  = Ret (k, (6 + List.length (ns ++ k))%nat).
Proof.
  intros Hns Hk Hs. unfold load_key.
  pose proof (skip_while_app (fun c => negb (iscntrl c || isspace c)) VALUE (ns ++ k) t SP 6 eq_refl) as E.
  rewrite <- app_assoc in E. rewrite E; [|by rewrite forallb_app, Hns, Hk|done]. cbn [obind].
  assert (drop (6 + List.length ns) (take (6 + List.length (ns ++ k)) (VALUE ++ ns ++ k ++ SP :: t)) = k) as ->.
  { change (6 + List.length ns)%nat with (List.length VALUE + List.length ns)%nat.
    change (6 + List.length (ns ++ k))%nat with (List.length VALUE + List.length (ns ++ k))%nat.
    rewrite <- (length_app VALUE ns), <- (length_app VALUE (ns ++ k)).
    replace (VALUE ++ ns ++ k ++ SP :: t) with ((VALUE ++ ns ++ k) ++ SP :: t) by (by rewrite <- !app_assoc).
    by rewrite take_app_length, app_assoc, drop_app_length. }
  by rewrite (proj2 (Z.ltb_lt _ _)) by done.
Qed.

(** ** Data blocks *)

Section Values.
Context `{DM : DataModel} `{AL : Allocator} `{CF : ClientConfig} `{CK : Clock} `{CC : CipherConfig}.
Context (Hgrants : forall k n, grants k n = true).

(** Room in the address space for another block. *)
Definition fits (s : memcached_string_st) (n : Z) : Prop := str_size s + n + MEMCACHED_BLOCK_SIZE < ULONG_MOD.

Lemma string_check_io_ok s need r i :
  mstring_ok s -> 0 <= need -> fits s need ->
  exists s' k, string_check_io s need (mkCtx r i) = (Ret (true, s'), mkCtx (set_allocs k r) i)
    /\ mstring_ok s' /\ str_end s' = str_end s /\ str_end s + need <= str_size s'
    /\ str_size s' <= str_size s + need + MEMCACHED_BLOCK_SIZE.
Proof using Hgrants.
  intros Hok Hn Hf.
  destruct (mstring_check_spec s need (allocs r) Hok Hn Hf) as (c & s' & k & E & Hok' & He & _ & Hroom & _ & Hg & Hsz).
  specialize (Hg Hgrants) as ->. exists s', k. unfold string_check_io, with_allocs, bind at 1. cbn [root].
  rewrite E. split; [done|]. split; [done|]. split; [done|]. split; [by apply Hroom|done].
Qed.

(** The data block is stored with two null characters for its end of line. *)
Lemma fetch_data_ok data rest r i x :
  use_udp (flags (memc r)) = false -> fd i = true -> _key (hashkit (memc r)) = None ->
  rd_ok (rd i) -> incoming i (data ++ CRLF ++ rest) ->
  mstring_ok (res_value x) -> str_end (res_value x) = 0 -> fits (res_value x) (size data + 2) ->
  exists v i' k, fetch_data (size data) x (mkCtx r i) = (Ret (MEMCACHED_SUCCESS, set_value v x), mkCtx (set_allocs k r) i')
    /\ mstring_ok v /\ str_chars v = data /\ str_end v = size data
    /\ str_size v <= str_size (res_value x) + size data + 2 + MEMCACHED_BLOCK_SIZE
    /\ reads i i' /\ rd_ok (rd i') /\ incoming i' rest.
Proof using Hgrants.
  intros Hu Hfd Hkey Hrd Hin Hok He Hf. pose proof (size_nonneg data) as Hd. pose proof Hok as [Hx ? ?].
  unfold fits, MEMCACHED_BLOCK_SIZE in Hf. unfold fetch_data. rewrite ulong_small by lia.
  destruct (string_check_io_ok (res_value x) (size data + 2) r i Hok ltac:(lia) Hf) as (v & k & E & Hokv & Hev & Hroom & Hsz).
  run E. cbn [negb]. rewrite He in Hev, Hroom.
  destruct (io_read_ok (size data + 2) (set_allocs k r) i (data ++ CRLF ++ rest)) as (i' & E2 & Hr & Hrd' & Hin');
    [done|done|done|done|rewrite !size_app; pose proof (size_nonneg rest); change (size CRLF) with 2; lia|].
  run E2. assert (Z.to_nat (size data + 2) = List.length (data ++ CRLF)) as Hlen
    by (rewrite length_app; unfold size; cbn; lia).
  rewrite Hlen, app_assoc, take_app_length in *. rewrite drop_app_length in Hin'.
  destruct (str_poke_ok v 0 (data ++ CRLF) Hokv ltac:(lia)) as (v1 & P1 & Hok1 & He1 & Hz1 & M1);
    [rewrite size_app; change (size CRLF) with 2; lia|].
  unfold bind at 1, lift at 1. rewrite P1. change (memcached_failed MEMCACHED_SUCCESS) with false. cbn [andb].
  rewrite size_app. change (size CRLF) with 2. rewrite Z.eqb_refl. cbn [negb].
  destruct (str_poke_ok v1 (size data) [zero] Hok1 Hd) as (v2 & P2 & Hok2 & He2 & Hz2 & M2); [change (size [zero]) with 1; lia|].
  unfold bind at 1, lift at 1. rewrite P2.
  destruct (str_poke_ok v2 (size data + 1) [zero] Hok2 ltac:(lia)) as (v3 & P3 & Hok3 & He3 & Hz3 & M3); [change (size [zero]) with 1; lia|].
  unfold bind at 1, lift at 1. rewrite P3.
  unfold bind at 1, conf, gets. cbn [root memc set_allocs]. rewrite Hkey. cbn [andb].
  exists (memcached_string_set_length v3 (size data)), i', k. split; [done|].
  pose proof Hok3 as [? ? Hm3]. split; [split; cbn; [lia|done|done]|]. split; [|split; [done|split; [cbn; lia|done]]].
  unfold str_chars. cbn [memcached_string_set_length str_end str_mem].
  assert (List.length (default [] (str_mem v)) = Z.to_nat (str_size v)) as Hlv by (pose proof Hokv as [? ? Hmv]; unfold size in Hmv; lia).
  assert (List.length (default [] (str_mem v1)) = Z.to_nat (str_size v)) as Hlv1 by (pose proof Hok1 as [? ? Hmv]; unfold size in Hmv; lia).
  assert (List.length (default [] (str_mem v2)) = Z.to_nat (str_size v)) as Hlv2 by (pose proof Hok2 as [? ? Hmv]; unfold size in Hmv; lia).
  rewrite M3, take_app_le by (rewrite length_take; lia). rewrite take_take, Nat.min_l by lia.
  rewrite M2, take_app_le by (rewrite length_take; lia). rewrite take_take, Nat.min_l by lia.
  rewrite M1. change (Z.to_nat 0) with 0%nat. rewrite take_0, app_nil_l, take_app_le by (rewrite length_app; unfold size; lia).
  by rewrite take_app_le, take_ge by (unfold size; lia).
Qed.

(** ** Value blocks *)

Definition cas_text (cas : option Z) : cstring := match cas with Some c => SP :: to_string c | None => [] end.

(** The first line of a value, as the server writes it. *)
Definition value_line (nsk : cstring) (f n : Z) (cas : option Z) : cstring :=
  VALUE ++ nsk ++ SP :: to_string f ++ SP :: to_string n ++ cas_text cas ++ CRLF.

Definition u64_range (x : Z) : Prop := 0 <= x < 2 ^ 64.

Lemma not_end p : (p < 350)%nat -> (p =? Z.to_nat MEMCACHED_DEFAULT_COMMAND_SIZE)%nat = false.
Proof. intros. apply Nat.eqb_neq. unfold MEMCACHED_DEFAULT_COMMAND_SIZE. lia. Qed.

(** Where the numbers of the line are, and that the parsers read them. *)
Lemma value_line_scan ns k f n cas junk :
  let line := value_line (ns ++ k) f n cas in
  let buf := line ++ junk in
  graphic ns -> graphic k -> size k < MEMCACHED_MAX_KEY -> 0 <= f < UINT_MOD -> u64_range n ->
  match cas with Some c => u64_range c | None => True end -> size line < MEMCACHED_DEFAULT_COMMAND_SIZE ->
  exists p1 p2 p3, (p1 < p2 < p3)%nat /\ (p3 + 2 <= 350)%nat
    /\ load_key buf (List.length ns) = Ret (k, p1)
    /\ skip_while isdigit buf (S p1) = Ret p2 /\ strtou long_bits buf (S p1) = Ret (f, p2, false)
    /\ skip_while isdigit buf (S p2) = Ret p3 /\ strtou 64 buf (S p2) = Ret (n, p3, false)
    /\ match cas with
       | None => char_at buf p3 = Ret CR
       | Some d => char_at buf p3 = Ret SP /\ exists p4, skip_while isdigit buf (S p3) = Ret p4
           /\ strtou 64 buf (S p3) = Ret (d, p4, false) /\ (p4 <= 350)%nat
       end.
Proof.
  intros line buf Gns Gk Hk Hf Hn Hcas Hline. unfold u64_range in *.
  assert (0 <= f < 2 ^ long_bits) as Hf32.
  { unfold UINT_MOD in Hf.
    destruct long_bits_cases as [-> | ->]; [change (2 ^ 32) with 4294967296|change (2 ^ 64) with 18446744073709551616]; lia. }
  destruct (to_string_spec f ltac:(lia)) as (_ & Df & _). destruct (to_string_spec n ltac:(lia)) as (_ & Dn & _).
  set (t2 := to_string n ++ cas_text cas ++ CRLF ++ junk).
  set (pre1 := VALUE ++ ns ++ k ++ [SP]). set (pre2 := pre1 ++ to_string f ++ [SP]).
  assert (buf = VALUE ++ ns ++ k ++ SP :: to_string f ++ SP :: t2) as E0
    by (unfold buf, line, value_line, t2; do 4 (rewrite <- ?app_assoc; cbn [app]); done).
  assert (buf = pre1 ++ to_string f ++ SP :: t2) as E1 by (rewrite E0; unfold pre1; rewrite <- !app_assoc; done).
  assert (buf = pre2 ++ t2) as E2 by (rewrite E1; unfold pre2; rewrite <- !app_assoc; done).
  assert (List.length pre1 = S (6 + List.length (ns ++ k))) as L1
    by (unfold pre1; rewrite !length_app; change (List.length [SP]) with 1%nat; change (List.length VALUE) with 6%nat; lia).
  assert (List.length pre2 = S (List.length pre1 + List.length (to_string f))) as L2
    by (unfold pre2; rewrite !length_app; change (List.length [SP]) with 1%nat; lia).
  assert (size line = Z.of_nat (List.length pre2 + List.length (to_string n)) + size (cas_text cas) + 2) as Hsz.
  { unfold line, value_line. rewrite !size_app, size_cons, !size_app, size_cons, !size_app.
    change (size VALUE) with 6. change (size CRLF) with 2. unfold size. rewrite L2, L1, length_app. lia. }
  unfold MEMCACHED_DEFAULT_COMMAND_SIZE in Hline. pose proof (size_nonneg (cas_text cas)).
  exists (6 + List.length (ns ++ k))%nat, (List.length pre1 + List.length (to_string f))%nat,
    (List.length pre2 + List.length (to_string n))%nat.
  rewrite <- L1, <- L2. split; [lia|]. split; [lia|].
  split; [rewrite E0; by apply load_key_ok|].
  split; [rewrite E1; by apply skip_while_app|]. split; [rewrite E1; by apply strtou_to_string|].
  rewrite E2. unfold t2.
  destruct cas as [d|]; cbn [cas_text app CRLF] in *;
    (split; [by apply skip_while_app|]; split; [apply strtou_to_string; done || lia|]);
    rewrite app_assoc; (split; [apply char_at_app; by rewrite length_app|]) || (apply char_at_app; by rewrite length_app).
  destruct (to_string_spec d ltac:(lia)) as (_ & Dd & _).
  set (pre3 := (pre2 ++ to_string n) ++ [SP]).
  assert (S (List.length pre2 + List.length (to_string n)) = List.length pre3) as L3
    by (unfold pre3; rewrite !length_app; change (List.length [SP]) with 1%nat; lia).
  rewrite L3, (cons_middle SP), app_assoc. fold pre3.
  exists (List.length pre3 + List.length (to_string d))%nat. rewrite size_cons in Hsz.
  split; [by apply skip_while_app|]. split; [apply strtou_to_string; done || lia|unfold size in Hsz, Hline; lia].
Qed.

(** A value block is read into the result: key without the prefix, flags, cas and data. *)
Lemma textual_value_fetch_ok ns k f cas data rest junk r i x :
  let line := value_line (ns ++ k) f (size data) cas in
  use_udp (flags (memc r)) = false -> fd i = true -> _key (hashkit (memc r)) = None -> _namespace (memc r) = ns ->
  graphic ns -> graphic k -> size k < MEMCACHED_MAX_KEY -> 0 <= f < UINT_MOD ->
  match cas with Some c => u64_range c | None => True end -> size line < MEMCACHED_DEFAULT_COMMAND_SIZE ->
  rd_ok (rd i) -> incoming i (data ++ CRLF ++ rest) -> mstring_ok (res_value x) -> fits (res_value x) (size data + 2) ->
  exists v i' n, textual_value_fetch (line ++ junk) x (mkCtx r i)
      = (Ret (MEMCACHED_SUCCESS, mkResult k f (default 0 cas) 0 v UINT64_MAX (res_count x)), mkCtx (set_allocs n r) i')
    /\ mstring_ok v /\ str_chars v = data /\ str_end v = size data
    /\ str_size v <= str_size (res_value x) + size data + 2 + MEMCACHED_BLOCK_SIZE
    /\ reads i i' /\ rd_ok (rd i') /\ incoming i' rest.
Proof using Hgrants.
  intros line Hu Hfd Hkey Hns Gns Gk Hk Hf Hcas Hline Hrd Hin Hok Hfit.
  pose proof (size_nonneg data) as Hd. pose proof Hok as [? ? ?]. unfold fits, MEMCACHED_BLOCK_SIZE in Hfit.
  assert (u64_range (size data)) as Hd64.
  { unfold u64_range, ULONG_MOD, UINT_MOD in *. destruct (long_bits =? 32); lia. }
  destruct (value_line_scan ns k f (size data) cas junk Gns Gk Hk Hf Hd64 Hcas Hline)
    as (p1 & p2 & p3 & Hp & Hp3 & S0 & S1 & S2 & S3 & S4 & S5). fold line in S0, S1, S2, S3, S4, S5.
  set (buf := line ++ junk) in *.
  assert (forall y p, (p <= 350)%nat -> res_value y = memcached_string_reset (res_value x) ->
    exists v i' n, (if (Z.to_nat MEMCACHED_DEFAULT_COMMAND_SIZE <? p)%nat then read_error y else fetch_data (size data) y) (mkCtx r i)
      = (Ret (MEMCACHED_SUCCESS, set_value v y), mkCtx (set_allocs n r) i')
    /\ mstring_ok v /\ str_chars v = data /\ str_end v = size data
    /\ str_size v <= str_size (res_value x) + size data + 2 + MEMCACHED_BLOCK_SIZE
    /\ reads i i' /\ rd_ok (rd i') /\ incoming i' rest) as Hfetch.
  { intros y p Hp0 Hy. rewrite (proj2 (Nat.ltb_ge _ _)) by (unfold MEMCACHED_DEFAULT_COMMAND_SIZE; lia).
    destruct (fetch_data_ok data rest r i y) as (v & i' & n & E & Hv); rewrite ?Hy; try done.
    - by apply mstring_ok_reset.
    - exists v, i', n. rewrite Hy in Hv. done. }
  unfold textual_value_fetch. unfold bind at 1, conf, gets. cbn [root]. rewrite Hns.
  unfold bind at 1, lift at 1. rewrite S0, !not_end by lia. cbn [orb].
  unfold bind at 1, lift at 1. rewrite S1. unfold bind at 1, lift at 1. rewrite S2.
  cbn [note_range]. unfold bind at 1, ret at 1. rewrite !not_end by lia. cbn [orb].
  unfold bind at 1, lift at 1. rewrite S3. unfold bind at 1, lift at 1. rewrite S4.
  cbn [note_range]. unfold bind at 1, ret at 1. rewrite not_end, ulong_small by lia.
  destruct cas as [d|]; [destruct S5 as (S5 & p4 & S6 & S7 & Hp4)|];
    unfold bind at 1, lift at 1; rewrite S5; [change (ascii_eqb SP CR) with false|change (ascii_eqb CR CR) with true]; cbv iota.
  - unfold bind at 1. unfold bind at 1, lift at 1. rewrite S6. unfold bind at 1, lift at 1. rewrite S7.
    cbn [note_range]. unfold bind at 1, ret at 1. unfold ret at 1.
    edestruct (Hfetch (mkResult k (u32 f) d 0 (memcached_string_reset (res_value x)) UINT64_MAX (res_count x)) p4)
      as (v & i' & n & E & Hv); [lia|done|].
    exists v, i', n. split; [|exact Hv]. etrans; [exact E|]. unfold set_value. cbn. by rewrite u32_small.
  - unfold bind at 1, ret at 1.
    edestruct (Hfetch (mkResult k (u32 f) 0 0 (memcached_string_reset (res_value x)) UINT64_MAX (res_count x)) (p3 + 2)%nat)
      as (v & i' & n & E & Hv); [lia|done|].
    exists v, i', n. split; [|exact Hv]. etrans; [exact E|]. unfold set_value. cbn. by rewrite u32_small.
Qed.
End Values.
