(* ===== verification/ClientBinarySpec.v ===== *)
(** * What the reader of binary responses returns

    Packets as the binary protocol defines them, and that [binary_read] takes exactly one of
    them from the stream: an item, or the code of an error, whose message is dropped. Errors of
    quiet stores are skipped. *)

From stdpp Require Import base list.
From Stdlib Require Import ZArith Lia Ascii.
From S2P Require Import Prelude CxxString HashWords HashKit HashkitString Rijndael Aes Continuum ClientTypes.
From S2P Require Import ByteOrder ClientString ClientState BinaryProtocol ClientRead ClientBinary ClientReadSpec.

(** ** Bytes and characters *)

Lemma uchar_char_of b : byte b -> uchar (char_of b) = b.
Proof. intros [? ?]. unfold uchar, char_of. rewrite N_ascii_embedding; lia. Qed.

Lemma uchar_octets b : Forall byte b -> map uchar (octets b) = b.
Proof. unfold octets. induction 1 as [|x b Hx _ IH]; cbn [map]; [done|]. by rewrite uchar_char_of, IH. Qed.

Lemma size_octets b : size (octets b) = Z.of_nat (length b).
Proof. unfold size, octets. by rewrite length_map. Qed.

(** ** Packets *)

Record Packet := mkPacket {
  p_op : Z;
  p_status : Z;
  p_extras : cstring;
  p_key : cstring;
  p_value : cstring;
  p_opaque : Z;
  p_cas : Z;
}.

Definition body_size (p : Packet) : Z := size (p_extras p) + size (p_key p) + size (p_value p).

(** The 24 bytes of a header, numbers with their most significant byte first. *)
Definition packet_header (mg : Z) (p : Packet) : list Z :=
  [mg; p_op p] ++ be 2 (size (p_key p)) ++ [size (p_extras p); PROTOCOL_BINARY_RAW_BYTES] ++ be 2 (p_status p)
  ++ be 4 (body_size p) ++ be 4 (p_opaque p) ++ be 8 (p_cas p).

Definition packet_body (p : Packet) : cstring := p_extras p ++ p_key p ++ p_value p.
Definition packet (mg : Z) (p : Packet) : cstring := octets (packet_header mg p) ++ packet_body p.

Record packet_ok (p : Packet) : Prop := {
  po_op : byte (p_op p);
  po_status : 0 <= p_status p < 65536;
  po_extras : size (p_extras p) < 256;
  po_key : size (p_key p) < 65536;
  po_body : body_size p < UINT_MOD;
  po_opaque : 0 <= p_opaque p < UINT_MOD;
  po_cas : u64_range (p_cas p);
}.

Lemma length_header mg p : length (packet_header mg p) = 24%nat.
Proof. unfold packet_header. rewrite !length_app, !length_be. done. Qed.

Lemma header_is_bytes mg p : byte mg -> packet_ok p -> Forall byte (packet_header mg p).
Proof.
  intros Hm [Ho _ He _ _ _ _]. unfold packet_header. pose proof (size_nonneg (p_extras p)).
  rewrite !Forall_app, !Forall_cons. unfold byte, PROTOCOL_BINARY_RAW_BYTES in *.
  repeat split; try apply be_bytes; try constructor; lia.
Qed.

(** The header of a packet as the client's functions see it after [to_host]. *)
Definition host_header (mg : Z) (p : Packet) : Header :=
  mkHeader mg (p_op p) (size (p_key p)) (size (p_extras p)) 0 (p_status p) (body_size p) (le_value (be 4 (p_opaque p)))
    (p_cas p).

Lemma field_at l o n a b c : l = a ++ b ++ c -> length a = o -> length b = n -> field l o n = le_value b.
Proof. intros -> <- <-. unfold field. by rewrite drop_app_length, take_app_length. Qed.

Lemma be_small n x : 0 <= x < 256 ^ Z.of_nat n -> be_value (be n x) = x.
Proof. intros. rewrite be_value_be. by apply Z.mod_small. Qed.

Lemma header_decodes mg p : packet_ok p ->
  magic (header_of (packet_header mg p)) = mg /\ to_host (header_of (packet_header mg p)) = host_header mg p.
Proof.
  intros [? ? ? ? ? ? ?]. unfold u64_range, UINT_MOD in *. pose proof (size_nonneg (p_key p)).
  pose proof (size_nonneg (p_extras p)). pose proof (size_nonneg (p_value p)).
  set (ks := be 2 (size (p_key p))). set (ss := be 2 (p_status p)). set (bs := be 4 (body_size p)).
  set (os := be 4 (p_opaque p)). set (cs := be 8 (p_cas p)). set (el := size (p_extras p)).
  assert (packet_header mg p = [mg; p_op p] ++ ks ++ [el; 0] ++ ss ++ bs ++ os ++ cs) as E by done.
  assert (length ks = 2 /\ length ss = 2 /\ length bs = 4 /\ length os = 4 /\ length cs = 8)%nat as (Lk & Ls & Lb & Lo & Lc)
    by (unfold ks, ss, bs, os, cs; by rewrite !length_be).
  unfold header_of, to_host. cbn [magic opcode keylen extlen datatype status bodylen opaque hdr_cas].
  rewrite (field_at (packet_header mg p) 0 1 [] [mg] ([p_op p] ++ ks ++ [el; 0] ++ ss ++ bs ++ os ++ cs) E eq_refl eq_refl).
  rewrite (field_at (packet_header mg p) 1 1 [mg] [p_op p] (ks ++ [el; 0] ++ ss ++ bs ++ os ++ cs) E eq_refl eq_refl).
  rewrite (field_at (packet_header mg p) 2 2 [mg; p_op p] ks ([el; 0] ++ ss ++ bs ++ os ++ cs) E eq_refl Lk).
  rewrite (field_at (packet_header mg p) 4 1 ([mg; p_op p] ++ ks) [el] ([0] ++ ss ++ bs ++ os ++ cs)
             ltac:(by rewrite E, <- !app_assoc) ltac:(by rewrite length_app, Lk) eq_refl).
  rewrite (field_at (packet_header mg p) 5 1 ([mg; p_op p] ++ ks ++ [el]) [0] (ss ++ bs ++ os ++ cs)
             ltac:(by rewrite E, <- !app_assoc) ltac:(by rewrite !length_app, Lk) eq_refl).
  rewrite (field_at (packet_header mg p) 6 2 ([mg; p_op p] ++ ks ++ [el; 0]) ss (bs ++ os ++ cs)
             ltac:(by rewrite E, <- !app_assoc) ltac:(by rewrite !length_app, Lk) Ls).
  rewrite (field_at (packet_header mg p) 8 4 ([mg; p_op p] ++ ks ++ [el; 0] ++ ss) bs (os ++ cs)
             ltac:(by rewrite E, <- !app_assoc) ltac:(by rewrite !length_app, Lk, Ls) Lb).
  rewrite (field_at (packet_header mg p) 12 4 ([mg; p_op p] ++ ks ++ [el; 0] ++ ss ++ bs) os cs
             ltac:(by rewrite E, <- !app_assoc) ltac:(by rewrite !length_app, Lk, Ls, Lb) Lo).
  rewrite (field_at (packet_header mg p) 16 8 ([mg; p_op p] ++ ks ++ [el; 0] ++ ss ++ bs ++ os) cs []
             ltac:(by rewrite E, app_nil_r, <- !app_assoc) ltac:(by rewrite !length_app, Lk, Ls, Lb, Lo) Lc).
  unfold ks, ss, bs, os, cs, el.
  rewrite !ntohs_le, ntohl_le, ntohll_le, !be_small by (apply be_bytes || apply length_be || (cbn; unfold body_size in *; lia)).
  cbn [le_value]. split; [lia|]. unfold host_header. f_equal; lia.
Qed.

(** ** Reading *)

Section Responses.
Context `{DM : DataModel} `{AL : Allocator} `{CF : ClientConfig} `{CK : Clock}.
Context (Hgrants : forall k n, grants k n = true).

Lemma safe_read_ok n r i b rest :
  use_udp (flags (memc r)) = false -> fd i = true -> rd_ok (rd i) -> incoming i (b ++ rest) -> n = size b ->
  exists i', memcached_safe_read n (mkCtx r i) = (Ret (MEMCACHED_SUCCESS, b), mkCtx r i')
    /\ reads i i' /\ rd_ok (rd i') /\ incoming i' rest.
Proof.
  intros Hu Hfd Hrd Hin ->. unfold memcached_safe_read. unfold bind at 1, geti, gets. cbn [inst].
  generalize (List.length (recvs (net i))) as fuel. intros fuel.
  assert (forall f j, safe_read_loop f (size b) b (mkCtx r j) = (Ret (MEMCACHED_SUCCESS, b), mkCtx r j)) as Hend.
  { intros f j. destruct f; cbn [safe_read_loop]; by rewrite Z.leb_refl. }
  destruct (Z.leb_spec (size b) 0) as [Hz|Hz].
  { assert (b = []) as -> by (destruct b; [done|rewrite size_cons in Hz; pose proof (size_nonneg b); lia]).
    exists i. by rewrite Hend; auto with client. }
  destruct (io_read_ok (size b) r i _ Hu Hfd Hrd Hin) as (i1 & E & Hr & Hrd1 & Hin1).
  { rewrite size_app. pose proof (size_nonneg rest). lia. }
  unfold size in E, Hin1. rewrite Nat2Z.id, take_app_length in E. rewrite Nat2Z.id, drop_app_length in Hin1.
  exists i1. split; [|done]. cbn [safe_read_loop]. rewrite size_nil, (proj2 (Z.leb_gt _ _)), Z.sub_0_r by lia.
  unfold size at 1. run E. change (rc_eqb MEMCACHED_SUCCESS MEMCACHED_IN_PROGRESS) with false.
  change (memcached_failed MEMCACHED_SUCCESS) with false. cbv iota. apply Hend.
Qed.

Lemma read_into_ok room old n r i b rest :
  use_udp (flags (memc r)) = false -> fd i = true -> rd_ok (rd i) -> incoming i (b ++ rest) -> n = size b -> n <= room ->
  exists i', read_into room old 0 n (mkCtx r i) = (Ret (MEMCACHED_SUCCESS, b ++ drop (length b) old), mkCtx r i')
    /\ reads i i' /\ rd_ok (rd i') /\ incoming i' rest.
Proof.
  intros Hu Hfd Hrd Hin -> Hroom. destruct (safe_read_ok (size b) r i b rest Hu Hfd Hrd Hin eq_refl) as (i' & E & H).
  exists i'. split; [|done]. unfold read_into. run E. rewrite (proj2 (Z.leb_le (0 + size b) room)) by lia.
  by rewrite orb_true_r.
Qed.

(** The message of an error is passed over. *)
Lemma skip_body_ok rounds : forall r i b rest,
  use_udp (flags (memc r)) = false -> fd i = true -> rd_ok (rd i) -> incoming i (b ++ rest) ->
  size b <= Z.of_nat rounds * SMALL_STRING_LEN ->
  exists i', skip_body rounds (size b) (mkCtx r i) = (Ret true, mkCtx r i')
    /\ reads i i' /\ rd_ok (rd i') /\ incoming i' rest.
Proof.
  induction rounds as [|rounds IH]; intros r i b rest Hu Hfd Hrd Hin Hb; pose proof (size_nonneg b);
    cbn [skip_body]; destruct (Z.eqb_spec (size b) 0) as [Hz|Hz].
  1, 3: assert (b = []) as -> by (destruct b; [done|rewrite size_cons in Hz; pose proof (size_nonneg b); lia]);
    exists i; auto with client.
  - unfold SMALL_STRING_LEN in Hb. lia.
  - unfold SMALL_STRING_LEN in *. set (nr := if 1024 <? size b then 1024 else size b).
    assert (0 < nr <= size b /\ size b - nr <= Z.of_nat rounds * 1024) as [Hnr Hrest]
      by (unfold nr; destruct (Z.ltb_spec 1024 (size b)); lia).
    assert (size (take (Z.to_nat nr) b) = nr) as Hsz by (unfold size in *; rewrite length_take; lia).
    destruct (safe_read_ok nr r i (take (Z.to_nat nr) b) (drop (Z.to_nat nr) b ++ rest)) as (i1 & E & Hr & Hrd1 & Hin1);
      [done..|by rewrite app_assoc, take_drop|done|].
    run E. cbn [fst]. change (ok MEMCACHED_SUCCESS) with true. cbv iota.
    assert (size b - nr = size (drop (Z.to_nat nr) b)) as -> by (unfold size in *; rewrite length_drop; lia).
    destruct (IH r i1 (drop (Z.to_nat nr) b) rest Hu) as (i' & E' & Hr' & ?); [by destruct Hr as (? & ? & ? & ->)|done|done| |].
    + unfold size in *. rewrite length_drop in *. lia.
    + exists i'. split; [done|]. split; [by eapply reads_trans|done].
Qed.

(** The value of an item, without anything behind it. *)
Lemma read_value_ok data rest r i x :
  use_udp (flags (memc r)) = false -> fd i = true -> rd_ok (rd i) -> incoming i (data ++ rest) ->
  mstring_ok (res_value x) -> str_end (res_value x) = 0 -> fits (res_value x) (size data) ->
  exists v i' k, read_value (size data) x (mkCtx r i) = (Ret (MEMCACHED_SUCCESS, set_value v x), mkCtx (set_allocs k r) i')
    /\ mstring_ok v /\ str_chars v = data /\ str_end v = size data
    /\ str_size v <= str_size (res_value x) + size data + MEMCACHED_BLOCK_SIZE
    /\ reads i i' /\ rd_ok (rd i') /\ incoming i' rest.
Proof using Hgrants.
  intros Hu Hfd Hrd Hin Hok He Hf. pose proof (size_nonneg data) as Hd. unfold read_value.
  destruct (string_check_io_ok Hgrants (res_value x) (size data) r i Hok Hd Hf) as (v & k & E & Hokv & Hev & Hroom & Hsz).
  run E. cbn [negb]. rewrite He in Hev, Hroom.
  destruct (safe_read_ok (size data) (set_allocs k r) i data rest Hu Hfd Hrd Hin eq_refl) as (i' & E2 & Hr & Hrd' & Hin').
  run E2. destruct (str_poke_ok v 0 data Hokv ltac:(lia) ltac:(lia)) as (v1 & P1 & Hok1 & He1 & Hz1 & M1).
  unfold bind at 1, lift at 1. rewrite P1. change (memcached_failed MEMCACHED_SUCCESS) with false. cbv iota.
  exists (memcached_string_set_length v1 (size data)), i', k. split; [done|].
  pose proof Hok1 as [? ? Hm1]. split; [split; cbn; [lia|done|done]|]. split; [|split; [done|split; [cbn; lia|done]]].
  unfold str_chars. cbn [memcached_string_set_length str_end str_mem]. rewrite M1. change (Z.to_nat 0) with 0%nat.
  rewrite take_0, app_nil_l. unfold size. by rewrite Nat2Z.id, take_app_length.
Qed.

(** ** Whole responses *)

(** A response whose header is next is handled with its fields as numbers. *)
Lemma header_ok fuel buf blen x r i p rest :
  use_udp (flags (memc r)) = false -> fd i = true -> rd_ok (rd i) -> packet_ok p ->
  incoming i (packet PROTOCOL_BINARY_RES p ++ rest) ->
  exists i1, binary_response_loop (S fuel) buf blen x (mkCtx r i)
      = after_header (binary_response_loop fuel buf blen x) (host_header PROTOCOL_BINARY_RES p) buf blen x (mkCtx r i1)
    /\ reads i i1 /\ rd_ok (rd i1) /\ incoming i1 (packet_body p ++ rest).
Proof.
  intros Hu Hfd Hrd Hp Hin. unfold packet in Hin. rewrite <- app_assoc in Hin.
  destruct (safe_read_ok sizeof_header r i _ _ Hu Hfd Hrd Hin) as (i1 & E & H).
  { by rewrite size_octets, length_header. }
  exists i1. split; [|done]. cbn [binary_response_loop]. run E. change (ok MEMCACHED_SUCCESS) with true. cbn [negb].
  rewrite uchar_octets by (apply header_is_bytes; [unfold byte, PROTOCOL_BINARY_RES; lia|done]).
  destruct (header_decodes PROTOCOL_BINARY_RES p Hp) as [-> ->]. done.
Qed.

(** An item as the server sends it: the flags are the extras. *)
Definition item_packet (op : Z) (nsk data : cstring) (f opq c : Z) : Packet :=
  mkPacket op PROTOCOL_BINARY_RESPONSE_SUCCESS (octets (be 4 f)) nsk data opq c.

Lemma item_ok ns k f opq c data rest buf blen x r i again :
  let p := item_packet PROTOCOL_BINARY_CMD_GETK (ns ++ k) data f opq c in
  use_udp (flags (memc r)) = false -> fd i = true -> _namespace (memc r) = ns -> packet_ok p ->
  k <> [] -> size (ns ++ k) <= MEMCACHED_MAX_KEY -> 0 <= f < UINT_MOD ->
  rd_ok (rd i) -> incoming i (packet_body p ++ rest) -> mstring_ok (res_value x) -> fits (res_value x) (size data) ->
  exists v i' n, after_header again (host_header PROTOCOL_BINARY_RES p) buf blen x (mkCtx r i)
      = (Ret (MEMCACHED_SUCCESS, buf, mkResult k f c 0 v UINT64_MAX (res_count x)), mkCtx (set_allocs n r) i')
    /\ mstring_ok v /\ str_chars v = data /\ str_end v = size data
    /\ reads i i' /\ rd_ok (rd i') /\ incoming i' rest.
Proof using Hgrants.
  intros p Hu Hfd Hns Hp Hk Hsz Hf Hrd Hin Hok Hfit. pose proof Hp as [? ? ? ? Hbody ? ?].
  pose proof (size_nonneg data). pose proof (size_nonneg ns).
  assert (0 < size k) as Hk0 by (destruct k; [done|rewrite size_cons; pose proof (size_nonneg k); lia]).
  unfold after_header. cbn [host_header status p_status p item_packet]. cbn [Z.eqb orb PROTOCOL_BINARY_RESPONSE_SUCCESS].
  unfold read_body. cbn [host_header opcode p_op p item_packet].
  change (PROTOCOL_BINARY_CMD_GETK =? PROTOCOL_BINARY_CMD_GETKQ) with false. rewrite Z.eqb_refl. cbn [orb].
  unfold packet_body in Hin. cbn [p item_packet p_extras p_key p_value] in Hin. rewrite <- !app_assoc in Hin.
  destruct (safe_read_ok 4 r i _ _ Hu Hfd Hrd Hin) as (i1 & E1 & R1 & Hrd1 & Hin1); [by rewrite size_octets, length_be|].
  assert (fd i1 = true) as Hfd1 by (destruct R1 as (? & ? & ? & ->); done).
  destruct (read_into_ok MEMCACHED_MAX_KEY [] (size (ns ++ k)) r i1 (ns ++ k) (data ++ rest) Hu Hfd1 Hrd1)
    as (i2 & E2 & R2 & Hrd2 & Hin2); [by rewrite <- app_assoc|done|done|].
  assert (fd i2 = true) as Hfd2 by (destruct R2 as (? & ? & ? & ->); done).
  set (x1 := mkResult k f c 0 (memcached_string_reset (res_value x)) UINT64_MAX (res_count x)).
  destruct (read_value_ok data rest r i2 x1 Hu Hfd2 Hrd2 Hin2 (mstring_ok_reset _ Hok) eq_refl Hfit)
    as (v & i3 & n & E3 & Hv & Hc & He & _ & R3 & Hrd3 & Hin3).
  assert (read_item (host_header PROTOCOL_BINARY_RES p) x (mkCtx r i)
    = (Ret (MEMCACHED_SUCCESS, mkResult k f c 0 v UINT64_MAX (res_count x)), mkCtx (set_allocs n r) i3)) as E.
  { unfold read_item. run E1. change (ok MEMCACHED_SUCCESS) with true. cbn [negb].
    rewrite uchar_octets, ntohl_le, be_small
      by (apply be_bytes || apply length_be || (change (256 ^ Z.of_nat 4) with UINT_MOD; lia)).
    cbn [host_header keylen bodylen extlen hdr_cas p item_packet p_key p_cas p_extras].
    run E2. change (memcached_failed MEMCACHED_SUCCESS) with false. cbv iota.
    unfold bind at 1, conf, gets. cbn [root]. rewrite Hns.
    rewrite (proj2 (Z.leb_gt (size (ns ++ k)) (size ns))), andb_false_r by (rewrite size_app; lia).
    rewrite drop_nil, app_nil_r. unfold size at 3. rewrite Nat2Z.id, drop_app_length.
    unfold body_size in *. cbn [p item_packet p_extras p_key p_value] in *. rewrite size_octets, length_be in *.
    assert (u32 (u32 (Z.of_nat 4 + size (ns ++ k) + size data - Z.of_nat 4) - size (ns ++ k)) = size data) as ->
      by (pose proof (size_nonneg (ns ++ k)); rewrite !u32_small; rewrite ?u32_small; lia).
    exact E3. }
  exists v, i3, n. unfold bind at 1. unfold bind at 1, ret at 1. run E. cbn [fst snd].
  change (ok MEMCACHED_SUCCESS) with true. split; [done|]. split; [done|]. split; [done|]. split; [done|].
  split; [|done]. eapply reads_trans; [exact R1|]. by eapply reads_trans.
Qed.

(** The codes of the errors that the protocol names. *)
Definition error_code (s : Z) : option memcached_return_t :=
  if s =? 1 then Some MEMCACHED_NOTFOUND else if s =? 2 then Some MEMCACHED_DATA_EXISTS else
  if s =? 3 then Some MEMCACHED_E2BIG else if s =? 5 then Some MEMCACHED_NOTSTORED else
  if s =? 32 then Some MEMCACHED_AUTH_FAILURE else
  if s =? 130 then Some MEMCACHED_MEMORY_ALLOCATION_FAILURE else None.

Lemma status_code_ok s rc c : error_code s = Some rc -> status_code s c = (Ret rc, c).
Proof.
  unfold error_code, status_code, PROTOCOL_BINARY_RESPONSE_SUCCESS, PROTOCOL_BINARY_RESPONSE_KEY_ENOENT,
    PROTOCOL_BINARY_RESPONSE_KEY_EEXISTS, PROTOCOL_BINARY_RESPONSE_NOT_STORED, PROTOCOL_BINARY_RESPONSE_E2BIG,
    PROTOCOL_BINARY_RESPONSE_ENOMEM, PROTOCOL_BINARY_RESPONSE_AUTH_CONTINUE, PROTOCOL_BINARY_RESPONSE_AUTH_ERROR.
  repeat match goal with |- context [s =? ?n] => destruct (Z.eqb_spec s n); subst; cbn end; intros [= <-]; done || lia.
Qed.

(** An error: its message is dropped, and either its code is returned or the next response is read. *)
Lemma error_ok p rc rest buf blen x r i again :
  use_udp (flags (memc r)) = false -> fd i = true -> rd_ok (rd i) -> packet_ok p -> error_code (p_status p) = Some rc ->
  incoming i (packet_body p ++ rest) ->
  exists i', after_header again (host_header PROTOCOL_BINARY_RES p) buf blen x (mkCtx r i)
      = (if is_quiet_store (p_op p) && negb (body_size p =? 0) then again (mkCtx r i')
         else (Ret (rc, buf, x), mkCtx r i'))
    /\ reads i i' /\ rd_ok (rd i') /\ incoming i' rest.
Proof.
  intros Hu Hfd Hrd Hp Hs Hin.
  assert (size (packet_body p) = body_size p) as Hb by (unfold packet_body, body_size; rewrite !size_app; lia).
  pose proof (size_nonneg (packet_body p)).
  destruct (skip_body_ok (S (Z.to_nat (body_size p / SMALL_STRING_LEN))) r i (packet_body p) rest Hu Hfd Hrd Hin)
    as (i' & E & H').
  { unfold SMALL_STRING_LEN. pose proof (Z.div_mod (body_size p) 1024 ltac:(lia)).
    pose proof (Z.mod_pos_bound (body_size p) 1024 ltac:(lia)). pose proof (Z.div_pos (body_size p) 1024). lia. }
  exists i'. split; [|done]. rewrite Hb in E. unfold after_header. cbn [host_header status bodylen opcode].
  assert ((p_status p =? PROTOCOL_BINARY_RESPONSE_SUCCESS) || (p_status p =? PROTOCOL_BINARY_RESPONSE_AUTH_CONTINUE) = false) as ->.
  { unfold PROTOCOL_BINARY_RESPONSE_SUCCESS, PROTOCOL_BINARY_RESPONSE_AUTH_CONTINUE, error_code in *.
    destruct (Z.eqb_spec (p_status p) 0) as [E0|]; [by rewrite E0 in Hs|].
    by destruct (Z.eqb_spec (p_status p) 33) as [E0|]; [rewrite E0 in Hs|]. }
  run E. cbn [negb]. rewrite andb_comm. destruct (is_quiet_store _ && _); [done|].
  by run (status_code_ok _ _ (mkCtx r i') Hs).
Qed.

(** Errors of quiet stores are passed over, whatever comes behind them. *)
Lemma quiet_errors_skipped qs : forall fuel buf blen x r i rest,
  use_udp (flags (memc r)) = false -> fd i = true -> rd_ok (rd i) ->
  Forall (fun q => packet_ok q /\ is_quiet_store (p_op q) = true /\ 0 < body_size q /\ is_Some (error_code (p_status q))) qs ->
  incoming i (concat (map (packet PROTOCOL_BINARY_RES) qs) ++ rest) ->
  exists i1, binary_response_loop (length qs + fuel) buf blen x (mkCtx r i) = binary_response_loop fuel buf blen x (mkCtx r i1)
    /\ reads i i1 /\ rd_ok (rd i1) /\ incoming i1 rest.
Proof.
  induction qs as [|q qs IH]; intros fuel buf blen x r i rest Hu Hfd Hrd Hq Hin; [exists i; auto with client|].
  apply Forall_cons in Hq as [(Hp & Hop & Hb & rc & Hs) Hq]. cbn [map concat length Nat.add] in *. rewrite <- app_assoc in Hin.
  destruct (header_ok (length qs + fuel) buf blen x r i q _ Hu Hfd Hrd Hp Hin) as (i1 & -> & R1 & Hrd1 & Hin1).
  assert (fd i1 = true) as Hfd1 by (destruct R1 as (? & ? & ? & ->); done).
  destruct (error_ok q rc _ buf blen x r i1 (binary_response_loop (length qs + fuel) buf blen x) Hu Hfd1 Hrd1 Hp Hs Hin1)
    as (i2 & -> & R2 & Hrd2 & Hin2).
  rewrite Hop, (proj2 (Z.eqb_neq _ _)) by lia. cbn [negb andb].
  assert (fd i2 = true) as Hfd2 by (destruct R2 as (? & ? & ? & ->); done).
  destruct (IH fuel buf blen x r i2 rest Hu Hfd2 Hrd2 Hq Hin2) as (i3 & -> & R3 & ?).
  exists i3. split; [done|]. split; [|done]. eapply reads_trans; [exact R1|]. by eapply reads_trans.
Qed.
End Responses.
