(* ===== verification/ClientWrite.v ===== *)
(** * Writing to a server: the sending half of io.cc, purge.cc, do.cc, quit.cc

    The output buffer, what happens when the kernel takes only a part of it or refuses, the
    purge of old responses that a flush may start, and whole requests. [io_flush] and
    [memcached_purge] call each other; the inner calls find [is_purging] set and return at
    once, so the recursion has two levels. *)

From stdpp Require Import base list.
From Stdlib Require Import ZArith Ascii String.
From S2P Require Import Prelude CxxString HashWords HashKit HashkitString Rijndael Aes Continuum ClientTypes.
From S2P Require Import ClientString ClientState BinaryProtocol ClientRead.

(** Code that is not modelled: the rest of [_memcached_connect] for a server without a
    connection, and requests over UDP. *)
Class Transport := {
  open_connection : IO memcached_return_t;
  _vdo_udp : list cstring -> IO memcached_return_t;
}.

Section Writing.
Context `{DM : DataModel} `{AL : Allocator} `{CF : ClientConfig} `{CK : Clock} `{CC : CipherConfig}.
Context `{BR : BinaryReader} `{TR : Transport}.

(** ** Making room for input: [repack_input_buffer] *)

(** The unread characters move to the start of the array. *)
Definition repack (r : ReadBuffer) : ReadBuffer :=
  if read_ptr r =? 0 then r else
  let moved := take (Z.to_nat (read_buffer_length r)) (drop (Z.to_nat (read_ptr r)) (read_buffer r)) in
  mkRead (moved ++ drop (List.length moved) (read_buffer r)) 0 (read_buffer_length r) (read_buffer_length r).

(** The bytes of [recv] are stored behind the first [read_data_length] ones. *)
Definition store_input (bytes : cstring) (r : ReadBuffer) : ReadBuffer :=
  let o := Z.to_nat (read_ptr r + read_data_length r) in
  mkRead (take o (read_buffer r) ++ bytes ++ drop (o + List.length bytes) (read_buffer r)) (read_ptr r)
    (read_buffer_length r + size bytes) (read_data_length r + size bytes).

Definition repack_input_buffer : IO bool :=
  on_inst (fun i => set_rd (repack (rd i)) i) ;;;
  let* r := geti rd in
  if read_buffer_length r =? MEMCACHED_MAX_BUFFER then ret false else
  let* n := sys_recv (MEMCACHED_MAX_BUFFER - read_data_length r) in
  match n with
  | inl [] => let* _ := memcached_set_error MEMCACHED_CONNECTION_FAILURE in ret false
  | inl bytes => on_inst (fun i => set_rd (store_input bytes (rd i)) i) ;;; ret true
  | inr (EINTR | EAGAIN | ERESTART) => ret false
  | inr _ => let* e := getr errno in let* _ := memcached_set_errno e in ret false
  end.

(** Without callbacks there is nothing to process. *)
Definition process_input_buffer : IO bool := ret false.

(** ** Flushing: [io_flush] *)

(** [io_wait(instance, MEM_WRITE)] *)
Definition io_wait_write (purge : IO bool) : IO memcached_return_t :=
  let* ok := purge in
  if ok : bool then io_wait_read else ret MEMCACHED_FAILURE.

(** [rest] runs from [local_write_ptr] for [write_length] characters. *)
Fixpoint flush_loop (purge : IO bool) (fuel : nat) (rest : cstring) : IO bool :=
  match rest with
  | [] => on_inst (set_write_buffer []) ;;; ret true
  | _ =>
    match fuel with
    | O => stuck OutOfFuel
    | S fuel =>
      let* n := sys_send rest in
      match n with
      | inl sent_length =>
        on_inst (fun i => set_io_bytes_sent (u32 (io_bytes_sent i + sent_length)) i) ;;;
        flush_loop purge fuel (drop (Z.to_nat sent_length) rest)
      | inr ENOBUFS => flush_loop purge fuel rest
      | inr EAGAIN =>
        let* more := repack_input_buffer in
        let* more := if more : bool then ret true else process_input_buffer in
        if more : bool then flush_loop purge fuel rest else
        let* rc := io_wait_write purge in
        if memcached_success rc then flush_loop purge fuel rest else
        if rc_eqb rc MEMCACHED_TIMEOUT then ret false else
        memcached_io_reset ;;;
        let* e := getr errno in let* _ := memcached_set_errno e in ret false
      | inr _ =>
        memcached_io_reset ;;;
        let* e := getr errno in let* _ := memcached_set_errno e in ret false
      end
    end
  end.

(** Every round uses up one result of [send]. The flags of [send] depend on [with_flush], what
    is sent does not. *)
Definition io_flush_with (purge : IO bool) : IO bool :=
  let* ok := purge in
  if negb ok then ret false else
  let* w := geti write_buffer in
  let* events := geti (fun i => List.length (sends (net i))) in
  flush_loop purge (S events) w.

(** ** The output buffer: [_io_write] *)

Definition append_output (bytes : cstring) (i : Inst) : Inst := set_write_buffer (write_buffer i ++ bytes) i.

(** Whether all went well, and how much of [buffer] is left. *)
Fixpoint write_loop (purge : IO bool) (fuel : nat) (buffer : cstring) : IO (bool * cstring) :=
  match buffer with
  | [] => ret (true, [])
  | _ =>
    match fuel with
    | O => stuck OutOfFuel
    | S fuel =>
      let* offset := geti write_buffer_offset in
      let room := Z.to_nat (MEMCACHED_MAX_BUFFER - offset) in
      on_inst (append_output (take room buffer)) ;;;
      let rest := drop room buffer in
      let* offset := geti write_buffer_offset in
      if offset =? MEMCACHED_MAX_BUFFER then
        let* ok := io_flush_with purge in
        if ok : bool then write_loop purge fuel rest else ret (false, rest)
      else write_loop purge fuel rest
    end
  end.

(** The result and [written]. Only the first round can find the buffer full. *)
Definition _io_write_with (purge : IO bool) (buffer : cstring) (with_flush : bool) : IO (bool * Z) :=
  let* o := geti fd in
  assert_io o ;;;
  let* udp := conf (fun m => use_udp (flags m)) in
  assert_io (negb udp) ;;;
  let* r := write_loop purge (S (S (List.length buffer))) buffer in
  let '(ok, rest) := r in
  let written := size buffer - size rest in
  if negb ok then ret (false, written) else
  if with_flush then let* ok := io_flush_with purge in ret (ok, written) else ret (true, written).

(** ** Old responses: purge.cc *)

(** The call of [memcached_purge] from inside a purge, which finds the flag set. *)
Definition nested_purge : IO bool :=
  let* p := getr is_purging in
  if p : bool then ret true else stuck OutOfFuel.

Definition set_poll_timeout (t : Z) (m : Memcached) : Memcached :=
  let l := limits m in
  with_limits m (mkLimits (snd_timeout l) (rcv_timeout l) (server_failure_limit l) (io_msg_watermark l)
    (io_bytes_watermark l) (io_key_prefetch l) (tcp_keepidle l) t (connect_timeout l) (retry_timeout l)
    (dead_timeout l) (send_size l) (recv_size l) (number_of_replicas l)).
Definition on_poll_timeout (t : Z) : IO unit := on_root (fun r => set_memc (set_poll_timeout t (memc r)) r).

(** The responses that are read and dropped; one that breaks the protocol resets the connection
    and is remembered. *)
Fixpoint purge_responses (n : nat) (r : Result) (ok : bool) : IO bool :=
  match n with
  | O => ret ok
  | S n =>
    let* x := memcached_read_one_response (memcached_result_reset r) in
    let '(rc, r) := x in
    if bool_decide (rc ∈ [MEMCACHED_PROTOCOL_ERROR; MEMCACHED_UNKNOWN_READ_FAILURE; MEMCACHED_READ_FAILURE])
    then memcached_io_reset ;;; purge_responses n r false
    else purge_responses n r ok
  end.

(** Whether there is nothing to purge. *)
Definition purge_idle (r : Root) (i : Inst) : bool :=
  let l := limits (memc r) in
  is_purging r
  || ((cursor_active_ i <? io_msg_watermark l) && (io_bytes_sent i <? io_bytes_watermark l))
  || ((io_bytes_watermark l <=? io_bytes_sent i) && (cursor_active_ i <? 2)).

Definition memcached_purge : IO bool :=
  let* idle := gets (fun c => purge_idle (root c) (inst c)) in
  if idle : bool then ret true else
  on_root (set_purging true) ;;;
  let* w := _io_write_with nested_purge [] true in
  let* done :=
    if negb (fst w) then let* _ := memcached_set_error MEMCACHED_WRITE_FAILURE in ret false else
    let* count := geti cursor_active_ in
    let no_msg := u32 (count - 1) in
    if no_msg =? 0 then ret true else
    let* timeout := conf (fun m => poll_timeout (limits m)) in
    on_poll_timeout 2000 ;;;
    let* ok := purge_responses (Z.to_nat no_msg) new_Result true in
    on_poll_timeout timeout ;;;
    ret ok in
  on_root (set_purging false) ;;;
  ret done.

(** ** The functions of io.cc that other files call *)

Definition io_flush : IO bool := io_flush_with memcached_purge.
Definition _io_write : cstring -> bool -> IO (bool * Z) := _io_write_with memcached_purge.

(** [memcached_io_write(instance)] *)
Definition memcached_io_write_all : IO bool := let* r := _io_write [] true in ret (fst r).

(** [memcached_io_write(instance, buffer, length, with_flush)] *)
Definition memcached_io_write (buffer : cstring) (with_flush : bool) : IO Z :=
  let* r := _io_write buffer with_flush in
  ret (if fst r : bool then snd r else -1).

Fixpoint writev_loop (vector : list cstring) (complete_total total : Z) : IO (option (Z * Z)) :=
  match vector with
  | [] => ret (Some (complete_total, total))
  | v :: vector =>
    if size v =? 0 then writev_loop vector complete_total total else
    let* r := _io_write v false in
    if fst r : bool then writev_loop vector (complete_total + size v) (total + snd r) else ret None
  end.

Definition memcached_io_writev (vector : list cstring) (with_flush : bool) : IO bool :=
  let* r := writev_loop vector 0 0 in
  match r with
  | None => ret false
  | Some (complete_total, total) =>
    if with_flush then
      let* ok := memcached_io_write_all in
      ret (ok && (complete_total =? total))
    else ret (complete_total =? total)
  end.

(** The result is not used by its only caller. An interrupted [recv], and one that had to wait,
    end the loop as well: [continue] goes to its condition. *)
Fixpoint io_slurp_loop (fuel : nat) : IO memcached_return_t :=
  match fuel with
  | O => stuck OutOfFuel
  | S fuel =>
    let* n := sys_recv MEMCACHED_MAX_BUFFER in
    match n with
    | inl [] => ret MEMCACHED_CONNECTION_FAILURE
    | inl bytes =>
      on_inst (fun i => set_rd (mkRead (bytes ++ drop (List.length bytes) (read_buffer (rd i))) (read_ptr (rd i))
                                  (read_buffer_length (rd i)) (read_data_length (rd i))) i) ;;;
      io_slurp_loop fuel
    | inr EINTR => ret MEMCACHED_CONNECTION_FAILURE
    | inr (ETIMEDOUT | EAGAIN | ERESTART) =>
      let* w := io_wait_read in
      ret (if memcached_success w then MEMCACHED_CONNECTION_FAILURE else MEMCACHED_IN_PROGRESS)
    | inr (ENOTCONN | ENOTSOCK) => assert_io false ;;; ret MEMCACHED_CONNECTION_FAILURE
    | inr EBADF => let* o := geti fd in assert_io o ;;; ret MEMCACHED_CONNECTION_FAILURE
    | inr _ => ret MEMCACHED_CONNECTION_FAILURE
    end
  end.

Definition memcached_io_slurp : IO memcached_return_t :=
  let* udp := conf (fun m => use_udp (flags m)) in
  assert_io (negb udp) ;;;
  let* o := geti fd in
  if negb o then
    let* st := geti server_state in
    assert_io (bool_decide (st ∈ [MEMCACHED_SERVER_STATE_NEW; MEMCACHED_SERVER_STATE_ADDRINFO])) ;;;
    ret MEMCACHED_CONNECTION_FAILURE
  else
  let* n := geti (fun i => to_read (recvs (net i))) in
  io_slurp_loop (S n).

(** ** Requests: do.cc *)

Definition memcached_connect : IO memcached_return_t :=
  let* o := geti fd in
  if o : bool then ret MEMCACHED_SUCCESS else open_connection.

Definition memcached_vdo (vector : list cstring) (with_flush : bool) : IO memcached_return_t :=
  let* rc := memcached_connect in
  if memcached_failed rc then
    let* es := geti error_messages in
    assert_io (if es is [] then false else true) ;;; ret rc
  else
  let* udp := conf (fun m => use_udp (flags m)) in
  if udp : bool then _vdo_udp vector else
  let* sent_success := memcached_io_writev vector with_flush in
  if negb sent_success then
    let* e := getr memcached_last_error in
    assert_io (rc_eqb e MEMCACHED_SUCCESS) ;;;
    if rc_eqb e MEMCACHED_SUCCESS then
      assert_io (negb (rc_eqb e MEMCACHED_SUCCESS)) ;;; memcached_set_error MEMCACHED_WRITE_FAILURE
    else ret e
  else
  let* replying := conf (fun m => reply (flags m)) in
  (if replying : bool then memcached_server_response_increment else ret tt) ;;;
  ret rc.

(** ** The response to a request: [memcached_response] of response.cc *)

(** Old responses are read and dropped until one is left. *)
Fixpoint junk_responses (fuel : nat) (buf : cstring) (buffer_length : Z) (junked : Result)
    : IO (option memcached_return_t * cstring) :=
  let* count := geti cursor_active_ in
  if negb (1 <? count) then ret (None, buf) else
  match fuel with
  | O => stuck OutOfFuel
  | S fuel =>
    let* x := _read_one_response buf buffer_length junked in
    let '(rc, buf, junked) := x in
    if memcached_fatal rc then ret (Some rc, buf) else junk_responses fuel buf buffer_length junked
  end.

(** A response takes a character at least or lowers the count. *)
Definition junk_fuel (i : Inst) : nat :=
  (2 * (to_read (recvs (net i)) + Z.to_nat (read_buffer_length (rd i))) + Z.to_nat (cursor_active_ i))%nat.

(** [old] is what the array held before; the array is a result as well. *)
Definition memcached_response_into (old : cstring) (buffer_length : Z) (r : Result)
    : IO (memcached_return_t * cstring * Result) :=
  let* f := conf flags in
  if use_udp f then let* rc := memcached_set_error MEMCACHED_NOT_SUPPORTED in ret (rc, old, r) else
  let* processing := getr is_processing_input in
  (if no_block f && negb processing then let* _ := memcached_io_write_all in ret tt else ret tt) ;;;
  let* junk :=
    if binary_protocol f then ret (None, old) else
    let* n := geti junk_fuel in
    junk_responses n old buffer_length new_Result in
  let '(err, buf) := junk in
  match err with
  | Some rc => ret (rc, buf, r)
  | None => _read_one_response buf buffer_length r
  end.

(** For callers that do not look at the array. *)
Definition memcached_response (buffer_length : Z) (r : Result) : IO (memcached_return_t * Result) :=
  let* x := memcached_response_into [] buffer_length r in
  ret (fst (fst x), snd x).

(** With the client's own result, which a null pointer stands for as well. *)
Definition memcached_response_root (buffer_length : Z) : IO memcached_return_t :=
  let* r := getr result in
  let* x := memcached_response buffer_length r in
  on_root (set_result (snd x)) ;;; ret (fst x).

(** ** Closing a connection in order: quit.cc *)

Definition send_quit_message : IO memcached_return_t :=
  let* binary := conf (fun m => binary_protocol (flags m)) in
  if binary : bool then
    let* h := initialize_binary_request (new_request PROTOCOL_BINARY_CMD_QUIT) in
    memcached_vdo [octets (header_bytes h)] true
  else memcached_vdo [lit "quit" ++ CRLF] true.

Definition drain_instance : IO unit :=
  let* m := conf (fun m => buffer_requests (flags m) || negb (number_of_replicas (limits m) =? 0)) in
  (if m : bool then let* _ := memcached_io_slurp in ret tt else ret tt) ;;;
  on_inst (fun i => set_failures 0 (server_failure_counter_query_id i) i).

Definition memcached_quit_server (io_death : bool) : IO unit :=
  let* valid := geti fd in
  let* udp := conf (fun m => use_udp (flags m)) in
  let* shutting := geti is_shutting_down in
  (if valid && negb io_death && negb udp && negb shutting then
     let* _ := send_quit_message in
     on_inst start_close_socket ;;; drain_instance
   else ret tt) ;;;
  on_inst (close_socket udp) ;;;
  if io_death then memcached_mark_server_for_timeout else ret tt.
End Writing.
