(* ===== verification/ClientConnect.v ===== *)
(** * Reaching a server: connect.cc, udp.cc, [_vdo_udp] of do.cc, [memcached_version_instance]

    Looking up a host, trying its addresses, waiting for a connection, and the rules by which a
    server that failed is left alone or ejected. It is the instance of [Transport] that the
    rest of the client is written against. The build is the one of configure.h: without SASL,
    on Linux, where [socket] itself makes the socket close-on-exec and non-blocking. The order of
    the servers is taken to stay: the client does not sort its hosts. *)

From stdpp Require Import base list.
From Stdlib Require Import ZArith Ascii String.
From S2P Require Import Prelude CxxString HashWords HashKit HashkitString Rijndael Aes Continuum ClientTypes.
From S2P Require Import ByteOrder ClientString ClientState BinaryProtocol ClientRead ClientWrite.

(** ** System calls *)

(** What [getaddrinfo] returns: addresses, or one of its errors. *)
Inductive gai_result := GaiOk (addrs : list bool) | GaiAgain | GaiSystem | GaiBadFlags | GaiMemory | GaiOther.

(** Results of calls, numbered by [ticks]: [so_error] is what [getsockopt] of SO_ERROR reports, or
    the [errno] with which it fails; [setsockopt_ok] whether an option is accepted. *)
Class Network := {
  getaddrinfo : nat -> cstring -> Z -> gai_result;
  so_error : nat -> errno_t + errno_t;
  setsockopt_ok : nat -> bool;
}.

(** [run_distribution] of hosts.cc. *)
Class Redistribution := { redistribute : nat -> Memcached -> outcome (memcached_return_t * Memcached) }.

Definition tick : IO nat := fun c => (Ret (ticks (root c)), mkCtx (set_ticks (S (ticks (root c))) (root c)) (inst c)).

(** ** Members of the server *)

Definition set_addrs (info : option (list bool)) (next : list bool) (i : Inst) : Inst :=
  set_dial (mkDial (conn_type (dial i)) info next (dials (dial i))) i.
Definition set_type (t : memcached_connection_t) (i : Inst) : Inst :=
  set_dial (mkDial t (address_info (dial i)) (address_info_next (dial i)) (dials (dial i))) i.
Definition clear_addrinfo (i : Inst) : Inst :=
  if address_info (dial i) is Some _ then set_addrs None [] i else i.
Definition next_address (i : Inst) : Inst := set_addrs (address_info (dial i)) (tail (address_info_next (dial i))) i.

(** The socket [s] is the server's. *)
Definition with_socket (s : Socket) (i : Inst) : Inst :=
  mkInst (position i) true s (rd i) (write_buffer i) (cursor_active_ i) (io_bytes_sent i) (server_state i)
    (is_shutting_down i) (server_failure_counter i) (server_failure_counter_query_id i) (versions i) (request_id i)
    (dial i) (error_messages i).

(** The next attempt; without one to come [connect] waits for ever. *)
Definition sys_dial : IO dial_event := fun c =>
  let d := dial (inst c) in
  match dials d with
  | [] => (Stuck Deadlock, c)
  | e :: l => (Ret e, mkCtx (root c) (set_dial (mkDial (conn_type d) (address_info d) (address_info_next d) l) (inst c)))
  end.

Section Connecting.
Context `{DM : DataModel} `{AL : Allocator} `{CF : ClientConfig} `{CK : Clock} `{CC : CipherConfig}.
Context `{BR : BinaryReader} `{NW : Network} `{RD : Redistribution}.

(** ** Waiting for a connection: [connect_poll] *)

(** [getsockopt(SO_ERROR)]: the error it reports, or the code the function returns when it fails. *)
Definition get_so_error : IO (memcached_return_t + errno_t) :=
  let* t := tick in
  match so_error t with
  | inl e => ret (inr e)
  | inr e => on_root (set_errno e) ;;; let* rc := memcached_set_errno e in ret (inl rc)
  end.

(** The code for what [getsockopt] reports; [None] for no error. *)
Definition report_so_error : IO (option memcached_return_t) :=
  let* x := get_so_error in
  match x with
  | inl rc => ret (Some rc)
  | inr E_OK => ret None
  | inr e => let* rc := memcached_set_errno e in ret (Some rc)
  end.

(** The rounds of the loop; [None] when it is left without a result. *)
Fixpoint connect_poll_loop (rounds : nat) (connection_error : errno_t) : IO (option memcached_return_t) :=
  match rounds with
  | O => ret None
  | S rounds =>
    let* p := sys_poll in
    match p with
    | PollFails (EINTR | ERESTART) => connect_poll_loop rounds connection_error
    | PollFails (EFAULT | ENOMEM) => let* rc := memcached_set_error MEMCACHED_MEMORY_ALLOCATION_FAILURE in ret (Some rc)
    | PollFails EINVAL => let* rc := memcached_set_error_msg MEMCACHED_MEMORY_ALLOCATION_FAILURE in ret (Some rc)
    | PollFails e =>
      let* o := geti fd in
      assert_io o ;;;
      on_inst reset_socket ;;;
      on_inst (set_state MEMCACHED_SERVER_STATE_NEW) ;;;
      let* rc := memcached_set_errno e in ret (Some rc)
    | PollTimeout =>
      let* x := if bool_decide (connection_error = EINPROGRESS) then report_so_error else ret None in
      match x with
      | Some rc => ret (Some rc)
      | None => let* rc := memcached_set_error MEMCACHED_TIMEOUT in ret (Some rc)
      end
    | PollHangup | PollErr _ =>
      let* x := get_so_error in
      match x with
      | inl rc => ret (Some rc)
      | inr E_OK => ret (Some MEMCACHED_SUCCESS)
      | inr e => on_root (set_errno e) ;;; let* rc := memcached_set_errno e in ret (Some rc)
      end
    | PollOther => assert_io false ;;; ret None
    | PollReady =>
      if bool_decide (connection_error = EINPROGRESS) then
        let* x := report_so_error in ret (Some (default MEMCACHED_SUCCESS x))
      else ret None
    end
  end.

Definition connect_poll (connection_error : errno_t) : IO memcached_return_t :=
  let* timeout := conf (fun m => poll_timeout (limits m)) in
  if timeout =? 0 then memcached_set_error_msg MEMCACHED_TIMEOUT else
  let* r := connect_poll_loop 4 connection_error in
  match r with
  | Some rc => ret rc
  | None => memcached_set_errno connection_error
  end.

(** ** Names and options *)

Definition MEMCACHED_NI_MAXSERV : Z := 32.

(** The server's entry in the list of the client. *)
Definition this_server {A} (f : Instance_ -> A) (d : A) : IO A :=
  let* n := geti position in conf (fun m => match servers m !! n with Some s => f s | None => d end).

Definition set_hostinfo : IO memcached_return_t :=
  let* t := geti (fun i => conn_type (dial i)) in
  assert_io (match t with MEMCACHED_CONNECTION_UNIX_SOCKET => false | _ => true end) ;;;
  on_inst clear_addrinfo ;;;
  let* port := this_server port_ 0 in
  if MEMCACHED_NI_MAXSERV <=? size (to_string port) then memcached_set_error_msg MEMCACHED_MEMORY_ALLOCATION_FAILURE else
  let* d := geti dial in
  assert_io (match address_info d, address_info_next d with None, [] => true | _, _ => false end) ;;;
  let* host := this_server _hostname [] in
  let* t := tick in
  match getaddrinfo t host port with
  | GaiOk addrs =>
    on_inst (set_addrs (Some addrs) addrs) ;;;
    on_inst (set_state MEMCACHED_SERVER_STATE_ADDRINFO) ;;;
    ret MEMCACHED_SUCCESS
  | GaiAgain => memcached_set_error_msg MEMCACHED_TIMEOUT
  | GaiSystem =>
    on_inst clear_addrinfo ;;; let* e := getr errno in memcached_set_errno e
  | GaiBadFlags => on_inst clear_addrinfo ;;; memcached_set_error_msg MEMCACHED_INVALID_ARGUMENTS
  | GaiMemory => on_inst clear_addrinfo ;;; memcached_set_error_msg MEMCACHED_MEMORY_ALLOCATION_FAILURE
  | GaiOther => on_inst clear_addrinfo ;;; memcached_set_error_msg MEMCACHED_HOST_LOOKUP_FAILURE
  end.

(** The options that the configuration asks for: SO_SNDTIMEO, SO_RCVTIMEO, SO_LINGER, TCP_NODELAY,
    SO_KEEPALIVE, TCP_KEEPIDLE, SO_SNDBUF, SO_RCVBUF. *)
Definition wanted_options (m : Memcached) : list bool :=
  [0 <? snd_timeout (limits m); 0 <? rcv_timeout (limits m); no_block (flags m); tcp_nodelay (flags m);
   tcp_keepalive (flags m); 0 <? tcp_keepidle (limits m); 0 <? send_size (limits m); 0 <? recv_size (limits m)].

Fixpoint set_options (l : list bool) : IO unit :=
  match l with
  | [] => ret tt
  | wanted :: l =>
    (if wanted : bool then let* t := tick in assert_io (setsockopt_ok t) else ret tt) ;;; set_options l
  end.

Definition set_socket_options : IO unit :=
  let* o := geti fd in
  assert_io o ;;;
  let* m := conf id in
  if use_udp (flags m) then ret tt else set_options (wanted_options m).

(** ** Connecting: [network_connect], [unix_socket_connect] *)

(** [inl] is what the function returns, [inr] the end of the loop and whether an attempt timed out. *)
Fixpoint network_connect_loop (fuel : nat) (timeout_error_occured : bool) : IO (memcached_return_t + bool) :=
  let* d := geti dial in
  let* o := geti fd in
  match address_info_next d with
  | [] => ret (inr timeout_error_occured)
  | inet :: _ =>
    if o : bool then ret (inr timeout_error_occured) else
    match fuel with
    | O => stuck OutOfFuel
    | S fuel =>
      let next t := on_inst reset_socket ;;; on_inst next_address ;;; network_connect_loop fuel t in
      let* udp := conf (fun m => use_udp (flags m)) in
      if udp && negb inet then on_inst next_address ;;; network_connect_loop fuel timeout_error_occured else
      let* a := sys_dial in
      match a with
      | DialNoSocket e => on_root (set_errno e) ;;; let* rc := memcached_set_errno e in ret (inl rc)
      | DialSocket s c =>
        on_inst (with_socket s) ;;;
        set_socket_options ;;;
        match c with
        | None => on_inst (set_state MEMCACHED_SERVER_STATE_CONNECTED) ;;; ret (inl MEMCACHED_SUCCESS)
        | Some e =>
          on_root (set_errno e) ;;;
          match e with
          | ETIMEDOUT => next true
          | EAGAIN | EINPROGRESS | EALREADY =>
            on_inst (set_state MEMCACHED_SERVER_STATE_IN_PROGRESS) ;;;
            let* rc := connect_poll e in
            if memcached_success rc then
              on_inst (set_state MEMCACHED_SERVER_STATE_CONNECTED) ;;; ret (inl MEMCACHED_SUCCESS)
            else next (timeout_error_occured || rc_eqb rc MEMCACHED_TIMEOUT)
          | EINTR => on_inst reset_socket ;;; network_connect_loop fuel timeout_error_occured
          | _ => next timeout_error_occured
          end
        end
      end
    end
  end.

(** What the function returns after the loop. *)
Definition after_dialling (x : memcached_return_t + bool) : IO memcached_return_t :=
  match x with
  | inl rc => ret rc
  | inr timeout_error_occured =>
    (if timeout_error_occured : bool then on_inst reset_socket else ret tt) ;;;
    let* current := getr memcached_has_current_error in
    if current : bool then geti memcached_instance_error_return else
    let* st := geti server_state in
    if timeout_error_occured && bool_decide (st ∈ [MEMCACHED_SERVER_STATE_NEW; MEMCACHED_SERVER_STATE_ADDRINFO])
    then memcached_set_error MEMCACHED_TIMEOUT else memcached_set_error MEMCACHED_CONNECTION_FAILURE
  end.

(** Every round uses up an address or an attempt. *)
Definition network_connect : IO memcached_return_t :=
  let* d := geti dial in
  let* rc :=
    match address_info d, address_info_next d with
    | Some _, _ :: _ => ret MEMCACHED_SUCCESS
    | _, _ => on_inst (set_addrs (address_info d) []) ;;; set_hostinfo
    end in
  if memcached_failed rc then ret rc else
  let* d := geti dial in
  assert_io (if address_info_next d is _ :: _ then true else false) ;;;
  assert_io (if address_info d is Some _ then true else false) ;;;
  let* x := network_connect_loop (S (List.length (address_info_next d) + List.length (dials d))) false in
  after_dialling x.

(** [continue] leaves the loop, whose condition is 0: an interrupted call ends without a socket. *)
Definition unix_socket_connect : IO memcached_return_t :=
  let* a := sys_dial in
  match a with
  | DialNoSocket e => on_root (set_errno e) ;;; memcached_set_errno e
  | DialSocket s c =>
    on_inst (with_socket s) ;;;
    let connected := on_inst (set_state MEMCACHED_SERVER_STATE_CONNECTED) ;;; ret MEMCACHED_SUCCESS in
    match c with
    | None | Some (EINPROGRESS | EALREADY) => connected
    | Some EINTR => on_root (set_errno EINTR) ;;; on_inst reset_socket ;;; connected
    | Some EISCONN => on_root (set_errno EISCONN) ;;; assert_io false ;;; on_inst reset_socket ;;; connected
    | Some e => on_root (set_errno e) ;;; on_inst reset_socket ;;; memcached_set_errno e
    end
  end.

(** ** Servers that failed: [backoff_handling] *)

Definition set_next_retry (t : Z) : IO unit :=
  let* n := geti position in on_root (fun r => set_memc (with_next_retry t n (memc r)) r).

(** The code and [in_timeout]. *)
Definition backoff_handling : IO (memcached_return_t * bool) :=
  let* now := gettimeofday in
  let* failures := geti server_failure_counter in
  let* limit := conf (fun m => server_failure_limit (limits m)) in
  let* eject := conf (fun m => auto_eject_hosts (flags m)) in
  if (limit <=? failures) && eject then
    let* dead := conf (fun m => dead_timeout (limits m)) in
    (match now with
     | Some t =>
       if 0 <? dead then
         set_next_retry (t + dead) ;;;
         on_inst (fun i => set_failures (u32 (limit - 1)) (server_failure_counter_query_id i) i)
       else ret tt
     | None => ret tt
     end) ;;;
    let* t := tick in
    let* m := getr memc in
    let* x := lift (redistribute t m) in
    on_root (set_memc (snd x)) ;;;
    if memcached_failed (fst x) then let* rc := memcached_set_error_msg (fst x) in ret (rc, false) else
    let* rc := memcached_set_error MEMCACHED_SERVER_MARKED_DEAD in ret (rc, false)
  else
  (if limit <=? failures then
     on_inst (set_state MEMCACHED_SERVER_STATE_IN_TIMEOUT) ;;;
     let* retry := this_server next_retry 0 in
     if retry =? 0 then set_next_retry 1 else ret tt
   else ret tt) ;;;
  let* st := geti server_state in
  if negb (bool_decide (st = MEMCACHED_SERVER_STATE_IN_TIMEOUT)) then ret (MEMCACHED_SUCCESS, false) else
  let* retry := this_server next_retry 0 in
  if match now with Some t => retry <? t | None => false end then
    on_inst (set_state MEMCACHED_SERVER_STATE_NEW) ;;; ret (MEMCACHED_SUCCESS, true)
  else let* rc := memcached_set_error MEMCACHED_SERVER_TEMPORARILY_DISABLED in ret (rc, false).

(** ** The version of a new connection: version.cc *)

(** For the request that is sent over the connection just made. *)
Definition no_dial : Transport := {| open_connection := stuck OutOfFuel; _vdo_udp := fun _ => stuck OutOfFuel |}.

Definition memcached_version_instance : IO unit :=
  let* f := conf flags in
  let* v := geti versions in
  if is_fetching_version f && negb (use_udp f) && negb (fst (fst v) =? 255) then
    let* vector :=
      if binary_protocol f then
        let* h := initialize_binary_request (new_request PROTOCOL_BINARY_CMD_VERSION) in ret [octets (header_bytes h)]
      else ret [lit "version" ++ CRLF] in
    let* _ := memcached_vdo (TR := no_dial) vector false in ret tt
  else ret tt.

(** ** [_memcached_connect] for a server without a connection *)

Definition mark_server_as_clean : IO unit :=
  on_inst (fun i => set_failures 0 (server_failure_counter_query_id i) i) ;;; set_next_retry 0.

Definition connect_server : IO memcached_return_t :=
  let* x := backoff_handling in
  let '(rc, in_timeout) := x in
  if memcached_failed rc then ret rc else
  let* host := this_server _hostname [] in
  (if bool_decide (head host = Some "/"%char) then on_inst (set_type MEMCACHED_CONNECTION_UNIX_SOCKET) else ret tt) ;;;
  let* t := geti (fun i => conn_type (dial i)) in
  let* rc := match t with MEMCACHED_CONNECTION_UNIX_SOCKET => unix_socket_connect | _ => network_connect end in
  if memcached_success rc then
    mark_server_as_clean ;;; memcached_version_instance ;;; ret rc
  else
  let* current := getr memcached_has_current_error in
  (if current : bool then
     memcached_mark_server_for_timeout ;;;
     let* e := geti memcached_instance_error_return in assert_io (memcached_failed e)
   else
     let* _ := memcached_set_error rc in memcached_mark_server_for_timeout) ;;;
  if in_timeout : bool then memcached_set_error_msg MEMCACHED_SERVER_TEMPORARILY_DISABLED else ret rc.

(** ** Datagrams: udp.cc and [_vdo_udp] *)

(** The first two bytes of the header hold the number of the request, in the order of the network;
    the lower ten bits count, the others are a thread. *)
Definition UDP_REQUEST_ID_THREAD_MASK : Z := Z.shiftl 0xFFFF 10.

Definition next_request_id (cur_req : Z) : Z :=
  let thread_id := Z.shiftr (Z.land cur_req UDP_REQUEST_ID_THREAD_MASK) 10 in
  let msg_num := Z.land cur_req (Z.lnot UDP_REQUEST_ID_THREAD_MASK) + 1 in
  let msg_num := if Z.land msg_num UDP_REQUEST_ID_THREAD_MASK =? 0 then msg_num else 0 in
  Z.lor thread_id msg_num mod 65536.

Definition increment_udp_message_id (i : Inst) : Inst :=
  let cur_req := ntohs (le_value (map uchar (take 2 (write_buffer i)))) in
  set_write_buffer (octets (le 2 (htons (next_request_id cur_req))) ++ drop 2 (write_buffer i)) i.

(** [sendmsg] on a datagram socket takes the whole message or nothing. *)
Definition sys_sendmsg (message : cstring) : IO (Z + errno_t) := fun c =>
  match sends (net (inst c)) with
  | [] => (Stuck Deadlock, c)
  | SendError e :: l =>
    (Ret (inr e), mkCtx (set_errno e (root c)) (upd_net (fun n => mkSocket (recvs n) l (polls n) (wire n)) (inst c)))
  | SendUpTo k :: l =>
    let now := if (k =? 0)%nat then [] else message in
    (Ret (inl (size now)),
     mkCtx (root c) (upd_net (fun n => mkSocket (recvs n) l (polls n) (wire n ++ now)) (inst c)))
  end.

Fixpoint sendmsg_loop (rounds : nat) (message : cstring) : IO memcached_return_t :=
  match rounds with
  | O => ret MEMCACHED_SUCCESS
  | S rounds =>
    let* x := sys_sendmsg message in
    match x with
    | inl n => if 0 <? n then ret MEMCACHED_SUCCESS else sendmsg_loop rounds message
    | inr EMSGSIZE => memcached_set_error MEMCACHED_WRITE_FAILURE
    | inr e => memcached_set_errno e
    end
  end.

Definition vdo_udp (vector : list cstring) : IO memcached_return_t :=
  match vector with
  | [] :: vector =>
    on_inst increment_udp_message_id ;;;
    let* w := geti write_buffer in
    sendmsg_loop 4 (take (Z.to_nat UDP_DATAGRAM_HEADER_LENGTH) w ++ List.concat vector)
  | _ => memcached_set_error_root MEMCACHED_NOT_SUPPORTED
  end.
End Connecting.

#[export] Instance network_transport `{DM : DataModel} `{AL : Allocator} `{CF : ClientConfig} `{CK : Clock}
  `{CC : CipherConfig} `{BR : BinaryReader} `{NW : Network} `{RD : Redistribution} : Transport :=
  {| open_connection := connect_server; _vdo_udp := vdo_udp |}.
