(* ===== verification/ClientConnectSpec.v ===== *)
(** * The rules for servers that fail

    [memcached_connect] as an automaton on the health of a server: it is tried in the order of
    its addresses; when none answers it is left alone for [retry_timeout] seconds, and after
    [server_failure_limit] failures it is ejected, if the client ejects servers. *)

From stdpp Require Import base list.
From Stdlib Require Import ZArith Lia Ascii.
From S2P Require Import Prelude CxxString HashWords HashKit HashkitString Rijndael Aes Continuum ClientTypes.
From S2P Require Import ByteOrder ClientString ClientState BinaryProtocol ClientRead ClientWrite ClientConnect.

(** ** The automaton *)

Record Health := mkHealth { waiting : bool; until : Z; fails : Z }.

Record Rules := mkRules { r_limit : Z; r_eject : bool; r_retry : Z; r_dead : Z }.

(** A call at time [now], when [up] says whether one of the addresses answers: the code, the health
    afterwards, and whether the server was tried at all. *)
Definition attempt (u : Rules) (now : Z) (up : bool) (h : Health) : memcached_return_t * Health * bool :=
  let worn := r_limit u <=? fails h in
  if worn && r_eject u then
    (MEMCACHED_SERVER_MARKED_DEAD,
     if 0 <? r_dead u then mkHealth (waiting h) (now + r_dead u) (u32 (r_limit u - 1)) else h, false)
  else
  let w := waiting h || worn in
  let t := if worn && (until h =? 0) then 1 else until h in
  if w && negb (t <? now) then (MEMCACHED_SERVER_TEMPORARILY_DISABLED, mkHealth w t (fails h), false) else
  if up then (MEMCACHED_SUCCESS, mkHealth false 0 0, true) else
  (if w then MEMCACHED_SERVER_TEMPORARILY_DISABLED else MEMCACHED_CONNECTION_FAILURE,
   mkHealth true (now + r_retry u) (u32 (fails h + 1)), true).

(** Whether the call leaves a connection. *)
Definition ok_code (rc : memcached_return_t) : bool := bool_decide (rc = MEMCACHED_SUCCESS).

(** ** What the client's state says *)

Definition rules (m : Memcached) : Rules :=
  mkRules (server_failure_limit (limits m)) (auto_eject_hosts (flags m)) (retry_timeout (limits m)) (dead_timeout (limits m)).

Definition entry (m : Memcached) (i : Inst) : Instance_ := default (mkInstance [] 0 0 0) (servers m !! position i).

Definition health (m : Memcached) (i : Inst) : Health :=
  mkHealth (bool_decide (server_state i = MEMCACHED_SERVER_STATE_IN_TIMEOUT)) (next_retry (entry m i)) (server_failure_counter i).

(** The client after [next_retry] of the server was set. *)
Definition retry_at (t : Z) (i : Inst) (m : Memcached) : Memcached := with_next_retry t (position i) m.

Section Connecting.
Context `{DM : DataModel} `{AL : Allocator} `{CF : ClientConfig} `{CK : Clock} `{CC : CipherConfig}.
Context `{BR : BinaryReader} `{NW : Network} `{RD : Redistribution}.
Context (Hgrants : forall k n, grants k n = true) (Hoptions : forall t, setsockopt_ok t = true).
Implicit Types (r : Root) (i : Inst).

(** The client differs in its errors and counters only. *)
Definition same_client r r' : Prop :=
  exists es k t e, r' = set_errno e (set_ticks t (set_allocs k (set_root_errors es r))).

Lemma same_refl r : same_client r r.
Proof. exists (root_errors r), (allocs r), (ticks r), (errno r). by destruct r. Qed.
Lemma same_trans r r' r'' : same_client r r' -> same_client r' r'' -> same_client r r''.
Proof. intros (? & ? & ? & ? & ->) (? & ? & ? & ? & ->). do 4 eexists. reflexivity. Qed.
Lemma same_tick r : same_client r (set_ticks (S (ticks r)) r).
Proof. exists (root_errors r), (allocs r), (S (ticks r)), (errno r). by destruct r. Qed.
Lemma same_errno e r : same_client r (set_errno e r).
Proof. exists (root_errors r), (allocs r), (ticks r), e. by destruct r. Qed.

(** ** Errors *)

Definition current_error (rc : memcached_return_t) r i : Prop :=
  (exists es, root_errors r = mkError (query_id r) rc E_OK :: es)
  /\ exists es, error_messages i = mkError (query_id r) rc E_OK :: es.

Definition plain_error (rc : memcached_return_t) : Prop :=
  rc ∈ [MEMCACHED_CONNECTION_FAILURE; MEMCACHED_SERVER_TEMPORARILY_DISABLED; MEMCACHED_SERVER_MARKED_DEAD].

Lemma set_root_ok rc r i : plain_error rc ->
  exists es k, _set_root rc E_OK (mkCtx r i)
    = (Ret rc, mkCtx (set_allocs k (set_root_errors (mkError (query_id r) rc E_OK :: es) r)) i).
Proof using Hgrants.
  intros Hrc. exists (if stale (query_id r) (root_errors r) then [] else root_errors r), (S (allocs r)).
  unfold _set_root. unfold bind at 1, getr at 1, gets. cbn [root]. unfold bind at 1, getr at 1, gets. cbn [root].
  assert (forall e, set_rc rc E_OK e = (rc, E_OK)) as Hset
    by (intros e; unfold plain_error in Hrc; rewrite !elem_of_cons, elem_of_nil in Hrc; by destruct Hrc as [->|[->|[->|[]]]]).
  destruct (stale _ _); unfold bind at 1, on_root at 1, modify, ret; unfold bind at 1, getr at 1, gets; cbn [root];
    rewrite Hset; unfold bind at 1, alloc; cbn [root]; rewrite Hgrants;
    unfold bind at 1, on_root, modify, ret; cbn [root inst]; by destruct r.
Qed.

Lemma set_instance_ok e es r i : root_errors r = e :: es ->
  exists es' k, _set_instance (mkCtx r i) = (Ret tt, mkCtx (set_allocs k r) (set_errors (e :: es') i)).
Proof using Hgrants.
  intros He. exists (if stale (query_id r) (error_messages i) then [] else error_messages i), (S (allocs r)).
  unfold _set_instance. unfold bind at 1, getr at 1, gets. cbn [root]. unfold bind at 1, geti at 1, gets. cbn [inst].
  destruct (stale _ _); unfold bind at 1, on_inst at 1, modify, ret; unfold bind at 1, getr at 1, gets; cbn [root];
    rewrite He; unfold bind at 1, alloc; cbn [root]; rewrite Hgrants; cbn [root inst]; by destruct i.
Qed.

Lemma set_error_ok rc r i : plain_error rc ->
  exists r' es, memcached_set_error rc (mkCtx r i) = (Ret rc, mkCtx r' (set_errors es i))
    /\ same_client r r' /\ current_error rc r' (set_errors es i).
Proof using Hgrants.
  intros Hrc. destruct (set_root_ok rc r i Hrc) as (es & k & E1).
  set (r1 := set_allocs k (set_root_errors (mkError (query_id r) rc E_OK :: es) r)) in *.
  destruct (set_instance_ok (mkError (query_id r) rc E_OK) es r1 i eq_refl) as (es' & k' & E2).
  exists (set_allocs k' r1), (mkError (query_id r) rc E_OK :: es').
  unfold memcached_set_error.
  assert (rc_eqb rc MEMCACHED_SOME_ERRORS = false /\ memcached_fatal rc = true) as [-> ->]
    by (unfold plain_error in Hrc; rewrite !elem_of_cons, elem_of_nil in Hrc; by destruct Hrc as [->|[->|[->|[]]]]).
  unfold assert_io, lift, assert_msg. cbn [negb]. rewrite orb_true_r. unfold bind at 1. run E1. run E2.
  split; [done|]. split; [|split; by eexists].
  exists (mkError (query_id r) rc E_OK :: es), k', (ticks r), (errno r). by destruct r.
Qed.

Lemma set_error_msg_ok rc r i : plain_error rc ->
  exists r' es, memcached_set_error_msg rc (mkCtx r i) = (Ret rc, mkCtx r' (set_errors es i)) /\ same_client r r'.
Proof using Hgrants.
  intros Hrc. destruct (set_root_ok rc r i Hrc) as (es & k & E1).
  set (r1 := set_allocs k (set_root_errors (mkError (query_id r) rc E_OK :: es) r)) in *.
  destruct (set_instance_ok (mkError (query_id r) rc E_OK) es r1 i eq_refl) as (es' & k' & E2).
  exists (set_allocs k' r1), (mkError (query_id r) rc E_OK :: es').
  unfold memcached_set_error_msg.
  assert (rc_eqb rc MEMCACHED_SOME_ERRORS = false /\ rc_eqb rc MEMCACHED_ERRNO = false /\ memcached_fatal rc = true) as (-> & -> & ->)
    by (unfold plain_error in Hrc; rewrite !elem_of_cons, elem_of_nil in Hrc; by destruct Hrc as [->|[->|[->|[]]]]).
  unfold assert_io, lift, assert_msg. cbn [negb andb]. rewrite orb_true_r. unfold bind at 1. unfold bind at 1. run E1. run E2.
  unfold bind at 1, getr, gets. unfold bind at 1, geti, gets. cbn [root inst root_errors set_allocs r1 set_root_errors error_messages set_errors].
  unfold bind at 1, rc_eqb. rewrite bool_decide_true by done. rewrite orb_true_r. split; [done|].
  exists (mkError (query_id r) rc E_OK :: es), k', (ticks r), (errno r). by destruct r.
Qed.

(** ** Trying the addresses *)

(** The server with another socket, other addresses and another state. *)
Definition dialled (o : bool) (n : Socket) (d : Dial) (st : memcached_server_state_t) i : Inst :=
  mkInst (position i) o n (rd i) (write_buffer i) (cursor_active_ i) (io_bytes_sent i) st
    (is_shutting_down i) (server_failure_counter i) (server_failure_counter_query_id i) (versions i) (request_id i)
    d (error_messages i).

Definition refused (n : Socket) : dial_event := DialSocket n (Some ECONNREFUSED).

Lemma set_options_ok l : forall r i, exists t, set_options l (mkCtx r i) = (Ret tt, mkCtx (set_ticks t r) i).
Proof using Hoptions.
  induction l as [|[] l IH]; intros r i; cbn [set_options].
  - exists (ticks r). by destruct r.
  - unfold bind at 1, bind at 1, tick. cbn [root inst]. unfold assert_io, lift, assert_msg. rewrite Hoptions, orb_true_r.
    destruct (IH (set_ticks (S (ticks r)) r) i) as (t & ->). by exists t.
  - unfold bind at 1, ret. destruct (IH r i) as (t & ->). by exists t.
Qed.

Lemma set_socket_options_ok r i : fd i = true -> exists t, set_socket_options (mkCtx r i) = (Ret tt, mkCtx (set_ticks t r) i).
Proof using Hoptions.
  intros Hfd. unfold set_socket_options. unfold bind at 1, geti, gets. cbn [inst]. rewrite Hfd.
  unfold bind at 1, assert_io, lift, assert_msg. rewrite orb_true_r. unfold bind at 1, conf, gets. cbn [root].
  destruct (use_udp _); [|apply set_options_ok]. exists (ticks r). by destruct r.
Qed.

Lemma same_ticks t r : same_client r (set_ticks t r).
Proof. exists (root_errors r), (allocs r), t, (errno r). by destruct r. Qed.

Lemma same_memc r r' : same_client r r' -> memc r' = memc r.
Proof. by intros (? & ? & ? & ? & ->). Qed.

(** Addresses that refuse are passed over. *)
Lemma refused_addresses ns : forall fuel t r i ty info addrs more,
  use_udp (flags (memc r)) = false -> fd i = false ->
  dial i = mkDial ty info addrs (map refused ns ++ more) -> (length ns <= length addrs)%nat ->
  exists r' n, network_connect_loop (length ns + fuel) t (mkCtx r i)
      = network_connect_loop fuel t (mkCtx r' (dialled false n (mkDial ty info (drop (length ns) addrs) more) (server_state i) i))
    /\ same_client r r' /\ root_errors r' = root_errors r.
Proof using Hoptions.
  induction ns as [|n ns IH]; intros fuel t r i ty info addrs more Hu Hfd Hd Hl.
  - exists r, (net i). cbn [length Nat.add map app] in *. rewrite drop_0, <- Hd. split; [|split; [apply same_refl|done]].
    do 2 f_equal. destruct i. cbn in *. by subst.
  - destruct addrs as [|a addrs]; [cbn in Hl; lia|]. cbn [length Nat.add map app drop] in *.
    cbn [network_connect_loop].
    unfold bind at 1, geti at 1, gets. cbn [inst]. rewrite Hd. cbn [address_info_next].
    unfold bind at 1, geti at 1, gets. cbn [inst]. rewrite Hfd.
    unfold bind at 1, conf at 1, gets. cbn [root]. rewrite Hu. cbn [andb].
    unfold bind at 1, sys_dial. cbn [inst root]. rewrite Hd. cbn [dials conn_type address_info address_info_next refused].
    unfold bind at 1, on_inst at 1, modify. cbn [root inst].
    set (i1 := with_socket n _). destruct (set_socket_options_ok r i1 eq_refl) as (k & E). run E. clear E.
    unfold bind at 1, on_root at 1, modify. cbn [root inst].
    unfold bind at 1, on_inst at 1, modify. cbn [root inst].
    unfold bind at 1, on_inst at 1, modify. cbn [root inst].
    set (r2 := set_errno ECONNREFUSED (set_ticks k r)).
    set (i2 := next_address (reset_socket i1)).
    destruct (IH fuel t r2 i2 ty info addrs more) as (r' & n' & E & Hs & He); [done|done|done|lia|].
    exists r', n'. split; [exact E|]. split; [|done]. eapply same_trans; [|exact Hs].
    eapply same_trans; [apply (same_ticks k)|apply same_errno].
Qed.

(** ** One call of [network_connect] *)

Context (addrs0 : list bool) (Haddrs0 : addrs0 <> []).

(** A TCP server with a name that can be looked up. *)
Record host_ok (m : Memcached) i : Prop := {
  h_tcp : use_udp (flags m) = false;
  h_entry : is_Some (servers m !! position i);
  h_name : head (_hostname (entry m i)) <> Some "/"%char;
  h_port : 0 <= port_ (entry m i) < 65536;
  h_type : conn_type (dial i) = MEMCACHED_CONNECTION_TCP;
  h_lookup : forall t, getaddrinfo t (_hostname (entry m i)) (port_ (entry m i)) = GaiOk addrs0;
  h_info : address_info (dial i) = None -> address_info_next (dial i) = [];
}.

(** The addresses that will be tried: the ones left of the last lookup, or all of a new one. *)
Definition to_try i : list bool := if address_info_next (dial i) is [] then addrs0 else address_info_next (dial i).

(** Whether one of them answers, and over which socket. *)
Inductive answers : nat -> list dial_event -> option Socket -> Prop :=
  | answers_none ns more : answers (length ns) (map refused ns ++ more) None
  | answers_some ns s more n : (length ns < n)%nat -> answers n (map refused ns ++ DialSocket s None :: more) (Some s).

Lemma this_server_ok {A} (f : Instance_ -> A) d r i : is_Some (servers (memc r) !! position i) ->
  this_server f d (mkCtx r i) = (Ret (f (entry (memc r) i)), mkCtx r i).
Proof.
  intros [x Hx]. unfold this_server, bind, geti, conf, gets, entry. cbn [inst root]. by rewrite Hx.
Qed.

Lemma set_hostinfo_ok r i : host_ok (memc r) i -> address_info_next (dial i) = [] ->
  exists t, set_hostinfo (mkCtx r i) = (Ret MEMCACHED_SUCCESS, mkCtx (set_ticks t r)
    (dialled (fd i) (net i) (mkDial MEMCACHED_CONNECTION_TCP (Some addrs0) addrs0 (dials (dial i)))
       MEMCACHED_SERVER_STATE_ADDRINFO i)).
Proof.
  intros [Hu He Hn Hp Ht Hl Hi] Hnext. exists (S (ticks r)). unfold set_hostinfo.
  unfold bind at 1, geti at 1, gets. cbn [inst]. rewrite Ht. unfold bind at 1, assert_io, lift, assert_msg. rewrite orb_true_r.
  unfold bind at 1, on_inst at 1, modify. cbn [inst root]. set (i1 := clear_addrinfo i).
  assert (position i1 = position i /\ dial i1 = mkDial MEMCACHED_CONNECTION_TCP None [] (dials (dial i))) as [Hpos Hd].
  { unfold i1, clear_addrinfo. destruct (address_info (dial i)) eqn:E; [by rewrite <- Ht|].
    split; [done|]. rewrite <- Ht, <- Hnext, <- E. by destruct (dial i). }
  assert (entry (memc r) i1 = entry (memc r) i) as Hent by (unfold entry; by rewrite Hpos).
  rewrite <- Hpos in He. rewrite <- Hent in Hp, Hl.
  run (this_server_ok port_ 0 r i1 He).
  pose proof (to_string_size (port_ (entry (memc r) i1)) 5 ltac:(lia)) as Hts.
  rewrite (proj2 (Z.leb_gt _ _)) by (unfold MEMCACHED_NI_MAXSERV; lia).
  unfold bind at 1, geti at 1, gets. cbn [inst]. rewrite Hd. cbn [address_info address_info_next].
  unfold bind at 1. rewrite orb_true_r. run (this_server_ok _hostname [] r i1 He).
  unfold bind at 1, tick. cbn [root inst]. rewrite Hl.
  unfold bind at 1, on_inst at 1, modify. cbn [inst root]. unfold bind at 1, on_inst at 1, modify. cbn [inst root].
  unfold ret. do 2 f_equal. unfold set_state, set_addrs, set_dial. cbn. rewrite Hd. unfold i1, clear_addrinfo.
  destruct (address_info (dial i)); reflexivity.
Qed.

Lemma lookup_ok r i : host_ok (memc r) i -> server_state i <> MEMCACHED_SERVER_STATE_IN_TIMEOUT ->
  exists t info st,
    (let* d := geti dial in
     match address_info d, address_info_next d with
     | Some _, _ :: _ => ret MEMCACHED_SUCCESS
     | _, _ => on_inst (set_addrs (address_info d) []) ;;; set_hostinfo
     end) (mkCtx r i)
    = (Ret MEMCACHED_SUCCESS, mkCtx (set_ticks t r)
         (dialled (fd i) (net i) (mkDial MEMCACHED_CONNECTION_TCP (Some info) (to_try i) (dials (dial i))) st i))
    /\ st <> MEMCACHED_SERVER_STATE_IN_TIMEOUT.
Proof.
  intros Hh Hst. pose proof Hh as [Hu He Hn Hp Ht Hl Hi]. unfold bind at 1, geti at 1, gets. cbn [inst].
  unfold to_try. destruct (address_info_next (dial i)) as [|a next] eqn:Hnext.
  - set (i1 := set_addrs (address_info (dial i)) [] i).
    assert (host_ok (memc r) i1) as Hh1 by (split; try done; cbn; by rewrite Ht).
    destruct (set_hostinfo_ok r i1 Hh1 eq_refl) as (t & E).
    exists t, addrs0, MEMCACHED_SERVER_STATE_ADDRINFO. split; [|done].
    destruct (address_info (dial i)); unfold bind at 1, on_inst at 1, modify; cbn [inst root]; exact E.
  - destruct (address_info (dial i)) as [info|] eqn:Hinfo; [|by specialize (Hi eq_refl)].
    exists (ticks r), info, (server_state i). split; [|done]. unfold ret. f_equal. destruct i as [? ? ? ? ? ? ? ? ? ? ? ? ? [] ?].
    cbn in *. subst. by destruct r.
Qed.

Lemma loop_down ns fuel t r i ty info addrs more :
  use_udp (flags (memc r)) = false -> fd i = false ->
  dial i = mkDial ty info addrs (map refused ns ++ more) -> length addrs = length ns ->
  exists r' n, network_connect_loop (length ns + fuel) t (mkCtx r i)
      = (Ret (inr t), mkCtx r' (dialled false n (mkDial ty info [] more) (server_state i) i))
    /\ same_client r r' /\ root_errors r' = root_errors r.
Proof using Hoptions.
  intros Hu Hfd Hd Hl. destruct (refused_addresses ns fuel t r i ty info addrs more Hu Hfd Hd ltac:(lia)) as (r' & n & -> & H).
  exists r', n. split; [|done]. rewrite drop_ge by lia. by destruct fuel.
Qed.

Lemma loop_up ns fuel t r i ty info addrs s more :
  use_udp (flags (memc r)) = false -> fd i = false ->
  dial i = mkDial ty info addrs (map refused ns ++ DialSocket s None :: more) -> (length ns < length addrs)%nat ->
  exists r' next, network_connect_loop (length ns + S fuel) t (mkCtx r i)
      = (Ret (inl MEMCACHED_SUCCESS), mkCtx r' (dialled true s (mkDial ty info next more) MEMCACHED_SERVER_STATE_CONNECTED i))
    /\ same_client r r'.
Proof using Hoptions.
  intros Hu Hfd Hd Hl.
  destruct (refused_addresses ns (S fuel) t r i ty info addrs _ Hu Hfd Hd ltac:(lia)) as (r1 & n & -> & Hs & _).
  destruct (drop (length ns) addrs) as [|a rest] eqn:Hdrop.
  { apply (f_equal length) in Hdrop. rewrite length_drop in Hdrop. cbn in Hdrop. lia. }
  cbn [network_connect_loop]. unfold bind at 1, geti at 1, gets. cbn [inst dialled dial address_info_next].
  unfold bind at 1, geti at 1, gets. cbn [inst dialled fd].
  unfold bind at 1, conf at 1, gets. cbn [root]. rewrite (same_memc _ _ Hs), Hu. cbn [andb].
  unfold bind at 1, sys_dial. cbn [inst root dialled dial dials].
  unfold bind at 1, on_inst at 1, modify. cbn [root inst].
  edestruct (set_socket_options_ok r1) as (k & E); [|run E]; [done|].
  unfold bind at 1, on_inst at 1, modify. cbn [root inst].
  exists (set_ticks k r1), (a :: rest). split; [reflexivity|]. eapply same_trans; [exact Hs|apply same_ticks].
Qed.

Lemma network_connect_start r i : host_ok (memc r) i -> server_state i <> MEMCACHED_SERVER_STATE_IN_TIMEOUT ->
  exists t info st, network_connect (mkCtx r i)
    = (let* x := network_connect_loop (S (length (to_try i) + length (dials (dial i)))) false in after_dialling x)
        (mkCtx (set_ticks t r) (dialled (fd i) (net i) (mkDial MEMCACHED_CONNECTION_TCP (Some info) (to_try i) (dials (dial i))) st i))
    /\ st <> MEMCACHED_SERVER_STATE_IN_TIMEOUT.
Proof using Haddrs0.
  intros Hh Hst. destruct (lookup_ok r i Hh Hst) as (t & info & st & E & Hst1).
  assert (exists a addrs, to_try i = a :: addrs) as (a & addrs & Htry)
    by (unfold to_try; destruct (address_info_next (dial i)); [destruct addrs0; [done|]|]; eauto).
  exists t, info, st. split; [|done]. unfold network_connect. rewrite <- bind_assoc. run E.
  change (memcached_failed MEMCACHED_SUCCESS) with false. cbv iota.
  unfold bind at 1, geti at 1, gets. cbn [inst dialled dial address_info address_info_next dials]. rewrite Htry.
  unfold bind at 1, assert_io, lift, assert_msg. rewrite orb_true_r. by unfold bind at 1.
Qed.

Lemma network_connect_ok r i w :
  host_ok (memc r) i -> fd i = false -> server_state i <> MEMCACHED_SERVER_STATE_IN_TIMEOUT ->
  root_errors r = [] -> answers (length (to_try i)) (dials (dial i)) w ->
  exists r' n d st es, same_client r r' /\ conn_type d = MEMCACHED_CONNECTION_TCP
    /\ match w with
       | Some s => n = s /\ st = MEMCACHED_SERVER_STATE_CONNECTED
         /\ network_connect (mkCtx r i) = (Ret MEMCACHED_SUCCESS, mkCtx r' (dialled true n d st i))
       | None => st <> MEMCACHED_SERVER_STATE_IN_TIMEOUT
         /\ network_connect (mkCtx r i) = (Ret MEMCACHED_CONNECTION_FAILURE, mkCtx r' (set_errors es (dialled false n d st i)))
         /\ current_error MEMCACHED_CONNECTION_FAILURE r' (set_errors es (dialled false n d st i))
       end.
Proof using Haddrs0 Hgrants Hoptions.
  intros Hh Hfd Hst Herr Hw. pose proof (h_tcp _ _ Hh) as Hu.
  destruct (network_connect_start r i Hh Hst) as (t & info & st & E0 & Hst1).
  set (i1 := dialled (fd i) (net i) _ st i) in E0. assert (fd i1 = false) as Hfd1 by done.
  inversion Hw as [ns more Hlen Hd Hwn|ns s more n0 Hlt Hlen Hd Hwn].
  - destruct (loop_down ns (S (length (dials (dial i)))) false (set_ticks t r) i1 MEMCACHED_CONNECTION_TCP (Some info)
      (to_try i) more Hu Hfd1 ltac:(by rewrite Hd) ltac:(done)) as (r2 & n & E & Hs & He).
    rewrite <- Hlen, <- Nat.add_succ_r in E0. rewrite (bind_Ret _ _ _ _ _ E) in E0. unfold after_dialling in E0.
    unfold bind at 1, ret at 1 in E0. unfold bind at 1, getr at 1, gets in E0. cbn [root] in E0.
    assert (memcached_has_current_error r2 = false) as Hcur
      by (unfold memcached_has_current_error; rewrite He; cbn [root_errors set_ticks]; by rewrite Herr).
    rewrite Hcur in E0. unfold bind at 1, geti at 1, gets in E0. cbn [inst andb] in E0.
    edestruct (set_error_ok MEMCACHED_CONNECTION_FAILURE r2) as (r3 & es & E3 & Hs3 & Hc3); [by left|].
    do 5 eexists. split; [|split; [|split; [|split; [etrans; [exact E0|exact E3]|exact Hc3]]]]; [|done|done].
    eapply same_trans; [apply (same_ticks t)|]. by eapply same_trans.
  - destruct (loop_up ns (length (to_try i) + length (dials (dial i)) - length ns) false (set_ticks t r) i1
      MEMCACHED_CONNECTION_TCP (Some info) (to_try i) s more Hu Hfd1 ltac:(by rewrite Hd) Hlt) as (r2 & next & E & Hs).
    replace (length ns + S (length (to_try i) + length (dials (dial i)) - length ns))%nat
      with (S (length (to_try i) + length (dials (dial i)))) in E by lia.
    rewrite (bind_Ret _ _ _ _ _ E) in E0.
    exists r2, s. do 2 eexists. exists []. split; [|split; [|split; [done|split; [done|exact E0]]]]; [|done].
    eapply same_trans; [apply (same_ticks t)|done].
Qed.

(** ** Backing off *)

Lemma entry_retry t m i : is_Some (servers m !! position i) ->
  entry (retry_at t i m) i = mkInstance (_hostname (entry m i)) (port_ (entry m i)) (weight (entry m i)) t.
Proof. intros [x Hx]. unfold entry, retry_at, with_next_retry. cbn. by rewrite list_lookup_alter_eq, Hx. Qed.

Lemma entry_some t m i : is_Some (servers m !! position i) -> is_Some (servers (retry_at t i m) !! position i).
Proof. intros [x Hx]. unfold retry_at, with_next_retry. cbn. rewrite list_lookup_alter_eq, Hx. by eexists. Qed.

Lemma host_retry t m i : host_ok m i -> host_ok (retry_at t i m) i.
Proof.
  intros [Hu He Hn Hp Ht Hl Hi]. split; try done; rewrite ?(entry_retry t m i He); try done. by apply entry_some.
Qed.

Context (now : Z) (Hnow : forall t, timeofday t = Some now).

(** [run_distribution] succeeds on the client, also with another time for the server. *)
Definition rebuilds (m : Memcached) i : Prop :=
  forall t m', m' = m \/ (exists u, m' = retry_at u i m) ->
  exists m'', redistribute t m' = Ret (MEMCACHED_SUCCESS, m'') /\ servers m'' = servers m'.

(** The client when the server is tried, and the server then. *)
Definition freed r i : Memcached :=
  if (server_failure_limit (limits (memc r)) <=? server_failure_counter i) && (next_retry (entry (memc r) i) =? 0)
  then retry_at 1 i (memc r) else memc r.

Lemma rules_freed r i : rules (freed r i) = rules (memc r).
Proof. unfold freed. by destruct (_ && _). Qed.

Lemma freed_some r i : is_Some (servers (memc r) !! position i) -> is_Some (servers (freed r i) !! position i).
Proof. intros He. unfold freed. destruct (_ && (_ =? 0)); [by apply entry_some|done]. Qed.

Lemma until_freed r i : is_Some (servers (memc r) !! position i) ->
  next_retry (entry (freed r i) i) =
  if (server_failure_limit (limits (memc r)) <=? server_failure_counter i) && (next_retry (entry (memc r) i) =? 0)
  then 1 else next_retry (entry (memc r) i).
Proof. intros He. unfold freed. destruct (_ && _); [by rewrite entry_retry|done]. Qed.

(** An ejected server: the client is rebuilt without it. *)
Lemma backoff_dead r i : rebuilds (memc r) i -> is_Some (servers (memc r) !! position i) ->
  (server_failure_limit (limits (memc r)) <=? server_failure_counter i) && auto_eject_hosts (flags (memc r)) = true ->
  exists r' i', backoff_handling (mkCtx r i) = (Ret (MEMCACHED_SERVER_MARKED_DEAD, false), mkCtx r' i')
    /\ position i' = position i /\ fd i' = fd i /\ dial i' = dial i
    /\ health (memc r') i' = (let h := health (memc r) i in let u := rules (memc r) in
         if 0 <? r_dead u then mkHealth (waiting h) (now + r_dead u) (u32 (r_limit u - 1)) else h).
Proof using Hgrants Hnow.
  intros Hre He Hdead. unfold backoff_handling. unfold bind at 1, gettimeofday. cbn [root inst]. rewrite Hnow.
  unfold bind at 1, geti at 1, gets. cbn [inst]. do 2 (unfold bind at 1, conf at 1, gets; cbn [root]).
  cbn [memc set_ticks]. rewrite Hdead.
  unfold bind at 1, conf at 1, gets. cbn [root memc set_ticks].
  set (m1 := if 0 <? dead_timeout (limits (memc r)) then retry_at (now + dead_timeout (limits (memc r))) i (memc r) else memc r).
  set (i1 := if 0 <? dead_timeout (limits (memc r))
             then set_failures (u32 (server_failure_limit (limits (memc r)) - 1)) (server_failure_counter_query_id i) i else i).
  match goal with |- context [bind ?m _ (mkCtx ?r1 i)] =>
    assert (m (mkCtx r1 i) = (Ret tt, mkCtx (set_memc m1 r1) i1)) as E
      by (unfold m1, i1; destruct (0 <? _); [|by destruct r];
          unfold set_next_retry, bind, geti, gets, on_root, on_inst, modify, ret; cbn; by destruct r)
  end.
  run E. clear E. unfold bind at 1, tick. cbn [root inst]. unfold bind at 1, getr at 1, gets. cbn [root].
  cbn [memc set_memc set_ticks ticks].
  match goal with |- context [redistribute ?t m1] => destruct (Hre t m1) as (m' & Hr & Hsv) end.
  { unfold m1. destruct (0 <? _); [right; by eexists|by left]. }
  unfold bind at 1, lift at 1. rewrite Hr. cbn [fst snd]. unfold bind at 1, on_root at 1, modify. cbn [root inst].
  change (memcached_failed MEMCACHED_SUCCESS) with false. cbv iota.
  edestruct (set_error_ok MEMCACHED_SERVER_MARKED_DEAD) as (r3 & es & E3 & Hs3 & _); [unfold plain_error; right; right; by left|].
  run E3. do 2 eexists. split; [reflexivity|].
  rewrite (same_memc _ _ Hs3). cbn [memc set_memc].
  split; [unfold i1; by destruct (0 <? _)|]. split; [unfold i1; by destruct (0 <? _)|]. split; [unfold i1; by destruct (0 <? _)|].
  unfold health. cbn [rules r_dead r_limit until waiting].
  assert (entry m' (set_errors es i1) = entry m1 i) as ->
    by (unfold entry; rewrite Hsv; unfold i1; by destruct (0 <? _)).
  unfold m1, i1. destruct (0 <? _); [|done]. by rewrite (entry_retry _ _ _ He).
Qed.

(** A server that may be tried, or has to wait. *)
Lemma backoff_alive r i : is_Some (servers (memc r) !! position i) ->
  (server_failure_limit (limits (memc r)) <=? server_failure_counter i) && auto_eject_hosts (flags (memc r)) = false ->
  let h := health (memc r) i in
  let w := waiting h || (server_failure_limit (limits (memc r)) <=? server_failure_counter i) in
  let t := next_retry (entry (freed r i) i) in
  exists k, if w && negb (t <? now) then
    exists r' es, backoff_handling (mkCtx r i)
        = (Ret (MEMCACHED_SERVER_TEMPORARILY_DISABLED, false),
           mkCtx r' (set_errors es (set_state MEMCACHED_SERVER_STATE_IN_TIMEOUT i)))
      /\ memc r' = freed r i
  else backoff_handling (mkCtx r i)
        = (Ret (MEMCACHED_SUCCESS, w),
           mkCtx (set_ticks k (set_memc (freed r i) r)) (if w then set_state MEMCACHED_SERVER_STATE_NEW i else i)).
Proof using Hgrants Hnow.
  intros He Hdead h w t. exists (S (ticks r)). set (worn := server_failure_limit (limits (memc r)) <=? server_failure_counter i) in *.
  set (r1 := set_ticks (S (ticks r)) (set_memc (freed r i) r)).
  set (i1 := if worn then set_state MEMCACHED_SERVER_STATE_IN_TIMEOUT i else i).
  assert (backoff_handling (mkCtx r i) = (let* st := geti server_state in
    if negb (bool_decide (st = MEMCACHED_SERVER_STATE_IN_TIMEOUT)) then ret (MEMCACHED_SUCCESS, false) else
    let* retry := this_server next_retry 0 in
    if retry <? now then on_inst (set_state MEMCACHED_SERVER_STATE_NEW) ;;; ret (MEMCACHED_SUCCESS, true)
    else let* rc := memcached_set_error MEMCACHED_SERVER_TEMPORARILY_DISABLED in ret (rc, false)) (mkCtx r1 i1)) as E0.
  { unfold backoff_handling. unfold bind at 1, gettimeofday. cbn [root inst]. rewrite Hnow.
    unfold bind at 1, geti at 1, gets. cbn [inst]. do 2 (unfold bind at 1, conf at 1, gets; cbn [root]).
    cbn [memc set_ticks]. fold worn. rewrite Hdead.
    match goal with |- bind ?m _ (mkCtx ?r2 i) = _ => assert (m (mkCtx r2 i) = (Ret tt, mkCtx r1 i1)) as E; [|by run E] end.
    unfold i1, r1, freed. fold worn. destruct worn; cbn [andb]; [|by destruct r].
    unfold bind at 1, on_inst at 1, modify. cbn [root inst].
    rewrite (bind_Ret _ _ _ _ _ (this_server_ok next_retry 0 (set_ticks (S (ticks r)) r) (set_state MEMCACHED_SERVER_STATE_IN_TIMEOUT i) He)).
    change (entry (memc (set_ticks (S (ticks r)) r)) (set_state MEMCACHED_SERVER_STATE_IN_TIMEOUT i)) with (entry (memc r) i).
    destruct (_ =? 0); [|by destruct r].
    unfold set_next_retry, bind, geti, gets, on_root, modify. cbn. by destruct r. }
  assert (server_state i1 = MEMCACHED_SERVER_STATE_IN_TIMEOUT <-> w = true) as Hw.
  { unfold i1, w, h. cbn [health waiting]. destruct worn; [by rewrite orb_true_r|]. by rewrite orb_false_r, bool_decide_eq_true. }
  assert (is_Some (servers (memc r1) !! position i1)) as He1.
  { assert (position i1 = position i) as -> by (unfold i1; by destruct worn).
    by apply freed_some. }
  assert (entry (memc r1) i1 = entry (freed r i) i) as Hent by (unfold i1; by destruct worn).
  destruct w eqn:Hweq; cbn [andb]; [destruct (t <? now) eqn:Ht; cbn [negb]|].
  - rewrite E0. unfold bind at 1, geti at 1, gets. cbn [inst]. rewrite (bool_decide_true _ (proj2 Hw eq_refl)). cbn [negb].
    rewrite (bind_Ret _ _ _ _ _ (this_server_ok next_retry 0 r1 i1 He1)), Hent. fold t. rewrite Ht.
    unfold bind at 1, on_inst at 1, modify. cbn [root inst]. unfold ret, i1. by destruct worn.
  - destruct (set_error_ok MEMCACHED_SERVER_TEMPORARILY_DISABLED r1 i1) as (r3 & es & E3 & Hs3 & _); [right; by left|].
    exists r3, es. rewrite (same_memc _ _ Hs3). split; [|done].
    rewrite E0. unfold bind at 1, geti at 1, gets. cbn [inst]. rewrite (bool_decide_true _ (proj2 Hw eq_refl)). cbn [negb].
    rewrite (bind_Ret _ _ _ _ _ (this_server_ok next_retry 0 r1 i1 He1)), Hent. fold t. rewrite Ht. run E3.
    pose proof (proj2 Hw eq_refl) as Hst. unfold ret. do 3 f_equal. revert Hst. unfold i1. destruct worn; [done|].
    destruct i; cbn; by intros ->.
  - rewrite E0. unfold bind at 1, geti at 1, gets. cbn [inst].
    rewrite bool_decide_false by (intros H; apply Hw in H; done). cbn [negb]. unfold ret. do 2 f_equal.
    unfold i1. destruct worn eqn:Hworn; [|done]. exfalso. assert (false = true) as H by (by apply Hw). done.
Qed.

(** ** Connecting *)

Lemma mark_ok r i :
  server_state i <> MEMCACHED_SERVER_STATE_IN_TIMEOUT -> server_failure_counter_query_id i <> query_id r ->
  exists k, memcached_mark_server_for_timeout (mkCtx r i)
    = (Ret tt, mkCtx (set_memc (retry_at (now + retry_timeout (limits (memc r))) i (memc r)) (set_ticks k r))
         (set_failures (u32 (server_failure_counter i + 1)) (query_id r) (set_state MEMCACHED_SERVER_STATE_IN_TIMEOUT i))).
Proof using Hnow.
  intros Hst Hq. exists (S (ticks r)). unfold memcached_mark_server_for_timeout.
  unfold bind at 1, geti at 1, gets. cbn [inst]. rewrite bool_decide_false by done.
  unfold bind at 1, gettimeofday. cbn [root inst]. rewrite Hnow. cbn [root inst].
  unfold bind at 1, conf at 1, gets. cbn [root]. unfold bind at 1, geti at 1, gets. cbn [inst].
  unfold bind at 1, on_root at 1, modify. cbn [root inst]. unfold bind at 1, on_inst at 1, modify. cbn [root inst].
  unfold bind at 1, getr at 1, gets. cbn [root]. unfold bind at 1, geti at 1, gets. cbn [inst].
  cbn [query_id set_memc set_ticks server_failure_counter_query_id set_state].
  by rewrite (proj2 (Z.eqb_neq _ _)) by done.
Qed.

(** What the rest of [connect_server] does when no address answered. *)
Lemma failed_ok r i (in_timeout : bool) :
  is_Some (servers (memc r) !! position i) -> current_error MEMCACHED_CONNECTION_FAILURE r i ->
  server_state i <> MEMCACHED_SERVER_STATE_IN_TIMEOUT -> server_failure_counter_query_id i <> query_id r ->
  exists r' i',
    (let* current := getr memcached_has_current_error in
     (if current : bool then
        memcached_mark_server_for_timeout ;;;
        let* e := geti memcached_instance_error_return in assert_io (memcached_failed e)
      else let* _ := memcached_set_error MEMCACHED_CONNECTION_FAILURE in memcached_mark_server_for_timeout) ;;;
     if in_timeout then memcached_set_error_msg MEMCACHED_SERVER_TEMPORARILY_DISABLED else ret MEMCACHED_CONNECTION_FAILURE)
    (mkCtx r i)
    = (Ret (if in_timeout then MEMCACHED_SERVER_TEMPORARILY_DISABLED else MEMCACHED_CONNECTION_FAILURE), mkCtx r' i')
    /\ fd i' = fd i
    /\ health (memc r') i' = mkHealth true (now + retry_timeout (limits (memc r))) (u32 (server_failure_counter i + 1)).
Proof using Hgrants Hnow.
  intros He [[es Hes] [es' Hes']] Hst Hq. unfold bind at 1, getr at 1, gets. cbn [root].
  assert (memcached_has_current_error r = true) as -> by (unfold memcached_has_current_error; rewrite Hes; cbn; by rewrite Z.eqb_refl).
  destruct (mark_ok r i Hst Hq) as (k & E). set (m' := retry_at _ i (memc r)) in E. set (i' := set_failures _ _ _) in E.
  unfold bind at 1. rewrite (bind_Ret _ _ _ _ _ E). unfold bind at 1, geti at 1, gets. cbn [inst].
  assert (memcached_instance_error_return i' = MEMCACHED_CONNECTION_FAILURE) as -> by (unfold memcached_instance_error_return; cbn; by rewrite Hes').
  unfold assert_io, lift, assert_msg. change (memcached_failed MEMCACHED_CONNECTION_FAILURE) with true. rewrite orb_true_r.
  assert (forall es, health m' (set_errors es i') = mkHealth true (now + retry_timeout (limits (memc r))) (u32 (server_failure_counter i + 1))) as Hh.
  { intros es0. unfold health. change (entry m' (set_errors es0 i')) with (entry m' i). unfold m'. by rewrite (entry_retry _ _ _ He). }
  destruct in_timeout.
  - destruct (set_error_msg_ok MEMCACHED_SERVER_TEMPORARILY_DISABLED (set_memc m' (set_ticks k r)) i') as (r3 & es3 & E3 & Hs3); [right; by left|].
    exists r3, (set_errors es3 i'). split; [exact E3|]. split; [done|]. rewrite (same_memc _ _ Hs3). apply Hh.
  - do 2 eexists. split; [reflexivity|]. split; [done|]. cbn [memc set_memc]. by rewrite <- (Hh (error_messages i')).
Qed.

Lemma succeeded_ok r i : is_Some (servers (memc r) !! position i) -> fst (fst (versions i)) = 255 ->
  server_state i = MEMCACHED_SERVER_STATE_CONNECTED ->
  exists r' i', (mark_server_as_clean ;;; memcached_version_instance ;;; ret MEMCACHED_SUCCESS) (mkCtx r i)
      = (Ret MEMCACHED_SUCCESS, mkCtx r' i')
    /\ fd i' = fd i /\ net i' = net i /\ health (memc r') i' = mkHealth false 0 0.
Proof.
  intros He Hv Hst. exists (set_memc (retry_at 0 i (memc r)) r), (set_failures 0 (server_failure_counter_query_id i) i).
  split; [|split; [done|split; [done|]]].
  - unfold mark_server_as_clean, set_next_retry, memcached_version_instance, bind, geti, conf, gets, on_inst, on_root, modify.
    cbn. by rewrite Hv, Z.eqb_refl, andb_false_r.
  - unfold health. cbn. rewrite Hst.
    change (entry (retry_at 0 i (memc r)) (set_failures 0 (server_failure_counter_query_id i) i)) with (entry (retry_at 0 i (memc r)) i).
    by rewrite entry_retry.
Qed.

Lemma host_freed r i st : host_ok (memc r) i -> host_ok (freed r i) (set_state st i).
Proof.
  intros Hh. assert (host_ok (freed r i) i) as [] by (unfold freed; destruct (_ && (_ =? 0)); [by apply host_retry|done]).
  by split.
Qed.

Lemma set_state_same i : set_state (server_state i) i = i.
Proof. by destruct i. Qed.

(** What a server does that may be tried. *)
Lemma tried_ok r i r1 i1 (wt : bool) w :
  backoff_handling (mkCtx r i) = (Ret (MEMCACHED_SUCCESS, wt), mkCtx r1 i1) ->
  host_ok (memc r1) i1 -> fd i1 = false -> server_state i1 <> MEMCACHED_SERVER_STATE_IN_TIMEOUT -> root_errors r1 = [] ->
  server_failure_counter_query_id i1 <> query_id r1 -> fst (fst (versions i1)) = 255 ->
  answers (length (to_try i1)) (dials (dial i1)) w ->
  exists r' i' rc, connect_server (mkCtx r i) = (Ret rc, mkCtx r' i')
    /\ fd i' = ok_code rc /\ (ok_code rc = true -> w = Some (net i'))
    /\ (rc, health (memc r') i') = if bool_decide (is_Some w) then (MEMCACHED_SUCCESS, mkHealth false 0 0) else
         (if wt then MEMCACHED_SERVER_TEMPORARILY_DISABLED else MEMCACHED_CONNECTION_FAILURE,
          mkHealth true (now + retry_timeout (limits (memc r1))) (u32 (server_failure_counter i1 + 1))).
Proof using Haddrs0 Hgrants Hoptions Hnow.
  intros E Hh1 Hfd Hst1 Herr Hq Hv Hw.
  destruct (network_connect_ok r1 i1 w Hh1 Hfd Hst1 Herr Hw) as (r2 & n & d & st & es & Hs & Hty & Hcase).
  assert (connect_server (mkCtx r i) = (let* rc := network_connect in
    if memcached_success rc then mark_server_as_clean ;;; memcached_version_instance ;;; ret rc else
    let* current := getr memcached_has_current_error in
    (if current : bool then
       memcached_mark_server_for_timeout ;;;
       let* e := geti memcached_instance_error_return in assert_io (memcached_failed e)
     else let* _ := memcached_set_error rc in memcached_mark_server_for_timeout) ;;;
    if wt then memcached_set_error_msg MEMCACHED_SERVER_TEMPORARILY_DISABLED else ret rc) (mkCtx r1 i1)) as E0.
  { unfold connect_server. run E. change (memcached_failed MEMCACHED_SUCCESS) with false. cbv iota.
    rewrite (bind_Ret _ _ _ _ _ (this_server_ok _hostname [] r1 i1 (h_entry _ _ Hh1))).
    rewrite bool_decide_false by apply (h_name _ _ Hh1). unfold bind at 1, ret at 1.
    unfold bind at 1, geti at 1, gets. cbn [inst]. rewrite (h_type _ _ Hh1). done. }
  assert (is_Some (servers (memc r2) !! position i1)) as He2 by (rewrite (same_memc _ _ Hs); apply (h_entry _ _ Hh1)).
  destruct w as [s|].
  - destruct Hcase as (-> & -> & E2). rewrite (bind_Ret _ _ _ _ _ E2) in E0.
    destruct (succeeded_ok r2 (dialled true s d MEMCACHED_SERVER_STATE_CONNECTED i1) He2 Hv eq_refl) as (r' & i' & E3 & Hf & Hn & Hhl).
    rewrite bool_decide_true by by eexists. exists r', i', MEMCACHED_SUCCESS. split; [etrans; [exact E0|exact E3]|].
    split; [by rewrite Hf|]. split; [intros _; by rewrite Hn|by rewrite Hhl].
  - destruct Hcase as (Hst & E2 & Hc). rewrite (bind_Ret _ _ _ _ _ E2) in E0.
    destruct (failed_ok r2 (set_errors es (dialled false n d st i1)) wt He2 Hc Hst) as (r' & i' & E3 & Hf & Hhl).
    { destruct Hs as (? & ? & ? & ? & ->). exact Hq. }
    rewrite bool_decide_false by (intros [? ?]; done). exists r', i'. eexists. split; [etrans; [exact E0|exact E3]|].
    rewrite Hf, Hhl, (same_memc _ _ Hs). by destruct wt.
Qed.

(** C4. Connecting to a server that may be down refines the automaton [attempt]: the addresses are
    tried in order, a server that failed is left alone for [retry_timeout] seconds (then the
    network is not used at all), one with [server_failure_limit] failures is ejected when the
    client ejects servers, a success clears its record; the code returned, the health of the server
    afterwards and the socket that is used are those of the automaton. *)
Theorem connect_refines r i w :
  rebuilds (memc r) i -> host_ok (memc r) i -> fd i = false -> root_errors r = [] -> server_failure_counter_query_id i <> query_id r ->
  fst (fst (versions i)) = 255 -> answers (length (to_try i)) (dials (dial i)) w ->
  let '(rc, h, tried) := attempt (rules (memc r)) now (bool_decide (is_Some w)) (health (memc r) i) in
  exists r' i', connect_server (mkCtx r i) = (Ret rc, mkCtx r' i') /\ health (memc r') i' = h
    /\ (tried = false -> dial i' = dial i) /\ fd i' = ok_code rc /\ (ok_code rc = true -> w = Some (net i')).
Proof using Haddrs0 Hgrants Hoptions Hnow.
  intros Hre Hh Hfd Herr Hq Hv Hw. pose proof (h_entry _ _ Hh) as He.
  destruct ((r_limit (rules (memc r)) <=? fails (health (memc r) i)) && r_eject (rules (memc r))) eqn:Hdead.
  { unfold attempt. rewrite Hdead. destruct (backoff_dead r i Hre He Hdead) as (r' & i' & E & Hp & Hf & Hd & Hhl).
    exists r', i'. unfold connect_server. run E. split; [done|]. split; [done|]. split; [done|]. by rewrite Hf. }
  destruct (backoff_alive r i He Hdead) as (k & E). cbv zeta in E.
  rewrite (until_freed r i He) in E. unfold attempt. rewrite Hdead.
  cbn [rules r_limit r_eject r_dead r_retry health fails waiting until] in *.
  set (worn := server_failure_limit (limits (memc r)) <=? server_failure_counter i) in *.
  set (wt := bool_decide (server_state i = MEMCACHED_SERVER_STATE_IN_TIMEOUT) || worn) in *.
  destruct (wt && negb ((if worn && (next_retry (entry (memc r) i) =? 0) then 1 else next_retry (entry (memc r) i)) <? now)) eqn:Hwait.
  { destruct E as (r' & es & E & Hm). exists r', (set_errors es (set_state MEMCACHED_SERVER_STATE_IN_TIMEOUT i)).
    unfold connect_server. run E. split; [done|]. split; [|split; [done|split; [done|done]]]. rewrite Hm. unfold health.
    change (entry (freed r i) (set_errors es (set_state MEMCACHED_SERVER_STATE_IN_TIMEOUT i))) with (entry (freed r i) i).
    rewrite (until_freed r i He). fold worn. apply andb_prop in Hwait as [Hwt _]. by rewrite Hwt. }
  set (r1 := set_ticks k (set_memc (freed r i) r)) in E. set (st1 := if wt then MEMCACHED_SERVER_STATE_NEW else server_state i).
  assert ((if wt then set_state MEMCACHED_SERVER_STATE_NEW i else i) = set_state st1 i) as Hi1
    by (unfold st1; destruct wt; [done|by rewrite set_state_same]).
  rewrite Hi1 in E. set (i1 := set_state st1 i) in *.
  assert (server_state i1 <> MEMCACHED_SERVER_STATE_IN_TIMEOUT) as Hst1.
  { unfold i1, st1, wt. cbn. destruct (bool_decide_reflect (server_state i = MEMCACHED_SERVER_STATE_IN_TIMEOUT)); [done|].
    by destruct worn. }
  assert (host_ok (memc r1) i1) as Hh1 by by apply host_freed.
  destruct (tried_ok r i r1 i1 wt w E Hh1 Hfd Hst1 Herr Hq Hv Hw) as (r' & i' & rc & E1 & Hf & Hn & Hres).
  assert (limits (memc r1) = limits (memc r)) as Hlim by (unfold r1; cbn; unfold freed; by destruct (_ && (_ =? 0))).
  rewrite Hlim in Hres. destruct (bool_decide (is_Some w)); apply pair_equal_spec in Hres as [-> Hhl]; exists r', i';
    (split; [done|]; split; [exact Hhl|]; split; [done|]; by split).
Qed.
End Connecting.
