(* ===== verification/ClientWriteSpec.v ===== *)
(** * What writing to a server sends

    The bytes the kernel has taken followed by those in the output buffer are the bytes that
    were written, in order, whatever part of them each call of [send] accepts. *)

From stdpp Require Import base list.
From Stdlib Require Import ZArith Lia Ascii.
From S2P Require Import Prelude CxxString HashWords HashkitString Rijndael Aes HashKit ClientTypes ClientString Continuum.
From S2P Require Import ClientState ClientRead ClientReadSpec ClientWrite.

(** ** The output of a server *)

(** What has been written so far. *)
Definition written (i : Inst) : cstring := wire (net i) ++ write_buffer i.

(** [send] accepts something every time, often enough for [n] bytes. *)
Definition accepts (n : nat) (l : list send_event) : Prop :=
  Forall (fun e => match e with SendUpTo k => (0 < k)%nat | SendError _ => False end) l /\ (n <= length l)%nat.

(** [i'] is [i] but for its output. *)
Definition with_output (i : Inst) (l : list send_event) (w b : cstring) (n : Z) : Inst :=
  set_io_bytes_sent n (set_write_buffer b (upd_net (fun s => mkSocket (recvs s) l (polls s) w) i)).
Definition writes (i i' : Inst) : Prop := exists l w b n, i' = with_output i l w b n.

Lemma writes_intro i i' :
  i' = with_output i (sends (net i')) (wire (net i')) (write_buffer i') (io_bytes_sent i') -> writes i i'.
Proof. intros ->. by do 4 eexists. Qed.

Lemma writes_refl i : writes i i.
Proof.
  exists (sends (net i)), (wire (net i)), (write_buffer i), (io_bytes_sent i).
  destruct i as [? ? [] ? ? ? ? ? ? ? ? ? ?]. reflexivity.
Qed.

Lemma writes_trans i j k : writes i j -> writes j k -> writes i k.
Proof.
  intros (l & w & b & n & ->) (l' & w' & b' & n' & ->). exists l', w', b', n'.
  destruct i as [? ? [] ? ? ? ? ? ? ? ? ? ?]. reflexivity.
Qed.

#[export] Hint Resolve writes_refl : client.

Lemma accepts_weaken m n l : accepts n l -> (m <= n)%nat -> accepts m l.
Proof. intros [? ?] ?. split; [done|lia]. Qed.

(** With one response outstanding at most, there is nothing to purge. *)
Definition calm (r : Root) (i : Inst) : Prop :=
  is_purging r = false /\ 0 <= cursor_active_ i < 2 /\ 2 <= io_msg_watermark (limits (memc r)).

Lemma calm_idle r i : calm r i -> purge_idle r i = true.
Proof.
  intros (Hp & Hc & Hw). unfold purge_idle. rewrite Hp. cbn [orb].
  rewrite (proj2 (Z.ltb_lt (cursor_active_ i) (io_msg_watermark _))), (proj2 (Z.ltb_lt (cursor_active_ i) 2)) by lia.
  cbn [andb]. rewrite andb_true_r. rewrite Z.ltb_antisym. by destruct (_ <=? _).
Qed.

Lemma calm_writes r i i' : calm r i -> writes i i' -> calm r i'.
Proof. intros (? & ? & ?) (l & w & b & n & ->). done. Qed.

Section Writing.
Context `{DM : DataModel} `{AL : Allocator} `{CF : ClientConfig} `{CK : Clock} `{CC : CipherConfig}.
Context `{BR : BinaryReader} `{TR : Transport}.

Lemma purge_calm r i : calm r i -> memcached_purge (mkCtx r i) = (Ret true, mkCtx r i).
Proof. intros H. unfold memcached_purge, bind at 1, gets. cbn [root inst]. by rewrite calm_idle. Qed.

(** The loop of [io_flush] hands all of the buffer to the kernel. *)
Lemma flush_loop_ok purge fuel : forall rest r i,
  accepts (length rest) (sends (net i)) -> (length rest <= fuel)%nat ->
  exists i', flush_loop purge fuel rest (mkCtx r i) = (Ret true, mkCtx r i')
    /\ writes i i' /\ write_buffer i' = [] /\ wire (net i') = wire (net i) ++ rest
    /\ (forall n, accepts (length rest + n) (sends (net i)) -> accepts n (sends (net i'))).
Proof.
  induction fuel as [|fuel IH]; intros rest r i [Ha Hl] Hf; (destruct rest as [|c rest];
    [eexists; split; [reflexivity|]; split; [|split; [done|split; [by rewrite app_nil_r|done]]];
     exists (sends (net i)), (wire (net i)), [], (io_bytes_sent i);
     by destruct i as [? ? [] ? ? ? ? ? ? ? ? ? ?]|]).
  - cbn in Hf. lia.
  - cbn [flush_loop]. destruct (sends (net i)) as [|e l] eqn:Es; [cbn in Hl; lia|].
      inversion_clear Ha as [|? ? He Hl']. destruct e as [k|]; [|done].
      unfold bind at 1, sys_send at 1. cbn [inst root]. rewrite Es.
      set (now := take k (c :: rest)). assert (now <> []) as Hnow by (unfold now; destruct k; [lia|done]).
      unfold on_inst at 1, modify at 1, bind at 1. cbn [root inst].
      set (i1 := set_io_bytes_sent _ _).
      assert (Z.to_nat (size now) = length now) as -> by (unfold size; lia).
      assert (drop (length now) (c :: rest) = drop k (c :: rest)) as ->.
      { unfold now. rewrite length_take. destruct (Nat.min_spec k (length (c :: rest))) as [[? ->]|[? ->]]; [done|].
        by rewrite !drop_ge by lia. }
      pose proof (f_equal length (take_drop k (c :: rest))) as Hlen. fold now in Hlen. rewrite length_app in Hlen.
      assert (0 < length now)%nat by (destruct now; [done|cbn; lia]). cbn [length] in *.
      destruct (IH (drop k (c :: rest)) r i1) as (i2 & E & Hw & Hb & Hwire & Hacc).
      { split; [done|]. cbn. lia. }
      { lia. }
      exists i2. rewrite E. split; [done|]. split; [|split; [done|split]].
      * eapply writes_trans; [|exact Hw]. apply writes_intro. unfold i1. by destruct i as [? ? [] ? ? ? ? ? ? ? ? ? ?].
      * rewrite Hwire. cbn. rewrite <- app_assoc. f_equal. apply take_drop.
      * intros n [Hn1 Hn2]. apply Hacc. split; [done|]. cbn in *. lia.
Qed.

(** A flush sends what is in the buffer. *)
Lemma io_flush_ok r i :
  calm r i -> accepts (length (write_buffer i)) (sends (net i)) ->
  exists i', io_flush (mkCtx r i) = (Ret true, mkCtx r i')
    /\ writes i i' /\ write_buffer i' = [] /\ written i' = written i
    /\ (forall n, accepts (length (write_buffer i) + n) (sends (net i)) -> accepts n (sends (net i'))).
Proof.
  intros Hc Ha. unfold io_flush, io_flush_with. run (purge_calm r i Hc). cbn [negb].
  unfold bind at 1, geti, gets. unfold bind at 1. cbn [inst].
  destruct (flush_loop_ok memcached_purge (S (length (sends (net i)))) (write_buffer i) r i Ha) as (i' & E & Hw & Hb & Hwire & Hacc).
  { destruct Ha. lia. }
  exists i'. rewrite E. split; [done|]. split; [done|]. split; [done|]. split; [|done].
  unfold written. by rewrite Hb, Hwire, app_nil_r.
Qed.

(** The output buffer is never full between calls. *)
Definition wr_ok (i : Inst) : Prop := size (write_buffer i) < MEMCACHED_MAX_BUFFER.

(** How many bytes are to be sent at most. *)
Lemma write_loop_ok fuel : forall buffer r i,
  calm r i -> wr_ok i -> accepts (length (write_buffer i) + length buffer) (sends (net i)) ->
  (length buffer < fuel)%nat ->
  exists i', write_loop memcached_purge fuel buffer (mkCtx r i) = (Ret (true, []), mkCtx r i')
    /\ writes i i' /\ wr_ok i' /\ written i' = written i ++ buffer
    /\ (forall n, accepts (length (write_buffer i) + length buffer + n) (sends (net i)) ->
         accepts (length (write_buffer i') + n) (sends (net i'))).
Proof.
  induction fuel as [|fuel IH]; intros buffer r i Hc Hw Ha Hf; [lia|].
  destruct buffer as [|c buffer].
  { exists i. rewrite app_nil_r. split; [done|]. split; [auto with client|]. split; [done|]. split; [done|].
    intros n. cbn [length]. by rewrite Nat.add_0_r. }
  cbn [write_loop]. unfold bind at 1, geti, gets. cbn [inst].
  set (room := Z.to_nat (MEMCACHED_MAX_BUFFER - write_buffer_offset i)).
  assert (0 < room)%nat as Hroom by (unfold room, write_buffer_offset, wr_ok in *; lia).
  unfold on_inst at 1, modify at 1, bind at 1. cbn [inst root]. unfold bind at 1. cbn [inst].
  set (i1 := append_output (take room (c :: buffer)) i).
  assert (writes i i1) as Hw1.
  { apply writes_intro. unfold i1. by destruct i as [? ? [] ? ? ? ? ? ? ? ? ? ?]. }
  assert (written i1 = written i ++ take room (c :: buffer)) as Hwr1 by (unfold written, i1; cbn; by rewrite app_assoc).
  assert (length (write_buffer i1) = length (write_buffer i) + length (take room (c :: buffer)))%nat as Hl1
    by (unfold i1; cbn; apply length_app).
  pose proof (f_equal length (take_drop room (c :: buffer))) as Hlen. rewrite length_app in Hlen.
  assert (0 < length (take room (c :: buffer)))%nat as Hpos by (destruct room; [lia|cbn; lia]).
  destruct (write_buffer_offset i1 =? MEMCACHED_MAX_BUFFER) eqn:Hfull.
  - destruct (io_flush_ok r i1) as (i2 & E & Hw2 & Hb2 & Hwr2 & Hacc2).
    { by eapply calm_writes. }
    { change (sends (net i1)) with (sends (net i)). eapply accepts_weaken; [exact Ha|lia]. }
    unfold io_flush in E. run E.
    destruct (IH (drop room (c :: buffer)) r i2) as (i3 & E3 & Hw3 & Hok3 & Hwr3 & Hacc3).
    { eapply calm_writes; [|exact Hw2]. by eapply calm_writes. }
    { unfold wr_ok. rewrite Hb2. unfold MEMCACHED_MAX_BUFFER. done. }
    { rewrite Hb2. cbn [length]. apply Hacc2. eapply accepts_weaken; [exact Ha|]. rewrite Hl1. lia. }
    { lia. }
    exists i3. rewrite E3. split; [done|]. split; [exact (writes_trans _ _ _ Hw1 (writes_trans _ _ _ Hw2 Hw3))|]. split; [done|]. split.
    + rewrite Hwr3, Hwr2, Hwr1, <- app_assoc. f_equal. apply take_drop.
    + intros n Hn. apply Hacc3. rewrite Hb2. cbn [length]. apply Hacc2. eapply accepts_weaken; [exact Hn|]. rewrite Hl1. lia.
  - apply Z.eqb_neq in Hfull.
    destruct (IH (drop room (c :: buffer)) r i1) as (i3 & E3 & Hw3 & Hok3 & Hwr3 & Hacc3).
    { by eapply calm_writes. }
    { unfold wr_ok, write_buffer_offset, size in *. unfold room in *. rewrite Hl1 in *. rewrite length_take in *. lia. }
    { change (sends (net i1)) with (sends (net i)). eapply accepts_weaken; [exact Ha|]. rewrite Hl1. lia. }
    { lia. }
    exists i3. rewrite E3. split; [done|]. split; [exact (writes_trans _ _ _ Hw1 Hw3)|]. split; [done|]. split.
    + rewrite Hwr3, Hwr1, <- app_assoc. f_equal. apply take_drop.
    + intros n Hn. apply Hacc3. change (sends (net i1)) with (sends (net i)).
      eapply accepts_weaken; [exact Hn|]. rewrite Hl1. lia.
Qed.

(** A connection that can be written to. *)
Record writable (r : Root) (i : Inst) (n : nat) : Prop := {
  wb_open : fd i = true;
  wb_tcp : use_udp (flags (memc r)) = false;
  wb_calm : calm r i;
  wb_room : wr_ok i;
  wb_accepts : accepts (length (write_buffer i) + n) (sends (net i));
}.

Lemma writable_writes r i i' n : writable r i n -> writes i i' -> wr_ok i' ->
  accepts (length (write_buffer i') + n) (sends (net i')) -> writable r i' n.
Proof.
  intros [Ho Ht Hc Hr Ha] Hw Hok Hacc. split; try done; [|by eapply calm_writes].
  by destruct Hw as (? & ? & ? & ? & ->).
Qed.

Lemma writable_weaken r i m n : writable r i m -> (n <= m)%nat -> writable r i n.
Proof. intros [? ? ? ? Ha] ?. split; try done. eapply accepts_weaken; [exact Ha|lia]. Qed.

(** A write puts its bytes behind those written before. *)
Lemma io_write_ok buffer with_flush r i n :
  writable r i (length buffer + n) ->
  exists i', _io_write buffer with_flush (mkCtx r i) = (Ret (true, size buffer), mkCtx r i')
    /\ writes i i' /\ written i' = written i ++ buffer /\ writable r i' n
    /\ (with_flush = true -> write_buffer i' = []).
Proof.
  intros Hwb. pose proof Hwb as [Ho Ht Hc Hr Ha]. unfold _io_write, _io_write_with, bind at 1, geti, gets. cbn [inst]. rewrite Ho.
  unfold bind at 1, assert_io, lift, assert_msg. rewrite orb_true_r.
  unfold bind at 1, conf, gets. cbn [root]. rewrite Ht. cbn [negb].
  unfold bind at 1. rewrite orb_true_r.
  destruct (write_loop_ok (S (S (length buffer))) buffer r i Hc Hr) as (i1 & E & Hw1 & Hok1 & Hwr1 & Hacc1).
  { eapply accepts_weaken; [exact Ha|lia]. }
  { lia. }
  run E. cbn [negb]. rewrite size_nil, Z.sub_0_r.
  assert (writable r i1 n) as Hwb1.
  { eapply writable_writes; [by eapply writable_weaken, Nat.le_add_l|done|done|]. apply Hacc1. by rewrite Nat.add_assoc in Ha. }
  destruct with_flush.
  - destruct (io_flush_ok r i1) as (i2 & E2 & Hw2 & Hb2 & Hwr2 & Hacc2).
    { by eapply calm_writes. }
    { eapply accepts_weaken; [exact (wb_accepts _ _ _ Hwb1)|lia]. }
    unfold io_flush in E2. run E2. exists i2. split; [done|]. split; [exact (writes_trans _ _ _ Hw1 Hw2)|].
    split; [by rewrite Hwr2, Hwr1|]. split; [|done].
    eapply writable_writes; [exact Hwb1|done| |rewrite Hb2; apply Hacc2, Hwb1].
    unfold wr_ok. rewrite Hb2. done.
  - exists i1. split; [done|]. split; [done|]. split; [done|]. split; [done|]. done.
Qed.

(** The pieces of a vector follow each other. *)
Lemma writev_loop_ok vector : forall a r i n,
  writable r i (length (concat vector) + n) ->
  exists i', writev_loop vector a a (mkCtx r i)
      = (Ret (Some (a + size (concat vector), a + size (concat vector))), mkCtx r i')
    /\ writes i i' /\ written i' = written i ++ concat vector /\ writable r i' n.
Proof.
  induction vector as [|v vector IH]; intros a r i n Hw; cbn [writev_loop concat].
  - exists i. rewrite size_nil, Z.add_0_r, app_nil_r. auto with client.
  - destruct (Z.eqb_spec (size v) 0) as [Hz|Hz].
    + assert (v = []) as -> by (destruct v; [done|unfold size in Hz; cbn in Hz; lia]). apply IH, Hw.
    + destruct (io_write_ok v false r i (length (concat vector) + n)) as (i1 & E & Hw1 & Hwr1 & Hwb1 & _).
      { cbn [concat] in Hw. rewrite length_app in Hw. by rewrite Nat.add_assoc. }
      run E. cbn [fst snd]. destruct (IH (a + size v) r i1 n Hwb1) as (i2 & E2 & Hw2 & Hwr2 & Hwb2).
      exists i2. rewrite E2, size_app, Z.add_assoc. split; [done|]. split; [exact (writes_trans _ _ _ Hw1 Hw2)|].
      split; [|done]. by rewrite Hwr2, Hwr1, app_assoc.
Qed.

Lemma writev_ok vector with_flush r i n :
  writable r i (length (concat vector) + n) ->
  exists i', memcached_io_writev vector with_flush (mkCtx r i) = (Ret true, mkCtx r i')
    /\ writes i i' /\ written i' = written i ++ concat vector /\ writable r i' n
    /\ (with_flush = true -> write_buffer i' = []).
Proof.
  intros Hw. destruct (writev_loop_ok vector 0 r i n Hw) as (i1 & E & Hw1 & Hwr1 & Hwb1).
  unfold memcached_io_writev. run E. destruct with_flush.
  - destruct (io_write_ok [] true r i1 n Hwb1) as (i2 & E2 & Hw2 & Hwr2 & Hwb2 & Hb2).
    unfold memcached_io_write_all. rewrite bind_assoc. run E2. cbn [fst]. unfold ret, bind. rewrite Z.eqb_refl.
    exists i2. split; [done|]. split; [exact (writes_trans _ _ _ Hw1 Hw2)|]. split; [by rewrite Hwr2, Hwr1, app_nil_r|done].
  - rewrite Z.eqb_refl. exists i1. done.
Qed.

(** A request over an open connection is sent whole, and one more response is awaited. *)
Lemma vdo_ok vector r i n :
  writable r i (length (concat vector) + n) -> reply (flags (memc r)) = true ->
  exists i', memcached_vdo vector true (mkCtx r i)
      = (Ret MEMCACHED_SUCCESS, mkCtx r (set_cursor (cursor_active_ i + 1) i'))
    /\ writes i i' /\ wire (net i') = written i ++ concat vector /\ writable r i' n /\ write_buffer i' = [].
Proof.
  intros Hw Hr. pose proof Hw as [Ho Ht Hc Hrm Ha]. unfold memcached_vdo, memcached_connect.
  unfold bind at 1. unfold bind at 1, geti, gets. cbn [inst]. rewrite Ho. unfold ret at 1.
  change (memcached_failed MEMCACHED_SUCCESS) with false. cbv iota.
  unfold bind at 1, conf, gets. cbn [root]. rewrite Ht.
  destruct (writev_ok vector true r i n Hw) as (i1 & E & Hw1 & Hwr1 & Hwb1 & Hb1).
  run E. cbn [negb]. unfold bind at 1. cbn [root]. rewrite Hr.
  unfold memcached_server_response_increment, on_inst, modify, bind, ret. cbn [root inst].
  specialize (Hb1 eq_refl). exists i1.
  assert (cursor_active_ i1 = cursor_active_ i) as -> by (by destruct Hw1 as (? & ? & ? & ? & ->)).
  destruct Hc as (_ & Hcur & _). rewrite u32_small by (unfold UINT_MOD; lia).
  split; [done|]. split; [done|]. split; [|done]. unfold written in Hwr1 at 1. by rewrite Hb1, app_nil_r in Hwr1.
Qed.
End Writing.

(** * Responses to requests

    [memcached_response] on a text client: the response of the request that was sent, also
    when the END line of an earlier retrieval is still unread. *)

From Stdlib Require Import String.

(** A client of the text protocol over TCP that waits for its responses and does not encrypt. *)
Record text_client `{DM : DataModel} (r : Root) : Prop := {
  tc_text : binary_protocol (flags (memc r)) = false;
  tc_tcp : use_udp (flags (memc r)) = false;
  tc_block : no_block (flags (memc r)) = false;
  tc_reply : reply (flags (memc r)) = true;
  tc_direct : buffer_requests (flags (memc r)) = false;
  tc_plain : _key (hashkit (memc r)) = None;
  tc_quiet : is_purging r = false;
  tc_watermark : 2 <= io_msg_watermark (limits (memc r));
  tc_namespace : graphic (_namespace (memc r));
  tc_result : mstring_ok (res_value (result r));
}.

Definition END_LINE : cstring := lit "END" ++ CRLF.

(** What is still to be read of earlier requests: nothing, or the END line of a retrieval. *)
Definition owed (i : Inst) : cstring := if cursor_active_ i =? 0 then [] else END_LINE.

(** The line [t] is one of the responses that are only a code. *)
Definition says (t : cstring) (rc : memcached_return_t) : Prop :=
  (LF ∉ t) /\ size t < 40 /\ forall junk, classify (t ++ CRLF ++ junk) = Ret (RCode rc).

Section Responses.
Context `{DM : DataModel} `{AL : Allocator} `{CF : ClientConfig} `{CK : Clock} `{CC : CipherConfig}.
Context `{BR : BinaryReader} `{TR : Transport}.

(** ** One response *)

Lemma reads_cursor c i i' : reads i i' -> reads (set_cursor c i) (set_cursor c i').
Proof. intros (l & r & b & ->). by exists l, r, b. Qed.

(** The line of a response, and what the array holds then. *)
Lemma read_line_ok old blen r i t rest :
  use_udp (flags (memc r)) = false -> fd i = true -> rd_ok (rd i) -> incoming i (t ++ CRLF ++ rest) ->
  LF ∉ t -> size t + 2 < blen ->
  exists i', memcached_io_readline blen (mkCtx r i) = (Ret (MEMCACHED_SUCCESS, t ++ CRLF), mkCtx r i')
    /\ reads i i' /\ rd_ok (rd i') /\ incoming i' rest
    /\ exists junk, (t ++ CRLF) ++ drop (List.length (t ++ CRLF)) old = t ++ CRLF ++ junk.
Proof.
  intros Hu Hfd Hrd Hin Hlf Hs.
  destruct (readline_ok blen r i (t ++ [CR]) rest Hu Hfd Hrd) as (i' & E & Hr & Hrd' & Hin').
  - by rewrite <- app_assoc.
  - rewrite not_elem_of_app. split; [done|]. by intros [H|H%elem_of_nil]%elem_of_cons.
  - rewrite size_app. change (size [CR]) with 1. lia.
  - exists i'. rewrite <- app_assoc in E. split; [exact E|]. split; [done|]. split; [done|]. split; [done|].
    eexists. by rewrite <- app_assoc.
Qed.

(** A code leaves the result as it is and the count one lower. *)
Lemma read_one_code old blen x r i t rc rest :
  text_client r -> fd i = true -> rd_ok (rd i) -> incoming i (t ++ CRLF ++ rest) -> says t rc ->
  memcached_fatal rc = false -> 64 < blen -> 0 < cursor_active_ i < UINT_MOD ->
  exists buf i', _read_one_response old blen x (mkCtx r i) = (Ret (rc, buf, x), mkCtx r i')
    /\ reads (set_cursor (cursor_active_ i - 1) i) i' /\ rd_ok (rd i') /\ incoming i' rest.
Proof.
  intros Ht Hfd Hrd Hin (Hlf & Hsz & Hcl) Hnf Hb Hc. unfold _read_one_response, memcached_server_response_decrement.
  unfold on_inst, modify. unfold bind at 1. cbn [root inst]. rewrite u32_small by lia.
  unfold bind at 1, conf, gets. cbn [root]. rewrite (tc_text r Ht).
  set (i0 := set_cursor (cursor_active_ i - 1) i).
  destruct (read_line_ok old blen r i0 t rest (tc_tcp r Ht) Hfd Hrd Hin Hlf ltac:(lia)) as (i' & E & Hr & Hrd' & Hin' & junk & Hj).
  unfold bind at 1, textual_read_one_response. run E. rewrite memcached_failed_success.
  rewrite (proj2 (Z.eqb_neq _ 0)) by (rewrite size_app; change (size CRLF) with 2; pose proof (size_nonneg t); lia).
  unfold bind at 1, assert_io, lift, assert_msg. rewrite orb_true_r. unfold bind at 1. rewrite Hj, Hcl.
  unfold ret at 1. rewrite Hnf. unfold bind, ret. by exists (t ++ CRLF ++ junk), i'.
Qed.

Context (Hgrants : forall k n, grants k n = true).

(** A value goes into the result and leaves the count as it was: its END line is to come. *)
Lemma read_one_value old blen x r i k f cas data rest :
  let line := value_line (_namespace (memc r) ++ k) f (size data) cas in
  text_client r -> fd i = true -> rd_ok (rd i) -> incoming i (line ++ data ++ CRLF ++ rest) ->
  graphic k -> size k < MEMCACHED_MAX_KEY -> 0 <= f < UINT_MOD ->
  match cas with Some c => u64_range c | None => True end ->
  size line < blen <= MEMCACHED_DEFAULT_COMMAND_SIZE -> 0 < cursor_active_ i < UINT_MOD ->
  mstring_ok (res_value x) -> fits (res_value x) (size data + 2) ->
  exists buf v i' n, _read_one_response old blen x (mkCtx r i)
      = (Ret (MEMCACHED_SUCCESS, buf, mkResult k f (default 0 cas) 0 v UINT64_MAX (res_count x)), mkCtx (set_allocs n r) i')
    /\ mstring_ok v /\ str_chars v = data /\ str_end v = size data
    /\ str_size v <= str_size (res_value x) + size data + 2 + MEMCACHED_BLOCK_SIZE
    /\ reads i i' /\ rd_ok (rd i') /\ incoming i' rest.
Proof using Hgrants.
  intros line Ht Hfd Hrd Hin Gk Hk Hf Hcas Hline Hc Hok Hfit.
  unfold _read_one_response, memcached_server_response_decrement.
  unfold on_inst, modify. unfold bind at 1. cbn [root inst]. rewrite u32_small by lia.
  unfold bind at 1, conf, gets. cbn [root]. rewrite (tc_text r Ht).
  set (i0 := set_cursor (cursor_active_ i - 1) i).
  assert (exists t, line = t ++ CRLF /\ (LF ∉ t)) as (t & Et & Hlf).
  { unfold line, value_line. set (a := _namespace (memc r) ++ k).
    assert (graphic a) as Ga by (unfold graphic, a; rewrite forallb_app; by apply andb_true_intro; split; [apply tc_namespace|]).
    exists (VALUE ++ a ++ SP :: to_string f ++ SP :: to_string (size data) ++ cas_text cas).
    split; [do 4 (rewrite <- ?app_assoc; cbn [app]); done|].
    assert (LF ∉ a) as Hla.
    { intros Hl. unfold graphic in Ga. rewrite forallb_forall in Ga. apply list_elem_of_In, Ga in Hl. done. }
    assert ((LF ∉ to_string f) /\ (LF ∉ to_string (size data))) as [? ?].
    { split; apply to_string_no_sep; try done; [lia|apply size_nonneg]. }
    assert (LF ∉ cas_text cas).
    { destruct cas as [c|]; cbn; [|apply not_elem_of_nil]. apply not_elem_of_cons. split; [done|].
      apply to_string_no_sep; [unfold u64_range in Hcas; lia|done]. }
    assert (LF ∉ VALUE) by (by vm_compute; intros H'; repeat (apply elem_of_cons in H' as [?|H']; [done|]); apply elem_of_nil in H').
    rewrite !not_elem_of_app, !not_elem_of_cons, !not_elem_of_app, !not_elem_of_cons, !not_elem_of_app. done. }
  destruct (read_line_ok old blen r i0 t (data ++ CRLF ++ rest) (tc_tcp r Ht) Hfd Hrd) as (i1 & E & Hr1 & Hrd1 & Hin1 & junk & Hj).
  { change (incoming i (t ++ CRLF ++ data ++ CRLF ++ rest)). rewrite app_assoc, <- Et. done. }
  { done. }
  { assert (size line = size t + 2) by (rewrite Et, size_app; done). lia. }
  unfold bind at 1, textual_read_one_response. run E. rewrite memcached_failed_success.
  rewrite (proj2 (Z.eqb_neq _ 0)) by (rewrite size_app; change (size CRLF) with 2; pose proof (size_nonneg t); lia).
  unfold bind at 1, assert_io, lift, assert_msg. rewrite orb_true_r. unfold bind at 1. rewrite Hj.
  rewrite app_assoc, <- Et. assert (classify (line ++ junk) = Ret RValue) as -> by done.
  unfold bind at 1, memcached_server_response_increment, on_inst, modify. cbn [root inst].
  set (i2 := set_cursor _ i1).
  destruct (textual_value_fetch_ok Hgrants (_namespace (memc r)) k f cas data rest junk r i2 x) as (v & i3 & n & E3 & Hv1 & Hv2 & Hv3 & Hv4 & Hr3 & Hrd3 & Hin3);
    try done; try apply Ht.
  { by destruct Hr1 as (? & ? & ? & ->). }
  { fold line. unfold MEMCACHED_DEFAULT_COMMAND_SIZE in *. lia. }
  fold line in E3. run E3. unfold ret at 1. cbn [fst snd]. change (memcached_fatal MEMCACHED_SUCCESS) with false.
  exists (line ++ junk), v, i3, n. unfold bind, ret. split; [done|]. repeat (split; [done|]).
  split; [|done]. eapply reads_trans; [|exact Hr3].
  assert (reads i (set_cursor (cursor_active_ i) i1)) as Hx.
  { replace i with (set_cursor (cursor_active_ i) i0) at 1 by (by destruct i). by apply reads_cursor. }
  unfold i2. assert (cursor_active_ i1 = cursor_active_ i - 1) as -> by (by destruct Hr1 as (? & ? & ? & ->)).
  rewrite u32_small by lia. by replace (cursor_active_ i - 1 + 1) with (cursor_active_ i) by lia.
Qed.

(** ** The response of the last request *)

(** With an END line unread the count is 2, and one response is dropped. *)
Lemma junk_ok old blen r i s :
  text_client r -> fd i = true -> rd_ok (rd i) -> 1 <= cursor_active_ i <= 2 ->
  incoming i ((if cursor_active_ i =? 2 then END_LINE else []) ++ s) -> 64 < blen ->
  exists buf i', junk_responses (junk_fuel i) old blen new_Result (mkCtx r i) = (Ret (None, buf), mkCtx r i')
    /\ reads (set_cursor 1 i) i' /\ rd_ok (rd i') /\ incoming i' s.
Proof.
  intros Ht Hfd Hrd Hc Hin Hb.
  assert (exists m, junk_fuel i = S m) as (m & ->) by (unfold junk_fuel; exists (junk_fuel i - 1)%nat; unfold junk_fuel; lia).
  cbn [junk_responses]. unfold bind at 1, geti, gets. cbn [inst].
  destruct (Z.eqb_spec (cursor_active_ i) 2) as [H2|H2].
  - rewrite H2. cbn [Z.ltb Z.compare Pos.compare Pos.compare_cont negb].
    destruct (read_one_code old blen new_Result r i (lit "END") MEMCACHED_END s Ht Hfd Hrd) as (buf & i' & E & Hr & Hrd' & Hin').
    { by rewrite app_assoc. }
    { split; [|split; [done|done]]. apply (bool_decide_unpack _). by vm_compute. }
    { done. } { lia. } { unfold UINT_MOD. lia. }
    run E. change (memcached_fatal MEMCACHED_END) with false. cbv iota.
    exists buf, i'. rewrite H2 in Hr. change (2 - 1) with 1 in Hr.
    assert (cursor_active_ i' = 1) as Hc1 by (by destruct Hr as (? & ? & ? & ->)).
    split; [|done]. destruct m; cbn [junk_responses]; unfold bind, geti, gets; cbn [inst]; by rewrite Hc1.
  - assert (cursor_active_ i = 1) as H1 by lia. rewrite H1. cbn [Z.ltb Z.compare Pos.compare Pos.compare_cont negb].
    exists old, i. split; [done|]. split; [|done]. replace i with (set_cursor 1 i) at 2 by (destruct i; cbn in *; by subst).
    apply reads_refl.
Qed.

(** The parts of [memcached_response] around the last read. *)
Lemma response_into_last old blen x r i s :
  text_client r -> fd i = true -> rd_ok (rd i) -> 1 <= cursor_active_ i <= 2 ->
  incoming i ((if cursor_active_ i =? 2 then END_LINE else []) ++ s) -> 64 < blen ->
  exists buf i', memcached_response_into old blen x (mkCtx r i) = _read_one_response buf blen x (mkCtx r i')
    /\ reads (set_cursor 1 i) i' /\ rd_ok (rd i') /\ incoming i' s.
Proof.
  intros Ht Hfd Hrd Hc Hin Hb. destruct (junk_ok old blen r i s Ht Hfd Hrd Hc Hin Hb) as (buf & i' & E & Hr & Hrd' & Hin').
  exists buf, i'. split; [|done]. unfold memcached_response_into, bind at 1, conf, gets. cbn [root].
  rewrite (tc_tcp r Ht). unfold bind at 1, getr, gets. rewrite (tc_block r Ht). cbn [andb].
  unfold bind at 1, ret at 1. unfold bind at 1. rewrite (tc_text r Ht). unfold bind at 1, geti, gets. cbn [inst].
  rewrite E. done.
Qed.

Lemma response_last blen x r i s :
  text_client r -> fd i = true -> rd_ok (rd i) -> 1 <= cursor_active_ i <= 2 ->
  incoming i ((if cursor_active_ i =? 2 then END_LINE else []) ++ s) -> 64 < blen ->
  exists buf i', memcached_response blen x (mkCtx r i)
      = (let* y := _read_one_response buf blen x in ret (y.1.1, y.2)) (mkCtx r i')
    /\ reads (set_cursor 1 i) i' /\ rd_ok (rd i') /\ incoming i' s.
Proof.
  intros Ht Hfd Hrd Hc Hin Hb. destruct (response_into_last [] blen x r i s Ht Hfd Hrd Hc Hin Hb) as (buf & i' & E & H).
  exists buf, i'. split; [|done]. unfold memcached_response, bind. by rewrite E.
Qed.

Lemma response_code blen x r i t rc rest :
  text_client r -> fd i = true -> rd_ok (rd i) -> 1 <= cursor_active_ i <= 2 ->
  incoming i ((if cursor_active_ i =? 2 then END_LINE else []) ++ t ++ CRLF ++ rest) ->
  says t rc -> memcached_fatal rc = false -> 64 < blen ->
  exists i', memcached_response blen x (mkCtx r i) = (Ret (rc, x), mkCtx r i')
    /\ reads (set_cursor 0 i) i' /\ rd_ok (rd i') /\ incoming i' rest.
Proof.
  intros Ht Hfd Hrd Hc Hin Hs Hnf Hb.
  destruct (response_last blen x r i _ Ht Hfd Hrd Hc Hin Hb) as (buf & i1 & E & Hr1 & Hrd1 & Hin1).
  assert (cursor_active_ i1 = 1 /\ fd i1 = true) as [Hc1 Hf1] by (by destruct Hr1 as (? & ? & ? & ->)).
  destruct (read_one_code buf blen x r i1 t rc rest Ht Hf1 Hrd1 Hin1 Hs Hnf Hb) as (buf2 & i2 & E2 & Hr2 & Hrd2 & Hin2);
    [rewrite Hc1; done|].
  rewrite E. run E2. exists i2. split; [done|]. split; [|done]. rewrite Hc1 in Hr2. change (1 - 1) with 0 in Hr2.
  eapply reads_trans; [|exact Hr2]. exact (reads_cursor 0 _ _ Hr1).
Qed.

Lemma response_value blen x r i k f cas data rest :
  let line := value_line (_namespace (memc r) ++ k) f (size data) cas in
  text_client r -> fd i = true -> rd_ok (rd i) -> 1 <= cursor_active_ i <= 2 ->
  incoming i ((if cursor_active_ i =? 2 then END_LINE else []) ++ line ++ data ++ CRLF ++ rest) ->
  graphic k -> size k < MEMCACHED_MAX_KEY -> 0 <= f < UINT_MOD ->
  match cas with Some c => u64_range c | None => True end ->
  size line < blen <= MEMCACHED_DEFAULT_COMMAND_SIZE -> 64 < blen ->
  mstring_ok (res_value x) -> fits (res_value x) (size data + 2) ->
  exists v i' n, memcached_response blen x (mkCtx r i)
      = (Ret (MEMCACHED_SUCCESS, mkResult k f (default 0 cas) 0 v UINT64_MAX (res_count x)), mkCtx (set_allocs n r) i')
    /\ mstring_ok v /\ str_chars v = data /\ str_end v = size data
    /\ str_size v <= str_size (res_value x) + size data + 2 + MEMCACHED_BLOCK_SIZE
    /\ reads (set_cursor 1 i) i' /\ rd_ok (rd i') /\ incoming i' rest.
Proof using Hgrants.
  intros line Ht Hfd Hrd Hc Hin Gk Hk Hf Hcas Hline Hb Hok Hfit.
  destruct (response_last blen x r i _ Ht Hfd Hrd Hc Hin Hb) as (buf & i1 & E & Hr1 & Hrd1 & Hin1).
  assert (cursor_active_ i1 = 1 /\ fd i1 = true) as [Hc1 Hf1] by (by destruct Hr1 as (? & ? & ? & ->)).
  destruct (read_one_value buf blen x r i1 k f cas data rest Ht Hf1 Hrd1 Hin1 Gk Hk Hf Hcas Hline)
    as (buf2 & v & i2 & n & E2 & Hv1 & Hv2 & Hv3 & Hv4 & Hr2 & Hrd2 & Hin2); [rewrite Hc1; done|done|done|].
  rewrite E. run E2. exists v, i2, n. cbn [fst snd]. unfold ret. split; [done|]. repeat (split; [done|]).
  split; [|done]. exact (reads_trans _ _ _ Hr1 Hr2).
Qed.
End Responses.
