(* ===== verification/ClientOps.v ===== *)
(** * The operations of a client: key.cc, storage.cc, get.cc, fetch.cc, delete.cc, auto.cc, touch.cc

    Every operation of the text protocol on a client with any number of servers. The server of
    a key comes from the interface [KeyRouter], which Distribution provides; the requests of
    the binary protocol are an argument. The user's callbacks [delete_trigger] and
    [get_key_failure] are the null pointers they are by default. *)

From stdpp Require Import base list.
From Stdlib Require Import ZArith Ascii String.
From S2P Require Import Prelude CxxString HashWords HashKit HashkitString Rijndael Aes Continuum ClientTypes.
From S2P Require Import ClientString ClientState ClientRead ClientWrite.

(** ** The whole client *)

Record Session := mkSession { ses_root : Root; ses_insts : list Inst }.
Abbreviation SIO := (ST Session).

(** A call on server [n]. *)
Definition at_instance {A} (n : Z) (m : IO A) : SIO A := fun s =>
  match ses_insts s !! Z.to_nat n with
  | None => (Stuck Undefined, s)
  | Some i =>
    let '(o, c) := m (mkCtx (ses_root s) i) in
    (o, mkSession (root c) (<[Z.to_nat n := inst c]> (ses_insts s)))
  end.

(** A server without state, for calls that concern the client alone. *)
Definition no_inst : Inst :=
  mkInst 0 false (mkSocket [] [] [] []) (mkRead [] 0 0 0) [] 0 0 MEMCACHED_SERVER_STATE_NEW false 0 0 (255, 255, 255)
    0 (mkDial MEMCACHED_CONNECTION_TCP None [] []) [].
Definition at_root {A} (m : IO A) : SIO A := fun s =>
  let '(o, c) := m (mkCtx (ses_root s) no_inst) in (o, mkSession (root c) (ses_insts s)).

Definition sroot {A} (f : Root -> A) : SIO A := gets (fun s => f (ses_root s)).
Definition sconf {A} (f : Memcached -> A) : SIO A := gets (fun s => f (memc (ses_root s))).
Definition on_sroot (f : Root -> Root) : SIO unit := modify (fun s => mkSession (f (ses_root s)) (ses_insts s)).

(** ** Interfaces *)

(** [memcached_generate_hash_with_redistribution]: the server of a key and the client afterwards,
    at each call (it reads the clock and random numbers). *)
Class KeyRouter := { route : nat -> Memcached -> cstring -> outcome (Z * Memcached) }.

Inductive memcached_storage_action_t := SET_OP | REPLACE_OP | ADD_OP | PREPEND_OP | APPEND_OP | CAS_OP.

#[export] Instance action_eq_dec : EqDecision memcached_storage_action_t.
Proof. solve_decision. Defined.

(** The arguments of a storage request. *)
Record StoreArgs := mkStore {
  st_key : cstring;
  st_value : cstring;
  st_expiration : Z;
  st_flags : Z;
  st_cas : Z;
  st_verb : memcached_storage_action_t;
}.

(** The binary protocol. *)
Class BinaryRequests := {
  memcached_send_binary : Z -> StoreArgs -> bool -> bool -> SIO memcached_return_t;
  binary_delete : Z -> cstring -> bool -> bool -> SIO memcached_return_t;
  binary_incr_decr : Z -> bool -> cstring -> Z -> Z -> Z -> bool -> SIO memcached_return_t;
  binary_touch : Z -> cstring -> Z -> SIO memcached_return_t;
  binary_mget_by_key : option Z -> list cstring -> bool -> SIO memcached_return_t;
}.

(** [poll] on the servers with outstanding responses: which of them are readable at each call;
    [None] for an error. *)
Class MultiPoll := { poll_many : nat -> option (list bool) }.

Section Operations.
Context `{DM : DataModel} `{AL : Allocator} `{CF : ClientConfig} `{CK : Clock} `{CC : CipherConfig}.
Context `{BR : BinaryReader} `{TR : Transport} `{KR : KeyRouter} `{BQ : BinaryRequests} `{MP : MultiPoll}.

(** ** Before a request: initialize_query.cc, key.cc *)

Definition initialize_query (increment_query_id : bool) : SIO memcached_return_t :=
  (if increment_query_id then on_sroot (fun r => set_query_id (u64 (query_id r + 1)) r) else ret tt) ;;;
  let* n := sconf memcached_server_count in
  if n =? 0 then at_root (memcached_set_error_root MEMCACHED_NO_SERVERS) else
  on_sroot memcached_error_free ;;;
  on_sroot (fun r => set_result (memcached_result_reset (result r)) r) ;;;
  ret MEMCACHED_SUCCESS.

Definition memcached_validate_key_length (key_length : Z) (binary : bool) : memcached_return_t :=
  if key_length =? 0 then MEMCACHED_BAD_KEY_PROVIDED else
  if binary then if 65535 <? key_length then MEMCACHED_BAD_KEY_PROVIDED else MEMCACHED_SUCCESS
  else if MEMCACHED_MAX_KEY <=? key_length then MEMCACHED_BAD_KEY_PROVIDED else MEMCACHED_SUCCESS.

Definition isgraph (c : ascii) : bool := (33 <=? uchar c) && (uchar c <=? 126).

(** The first key that is refused decides; [None] for the null pointers. *)
Fixpoint key_test_loop (check_chars : bool) (keys : list cstring) : IO memcached_return_t :=
  match keys with
  | [] => ret MEMCACHED_SUCCESS
  | k :: keys =>
    let rc := memcached_validate_key_length (size k) false in
    if memcached_failed rc then memcached_set_error_root rc else
    if check_chars && negb (forallb isgraph k) then memcached_set_error_root MEMCACHED_BAD_KEY_PROVIDED
    else key_test_loop check_chars keys
  end.

Definition memcached_key_test (keys : option (list cstring)) : SIO memcached_return_t :=
  match keys with
  | None => at_root (memcached_set_error_root MEMCACHED_BAD_KEY_PROVIDED)
  | Some keys =>
    let* f := sconf flags in
    at_root (key_test_loop (verify_key f && negb (binary_protocol f)) keys)
  end.

(** The server of a key. *)
Definition pick_server (key : cstring) : SIO Z :=
  let* t := sroot ticks in
  let* m := sroot memc in
  on_sroot (set_ticks (S t)) ;;;
  let* r := lift (route t m key) in
  on_sroot (set_memc (snd r)) ;;; ret (fst r).

(** ** Storage requests: storage.cc *)

Definition storage_op_string (verb : memcached_storage_action_t) : cstring :=
  match verb with
  | REPLACE_OP => lit "replace "
  | ADD_OP => lit "add "
  | PREPEND_OP => lit "prepend "
  | APPEND_OP => lit "append "
  | CAS_OP => lit "cas "
  | SET_OP => lit "set "
  end.

Definition can_by_encrypted (verb : memcached_storage_action_t) : bool :=
  match verb with SET_OP | ADD_OP | CAS_OP | REPLACE_OP => true | APPEND_OP | PREPEND_OP => false end.

Definition MEMCACHED_MAXIMUM_INTEGER_DISPLAY_LENGTH : Z := 20.

(** [snprintf(buffer, sizeof(buffer), " %llu", x)] into an array for so many characters: [None]
    when the text and its null character do not fit. *)
Definition display (room x : Z) : option cstring :=
  let text := SP :: to_string x in
  if room <=? size text then None else Some text.
Definition display_int (x : Z) : option cstring := display (MEMCACHED_MAXIMUM_INTEGER_DISPLAY_LENGTH + 1) x.

Definition NOREPLY : cstring := lit " noreply".

(** The request, or [None] when a number does not fit its array. [time_t] is signed. *)
Definition ascii_request (namespace : cstring) (a : StoreArgs) (reply : bool) : option (list cstring) :=
  match display_int (u32 (st_flags a)), display_int (u64 (st_expiration a)), display_int (u64 (size (st_value a))),
        (if st_cas a =? 0 then Some [] else display_int (st_cas a)) with
  | Some f, Some e, Some n, Some c =>
    Some [[]; storage_op_string (st_verb a); namespace; st_key a; f; e; n; c; if reply then [] else NOREPLY;
          CRLF; st_value a; CRLF]
  | _, _, _, _ => None
  end.

Definition memcached_send_ascii (a : StoreArgs) (flush reply : bool) : IO memcached_return_t :=
  let* ns := conf _namespace in
  match ascii_request ns a reply with
  | None => memcached_set_error_msg MEMCACHED_MEMORY_ALLOCATION_FAILURE
  | Some vector =>
    let* rc := memcached_vdo vector flush in
    if negb reply then ret (if memcached_success rc then MEMCACHED_SUCCESS else rc) else
    if negb flush then ret (if memcached_success rc then MEMCACHED_BUFFERED else rc) else
    let* rc := if rc_eqb rc MEMCACHED_SUCCESS then memcached_response_root MEMCACHED_DEFAULT_COMMAND_SIZE else ret rc in
    if rc_eqb rc MEMCACHED_STORED then ret MEMCACHED_SUCCESS else
    (if rc_eqb rc MEMCACHED_WRITE_FAILURE then memcached_io_reset else ret tt) ;;;
    assert_io (memcached_failed rc) ;;; ret rc
  end.

(** With the value as it is sent, encrypted when the client has a key. *)
Definition send_value (server_key : Z) (a : StoreArgs) : SIO memcached_return_t :=
  let* f := sconf flags in
  let flush := negb (buffer_requests f && bool_decide (st_verb a = SET_OP)) in
  if binary_protocol f then memcached_send_binary server_key a flush (reply f)
  else at_instance server_key (memcached_send_ascii a flush (reply f)).

Definition memcached_send (group_key : cstring) (a : StoreArgs) : SIO memcached_return_t :=
  let* rc := initialize_query true in
  if memcached_failed rc then ret rc else
  let* t := memcached_key_test (Some [st_key a]) in
  if memcached_failed t then sroot memcached_last_error else
  let* server_key := pick_server group_key in
  let* kit := sconf hashkit in
  match _key kit with
  | Some _ =>
    if negb (can_by_encrypted (st_verb a)) then at_root (memcached_set_error_root MEMCACHED_NOT_SUPPORTED) else
    let* destination := at_root (with_allocs (hashkit_encrypt kit (map uchar (st_value a)))) in
    match destination with
    | None => ret rc
    | Some d =>
      send_value server_key (mkStore (st_key a) (map char_of (string_bytes d)) (st_expiration a) (st_flags a)
                               (st_cas a) (st_verb a))
    end
  | None => send_value server_key a
  end.

Definition memcached_set_by_key (group_key key value : cstring) (expiration flags : Z) : SIO memcached_return_t :=
  memcached_send group_key (mkStore key value expiration flags 0 SET_OP).
Definition memcached_add_by_key (group_key key value : cstring) (expiration flags : Z) : SIO memcached_return_t :=
  memcached_send group_key (mkStore key value expiration flags 0 ADD_OP).
Definition memcached_replace_by_key (group_key key value : cstring) (expiration flags : Z) : SIO memcached_return_t :=
  memcached_send group_key (mkStore key value expiration flags 0 REPLACE_OP).
Definition memcached_prepend_by_key (group_key key value : cstring) (expiration flags : Z) : SIO memcached_return_t :=
  memcached_send group_key (mkStore key value expiration flags 0 PREPEND_OP).
Definition memcached_append_by_key (group_key key value : cstring) (expiration flags : Z) : SIO memcached_return_t :=
  memcached_send group_key (mkStore key value expiration flags 0 APPEND_OP).
Definition memcached_cas_by_key (group_key key value : cstring) (expiration flags cas : Z) : SIO memcached_return_t :=
  memcached_send group_key (mkStore key value expiration flags cas CAS_OP).

Definition memcached_set (key value : cstring) (expiration flags : Z) : SIO memcached_return_t :=
  memcached_send key (mkStore key value expiration flags 0 SET_OP).
Definition memcached_add (key value : cstring) (expiration flags : Z) : SIO memcached_return_t :=
  memcached_send key (mkStore key value expiration flags 0 ADD_OP).
Definition memcached_replace (key value : cstring) (expiration flags : Z) : SIO memcached_return_t :=
  memcached_send key (mkStore key value expiration flags 0 REPLACE_OP).
Definition memcached_prepend (key value : cstring) (expiration flags : Z) : SIO memcached_return_t :=
  memcached_send key (mkStore key value expiration flags 0 PREPEND_OP).
Definition memcached_append (key value : cstring) (expiration flags : Z) : SIO memcached_return_t :=
  memcached_send key (mkStore key value expiration flags 0 APPEND_OP).
Definition memcached_cas (key value : cstring) (expiration flags cas : Z) : SIO memcached_return_t :=
  memcached_send key (mkStore key value expiration flags cas CAS_OP).

(** ** Deletion: delete.cc *)

Definition ascii_delete (key : cstring) (reply is_buffering : bool) : IO memcached_return_t :=
  let* ns := conf _namespace in
  memcached_vdo [[]; lit "delete "; ns; key; if reply then [] else NOREPLY; CRLF] (negb is_buffering).

Definition memcached_delete_by_key (group_key key : cstring) (expiration : Z) : SIO memcached_return_t :=
  let* rc := initialize_query true in
  if memcached_fatal rc then ret rc else
  let* rc := memcached_key_test (Some [key]) in
  if memcached_fatal rc then sroot memcached_last_error else
  if negb (expiration =? 0) then at_root (memcached_set_error_root MEMCACHED_INVALID_ARGUMENTS) else
  let* server_key := pick_server group_key in
  let* f := sconf flags in
  let* rc := if binary_protocol f then binary_delete server_key key (reply f) (buffer_requests f)
             else at_instance server_key (ascii_delete key (reply f) (buffer_requests f)) in
  if negb (rc_eqb rc MEMCACHED_SUCCESS) then ret rc else
  if buffer_requests f then ret MEMCACHED_BUFFERED else
  if negb (reply f) then ret MEMCACHED_SUCCESS else
  let* rc := at_instance server_key (memcached_response_root MEMCACHED_DEFAULT_COMMAND_SIZE) in
  ret (if rc_eqb rc MEMCACHED_DELETED then MEMCACHED_SUCCESS else rc).

Definition memcached_delete (key : cstring) (expiration : Z) : SIO memcached_return_t :=
  memcached_delete_by_key key key expiration.

(** ** Arithmetic: auto.cc *)

Definition text_incr_decr (is_incr : bool) (key : cstring) (offset : Z) (reply : bool) : IO memcached_return_t :=
  match display MEMCACHED_DEFAULT_COMMAND_SIZE offset with
  | None => memcached_set_error_msg MEMCACHED_MEMORY_ALLOCATION_FAILURE
  | Some buffer =>
    let* ns := conf _namespace in
    memcached_vdo [[]; if is_incr then lit "incr " else lit "decr "; ns; key; buffer;
                   if reply then [] else NOREPLY; CRLF] true
  end.

(** The code and the value that the caller sees. *)
Definition auto_response (reply : bool) (rc : memcached_return_t) : IO (memcached_return_t * Z) :=
  if memcached_success rc && negb reply then ret (rc, UINT64_MAX) else
  let* rc := if memcached_success rc then memcached_response_root 1024 else ret rc in
  if memcached_fatal rc then
    let* e := getr memcached_last_error in
    assert_io (negb (rc_eqb e MEMCACHED_SUCCESS)) ;;; ret (rc, UINT64_MAX)
  else let* v := getr (fun r => numeric_value (result r)) in ret (rc, v).

Definition MEMCACHED_EXPIRATION_NOT_ADD : Z := 4294967295.

(** [value] is not set when the request is not made: [None]. *)
Definition increment_decrement_by_key (is_incr : bool) (group_key key : cstring) (offset : Z)
    : SIO (memcached_return_t * option Z) :=
  let* rc := initialize_query true in
  if memcached_failed rc then ret (rc, None) else
  let* kit := sconf hashkit in
  if match _key kit with Some _ => true | None => false end then
    let* rc := at_root (memcached_set_error_root MEMCACHED_NOT_SUPPORTED) in ret (rc, None)
  else
  let* rc := memcached_key_test (Some [key]) in
  if memcached_failed rc then let* rc := sroot memcached_last_error in ret (rc, None) else
  let* server_key := pick_server group_key in
  let* f := sconf flags in
  let* rc := if binary_protocol f
    then binary_incr_decr server_key is_incr key offset 0 MEMCACHED_EXPIRATION_NOT_ADD (reply f)
    else at_instance server_key (text_incr_decr is_incr key offset (reply f)) in
  let* x := at_instance server_key (auto_response (reply f) rc) in
  ret (fst x, Some (snd x)).

Definition increment_decrement_with_initial_by_key (is_incr : bool) (group_key key : cstring)
    (offset initial expiration : Z) : SIO (memcached_return_t * option Z) :=
  let* rc := initialize_query true in
  if memcached_failed rc then ret (rc, None) else
  let* kit := sconf hashkit in
  if match _key kit with Some _ => true | None => false end then
    let* rc := at_root (memcached_set_error_root MEMCACHED_NOT_SUPPORTED) in ret (rc, None)
  else
  let* rc := memcached_key_test (Some [key]) in
  if memcached_failed rc then let* rc := sroot memcached_last_error in ret (rc, None) else
  let* server_key := pick_server group_key in
  let* f := sconf flags in
  let* rc := if binary_protocol f
    then binary_incr_decr server_key is_incr key offset initial (u32 expiration) (reply f)
    else at_root (memcached_set_error_root MEMCACHED_INVALID_ARGUMENTS) in
  let* x := at_instance server_key (auto_response (reply f) rc) in
  ret (fst x, Some (snd x)).

Definition memcached_increment (key : cstring) (offset : Z) : SIO (memcached_return_t * option Z) :=
  increment_decrement_by_key true key key offset.
Definition memcached_decrement (key : cstring) (offset : Z) : SIO (memcached_return_t * option Z) :=
  increment_decrement_by_key false key key offset.

(** ** Touch: touch.cc *)

Definition ascii_touch (key : cstring) (expiration : Z) : IO memcached_return_t :=
  match display_int (u64 expiration) with
  | None => memcached_set_error_msg MEMCACHED_MEMORY_ALLOCATION_FAILURE
  | Some e =>
    let* ns := conf _namespace in
    let* rc := memcached_vdo [[]; lit "touch "; ns; key; e; CRLF] true in
    if memcached_failed rc then memcached_io_reset ;;; memcached_set_error MEMCACHED_WRITE_FAILURE else ret rc
  end.

Definition memcached_touch_by_key (group_key key : cstring) (expiration : Z) : SIO memcached_return_t :=
  let* rc := initialize_query true in
  if memcached_failed rc then ret rc else
  let* f := sconf flags in
  let rc := memcached_validate_key_length (size key) (binary_protocol f) in
  if memcached_failed rc then ret rc else
  let* server_key := pick_server group_key in
  let* rc := if binary_protocol f then binary_touch server_key key expiration
             else at_instance server_key (ascii_touch key expiration) in
  if memcached_failed rc then at_instance server_key (memcached_set_error_msg rc) else
  let* rc := at_instance server_key (memcached_response_root MEMCACHED_DEFAULT_COMMAND_SIZE) in
  if rc_eqb rc MEMCACHED_SUCCESS || rc_eqb rc MEMCACHED_NOTFOUND then ret rc
  else at_instance server_key (memcached_set_error_msg rc).

Definition memcached_touch (key : cstring) (expiration : Z) : SIO memcached_return_t :=
  memcached_touch_by_key key key expiration.
End Operations.
