(* ===== verification/ClientBinaryOps.v ===== *)
(** * Requests of the binary protocol: storage.cc, delete.cc, auto.cc, touch.cc, get.cc

    The binary half of the operations, with replicas, as the instance of [BinaryRequests] that
    ClientOps and ClientGet are written against; flush_buffers.cc, which a large multi-get
    calls. *)

From stdpp Require Import base list.
From Stdlib Require Import ZArith Ascii.
From S2P Require Import Prelude CxxString HashWords HashKit HashkitString Rijndael Aes Continuum ClientTypes.
From S2P Require Import ByteOrder ClientString ClientState BinaryProtocol ClientRead ClientWrite ClientOps.

(** What [random] returns at each call. *)
Class RandomSource := { random_value : nat -> Z }.

Definition u16 (x : Z) : Z := x mod 65536.

(** The header of a request with a key and so many bytes besides; [keylen] and [bodylen] are cut
    to their widths. *)
Definition request_header (op : Z) (key_size extras value_size : Z) (h : Header) : Header :=
  mkHeader (magic h) op (htons (u16 key_size)) extras PROTOCOL_BINARY_RAW_BYTES (status h)
    (htonl (u32 (key_size + value_size + extras))) (opaque h) (hdr_cas h).

Definition zero_header : Header := new_request 0.

(** The server behind [k] on the ring of servers. *)
Definition next_server (count k : Z) : Z := if u32 (k + 1) =? count then 0 else u32 (k + 1).

Section Requests.
Context `{DM : DataModel} `{AL : Allocator} `{CF : ClientConfig} `{CK : Clock} `{CC : CipherConfig}.
Context `{BR : BinaryReader} `{TR : Transport} `{KR : KeyRouter} `{RS : RandomSource}.

(** ** Storage: storage.cc *)

Definition get_com_code (verb : memcached_storage_action_t) (reply : bool) : Z :=
  if reply then
    match verb with
    | SET_OP => PROTOCOL_BINARY_CMD_SET
    | ADD_OP => PROTOCOL_BINARY_CMD_ADD
    | CAS_OP | REPLACE_OP => PROTOCOL_BINARY_CMD_REPLACE
    | APPEND_OP => PROTOCOL_BINARY_CMD_APPEND
    | PREPEND_OP => PROTOCOL_BINARY_CMD_PREPEND
    end
  else
    match verb with
    | SET_OP => PROTOCOL_BINARY_CMD_SETQ
    | ADD_OP => PROTOCOL_BINARY_CMD_ADDQ
    | CAS_OP | REPLACE_OP => PROTOCOL_BINARY_CMD_REPLACEQ
    | APPEND_OP => PROTOCOL_BINARY_CMD_APPENDQ
    | PREPEND_OP => PROTOCOL_BINARY_CMD_PREPENDQ
    end.

Definition has_extras (verb : memcached_storage_action_t) : bool :=
  negb (bool_decide (verb = APPEND_OP) || bool_decide (verb = PREPEND_OP)).

(** The header and the extras, from the header that [initialize_binary_request] left. *)
Definition store_header (ns : cstring) (a : StoreArgs) (reply : bool) (h : Header) : Header :=
  let h := request_header (get_com_code (st_verb a) reply) (size (st_key a) + size ns)
             (if has_extras (st_verb a) then 8 else 0) (size (st_value a)) h in
  if st_cas a =? 0 then h
  else mkHeader (magic h) (opcode h) (keylen h) (extlen h) (datatype h) (status h) (bodylen h) (opaque h)
         (memcached_htonll (st_cas a)).

Definition store_extras (a : StoreArgs) : list Z :=
  if has_extras (st_verb a) then le 4 (htonl (st_flags a)) ++ le 4 (htonl (u32 (st_expiration a))) else [].

Definition store_vector (ns : cstring) (a : StoreArgs) (h : Header) : list cstring :=
  [[]; octets (header_bytes h ++ store_extras a); ns; st_key a; st_value a].

(** One of the replicas, to which the quiet request goes; a response that will not come is not
    counted. *)
Definition send_replica (vector : list cstring) : IO unit :=
  let* rc := memcached_vdo vector false in
  if negb (rc_eqb rc MEMCACHED_SUCCESS) then memcached_io_reset else memcached_server_response_decrement.

Fixpoint send_replicas (send : IO unit) (n : nat) (count server_key : Z) : SIO unit :=
  match n with
  | O => ret tt
  | S n =>
    let server_key := next_server count server_key in
    at_instance server_key send ;;; send_replicas send n count server_key
  end.

Definition send_binary (server_key : Z) (a : StoreArgs) (flush reply : bool) : SIO memcached_return_t :=
  let* ns := sconf _namespace in
  let* h := at_instance server_key (initialize_binary_request zero_header) in
  let h := store_header ns a reply h in
  let* rc := at_instance server_key (
    let* rc := memcached_vdo (store_vector ns a h) flush in
    if rc_eqb rc MEMCACHED_SUCCESS then ret None else
    memcached_io_reset ;;;
    let* e := getr memcached_last_error in
    assert_io (negb (rc_eqb e MEMCACHED_SUCCESS)) ;;; ret (Some e)) in
  match rc with
  | Some e => ret e
  | None =>
    let* replicas := sconf (fun m => number_of_replicas (limits m)) in
    let* count := sconf memcached_server_count in
    (if bool_decide (st_verb a = SET_OP) && (0 <? replicas) then
       send_replicas (send_replica (store_vector ns a (with_opcode PROTOCOL_BINARY_CMD_SETQ h)))
         (Z.to_nat replicas) count server_key
     else ret tt) ;;;
    if negb flush then ret MEMCACHED_BUFFERED else
    if negb reply then ret MEMCACHED_SUCCESS else
    at_instance server_key (memcached_response_root 0)
  end.

(** ** Deletion: delete.cc *)

Definition delete_replica (vector : list cstring) (should_flush : bool) : IO unit :=
  let* rc := memcached_vdo vector should_flush in
  if memcached_fatal rc then
    let* e := getr memcached_last_error in
    assert_io (negb (rc_eqb e MEMCACHED_SUCCESS)) ;;; memcached_io_reset
  else memcached_server_response_decrement.

Definition delete_binary (server_key : Z) (key : cstring) (reply is_buffering : bool) : SIO memcached_return_t :=
  let* ns := sconf _namespace in
  let* h := at_instance server_key (initialize_binary_request zero_header) in
  let vector op := [[]; octets (header_bytes (request_header op (size key + size ns) 0 0 h)); ns; key] in
  let* rc := at_instance server_key (
    let* rc := memcached_vdo (vector (if reply then PROTOCOL_BINARY_CMD_DELETE else PROTOCOL_BINARY_CMD_DELETEQ))
                 (negb is_buffering) in
    (if memcached_fatal rc then
       let* e := getr memcached_last_error in
       assert_io (negb (rc_eqb e MEMCACHED_SUCCESS)) ;;; memcached_io_reset
     else ret tt) ;;; ret rc) in
  let* replicas := sconf (fun m => number_of_replicas (limits m)) in
  let* count := sconf memcached_server_count in
  send_replicas (delete_replica (vector PROTOCOL_BINARY_CMD_DELETEQ) (negb is_buffering))
    (Z.to_nat replicas) count server_key ;;;
  ret rc.

(** ** Arithmetic: auto.cc *)

Definition incr_code (is_incr reply : bool) : Z :=
  match is_incr, reply with
  | true, true => PROTOCOL_BINARY_CMD_INCREMENT
  | true, false => PROTOCOL_BINARY_CMD_INCREMENTQ
  | false, true => PROTOCOL_BINARY_CMD_DECREMENT
  | false, false => PROTOCOL_BINARY_CMD_DECREMENTQ
  end.

Definition incr_decr_binary (server_key : Z) (is_incr : bool) (key : cstring) (offset initial expiration : Z)
    (reply : bool) : SIO memcached_return_t :=
  let* ns := sconf _namespace in
  at_instance server_key (
    let* h := initialize_binary_request zero_header in
    let h := request_header (incr_code is_incr reply) (size key + size ns) 20 0 h in
    let body := le 8 (memcached_htonll offset) ++ le 8 (memcached_htonll initial) ++ le 4 (htonl (u32 expiration)) in
    memcached_vdo [[]; octets (header_bytes h ++ body); ns; key] true).

(** ** Touch: touch.cc *)

Definition touch_binary (server_key : Z) (key : cstring) (expiration : Z) : SIO memcached_return_t :=
  let* ns := sconf _namespace in
  at_instance server_key (
    let* h := initialize_binary_request zero_header in
    let h := request_header PROTOCOL_BINARY_CMD_TOUCH (size key + size ns) 4 0 h in
    let* rc := memcached_vdo [[]; octets (header_bytes h ++ le 4 (htonl (u32 expiration))); ns; key] true in
    if memcached_failed rc then memcached_io_reset ;;; memcached_set_error MEMCACHED_WRITE_FAILURE else ret rc).

(** ** flush_buffers.cc *)

Fixpoint flush_buffers_loop (n : nat) (k : Z) (rc : memcached_return_t) : SIO memcached_return_t :=
  match n with
  | O => ret rc
  | S n =>
    let* x := at_instance k (
      let* offset := geti write_buffer_offset in
      if offset =? 0 then ret (true, rc) else
      let* o := geti fd in
      let* rc := if o : bool then ret rc else memcached_connect in
      if negb o && negb (rc_eqb rc MEMCACHED_SUCCESS) then ret (false, rc) else
      let* sent := memcached_io_write_all in
      ret (true, if sent : bool then rc else MEMCACHED_SOME_ERRORS)) in
    if fst x : bool then flush_buffers_loop n (k + 1) (snd x) else ret (snd x)
  end.

Definition memcached_flush_buffers : SIO memcached_return_t :=
  let* n := sconf (fun m => List.length (servers m)) in
  flush_buffers_loop n 0 MEMCACHED_SUCCESS.

(** ** Retrieval: get.cc *)

(** The request for a key, and its vector. *)
Definition getk_vector (op : Z) (ns key : cstring) (h : Header) : list cstring :=
  [octets (header_bytes (request_header op (size key + size ns) 0 0 h)); ns; key].

(** One key of [simple_binary_mget]: [inl] leaves the function; [inr (sent, rc)] goes on, with the
    code after it and whether the request was sent. *)
Definition getk_one (x : nat) (mget_mode flush : bool) (key : cstring) (rc : memcached_return_t)
    : IO (memcached_return_t + bool * memcached_return_t) :=
  let* count := geti cursor_active_ in
  let* rc := if count =? 0 then memcached_connect else ret rc in
  if (count =? 0) && memcached_failed rc then ret (inr (false, rc)) else
  let* h := initialize_binary_request zero_header in
  let* binary := conf (fun m => binary_protocol (flags m)) in
  let vk := memcached_validate_key_length (size key) binary in
  if negb (rc_eqb vk MEMCACHED_SUCCESS) then
    (if (x =? 0)%nat then ret tt else memcached_io_reset) ;;; ret (inl vk)
  else
  let* ns := conf _namespace in
  let op := if mget_mode then PROTOCOL_BINARY_CMD_GETKQ else PROTOCOL_BINARY_CMD_GETK in
  let* sent := memcached_io_writev (getk_vector op ns key h) flush in
  if negb sent then memcached_server_response_reset ;;; ret (inr (false, MEMCACHED_SOME_ERRORS)) else
  memcached_server_response_reset ;;;
  memcached_server_response_increment ;;;
  ret (inr (true, rc)).

Fixpoint getk_keys (x : nat) (master : option Z) (mget_mode flush : bool) (keys : list cstring)
    (rc : memcached_return_t) : SIO (memcached_return_t + memcached_return_t) :=
  match keys with
  | [] => ret (inr rc)
  | key :: keys =>
    let* server_key := match master with Some m => ret m | None => pick_server key end in
    let* y := at_instance server_key (getk_one x mget_mode flush key rc) in
    match y with
    | inl vk => ret (inl vk)
    | inr (sent, rc) =>
      let* prefetch := sconf (fun m => io_key_prefetch (limits m)) in
      let* rc :=
        if sent && (0 <? x)%nat && (Z.of_nat x =? prefetch) then
          let* f := memcached_flush_buffers in
          ret (if rc_eqb f MEMCACHED_SUCCESS then rc else MEMCACHED_SOME_ERRORS)
        else ret rc in
      getk_keys (S x) master mget_mode flush keys rc
    end
  end.

(** The NOOP request that ends a multi-get, which [request] is shared for: only its number changes. *)
Definition noop_one (rc : memcached_return_t) : IO memcached_return_t :=
  let* h := initialize_binary_request (new_request PROTOCOL_BINARY_CMD_NOOP) in
  let* count := geti cursor_active_ in
  if count =? 0 then ret rc else
  let fail : IO memcached_return_t :=
    memcached_server_response_reset ;;; memcached_io_reset ;;; ret MEMCACHED_SOME_ERRORS in
  let* sent := memcached_io_write_all in
  let* rc := if sent : bool then ret rc else fail in
  let* n := memcached_io_write (octets (header_bytes h)) true in
  if n =? -1 then fail else ret rc.

Fixpoint noop_servers (n : nat) (k : Z) (rc : memcached_return_t) : SIO memcached_return_t :=
  match n with
  | O => ret rc
  | S n => let* rc := at_instance k (noop_one rc) in noop_servers n (k + 1) rc
  end.

Definition simple_binary_mget (master : option Z) (keys : list cstring) (mget_mode : bool) : SIO memcached_return_t :=
  let* x := getk_keys 0 master mget_mode (List.length keys =? 1)%nat keys MEMCACHED_NOTFOUND in
  match x with
  | inl vk => ret vk
  | inr rc =>
    if negb mget_mode then ret rc else
    let* n := sconf (fun m => List.length (servers m)) in
    noop_servers n 0 rc
  end.

(** ** Retrieval from replicas *)

(** The server for a key whose own server is [hash]; counts are subtracted until it is one. *)
Definition replica_server (count hash replica replicas : Z) (start : option Z) : Z :=
  let server := u32 (hash + replica) in
  let server := match start with
    | Some s => if u32 (server + s) <=? u32 (hash + replicas) then u32 (server + s) else server
    | None => server
    end in
  server mod count.

(** One request to a replica: whether it was sent, or none because of a dead server. *)
Definition getk_replica (key : cstring) : IO bool :=
  let* count := geti cursor_active_ in
  let* rc := if count =? 0 then memcached_connect else ret MEMCACHED_SUCCESS in
  if memcached_failed rc then memcached_io_reset ;;; ret false else
  let* h := initialize_binary_request zero_header in
  let* ns := conf _namespace in
  let* sent := memcached_io_writev (getk_vector PROTOCOL_BINARY_CMD_GETK ns key h) true in
  if negb sent then memcached_io_reset ;;; ret false else
  memcached_server_response_increment ;;; ret true.

(** The keys for one replica: the array [hash] (a key that was sent has the number of servers
    there), the servers that are dead, and whether all went well. *)
Fixpoint replica_keys (count replica replicas : Z) (start : option Z) (keys : list cstring) (hash : list Z)
    (dead : list bool) (success : bool) : SIO (list Z * list bool * bool) :=
  match keys, hash with
  | key :: keys, h :: hash =>
    let server := replica_server count h replica replicas start in
    if (h =? count) || default false (dead !! Z.to_nat server) then
      let* x := replica_keys count replica replicas start keys hash dead success in
      let '(hash, dead, success) := x in ret (h :: hash, dead, success)
    else
    let* sent := at_instance server (getk_replica key) in
    let* x := replica_keys count replica replicas start keys hash
                (if sent : bool then dead else <[Z.to_nat server := true]> dead) (success && sent) in
    let '(hash, dead, success) := x in ret ((if sent : bool then count else h) :: hash, dead, success)
  | _, _ => ret (hash, dead, success)
  end.

Fixpoint replica_loop (rounds : nat) (count replica replicas : Z) (start : option Z) (keys : list cstring)
    (hash : list Z) (dead : list bool) : SIO unit :=
  match rounds with
  | O => ret tt
  | S rounds =>
    let* x := replica_keys count replica replicas start keys hash dead true in
    let '(hash, dead, success) := x in
    if success : bool then ret tt else replica_loop rounds count (replica + 1) replicas start keys hash dead
  end.

Definition replication_binary_mget (hash : list Z) (keys : list cstring) : SIO unit :=
  let* m := sroot memc in
  let replicas := number_of_replicas (limits m) in
  let count := memcached_server_count m in
  let* start :=
    if randomize_replica_read (flags m) then
      let* t := sroot ticks in
      on_sroot (set_ticks (S t)) ;;;
      ret (Some (u32 (random_value t) mod u32 (replicas + 1)))
    else ret None in
  replica_loop (S (Z.to_nat replicas)) count 0 replicas start keys hash (repeat false (Z.to_nat count)).

Fixpoint hash_keys (master : option Z) (keys : list cstring) : SIO (list Z) :=
  match keys with
  | [] => ret []
  | key :: keys =>
    let* h := match master with Some m => ret m | None => pick_server key end in
    let* hs := hash_keys master keys in ret (h :: hs)
  end.

Definition mget_binary (master : option Z) (keys : list cstring) (mget_mode : bool) : SIO memcached_return_t :=
  let* m := sroot memc in
  if number_of_replicas (limits m) =? 0 then simple_binary_mget master keys mget_mode else
  let* hash_granted := at_root (alloc (ulong (4 * Z.of_nat (List.length keys)))) in
  let* dead_granted := at_root (alloc (memcached_server_count m)) in
  if negb (hash_granted && dead_granted) then ret MEMCACHED_MEMORY_ALLOCATION_FAILURE else
  let* hash := hash_keys master keys in
  replication_binary_mget hash keys ;;;
  ret MEMCACHED_SUCCESS.

Definition binary_requests : BinaryRequests := {|
  memcached_send_binary := send_binary;
  binary_delete := delete_binary;
  binary_incr_decr := incr_decr_binary;
  binary_touch := touch_binary;
  binary_mget_by_key := mget_binary;
|}.
End Requests.
