(* ===== verification/ClientBehavior.v ===== *)
(** * The settings of a client: behavior.cc

    [memcached_behavior_set] and [memcached_behavior_get] for every behaviour, with what they do
    to the connections; [send_quit] and [memcached_quit] of quit.cc. *)

From stdpp Require Import base list.
From Stdlib Require Import ZArith Ascii String.
From S2P Require Import Prelude CxxString HashWords HashSmall HashKit HashkitString Rijndael Aes Continuum ClientTypes Distribution.
From S2P Require Import ByteOrder ClientString ClientState ClientRead ClientWrite ClientConnect ClientOps.

(** ** Members *)

Definition put_auto_eject_hosts (v : bool) (f : flags_st) :=
  mkFlags v (binary_protocol f) (buffer_requests f) (hash_with_namespace f) (no_block f) (reply f)
    (randomize_replica_read f) (support_cas f) (tcp_nodelay f) (use_sort_hosts f) (use_udp f) (verify_key f)
    (tcp_keepalive f) (is_fetching_version f).
Definition put_binary_protocol (v : bool) (f : flags_st) :=
  mkFlags (auto_eject_hosts f) v (buffer_requests f) (hash_with_namespace f) (no_block f) (reply f)
    (randomize_replica_read f) (support_cas f) (tcp_nodelay f) (use_sort_hosts f) (use_udp f) (verify_key f)
    (tcp_keepalive f) (is_fetching_version f).
Definition put_buffer_requests (v : bool) (f : flags_st) :=
  mkFlags (auto_eject_hosts f) (binary_protocol f) v (hash_with_namespace f) (no_block f) (reply f)
    (randomize_replica_read f) (support_cas f) (tcp_nodelay f) (use_sort_hosts f) (use_udp f) (verify_key f)
    (tcp_keepalive f) (is_fetching_version f).
Definition put_hash_with_namespace (v : bool) (f : flags_st) :=
  mkFlags (auto_eject_hosts f) (binary_protocol f) (buffer_requests f) v (no_block f) (reply f)
    (randomize_replica_read f) (support_cas f) (tcp_nodelay f) (use_sort_hosts f) (use_udp f) (verify_key f)
    (tcp_keepalive f) (is_fetching_version f).
Definition put_no_block (v : bool) (f : flags_st) :=
  mkFlags (auto_eject_hosts f) (binary_protocol f) (buffer_requests f) (hash_with_namespace f) v (reply f)
    (randomize_replica_read f) (support_cas f) (tcp_nodelay f) (use_sort_hosts f) (use_udp f) (verify_key f)
    (tcp_keepalive f) (is_fetching_version f).
Definition put_reply (v : bool) (f : flags_st) :=
  mkFlags (auto_eject_hosts f) (binary_protocol f) (buffer_requests f) (hash_with_namespace f) (no_block f)
    v (randomize_replica_read f) (support_cas f) (tcp_nodelay f) (use_sort_hosts f) (use_udp f)
    (verify_key f) (tcp_keepalive f) (is_fetching_version f).
Definition put_randomize_replica_read (v : bool) (f : flags_st) :=
  mkFlags (auto_eject_hosts f) (binary_protocol f) (buffer_requests f) (hash_with_namespace f) (no_block f)
    (reply f) v (support_cas f) (tcp_nodelay f) (use_sort_hosts f) (use_udp f) (verify_key f)
    (tcp_keepalive f) (is_fetching_version f).
Definition put_support_cas (v : bool) (f : flags_st) :=
  mkFlags (auto_eject_hosts f) (binary_protocol f) (buffer_requests f) (hash_with_namespace f) (no_block f)
    (reply f) (randomize_replica_read f) v (tcp_nodelay f) (use_sort_hosts f) (use_udp f) (verify_key f)
    (tcp_keepalive f) (is_fetching_version f).
Definition put_tcp_nodelay (v : bool) (f : flags_st) :=
  mkFlags (auto_eject_hosts f) (binary_protocol f) (buffer_requests f) (hash_with_namespace f) (no_block f)
    (reply f) (randomize_replica_read f) (support_cas f) v (use_sort_hosts f) (use_udp f) (verify_key f)
    (tcp_keepalive f) (is_fetching_version f).
Definition put_use_sort_hosts (v : bool) (f : flags_st) :=
  mkFlags (auto_eject_hosts f) (binary_protocol f) (buffer_requests f) (hash_with_namespace f) (no_block f)
    (reply f) (randomize_replica_read f) (support_cas f) (tcp_nodelay f) v (use_udp f) (verify_key f)
    (tcp_keepalive f) (is_fetching_version f).
Definition put_use_udp (v : bool) (f : flags_st) :=
  mkFlags (auto_eject_hosts f) (binary_protocol f) (buffer_requests f) (hash_with_namespace f) (no_block f)
    (reply f) (randomize_replica_read f) (support_cas f) (tcp_nodelay f) (use_sort_hosts f) v (verify_key f)
    (tcp_keepalive f) (is_fetching_version f).
Definition put_verify_key (v : bool) (f : flags_st) :=
  mkFlags (auto_eject_hosts f) (binary_protocol f) (buffer_requests f) (hash_with_namespace f) (no_block f)
    (reply f) (randomize_replica_read f) (support_cas f) (tcp_nodelay f) (use_sort_hosts f) (use_udp f) v
    (tcp_keepalive f) (is_fetching_version f).
Definition put_tcp_keepalive (v : bool) (f : flags_st) :=
  mkFlags (auto_eject_hosts f) (binary_protocol f) (buffer_requests f) (hash_with_namespace f) (no_block f)
    (reply f) (randomize_replica_read f) (support_cas f) (tcp_nodelay f) (use_sort_hosts f) (use_udp f)
    (verify_key f) v (is_fetching_version f).
Definition put_is_fetching_version (v : bool) (f : flags_st) :=
  mkFlags (auto_eject_hosts f) (binary_protocol f) (buffer_requests f) (hash_with_namespace f) (no_block f)
    (reply f) (randomize_replica_read f) (support_cas f) (tcp_nodelay f) (use_sort_hosts f) (use_udp f)
    (verify_key f) (tcp_keepalive f) v.

Definition put_snd_timeout (v : Z) (l : limits_st) :=
  mkLimits v (rcv_timeout l) (server_failure_limit l) (io_msg_watermark l) (io_bytes_watermark l)
    (io_key_prefetch l) (tcp_keepidle l) (poll_timeout l) (connect_timeout l) (retry_timeout l)
    (dead_timeout l) (send_size l) (recv_size l) (number_of_replicas l).
Definition put_rcv_timeout (v : Z) (l : limits_st) :=
  mkLimits (snd_timeout l) v (server_failure_limit l) (io_msg_watermark l) (io_bytes_watermark l)
    (io_key_prefetch l) (tcp_keepidle l) (poll_timeout l) (connect_timeout l) (retry_timeout l)
    (dead_timeout l) (send_size l) (recv_size l) (number_of_replicas l).
Definition put_server_failure_limit (v : Z) (l : limits_st) :=
  mkLimits (snd_timeout l) (rcv_timeout l) v (io_msg_watermark l) (io_bytes_watermark l) (io_key_prefetch l)
    (tcp_keepidle l) (poll_timeout l) (connect_timeout l) (retry_timeout l) (dead_timeout l) (send_size l)
    (recv_size l) (number_of_replicas l).
Definition put_io_msg_watermark (v : Z) (l : limits_st) :=
  mkLimits (snd_timeout l) (rcv_timeout l) (server_failure_limit l) v (io_bytes_watermark l)
    (io_key_prefetch l) (tcp_keepidle l) (poll_timeout l) (connect_timeout l) (retry_timeout l)
    (dead_timeout l) (send_size l) (recv_size l) (number_of_replicas l).
Definition put_io_bytes_watermark (v : Z) (l : limits_st) :=
  mkLimits (snd_timeout l) (rcv_timeout l) (server_failure_limit l) (io_msg_watermark l) v
    (io_key_prefetch l) (tcp_keepidle l) (poll_timeout l) (connect_timeout l) (retry_timeout l)
    (dead_timeout l) (send_size l) (recv_size l) (number_of_replicas l).
Definition put_io_key_prefetch (v : Z) (l : limits_st) :=
  mkLimits (snd_timeout l) (rcv_timeout l) (server_failure_limit l) (io_msg_watermark l)
    (io_bytes_watermark l) v (tcp_keepidle l) (poll_timeout l) (connect_timeout l) (retry_timeout l)
    (dead_timeout l) (send_size l) (recv_size l) (number_of_replicas l).
Definition put_tcp_keepidle (v : Z) (l : limits_st) :=
  mkLimits (snd_timeout l) (rcv_timeout l) (server_failure_limit l) (io_msg_watermark l)
    (io_bytes_watermark l) (io_key_prefetch l) v (poll_timeout l) (connect_timeout l) (retry_timeout l)
    (dead_timeout l) (send_size l) (recv_size l) (number_of_replicas l).
Definition put_poll_timeout (v : Z) (l : limits_st) :=
  mkLimits (snd_timeout l) (rcv_timeout l) (server_failure_limit l) (io_msg_watermark l)
    (io_bytes_watermark l) (io_key_prefetch l) (tcp_keepidle l) v (connect_timeout l) (retry_timeout l)
    (dead_timeout l) (send_size l) (recv_size l) (number_of_replicas l).
Definition put_connect_timeout (v : Z) (l : limits_st) :=
  mkLimits (snd_timeout l) (rcv_timeout l) (server_failure_limit l) (io_msg_watermark l)
    (io_bytes_watermark l) (io_key_prefetch l) (tcp_keepidle l) (poll_timeout l) v (retry_timeout l)
    (dead_timeout l) (send_size l) (recv_size l) (number_of_replicas l).
Definition put_retry_timeout (v : Z) (l : limits_st) :=
  mkLimits (snd_timeout l) (rcv_timeout l) (server_failure_limit l) (io_msg_watermark l)
    (io_bytes_watermark l) (io_key_prefetch l) (tcp_keepidle l) (poll_timeout l) (connect_timeout l) v
    (dead_timeout l) (send_size l) (recv_size l) (number_of_replicas l).
Definition put_dead_timeout (v : Z) (l : limits_st) :=
  mkLimits (snd_timeout l) (rcv_timeout l) (server_failure_limit l) (io_msg_watermark l)
    (io_bytes_watermark l) (io_key_prefetch l) (tcp_keepidle l) (poll_timeout l) (connect_timeout l)
    (retry_timeout l) v (send_size l) (recv_size l) (number_of_replicas l).
Definition put_send_size (v : Z) (l : limits_st) :=
  mkLimits (snd_timeout l) (rcv_timeout l) (server_failure_limit l) (io_msg_watermark l)
    (io_bytes_watermark l) (io_key_prefetch l) (tcp_keepidle l) (poll_timeout l) (connect_timeout l)
    (retry_timeout l) (dead_timeout l) v (recv_size l) (number_of_replicas l).
Definition put_recv_size (v : Z) (l : limits_st) :=
  mkLimits (snd_timeout l) (rcv_timeout l) (server_failure_limit l) (io_msg_watermark l)
    (io_bytes_watermark l) (io_key_prefetch l) (tcp_keepidle l) (poll_timeout l) (connect_timeout l)
    (retry_timeout l) (dead_timeout l) (send_size l) v (number_of_replicas l).
Definition put_number_of_replicas (v : Z) (l : limits_st) :=
  mkLimits (snd_timeout l) (rcv_timeout l) (server_failure_limit l) (io_msg_watermark l)
    (io_bytes_watermark l) (io_key_prefetch l) (tcp_keepidle l) (poll_timeout l) (connect_timeout l)
    (retry_timeout l) (dead_timeout l) (send_size l) (recv_size l) v.

(** A cast to [int32_t], and the value of such a number as a [uint64_t]. *)
Definition int32 (x : Z) : Z := if u32 x <? 2147483648 then u32 x else u32 x - UINT_MOD.

(** [(memcached_server_distribution_t)data] and [(memcached_hash_t)data]: what is no enumerator is
    treated by the functions that get it as the last one. *)
Definition distribution_of (data : Z) : memcached_server_distribution_t :=
  default MEMCACHED_DISTRIBUTION_CONSISTENT_MAX
    ([MEMCACHED_DISTRIBUTION_MODULA; MEMCACHED_DISTRIBUTION_CONSISTENT; MEMCACHED_DISTRIBUTION_CONSISTENT_KETAMA;
      MEMCACHED_DISTRIBUTION_RANDOM; MEMCACHED_DISTRIBUTION_CONSISTENT_KETAMA_SPY;
      MEMCACHED_DISTRIBUTION_CONSISTENT_WEIGHTED; MEMCACHED_DISTRIBUTION_VIRTUAL_BUCKET] !! Z.to_nat (u32 data)).
Definition distribution_number (d : memcached_server_distribution_t) : Z :=
  match d with
  | MEMCACHED_DISTRIBUTION_MODULA => 0
  | MEMCACHED_DISTRIBUTION_CONSISTENT => 1
  | MEMCACHED_DISTRIBUTION_CONSISTENT_KETAMA => 2
  | MEMCACHED_DISTRIBUTION_RANDOM => 3
  | MEMCACHED_DISTRIBUTION_CONSISTENT_KETAMA_SPY => 4
  | MEMCACHED_DISTRIBUTION_CONSISTENT_WEIGHTED => 5
  | MEMCACHED_DISTRIBUTION_VIRTUAL_BUCKET => 6
  | MEMCACHED_DISTRIBUTION_CONSISTENT_MAX => 7
  end.

Definition algorithm_of (data : Z) : hashkit_hash_algorithm_t :=
  default HASHKIT_HASH_MAX
    ([HASHKIT_HASH_DEFAULT; HASHKIT_HASH_MD5; HASHKIT_HASH_CRC; HASHKIT_HASH_FNV1_64; HASHKIT_HASH_FNV1A_64;
      HASHKIT_HASH_FNV1_32; HASHKIT_HASH_FNV1A_32; HASHKIT_HASH_HSIEH; HASHKIT_HASH_MURMUR; HASHKIT_HASH_JENKINS;
      HASHKIT_HASH_MURMUR3; HASHKIT_HASH_CUSTOM] !! Z.to_nat (u32 data)).
Definition algorithm_number (a : hashkit_hash_algorithm_t) : Z :=
  match a with
  | HASHKIT_HASH_DEFAULT => 0 | HASHKIT_HASH_MD5 => 1 | HASHKIT_HASH_CRC => 2 | HASHKIT_HASH_FNV1_64 => 3
  | HASHKIT_HASH_FNV1A_64 => 4 | HASHKIT_HASH_FNV1_32 => 5 | HASHKIT_HASH_FNV1A_32 => 6 | HASHKIT_HASH_HSIEH => 7
  | HASHKIT_HASH_MURMUR => 8 | HASHKIT_HASH_JENKINS => 9 | HASHKIT_HASH_MURMUR3 => 10 | HASHKIT_HASH_CUSTOM => 11
  | HASHKIT_HASH_MAX => 12
  end.

Definition set_position (n : nat) (i : Inst) : Inst :=
  mkInst n (fd i) (net i) (rd i) (write_buffer i) (cursor_active_ i) (io_bytes_sent i) (server_state i)
    (is_shutting_down i) (server_failure_counter i) (server_failure_counter_query_id i) (versions i) (request_id i)
    (dial i) (error_messages i).

(** ** Interfaces *)

(** [qsort] on the servers, which moves them with their connections; the part of
    [run_distribution] behind it, at each call. *)
Class SessionSort := { sort_session : list (Instance_ * Inst) -> list (Instance_ * Inst) }.
Class Rebuilding := { rebuild : nat -> Memcached -> outcome (memcached_return_t * Memcached) }.

(** The size of the kernel's buffer for a socket, at each call of [getsockopt]. *)
Class SocketSizes := { socket_size : nat -> Z + errno_t }.

Section Behaviours.
Context `{DM : DataModel} `{HC : HashConfig} `{AL : Allocator} `{CF : ClientConfig} `{CK : Clock} `{CC : CipherConfig}.
Context `{BR : BinaryReader} `{TR : Transport} `{SS : SessionSort} `{RB : Rebuilding} `{SZ : SocketSizes}.

(** ** Closing all connections: quit.cc *)

Fixpoint quit_servers (n : nat) (k : Z) : SIO unit :=
  match n with
  | O => ret tt
  | S n => at_instance k (memcached_quit_server false) ;;; quit_servers n (k + 1)
  end.

Definition send_quit : SIO unit :=
  let* n := sconf (fun m => List.length (servers m)) in quit_servers n 0.

Definition memcached_quit : SIO unit :=
  let* rc := initialize_query true in
  if memcached_failed rc then ret tt else send_quit.

(** ** Changes of members *)

Definition on_memc (f : Memcached -> Memcached) : SIO unit := on_sroot (fun r => set_memc (f (memc r)) r).
Definition on_flags (f : flags_st -> flags_st) : SIO unit := on_memc (fun m => with_flags m (f (flags m))).
Definition on_limits (f : limits_st -> limits_st) : SIO unit := on_memc (fun m => with_limits m (f (limits m))).
Definition refuse (rc : memcached_return_t) : SIO memcached_return_t := at_root (memcached_set_error_root rc).

(** [run_distribution]: the servers are moved with their connections. *)
Definition sort_servers_session (s : Session) : Session :=
  let l := sort_session (zip (servers (memc (ses_root s))) (ses_insts s)) in
  mkSession (set_memc (with_servers (memc (ses_root s)) l.*1) (ses_root s)) (imap set_position l.*2).

Definition run_distribution_session : SIO memcached_return_t :=
  let* sorted := sconf (fun m => use_sort_hosts (flags m)) in
  (if sorted : bool then modify sort_servers_session else ret tt) ;;;
  let* t := sroot ticks in
  on_sroot (set_ticks (S t)) ;;;
  let* m := sroot memc in
  let* x := lift (rebuild t m) in
  on_sroot (set_memc (snd x)) ;;; ret (fst x).

(** ** Distribution and hash functions *)

Definition hashkit_success (rc : hashkit_return_t) : bool := if rc is HASHKIT_SUCCESS then true else false.

Definition memcached_behavior_set_distribution (type : memcached_server_distribution_t) : SIO memcached_return_t :=
  let change (w : option bool) :=
    (if w is Some b then on_memc (fun m => memcached_set_weighted_ketama m b) else ret tt) ;;;
    on_memc (fun m => with_distribution m type) ;;;
    run_distribution_session in
  match type with
  | MEMCACHED_DISTRIBUTION_CONSISTENT | MEMCACHED_DISTRIBUTION_CONSISTENT_KETAMA => change (Some false)
  | MEMCACHED_DISTRIBUTION_CONSISTENT_WEIGHTED => change (Some true)
  | MEMCACHED_DISTRIBUTION_MODULA | MEMCACHED_DISTRIBUTION_RANDOM | MEMCACHED_DISTRIBUTION_CONSISTENT_KETAMA_SPY
  | MEMCACHED_DISTRIBUTION_VIRTUAL_BUCKET => change None
  | MEMCACHED_DISTRIBUTION_CONSISTENT_MAX => refuse MEMCACHED_INVALID_ARGUMENTS
  end.

Definition memcached_behavior_get_distribution : SIO memcached_server_distribution_t := sconf distribution.

Definition memcached_behavior_set_key_hash (type : memcached_hash_t) : SIO memcached_return_t :=
  let* h := sconf hashkit in
  let '(rc, h) := hashkit_set_function h type in
  on_memc (fun m => with_hashkit m h) ;;;
  if hashkit_success rc then ret MEMCACHED_SUCCESS else refuse MEMCACHED_INVALID_ARGUMENTS.

Definition memcached_behavior_get_key_hash : SIO memcached_hash_t := sconf (fun m => hashkit_get_function (Some (hashkit m))).

Definition memcached_behavior_set_distribution_hash (type : memcached_hash_t) : SIO memcached_return_t :=
  let* h := sconf hashkit in
  let '(rc, h) := hashkit_set_distribution_function h type in
  on_memc (fun m => with_hashkit m h) ;;;
  if hashkit_success rc then ret MEMCACHED_SUCCESS else refuse MEMCACHED_INVALID_ARGUMENTS.

(** It asks for the function of keys. *)
Definition memcached_behavior_get_distribution_hash : SIO memcached_hash_t :=
  sconf (fun m => hashkit_get_function (Some (hashkit m))).

(** ** Setting *)

Definition truth (data : Z) : bool := negb (data =? 0).

(** The behaviours that are one flag or one number, and whether connections are closed then. *)
Definition flag_behavior (flag : memcached_behavior_t) : option ((bool -> flags_st -> flags_st) * bool) :=
  match flag with
  | MEMCACHED_BEHAVIOR_SUPPORT_CAS => Some (put_support_cas, false)
  | MEMCACHED_BEHAVIOR_NO_BLOCK => Some (put_no_block, true)
  | MEMCACHED_BEHAVIOR_TCP_NODELAY => Some (put_tcp_nodelay, true)
  | MEMCACHED_BEHAVIOR_TCP_KEEPALIVE => Some (put_tcp_keepalive, true)
  | MEMCACHED_BEHAVIOR_HASH_WITH_PREFIX_KEY => Some (put_hash_with_namespace, false)
  | MEMCACHED_BEHAVIOR_AUTO_EJECT_HOSTS => Some (put_auto_eject_hosts, false)
  | MEMCACHED_BEHAVIOR_RANDOMIZE_REPLICA_READ => Some (put_randomize_replica_read, false)
  | _ => None
  end.

Definition number_behavior (flag : memcached_behavior_t) : option ((Z -> limits_st -> limits_st) * (Z -> Z) * bool) :=
  match flag with
  | MEMCACHED_BEHAVIOR_NUMBER_OF_REPLICAS => Some (put_number_of_replicas, u32, false)
  | MEMCACHED_BEHAVIOR_IO_MSG_WATERMARK => Some (put_io_msg_watermark, u32, false)
  | MEMCACHED_BEHAVIOR_IO_BYTES_WATERMARK => Some (put_io_bytes_watermark, u32, false)
  | MEMCACHED_BEHAVIOR_IO_KEY_PREFETCH => Some (put_io_key_prefetch, u32, false)
  | MEMCACHED_BEHAVIOR_SND_TIMEOUT => Some (put_snd_timeout, int32, false)
  | MEMCACHED_BEHAVIOR_RCV_TIMEOUT => Some (put_rcv_timeout, int32, false)
  | MEMCACHED_BEHAVIOR_POLL_TIMEOUT => Some (put_poll_timeout, int32, false)
  | MEMCACHED_BEHAVIOR_CONNECT_TIMEOUT => Some (put_connect_timeout, int32, false)
  | MEMCACHED_BEHAVIOR_DEAD_TIMEOUT => Some (put_dead_timeout, int32, false)
  | MEMCACHED_BEHAVIOR_SOCKET_SEND_SIZE => Some (put_send_size, int32, true)
  | MEMCACHED_BEHAVIOR_SOCKET_RECV_SIZE => Some (put_recv_size, int32, true)
  | MEMCACHED_BEHAVIOR_TCP_KEEPIDLE => Some (put_tcp_keepidle, u32, true)
  | _ => None
  end.

Definition quit_if (b : bool) : SIO unit := if b then send_quit else ret tt.

(** The zero of a limit is looked for before it is cut to 32 bits. *)
Definition set_failure_limit (data : Z) : SIO memcached_return_t :=
  if data =? 0 then refuse MEMCACHED_INVALID_ARGUMENTS else
  on_limits (put_server_failure_limit (u32 data)) ;;; ret MEMCACHED_SUCCESS.

Definition memcached_behavior_set (flag : memcached_behavior_t) (data : Z) : SIO memcached_return_t :=
  match flag_behavior flag, number_behavior flag with
  | Some (put, quits), _ => on_flags (put (truth data)) ;;; quit_if quits ;;; ret MEMCACHED_SUCCESS
  | _, Some (put, cast, quits) => on_limits (put (cast data)) ;;; quit_if quits ;;; ret MEMCACHED_SUCCESS
  | None, None =>
  match flag with
  | MEMCACHED_BEHAVIOR_REMOVE_FAILED_SERVERS => on_flags (put_auto_eject_hosts (truth data)) ;;; set_failure_limit data
  | MEMCACHED_BEHAVIOR_SERVER_FAILURE_LIMIT => set_failure_limit data
  | MEMCACHED_BEHAVIOR_BINARY_PROTOCOL =>
    send_quit ;;;
    (if truth data then on_flags (put_verify_key false) else ret tt) ;;;
    on_flags (put_binary_protocol (truth data)) ;;; ret MEMCACHED_SUCCESS
  | MEMCACHED_BEHAVIOR_BUFFER_REQUESTS =>
    let* udp := sconf (fun m => use_udp (flags m)) in
    if udp : bool then refuse MEMCACHED_INVALID_ARGUMENTS else
    on_flags (put_buffer_requests (truth data)) ;;; send_quit ;;; ret MEMCACHED_SUCCESS
  | MEMCACHED_BEHAVIOR_USE_UDP =>
    send_quit ;;;
    on_flags (put_use_udp (truth data)) ;;;
    (if truth data then on_flags (put_reply false) ;;; on_flags (put_buffer_requests false)
     else on_flags (put_reply true)) ;;;
    ret MEMCACHED_SUCCESS
  | MEMCACHED_BEHAVIOR_DISTRIBUTION => memcached_behavior_set_distribution (distribution_of data)
  | MEMCACHED_BEHAVIOR_KETAMA =>
    memcached_behavior_set_distribution
      (if truth data then MEMCACHED_DISTRIBUTION_CONSISTENT_KETAMA else MEMCACHED_DISTRIBUTION_MODULA)
  | MEMCACHED_BEHAVIOR_KETAMA_WEIGHTED =>
    if negb (truth data) then memcached_behavior_set_distribution MEMCACHED_DISTRIBUTION_CONSISTENT_KETAMA else
    let* _ := memcached_behavior_set_key_hash HASHKIT_HASH_MD5 in
    let* _ := memcached_behavior_set_distribution_hash HASHKIT_HASH_MD5 in
    memcached_behavior_set_distribution MEMCACHED_DISTRIBUTION_CONSISTENT_WEIGHTED
  | MEMCACHED_BEHAVIOR_HASH => memcached_behavior_set_key_hash (algorithm_of data)
  | MEMCACHED_BEHAVIOR_KETAMA_HASH => memcached_behavior_set_distribution_hash (algorithm_of data)
  | MEMCACHED_BEHAVIOR_VERIFY_KEY =>
    let* binary := sconf (fun m => binary_protocol (flags m)) in
    if binary : bool then refuse MEMCACHED_INVALID_ARGUMENTS else
    on_flags (put_verify_key (truth data)) ;;; ret MEMCACHED_SUCCESS
  | MEMCACHED_BEHAVIOR_SORT_HOSTS => on_flags (put_use_sort_hosts (truth data)) ;;; run_distribution_session
  | MEMCACHED_BEHAVIOR_RETRY_TIMEOUT =>
    if data =? 0 then refuse MEMCACHED_INVALID_ARGUMENTS else
    on_limits (put_retry_timeout (int32 data)) ;;; ret MEMCACHED_SUCCESS
  | MEMCACHED_BEHAVIOR_NOREPLY =>
    let* udp := sconf (fun m => use_udp (flags m)) in
    if udp && negb (truth data) then refuse MEMCACHED_INVALID_ARGUMENTS else
    on_flags (put_reply (negb (truth data))) ;;; ret MEMCACHED_SUCCESS
  | MEMCACHED_BEHAVIOR_CACHE_LOOKUPS | MEMCACHED_BEHAVIOR_USER_DATA | MEMCACHED_BEHAVIOR_CORK => refuse MEMCACHED_DEPRECATED
  | MEMCACHED_BEHAVIOR_LOAD_FROM_FILE => refuse MEMCACHED_INVALID_ARGUMENTS
  | _ => lift (assert_msg false) ;;; refuse MEMCACHED_INVALID_ARGUMENTS
  end
  end.

(** ** Reading *)

(** The size of the buffer of the first server's socket, which is connected for it; 0 is an
    error. *)
Definition kernel_buffer (size : Z) : SIO Z :=
  if negb (size =? -1) then ret (u64 size) else
  let* n := sconf memcached_server_count in
  if n =? 0 then ret 0 else
  at_instance 0 (
    let* rc := memcached_connect in
    if memcached_failed rc then ret 0 else
    let* rc := io_wait_write memcached_purge in
    if memcached_failed rc then ret 0 else
    let* t := tick in
    match socket_size t with
    | inl n => ret (u64 n)
    | inr e => let* _ := memcached_set_errno_root e in ret 0
    end).

Definition b2z (b : bool) : Z := if b then 1 else 0.

(** [HAVE_MSG_MORE] is defined on Linux. *)
Definition memcached_behavior_get (flag : memcached_behavior_t) : SIO Z :=
  let* m := sroot memc in
  let f := flags m in
  let l := limits m in
  match flag with
  | MEMCACHED_BEHAVIOR_NUMBER_OF_REPLICAS => ret (number_of_replicas l)
  | MEMCACHED_BEHAVIOR_IO_MSG_WATERMARK => ret (io_msg_watermark l)
  | MEMCACHED_BEHAVIOR_IO_BYTES_WATERMARK => ret (io_bytes_watermark l)
  | MEMCACHED_BEHAVIOR_IO_KEY_PREFETCH => ret (io_key_prefetch l)
  | MEMCACHED_BEHAVIOR_BINARY_PROTOCOL => ret (b2z (binary_protocol f))
  | MEMCACHED_BEHAVIOR_SUPPORT_CAS => ret (b2z (support_cas f))
  | MEMCACHED_BEHAVIOR_CACHE_LOOKUPS => ret 1
  | MEMCACHED_BEHAVIOR_NO_BLOCK => ret (b2z (no_block f))
  | MEMCACHED_BEHAVIOR_BUFFER_REQUESTS => ret (b2z (buffer_requests f))
  | MEMCACHED_BEHAVIOR_USE_UDP => ret (b2z (use_udp f))
  | MEMCACHED_BEHAVIOR_TCP_NODELAY => ret (b2z (tcp_nodelay f))
  | MEMCACHED_BEHAVIOR_VERIFY_KEY => ret (b2z (verify_key f))
  | MEMCACHED_BEHAVIOR_KETAMA_WEIGHTED =>
    ret (if memcached_is_consistent_distribution m then b2z (weighted_ (ketama m)) else 0)
  | MEMCACHED_BEHAVIOR_DISTRIBUTION => ret (distribution_number (distribution m))
  | MEMCACHED_BEHAVIOR_KETAMA => ret (b2z (memcached_is_consistent_distribution m))
  | MEMCACHED_BEHAVIOR_HASH | MEMCACHED_BEHAVIOR_KETAMA_HASH =>
    ret (algorithm_number (hashkit_get_function (Some (hashkit m))))
  | MEMCACHED_BEHAVIOR_REMOVE_FAILED_SERVERS | MEMCACHED_BEHAVIOR_SERVER_FAILURE_LIMIT => ret (server_failure_limit l)
  | MEMCACHED_BEHAVIOR_SORT_HOSTS => ret (b2z (use_sort_hosts f))
  | MEMCACHED_BEHAVIOR_POLL_TIMEOUT => ret (u64 (poll_timeout l))
  | MEMCACHED_BEHAVIOR_CONNECT_TIMEOUT => ret (u64 (connect_timeout l))
  | MEMCACHED_BEHAVIOR_RETRY_TIMEOUT => ret (u64 (retry_timeout l))
  | MEMCACHED_BEHAVIOR_DEAD_TIMEOUT => ret (u64 (dead_timeout l))
  | MEMCACHED_BEHAVIOR_SND_TIMEOUT => ret (u64 (snd_timeout l))
  | MEMCACHED_BEHAVIOR_RCV_TIMEOUT => ret (u64 (rcv_timeout l))
  | MEMCACHED_BEHAVIOR_TCP_KEEPIDLE => ret (u64 (tcp_keepidle l))
  | MEMCACHED_BEHAVIOR_SOCKET_SEND_SIZE => kernel_buffer (send_size l)
  | MEMCACHED_BEHAVIOR_SOCKET_RECV_SIZE => kernel_buffer (recv_size l)
  | MEMCACHED_BEHAVIOR_USER_DATA => let* _ := refuse MEMCACHED_DEPRECATED in ret 0
  | MEMCACHED_BEHAVIOR_HASH_WITH_PREFIX_KEY => ret (b2z (hash_with_namespace f))
  | MEMCACHED_BEHAVIOR_NOREPLY => ret (b2z (negb (reply f)))
  | MEMCACHED_BEHAVIOR_AUTO_EJECT_HOSTS => ret (b2z (auto_eject_hosts f))
  | MEMCACHED_BEHAVIOR_RANDOMIZE_REPLICA_READ => ret (b2z (randomize_replica_read f))
  | MEMCACHED_BEHAVIOR_CORK => ret 1
  | MEMCACHED_BEHAVIOR_TCP_KEEPALIVE => ret (b2z (tcp_keepalive f))
  | MEMCACHED_BEHAVIOR_LOAD_FROM_FILE => let* n := sroot filename in ret (b2z (bool_decide (is_Some n)))
  | MEMCACHED_BEHAVIOR_MAX => lift (assert_msg false) ;;; ret 0
  end.

(** ** Virtual buckets *)

(** [granted] says whether memory for the buckets was granted. *)
Definition memcached_bucket_set (granted : bool) (host_map forward_map : option (list Z)) (nbuckets nreplicas : Z)
    : SIO memcached_return_t :=
  if host_map is None then ret MEMCACHED_INVALID_ARGUMENTS else
  let* old := memcached_behavior_get_distribution in
  let* rc := memcached_behavior_set_distribution MEMCACHED_DISTRIBUTION_VIRTUAL_BUCKET in
  if memcached_failed rc then ret rc else
  let* m := sroot memc in
  let '(rc, m') := memcached_virtual_bucket_create granted (Some m) host_map forward_map nbuckets nreplicas in
  on_sroot (set_memc (default m m')) ;;;
  (if memcached_failed rc then let* _ := memcached_behavior_set_distribution old in ret tt else ret tt) ;;;
  ret rc.
End Behaviours.
