(* ===== verification/ClientClone.v ===== *)
(** * The life of a client: memcached.cc, array.c and the instances of instance.cc

    [memcached_create], [memcached_clone] and [memcached_free], with the servers that a clone
    gets. What the kernel and the allocator hold ready for a new object is a [Birth]. The
    callbacks [on_clone] and [on_cleanup] are null, as by default; SASL is not compiled in. *)

From stdpp Require Import base list.
From Stdlib Require Import ZArith Ascii String.
From S2P Require Import Prelude CxxString HashWords HashSmall HashKit HashkitString Rijndael Aes Continuum ClientTypes Distribution.
From S2P Require Import ByteOrder ClientString ClientState BinaryProtocol ClientRead ClientWrite ClientConnect ClientOps ClientBehavior.

(** The sizes of structures. *)
Class ClientSizes := { sizeof_memcached_st : Z; sizeof_Instance : Z; sizeof_memcached_array_st : Z }.

(** Where the numbering of memory requests and of readings of the clock goes on in a new object,
    its [errno], what its arrays hold before they are written, and the connections that its
    servers will make. *)
Record Birth := mkBirth {
  born_allocs : nat;
  born_ticks : nat;
  born_errno : errno_t;
  born_buffer : nat -> cstring;
  born_dials : nat -> list dial_event;
}.

Definition set_filename (f : option cstring) (r : Root) : Root :=
  mkRoot (memc r) (query_id r) (is_purging r) (is_processing_input r) (root_errors r) (result r) (allocs r) (ticks r)
    (errno r) f.
Definition with_namespace (m : Memcached) (n : cstring) : Memcached :=
  mkMemcached (flags m) (distribution m) (hashkit m) (servers m) (limits m) (ketama m) (virtual_bucket m) n.

(** ** Instances *)

(** The macros of udp.hpp. *)
Definition UDP_REQUEST_ID_MSG_SIG_DIGITS : Z := 10.
Definition UDP_REQUEST_ID_MAX_THREAD_ID : Z :=
  Z.shiftr (Z.land 0xFFFF UDP_REQUEST_ID_THREAD_MASK) UDP_REQUEST_ID_MSG_SIG_DIGITS.

(** The request, the number of the datagram, how many there are, and two reserved bytes, which
    keep what they held. *)
Definition memcached_io_init_udp_header (thread_id : Z) (buffer : cstring) : cstring :=
  if UDP_REQUEST_ID_MAX_THREAD_ID <? thread_id then buffer else
  octets (le 2 (htons (Z.shiftl thread_id UDP_REQUEST_ID_MSG_SIG_DIGITS mod 65536)) ++ le 2 (htons 0) ++ le 2 (htons 1))
  ++ drop 6 buffer.

(** [_server_init]; the buffers are not written. *)
Definition _server_init (position : nat) (buffer : cstring) (type : memcached_connection_t) (dials : list dial_event) : Inst :=
  mkInst position false (mkSocket [] [] [] []) (mkRead buffer 0 0 0) [] 0 0 MEMCACHED_SERVER_STATE_NEW false 0 0
    (255, 255, 255) 0 (mkDial type None [] dials) [].

Section Life.
Context `{DM : DataModel} `{HC : HashConfig} `{AL : Allocator} `{CF : ClientConfig} `{CK : Clock} `{CC : CipherConfig}.
Context `{BR : BinaryReader} `{TR : Transport} `{SS : SessionSort} `{RB : Rebuilding} `{CS : ClientSizes}.

(** [__instance_create_with] for an element of the client's array, which is never allocated on
    its own. *)
Definition instance_create_with (b : Birth) (hostname : cstring) (port weight : Z) (type : memcached_connection_t)
    : SIO bool :=
  match __instance_create_with hostname port weight with
  | None => let* _ := refuse MEMCACHED_INVALID_ARGUMENTS in ret false
  | Some instance =>
    let* udp := sconf (fun m => use_udp (flags m)) in
    let* n := gets (fun s => List.length (ses_insts s)) in
    let i := _server_init n (born_buffer b n) type (born_dials b n) in
    let i := if udp : bool
             then set_write_buffer (memcached_io_init_udp_header 0 (take (Z.to_nat UDP_DATAGRAM_HEADER_LENGTH) (born_buffer b n))) i
             else i in
    modify (fun s => mkSession (set_memc (with_servers (memc (ses_root s)) (servers (memc (ses_root s)) ++ [instance])) (ses_root s))
                               (ses_insts s ++ [i])) ;;;
    ret true
  end.

Fixpoint create_servers (b : Birth) (hosts : list (Instance_ * Inst)) : SIO bool :=
  match hosts with
  | [] => ret true
  | (h, i) :: hosts =>
    let* ok := instance_create_with b (_hostname h) (port_ h) (weight h) (conn_type (dial i)) in
    if negb ok then ret false else
    (if 1 <? weight h then on_memc (fun m => memcached_set_weighted_ketama m true) else ret tt) ;;;
    create_servers b hosts
  end.

(** [memcached_instance_push]. *)
Definition instance_push (b : Birth) (hosts : list (Instance_ * Inst)) : SIO memcached_return_t :=
  let* original_host_size := sconf memcached_server_count in
  let* granted := at_root (alloc (ulong ((Z.of_nat (List.length hosts) + original_host_size) * sizeof_Instance))) in
  if negb granted then ret MEMCACHED_MEMORY_ALLOCATION_FAILURE else
  let* ok := create_servers b hosts in
  if ok : bool then run_distribution_session else refuse MEMCACHED_MEMORY_ALLOCATION_FAILURE.

Definition memcached_push (b : Birth) (source : Session) : SIO memcached_return_t :=
  instance_push b (zip (servers (memc (ses_root source))) (ses_insts source)).

(** ** Freeing *)

Definition __instance_free : IO unit :=
  memcached_quit_server false ;;;
  on_inst clear_addrinfo ;;;
  let* next := geti (fun i => address_info_next (dial i)) in
  assert_io (bool_decide (next = [])) ;;;
  on_inst (set_errors []).

Fixpoint instances_free (n : nat) (k : Z) : SIO unit :=
  match n with
  | O => ret tt
  | S n => at_instance k __instance_free ;;; instances_free n (k + 1)
  end.

Definition memcached_instance_list_free : SIO unit :=
  let* n := sconf (fun m => List.length (servers m)) in instances_free n 0.

(** The members that are left are the ones of an object that is not allocated. [servers] keeps
    its value. *)
Definition __memcached_free (release_st : bool) : SIO unit :=
  send_quit ;;;
  memcached_instance_list_free ;;;
  on_memc memcached_virtual_bucket_free ;;;
  on_memc (fun m => with_namespace (with_ketama m (mkKetama (weighted_ (ketama m)) (continuum_count (ketama m))
    (continuum_points_counter (ketama m)) (next_distribution_rebuild (ketama m)) [])) []) ;;;
  on_sroot memcached_error_free ;;;
  (if release_st then on_sroot (set_filename None) else ret tt) ;;;
  let* h := sconf hashkit in
  let* h := lift (hashkit_free (Some h)) in
  if h is Some h then on_memc (fun m => with_hashkit m h) else ret tt.

Definition memcached_free : SIO unit := __memcached_free true.

(** ** Creation *)

(** [memcached_create] behind the request for memory; [hashkit_create] and
    [memcached_result_create] get objects that exist. *)
Definition new_session (b : Birth) : Session :=
  mkSession (mkRoot _memcached_init 1 false false [] new_Result (born_allocs b) (born_ticks b) (born_errno b) None) [].

(** [false] is the null pointer; [shell] says whether the object exists. *)
Definition memcached_create (shell : bool) : SIO bool := if shell then ret true else at_root (alloc sizeof_memcached_st).

(** [memcached_reset] on a client; [parse] is [memcached_parse_configure_file]. [_memcached_init]
    clears [configure.filename] before it is looked at. *)
Definition memcached_reset (parse : cstring -> SIO memcached_return_t) : SIO memcached_return_t :=
  let* query := sroot query_id in
  __memcached_free false ;;;
  modify (fun s => new_session (mkBirth (allocs (ses_root s)) (ticks (ses_root s)) (errno (ses_root s)) (fun _ => []) (fun _ => []))) ;;;
  on_sroot (set_query_id query) ;;;
  let* file := sroot filename in
  match file with Some name => parse name | None => ret MEMCACHED_SUCCESS end.

(** ** Cloning *)

(** The empty string is the null pointer. *)
Definition memcached_array_clone (original : cstring) : SIO cstring :=
  if bool_decide (original = []) then ret [] else
  let* granted := at_root (alloc (ulong (sizeof_memcached_array_st + size original + 1))) in
  ret (if granted : bool then original else []).

Definition clone_members (source m : Memcached) : Memcached :=
  with_distribution (with_limits (with_flags m (flags source)) (limits source)) (distribution source).

(** [memcached_clone] on the new object. *)
Definition clone_into (b : Birth) (shell : bool) (source : Session) : SIO bool :=
  let src := memc (ses_root source) in
  let* created := memcached_create shell in
  if negb created then ret false else
  on_memc (clone_members src) ;;;
  let* h := at_root (with_allocs (hashkit_clone true (Some (hashkit src)))) in
  match h with
  | None => memcached_free ;;; ret false
  | Some h =>
    on_memc (fun m => with_hashkit m h) ;;;
    let* rc := (if memcached_server_count src =? 0 then ret MEMCACHED_SUCCESS else memcached_push b source) in
    if memcached_failed rc then ret false else
    let* n := memcached_array_clone (_namespace src) in
    on_memc (fun m => with_namespace m n) ;;;
    let* n := memcached_array_clone (_namespace src) in
    on_sroot (set_filename (if bool_decide (n = []) then None else Some n)) ;;;
    let* rc := run_distribution_session in
    if memcached_failed rc then memcached_free ;;; ret false else ret true
  end.

(** A client as its owner has it, with [configure.version]. *)
Record Handle := mkHandle { session : Session; configure_version : Z }.

(** [memcached_clone(clone, source)]: [clone] is the null pointer or says whether the object was
    allocated. *)
Definition memcached_clone (b : Birth) (clone : option bool) (source : option Handle) : outcome (option Handle) :=
  let finish version (x : outcome bool * Session) :=
    let? ok := fst x in Ret (if ok : bool then Some (mkHandle (snd x) version) else None) in
  let shell := bool_decide (is_Some clone) in
  match source with
  | None => finish (-1) (memcached_create shell (new_session b))
  | Some h =>
    if default false clone then Ret None else
    finish (configure_version h) (clone_into b shell (session h) (new_session b))
  end.

(** The configuration file is never read again. *)
Lemma reset_never_parses parse s : memcached_reset parse s = memcached_reset (fun _ => ret MEMCACHED_FAILURE) s.
Proof.
  unfold memcached_reset, sroot, on_sroot, bind, gets, modify. destruct (__memcached_free false s) as [[[]|e|f] s']; done.
Qed.
End Life.
