(* ===== verification/ClientPool.v ===== *)
(** * A pool of clients: libmemcachedutil/pool.cc

    The pool hands out clones of a master client to threads and takes them back. Pointers to
    clients are numbers, [objects] is what they point to. Every operation holds the mutex from
    its begin to its end, except in [pthread_cond_timedwait]: operations are steps of one
    thread, waiting threads are a part of the state of [World]. *)

From stdpp Require Import base list gmap.
From Stdlib Require Import ZArith Ascii String.
From S2P Require Import Prelude CxxString HashWords HashSmall HashKit HashkitString Rijndael Aes Continuum ClientTypes Distribution.
From S2P Require Import ByteOrder ClientString ClientState BinaryProtocol ClientRead ClientWrite ClientConnect ClientOps ClientBehavior.
From S2P Require Import ClientClone.

(** What each clone is born with. *)
Class Births := { birth : nat -> Birth }.

(** [memcached_pool_st]. An element of [server_pool] that was never written is [None]. [clones]
    counts the calls of [memcached_clone]. *)
Record Pool := mkPool {
  pool_master : Handle;
  server_pool : list (option nat);
  firstfree : Z;
  pool_size : Z;
  current_size : Z;
  _owns_master : bool;
  objects : gmap nat Handle;
  next_object : nat;
  clones : nat;
}.
Abbreviation PIO := (ST Pool).

Definition put_master (h : Handle) (p : Pool) : Pool :=
  mkPool h (server_pool p) (firstfree p) (pool_size p) (current_size p) (_owns_master p) (objects p) (next_object p) (clones p).
Definition put_array (a : list (option nat)) (n : Z) (p : Pool) : Pool :=
  mkPool (pool_master p) a n (pool_size p) (current_size p) (_owns_master p) (objects p) (next_object p) (clones p).
Definition put_current_size (n : Z) (p : Pool) : Pool :=
  mkPool (pool_master p) (server_pool p) (firstfree p) (pool_size p) n (_owns_master p) (objects p) (next_object p) (clones p).
Definition put_owns (b : bool) (p : Pool) : Pool :=
  mkPool (pool_master p) (server_pool p) (firstfree p) (pool_size p) (current_size p) b (objects p) (next_object p) (clones p).
Definition put_objects (o : gmap nat Handle) (p : Pool) : Pool :=
  mkPool (pool_master p) (server_pool p) (firstfree p) (pool_size p) (current_size p) (_owns_master p) o (next_object p) (clones p).
(** A new object; [clones] goes on even when there is none. *)
Definition count_clone (p : Pool) : Pool :=
  mkPool (pool_master p) (server_pool p) (firstfree p) (pool_size p) (current_size p) (_owns_master p) (objects p)
    (next_object p) (S (clones p)).
Definition new_object (h : Handle) (p : Pool) : Pool :=
  mkPool (pool_master p) (server_pool p) (firstfree p) (pool_size p) (current_size p) (_owns_master p)
    (<[next_object p := h]> (objects p)) (S (next_object p)) (clones p).

Definition put_version (v : Z) (h : Handle) : Handle := mkHandle (session h) v.
Definition put_session (s : Session) (h : Handle) : Handle := mkHandle s (configure_version h).

Definition INT_MAX : Z := 2147483647.

(** [memcached_pool_st::version] *)
Definition version (p : Pool) : Z := configure_version (pool_master p).
Definition compare_version (h : Handle) (p : Pool) : bool := configure_version h =? version p.

Section Operations.
Context `{DM : DataModel} `{HC : HashConfig} `{AL : Allocator} `{CF : ClientConfig} `{CK : Clock} `{CC : CipherConfig}.
Context `{BR : BinaryReader} `{TR : Transport} `{SS : SessionSort} `{RB : Rebuilding} `{CS : ClientSizes} `{SZ : SocketSizes}.
Context `{BS : Births}.

(** The object at an address; any other address is a fault. *)
Definition object (o : nat) : PIO Handle := fun p =>
  match objects p !! o with Some h => (Ret h, p) | None => (Stuck Undefined, p) end.
Definition put_object (o : nat) (h : Handle) : PIO unit := modify (fun p => put_objects (<[o := h]> (objects p)) p).

(** A call with a client as its argument. *)
Definition at_object {A} (o : nat) (m : SIO A) : PIO A :=
  let* h := object o in
  let '(x, s) := m (session h) in
  put_object o (put_session s h) ;;; lift x.
Definition at_master {A} (m : SIO A) : PIO A := fun p =>
  let '(x, s) := m (session (pool_master p)) in (x, put_master (put_session s (pool_master p)) p).

(** [memcached_free(o)]: nothing is left of the object. *)
Definition free_object (o : nat) : PIO unit :=
  at_object o memcached_free ;;; modify (fun p => put_objects (delete o (objects p)) p).

(** [memcached_clone(NULL, master)] *)
Definition clone_master : PIO (option nat) :=
  let* p := gets id in
  modify count_clone ;;;
  let* h := lift (memcached_clone (birth (clones p)) None (Some (pool_master p))) in
  match h with
  | None => ret None
  | Some h => modify (new_object h) ;;; ret (Some (next_object p))
  end.

(** [server_pool[++firstfree]= o] *)
Definition push_free (o : nat) : PIO unit := fun p =>
  if (INT_MAX <=? firstfree p) || (Z.of_nat (List.length (server_pool p)) <=? firstfree p + 1) || (firstfree p + 1 <? 0)
  then (Stuck Undefined, p)
  else (Ret tt, put_array (<[Z.to_nat (firstfree p + 1) := Some o]> (server_pool p)) (firstfree p + 1) p).

(** [server_pool[n]] *)
Definition read_free (n : Z) : PIO nat := fun p =>
  match (if n <? 0 then None else server_pool p !! Z.to_nat n) with
  | Some (Some o) => (Ret o, p)
  | _ => (Stuck Undefined, p)
  end.

Definition grow_pool : PIO bool :=
  let* o := clone_master in
  match o with
  | None => ret false
  | Some o =>
    push_free o ;;;
    modify (fun p => put_current_size (u32 (current_size p + 1)) p) ;;;
    let* h := object o in
    let* v := gets version in
    put_object o (put_version v h) ;;; ret true
  end.

(** ** Creation *)

Fixpoint init_loop (n : nat) : PIO unit :=
  match n with
  | O => ret tt
  | S n => let* grown := grow_pool in if grown : bool then init_loop n else ret tt
  end.

(** [memcached_pool_st::init]; [granted] says whether there is memory for the array. *)
Definition init (granted : bool) (initial : Z) : PIO bool :=
  if negb granted then ret false else
  modify (fun p => put_array (replicate (Z.to_nat (pool_size p)) None) (firstfree p) p) ;;;
  init_loop (Z.to_nat initial) ;;; ret true.

(** The constructor; there are no objects but the master yet. *)
Definition new_pool (master : Handle) (max_arg : Z) : Pool := mkPool master [] (-1) (u32 max_arg) 0 false ∅ 0 0.

(** [memory] and [granted]: the memory for the pool and for its array. *)
Definition _pool_create (memory granted : bool) (master : Handle) (initial max : Z) : outcome (option Pool) :=
  if (initial =? 0) || (max =? 0) || (max <? initial) then Ret None else
  if negb memory then Ret None else
  let '(x, p) := init granted initial (new_pool master max) in
  let? ok := x in Ret (if ok : bool then Some p else None).

Definition memcached_pool_create : bool -> bool -> Handle -> Z -> Z -> outcome (option Pool) := _pool_create.

(** [memcached_pool]: the client that the configuration gives, with its pool sizes, is an
    argument. *)
Definition memcached_pool (memory granted : bool) (configured : option (Handle * Z * Z)) : outcome (option Pool) :=
  match configured with
  | None => Ret None
  | Some (memc, initial_pool_size, max_pool_size) =>
    let? self := memcached_pool_create memory granted memc initial_pool_size max_pool_size in
    match self with
    | None => let? _ := fst (memcached_free (session memc)) in Ret None
    | Some p => Ret (Some (put_owns true p))
    end
  end.

(** ** Destruction *)

Fixpoint free_loop (n : nat) (x : Z) : PIO unit :=
  match n with
  | O => ret tt
  | S n => let* o := read_free x in free_object o ;;; free_loop n (x + 1)
  end.

(** The master that the caller gets back, and the objects that are still there: the ones that are
    lent. *)
Definition memcached_pool_destroy (pool : option Pool) : outcome (option Handle * gmap nat Handle) :=
  match pool with
  | None => Ret (None, ∅)
  | Some p =>
    let '(x, p) := (free_loop (Z.to_nat (firstfree p + 1)) 0 ;;;
                    if _owns_master p then at_master memcached_free else ret tt) p in
    let? _ := x in Ret (if _owns_master p then None else Some (pool_master p), objects p)
  end.

(** ** Fetching *)

(** How a call of [fetch] goes on: it returns, or it waits for an object. *)
Inductive fetched := Returns (o : option nat) (rc : memcached_return_t) | Waits.

(** The loop of [fetch] with the mutex held. [blocking] is false for a time of zero. A second
    round follows a successful [grow_pool]. *)
Fixpoint fetch_loop (rounds : nat) (blocking : bool) : PIO fetched :=
  match rounds with
  | O => stuck OutOfFuel
  | S rounds =>
    let* p := gets id in
    if -1 <? firstfree p then
      let* o := read_free (firstfree p) in
      modify (fun p => put_array (server_pool p) (firstfree p - 1) p) ;;;
      ret (Returns (Some o) MEMCACHED_SUCCESS)
    else if current_size p =? pool_size p then
      ret (if blocking then Waits else Returns None MEMCACHED_NOTFOUND)
    else
      let* grown := grow_pool in
      if grown : bool then fetch_loop rounds blocking else ret (Returns None MEMCACHED_SUCCESS)
  end.

(** [memcached_pool_st::fetch]; [lock_error] is what [pthread_mutex_lock] returns. *)
Definition fetch (lock_error blocking : bool) : PIO fetched :=
  if lock_error then ret (Returns None MEMCACHED_IN_PROGRESS) else fetch_loop 2 blocking.

(** After [pthread_cond_timedwait]: an error ends the call, otherwise the loop goes on. *)
Definition fetch_resume (thread_ret : option errno_t) : PIO fetched :=
  match thread_ret with
  | Some ETIMEDOUT => ret (Returns None MEMCACHED_TIMEOUT)
  | Some _ => ret (Returns None MEMCACHED_ERRNO)
  | None => fetch_loop 2 true
  end.

(** The calls for users; no time, or a time that is zero or not. *)
Definition memcached_pool_fetch (lock_error : bool) (relative_time : option bool) : PIO fetched :=
  fetch lock_error (default false relative_time).
Definition memcached_pool_pop (lock_error block : bool) : PIO fetched := fetch lock_error block.

(** ** Releasing *)

(** The return value, [rc], and whether the waiting threads are woken. *)
Definition release (lock_error : bool) (released : option nat) : PIO (bool * memcached_return_t * bool) :=
  match released with
  | None => ret (false, MEMCACHED_INVALID_ARGUMENTS, false)
  | Some released =>
    if lock_error then ret (false, MEMCACHED_IN_PROGRESS, false) else
    let* h := object released in
    let* same := gets (compare_version h) in
    let* released := (if same : bool then ret released else
      let* memc := clone_master in
      match memc with
      | Some memc => free_object released ;;; ret memc
      | None => ret released
      end) in
    push_free released ;;;
    let* p := gets id in
    ret (true, MEMCACHED_SUCCESS, (firstfree p =? 0) && (current_size p =? pool_size p))
  end.

Definition memcached_pool_release (lock_error : bool) (released : option nat) : PIO (memcached_return_t * bool) :=
  let* x := release lock_error released in let '(_, rc, broadcast) := x in ret (rc, broadcast).
Definition memcached_pool_push : bool -> option nat -> PIO (memcached_return_t * bool) := memcached_pool_release.

(** ** Settings *)

(** [++master->configure.version] on an [int32_t]. *)
Definition increment_version : PIO unit := fun p =>
  if INT_MAX <=? version p then (Stuck Undefined, p)
  else (Ret tt, put_master (put_version (version p + 1) (pool_master p)) p).

Definition update_clone (flag : memcached_behavior_t) (data xx : Z) : PIO unit :=
  let* o := read_free xx in
  let* rc := at_object o (memcached_behavior_set flag data) in
  if memcached_success rc then
    let* h := object o in
    let* v := gets version in put_object o (put_version v h)
  else
    let* memc := clone_master in
    match memc with
    | Some memc => free_object o ;;; modify (fun p => put_array (<[Z.to_nat xx := Some memc]> (server_pool p)) (firstfree p) p)
    | None => ret tt
    end.

Fixpoint update_clones (n : nat) (flag : memcached_behavior_t) (data xx : Z) : PIO unit :=
  match n with
  | O => ret tt
  | S n => update_clone flag data xx ;;; update_clones n flag data (xx + 1)
  end.

Definition memcached_pool_behavior_set (lock_error : bool) (flag : memcached_behavior_t) (data : Z) : PIO memcached_return_t :=
  if lock_error then ret MEMCACHED_IN_PROGRESS else
  let* rc := at_master (memcached_behavior_set flag data) in
  if memcached_failed rc then ret rc else
  increment_version ;;;
  let* n := gets firstfree in
  update_clones (Z.to_nat (n + 1)) flag data 0 ;;;
  ret rc.

Definition memcached_pool_behavior_get (lock_error : bool) (flag : memcached_behavior_t) : PIO (memcached_return_t * option Z) :=
  if lock_error then ret (MEMCACHED_IN_PROGRESS, None) else
  let* value := at_master (memcached_behavior_get flag) in ret (MEMCACHED_SUCCESS, Some value).

(** ** Threads *)

(** [lent] are the objects that threads have fetched and not released, [asleep] the threads in
    [pthread_cond_timedwait], [awake] the ones that were woken and have not got the mutex yet. *)
Record World := mkWorld { pool : Pool; lent : list nat; asleep : list nat; awake : list nat }.

Inductive action :=
  | AFetch (t : nat) (lock_error blocking : bool)
  | AResume (t : nat)
  | ASpurious (t : nat)
  | AGiveUp (t : nat) (e : errno_t)
  | ARelease (o : nat)
  | ASet (flag : memcached_behavior_t) (data : Z)
  | AGet (flag : memcached_behavior_t)
  | AUse (o : nat) (calls : SIO unit).

(** What a thread has got after [fetch] has ended or started to wait. *)
Definition after_fetch (t : nat) (x : fetched) (p : Pool) (w : World) : World :=
  match x with
  | Returns (Some o) _ => mkWorld p (o :: lent w) (asleep w) (awake w)
  | Returns None _ => mkWorld p (lent w) (asleep w) (awake w)
  | Waits => mkWorld p (lent w) (t :: asleep w) (awake w)
  end.

Definition without (t : nat) (l : list nat) : list nat := filter (fun x => x <> t) l.

(** A step of a thread; [None] when the thread cannot take it, or when it does not end. A thread
    that is in [fetch] does nothing else; only objects that are lent are released or used. *)
Definition perform (a : action) (w : World) : option World :=
  let p := pool w in
  match a with
  | AFetch t lock_error blocking =>
    if decide (t ∈ asleep w ++ awake w) then None else
    match fetch lock_error blocking p with (Ret x, p') => Some (after_fetch t x p' w) | _ => None end
  | AResume t =>
    if decide (t ∈ awake w) then
      match fetch_resume None p with
      | (Ret x, p') => Some (after_fetch t x p' (mkWorld p (lent w) (asleep w) (without t (awake w))))
      | _ => None
      end
    else None
  | ASpurious t =>
    if decide (t ∈ asleep w) then Some (mkWorld p (lent w) (without t (asleep w)) (t :: awake w)) else None
  | AGiveUp t e =>
    if decide (t ∈ asleep w) then
      match fetch_resume (Some e) p with
      | (Ret x, p') => Some (after_fetch t x p' (mkWorld p (lent w) (without t (asleep w)) (awake w)))
      | _ => None
      end
    else None
  | ARelease o =>
    if decide (o ∈ lent w) then
      match release false (Some o) p with
      | (Ret (_, _, broadcast), p') =>
        Some (if broadcast : bool then mkWorld p' (without o (lent w)) [] (asleep w ++ awake w)
              else mkWorld p' (without o (lent w)) (asleep w) (awake w))
      | _ => None
      end
    else None
  | ASet flag data =>
    match memcached_pool_behavior_set false flag data p with
    | (Ret _, p') => Some (mkWorld p' (lent w) (asleep w) (awake w)) | _ => None end
  | AGet flag =>
    match memcached_pool_behavior_get false flag p with
    | (Ret _, p') => Some (mkWorld p' (lent w) (asleep w) (awake w)) | _ => None end
  | AUse o calls =>
    if decide (o ∈ lent w) then
      match at_object o calls p with
      | (Ret _, p') => Some (mkWorld p' (lent w) (asleep w) (awake w)) | _ => None end
    else None
  end.

Fixpoint run_threads (l : list action) (w : World) : option World :=
  match l with
  | [] => Some w
  | a :: l => match perform a w with Some w' => run_threads l w' | None => None end
  end.

Definition new_world (p : Pool) : World := mkWorld p [] [] [].
End Operations.
