(* ===== verification/ClientPoolSpec.v ===== *)
(** * The connection pool: what its operations do, and its invariant

    One equation per operation, then the invariant: no client is in two places, none is lost, the
    array is never left, and no thread sleeps while there is something to fetch. *)

From stdpp Require Import base list gmap.
From Stdlib Require Import ZArith Lia Ascii String.
From S2P Require Import Prelude CxxString HashWords HashSmall HashKit HashkitString Rijndael Aes Continuum ClientTypes Distribution.
From S2P Require Import ByteOrder ClientString ClientState BinaryProtocol ClientRead ClientWrite ClientConnect ClientOps ClientBehavior.
From S2P Require Import ClientClone ClientPool.

Create HintDb pool.

(** ** The invariant of a pool *)

(** [fs] are the free objects, from the first to [firstfree], [ls] all other objects. *)
Record pool_inv (fs ls : list nat) (p : Pool) : Prop := {
  pi_size : Z.of_nat (List.length (server_pool p)) = pool_size p;
  pi_int : pool_size p <= INT_MAX + 1;
  pi_first : firstfree p = Z.of_nat (List.length fs) - 1;
  pi_free : forall i o, fs !! i = Some o -> server_pool p !! i = Some (Some o);
  pi_nodup : NoDup (fs ++ ls);
  pi_dom : forall o, is_Some (objects p !! o) <-> o ∈ fs ++ ls;
  pi_next : forall o, o ∈ fs ++ ls -> (o < next_object p)%nat;
}.

Lemma inv_room fs ls p : pool_inv fs ls p -> (List.length fs <= List.length (server_pool p))%nat.
Proof.
  intros H. destruct (decide (fs = [])) as [->|Hne]; [cbn; lia|].
  destruct (lookup_lt_is_Some_2 fs (List.length fs - 1)) as [o Ho].
  { destruct fs; [done|cbn; lia]. }
  apply (pi_free _ _ _ H), lookup_lt_Some in Ho. lia.
Qed.

Lemma inv_perm fs ls ls' p : ls ≡ₚ ls' -> pool_inv fs ls p -> pool_inv fs ls' p.
Proof.
  intros Hp []. split; try done; intros; rewrite <- ?Hp; auto. rewrite <- Hp in *. auto.
Qed.

(** Changes of single members. *)

Lemma inv_count fs ls p : pool_inv fs ls p -> pool_inv fs ls (count_clone p).
Proof. intros []. by split. Qed.
Lemma inv_master fs ls h p : pool_inv fs ls p -> pool_inv fs ls (put_master h p).
Proof. intros []. by split. Qed.
Lemma inv_current fs ls n p : pool_inv fs ls p -> pool_inv fs ls (put_current_size n p).
Proof. intros []. by split. Qed.

Lemma inv_insert fs ls o h h0 p : pool_inv fs ls p -> objects p !! o = Some h0 ->
  pool_inv fs ls (put_objects (<[o := h]> (objects p)) p).
Proof.
  intros [] Ho. split; try done. cbn. intros x. rewrite <- pi_dom0. destruct (decide (x = o)) as [->|].
  - rewrite lookup_insert_eq, Ho. by split.
  - by rewrite lookup_insert_ne.
Qed.

Lemma inv_delete fs ls o p : pool_inv fs (o :: ls) p -> pool_inv fs ls (put_objects (delete o (objects p)) p).
Proof.
  intros []. rewrite <- Permutation_middle in pi_nodup0. apply NoDup_cons in pi_nodup0 as [Hn Hd].
  split; try done; cbn.
  - intros x. destruct (decide (x = o)) as [->|].
    + rewrite lookup_delete_eq. split; [by intros []|done].
    + rewrite lookup_delete_ne, pi_dom0 by done. rewrite <- Permutation_middle, elem_of_cons. naive_solver.
  - intros x Hx. apply pi_next0. rewrite <- Permutation_middle. by right.
Qed.

Lemma inv_new fs ls h p : pool_inv fs ls p -> pool_inv fs (next_object p :: ls) (new_object h p).
Proof.
  intros []. assert (next_object p ∉ fs ++ ls) as Hfresh by (intros Hin; apply pi_next0 in Hin; lia).
  split; try done; cbn.
  - rewrite <- Permutation_middle. by constructor.
  - intros x. rewrite <- Permutation_middle, elem_of_cons. destruct (decide (x = next_object p)) as [->|].
    + rewrite lookup_insert_eq. naive_solver.
    + rewrite lookup_insert_ne, pi_dom0 by done. naive_solver.
  - intros x. rewrite <- Permutation_middle, elem_of_cons. intros [->|Hx]; [lia|]. apply pi_next0 in Hx. lia.
Qed.

Lemma inv_push fs ls o p : pool_inv fs (o :: ls) p -> (List.length fs < List.length (server_pool p))%nat ->
  pool_inv (fs ++ [o]) ls (put_array (<[Z.to_nat (firstfree p + 1) := Some o]> (server_pool p)) (firstfree p + 1) p).
Proof.
  intros [] Hroom. assert (Z.to_nat (firstfree p + 1) = List.length fs) as Hat by lia.
  assert (forall x, x ∈ (fs ++ [o]) ++ ls <-> x ∈ fs ++ o :: ls) as Hel by (intros x; by rewrite <- (assoc_L (++))).
  split; cbn; rewrite ?length_insert, ?length_app; cbn; try done.
  - lia.
  - rewrite Hat. intros i x Hx. apply lookup_app_Some in Hx as [Hx|[Hge Hx]].
    + rewrite list_lookup_insert_ne by (apply lookup_lt_Some in Hx; lia). by apply pi_free0.
    + apply list_lookup_singleton_Some in Hx as [Hi <-]. replace i with (List.length fs) by lia.
      by apply list_lookup_insert_eq.
  - by rewrite <- (assoc_L (++)).
  - intros x. by rewrite pi_dom0, Hel.
  - intros x Hx. by apply pi_next0, Hel.
Qed.

Lemma inv_pop fs ls o p : pool_inv (fs ++ [o]) ls p -> pool_inv fs (o :: ls) (put_array (server_pool p) (firstfree p - 1) p).
Proof.
  intros []. rewrite length_app in pi_first0. cbn in pi_first0. rewrite <- (assoc_L (++)) in *. split; cbn; try done.
  - lia.
  - intros i x Hx. apply pi_free0. by apply lookup_app_l_Some.
Qed.

(** A free object gives its place to another. *)
Lemma inv_swap fs1 fs2 ls o n p : pool_inv (fs1 ++ o :: fs2) (n :: ls) p ->
  pool_inv (fs1 ++ n :: fs2) (o :: ls) (put_array (<[List.length fs1 := Some n]> (server_pool p)) (firstfree p) p).
Proof.
  intros []. assert ((fs1 ++ n :: fs2) ++ o :: ls ≡ₚ (fs1 ++ o :: fs2) ++ n :: ls) as Hp by solve_Permutation.
  assert (List.length fs1 < List.length (server_pool p))%nat as Hlt.
  { specialize (pi_free0 (List.length fs1) o). rewrite list_lookup_middle in pi_free0 by done.
    by eapply lookup_lt_Some, pi_free0. }
  split; cbn; rewrite ?length_insert; try done.
  - by rewrite pi_first0, !length_app.
  - intros i x. destruct (decide (i = List.length fs1)) as [->|Hi].
    + rewrite list_lookup_middle by done. intros [= ->]. by apply list_lookup_insert_eq.
    + rewrite list_lookup_insert_ne by done. intros Hx. apply pi_free0. revert Hx. rewrite !lookup_app.
      destruct (fs1 !! i) eqn:E; [done|]. apply lookup_ge_None in E.
      destruct (i - List.length fs1)%nat eqn:Ei; [lia|done].
  - by rewrite Hp.
  - intros x. by rewrite Hp.
  - intros x. rewrite Hp. apply pi_next0.
Qed.
#[export] Hint Resolve inv_count inv_master inv_current inv_insert inv_delete inv_new : pool.

(** ** One equation per operation *)

Section Equations.
Context `{DM : DataModel} `{HC : HashConfig} `{AL : Allocator} `{CF : ClientConfig} `{CK : Clock} `{CC : CipherConfig}.
Context `{BR : BinaryReader} `{TR : Transport} `{SS : SessionSort} `{RB : Rebuilding} `{CS : ClientSizes} `{SZ : SocketSizes}.
Context `{BS : Births}.

(** A sequence that returns. *)
Lemma bind_returns {S A B} (m : ST S A) (k : A -> ST S B) s b s' :
  bind m k s = (Ret b, s') -> exists a s1, m s = (Ret a, s1) /\ k a s1 = (Ret b, s').
Proof. unfold bind. destruct (m s) as [[a|e|f] s1]; [|done..]. by exists a, s1. Qed.

Lemma object_spec o p h p' : object o p = (Ret h, p') -> objects p !! o = Some h /\ p' = p.
Proof. unfold object. destruct (objects p !! o); by intros [= <- <-]. Qed.

Lemma at_object_spec {A} o (m : SIO A) p a p' : at_object o m p = (Ret a, p') ->
  exists h s, objects p !! o = Some h /\ m (session h) = (Ret a, s)
    /\ p' = put_objects (<[o := put_session s h]> (objects p)) p.
Proof.
  intros E. apply bind_returns in E as (h & p1 & [Ho ->]%object_spec & E).
  destruct (m (session h)) as [x s] eqn:Em. unfold bind, put_object, modify, lift in E.
  injection E as -> <-. by exists h, s.
Qed.

Lemma free_object_spec o p p' : free_object o p = (Ret tt, p') ->
  is_Some (objects p !! o) /\ p' = put_objects (delete o (objects p)) p.
Proof.
  intros E. apply bind_returns in E as ([] & p1 & (h & s & Ho & _ & ->)%at_object_spec & E).
  unfold modify in E. injection E as <-. split; [by exists h|]. cbn. by rewrite delete_insert_eq.
Qed.

Lemma clone_master_spec p x p' : clone_master p = (Ret x, p') ->
  (x = None /\ p' = count_clone p)
  \/ exists h, memcached_clone (birth (clones p)) None (Some (pool_master p)) = Ret (Some h)
      /\ x = Some (next_object p) /\ p' = new_object h (count_clone p).
Proof.
  unfold clone_master, bind, gets, modify, lift. cbn [id].
  destruct (memcached_clone _ _ _) as [[h|]|e|f]; [|by intros [= <- <-]; left|done..].
  intros [= <- <-]. right. by exists h.
Qed.

Lemma push_free_spec o p p' : push_free o p = (Ret tt, p') ->
  firstfree p + 1 < Z.of_nat (List.length (server_pool p))
  /\ p' = put_array (<[Z.to_nat (firstfree p + 1) := Some o]> (server_pool p)) (firstfree p + 1) p.
Proof.
  unfold push_free. destruct (_ || _ || _) eqn:E; [done|]. intros [= <-]. split; [|done].
  apply orb_false_elim in E as [[_ E%Z.leb_gt]%orb_false_elim _]. done.
Qed.

(** The array is never left. *)
Lemma push_free_ok fs o ls p : pool_inv fs (o :: ls) p -> (List.length fs < List.length (server_pool p))%nat ->
  exists p', push_free o p = (Ret tt, p').
Proof.
  intros [] Hroom. unfold push_free. destruct (_ || _ || _) eqn:E; [exfalso|by eexists].
  rewrite !orb_true_iff, !Z.leb_le, Z.ltb_lt in E. lia.
Qed.

Lemma read_free_spec n p o p' : read_free n p = (Ret o, p') ->
  0 <= n /\ server_pool p !! Z.to_nat n = Some (Some o) /\ p' = p.
Proof.
  unfold read_free. destruct (Z.ltb_spec n 0); [done|]. destruct (_ !! _) as [[x|]|]; [|done..]. by intros [= <- <-].
Qed.

(** What [grow_pool] leaves when it has got a clone. *)
Definition grown (h : Handle) (p : Pool) : Pool :=
  let p := new_object h (count_clone p) in
  let o := (next_object p - 1)%nat in
  let p := put_array (<[Z.to_nat (firstfree p + 1) := Some o]> (server_pool p)) (firstfree p + 1) p in
  let p := put_current_size (u32 (current_size p + 1)) p in
  put_objects (<[o := put_version (version p) h]> (objects p)) p.

Lemma grow_pool_spec p b p' : grow_pool p = (Ret b, p') ->
  (b = false /\ p' = count_clone p)
  \/ exists h, memcached_clone (birth (clones p)) None (Some (pool_master p)) = Ret (Some h)
      /\ firstfree p + 1 < Z.of_nat (List.length (server_pool p)) /\ b = true /\ p' = grown h p.
Proof.
  intros E. apply bind_returns in E as (x & p1 & Hc & E).
  apply clone_master_spec in Hc as [[-> ->]|(h & Hc & -> & ->)]; [injection E as <- <-; by left|].
  right. exists h. apply bind_returns in E as ([] & p2 & [Hroom ->]%push_free_spec & E).
  split; [done|]. split; [exact Hroom|].
  unfold bind at 1, modify in E. apply bind_returns in E as (h1 & p3 & [Ho ->]%object_spec & E).
  cbn in Ho. rewrite lookup_insert_eq in Ho. injection Ho as <-.
  unfold bind, gets, put_object, modify, ret in E. injection E as <- <-. split; [done|].
  unfold grown. cbn [next_object new_object count_clone]. by rewrite Nat.sub_succ, Nat.sub_0_r.
Qed.

Lemma inv_grown fs ls h p : pool_inv fs ls p -> (List.length fs < List.length (server_pool p))%nat ->
  pool_inv (fs ++ [next_object p]) ls (grown h p).
Proof.
  intros H Hroom. unfold grown. cbn [next_object new_object count_clone]. rewrite Nat.sub_succ, Nat.sub_0_r.
  eapply inv_insert; [apply inv_current|cbn; by rewrite lookup_insert_eq].
  apply inv_push; [|done]. apply (inv_new _ _ _ (count_clone p)). by apply inv_count.
Qed.

(** ** Fetching *)

(** The free objects [fs], the lent ones [ls], and their number. *)
Definition counted (fs ls : list nat) (p : Pool) : Prop :=
  pool_inv fs ls p /\ current_size p = Z.of_nat (List.length fs + List.length ls) /\ current_size p <= pool_size p.

Lemma read_last fs o ls p : pool_inv (fs ++ [o]) ls p -> read_free (firstfree p) p = (Ret o, p).
Proof.
  intros []. rewrite length_app in pi_first0. cbn in pi_first0. unfold read_free.
  destruct (Z.ltb_spec (firstfree p) 0); [lia|]. rewrite (pi_free0 (Z.to_nat (firstfree p)) o); [done|].
  replace (Z.to_nat _) with (List.length fs) by lia. by apply list_lookup_middle.
Qed.

Definition popped (p : Pool) : Pool := put_array (server_pool p) (firstfree p - 1) p.

(** One round of the loop. *)
Lemma fetch_round n b p : fetch_loop (S n) b p =
  if -1 <? firstfree p then
    (let* o := read_free (firstfree p) in
     modify popped ;;; ret (Returns (Some o) MEMCACHED_SUCCESS)) p
  else if current_size p =? pool_size p then (Ret (if b then Waits else Returns None MEMCACHED_NOTFOUND), p)
  else (let* grown := grow_pool in
        if grown : bool then fetch_loop n b else ret (Returns None MEMCACHED_SUCCESS)) p.
Proof. cbn [fetch_loop]. unfold bind at 1, gets. cbn [id]. destruct (-1 <? firstfree p); [done|]. by destruct (current_size p =? pool_size p). Qed.

(** A free object is there: the last one is taken. *)
Lemma fetch_free fs o ls n b p : pool_inv (fs ++ [o]) ls p ->
  fetch_loop (S n) b p = (Ret (Returns (Some o) MEMCACHED_SUCCESS), popped p).
Proof.
  intros H. cbn [fetch_loop]. unfold bind at 1, gets. cbn [id].
  assert ((-1 <? firstfree p) = true) as ->.
  { destruct H. rewrite length_app in pi_first0. apply Z.ltb_lt. cbn in pi_first0. lia. }
  unfold bind at 1. by rewrite (read_last _ _ _ _ H).
Qed.

(** No object is free and no more may be made. *)
Lemma fetch_full ls n b p : pool_inv [] ls p -> current_size p = pool_size p ->
  fetch_loop (S n) b p = (Ret (if b then Waits else Returns None MEMCACHED_NOTFOUND), p).
Proof.
  intros [] Hfull. cbn [fetch_loop]. unfold bind at 1, gets. cbn [id].
  rewrite pi_first0, Hfull, Z.eqb_refl. done.
Qed.

Lemma empty_room ls p : pool_inv [] ls p -> 0 < pool_size p -> (List.length (@nil nat) < List.length (server_pool p))%nat.
Proof. intros [] ?. cbn. lia. Qed.

Lemma grow_pool_run ls p x : pool_inv [] ls p -> 0 < pool_size p ->
  memcached_clone (birth (clones p)) None (Some (pool_master p)) = Ret x ->
  grow_pool p = match x with Some h => (Ret true, grown h p) | None => (Ret false, count_clone p) end.
Proof.
  intros H Hpos Hc. unfold grow_pool, bind at 1, clone_master. unfold bind at 1, gets. cbn [id].
  unfold bind at 1, modify. unfold bind at 1, lift. rewrite Hc. destruct x as [h|]; [|done].
  unfold bind at 1, modify, ret. unfold bind at 1.
  destruct (push_free_ok [] (next_object p) ls (new_object h (count_clone p))) as [p' Hp].
  { apply (inv_new _ _ _ (count_clone p)). by apply inv_count. }
  { exact (empty_room _ _ H Hpos). }
  rewrite Hp. apply push_free_spec in Hp as [_ ->].
  unfold bind at 1. unfold bind at 1, object. cbn [objects put_current_size put_array new_object].
  rewrite lookup_insert_eq. unfold grown. cbn [next_object new_object count_clone]. by rewrite Nat.sub_succ, Nat.sub_0_r.
Qed.

(** No object is free and there is room: a clone is made and taken. *)
Lemma fetch_grow ls n b p : pool_inv [] ls p -> 0 < pool_size p -> current_size p <> pool_size p ->
  fetch_loop (S (S n)) b p =
  match memcached_clone (birth (clones p)) None (Some (pool_master p)) with
  | Ret (Some h) => (Ret (Returns (Some (next_object p)) MEMCACHED_SUCCESS), popped (grown h p))
  | Ret None => (Ret (Returns None MEMCACHED_SUCCESS), count_clone p)
  | Throw e => (Throw e, count_clone p)
  | Stuck f => (Stuck f, count_clone p)
  end.
Proof.
  intros H Hpos Hroom. rewrite fetch_round, (pi_first _ _ _ H). change (-1 <? _) with false. cbv iota.
  destruct (Z.eqb_spec (current_size p) (pool_size p)) as [?|_]; [done|].
  destruct (memcached_clone _ _ _) as [x|e|f] eqn:Hc.
  - unfold bind at 1. rewrite (grow_pool_run ls p x H Hpos Hc). destruct x as [h|]; [|done].
    apply (fetch_free [] _ ls), (inv_grown [] ls h p H). by eapply empty_room.
  - unfold bind at 1, grow_pool, bind at 1, clone_master, bind at 1, gets. cbn [id]. unfold bind at 1, modify, bind at 1, lift.
    by rewrite Hc.
  - unfold bind at 1, grow_pool, bind at 1, clone_master, bind at 1, gets. cbn [id]. unfold bind at 1, modify, bind at 1, lift.
    by rewrite Hc.
Qed.

Lemma u32_next n : 0 <= n < INT_MAX + 1 -> u32 (n + 1) = n + 1.
Proof. unfold INT_MAX, u32, UINT_MOD. intros. apply Z.mod_small. lia. Qed.

Lemma counted_grown fs ls h p : counted fs ls p -> current_size p <> pool_size p ->
  counted (fs ++ [next_object p]) ls (grown h p).
Proof.
  intros (H & Hn & Hle) Hne. pose proof (pi_size _ _ _ H) as Hs. pose proof (pi_int _ _ _ H) as Hi. split; [|cbn].
  - apply (inv_grown fs ls h p H). lia.
  - rewrite u32_next by lia. rewrite length_app. cbn. lia.
Qed.

Lemma counted_popped fs o ls p : counted (fs ++ [o]) ls p -> counted fs (o :: ls) (popped p).
Proof. intros (H & Hn & Hle). split; [by apply inv_pop|]. rewrite length_app in Hn. cbn in *. lia. Qed.

Lemma counted_count fs ls p : counted fs ls p -> counted fs ls (count_clone p).
Proof. intros (H & ?). split; [by apply inv_count|done]. Qed.

(** What [fetch] returns and leaves. *)
Lemma fetch_spec fs ls b p x p' : counted fs ls p -> 0 < pool_size p -> fetch_loop 2 b p = (Ret x, p') ->
  match x with
  | Returns (Some o) rc => exists fs', rc = MEMCACHED_SUCCESS /\ counted fs' (o :: ls) p'
      /\ ((fs = fs' ++ [o] /\ p' = popped p) \/ (fs = [] /\ fs' = [] /\ o = next_object p /\ exists h,
        memcached_clone (birth (clones p)) None (Some (pool_master p)) = Ret (Some h) /\ p' = popped (grown h p)))
  | Returns None _ => fs = [] /\ (p' = p \/ p' = count_clone p)
  | Waits => fs = [] /\ p' = p /\ current_size p = pool_size p
  end.
Proof.
  intros Hc Hpos. destruct fs as [|o fs _] using rev_ind.
  - destruct (decide (current_size p = pool_size p)) as [Hfull|Hroom].
    + rewrite (fetch_full ls) by (done || apply Hc). intros [= <- <-]. destruct b; [done|]. split; [done|by left].
    + rewrite (fetch_grow ls) by (done || apply Hc). destruct (memcached_clone _ _ _) as [[h|]|e|f] eqn:Hh; [|..|done|done].
      * intros [= <- <-]. exists []. split; [done|]. split; [|right; eauto 10].
        by apply (counted_popped [] _ ls), (counted_grown []).
      * intros [= <- <-]. split; [done|by right].
  - rewrite (fetch_free fs o ls) by apply Hc. intros [= <- <-]. exists fs. split; [done|]. split; [by apply counted_popped|by left].
Qed.

(** ** Releasing *)

Definition pushed (o : nat) (p : Pool) : Pool :=
  put_array (<[Z.to_nat (firstfree p + 1) := Some o]> (server_pool p)) (firstfree p + 1) p.

(** The object that is put into the pool, and the pool before that. *)
Definition kept (o : nat) (p : Pool) (n : nat) (p1 : Pool) : Prop :=
  (exists h, objects p !! o = Some h /\ compare_version h p = true /\ n = o /\ p1 = p)
  \/ (n = o /\ p1 = count_clone p)
  \/ (exists h, memcached_clone (birth (clones p)) None (Some (pool_master p)) = Ret (Some h) /\ n = next_object p
      /\ p1 = put_objects (delete o (objects (new_object h (count_clone p)))) (new_object h (count_clone p))).

Lemma release_spec o p x p' : release false (Some o) p = (Ret x, p') ->
  exists n p1, kept o p n p1 /\ p' = pushed n p1
    /\ x = (true, MEMCACHED_SUCCESS, (firstfree p' =? 0) && (current_size p' =? pool_size p')).
Proof.
  intros E. apply bind_returns in E as (h & p1 & [Ho ->]%object_spec & E).
  unfold bind at 1, gets in E. apply bind_returns in E as (n & p1 & Hkept & E).
  exists n, p1. split.
  - destruct (compare_version h p) eqn:Hv; [injection Hkept as <- <-; left; by exists h|]. right.
    apply bind_returns in Hkept as (c & p2 & Hc & Hkept).
    apply clone_master_spec in Hc as [[-> ->]|(h' & Hc & -> & ->)]; [injection Hkept as <- <-; by left|].
    apply bind_returns in Hkept as ([] & p3 & [_ ->]%free_object_spec & Hkept). injection Hkept as <- <-.
    right. by exists h'.
  - apply bind_returns in E as ([] & p2 & [_ ->]%push_free_spec & E).
    unfold bind, gets, ret in E. cbn [id] in E. injection E as <- <-. done.
Qed.

(** A clone takes the place of the object, or the object stays. *)
Lemma inv_kept fs ls o p n p1 : pool_inv fs (o :: ls) p -> kept o p n p1 ->
  pool_inv fs (n :: ls) p1 /\ current_size p1 = current_size p /\ pool_size p1 = pool_size p
  /\ server_pool p1 = server_pool p.
Proof.
  intros H [(h & _ & _ & -> & ->)|[[-> ->]|(h & _ & -> & ->)]]; [done|by split; [apply inv_count|]|].
  split; [|done]. apply inv_delete. eapply inv_perm; [apply Permutation_swap|].
  apply (inv_new _ _ _ (count_clone p)). by apply inv_count.
Qed.

Lemma counted_release fs ls o p n p1 : counted fs (o :: ls) p -> kept o p n p1 -> counted (fs ++ [n]) ls (pushed n p1).
Proof.
  intros (H & Hn & Hle) Hk. destruct (inv_kept _ _ _ _ _ _ H Hk) as (H1 & Hc & Hs & Ha). cbn in Hn.
  split; [|cbn; rewrite length_app, Hc, Hs; cbn; lia].
  apply inv_push; [done|]. rewrite Ha. destruct H. lia.
Qed.

(** ** Settings *)

(** What one step of the loop does to a free object. *)
Lemma update_clone_spec fs1 o fs2 ls flag data p p' : pool_inv (fs1 ++ o :: fs2) ls p ->
  update_clone flag data (Z.of_nat (List.length fs1)) p = (Ret tt, p') ->
  exists h rc s, objects p !! o = Some h /\ memcached_behavior_set flag data (session h) = (Ret rc, s) /\
    let p1 := put_objects (<[o := put_session s h]> (objects p)) p in
    (memcached_success rc = true /\ p' = put_objects (<[o := mkHandle s (version p)]> (objects p)) p)
    \/ (memcached_success rc = false /\ p' = count_clone p1)
    \/ (memcached_success rc = false /\ exists h', memcached_clone (birth (clones p)) None (Some (pool_master p)) = Ret (Some h')
        /\ let p2 := new_object h' (count_clone p1) in
           let p3 := put_objects (delete o (objects p2)) p2 in
           p' = put_array (<[List.length fs1 := Some (next_object p)]> (server_pool p3)) (firstfree p3) p3).
Proof.
  intros H E. apply bind_returns in E as (o' & p1 & (_ & Ho & ->)%read_free_spec & E).
  rewrite Nat2Z.id, (pi_free _ _ _ H _ o) in Ho by (by apply list_lookup_middle). injection Ho as <-.
  apply bind_returns in E as (rc & p1 & (h & s & Ho & Hs & ->)%at_object_spec & E).
  exists h, rc, s. split; [done|]. split; [done|]. destruct (memcached_success rc).
  - left. split; [done|]. apply bind_returns in E as (h1 & p1 & [Ho1 ->]%object_spec & E).
    cbn in Ho1. rewrite lookup_insert_eq in Ho1. injection Ho1 as <-.
    unfold bind, gets, put_object, modify in E. injection E as <-. cbn. by rewrite insert_insert_eq.
  - right. apply bind_returns in E as (c & p2 & Hc & E).
    apply clone_master_spec in Hc as [[-> ->]|(h' & Hc & -> & ->)]; [injection E as <-; by left|]. right.
    apply bind_returns in E as ([] & p3 & [_ ->]%free_object_spec & E). unfold modify in E. injection E as <-.
    split; [done|]. exists h'. split; [done|]. by rewrite Nat2Z.id.
Qed.

Lemma counted_update fs1 o fs2 ls flag data p p' : counted (fs1 ++ o :: fs2) ls p ->
  update_clone flag data (Z.of_nat (List.length fs1)) p = (Ret tt, p') ->
  exists o', counted (fs1 ++ o' :: fs2) ls p' /\ pool_size p' = pool_size p /\ firstfree p' = firstfree p
    /\ current_size p' = current_size p /\ pool_master p' = pool_master p.
Proof.
  intros (H & Hn & Hle) E. destruct (update_clone_spec _ _ _ _ _ _ _ _ H E) as (h & rc & s & Ho & _ & Hcase).
  rewrite length_app in Hn. cbn in Hn.
  destruct Hcase as [[_ ->]|[[_ ->]|(_ & h' & _ & ->)]].
  - exists o. split; [|done]. split; [by eapply inv_insert|]. rewrite length_app. done.
  - exists o. split; [|done]. split; [by eapply inv_count, inv_insert|]. rewrite length_app. done.
  - exists (next_object p). split; [|done]. split; [|rewrite length_app; done]. cbn [firstfree put_objects].
    set (p2 := new_object h' _).
    assert (pool_inv (fs1 ++ o :: fs2) (next_object p :: ls) p2) as H2.
    { apply (inv_new _ _ _ (count_clone (put_objects (<[o := put_session s h]> (objects p)) p))). by eapply inv_count, inv_insert. }
    apply inv_swap, inv_delete in H2. exact H2.
Qed.

Lemma counted_updates flag data ls n : forall fs1 fs2 p p', List.length fs2 = n -> counted (fs1 ++ fs2) ls p ->
  update_clones n flag data (Z.of_nat (List.length fs1)) p = (Ret tt, p') ->
  exists fs, List.length fs = n /\ counted (fs1 ++ fs) ls p' /\ pool_size p' = pool_size p /\ current_size p' = current_size p
    /\ pool_master p' = pool_master p.
Proof.
  induction n as [|n IH]; intros fs1 fs2 p p' Hlen Hc E; cbn [update_clones] in E.
  - destruct fs2; [|done]. injection E as <-. by exists [].
  - destruct fs2 as [|o fs2]; [done|]. injection Hlen as Hlen. apply bind_returns in E as ([] & p1 & E1 & E).
    destruct (counted_update _ _ _ _ _ _ _ _ Hc E1) as (o' & Hc1 & Hs & _ & Hn & Hm).
    replace (Z.of_nat (List.length fs1) + 1) with (Z.of_nat (List.length (fs1 ++ [o']))) in E by (rewrite length_app; cbn; lia).
    rewrite cons_middle, (assoc_L (++)) in Hc1. destruct (IH _ _ _ _ Hlen Hc1 E) as (fs & Hf & Hc' & Hs' & Hn' & Hm').
    exists (o' :: fs). cbn [List.length]. rewrite Hf, cons_middle, (assoc_L (++)). repeat split; try apply Hc'; congruence.
Qed.

Lemma at_master_spec {A} (m : SIO A) p a p' : at_master m p = (Ret a, p') ->
  exists s, m (session (pool_master p)) = (Ret a, s) /\ p' = put_master (put_session s (pool_master p)) p.
Proof. unfold at_master. destruct (m _) as [x s]. intros [= -> <-]. by exists s. Qed.

Lemma increment_version_spec p p' : increment_version p = (Ret tt, p') ->
  p' = put_master (put_version (version p + 1) (pool_master p)) p.
Proof. unfold increment_version. destruct (_ <=? _); by intros [= <-]. Qed.

(** The pool after the master has been set. *)
Definition master_set (s : Session) (p : Pool) : Pool := put_master (mkHandle s (version p + 1)) p.

Lemma behavior_set_spec flag data p x p' : memcached_pool_behavior_set false flag data p = (Ret x, p') ->
  exists s, memcached_behavior_set flag data (session (pool_master p)) = (Ret x, s)
    /\ ((memcached_failed x = true /\ p' = put_master (put_session s (pool_master p)) p)
        \/ (memcached_failed x = false
            /\ update_clones (Z.to_nat (firstfree p + 1)) flag data 0 (master_set s p) = (Ret tt, p'))).
Proof.
  intros E. apply bind_returns in E as (rc & p1 & (s & Hs & ->)%at_master_spec & E).
  destruct (memcached_failed rc) eqn:Hf; [injection E as <- <-; exists s; split; [done|by left]|].
  apply bind_returns in E as ([] & p1 & ->%increment_version_spec & E).
  unfold bind at 1, gets in E. apply bind_returns in E as ([] & p1 & Hu & E). injection E as <- <-.
  exists s. split; [done|]. right. split; [done|]. exact Hu.
Qed.

Lemma counted_master fs ls h p : counted fs ls p -> counted fs ls (put_master h p).
Proof. intros (H & ?). split; [by apply inv_master|done]. Qed.

Lemma counted_set fs ls flag data p x p' : counted fs ls p ->
  memcached_pool_behavior_set false flag data p = (Ret x, p') ->
  exists fs', List.length fs' = List.length fs /\ counted fs' ls p' /\ pool_size p' = pool_size p
    /\ current_size p' = current_size p.
Proof.
  intros Hc E. destruct (behavior_set_spec _ _ _ _ _ E) as (s & _ & [[_ ->]|[_ Hu]]).
  - exists fs. repeat split; apply Hc || by apply counted_master.
  - rewrite (pi_first _ _ _ (proj1 Hc)), Z.sub_add, Nat2Z.id in Hu.
    destruct (counted_updates flag data ls (List.length fs) [] fs (master_set s p) p') as (fs' & ? & ? & ? & ? & ?);
      [done|by apply counted_master|done|]. by exists fs'.
Qed.

(** ** Threads *)

(** Nobody sleeps while an object is free or another one may be made. *)
Definition world_ok (w : World) : Prop :=
  exists fs, counted fs (lent w) (pool w) /\ 0 < pool_size (pool w)
    /\ (asleep w <> [] -> fs = [] /\ current_size (pool w) = pool_size (pool w)).

Lemma without_lent o ls fs p : pool_inv fs ls p -> o ∈ ls -> ls ≡ₚ o :: without o ls.
Proof.
  intros [] Ho. apply NoDup_app in pi_nodup0 as (_ & _ & Hn). clear -Ho Hn.
  induction ls as [|x ls IH]; [by apply not_elem_of_nil in Ho|]. apply NoDup_cons in Hn as [Hx Hn].
  unfold without. rewrite filter_cons. destruct (decide (x <> o)) as [Hne|He].
  - apply elem_of_cons in Ho as [->|Ho]; [done|]. rewrite Permutation_swap. f_equiv. by apply IH.
  - assert (x = o) as -> by (by destruct (decide (x = o))). f_equiv.
    clear -Hx. induction ls as [|y ls IH]; [done|]. apply not_elem_of_cons in Hx as [Hy Hx].
    rewrite filter_cons_True by done. f_equiv. by apply IH.
Qed.

Lemma counted_perm fs ls ls' p : ls ≡ₚ ls' -> counted fs ls p -> counted fs ls' p.
Proof. intros Hp (H & Hn & Hle). split; [by eapply inv_perm|]. by rewrite <- Hp. Qed.

Lemma fetch_ok t b w ws x p' : world_ok (mkWorld (pool w) (lent w) (asleep w) ws) ->
  fetch_loop 2 b (pool w) = (Ret x, p') -> world_ok (after_fetch t x p' w).
Proof.
  intros (fs & Hc & Hpos & Hsleep) E. cbn [pool lent asleep] in Hc, Hpos, Hsleep. pose proof (fetch_spec _ _ _ _ _ _ Hc Hpos E) as H.
  destruct x as [[o|] rc|]; cbn.
  - destruct H as (fs' & _ & Hc' & Hp). exists fs'. cbn. split; [done|].
    assert (pool_size p' = pool_size (pool w)) as Hs by (by destruct Hp as [[_ ->]|(_ & _ & _ & h & _ & ->)]).
    rewrite Hs. split; [done|]. intros Hne. destruct (Hsleep Hne) as [Hfs Hfull].
    exfalso. subst fs. rewrite (fetch_full (lent w)) in E by (done || apply Hc). by destruct b.
  - destruct H as (-> & [-> | ->]); exists []; cbn; [done|]. split; [by apply counted_count|done].
  - destruct H as (-> & -> & Hfull). exists []. cbn. split; [done|]. split; [done|]. by intros _.
Qed.

Lemma lent_object (w : World) o : world_ok w -> o ∈ lent w -> exists h, objects (pool w) !! o = Some h.
Proof.
  intros (fs & ([] & _) & _) Ho. apply pi_dom0. apply elem_of_app. by right.
Qed.

Lemma release_ok o w x p' : world_ok w -> o ∈ lent w -> release false (Some o) (pool w) = (Ret x, p') ->
  world_ok (if x.2 then mkWorld p' (without o (lent w)) [] (asleep w ++ awake w)
            else mkWorld p' (without o (lent w)) (asleep w) (awake w)).
Proof.
  intros (fs & Hc & Hpos & Hsleep) Ho E. destruct (release_spec _ _ _ _ E) as (n & p1 & Hk & Hp' & ->). cbn [snd].
  assert (counted fs (o :: without o (lent w)) (pool w)) as Hc1 by (eapply counted_perm, Hc; by eapply without_lent; [apply Hc|]).
  destruct (inv_kept _ _ _ _ _ _ (proj1 Hc1) Hk) as (_ & Hn & Hs & _).
  pose proof (counted_release _ _ _ _ _ _ Hc1 Hk) as Hc2. rewrite <- Hp' in Hc2.
  assert (pool_size p' = pool_size (pool w)) as Hs' by (by subst p'). assert (current_size p' = current_size (pool w)) as Hn' by (by subst p').
  destruct ((firstfree p' =? 0) && (current_size p' =? pool_size p')) eqn:Hb; exists (fs ++ [n]); cbn; rewrite Hs'; split; try done.
  split; [done|]. intros Hne. exfalso. destruct (Hsleep Hne) as [-> Hfull].
  rewrite (pi_first _ _ _ (proj1 Hc2)), Hn', Hs', (proj2 (Z.eqb_eq _ _) Hfull) in Hb. done.
Qed.

Lemma set_ok flag data w x p' : world_ok w -> memcached_pool_behavior_set false flag data (pool w) = (Ret x, p') ->
  world_ok (mkWorld p' (lent w) (asleep w) (awake w)).
Proof.
  intros (fs & Hc & Hpos & Hsleep) E. destruct (counted_set _ _ _ _ _ _ _ Hc E) as (fs' & Hl & Hc' & Hs & Hn).
  exists fs'. cbn. rewrite Hs, Hn. split; [done|]. split; [done|]. intros Hne. destruct (Hsleep Hne) as [-> Hf].
  split; [by destruct fs'|done].
Qed.

Lemma without_empty t l : without t l <> [] -> l <> [].
Proof. by destruct l. Qed.

Lemma perform_ok a w w' : world_ok w -> perform a w = Some w' -> world_ok w'.
Proof.
  intros Hw. destruct a as [t le b|t|t|t e|o|flag data|flag|o calls]; cbn [perform].
  - destruct (decide _); [done|]. destruct (fetch le b (pool w)) as [[x|?|?] p'] eqn:E; [|done..]. intros [= <-].
    unfold fetch in E. destruct le; [injection E as <- <-; by destruct w|]. apply (fetch_ok t b w (awake w) x p'); [by destruct w|done].
  - destruct (decide _); [|done]. destruct (fetch_resume None (pool w)) as [[x|?|?] p'] eqn:E; [|done..]. intros [= <-].
    by apply (fetch_ok t true (mkWorld (pool w) (lent w) (asleep w) (without t (awake w))) (awake w) x p').
  - destruct (decide _); [|done]. intros [= <-]. destruct Hw as (fs & Hc & Hpos & Hs). exists fs. cbn.
    split; [done|]. split; [done|]. intros Hne. by eapply Hs, without_empty.
  - destruct (decide _); [|done]. destruct (fetch_resume (Some e) (pool w)) as [[x|?|?] p'] eqn:E; [|done..]. intros [= <-].
    assert (exists rc, x = Returns None rc /\ p' = pool w) as (rc & -> & ->).
    { unfold fetch_resume in E. destruct e; injection E as <- <-; eauto. }
    destruct Hw as (fs & Hc & Hpos & Hs). exists fs. cbn. split; [done|]. split; [done|]. intros Hne. by eapply Hs, without_empty.
  - destruct (decide _); [|done]. destruct (release false (Some o) (pool w)) as [[[[b rc] br]|?|?] p'] eqn:E; [|done..].
    intros [= <-]. by apply (release_ok o w (b, rc, br) p').
  - destruct (memcached_pool_behavior_set false flag data (pool w)) as [[x|?|?] p'] eqn:E; [|done..]. intros [= <-]. by eapply set_ok.
  - destruct (memcached_pool_behavior_get false flag (pool w)) as [[x|?|?] p'] eqn:E; [|done..]. intros [= <-].
    apply bind_returns in E as (v & p1 & (s & _ & ->)%at_master_spec & E). injection E as <- <-.
    destruct Hw as (fs & Hc & Hpos & Hs). exists fs. cbn. split; [by apply counted_master|done].
  - destruct (decide _); [|done]. destruct (at_object o calls (pool w)) as [[x|?|?] p'] eqn:E; [|done..]. intros [= <-].
    apply at_object_spec in E as (h & s & Ho & _ & ->). destruct Hw as (fs & (Hi & Hn) & Hpos & Hs). exists fs. cbn.
    split; [|done]. split; [by eapply inv_insert|done].
Qed.

(** ** Creation *)

Lemma init_loop_ok n : forall fs p p', counted fs [] p -> current_size p + Z.of_nat n <= pool_size p ->
  init_loop n p = (Ret tt, p') -> exists fs', counted fs' [] p' /\ pool_size p' = pool_size p.
Proof.
  induction n as [|n IH]; intros fs p p' Hc Hle E; cbn [init_loop] in E; [injection E as <-; eauto|].
  apply bind_returns in E as (b & p1 & Hg & E).
  apply grow_pool_spec in Hg as [[-> ->]|(h & _ & _ & -> & ->)].
  - injection E as <-. exists fs. split; [by apply counted_count|done].
  - assert (counted (fs ++ [next_object p]) [] (grown h p)) as Hc' by (apply counted_grown; [done|lia]).
    destruct Hc as ([] & Hn & _). cbn in Hn. eapply IH in E as (fs' & ? & Hs); [|done|].
    + by exists fs'.
    + cbn. rewrite u32_next by lia. lia.
Qed.

(** A pool of at most 2^31 objects ([firstfree] is an [int]) starts well. *)
Lemma create_ok memory granted master initial max p : 0 <= initial -> max <= INT_MAX + 1 ->
  _pool_create memory granted master initial max = Ret (Some p) -> world_ok (new_world p).
Proof.
  intros Hi Hm. unfold _pool_create. destruct (_ || _) eqn:Ha; [done|]. destruct (negb memory); [done|].
  apply orb_false_elim in Ha as [[H0%Z.eqb_neq H1%Z.eqb_neq]%orb_false_elim H2%Z.ltb_ge].
  unfold init. destruct (negb granted); [done|].
  unfold bind at 1, modify. destruct ((init_loop _ ;;; _) _) as [[ok|?|?] p1] eqn:E; cbn [obind]; [|done..].
  apply bind_returns in E as ([] & p2 & E & E2). injection E2 as <- <-. intros [= <-].
  assert (u32 max = max) as Hu by (unfold u32; apply Z.mod_small; unfold INT_MAX, UINT_MOD in *; lia).
  apply (init_loop_ok _ []) in E as (fs & Hc & Hs); cbn in *; rewrite Hu in *.
  - exists fs. cbn. split; [done|]. split; [lia|done].
  - split; [|done || (cbn; lia)]. split; cbn; try done.
    + rewrite length_replicate, Hu. lia.
    + lia.
    + by apply NoDup_nil.
    + intros o. rewrite lookup_empty. split; [by intros []|]. intros Ho. by apply not_elem_of_nil in Ho.
    + intros o Ho. by apply not_elem_of_nil in Ho.
  - lia.
Qed.

Lemma run_ok l : forall w w', world_ok w -> run_threads l w = Some w' -> world_ok w'.
Proof.
  induction l as [|a l IH]; intros w w' Hw; cbn [run_threads]; [by intros [= <-]|].
  destruct (perform a w) as [w1|] eqn:E; [|done]. apply IH. by eapply perform_ok.
Qed.

(** The size never changes. *)
Lemma init_size n : forall p p', init_loop n p = (Ret tt, p') -> pool_size p' = pool_size p.
Proof.
  induction n as [|n IH]; intros q q' E; cbn [init_loop] in E; [by injection E as <-|].
  apply bind_returns in E as (b & q1 & Hg & E). apply grow_pool_spec in Hg as [[-> ->]|(h & _ & _ & -> & ->)].
  - by injection E as <-.
  - by apply IH in E.
Qed.
Lemma create_size memory granted master initial max p : 0 <= initial -> max <= INT_MAX + 1 ->
  _pool_create memory granted master initial max = Ret (Some p) -> pool_size p = max.
Proof.
  intros Hi Hm E. pose proof (create_ok _ _ _ _ _ _ Hi Hm E) as (fs & _). revert E.
  unfold _pool_create. destruct (_ || _) eqn:Ha; [done|]. destruct (negb memory); [done|].
  apply orb_false_elim in Ha as [[H0%Z.eqb_neq H1%Z.eqb_neq]%orb_false_elim H2%Z.ltb_ge].
  unfold init. destruct (negb granted); [done|]. unfold bind at 1, modify.
  destruct ((init_loop _ ;;; _) _) as [[ok|?|?] p1] eqn:E; cbn [obind]; [|done..].
  apply bind_returns in E as ([] & p2 & E & E2). injection E2 as <- <-. intros [= <-].
  transitivity (u32 max); [|unfold u32; apply Z.mod_small; unfold INT_MAX, UINT_MOD in *; lia].
  apply init_size in E. exact E.
Qed.

Lemma fetch_size n b : forall p x p', fetch_loop n b p = (Ret x, p') -> pool_size p' = pool_size p.
Proof.
  induction n as [|n IH]; intros p x p' E; [done|]. rewrite fetch_round in E.
  destruct (-1 <? firstfree p).
  - apply bind_returns in E as (o & p1 & (_ & _ & ->)%read_free_spec & E). by injection E as <- <-.
  - destruct (_ =? _); [by injection E as <- <-|]. apply bind_returns in E as (g & p1 & Hg & E).
    apply grow_pool_spec in Hg as [[-> ->]|(h & _ & _ & -> & ->)]; [by injection E as <- <-|]. by apply IH in E.
Qed.

Lemma perform_size a w w' : world_ok w -> perform a w = Some w' -> pool_size (pool w') = pool_size (pool w).
Proof.
  intros (fs & Hc & _). destruct a as [t le b|t|t|t e|o|flag data|flag|o calls]; cbn [perform].
  - destruct (decide _); [done|]. destruct (fetch le b (pool w)) as [[x|?|?] p'] eqn:E; [|done..]. intros [= <-].
    assert (pool_size p' = pool_size (pool w)) by (unfold fetch in E; destruct le; [by injection E as <- <-|by apply (fetch_size 2 b (pool w) x p')]).
    by destruct x as [[]|].
  - destruct (decide _); [|done]. destruct (fetch_resume None (pool w)) as [[x|?|?] p'] eqn:E; [|done..]. intros [= <-].
    apply fetch_size in E. by destruct x as [[]|].
  - destruct (decide _); [|done]. by intros [= <-].
  - destruct (decide _); [|done]. destruct (fetch_resume (Some e) (pool w)) as [[x|?|?] p'] eqn:E; [|done..]. intros [= <-].
    unfold fetch_resume in E. by destruct e; injection E as <- <-.
  - destruct (decide _) as [Ho|]; [|done]. destruct (release false (Some o) (pool w)) as [[[[b rc] br]|?|?] p'] eqn:E; [|done..].
    intros [= <-]. apply release_spec in E as (n & p1 & Hk & -> & _).
    eapply inv_kept in Hk as (_ & _ & Hs & _); [by destruct br|]. eapply inv_perm, Hc. by eapply without_lent; [apply Hc|].
  - destruct (memcached_pool_behavior_set false flag data (pool w)) as [[x|?|?] p'] eqn:E; [|done..]. intros [= <-].
    by apply (counted_set _ _ _ _ _ _ _ Hc) in E as (? & _ & _ & ? & _).
  - destruct (memcached_pool_behavior_get false flag (pool w)) as [[x|?|?] p'] eqn:E; [|done..]. intros [= <-].
    apply bind_returns in E as (v & p1 & (s & _ & ->)%at_master_spec & E). by injection E as <- <-.
  - destruct (decide _); [|done]. destruct (at_object o calls (pool w)) as [[x|?|?] p'] eqn:E; [|done..]. intros [= <-].
    by apply at_object_spec in E as (h & s & _ & _ & ->).
Qed.

Lemma run_size l : forall w w', world_ok w -> run_threads l w = Some w' -> pool_size (pool w') = pool_size (pool w).
Proof.
  induction l as [|a l IH]; intros w w' Hw; cbn [run_threads]; [by intros [= <-]|].
  destruct (perform a w) as [w1|] eqn:E; [|done]. intros Hr.
  rewrite (IH w1 w' (perform_ok _ _ _ Hw E) Hr). by eapply perform_size.
Qed.
End Equations.
