(* ===== verification/ClientFrame.v ===== *)
(** * What operations leave alone

    No call on a server changes the settings of its client: its flags, its distribution, its hash
    functions, its limits and its key prefix. One lemma per function, found by the tactic
    [frame]. *)

From stdpp Require Import base list.
From Stdlib Require Import ZArith Ascii.
From S2P Require Import Prelude CxxString HashWords HashKit HashkitString Rijndael Aes Continuum ClientTypes Distribution.
From S2P Require Import ByteOrder ClientString ClientState BinaryProtocol ClientRead ClientBinary ClientWrite ClientConnect ClientOps.
From S2P Require Import ClientBehavior.

(** The settings; [memcached_purge] changes [poll_timeout] for a while. *)
Definition settings (m : Memcached) : flags_st * memcached_server_distribution_t * hashkit_st * limits_st * cstring :=
  (flags m, distribution m, hashkit m, put_poll_timeout 0 (limits m), _namespace m).

Definition keeps {A} (m : IO A) : Prop := forall c, settings (memc (root (snd (m c)))) = settings (memc (root c)).

Create HintDb frame.

(** ** The monad *)

Lemma keeps_bind {A B} (m : IO A) (k : A -> IO B) : keeps m -> (forall a, keeps (k a)) -> keeps (bind m k).
Proof.
  intros Hm Hk c. unfold bind. specialize (Hm c). destruct (m c) as [[a|e|f] c']; cbn in *; [|done..].
  by rewrite (Hk a c').
Qed.

Lemma keeps_ret {A} (a : A) : keeps (ret a).
Proof. done. Qed.
Lemma keeps_stuck {A} f : keeps (stuck (A := A) f).
Proof. done. Qed.
Lemma keeps_lift {A} (o : outcome A) : keeps (lift o).
Proof. done. Qed.
Lemma keeps_gets {A} (f : Ctx -> A) : keeps (gets f).
Proof. done. Qed.
Lemma keeps_geti {A} (f : Inst -> A) : keeps (geti f).
Proof. done. Qed.
Lemma keeps_getr {A} (f : Root -> A) : keeps (getr f).
Proof. done. Qed.
Lemma keeps_conf {A} (f : Memcached -> A) : keeps (conf f).
Proof. done. Qed.
Lemma keeps_on_inst f : keeps (on_inst f).
Proof. done. Qed.
Lemma keeps_on_root f : (forall r, settings (memc (f r)) = settings (memc r)) -> keeps (on_root f).
Proof. intros H c. apply H. Qed.
Lemma keeps_with_allocs {A} (m : ST nat A) : keeps (with_allocs m).
Proof. intros c. unfold with_allocs. by destruct (m _). Qed.

#[export] Hint Resolve keeps_ret keeps_stuck keeps_lift keeps_gets keeps_geti keeps_getr keeps_conf keeps_on_inst
  keeps_with_allocs : frame.

(** The steps of a function, one after the other. *)
Ltac frame_step :=
  match goal with
  | |- forall _, _ => intros
  | |- keeps (bind _ _) => apply keeps_bind
  | |- keeps (on_root _) => apply keeps_on_root; intros; reflexivity
  | |- keeps (match ?x with _ => _ end) => destruct x
  | _ => solve [eauto 2 with frame]
  | |- keeps (let _ := _ in _) => cbv zeta
  end.
Ltac frame := repeat frame_step.

Section Frame.
Context `{DM : DataModel} `{AL : Allocator} `{CF : ClientConfig} `{CK : Clock} `{CC : CipherConfig}.

(** ** ClientState *)

Lemma keeps_assert_io b : keeps (assert_io b).
Proof. done. Qed.
Lemma keeps_alloc n : keeps (alloc n).
Proof. done. Qed.
Hint Resolve keeps_assert_io keeps_alloc : frame.

Lemma keeps_set_root rc e : keeps (_set_root rc e).
Proof. unfold _set_root. frame. Qed.
Lemma keeps_set_instance : keeps _set_instance.
Proof. unfold _set_instance. frame. Qed.
Hint Resolve keeps_set_root keeps_set_instance : frame.
Lemma keeps_set_error_root rc : keeps (memcached_set_error_root rc).
Proof. unfold memcached_set_error_root. frame. Qed.
Lemma keeps_set_error_msg rc : keeps (memcached_set_error_msg rc).
Proof. unfold memcached_set_error_msg. frame. Qed.
Lemma keeps_set_error rc : keeps (memcached_set_error rc).
Proof. unfold memcached_set_error. frame. Qed.
Lemma keeps_set_errno e : keeps (memcached_set_errno e).
Proof. unfold memcached_set_errno. frame. Qed.
Lemma keeps_set_errno_root e : keeps (memcached_set_errno_root e).
Proof. unfold memcached_set_errno_root. frame. Qed.
Lemma keeps_gettimeofday : keeps gettimeofday.
Proof. done. Qed.
Hint Resolve keeps_set_error_root keeps_set_error_msg keeps_set_error keeps_set_errno keeps_set_errno_root keeps_gettimeofday : frame.
Lemma keeps_mark : keeps memcached_mark_server_for_timeout.
Proof. unfold memcached_mark_server_for_timeout. frame. Qed.
Hint Resolve keeps_mark : frame.
Lemma keeps_io_reset : keeps memcached_io_reset.
Proof. unfold memcached_io_reset. frame. Qed.
Lemma keeps_sys_recv n : keeps (sys_recv n).
Proof. intros c. unfold sys_recv. repeat case_match; done. Qed.
Lemma keeps_sys_send b : keeps (sys_send b).
Proof. intros c. unfold sys_send. repeat case_match; done. Qed.
Lemma keeps_sys_poll : keeps sys_poll.
Proof. intros c. unfold sys_poll. repeat case_match; done. Qed.
Lemma keeps_increment : keeps memcached_server_response_increment.
Proof. done. Qed.
Lemma keeps_decrement : keeps memcached_server_response_decrement.
Proof. done. Qed.
Lemma keeps_reset : keeps memcached_server_response_reset.
Proof. done. Qed.
Hint Resolve keeps_io_reset keeps_sys_recv keeps_sys_send keeps_sys_poll keeps_increment keeps_decrement keeps_reset : frame.

(** ** ClientRead *)

Lemma keeps_string_check_io v n : keeps (string_check_io v n).
Proof. unfold string_check_io. frame. Qed.
Lemma keeps_string_append_io v t : keeps (string_append_io v t).
Proof. unfold string_append_io. frame. Qed.
Hint Resolve keeps_string_check_io keeps_string_append_io : frame.
Lemma keeps_result_set_value x t : keeps (memcached_result_set_value x t).
Proof. unfold memcached_result_set_value. frame. Qed.
Lemma keeps_io_wait_loop n : keeps (io_wait_loop n).
Proof. induction n; cbn [io_wait_loop]; frame. Qed.
Hint Resolve keeps_result_set_value keeps_io_wait_loop : frame.
Lemma keeps_io_wait_read : keeps io_wait_read.
Proof. unfold io_wait_read. frame. Qed.
Hint Resolve keeps_io_wait_read : frame.
Lemma keeps_io_fill_loop n : keeps (io_fill_loop n).
Proof. induction n; cbn [io_fill_loop]; frame. Qed.
Lemma keeps_io_fill : keeps _io_fill.
Proof. intros c. apply keeps_io_fill_loop. Qed.
Lemma keeps_copy_out n : keeps (copy_out n).
Proof. unfold copy_out. frame. Qed.
Hint Resolve keeps_io_fill keeps_copy_out : frame.
Lemma keeps_io_read_loop n : forall k acc, keeps (io_read_loop n k acc).
Proof. induction n; intros; cbn [io_read_loop]; frame. Qed.
Hint Resolve keeps_io_read_loop : frame.
Lemma keeps_io_read n : keeps (memcached_io_read n).
Proof. unfold memcached_io_read. frame. Qed.
Hint Resolve keeps_io_read : frame.
Lemma keeps_copy_line n : forall k acc, keeps (copy_line n k acc).
Proof. induction n; intros; cbn [copy_line]; frame. Qed.
Hint Resolve keeps_copy_line : frame.
Lemma keeps_readline_loop n : forall k acc, keeps (readline_loop n k acc).
Proof. induction n; intros; cbn [readline_loop]; frame. Qed.
Hint Resolve keeps_readline_loop : frame.
Lemma keeps_readline n : keeps (memcached_io_readline n).
Proof. unfold memcached_io_readline. frame. Qed.
Lemma keeps_read_error x : keeps (read_error x).
Proof. unfold read_error. frame. Qed.
Lemma keeps_note_range b : keeps (note_range b).
Proof. unfold note_range. frame. Qed.
Hint Resolve keeps_readline keeps_read_error keeps_note_range : frame.
Lemma keeps_fetch_data n x : keeps (fetch_data n x).
Proof. unfold fetch_data. frame. Qed.
Hint Resolve keeps_fetch_data : frame.
Lemma keeps_textual_value_fetch b x : keeps (textual_value_fetch b x).
Proof. unfold textual_value_fetch. frame. Qed.
Lemma keeps_version_part b p z : keeps (version_part b p z).
Proof. unfold version_part. frame. Qed.
Lemma keeps_bad_version : keeps bad_version.
Proof. unfold bad_version. frame. Qed.
Hint Resolve keeps_textual_value_fetch keeps_version_part keeps_bad_version : frame.
Lemma keeps_version_at b p : keeps (version_at b p).
Proof. unfold version_at. frame. Qed.
Hint Resolve keeps_version_at : frame.
Lemma keeps_read_version b : keeps (read_version b).
Proof. unfold read_version. frame. Qed.
Lemma keeps_error_line b rc : keeps (error_line b rc).
Proof. unfold error_line. frame. Qed.
Lemma keeps_numeric_response b x : keeps (numeric_response b x).
Proof. unfold numeric_response. frame. Qed.
Hint Resolve keeps_read_version keeps_error_line keeps_numeric_response : frame.
Lemma keeps_textual_read old n x : keeps (textual_read_one_response old n x).
Proof. unfold textual_read_one_response. frame. Qed.
Hint Resolve keeps_textual_read : frame.

(** ** ClientBinary *)

Lemma keeps_safe_read_loop n : forall k acc, keeps (safe_read_loop n k acc).
Proof. induction n; intros; cbn [safe_read_loop]; frame. Qed.
Hint Resolve keeps_safe_read_loop : frame.
Lemma keeps_safe_read n : keeps (memcached_safe_read n).
Proof. unfold memcached_safe_read. frame. Qed.
Hint Resolve keeps_safe_read : frame.
Lemma keeps_read_into room old o n : keeps (read_into room old o n).
Proof. unfold read_into. frame. Qed.
Lemma keeps_read_value n x : keeps (read_value n x).
Proof. unfold read_value. frame. Qed.
Hint Resolve keeps_read_into keeps_read_value : frame.
Lemma keeps_read_item h x : keeps (read_item h x).
Proof. unfold read_item. frame. Qed.
Lemma keeps_read_number h x : keeps (read_number h x).
Proof. unfold read_number. frame. Qed.
Lemma keeps_read_binary_version h : keeps (read_binary_version h).
Proof. unfold read_binary_version. frame. Qed.
Lemma keeps_read_stat h n b : keeps (read_stat h n b).
Proof. unfold read_stat. frame. Qed.
Hint Resolve keeps_read_item keeps_read_number keeps_read_binary_version keeps_read_stat : frame.
Lemma keeps_read_body h b n x : keeps (read_body h b n x).
Proof. unfold read_body. frame. Qed.
Lemma keeps_skip_body n : forall k, keeps (skip_body n k).
Proof. induction n; intros; cbn [skip_body]; frame. Qed.
Lemma keeps_status_code n : keeps (status_code n).
Proof. unfold status_code. frame. Qed.
Hint Resolve keeps_read_body keeps_skip_body keeps_status_code : frame.
Lemma keeps_after_header again h b n x : keeps again -> keeps (after_header again h b n x).
Proof. intros Ha. unfold after_header. frame. Qed.
Hint Resolve keeps_after_header : frame.
Lemma keeps_binary_loop n : forall b k x, keeps (binary_response_loop n b k x).
Proof. induction n; intros; cbn [binary_response_loop]; frame. Qed.
Hint Resolve keeps_binary_loop : frame.
Lemma keeps_binary_read b n x : keeps (binary_read b n x).
Proof. unfold binary_read. frame. Qed.
End Frame.

#[export] Hint Resolve keeps_assert_io keeps_alloc keeps_set_root keeps_set_instance keeps_set_error_root
  keeps_set_error_msg keeps_set_error keeps_set_errno keeps_set_errno_root keeps_gettimeofday keeps_mark
  keeps_io_reset keeps_sys_recv keeps_sys_send keeps_sys_poll keeps_increment keeps_decrement keeps_reset
  keeps_string_check_io keeps_string_append_io keeps_result_set_value keeps_io_wait_loop keeps_io_wait_read
  keeps_io_fill_loop keeps_io_fill keeps_copy_out keeps_io_read_loop keeps_io_read keeps_copy_line
  keeps_readline_loop keeps_readline keeps_read_error keeps_note_range keeps_fetch_data
  keeps_textual_value_fetch keeps_version_part keeps_bad_version keeps_version_at keeps_read_version
  keeps_error_line keeps_numeric_response keeps_textual_read keeps_safe_read_loop keeps_safe_read
  keeps_read_into keeps_read_value keeps_read_item keeps_read_number keeps_read_binary_version keeps_read_stat
  keeps_read_body keeps_skip_body keeps_status_code keeps_after_header keeps_binary_loop keeps_binary_read : frame.

(** ** Interfaces *)

(** What the readers of binary responses and the makers of connections promise. *)
Class FrameReader `{BR : BinaryReader} := { frame_reader b n x : keeps (binary_read_one_response b n x) }.
Class FrameTransport `{TR : Transport} := {
  frame_open : keeps open_connection;
  frame_udp v : keeps (_vdo_udp v);
}.
#[export] Hint Resolve frame_reader frame_open frame_udp : frame.

#[export] Instance binary_reader_frame `{DM : DataModel} `{AL : Allocator} `{CF : ClientConfig} `{CK : Clock} :
  FrameReader (BR := binary_reader).
Proof. split. intros. apply keeps_binary_read. Qed.

(** ** ClientWrite *)

Section Writing.
Context `{DM : DataModel} `{AL : Allocator} `{CF : ClientConfig} `{CK : Clock} `{CC : CipherConfig}.
Context `{FR : FrameReader}.

Lemma keeps_one_response old n x : keeps (_read_one_response old n x).
Proof. unfold _read_one_response. frame. Qed.
Hint Resolve keeps_one_response : frame.
Lemma keeps_read_one_response x : keeps (memcached_read_one_response x).
Proof. unfold memcached_read_one_response. frame. Qed.
Lemma keeps_initialize h : keeps (initialize_binary_request h).
Proof. unfold initialize_binary_request. frame. Qed.
Lemma keeps_repack : keeps repack_input_buffer.
Proof. unfold repack_input_buffer. frame. Qed.
Lemma keeps_process : keeps process_input_buffer.
Proof. done. Qed.
Hint Resolve keeps_read_one_response keeps_initialize keeps_repack keeps_process : frame.
Lemma keeps_io_wait_write p : keeps p -> keeps (io_wait_write p).
Proof. intros Hp. unfold io_wait_write. frame. Qed.
Hint Resolve keeps_io_wait_write : frame.
Lemma keeps_flush_loop p n : keeps p -> forall t, keeps (flush_loop p n t).
Proof. intros Hp. induction n; intros [|? t]; cbn [flush_loop]; frame. Qed.
Hint Resolve keeps_flush_loop : frame.
Lemma keeps_io_flush_with p : keeps p -> keeps (io_flush_with p).
Proof. intros Hp. unfold io_flush_with. frame. Qed.
Hint Resolve keeps_io_flush_with : frame.
Lemma keeps_write_loop p n : keeps p -> forall t, keeps (write_loop p n t).
Proof. intros Hp. induction n; intros [|? t]; cbn [write_loop]; frame. Qed.
Hint Resolve keeps_write_loop : frame.
Lemma keeps_io_write_with p t b : keeps p -> keeps (_io_write_with p t b).
Proof. intros Hp. unfold _io_write_with. frame. Qed.
Hint Resolve keeps_io_write_with : frame.
Lemma keeps_nested_purge : keeps nested_purge.
Proof. unfold nested_purge. frame. Qed.
Lemma keeps_on_poll_timeout t : keeps (on_poll_timeout t).
Proof. unfold on_poll_timeout. frame. Qed.
Hint Resolve keeps_nested_purge keeps_on_poll_timeout : frame.
Lemma keeps_purge_responses n : forall x b, keeps (purge_responses n x b).
Proof. induction n; intros; cbn [purge_responses]; frame. Qed.
Hint Resolve keeps_purge_responses : frame.
Lemma keeps_purge : keeps memcached_purge.
Proof. unfold memcached_purge. frame. Qed.
Hint Resolve keeps_purge : frame.
Lemma keeps_io_flush : keeps io_flush.
Proof. unfold io_flush. frame. Qed.
Lemma keeps_io_write t b : keeps (_io_write t b).
Proof. unfold _io_write. frame. Qed.
Hint Resolve keeps_io_flush keeps_io_write : frame.
Lemma keeps_write_all : keeps memcached_io_write_all.
Proof. unfold memcached_io_write_all. frame. Qed.
Lemma keeps_memcached_io_write t b : keeps (memcached_io_write t b).
Proof. unfold memcached_io_write. frame. Qed.
Lemma keeps_writev_loop v : forall a b, keeps (writev_loop v a b).
Proof. induction v; intros; cbn [writev_loop]; frame. Qed.
Hint Resolve keeps_write_all keeps_memcached_io_write keeps_writev_loop : frame.
Lemma keeps_writev v b : keeps (memcached_io_writev v b).
Proof. unfold memcached_io_writev. frame. Qed.
Lemma keeps_slurp_loop n : keeps (io_slurp_loop n).
Proof. induction n; cbn [io_slurp_loop]; frame. Qed.
Hint Resolve keeps_writev keeps_slurp_loop : frame.
Lemma keeps_slurp : keeps memcached_io_slurp.
Proof. unfold memcached_io_slurp. frame. Qed.
Hint Resolve keeps_slurp : frame.

Context `{FT : FrameTransport}.

Lemma keeps_connect : keeps memcached_connect.
Proof. unfold memcached_connect. frame. Qed.
Hint Resolve keeps_connect : frame.
Lemma keeps_vdo v b : keeps (memcached_vdo v b).
Proof. unfold memcached_vdo. frame. Qed.
Lemma keeps_junk n : forall b k x, keeps (junk_responses n b k x).
Proof. induction n; intros; cbn [junk_responses]; frame. Qed.
Hint Resolve keeps_vdo keeps_junk : frame.
Lemma keeps_response n x : keeps (memcached_response n x).
Proof. unfold memcached_response, memcached_response_into. frame. Qed.
Hint Resolve keeps_response : frame.
Lemma keeps_response_root n : keeps (memcached_response_root n).
Proof. unfold memcached_response_root. frame. Qed.
Lemma keeps_send_quit_message : keeps send_quit_message.
Proof. unfold send_quit_message. frame. Qed.
Lemma keeps_drain : keeps drain_instance.
Proof. unfold drain_instance. frame. Qed.
Hint Resolve keeps_send_quit_message keeps_drain : frame.
Lemma keeps_quit_server b : keeps (memcached_quit_server b).
Proof. unfold memcached_quit_server. frame. Qed.
End Writing.

#[export] Hint Resolve keeps_one_response keeps_read_one_response keeps_initialize keeps_repack keeps_process
  keeps_io_wait_write keeps_flush_loop keeps_io_flush_with keeps_write_loop keeps_io_write_with
  keeps_nested_purge keeps_on_poll_timeout keeps_purge_responses keeps_purge keeps_io_flush keeps_io_write
  keeps_write_all keeps_memcached_io_write keeps_writev_loop keeps_writev keeps_slurp_loop keeps_slurp
  keeps_connect keeps_vdo keeps_junk keeps_response keeps_response_root keeps_send_quit_message keeps_drain
  keeps_quit_server : frame.

(** ** ClientConnect *)

(** [run_distribution] keeps the settings. *)
Class FrameRedistribution `{RD : Redistribution} := {
  frame_redistribute t m rc m' : redistribute t m = Ret (rc, m') -> settings m' = settings m;
}.

Section Connecting.
Context `{DM : DataModel} `{AL : Allocator} `{CF : ClientConfig} `{CK : Clock} `{CC : CipherConfig}.
Context `{FR : FrameReader} `{NW : Network} `{FD : FrameRedistribution}.

Lemma keeps_tick : keeps tick.
Proof. done. Qed.
Lemma keeps_sys_dial : keeps sys_dial.
Proof. intros c. unfold sys_dial. repeat case_match; done. Qed.
Hint Resolve keeps_tick keeps_sys_dial : frame.
Lemma keeps_this_server {A} (f : Instance_ -> A) d : keeps (this_server f d).
Proof. unfold this_server. frame. Qed.
Hint Resolve keeps_this_server : frame.
Lemma keeps_get_so_error : keeps get_so_error.
Proof. unfold get_so_error. frame. Qed.
Hint Resolve keeps_get_so_error : frame.
Lemma keeps_report_so_error : keeps report_so_error.
Proof. unfold report_so_error. frame. Qed.
Hint Resolve keeps_report_so_error : frame.
Lemma keeps_connect_poll_loop n : forall e, keeps (connect_poll_loop n e).
Proof. induction n; intros; cbn [connect_poll_loop]; frame. Qed.
Hint Resolve keeps_connect_poll_loop : frame.
Lemma keeps_connect_poll e : keeps (connect_poll e).
Proof. unfold connect_poll. frame. Qed.
Lemma keeps_set_hostinfo : keeps set_hostinfo.
Proof. unfold set_hostinfo. frame. Qed.
Lemma keeps_set_options l : keeps (set_options l).
Proof. induction l; cbn [set_options]; frame. Qed.
Hint Resolve keeps_connect_poll keeps_set_hostinfo keeps_set_options : frame.
Lemma keeps_set_socket_options : keeps set_socket_options.
Proof. unfold set_socket_options. frame. Qed.
Hint Resolve keeps_set_socket_options : frame.
Lemma keeps_network_connect_loop n : forall t, keeps (network_connect_loop n t).
Proof. induction n; intros; cbn [network_connect_loop]; frame. Qed.
Lemma keeps_after_dialling x : keeps (after_dialling x).
Proof. unfold after_dialling. frame. Qed.
Hint Resolve keeps_network_connect_loop keeps_after_dialling : frame.
Lemma keeps_network_connect : keeps network_connect.
Proof. unfold network_connect. frame. Qed.
Lemma keeps_unix_socket_connect : keeps unix_socket_connect.
Proof. unfold unix_socket_connect. frame. Qed.
Lemma keeps_set_next_retry t : keeps (set_next_retry t).
Proof. unfold set_next_retry. frame. Qed.
Hint Resolve keeps_network_connect keeps_unix_socket_connect keeps_set_next_retry : frame.

Lemma keeps_redistribution {A} t (k : memcached_return_t * Memcached -> IO A) : (forall x, keeps (k x)) ->
  keeps (let* m := getr memc in let* x := lift (redistribute t m) in on_root (set_memc (snd x)) ;;; k x).
Proof.
  intros Hk c. unfold bind at 1, getr, gets. unfold bind at 1, lift.
  destruct (redistribute t (memc (root c))) as [[rc m']|e|f] eqn:E; [|done..].
  unfold bind, on_root, modify, ret. cbn [snd root inst]. rewrite (Hk _ _). cbn.
  by eapply frame_redistribute.
Qed.

Lemma keeps_backoff : keeps backoff_handling.
Proof. unfold backoff_handling. repeat (apply keeps_redistribution || frame_step). Qed.
Hint Resolve keeps_backoff : frame.

#[local] Instance no_dial_frame : FrameTransport (TR := no_dial).
Proof. split; done. Qed.

Lemma keeps_version_instance : keeps memcached_version_instance.
Proof. pose proof no_dial_frame. unfold memcached_version_instance. frame. Qed.
Lemma keeps_mark_clean : keeps mark_server_as_clean.
Proof. unfold mark_server_as_clean. frame. Qed.
Hint Resolve keeps_version_instance keeps_mark_clean : frame.
Lemma keeps_connect_server : keeps connect_server.
Proof. unfold connect_server. frame. Qed.
Lemma keeps_sendmsg_loop n : forall t, keeps (sendmsg_loop n t).
Proof.
  induction n; intros; cbn [sendmsg_loop]; frame.
  intros c. unfold sys_sendmsg. repeat case_match; done.
Qed.
Hint Resolve keeps_sendmsg_loop : frame.
Lemma keeps_vdo_udp v : keeps (vdo_udp v).
Proof. unfold vdo_udp. frame. Qed.
End Connecting.

#[export] Instance network_transport_frame `{DM : DataModel} `{AL : Allocator} `{CF : ClientConfig} `{CK : Clock}
  `{CC : CipherConfig} `{FR : FrameReader} `{NW : Network} `{FD : FrameRedistribution} : FrameTransport (TR := network_transport).
Proof. split; intros; [apply keeps_connect_server|apply keeps_vdo_udp]. Qed.
