(* ===== verification/ClientGet.v ===== *)
(** * Retrieval: get.cc and fetch.cc of the client

    Sending the keys of a multi-get to their servers, choosing the server to read from, and
    handing out the values one by one. *)

From stdpp Require Import base list.
From Stdlib Require Import ZArith Ascii String.
From S2P Require Import Prelude CxxString HashWords HashKit HashkitString Rijndael Aes Continuum ClientTypes.
From S2P Require Import ClientString ClientState ClientRead ClientWrite ClientOps.

(** What [memcached_fetch] and [memcached_get] hand to the caller: the value with the null
    character behind it, its length, the key, the flags and the code. A variable of the caller
    that is not written is 0 or empty here. *)
Record Fetched := mkFetched {
  f_value : option cstring;
  f_length : Z;
  f_key : cstring;
  f_flags : Z;
  f_error : memcached_return_t;
}.

Definition nothing (rc : memcached_return_t) : Fetched := mkFetched None 0 [] 0 rc.

Section Retrieval.
Context `{DM : DataModel} `{AL : Allocator} `{CF : ClientConfig} `{CK : Clock} `{CC : CipherConfig}.
Context `{BR : BinaryReader} `{TR : Transport} `{KR : KeyRouter} `{BQ : BinaryRequests} `{MP : MultiPoll}.

(** ** [memcached_mget_by_key_real] *)

(** Reads the responses a server still owes. *)
Fixpoint drain_loop (fuel : nat) : IO unit :=
  let* count := geti cursor_active_ in
  if count =? 0 then ret tt else
  match fuel with
  | O => stuck OutOfFuel
  | S fuel => let* _ := memcached_response_root MEMCACHED_DEFAULT_COMMAND_SIZE in drain_loop fuel
  end.

Definition drain_server : IO unit :=
  let* count := geti cursor_active_ in
  if count =? 0 then ret tt else
  let* nb := conf (fun m => no_block (flags m)) in
  (if nb : bool then let* _ := memcached_io_write_all in ret tt else ret tt) ;;;
  let* n := geti junk_fuel in
  drain_loop (S n).

Fixpoint each_server (m : IO unit) (n : nat) (k : Z) : SIO unit :=
  match n with
  | O => ret tt
  | S n => at_instance k m ;;; each_server m n (k + 1)
  end.

(** [vector + 1], for the three pieces behind the command. *)
Definition key_vector (ns key : cstring) : list cstring := [[SP]; ns; key].

(** One key to its server: whether the server was connected for it, whether sending failed, and
    the code of the connection when one was made. *)
Definition send_key (command key : cstring) : IO (bool * bool * option memcached_return_t) :=
  let* ns := conf _namespace in
  let* count := geti cursor_active_ in
  let* started :=
    if negb (count =? 0) then ret (true, false, false, None) else
    let* rc := memcached_connect in
    if memcached_failed rc then let* _ := memcached_set_error rc in ret (false, false, false, Some rc) else
    let* ok := memcached_io_writev [command] false in
    if negb ok then ret (false, true, true, Some rc) else
    on_inst (fun i => set_cursor (u32 (cursor_active_ i + 1)) i) ;;; ret (true, true, false, Some rc) in
  let '(go, connected, failed, rc) := started in
  if negb go then ret (connected, failed, rc) else
  let* ok := memcached_io_writev (key_vector ns key) false in
  if ok : bool then ret (connected, false, rc)
  else memcached_server_response_reset ;;; ret (connected, true, rc).

Fixpoint send_keys (command : cstring) (master : option Z) (keys : list cstring)
    (hosts_connected : Z) (failures : bool) (rc : memcached_return_t) : SIO (Z * bool * memcached_return_t) :=
  match keys with
  | [] => ret (hosts_connected, failures, rc)
  | k :: keys =>
    let* server_key := match master with Some m => ret m | None => pick_server k end in
    let* x := at_instance server_key (send_key command k) in
    let '(connected, failed, rc') := x in
    send_keys command master keys (if connected : bool then hosts_connected + 1 else hosts_connected)
      (failures || failed) (default rc rc')
  end.

(** The end of line to every server that has a request: some failure, some success. *)
Fixpoint finish_requests (n : nat) (k : Z) (failures success : bool) : SIO (bool * bool) :=
  match n with
  | O => ret (failures, success)
  | S n =>
    let* r := at_instance k (
      let* count := geti cursor_active_ in
      if count =? 0 then ret (failures, success) else
      let* w := memcached_io_write CRLF true in
      ret (if w =? -1 then (true, success) else (failures, true))) in
    finish_requests n (k + 1) (fst r) (snd r)
  end.

Definition memcached_mget_by_key_real (group_key : option cstring) (keys : list cstring) (mget_mode : bool)
    : SIO memcached_return_t :=
  let* rc := initialize_query true in
  if memcached_failed rc then ret rc else
  let* f := sconf flags in
  if use_udp f then at_root (memcached_set_error_root MEMCACHED_NOT_SUPPORTED) else
  if Z.of_nat (List.length keys) =? 0 then at_root (memcached_set_error_root MEMCACHED_NOTFOUND) else
  let* t := memcached_key_test (Some keys) in
  if memcached_failed t then sroot memcached_last_error else
  let* master := match group_key with
    | Some ((_ :: _) as g) => let* m := pick_server g in ret (Some m)
    | _ => ret None
    end in
  let* n := sconf (fun m => List.length (servers m)) in
  each_server drain_server n 0 ;;;
  if binary_protocol f then binary_mget_by_key master keys mget_mode else
  let command := if support_cas f then lit "gets" else lit "get" in
  let* x := send_keys command master keys 0 false rc in
  let '(hosts_connected, failures, rc) := x in
  if hosts_connected =? 0 then
    if memcached_failed rc then ret rc else at_root (memcached_set_error_root MEMCACHED_NO_SERVERS)
  else
  let* n := sconf (fun m => List.length (servers m)) in
  let* y := finish_requests n 0 failures false in
  let '(failures, success) := y in
  ret (if failures && success then MEMCACHED_SOME_ERRORS else if success : bool then MEMCACHED_SUCCESS else MEMCACHED_FAILURE).

(** ** The server to read from: [memcached_io_get_readable_server] *)

Definition MAX_SERVERS_TO_POLL : nat := 100.

(** The first server with unread input before so many servers have outstanding responses, and the
    servers that have. *)
Fixpoint poll_set (insts : list Inst) (k : Z) (room : nat) : option Z * list Z :=
  match insts, room with
  | [], _ | _, O => (None, [])
  | i :: insts, S room' =>
    if 0 <? read_buffer_length (rd i) then (Some k, []) else
    if 0 <? cursor_active_ i then
      let '(hit, ks) := poll_set insts (k + 1) room' in (hit, k :: ks)
    else poll_set insts (k + 1) room
  end.

Fixpoint first_owing (insts : list Inst) (k : Z) : option Z :=
  match insts with
  | [] => None
  | i :: insts => if 0 <? cursor_active_ i then Some k else first_owing insts (k + 1)
  end.

Fixpoint first_ready (ks : list Z) (ready : list bool) : option Z :=
  match ks, ready with
  | k :: ks, r :: ready => if r : bool then Some k else first_ready ks ready
  | _, _ => None
  end.

Definition memcached_io_get_readable_server : SIO (option Z) :=
  let* insts := gets ses_insts in
  let '(hit, ks) := poll_set insts 0 MAX_SERVERS_TO_POLL in
  match hit with
  | Some k => ret (Some k)
  | None =>
    if (List.length ks <? 2)%nat then ret (first_owing insts 0) else
    let* t := sroot ticks in
    on_sroot (set_ticks (S t)) ;;;
    match poll_many t with
    | None => let* e := sroot errno in let* _ := at_root (memcached_set_errno_root e) in ret None
    | Some ready => ret (first_ready ks ready)
    end
  end.

(** ** fetch.cc *)

(** The loop of [memcached_fetch_result] on the client's own result: whether it returns the
    result, and the code. *)
Fixpoint fetch_loop (fuel : nat) (error : memcached_return_t) : SIO (bool * memcached_return_t) :=
  let* server := memcached_io_get_readable_server in
  match server with
  | None => ret (false, error)
  | Some k =>
    match fuel with
    | O => stuck OutOfFuel
    | S fuel =>
      let* error := at_instance k (memcached_response_root MEMCACHED_DEFAULT_COMMAND_SIZE) in
      if rc_eqb error MEMCACHED_IN_PROGRESS then fetch_loop fuel error else
      if rc_eqb error MEMCACHED_SUCCESS then
        on_sroot (fun r => set_result (set_count (u64 (res_count (result r) + 1)) (result r)) r) ;;;
        ret (true, error)
      else if rc_eqb error MEMCACHED_END then
        at_instance k memcached_server_response_reset ;;; fetch_loop fuel error
      else if rc_eqb error MEMCACHED_NOTFOUND then fetch_loop fuel error
      else ret (false, error)
    end
  end.

Definition fetch_fuel (insts : list Inst) : nat := list_sum (map (fun i => S (junk_fuel i)) insts).

(** The code when there is no further result. *)
Definition final_error (error : memcached_return_t) (count : Z) : memcached_return_t :=
  if rc_eqb error MEMCACHED_NOTFOUND && negb (count =? 0) then MEMCACHED_END else
  if rc_eqb error MEMCACHED_MAXIMUM_RETURN && negb (count =? 0) then MEMCACHED_END else
  if rc_eqb error MEMCACHED_MAXIMUM_RETURN then MEMCACHED_NOTFOUND else
  if rc_eqb error MEMCACHED_SUCCESS then MEMCACHED_END else
  if count =? 0 then MEMCACHED_NOTFOUND else error.

Definition memcached_fetch_result : SIO (bool * memcached_return_t) :=
  let* f := sconf flags in
  if use_udp f then ret (false, MEMCACHED_NOT_SUPPORTED) else
  let* n := gets (fun s => fetch_fuel (ses_insts s)) in
  let* x := fetch_loop (S n) MEMCACHED_MAXIMUM_RETURN in
  let '(found, error) := x in
  if found : bool then ret (true, error) else
  let* count := sroot (fun r => res_count (result r)) in
  on_sroot (fun r => set_result (set_value (memcached_string_reset (res_value (result r)))
                                   (set_count 0 (result r))) r) ;;;
  ret (false, final_error error count).

(** [want_key] when the caller gives an array for the key. The code of the caller is unchanged
    when the value cannot be copied. *)
Definition memcached_fetch (want_key : bool) : SIO Fetched :=
  let* f := sconf flags in
  if use_udp f then ret (nothing MEMCACHED_NOT_SUPPORTED) else
  let* x := memcached_fetch_result in
  let '(found, error) := x in
  if negb found || memcached_failed error then ret (nothing error) else
  let* r := sroot result in
  if want_key && (MEMCACHED_MAX_KEY <? size (item_key r)) then ret (nothing MEMCACHED_KEY_TOO_BIG) else
  let* v := at_root (with_allocs (memcached_string_take_value (res_value r))) in
  on_sroot (fun r => set_result (set_value (snd v) (result r)) r) ;;;
  ret (mkFetched (fst v) (memcached_string_length (res_value r)) (if want_key then item_key r else [])
         (item_flags r) error).

(** ** get.cc *)

Definition memcached_get_by_key (group_key : option cstring) (key : cstring) : SIO Fetched :=
  let* q := sroot query_id in
  let* error := memcached_mget_by_key_real group_key [key] false in
  let* q1 := sroot query_id in
  lift (assert_msg (q1 =? u64 (q + 1))) ;;;
  if memcached_failed error then
    let* current := sroot memcached_has_current_error in
    let* last := sroot memcached_last_error in
    ret (nothing (if current : bool then last else error))
  else
  let* v := memcached_fetch false in
  let* q1 := sroot query_id in
  lift (assert_msg (q1 =? u64 (q + 1))) ;;;
  ret (if rc_eqb (f_error v) MEMCACHED_END
       then mkFetched (f_value v) (f_length v) (f_key v) (f_flags v) MEMCACHED_NOTFOUND else v).

Definition memcached_get (key : cstring) : SIO Fetched := memcached_get_by_key None key.

Definition memcached_mget_by_key (group_key : option cstring) (keys : list cstring) : SIO memcached_return_t :=
  memcached_mget_by_key_real group_key keys true.
Definition memcached_mget (keys : list cstring) : SIO memcached_return_t := memcached_mget_by_key None keys.
End Retrieval.
