(* ===== verification/ClientAdmin.v ===== *)
(** * Flushing, versions and existence: flush.cc, version.cc, exist.cc

    The operations on all servers of a client, and the test whether a key exists, in both
    protocols. *)

From stdpp Require Import base list.
From Stdlib Require Import ZArith Ascii String.
From S2P Require Import Prelude CxxString HashWords HashKit HashkitString Rijndael Aes Continuum ClientTypes.
From S2P Require Import ByteOrder ClientString ClientState BinaryProtocol ClientRead ClientWrite ClientOps ClientBinaryOps ClientGet.

Section Administration.
Context `{DM : DataModel} `{AL : Allocator} `{CF : ClientConfig} `{CK : Clock} `{CC : CipherConfig}.
Context `{BR : BinaryReader} `{TR : Transport} `{KR : KeyRouter} `{MP : MultiPoll}.

(** One call per server, in order, with what the calls before it found. *)
Fixpoint over_servers {A} (n : nat) (k : Z) (m : A -> IO A) (a : A) : SIO A :=
  match n with
  | O => ret a
  | S n => let* a := at_instance k (m a) in over_servers n (k + 1) m a
  end.

(** An error that has been reported is not added to. *)
Definition report_once (rc : memcached_return_t) : IO unit :=
  let* mine := geti error_messages in
  let* all := getr root_errors in
  match mine, all with
  | _ :: _, _ :: _ => ret tt
  | _, _ => let* _ := memcached_set_error rc in ret tt
  end.

(** ** flush.cc *)

(** The request is shared: only its number and its command change from server to server. *)
Definition flush_binary_server (expiration : Z) (reply : bool) (rc : memcached_return_t) : IO memcached_return_t :=
  let* h := initialize_binary_request
    (mkHeader 0 PROTOCOL_BINARY_CMD_FLUSH 0 4 PROTOCOL_BINARY_RAW_BYTES 0 (htonl 4) 0 0) in
  let h := with_opcode (if reply then PROTOCOL_BINARY_CMD_FLUSH else PROTOCOL_BINARY_CMD_FLUSHQ) h in
  let* rrc := memcached_vdo [[]; octets (header_bytes h ++ le 4 (htonl (u32 expiration)))] true in
  if memcached_failed rrc then report_once rrc ;;; memcached_io_reset ;;; ret MEMCACHED_SOME_ERRORS else ret rc.

(** The code of a response is dropped. *)
Definition flush_binary_response (u : unit) : IO unit :=
  let* n := geti cursor_active_ in
  if 0 <? n then let* _ := memcached_response_root 0 in ret tt else ret tt.

Definition memcached_flush_binary (expiration : Z) (reply : bool) : SIO memcached_return_t :=
  let* n := sconf (fun m => List.length (servers m)) in
  let* rc := over_servers n 0 (flush_binary_server expiration reply) MEMCACHED_SUCCESS in
  over_servers n 0 flush_binary_response tt ;;;
  ret rc.

Definition flush_line (expiration : Z) (reply : bool) : list cstring :=
  [[]; lit "flush_all "; if expiration =? 0 then [] else to_string (u64 expiration);
   if reply then [] else NOREPLY; CRLF].

Definition flush_textual_server (vector : list cstring) (reply : bool) (rc : memcached_return_t) : IO memcached_return_t :=
  let* rrc := memcached_vdo vector true in
  let* rrc := if memcached_success rrc && reply then memcached_response_root MEMCACHED_DEFAULT_COMMAND_SIZE else ret rrc in
  if memcached_failed rrc then report_once rrc ;;; ret MEMCACHED_SOME_ERRORS else ret rc.

(** A 64-bit number always fits the array. *)
Definition memcached_flush_textual (expiration : Z) (reply : bool) : SIO memcached_return_t :=
  if MEMCACHED_MAXIMUM_INTEGER_DISPLAY_LENGTH + 1 <=? (if expiration =? 0 then 0 else size (to_string (u64 expiration)))
  then at_root (memcached_set_error_root MEMCACHED_MEMORY_ALLOCATION_FAILURE) else
  let* n := sconf (fun m => List.length (servers m)) in
  over_servers n 0 (flush_textual_server (flush_line expiration reply) reply) MEMCACHED_SUCCESS.

Definition memcached_flush (expiration : Z) : SIO memcached_return_t :=
  let* rc := initialize_query true in
  if memcached_failed rc then ret rc else
  let* f := sconf flags in
  if binary_protocol f then memcached_flush_binary expiration (reply f) else memcached_flush_textual expiration (reply f).

(** ** version.cc *)

(** Servers whose version is known are passed over; [(success, errors_happened)]. *)
Definition version_textual_server (x : Z * bool) : IO (Z * bool) :=
  let* v := geti versions in
  if negb (fst (fst v) =? 255) then ret x else
  let* rrc := memcached_vdo [lit "version" ++ CRLF] true in
  if memcached_failed rrc then let* _ := memcached_set_error rrc in ret (fst x, true) else ret (u32 (fst x + 1), snd x).

(** The number is put into the request before the version is looked at. *)
Definition version_binary_server (x : Z * bool) : IO (Z * bool) :=
  let* h := initialize_binary_request (new_request PROTOCOL_BINARY_CMD_VERSION) in
  let* v := geti versions in
  if negb (fst (fst v) =? 255) then ret x else
  let* rrc := memcached_vdo [octets (header_bytes h)] true in
  if memcached_failed rrc then memcached_io_reset ;;; ret (fst x, true) else ret (u32 (fst x + 1), snd x).

(** The responses of all servers; each round takes one or closes a connection. *)
Fixpoint collect_versions (fuel : nat) (buffer_length : Z) (errors_happened : bool) : SIO bool :=
  let* server := memcached_io_get_readable_server in
  match server with
  | None => ret errors_happened
  | Some k =>
    match fuel with
    | O => stuck OutOfFuel
    | S fuel =>
      let* failed := at_instance k (
        let* rrc := memcached_response_root buffer_length in
        if memcached_failed rrc then memcached_io_reset ;;; ret true else ret false) in
      collect_versions fuel buffer_length (errors_happened || failed)
    end
  end.

Definition versions_of (server : Z * bool -> IO (Z * bool)) (buffer_length : Z) : SIO memcached_return_t :=
  let* n := sconf (fun m => List.length (servers m)) in
  let* x := over_servers n 0 server (0, false) in
  let* errors_happened :=
    if fst x =? 0 then ret (snd x) else
    let* fuel := gets (fun s => fetch_fuel (ses_insts s)) in
    collect_versions (S fuel) buffer_length (snd x) in
  ret (if errors_happened : bool then MEMCACHED_SOME_ERRORS else MEMCACHED_SUCCESS).

Definition memcached_version_textual : SIO memcached_return_t := versions_of version_textual_server 1024.
Definition memcached_version_binary : SIO memcached_return_t := versions_of version_binary_server 32.

Definition memcached_version : SIO memcached_return_t :=
  let* rc := initialize_query true in
  if memcached_failed rc then ret rc else
  let* f := sconf flags in
  if use_udp f then ret MEMCACHED_NOT_SUPPORTED else
  if binary_protocol f then memcached_version_binary else memcached_version_textual.

(** ** exist.cc *)

Definition exist_vector (ns key : cstring) : list cstring :=
  [[]; lit "add "; ns; key; lit " 0"; lit " 2678400"; lit " 0"; CRLF; CRLF].

(** What the codes of an addition say about the key. *)
Definition ascii_exist_code (rc : memcached_return_t) : memcached_return_t :=
  match rc with MEMCACHED_NOTSTORED => MEMCACHED_SUCCESS | MEMCACHED_STORED => MEMCACHED_NOTFOUND | _ => rc end.
Definition binary_exist_code (rc : memcached_return_t) : memcached_return_t :=
  match rc with MEMCACHED_SUCCESS => MEMCACHED_NOTFOUND | MEMCACHED_DATA_EXISTS => MEMCACHED_SUCCESS | _ => rc end.

Definition ascii_exist (key : cstring) : IO memcached_return_t :=
  let* ns := conf _namespace in
  let* rc := memcached_vdo (exist_vector ns key) true in
  if memcached_fatal rc then ret rc else
  let* rc := memcached_response_root MEMCACHED_DEFAULT_COMMAND_SIZE in ret (ascii_exist_code rc).

Definition binary_exist (key : cstring) : IO memcached_return_t :=
  let* ns := conf _namespace in
  let* h := initialize_binary_request zero_header in
  let h := request_header PROTOCOL_BINARY_CMD_ADD (size key + size ns) 8 0 h in
  let* rc := memcached_vdo [[]; octets (header_bytes h ++ le 4 0 ++ le 4 (htonl 2678400)); ns; key] true in
  if memcached_fatal rc then ret rc else
  let* rc := memcached_response_root 0 in ret (binary_exist_code rc).

Definition memcached_exist_by_key (group_key key : cstring) : SIO memcached_return_t :=
  let* rc := initialize_query true in
  if memcached_failed rc then ret rc else
  let* f := sconf flags in
  if use_udp f then at_root (memcached_set_error_root MEMCACHED_NOT_SUPPORTED) else
  let* server_key := pick_server group_key in
  at_instance server_key (
    let* rc := if binary_protocol f then binary_exist key else ascii_exist key in
    (if memcached_fatal rc then memcached_io_reset else ret tt) ;;; ret rc).

Definition memcached_exist (key : cstring) : SIO memcached_return_t := memcached_exist_by_key key key.
End Administration.
