(* ===== verification/ClientStats.v ===== *)
(** * Statistics of the servers: stats.cc

    The statistics that a server sends, line by line or packet by packet, into a structure and
    out of it again. A user's callback is recorded: the calls of [memcached_stat_execute] are a
    list. Statistics are C strings inside the array of the response, which [set_data] writes to. *)

From stdpp Require Import base list.
From Stdlib Require Import ZArith Ascii String.
From S2P Require Import Prelude CxxString HashWords HashKit HashkitString Rijndael Aes Continuum ClientTypes.
From S2P Require Import ByteOrder ClientString ClientState BinaryProtocol ClientRead ClientWrite ClientOps ClientBinaryOps ClientGet.
From S2P Require Import ClientBehavior ClientAdmin.

(** [memcached_stat_st]; [stat_version] is an array of 24 characters, the list its string. *)
Record Stat := mkStat {
  stat_connection_structures : Z;
  stat_curr_connections : Z;
  stat_curr_items : Z;
  stat_pid : Z;
  stat_pointer_size : Z;
  stat_rusage_system_microseconds : Z;
  stat_rusage_system_seconds : Z;
  stat_rusage_user_microseconds : Z;
  stat_rusage_user_seconds : Z;
  stat_threads : Z;
  stat_time : Z;
  stat_total_connections : Z;
  stat_total_items : Z;
  stat_uptime : Z;
  stat_bytes : Z;
  stat_bytes_read : Z;
  stat_bytes_written : Z;
  stat_cmd_get : Z;
  stat_cmd_set : Z;
  stat_evictions : Z;
  stat_get_hits : Z;
  stat_get_misses : Z;
  stat_limit_maxbytes : Z;
  stat_version : cstring;
}.

Definition put_connection_structures (v : Z) (s : Stat) : Stat :=
  mkStat v (stat_curr_connections s) (stat_curr_items s) (stat_pid s) (stat_pointer_size s)
    (stat_rusage_system_microseconds s) (stat_rusage_system_seconds s) (stat_rusage_user_microseconds s)
    (stat_rusage_user_seconds s) (stat_threads s) (stat_time s) (stat_total_connections s) (stat_total_items s)
    (stat_uptime s) (stat_bytes s) (stat_bytes_read s) (stat_bytes_written s) (stat_cmd_get s) (stat_cmd_set s)
    (stat_evictions s) (stat_get_hits s) (stat_get_misses s) (stat_limit_maxbytes s) (stat_version s).
Definition put_curr_connections (v : Z) (s : Stat) : Stat :=
  mkStat (stat_connection_structures s) v (stat_curr_items s) (stat_pid s) (stat_pointer_size s)
    (stat_rusage_system_microseconds s) (stat_rusage_system_seconds s) (stat_rusage_user_microseconds s)
    (stat_rusage_user_seconds s) (stat_threads s) (stat_time s) (stat_total_connections s) (stat_total_items s)
    (stat_uptime s) (stat_bytes s) (stat_bytes_read s) (stat_bytes_written s) (stat_cmd_get s) (stat_cmd_set s)
    (stat_evictions s) (stat_get_hits s) (stat_get_misses s) (stat_limit_maxbytes s) (stat_version s).
Definition put_curr_items (v : Z) (s : Stat) : Stat :=
  mkStat (stat_connection_structures s) (stat_curr_connections s) v (stat_pid s) (stat_pointer_size s)
    (stat_rusage_system_microseconds s) (stat_rusage_system_seconds s) (stat_rusage_user_microseconds s)
    (stat_rusage_user_seconds s) (stat_threads s) (stat_time s) (stat_total_connections s) (stat_total_items s)
    (stat_uptime s) (stat_bytes s) (stat_bytes_read s) (stat_bytes_written s) (stat_cmd_get s) (stat_cmd_set s)
    (stat_evictions s) (stat_get_hits s) (stat_get_misses s) (stat_limit_maxbytes s) (stat_version s).
Definition put_pid (v : Z) (s : Stat) : Stat :=
  mkStat (stat_connection_structures s) (stat_curr_connections s) (stat_curr_items s) v (stat_pointer_size s)
    (stat_rusage_system_microseconds s) (stat_rusage_system_seconds s) (stat_rusage_user_microseconds s)
    (stat_rusage_user_seconds s) (stat_threads s) (stat_time s) (stat_total_connections s) (stat_total_items s)
    (stat_uptime s) (stat_bytes s) (stat_bytes_read s) (stat_bytes_written s) (stat_cmd_get s) (stat_cmd_set s)
    (stat_evictions s) (stat_get_hits s) (stat_get_misses s) (stat_limit_maxbytes s) (stat_version s).
Definition put_pointer_size (v : Z) (s : Stat) : Stat :=
  mkStat (stat_connection_structures s) (stat_curr_connections s) (stat_curr_items s) (stat_pid s) v
    (stat_rusage_system_microseconds s) (stat_rusage_system_seconds s) (stat_rusage_user_microseconds s)
    (stat_rusage_user_seconds s) (stat_threads s) (stat_time s) (stat_total_connections s) (stat_total_items s)
    (stat_uptime s) (stat_bytes s) (stat_bytes_read s) (stat_bytes_written s) (stat_cmd_get s) (stat_cmd_set s)
    (stat_evictions s) (stat_get_hits s) (stat_get_misses s) (stat_limit_maxbytes s) (stat_version s).
Definition put_rusage_system_microseconds (v : Z) (s : Stat) : Stat :=
  mkStat (stat_connection_structures s) (stat_curr_connections s) (stat_curr_items s) (stat_pid s)
    (stat_pointer_size s) v (stat_rusage_system_seconds s) (stat_rusage_user_microseconds s)
    (stat_rusage_user_seconds s) (stat_threads s) (stat_time s) (stat_total_connections s) (stat_total_items s)
    (stat_uptime s) (stat_bytes s) (stat_bytes_read s) (stat_bytes_written s) (stat_cmd_get s) (stat_cmd_set s)
    (stat_evictions s) (stat_get_hits s) (stat_get_misses s) (stat_limit_maxbytes s) (stat_version s).
Definition put_rusage_system_seconds (v : Z) (s : Stat) : Stat :=
  mkStat (stat_connection_structures s) (stat_curr_connections s) (stat_curr_items s) (stat_pid s)
    (stat_pointer_size s) (stat_rusage_system_microseconds s) v (stat_rusage_user_microseconds s)
    (stat_rusage_user_seconds s) (stat_threads s) (stat_time s) (stat_total_connections s) (stat_total_items s)
    (stat_uptime s) (stat_bytes s) (stat_bytes_read s) (stat_bytes_written s) (stat_cmd_get s) (stat_cmd_set s)
    (stat_evictions s) (stat_get_hits s) (stat_get_misses s) (stat_limit_maxbytes s) (stat_version s).
Definition put_rusage_user_microseconds (v : Z) (s : Stat) : Stat :=
  mkStat (stat_connection_structures s) (stat_curr_connections s) (stat_curr_items s) (stat_pid s)
    (stat_pointer_size s) (stat_rusage_system_microseconds s) (stat_rusage_system_seconds s) v
    (stat_rusage_user_seconds s) (stat_threads s) (stat_time s) (stat_total_connections s) (stat_total_items s)
    (stat_uptime s) (stat_bytes s) (stat_bytes_read s) (stat_bytes_written s) (stat_cmd_get s) (stat_cmd_set s)
    (stat_evictions s) (stat_get_hits s) (stat_get_misses s) (stat_limit_maxbytes s) (stat_version s).
Definition put_rusage_user_seconds (v : Z) (s : Stat) : Stat :=
  mkStat (stat_connection_structures s) (stat_curr_connections s) (stat_curr_items s) (stat_pid s)
    (stat_pointer_size s) (stat_rusage_system_microseconds s) (stat_rusage_system_seconds s)
    (stat_rusage_user_microseconds s) v (stat_threads s) (stat_time s) (stat_total_connections s) (stat_total_items s)
    (stat_uptime s) (stat_bytes s) (stat_bytes_read s) (stat_bytes_written s) (stat_cmd_get s) (stat_cmd_set s)
    (stat_evictions s) (stat_get_hits s) (stat_get_misses s) (stat_limit_maxbytes s) (stat_version s).
Definition put_threads (v : Z) (s : Stat) : Stat :=
  mkStat (stat_connection_structures s) (stat_curr_connections s) (stat_curr_items s) (stat_pid s)
    (stat_pointer_size s) (stat_rusage_system_microseconds s) (stat_rusage_system_seconds s)
    (stat_rusage_user_microseconds s) (stat_rusage_user_seconds s) v (stat_time s) (stat_total_connections s)
    (stat_total_items s) (stat_uptime s) (stat_bytes s) (stat_bytes_read s) (stat_bytes_written s) (stat_cmd_get s)
    (stat_cmd_set s) (stat_evictions s) (stat_get_hits s) (stat_get_misses s) (stat_limit_maxbytes s) (stat_version s).
Definition put_time (v : Z) (s : Stat) : Stat :=
  mkStat (stat_connection_structures s) (stat_curr_connections s) (stat_curr_items s) (stat_pid s)
    (stat_pointer_size s) (stat_rusage_system_microseconds s) (stat_rusage_system_seconds s)
    (stat_rusage_user_microseconds s) (stat_rusage_user_seconds s) (stat_threads s) v (stat_total_connections s)
    (stat_total_items s) (stat_uptime s) (stat_bytes s) (stat_bytes_read s) (stat_bytes_written s) (stat_cmd_get s)
    (stat_cmd_set s) (stat_evictions s) (stat_get_hits s) (stat_get_misses s) (stat_limit_maxbytes s) (stat_version s).
Definition put_total_connections (v : Z) (s : Stat) : Stat :=
  mkStat (stat_connection_structures s) (stat_curr_connections s) (stat_curr_items s) (stat_pid s)
    (stat_pointer_size s) (stat_rusage_system_microseconds s) (stat_rusage_system_seconds s)
    (stat_rusage_user_microseconds s) (stat_rusage_user_seconds s) (stat_threads s) (stat_time s) v
    (stat_total_items s) (stat_uptime s) (stat_bytes s) (stat_bytes_read s) (stat_bytes_written s) (stat_cmd_get s)
    (stat_cmd_set s) (stat_evictions s) (stat_get_hits s) (stat_get_misses s) (stat_limit_maxbytes s) (stat_version s).
Definition put_total_items (v : Z) (s : Stat) : Stat :=
  mkStat (stat_connection_structures s) (stat_curr_connections s) (stat_curr_items s) (stat_pid s)
    (stat_pointer_size s) (stat_rusage_system_microseconds s) (stat_rusage_system_seconds s)
    (stat_rusage_user_microseconds s) (stat_rusage_user_seconds s) (stat_threads s) (stat_time s)
    (stat_total_connections s) v (stat_uptime s) (stat_bytes s) (stat_bytes_read s) (stat_bytes_written s)
    (stat_cmd_get s) (stat_cmd_set s) (stat_evictions s) (stat_get_hits s) (stat_get_misses s) (stat_limit_maxbytes s)
    (stat_version s).
Definition put_uptime (v : Z) (s : Stat) : Stat :=
  mkStat (stat_connection_structures s) (stat_curr_connections s) (stat_curr_items s) (stat_pid s)
    (stat_pointer_size s) (stat_rusage_system_microseconds s) (stat_rusage_system_seconds s)
    (stat_rusage_user_microseconds s) (stat_rusage_user_seconds s) (stat_threads s) (stat_time s)
    (stat_total_connections s) (stat_total_items s) v (stat_bytes s) (stat_bytes_read s) (stat_bytes_written s)
    (stat_cmd_get s) (stat_cmd_set s) (stat_evictions s) (stat_get_hits s) (stat_get_misses s) (stat_limit_maxbytes s)
    (stat_version s).
Definition put_bytes (v : Z) (s : Stat) : Stat :=
  mkStat (stat_connection_structures s) (stat_curr_connections s) (stat_curr_items s) (stat_pid s)
    (stat_pointer_size s) (stat_rusage_system_microseconds s) (stat_rusage_system_seconds s)
    (stat_rusage_user_microseconds s) (stat_rusage_user_seconds s) (stat_threads s) (stat_time s)
    (stat_total_connections s) (stat_total_items s) (stat_uptime s) v (stat_bytes_read s) (stat_bytes_written s)
    (stat_cmd_get s) (stat_cmd_set s) (stat_evictions s) (stat_get_hits s) (stat_get_misses s) (stat_limit_maxbytes s)
    (stat_version s).
Definition put_bytes_read (v : Z) (s : Stat) : Stat :=
  mkStat (stat_connection_structures s) (stat_curr_connections s) (stat_curr_items s) (stat_pid s)
    (stat_pointer_size s) (stat_rusage_system_microseconds s) (stat_rusage_system_seconds s)
    (stat_rusage_user_microseconds s) (stat_rusage_user_seconds s) (stat_threads s) (stat_time s)
    (stat_total_connections s) (stat_total_items s) (stat_uptime s) (stat_bytes s) v (stat_bytes_written s)
    (stat_cmd_get s) (stat_cmd_set s) (stat_evictions s) (stat_get_hits s) (stat_get_misses s) (stat_limit_maxbytes s)
    (stat_version s).
Definition put_bytes_written (v : Z) (s : Stat) : Stat :=
  mkStat (stat_connection_structures s) (stat_curr_connections s) (stat_curr_items s) (stat_pid s)
    (stat_pointer_size s) (stat_rusage_system_microseconds s) (stat_rusage_system_seconds s)
    (stat_rusage_user_microseconds s) (stat_rusage_user_seconds s) (stat_threads s) (stat_time s)
    (stat_total_connections s) (stat_total_items s) (stat_uptime s) (stat_bytes s) (stat_bytes_read s) v
    (stat_cmd_get s) (stat_cmd_set s) (stat_evictions s) (stat_get_hits s) (stat_get_misses s) (stat_limit_maxbytes s)
    (stat_version s).
Definition put_cmd_get (v : Z) (s : Stat) : Stat :=
  mkStat (stat_connection_structures s) (stat_curr_connections s) (stat_curr_items s) (stat_pid s)
    (stat_pointer_size s) (stat_rusage_system_microseconds s) (stat_rusage_system_seconds s)
    (stat_rusage_user_microseconds s) (stat_rusage_user_seconds s) (stat_threads s) (stat_time s)
    (stat_total_connections s) (stat_total_items s) (stat_uptime s) (stat_bytes s) (stat_bytes_read s)
    (stat_bytes_written s) v (stat_cmd_set s) (stat_evictions s) (stat_get_hits s) (stat_get_misses s)
    (stat_limit_maxbytes s) (stat_version s).
Definition put_cmd_set (v : Z) (s : Stat) : Stat :=
  mkStat (stat_connection_structures s) (stat_curr_connections s) (stat_curr_items s) (stat_pid s)
    (stat_pointer_size s) (stat_rusage_system_microseconds s) (stat_rusage_system_seconds s)
    (stat_rusage_user_microseconds s) (stat_rusage_user_seconds s) (stat_threads s) (stat_time s)
    (stat_total_connections s) (stat_total_items s) (stat_uptime s) (stat_bytes s) (stat_bytes_read s)
    (stat_bytes_written s) (stat_cmd_get s) v (stat_evictions s) (stat_get_hits s) (stat_get_misses s)
    (stat_limit_maxbytes s) (stat_version s).
Definition put_evictions (v : Z) (s : Stat) : Stat :=
  mkStat (stat_connection_structures s) (stat_curr_connections s) (stat_curr_items s) (stat_pid s)
    (stat_pointer_size s) (stat_rusage_system_microseconds s) (stat_rusage_system_seconds s)
    (stat_rusage_user_microseconds s) (stat_rusage_user_seconds s) (stat_threads s) (stat_time s)
    (stat_total_connections s) (stat_total_items s) (stat_uptime s) (stat_bytes s) (stat_bytes_read s)
    (stat_bytes_written s) (stat_cmd_get s) (stat_cmd_set s) v (stat_get_hits s) (stat_get_misses s)
    (stat_limit_maxbytes s) (stat_version s).
Definition put_get_hits (v : Z) (s : Stat) : Stat :=
  mkStat (stat_connection_structures s) (stat_curr_connections s) (stat_curr_items s) (stat_pid s)
    (stat_pointer_size s) (stat_rusage_system_microseconds s) (stat_rusage_system_seconds s)
    (stat_rusage_user_microseconds s) (stat_rusage_user_seconds s) (stat_threads s) (stat_time s)
    (stat_total_connections s) (stat_total_items s) (stat_uptime s) (stat_bytes s) (stat_bytes_read s)
    (stat_bytes_written s) (stat_cmd_get s) (stat_cmd_set s) (stat_evictions s) v (stat_get_misses s)
    (stat_limit_maxbytes s) (stat_version s).
Definition put_get_misses (v : Z) (s : Stat) : Stat :=
  mkStat (stat_connection_structures s) (stat_curr_connections s) (stat_curr_items s) (stat_pid s)
    (stat_pointer_size s) (stat_rusage_system_microseconds s) (stat_rusage_system_seconds s)
    (stat_rusage_user_microseconds s) (stat_rusage_user_seconds s) (stat_threads s) (stat_time s)
    (stat_total_connections s) (stat_total_items s) (stat_uptime s) (stat_bytes s) (stat_bytes_read s)
    (stat_bytes_written s) (stat_cmd_get s) (stat_cmd_set s) (stat_evictions s) (stat_get_hits s) v
    (stat_limit_maxbytes s) (stat_version s).
Definition put_limit_maxbytes (v : Z) (s : Stat) : Stat :=
  mkStat (stat_connection_structures s) (stat_curr_connections s) (stat_curr_items s) (stat_pid s)
    (stat_pointer_size s) (stat_rusage_system_microseconds s) (stat_rusage_system_seconds s)
    (stat_rusage_user_microseconds s) (stat_rusage_user_seconds s) (stat_threads s) (stat_time s)
    (stat_total_connections s) (stat_total_items s) (stat_uptime s) (stat_bytes s) (stat_bytes_read s)
    (stat_bytes_written s) (stat_cmd_get s) (stat_cmd_set s) (stat_evictions s) (stat_get_hits s) (stat_get_misses s)
    v (stat_version s).
Definition put_version (v : cstring) (s : Stat) : Stat :=
  mkStat (stat_connection_structures s) (stat_curr_connections s) (stat_curr_items s) (stat_pid s)
    (stat_pointer_size s) (stat_rusage_system_microseconds s) (stat_rusage_system_seconds s)
    (stat_rusage_user_microseconds s) (stat_rusage_user_seconds s) (stat_threads s) (stat_time s)
    (stat_total_connections s) (stat_total_items s) (stat_uptime s) (stat_bytes s) (stat_bytes_read s)
    (stat_bytes_written s) (stat_cmd_get s) (stat_cmd_set s) (stat_evictions s) (stat_get_hits s) (stat_get_misses s)
    (stat_limit_maxbytes s) v.

(** What [calloc] leaves, with the [pid] that [memcached_stat] sets. *)
Definition new_Stat : Stat := mkStat 0 0 0 (-1) 0 0 0 0 0 0 0 0 0 0 0 0 0 0 0 0 0 0 0 [].

(** ** Into the structure *)

Definition MEMCACHED_VERSION_STRING_LENGTH : Z := 24.
Definition INT32_MAX : Z := 2147483647.
Definition INT64_MAX : Z := 9223372036854775807.

(** The string at the start of an array. *)
Fixpoint c_string (buf : cstring) : outcome cstring :=
  match buf with
  | [] => Stuck Undefined
  | c :: buf => if ascii_eqb c zero then Ret [] else let? s := c_string buf in Ret (c :: s)
  end.

Definition isalpha (c : ascii) : bool :=
  ((65 <=? uchar c) && (uchar c <=? 90)) || ((97 <=? uchar c) && (uchar c <=? 122)).
Definition ispunct (c : ascii) : bool := isgraph c && negb (isdigit c || isalpha c).

Definition strtoll (buf : cstring) (i : nat) : outcome Z :=
  let? (neg, v, stop) := scan_number buf i in
  let x := if neg then - v else v in
  Ret (if x <? - INT64_MAX - 1 then - INT64_MAX - 1 else if INT64_MAX <? x then INT64_MAX else x).

(** A character of the array is overwritten. *)
Definition poke (buf : cstring) (i : nat) (c : ascii) : outcome cstring :=
  if (i <? List.length buf)%nat then Ret (<[i := c]> buf) else Stuck Undefined.

Section Stats.
Context `{DM : DataModel} `{AL : Allocator} `{CF : ClientConfig} `{CK : Clock} `{CC : CipherConfig}.
Context `{BR : BinaryReader} `{TR : Transport} `{KR : KeyRouter} `{MP : MultiPoll}.

(** The members that are one number: the width of the conversion, and of the member. *)
Definition number_stat (key : cstring) : option (Z * Z * (Z -> Stat -> Stat)) :=
  let table := [
    ("uptime", (long_bits, long_bits, put_uptime)); ("time", (long_bits, long_bits, put_time));
    ("pointer_size", (long_bits, long_bits, put_pointer_size)); ("curr_items", (long_bits, long_bits, put_curr_items));
    ("total_items", (long_bits, long_bits, put_total_items)); ("bytes_read", (64, 64, put_bytes_read));
    ("bytes_written", (64, 64, put_bytes_written)); ("bytes", (64, 64, put_bytes));
    ("curr_connections", (64, long_bits, put_curr_connections)); ("total_connections", (64, long_bits, put_total_connections));
    ("connection_structures", (long_bits, long_bits, put_connection_structures)); ("cmd_get", (64, 64, put_cmd_get));
    ("cmd_set", (64, 64, put_cmd_set)); ("get_hits", (64, 64, put_get_hits)); ("get_misses", (64, 64, put_get_misses));
    ("evictions", (64, 64, put_evictions)); ("limit_maxbytes", (64, 64, put_limit_maxbytes));
    ("threads", (long_bits, long_bits, put_threads))]%string in
  option_map snd (find (fun e => str_eqb (lit (fst e)) key) table).

(** [rusage_user] and [rusage_system]: the numbers before and behind the first punctuation. *)
Definition set_rusage (put_seconds put_microseconds : Z -> Stat -> Stat) (value : cstring) (s : Stat) : outcome Stat :=
  let? walk := skip_while (fun c => negb (ispunct c)) value 0 in
  let? value := poke value walk zero in
  let? seconds := strtou long_bits value 0 in
  let? micro := strtou long_bits value (S walk) in
  Ret (put_microseconds (fst (fst micro)) (put_seconds (fst (fst seconds)) s)).

(** [value] is the array from the value on. Keys that are not known are passed over. *)
Definition set_data (key value : cstring) (s : Stat) : outcome (memcached_return_t * Stat) :=
  if bool_decide (key = []) then Ret (MEMCACHED_UNKNOWN_STAT_KEY, s) else
  let? s :=
    if str_eqb key (lit "pid") then
      let? temp := strtoll value 0 in
      Ret (if temp <=? INT32_MAX then put_pid (int32 temp) s else if -1 <? temp then put_pid (int32 temp) s else s)
    else if str_eqb key (lit "version") then
      let? v := c_string value in
      if size v <? MEMCACHED_VERSION_STRING_LENGTH then Ret (put_version v s) else Stuck Undefined
    else if str_eqb key (lit "rusage_user") then set_rusage put_rusage_user_seconds put_rusage_user_microseconds value s
    else if str_eqb key (lit "rusage_system") then set_rusage put_rusage_system_seconds put_rusage_system_microseconds value s
    else match number_stat key with
    | Some (bits, width, put) => let? v := strtou bits value 0 in Ret (put (fst (fst v) mod 2 ^ width) s)
    | None => Ret s
    end in
  Ret (MEMCACHED_SUCCESS, s).

(** ** Out of the structure *)

Definition memcached_stat_keys : list cstring :=
  map lit ["pid"; "uptime"; "time"; "version"; "pointer_size"; "rusage_user"; "rusage_system"; "curr_items"; "total_items";
    "bytes"; "curr_connections"; "total_connections"; "connection_structures"; "cmd_get"; "cmd_set"; "get_hits"; "get_misses";
    "evictions"; "bytes_read"; "bytes_written"; "limit_maxbytes"; "threads"]%string.

Definition show (z : Z) : cstring := if z <? 0 then "-"%char :: to_string (- z) else to_string z.

Definition rusage_text (seconds microseconds : Z) : cstring := to_string seconds ++ lit "." ++ to_string microseconds.

(** The keys in the order of the comparisons, each of which looks only at the beginning. *)
Definition stat_readers : list (String.string * (Stat -> cstring)) := [
  ("pid", fun s => show (stat_pid s)); ("uptime", fun s => to_string (stat_uptime s)); ("time", fun s => to_string (stat_time s));
  ("version", stat_version); ("pointer_size", fun s => to_string (stat_pointer_size s));
  ("rusage_user", fun s => rusage_text (stat_rusage_user_seconds s) (stat_rusage_user_microseconds s));
  ("rusage_system", fun s => rusage_text (stat_rusage_system_seconds s) (stat_rusage_system_microseconds s));
  ("curr_items", fun s => to_string (stat_curr_items s)); ("total_items", fun s => to_string (stat_total_items s));
  ("curr_connections", fun s => to_string (stat_curr_connections s));
  ("total_connections", fun s => to_string (stat_total_connections s));
  ("connection_structures", fun s => to_string (stat_connection_structures s)); ("cmd_get", fun s => to_string (stat_cmd_get s));
  ("cmd_set", fun s => to_string (stat_cmd_set s)); ("get_hits", fun s => to_string (stat_get_hits s));
  ("get_misses", fun s => to_string (stat_get_misses s)); ("evictions", fun s => to_string (stat_evictions s));
  ("bytes_read", fun s => to_string (stat_bytes_read s)); ("bytes_written", fun s => to_string (stat_bytes_written s));
  ("bytes", fun s => to_string (stat_bytes s)); ("limit_maxbytes", fun s => to_string (stat_limit_maxbytes s));
  ("threads", fun s => to_string (stat_threads s))]%string.

(** [memcmp] is taken to stop at the first difference. *)
Definition stat_reader (key : cstring) : option (Stat -> cstring) :=
  option_map snd (find (fun e => is_prefix (lit (fst e)) key) stat_readers).

(** [granted] is the answer of [malloc], which is not looked at. *)
Definition memcached_stat_get_value (granted : bool) (memc_stat : option Stat) (key : cstring)
    : outcome (memcached_return_t * option cstring) :=
  match memc_stat with
  | None => Ret (MEMCACHED_INVALID_ARGUMENTS, None)
  | Some s =>
    match stat_reader key with
    | None => Ret (MEMCACHED_NOTFOUND, None)
    | Some text =>
      if SMALL_STRING_LEN <=? size (text s) then Ret (MEMCACHED_FAILURE, None) else
      if granted then Ret (MEMCACHED_SUCCESS, Some (text s)) else Stuck Undefined
    end
  end.

(** ** Asking a server *)

(** What a call of [binary_stats_fetch] or [ascii_stats_fetch] collects: the structure, if there is
    one, and the calls of the callback, if there is one, newest first. *)
Record Collected := mkCollected { col_stat : option Stat; col_calls : option (list (cstring * cstring)) }.

(** [key] and the array [value]; the structure comes last, for it writes to the array. *)
Definition collect (key value : cstring) (c : Collected) : outcome Collected :=
  let? calls := (match col_calls c with
    | Some l => let? v := c_string value in Ret (Some ((key, v) :: l))
    | None => Ret None
    end) in
  let? s := (match col_stat c with
    | Some s => let? x := set_data key value s in Ret (Some (snd x))
    | None => Ret None
    end) in
  Ret (mkCollected s calls).

(** Every response takes a character at least. *)
Definition stat_fuel (i : Inst) : nat := S (to_read (recvs (net i)) + Z.to_nat (read_buffer_length (rd i))).

Fixpoint binary_stats_loop (fuel : nat) (buffer : cstring) (c : Collected) : IO (memcached_return_t * Collected) :=
  match fuel with
  | O => stuck OutOfFuel
  | S fuel =>
    let* r := getr result in
    let* x := memcached_response_into buffer MEMCACHED_DEFAULT_COMMAND_SIZE r in
    let '(rc, buffer, r) := x in
    on_root (set_result r) ;;;
    if rc_eqb rc MEMCACHED_END then on_inst (set_cursor 0) ;;; ret (MEMCACHED_SUCCESS, c) else
    if negb (rc_eqb rc MEMCACHED_SUCCESS) then memcached_io_reset ;;; ret (rc, c) else
    let* key := lift (c_string buffer) in
    let* c := lift (collect key (drop (S (List.length key)) buffer) c) in
    binary_stats_loop fuel buffer c
  end.

Definition binary_stats_fetch (args : cstring) (c : Collected) : IO (memcached_return_t * Collected) :=
  let* h := initialize_binary_request (mkHeader 0 PROTOCOL_BINARY_CMD_STAT 0 0 PROTOCOL_BINARY_RAW_BYTES 0 0 0 0) in
  let h := if size args =? 0 then h
           else mkHeader (magic h) (opcode h) (htons (size args mod 65536)) (extlen h) (datatype h) (status h)
                  (htonl (u32 (size args))) (opaque h) (hdr_cas h) in
  let* rc := memcached_vdo (if size args =? 0 then [octets (header_bytes h)] else [octets (header_bytes h); args]) true in
  if negb (rc_eqb rc MEMCACHED_SUCCESS) then memcached_io_reset ;;; ret (MEMCACHED_WRITE_FAILURE, c) else
  memcached_server_response_decrement ;;;
  let* n := geti stat_fuel in
  binary_stats_loop n [] c.

(** The key and the value of a line behind "STAT ", each ended by a null character. *)
Definition split_stat (buffer : cstring) : outcome (cstring * cstring * cstring) :=
  let? stop := skip_while isgraph buffer 5 in
  let key := take (stop - 5) (drop 5 buffer) in
  let? buffer := poke buffer stop zero in
  let? stop' := skip_while (fun c => negb (isspace c)) buffer (S stop) in
  let? buffer := poke buffer stop' zero in
  Ret (key, drop (S stop) buffer, buffer).

Fixpoint ascii_stats_loop (fuel : nat) (buffer : cstring) (c : Collected) : IO (memcached_return_t * Collected) :=
  match fuel with
  | O => stuck OutOfFuel
  | S fuel =>
    let* r := getr result in
    let* x := memcached_response_into buffer MEMCACHED_DEFAULT_COMMAND_SIZE r in
    let '(rc, buffer, r) := x in
    on_root (set_result r) ;;;
    if negb (rc_eqb rc MEMCACHED_STAT) then ret (rc, c) else
    let* y := lift (split_stat buffer) in
    let '(key, value, buffer) := y in
    let* c := lift (collect key value c) in
    ascii_stats_loop fuel buffer c
  end.

Definition ascii_stats_fetch (args : cstring) (c : Collected) : IO (memcached_return_t * Collected) :=
  let* rc := memcached_vdo [lit "stats "; args; CRLF] true in
  let* x := if memcached_success rc then let* n := geti stat_fuel in ascii_stats_loop n [] c else ret (rc, c) in
  let '(rc, c) := x in
  ret (match rc with MEMCACHED_ERROR => MEMCACHED_INVALID_ARGUMENTS | MEMCACHED_END => MEMCACHED_SUCCESS | _ => rc end, c).

Definition stats_fetch (args : cstring) (c : Collected) : IO (memcached_return_t * Collected) :=
  let* binary := conf (fun m => binary_protocol (flags m)) in
  if binary : bool then binary_stats_fetch args c else ascii_stats_fetch args c.

(** ** All servers *)

(** [sizeof(memcached_stat_st)]: 13 and a half [unsigned long], 9 [unsigned long long], 24
    characters and two pointers. *)
Definition sizeof_stat_st : Z := 16 * sizeof_ulong + 72 + 24.

Fixpoint stat_servers (n : nat) (k : Z) (args : cstring) (rc : memcached_return_t) : SIO (memcached_return_t * list Stat) :=
  match n with
  | O => ret (rc, [])
  | S n =>
    let* x := at_instance k (stats_fetch args (mkCollected (Some new_Stat) None)) in
    let s := default new_Stat (col_stat (snd x)) in
    (* the structures of the other servers are left as they were *)
    if rc_eqb (fst x) MEMCACHED_INVALID_ARGUMENTS
    then ret (MEMCACHED_INVALID_ARGUMENTS, s :: replicate n (put_pid 0 new_Stat)) else
    let* y := stat_servers n (k + 1) args (if memcached_failed (fst x) then MEMCACHED_SOME_ERRORS else rc) in
    ret (fst y, s :: snd y)
  end.

Definition memcached_stat (args : option cstring) : SIO (memcached_return_t * option (list Stat)) :=
  let* rc := initialize_query true in
  if memcached_failed rc then ret (rc, None) else
  let* f := sconf flags in
  if use_udp f then let* rc := refuse MEMCACHED_NOT_SUPPORTED in ret (rc, None) else
  let rc := match args with Some a => memcached_validate_key_length (size a) (binary_protocol f) | None => MEMCACHED_SUCCESS end in
  if memcached_failed rc then let* rc := refuse rc in ret (rc, None) else
  let* n := sconf (fun m => List.length (servers m)) in
  let* granted := at_root (alloc (ulong (Z.of_nat n * sizeof_stat_st))) in
  if negb granted then let* rc := refuse MEMCACHED_MEMORY_ALLOCATION_FAILURE in ret (rc, None) else
  let* x := stat_servers n 0 (default [] args) MEMCACHED_SUCCESS in
  ret (fst x, Some (snd x)).

(** [memcached_stat_get_keys]: a copy of the list. *)
Definition memcached_stat_get_keys : SIO (memcached_return_t * option (list cstring)) :=
  let* granted := at_root (alloc ((Z.of_nat (List.length memcached_stat_keys) + 1) * sizeof_ulong)) in
  if granted : bool then ret (MEMCACHED_SUCCESS, Some memcached_stat_keys)
  else let* rc := refuse MEMCACHED_MEMORY_ALLOCATION_FAILURE in ret (rc, None).

(** [memcached_server_execute] of instance.cc with a callback that is not null; an error does not
    stop it, an invalid argument does. *)
Fixpoint memcached_server_execute {A} (n : nat) (k : Z) (callback : A -> IO (memcached_return_t * A)) (a : A)
    : SIO (memcached_return_t * A) :=
  match n with
  | O => ret (MEMCACHED_SUCCESS, a)
  | S n =>
    let* x := at_instance k (callback a) in
    if rc_eqb (fst x) MEMCACHED_INVALID_ARGUMENTS then ret x else memcached_server_execute n (k + 1) callback (snd x)
  end.

(** The calls of the user's function for each server, in order. *)
Definition call_stat_fn (args : cstring) (calls : list (list (cstring * cstring)))
    : IO (memcached_return_t * list (list (cstring * cstring))) :=
  let* x := stats_fetch args (mkCollected None (Some [])) in
  ret (fst x, calls ++ [rev (default [] (col_calls (snd x)))]).

Definition memcached_stat_execute (args : option cstring) : SIO (memcached_return_t * list (list (cstring * cstring))) :=
  let* rc := memcached_version in
  if memcached_fatal rc then let* e := sroot memcached_last_error in ret (e, []) else
  let* n := sconf (fun m => List.length (servers m)) in
  memcached_server_execute n 0 (call_stat_fn (default [] args)) [].
End Stats.
