(* ===== verification/ClientFrameOps.v ===== *)
(** * What operations leave alone: whole clients

    The frame lemmas of ClientFrame for the operations of a client with all its servers. *)

From stdpp Require Import base list.
From Stdlib Require Import ZArith Ascii Lia String.
From S2P Require Import Prelude CxxString HashWords HashkitString Rijndael Aes HashKit ClientTypes ByteOrder ClientString.
From S2P Require Import Continuum Distribution ClientState BinaryProtocol ClientRead ClientBinary ClientReadSpec ClientWrite.
From S2P Require Import ClientConnect ClientWriteSpec ClientOps ClientBinaryOps ClientBehavior ClientFrame ClientGet ClientAdmin.

Definition keeps_all {A} (m : SIO A) : Prop :=
  forall s, settings (memc (ses_root (snd (m s)))) = settings (memc (ses_root s)).

Lemma all_bind {A B} (m : SIO A) (k : A -> SIO B) : keeps_all m -> (forall a, keeps_all (k a)) -> keeps_all (bind m k).
Proof.
  intros Hm Hk s. unfold bind. specialize (Hm s). destruct (m s) as [[a|e|f] s']; cbn in *; [|done..].
  by rewrite (Hk a s').
Qed.

Lemma all_ret {A} (a : A) : keeps_all (ret a).
Proof. done. Qed.
Lemma all_stuck {A} f : keeps_all (stuck (A := A) f).
Proof. done. Qed.
Lemma all_lift {A} (o : outcome A) : keeps_all (lift o).
Proof. done. Qed.
Lemma all_gets {A} (f : Session -> A) : keeps_all (gets f).
Proof. done. Qed.
Lemma all_sroot {A} (f : Root -> A) : keeps_all (sroot f).
Proof. done. Qed.
Lemma all_sconf {A} (f : Memcached -> A) : keeps_all (sconf f).
Proof. done. Qed.
Lemma all_on_sroot f : (forall r, settings (memc (f r)) = settings (memc r)) -> keeps_all (on_sroot f).
Proof. intros H s. apply H. Qed.
Lemma all_at_instance {A} n (m : IO A) : keeps m -> keeps_all (at_instance n m).
Proof.
  intros Hm s. unfold at_instance. destruct (ses_insts s !! _) as [i|]; [|done].
  specialize (Hm (mkCtx (ses_root s) i)). by destruct (m _).
Qed.
Lemma all_at_root {A} (m : IO A) : keeps m -> keeps_all (at_root m).
Proof. intros Hm s. unfold at_root. specialize (Hm (mkCtx (ses_root s) no_inst)). by destruct (m _). Qed.

#[export] Hint Resolve all_ret all_stuck all_lift all_gets all_sroot all_sconf : frame.

Ltac frame_all_step :=
  match goal with
  | |- keeps_all (bind _ _) => apply all_bind
  | |- keeps_all (on_sroot _) => apply all_on_sroot; intros; reflexivity
  | |- keeps_all (at_instance _ _) => apply all_at_instance
  | |- keeps_all (at_root _) => apply all_at_root
  | |- keeps_all (match ?x with _ => _ end) => destruct x
  | _ => solve [eauto 2 with frame]
  | |- keeps_all (let _ := _ in _) => cbv zeta
  | _ => frame_step
  end.
Ltac frame_all := repeat frame_all_step.

(** What the choice of a server and the requests of the binary protocol promise. *)
Class FrameRouter `{KR : KeyRouter} := {
  frame_route t m k n m' : route t m k = Ret (n, m') -> settings m' = settings m;
}.
Class FrameRequests `{BQ : BinaryRequests} := {
  frame_send n a b c : keeps_all (memcached_send_binary n a b c);
  frame_delete n k b c : keeps_all (binary_delete n k b c);
  frame_incr n i k o x e b : keeps_all (binary_incr_decr n i k o x e b);
  frame_touch n k e : keeps_all (binary_touch n k e);
  frame_mget g k b : keeps_all (binary_mget_by_key g k b);
}.
#[export] Hint Resolve frame_send frame_delete frame_incr frame_touch frame_mget : frame.

Section Operations.
Context `{DM : DataModel} `{AL : Allocator} `{CF : ClientConfig} `{CK : Clock} `{CC : CipherConfig}.
Context `{FR : FrameReader} `{FT : FrameTransport} `{FK : FrameRouter}.

(** ** Before a request *)

Lemma all_initialize b : keeps_all (initialize_query b).
Proof. unfold initialize_query. frame_all. Qed.
Lemma keeps_key_test_loop b ks : keeps (key_test_loop b ks).
Proof. induction ks; cbn [key_test_loop]; frame. Qed.
Hint Resolve all_initialize keeps_key_test_loop : frame.
Lemma all_key_test ks : keeps_all (memcached_key_test ks).
Proof. unfold memcached_key_test. frame_all. Qed.
Lemma all_pick_server k : keeps_all (pick_server k).
Proof.
  intros s. unfold pick_server, bind, sroot, gets, on_sroot, modify, lift, ret. cbn [ses_root].
  destruct (route _ _ _) as [[n m']|e|f] eqn:E; cbn; [|done..]. by eapply frame_route.
Qed.
Hint Resolve all_key_test all_pick_server : frame.

(** ** Requests of the binary protocol *)

Lemma all_send_replicas m n : keeps m -> forall c k, keeps_all (send_replicas m n c k).
Proof. intros Hm. induction n; intros; cbn [send_replicas]; frame_all. Qed.
Lemma keeps_send_replica v : keeps (send_replica v).
Proof. unfold send_replica. frame. Qed.
Lemma keeps_delete_replica v b : keeps (delete_replica v b).
Proof. unfold delete_replica. frame. Qed.
Hint Resolve all_send_replicas keeps_send_replica keeps_delete_replica : frame.
Lemma all_send_binary n a b c : keeps_all (send_binary n a b c).
Proof. unfold send_binary. frame_all. Qed.
Lemma all_delete_binary n k b c : keeps_all (delete_binary n k b c).
Proof. unfold delete_binary. frame_all. Qed.
Lemma all_incr_decr_binary n i k o x e b : keeps_all (incr_decr_binary n i k o x e b).
Proof. unfold incr_decr_binary. frame_all. Qed.
Lemma all_touch_binary n k e : keeps_all (touch_binary n k e).
Proof. unfold touch_binary. frame_all. Qed.
Lemma all_flush_buffers_loop n : forall k rc, keeps_all (flush_buffers_loop n k rc).
Proof. induction n; intros; cbn [flush_buffers_loop]; frame_all. Qed.
Hint Resolve all_flush_buffers_loop : frame.
Lemma all_flush_buffers : keeps_all memcached_flush_buffers.
Proof. unfold memcached_flush_buffers. frame_all. Qed.
Lemma keeps_getk_one x b c k rc : keeps (getk_one x b c k rc).
Proof. unfold getk_one. frame. Qed.
Hint Resolve all_flush_buffers keeps_getk_one : frame.
Lemma all_getk_keys ks : forall x m b c rc, keeps_all (getk_keys x m b c ks rc).
Proof. induction ks; intros; cbn [getk_keys]; frame_all. Qed.
Lemma keeps_noop_one rc : keeps (noop_one rc).
Proof. unfold noop_one. frame. Qed.
Hint Resolve all_getk_keys keeps_noop_one : frame.
Lemma all_noop_servers n : forall k rc, keeps_all (noop_servers n k rc).
Proof. induction n; intros; cbn [noop_servers]; frame_all. Qed.
Hint Resolve all_noop_servers : frame.
Lemma all_simple_binary_mget m ks b : keeps_all (simple_binary_mget m ks b).
Proof. unfold simple_binary_mget. frame_all. Qed.
Lemma keeps_getk_replica k : keeps (getk_replica k).
Proof. unfold getk_replica. frame. Qed.
Hint Resolve all_simple_binary_mget keeps_getk_replica : frame.
Lemma all_replica_keys c r n st ks : forall hs d b, keeps_all (replica_keys c r n st ks hs d b).
Proof. induction ks; intros [|h hs] d b; cbn [replica_keys]; frame_all. Qed.
Hint Resolve all_replica_keys : frame.
Lemma all_replica_loop n : forall c r k st ks hs d, keeps_all (replica_loop n c r k st ks hs d).
Proof. induction n; intros; cbn [replica_loop]; frame_all. Qed.
Lemma all_hash_keys m ks : keeps_all (hash_keys m ks).
Proof. induction ks; cbn [hash_keys]; frame_all. Qed.
Hint Resolve all_replica_loop all_hash_keys : frame.
Lemma all_replication_mget `{RS : RandomSource} hs ks : keeps_all (replication_binary_mget hs ks).
Proof. unfold replication_binary_mget. frame_all. Qed.
Hint Resolve all_replication_mget : frame.
Lemma all_mget_binary `{RS : RandomSource} m ks b : keeps_all (mget_binary m ks b).
Proof. unfold mget_binary. frame_all. Qed.
End Operations.

#[export] Hint Resolve all_initialize keeps_key_test_loop all_key_test all_pick_server all_flush_buffers : frame.

#[export] Instance binary_requests_frame `{DM : DataModel} `{AL : Allocator} `{CF : ClientConfig} `{CK : Clock}
  `{CC : CipherConfig} `{FR : FrameReader} `{FT : FrameTransport} `{FK : FrameRouter} `{RS : RandomSource} :
  FrameRequests (BQ := binary_requests).
Proof.
  split; intros; [apply all_send_binary|apply all_delete_binary|apply all_incr_decr_binary|apply all_touch_binary
    |apply all_mget_binary].
Qed.

(** ** Operations *)

Section Whole.
Context `{DM : DataModel} `{HC : HashSmall.HashConfig} `{AL : Allocator} `{CF : ClientConfig} `{CK : Clock} `{CC : CipherConfig}.
Context `{FR : FrameReader} `{FT : FrameTransport} `{FK : FrameRouter} `{FQ : FrameRequests} `{MP : MultiPoll}.

Lemma keeps_send_ascii a b c : keeps (memcached_send_ascii a b c).
Proof. unfold memcached_send_ascii. frame. Qed.
Hint Resolve keeps_send_ascii : frame.
Lemma all_send_value n a : keeps_all (send_value n a).
Proof. unfold send_value. frame_all. Qed.
Hint Resolve all_send_value : frame.
Lemma all_send g a : keeps_all (memcached_send g a).
Proof. unfold memcached_send. frame_all. Qed.
Lemma keeps_ascii_delete k b c : keeps (ascii_delete k b c).
Proof. unfold ascii_delete. frame. Qed.
Lemma keeps_text_incr_decr b k o c : keeps (text_incr_decr b k o c).
Proof. unfold text_incr_decr. frame. Qed.
Lemma keeps_auto_response b rc : keeps (auto_response b rc).
Proof. unfold auto_response. frame. Qed.
Lemma keeps_ascii_touch k e : keeps (ascii_touch k e).
Proof. unfold ascii_touch. frame. Qed.
Hint Resolve keeps_ascii_delete keeps_text_incr_decr keeps_auto_response keeps_ascii_touch : frame.
Lemma all_delete g k e : keeps_all (memcached_delete_by_key g k e).
Proof. unfold memcached_delete_by_key. frame_all. Qed.
Lemma all_incr b g k o : keeps_all (increment_decrement_by_key b g k o).
Proof. unfold increment_decrement_by_key. frame_all. Qed.
Lemma all_incr_initial b g k o i e : keeps_all (increment_decrement_with_initial_by_key b g k o i e).
Proof. unfold increment_decrement_with_initial_by_key. frame_all. Qed.
Lemma all_touch g k e : keeps_all (memcached_touch_by_key g k e).
Proof. unfold memcached_touch_by_key. frame_all. Qed.

(** Retrieval. *)
Lemma keeps_drain_loop n : keeps (drain_loop n).
Proof. induction n; cbn [drain_loop]; frame. Qed.
Hint Resolve keeps_drain_loop : frame.
Lemma keeps_drain_server : keeps drain_server.
Proof. unfold drain_server. frame. Qed.
Lemma all_each_server m n : keeps m -> forall k, keeps_all (each_server m n k).
Proof. intros Hm. induction n; intros; cbn [each_server]; frame_all. Qed.
Lemma keeps_send_key c k : keeps (send_key c k).
Proof. unfold send_key. frame. Qed.
Hint Resolve keeps_drain_server all_each_server keeps_send_key : frame.
Lemma all_send_keys c m ks : forall h f rc, keeps_all (send_keys c m ks h f rc).
Proof. induction ks; intros; cbn [send_keys]; frame_all. Qed.
Lemma all_finish n : forall k a b, keeps_all (finish_requests n k a b).
Proof. induction n; intros; cbn [finish_requests]; frame_all. Qed.
Hint Resolve all_send_keys all_finish : frame.
Lemma all_mget_real g ks b : keeps_all (memcached_mget_by_key_real g ks b).
Proof. unfold memcached_mget_by_key_real. frame_all. Qed.
Lemma all_readable : keeps_all memcached_io_get_readable_server.
Proof. unfold memcached_io_get_readable_server. frame_all. Qed.
Hint Resolve all_mget_real all_readable : frame.
Lemma all_fetch_loop n : forall rc, keeps_all (fetch_loop n rc).
Proof. induction n; intros; cbn [fetch_loop]; frame_all. Qed.
Hint Resolve all_fetch_loop : frame.
Lemma all_fetch_result : keeps_all memcached_fetch_result.
Proof. unfold memcached_fetch_result. frame_all. Qed.
Hint Resolve all_fetch_result : frame.
Lemma all_fetch b : keeps_all (memcached_fetch b).
Proof. unfold memcached_fetch. frame_all. Qed.
Hint Resolve all_fetch : frame.
Lemma all_get g k : keeps_all (memcached_get_by_key g k).
Proof. unfold memcached_get_by_key. frame_all. Qed.

(** All servers. *)
Lemma all_over_servers {A} n (m : A -> IO A) : (forall a, keeps (m a)) -> forall k a, keeps_all (over_servers n k m a).
Proof. intros Hm. induction n; intros; cbn [over_servers]; frame_all. Qed.
Hint Resolve all_over_servers : frame.
Lemma keeps_report_once rc : keeps (report_once rc).
Proof. unfold report_once. frame. Qed.
Hint Resolve keeps_report_once : frame.
Lemma keeps_flush_binary_server e b rc : keeps (flush_binary_server e b rc).
Proof. unfold flush_binary_server. frame. Qed.
Lemma keeps_flush_binary_response u : keeps (flush_binary_response u).
Proof. unfold flush_binary_response. frame. Qed.
Lemma keeps_flush_textual_server v b rc : keeps (flush_textual_server v b rc).
Proof. unfold flush_textual_server. frame. Qed.
Hint Resolve keeps_flush_binary_server keeps_flush_binary_response keeps_flush_textual_server : frame.
Lemma all_flush e : keeps_all (memcached_flush e).
Proof. unfold memcached_flush, memcached_flush_binary, memcached_flush_textual. frame_all. Qed.
Lemma keeps_version_textual_server x : keeps (version_textual_server x).
Proof. unfold version_textual_server. frame. Qed.
Lemma keeps_version_binary_server x : keeps (version_binary_server x).
Proof. unfold version_binary_server. frame. Qed.
Lemma all_collect_versions n : forall k b, keeps_all (collect_versions n k b).
Proof. induction n; intros; cbn [collect_versions]; frame_all. Qed.
Hint Resolve keeps_version_textual_server keeps_version_binary_server all_collect_versions : frame.
Lemma all_version : keeps_all memcached_version.
Proof. unfold memcached_version, memcached_version_binary, memcached_version_textual, versions_of. frame_all. Qed.
Lemma keeps_ascii_exist k : keeps (ascii_exist k).
Proof. unfold ascii_exist. frame. Qed.
Lemma keeps_binary_exist k : keeps (binary_exist k).
Proof. unfold binary_exist. frame. Qed.
Hint Resolve keeps_ascii_exist keeps_binary_exist : frame.
Lemma all_exist g k : keeps_all (memcached_exist_by_key g k).
Proof. unfold memcached_exist_by_key. frame_all. Qed.
Lemma all_quit_servers n : forall k, keeps_all (quit_servers n k).
Proof. induction n; intros; cbn [quit_servers]; frame_all. Qed.
Hint Resolve all_quit_servers : frame.
Lemma all_send_quit : keeps_all send_quit.
Proof. unfold send_quit. frame_all. Qed.
Hint Resolve all_send_quit : frame.
Lemma all_quit : keeps_all memcached_quit.
Proof. unfold memcached_quit. frame_all. Qed.
End Whole.

(** * Whole operations of a client

    Storage and retrieval on a text client with any number of servers: what they put on the
    wire of the key's server, and what they return for the response that comes back. *)

(** ** Servers between operations *)

(** A connection ready for a request of [n] bytes, with [s] to come behind what it still owes. *)
Record ready (r : Root) (i : Inst) (s : cstring) (n : nat) : Prop := {
  rdy_write : writable r i n;
  rdy_empty : write_buffer i = [];
  rdy_read : rd_ok (rd i);
  rdy_in : incoming i (owed i ++ s);
}.

(** A server that owes nothing and has no input. *)
Definition quiet (i : Inst) : Prop := cursor_active_ i = 0 /\ read_buffer_length (rd i) = 0.

(** Keys that [memcached_key_test] accepts. *)
Definition valid_key (k : cstring) : Prop := k <> [] /\ size k < MEMCACHED_MAX_KEY /\ forallb isgraph k = true.

Lemma valid_key_graphic k : valid_key k -> graphic k.
Proof.
  intros (_ & _ & H). unfold graphic. rewrite forallb_forall in *. intros c Hc. specialize (H c Hc).
  unfold isgraph in H. apply andb_prop in H as [H1 H2]. apply Z.leb_le in H1, H2.
  unfold iscntrl, isspace. rewrite !negb_orb.
  rewrite (proj2 (Z.ltb_ge _ 32)), (proj2 (Z.eqb_neq _ 127)), (proj2 (Z.eqb_neq _ 32)) by lia. cbn.
  apply negb_true_iff, andb_false_iff. right. apply Z.leb_gt. lia.
Qed.

(** What a request does to the client before it is sent. *)
Definition begun (r : Root) : Root :=
  set_result (memcached_result_reset (result r)) (set_root_errors [] (set_query_id (u64 (query_id r + 1)) r)).
Definition routed (r : Root) : Root := set_ticks (S (ticks r)) r.

Section Operations.
Context `{DM : DataModel} `{AL : Allocator} `{CF : ClientConfig} `{CK : Clock} `{CC : CipherConfig}.
Context `{BR : BinaryReader} `{TR : Transport} `{KR : KeyRouter} `{BQ : BinaryRequests} `{MP : MultiPoll}.
Implicit Types (r : Root) (i : Inst) (pre post : list Inst).

(** The key's server, at every call. *)
Definition routes_to (m : Memcached) (k : cstring) (n : nat) : Prop :=
  forall t, route t m k = Ret (Z.of_nat n, m).

Lemma text_client_same r r' :
  text_client r -> memc r' = memc r -> is_purging r' = is_purging r -> mstring_ok (res_value (result r')) ->
  text_client r'.
Proof. intros [] Hm Hp Hr. split; rewrite ?Hm, ?Hp; done. Qed.

Lemma writable_same r r' i n : writable r i n -> memc r' = memc r -> is_purging r' = is_purging r -> writable r' i n.
Proof. intros [? ? (? & ? & ?) ? ?] Hm Hp. split; try done; unfold calm; rewrite ?Hm, ?Hp; done. Qed.

Lemma ready_same r r' i s n : ready r i s n -> memc r' = memc r -> is_purging r' = is_purging r -> ready r' i s n.
Proof. intros [? ? ? ?] Hm Hp. split; try done. by eapply writable_same. Qed.

(** ** Calls on one server *)

Lemma at_instance_mid {A} (m : IO A) pre i post r o r' i' k :
  k = Z.of_nat (List.length pre) -> m (mkCtx r i) = (o, mkCtx r' i') ->
  at_instance k m (mkSession r (pre ++ i :: post)) = (o, mkSession r' (pre ++ i' :: post)).
Proof.
  intros -> E. unfold at_instance. cbn [ses_insts ses_root]. rewrite Nat2Z.id.
  rewrite lookup_app_r, Nat.sub_diag by lia. cbn. rewrite E. cbn. do 2 f_equal.
  by rewrite insert_app_r_alt, Nat.sub_diag by lia.
Qed.

Lemma incoming_writes i i' s : writes i i' -> incoming i s -> incoming i' s.
Proof. intros (? & ? & ? & ? & ->) H. exact H. Qed.

Lemma owed_cursor i : writes i i -> 0 <= cursor_active_ i < 2 ->
  owed i = if cursor_active_ i + 1 =? 2 then END_LINE else [].
Proof.
  intros _ Hc. unfold owed. destruct (Z.eqb_spec (cursor_active_ i) 0), (Z.eqb_spec (cursor_active_ i + 1) 2); lia || done.
Qed.

(** After a response that leaves [c] outstanding. *)
Lemma ready_after r i i1 i2 c s n :
  writes i i1 -> writable r i1 n -> write_buffer i1 = [] -> reads (set_cursor c i1) i2 -> rd_ok (rd i2) ->
  0 <= c < 2 -> incoming i2 ((if c =? 0 then [] else END_LINE) ++ s) -> ready r i2 s n /\ wire (net i2) = wire (net i1)
  /\ cursor_active_ i2 = c.
Proof.
  intros Hw [Ho Ht (Hp & Hc1 & Hm) Hr Ha] Hb Hr2 Hrd Hc Hin.
  assert (Hcur : cursor_active_ i2 = c) by (by destruct Hr2 as (? & ? & ? & ->)).
  destruct Hr2 as (l & rb & b & ->). split; [|done].
  split; [|done|done|unfold owed; by rewrite Hcur]. split; try done.
Qed.

Lemma set_result_same r : set_result (result r) r = r.
Proof. by destruct r. Qed.

(** A request whose response is only a code. *)
Lemma request_code vector blen r i t rc rest n :
  text_client r -> ready r i (t ++ CRLF ++ rest) (List.length (List.concat vector) + n) -> says t rc ->
  memcached_fatal rc = false -> 64 < blen ->
  exists i', (let* _ := memcached_vdo vector true in memcached_response_root blen) (mkCtx r i) = (Ret rc, mkCtx r i')
    /\ ready r i' rest n /\ wire (net i') = wire (net i) ++ List.concat vector /\ cursor_active_ i' = 0.
Proof.
  intros Ht [Hw Hb Hrd Hin] Hs Hnf Hbl. pose proof Hw as [_ _ (_ & Hc & _) _ _].
  destruct (vdo_ok vector r i n Hw (tc_reply r Ht)) as (i1 & E & Hw1 & Hwire & Hwb1 & Hb1). run E.
  rewrite (owed_cursor i (writes_refl i) Hc) in Hin.
  assert (fd i1 = true /\ rd_ok (rd i1)) as [Hf1 Hrd1] by (split; [apply Hwb1|by destruct Hw1 as (? & ? & ? & ? & ->)]).
  unfold memcached_response_root, bind at 1, getr, gets. cbn [root].
  destruct (response_code blen (result r) r (set_cursor (cursor_active_ i + 1) i1) t rc rest Ht) as (i2 & E2 & Hr2 & Hrd2 & Hin2);
    [done|done|cbn; lia|exact (incoming_writes i i1 _ Hw1 Hin)|done|done|done|].
  run E2. unfold on_root, modify, bind, ret. cbn [root inst fst snd]. rewrite set_result_same. exists i2. split; [done|].
  destruct (ready_after r i i1 i2 0 rest n Hw1 Hwb1 Hb1) as (Hrdy & Hwr & Hcur); [exact Hr2|done|lia|done|].
  split; [done|]. split; [|done]. rewrite Hwr, Hwire. unfold written. by rewrite Hb, app_nil_r.
Qed.

(** ** Storage *)

Definition stored_code (rc : memcached_return_t) : memcached_return_t :=
  if rc_eqb rc MEMCACHED_STORED then MEMCACHED_SUCCESS else rc.

Lemma send_ascii_ok a vector r i t rc rest n :
  text_client r -> ascii_request (_namespace (memc r)) a true = Some vector ->
  ready r i (t ++ CRLF ++ rest) (List.length (List.concat vector) + n) -> says t rc -> memcached_fatal rc = false ->
  (rc = MEMCACHED_STORED \/ memcached_failed rc = true) ->
  exists i', memcached_send_ascii a true true (mkCtx r i) = (Ret (stored_code rc), mkCtx r i')
    /\ ready r i' rest n /\ wire (net i') = wire (net i) ++ List.concat vector /\ cursor_active_ i' = 0.
Proof.
  intros Ht Hv Hrdy Hs Hnf Hrc.
  destruct (request_code vector MEMCACHED_DEFAULT_COMMAND_SIZE r i t rc rest n Ht Hrdy Hs Hnf ltac:(done)) as (i' & E & Hi).
  exists i'. split; [|done]. unfold memcached_send_ascii, bind at 1, conf, gets. cbn [root]. rewrite Hv. cbn [negb].
  pose proof Hrdy as [Hw _ _ _]. destruct (vdo_ok vector r i n Hw (tc_reply r Ht)) as (i1 & Ev & _).
  rewrite (bind_Ret _ _ _ _ _ Ev) in E. run Ev. change (rc_eqb MEMCACHED_SUCCESS MEMCACHED_SUCCESS) with true. cbv iota.
  run E. unfold stored_code. destruct (rc_eqb rc MEMCACHED_STORED) eqn:Es; [done|].
  destruct Hrc as [->|Hfail]; [done|]. assert (rc_eqb rc MEMCACHED_WRITE_FAILURE = false) as ->.
  { apply bool_decide_eq_false. intros ->. done. }
  unfold bind at 1, ret at 1. unfold bind, assert_io, lift, assert_msg. rewrite Hfail, orb_true_r. done.
Qed.

(** ** The common start of a request *)

Lemma initialize_query_ok r l :
  servers (memc r) <> [] ->
  initialize_query true (mkSession r l) = (Ret MEMCACHED_SUCCESS, mkSession (begun r) l).
Proof.
  intros Hs. unfold initialize_query, on_sroot, modify. unfold bind at 1. cbn [ses_root ses_insts].
  unfold bind at 1, sconf, gets. cbn [ses_root]. change (memc (set_query_id _ r)) with (memc r).
  unfold memcached_server_count.
  rewrite (proj2 (Z.eqb_neq _ 0)) by (destruct (servers (memc r)); [done|cbn; lia]). done.
Qed.

Lemma key_test_loop_ok b ks r i :
  Forall valid_key ks -> key_test_loop b ks (mkCtx r i) = (Ret MEMCACHED_SUCCESS, mkCtx r i).
Proof.
  induction 1 as [|k ks (Hne & Hs & Hg) _ IH]; cbn [key_test_loop]; [done|].
  unfold memcached_validate_key_length.
  rewrite (proj2 (Z.eqb_neq _ 0)) by (destruct k; [done|unfold size; cbn; lia]).
  rewrite (proj2 (Z.leb_gt _ _)) by lia. change (memcached_failed MEMCACHED_SUCCESS) with false. cbv iota.
  by rewrite Hg, andb_false_r.
Qed.

Lemma key_test_ok ks s : Forall valid_key ks -> memcached_key_test (Some ks) s = (Ret MEMCACHED_SUCCESS, s).
Proof.
  intros Hk. unfold memcached_key_test, bind, sconf, gets, at_root. rewrite key_test_loop_ok by done. by destruct s.
Qed.

Lemma pick_server_ok k n r l :
  routes_to (memc r) k n -> pick_server k (mkSession r l) = (Ret (Z.of_nat n), mkSession (routed r) l).
Proof.
  intros Hr. unfold pick_server, bind, sroot, gets, on_sroot, modify, lift, ret. cbn [ses_root ses_insts].
  rewrite (Hr (ticks r)). by destruct r.
Qed.

Lemma begun_client r : text_client r -> text_client (routed (begun r)).
Proof. intros H. eapply text_client_same; [done|done|done|]. by apply mstring_ok_reset, (tc_result r H). Qed.

(** A storage operation sends its request to the key's server and returns the code that comes
    back. *)
Lemma store_ok a vector r pre i post t rc rest n :
  text_client r -> servers (memc r) <> [] -> valid_key (st_key a) -> routes_to (memc r) (st_key a) (List.length pre) ->
  ascii_request (_namespace (memc r)) a true = Some vector ->
  ready r i (t ++ CRLF ++ rest) (List.length (List.concat vector) + n) -> says t rc -> memcached_fatal rc = false ->
  (rc = MEMCACHED_STORED \/ memcached_failed rc = true) ->
  exists r' i', memcached_send (st_key a) a (mkSession r (pre ++ i :: post)) = (Ret (stored_code rc), mkSession r' (pre ++ i' :: post))
    /\ text_client r' /\ memc r' = memc r /\ str_size (res_value (result r')) = str_size (res_value (result r))
    /\ res_count (result r') = res_count (result r)
    /\ ready r' i' rest n /\ wire (net i') = wire (net i) ++ List.concat vector /\ cursor_active_ i' = 0.
Proof.
  intros Ht Hsv Hk Hro Hv Hrdy Hs Hnf Hrc. unfold memcached_send.
  rewrite (bind_Ret _ _ _ _ _ (initialize_query_ok r _ Hsv)). change (memcached_failed MEMCACHED_SUCCESS) with false. cbv iota.
  rewrite (bind_Ret _ _ _ _ _ (key_test_ok [st_key a] _ (proj2 (Forall_singleton _ _) Hk))).
  change (memcached_failed MEMCACHED_SUCCESS) with false. cbv iota. cbn [ses_root ses_insts].
  rewrite (bind_Ret _ _ _ _ _ (pick_server_ok (st_key a) (List.length pre) (begun r) _ Hro)). cbn [ses_root ses_insts].
  pose proof (begun_client r Ht) as Ht'. set (r' := routed (begun r)) in *.
  unfold bind at 1, sconf, gets. cbn [ses_root]. rewrite (tc_plain r' Ht').
  unfold send_value, bind, sconf, gets. cbn [ses_root]. rewrite (tc_text r' Ht'), (tc_reply r' Ht'), (tc_direct r' Ht').
  cbn [andb negb].
  destruct (send_ascii_ok a vector r' i t rc rest n Ht' Hv (ready_same r r' _ _ _ Hrdy eq_refl eq_refl) Hs Hnf Hrc)
    as (i' & E & Hi).
  rewrite (at_instance_mid _ pre i post r' _ _ _ _ eq_refl E). exists r', i'. done.
Qed.
End Operations.
