(* ===== verification/ClientStatsSpec.v ===== *)
(** * What the statistics of servers become

    The lines of a server's answer, read into the structure and to the callback; and the values
    that come out of the structure again. *)

From stdpp Require Import base list.
From Stdlib Require Import ZArith Lia Ascii String.
From S2P Require Import Prelude CxxString HashWords HashKit HashkitString Rijndael Aes Continuum ClientTypes.
From S2P Require Import ClientString ClientState BinaryProtocol ClientRead ClientReadSpec ClientWrite ClientWriteSpec.
From S2P Require Import ClientWriteSpec ClientOps ClientBinaryOps ClientGet ClientBehavior ClientAdmin ClientStats ClientFrameOps.

(** ** One line *)

(** A statistic as a server sends it: a key of printing characters, a value without blanks. *)
Definition stat_entry (kv : cstring * cstring) : Prop :=
  forallb isgraph kv.1 = true /\ forallb (fun c => negb (isspace c)) kv.2 = true /\ (zero ∉ kv.2)
  /\ size kv.1 + size kv.2 + 8 < MEMCACHED_DEFAULT_COMMAND_SIZE.

Definition stat_text (kv : cstring * cstring) : cstring := lit "STAT " ++ kv.1 ++ SP :: kv.2.
Definition stat_line (kv : cstring * cstring) : cstring := stat_text kv ++ CRLF.

Lemma poke_app (pre t : cstring) c x n : n = List.length pre -> poke (pre ++ c :: t) n x = Ret (pre ++ x :: t).
Proof.
  intros ->. unfold poke. rewrite (proj2 (Nat.ltb_lt _ _)) by (rewrite length_app; cbn; lia).
  by rewrite insert_app_r_alt, Nat.sub_diag by lia.
Qed.

Lemma c_string_app (v t : cstring) : zero ∉ v -> c_string (v ++ zero :: t) = Ret v.
Proof.
  induction v as [|c v IH]; intros Hz; cbn [app c_string]; [done|].
  apply not_elem_of_cons in Hz as [Hc Hz]. unfold ascii_eqb. rewrite bool_decide_eq_false_2 by congruence.
  by rewrite IH.
Qed.

(** The key, and the array from the value on. *)
Lemma split_stat_ok kv junk : stat_entry kv ->
  exists buffer, split_stat (stat_line kv ++ junk) = Ret (kv.1, kv.2 ++ zero :: LF :: junk, buffer).
Proof.
  destruct kv as [k v]. intros (Hk & Hv & _ & _). cbn [fst snd] in *. unfold stat_line, stat_text. cbn [fst snd].
  set (pre := lit "STAT "). assert (List.length pre = 5%nat) as Hpre by done.
  assert (((pre ++ k ++ SP :: v) ++ CRLF) ++ junk = pre ++ k ++ SP :: (v ++ CR :: LF :: junk)) as ->.
  { by rewrite <- !app_assoc. }
  unfold split_stat. rewrite (skip_while_app isgraph pre k _ SP 5) by done. cbn [obind].
  rewrite (app_assoc pre), (poke_app (pre ++ k) _ SP zero) by (rewrite length_app; lia). cbn [obind].
  replace ((pre ++ k) ++ zero :: v ++ CR :: LF :: junk) with (((pre ++ k) ++ [zero]) ++ v ++ CR :: LF :: junk)
    by (rewrite <- app_assoc; done).
  rewrite (skip_while_app _ ((pre ++ k) ++ [zero]) v _ CR (S (5 + List.length k))); [|rewrite !length_app; cbn; lia|done|done].
  cbn [obind]. rewrite (app_assoc _ v), (poke_app (((pre ++ k) ++ [zero]) ++ v) _ CR zero) by (rewrite !length_app; cbn; lia).
  cbn [obind]. eexists. f_equal. f_equal. f_equal.
  - rewrite <- app_assoc. replace (5 + List.length k - 5)%nat with (List.length k) by lia.
    rewrite <- Hpre, drop_app_length. apply take_app_length.
  - rewrite <- !app_assoc. rewrite (app_assoc pre k), (app_assoc (pre ++ k)).
    replace (S (5 + List.length k)) with (List.length ((pre ++ k) ++ [zero])) by (rewrite !length_app; cbn; lia).
    by rewrite drop_app_length.
Qed.

Lemma stat_no_lf kv : stat_entry kv -> LF ∉ stat_text kv.
Proof.
  intros (Hk & Hv & _ & _). unfold stat_text. rewrite !not_elem_of_app, not_elem_of_cons.
  rewrite forallb_forall in Hk, Hv. repeat split.
  - apply (bool_decide_unpack _). by vm_compute.
  - intros Hl%list_elem_of_In%Hk. done.
  - done.
  - intros Hl%list_elem_of_In%Hv. done.
Qed.

Section Lines.
Context `{DM : DataModel} `{AL : Allocator} `{CF : ClientConfig} `{CK : Clock} `{CC : CipherConfig}.
Context `{BR : BinaryReader} `{TR : Transport} `{KR : KeyRouter} `{MP : MultiPoll}.

(** What a statistic does to the structure, when nothing behind its value matters. *)
Definition stat_effect (kv : cstring * cstring) (s : Stat) : Stat :=
  match set_data kv.1 (kv.2 ++ [zero]) s with Ret x => x.2 | _ => s end.
Definition settled (kv : cstring * cstring) : Prop :=
  forall junk s, set_data kv.1 (kv.2 ++ zero :: junk) s = Ret (MEMCACHED_SUCCESS, stat_effect kv s).

Definition collected (kvs : list (cstring * cstring)) (c : Collected) : Collected :=
  mkCollected (option_map (fun s => foldl (fun s kv => stat_effect kv s) s kvs) (col_stat c))
    (option_map (fun l => rev kvs ++ l) (col_calls c)).

Lemma collect_ok kv junk c : stat_entry kv -> settled kv \/ col_stat c = None ->
  collect kv.1 (kv.2 ++ zero :: junk) c = Ret (collected [kv] c).
Proof.
  intros (_ & _ & Hz & _) Hs. unfold collect, collected.
  assert ((match col_calls c with Some l => let? v := c_string (kv.2 ++ zero :: junk) in Ret (Some ((kv.1, v) :: l)) | None => Ret None end)
    = Ret (option_map (fun l => rev [kv] ++ l) (col_calls c))) as ->.
  { destruct (col_calls c); [|done]. rewrite c_string_app by done. by destruct kv. }
  cbn [obind]. destruct (col_stat c) as [s|]; [|done]. destruct Hs as [Hs|?]; [|done]. by rewrite Hs.
Qed.

Lemma collected_cons kv kvs c : collected kvs (collected [kv] c) = collected (kv :: kvs) c.
Proof.
  unfold collected. cbn [col_stat col_calls]. f_equal; [by destruct (col_stat c)|]. destruct (col_calls c); [|done].
  cbn. by rewrite <- app_assoc.
Qed.

(** A line of a longer answer leaves the count as it was. *)
Lemma read_one_counted old x r i text rc rest :
  text_client r -> fd i = true -> rd_ok (rd i) -> incoming i (text ++ CRLF ++ rest) -> (LF ∉ text) ->
  0 < size text < MEMCACHED_DEFAULT_COMMAND_SIZE - 2 ->
  (forall junk, classify (text ++ CRLF ++ junk) = Ret (RCounted rc)) -> memcached_fatal rc = false ->
  0 < cursor_active_ i < UINT_MOD ->
  exists junk i', _read_one_response old MEMCACHED_DEFAULT_COMMAND_SIZE x (mkCtx r i)
      = (Ret (rc, text ++ CRLF ++ junk, x), mkCtx r i')
    /\ reads i i' /\ rd_ok (rd i') /\ incoming i' rest.
Proof.
  intros Ht Hfd Hrd Hin Hlf Hsz Hcl Hfatal Hc. unfold _read_one_response, memcached_server_response_decrement.
  unfold on_inst, modify. unfold bind at 1. cbn [root inst]. rewrite u32_small by lia.
  unfold bind at 1, conf, gets. cbn [root]. rewrite (tc_text r Ht).
  set (i0 := set_cursor (cursor_active_ i - 1) i).
  destruct (read_line_ok old MEMCACHED_DEFAULT_COMMAND_SIZE r i0 text rest (tc_tcp r Ht) Hfd Hrd Hin Hlf ltac:(lia))
    as (i1 & E & Hr & Hrd' & Hin' & junk & Hj).
  unfold bind at 1, textual_read_one_response. run E. rewrite memcached_failed_success.
  rewrite (proj2 (Z.eqb_neq _ 0)) by (rewrite size_app; change (size CRLF) with 2; lia).
  unfold bind at 1, assert_io, lift, assert_msg. rewrite orb_true_r. unfold bind at 1. rewrite Hj, Hcl.
  unfold bind at 1, memcached_server_response_increment, on_inst, modify. cbn [root inst]. unfold ret at 1.
  rewrite Hfatal. cbv iota. unfold bind, ret. exists junk. eexists. split; [done|]. split; [|done].
  assert (cursor_active_ i1 = cursor_active_ i - 1) as -> by (by destruct Hr as (? & ? & ? & ->)).
  rewrite u32_small by lia. replace (cursor_active_ i - 1 + 1) with (cursor_active_ i) by lia.
  replace i with (set_cursor (cursor_active_ i) i0) at 1 by (by destruct i). by apply reads_cursor.
Qed.

Lemma read_one_stat old x r i kv rest :
  text_client r -> fd i = true -> rd_ok (rd i) -> incoming i (stat_line kv ++ rest) -> stat_entry kv ->
  0 < cursor_active_ i < UINT_MOD ->
  exists junk i', _read_one_response old MEMCACHED_DEFAULT_COMMAND_SIZE x (mkCtx r i)
      = (Ret (MEMCACHED_STAT, stat_line kv ++ junk, x), mkCtx r i')
    /\ reads i i' /\ rd_ok (rd i') /\ incoming i' rest.
Proof.
  intros Ht Hfd Hrd Hin Hkv Hc. unfold stat_line in Hin. rewrite <- app_assoc in Hin.
  destruct (read_one_counted old x r i (stat_text kv) MEMCACHED_STAT rest Ht Hfd Hrd Hin (stat_no_lf kv Hkv))
    as (junk & i' & E & H); [|done|done|done|].
  { destruct Hkv as (_ & _ & _ & Hsz). unfold stat_text. rewrite !size_app. change (size (lit "STAT ")) with 5.
    unfold size in *. cbn [List.length] in *. lia. }
  exists junk, i'. unfold stat_line. by rewrite <- app_assoc.
Qed.

Definition stat_lines (kvs : list (cstring * cstring)) : cstring := List.concat (map stat_line kvs).

(** All lines up to END. *)
Lemma stats_loop_ok kvs : forall n old c r i rest,
  text_client r -> fd i = true -> rd_ok (rd i) -> 1 <= cursor_active_ i <= 2 ->
  incoming i ((if cursor_active_ i =? 2 then END_LINE else []) ++ stat_lines kvs ++ END_LINE ++ rest) ->
  Forall stat_entry kvs -> Forall settled kvs \/ col_stat c = None -> (List.length kvs < n)%nat ->
  exists i', ascii_stats_loop n old c (mkCtx r i) = (Ret (MEMCACHED_END, collected kvs c), mkCtx r i')
    /\ reads (set_cursor 0 i) i' /\ rd_ok (rd i') /\ incoming i' rest.
Proof.
  induction kvs as [|kv kvs IH]; intros n old c r i rest Ht Hfd Hrd Hc Hin He Hs Hn; (destruct n as [|n]; [cbn in Hn; lia|]);
    cbn [ascii_stats_loop]; unfold bind at 1, getr, gets; cbn [root].
  - destruct (response_into_last old MEMCACHED_DEFAULT_COMMAND_SIZE (result r) r i _ Ht Hfd Hrd Hc Hin ltac:(done))
      as (buf & i1 & E & Hr1 & Hrd1 & Hin1).
    assert (cursor_active_ i1 = 1 /\ fd i1 = true) as [Hc1 Hf1] by (by destruct Hr1 as (? & ? & ? & ->)).
    destruct (read_one_code buf MEMCACHED_DEFAULT_COMMAND_SIZE (result r) r i1 (lit "END") MEMCACHED_END rest Ht Hf1 Hrd1)
      as (buf2 & i2 & E2 & Hr2 & Hrd2 & Hin2); [|split; [|split; done]|done|done|by rewrite Hc1|].
    { exact Hin1. } { apply (bool_decide_unpack _). by vm_compute. }
    unfold bind at 1. rewrite E, E2. unfold bind, on_root, modify, ret. cbn [root inst]. rewrite set_result_same.
    change (rc_eqb MEMCACHED_END MEMCACHED_STAT) with false. cbn [negb]. exists i2. split.
    { f_equal. f_equal. f_equal. unfold collected. cbn. by destruct c as [[]  []]. }
    split; [|done]. rewrite Hc1 in Hr2. change (1 - 1) with 0 in Hr2. eapply reads_trans, Hr2. exact (reads_cursor 0 _ _ Hr1).
  - apply Forall_cons in He as [Hkv He]. unfold stat_lines in Hin. cbn [map List.concat] in Hin. rewrite <- app_assoc in Hin.
    destruct (response_into_last old MEMCACHED_DEFAULT_COMMAND_SIZE (result r) r i _ Ht Hfd Hrd Hc Hin ltac:(done))
      as (buf & i1 & E & Hr1 & Hrd1 & Hin1).
    assert (cursor_active_ i1 = 1 /\ fd i1 = true) as [Hc1 Hf1] by (by destruct Hr1 as (? & ? & ? & ->)).
    destruct (read_one_stat buf (result r) r i1 kv _ Ht Hf1 Hrd1 Hin1 Hkv ltac:(by rewrite Hc1)) as (junk & i2 & E2 & Hr2 & Hrd2 & Hin2).
    assert (cursor_active_ i2 = 1 /\ fd i2 = true) as [Hc2 Hf2] by (by destruct Hr2 as (? & ? & ? & ->)).
    unfold bind at 1. rewrite E, E2. unfold bind at 1, on_root, modify. cbn [root inst]. rewrite set_result_same.
    change (rc_eqb MEMCACHED_STAT MEMCACHED_STAT) with true. cbn [negb].
    destruct (split_stat_ok kv junk Hkv) as (buf3 & E3). unfold bind at 1, lift. rewrite E3.
    unfold bind at 1. rewrite collect_ok by (done || (destruct Hs as [[? _]%Forall_cons|?]; [by left|by right])).
    destruct (IH n buf3 (collected [kv] c) r i2 rest Ht Hf2 Hrd2) as (i3 & E4 & Hr3 & Hrd3 & Hin3); [lia| |done| |cbn in Hn; lia|].
    { rewrite Hc2. exact Hin2. }
    { destruct Hs as [[_ ?]%Forall_cons|Hs]; [by left|right]. cbn. by rewrite Hs. }
    exists i3. rewrite E4, collected_cons. split; [done|]. split; [|done].
    eapply reads_trans, Hr3. eapply reads_trans; [exact (reads_cursor 0 _ _ Hr1)|exact (reads_cursor 0 _ _ Hr2)].
Qed.

Lemma stat_lines_length kvs : (List.length kvs <= List.length (stat_lines kvs))%nat.
Proof.
  induction kvs as [|kv kvs IH]; [done|]. unfold stat_lines in *. cbn [map List.concat]. rewrite length_app.
  assert (0 < List.length (stat_line kv))%nat by (unfold stat_line, stat_text; rewrite !length_app; cbn; lia).
  cbn [List.length]. lia.
Qed.

Definition stats_request (args : cstring) : cstring := lit "stats " ++ args ++ CRLF.

(** One server. *)
Lemma stats_fetch_ok args kvs c r i rest n :
  text_client r -> ready r i (stat_lines kvs ++ END_LINE ++ rest) (List.length (stats_request args) + n) ->
  Forall stat_entry kvs -> Forall settled kvs \/ col_stat c = None ->
  exists i', stats_fetch args c (mkCtx r i) = (Ret (MEMCACHED_SUCCESS, collected kvs c), mkCtx r i')
    /\ ready r i' rest n /\ wire (net i') = wire (net i) ++ stats_request args.
Proof.
  intros Ht [Hw Hb Hrd Hin] He Hs. pose proof Hw as [_ _ (_ & Hc & _) _ _].
  unfold stats_fetch, bind at 1, conf, gets. cbn [root]. rewrite (tc_text r Ht). unfold ascii_stats_fetch.
  assert (List.concat [lit "stats "; args; CRLF] = stats_request args) as Hv by (cbn [List.concat]; by rewrite app_nil_r).
  rewrite <- Hv in Hw.
  destruct (vdo_ok [lit "stats "; args; CRLF] r i n Hw (tc_reply r Ht)) as (i1 & E & Hw1 & Hwire & Hwb1 & Hb1). run E.
  change (memcached_success MEMCACHED_SUCCESS) with true. cbv iota.
  rewrite (owed_cursor i (writes_refl i) Hc) in Hin.
  assert (fd i1 = true /\ rd_ok (rd i1)) as [Hf1 Hrd1] by (split; [apply Hwb1|by destruct Hw1 as (? & ? & ? & ? & ->)]).
  set (i2 := set_cursor (cursor_active_ i + 1) i1). pose proof (incoming_writes i i1 _ Hw1 Hin) as Hin1.
  assert (List.length kvs < stat_fuel i2)%nat as Hfuel.
  { pose proof (incoming_length i2 _ Hrd1 Hin1) as Hl. unfold stat_fuel. rewrite length_app, length_app in Hl.
    pose proof (stat_lines_length kvs). change (net i2) with (net i1) in *. change (rd i2) with (rd i1) in *. lia. }
  unfold bind at 1, bind at 1, geti, gets. cbn [inst].
  destruct (stats_loop_ok kvs (stat_fuel i2) [] c r i2 rest Ht Hf1 Hrd1) as (i3 & E3 & Hr3 & Hrd3 & Hin3);
    [cbn; lia|exact Hin1|done|done|done|].
  rewrite E3. unfold ret. exists i3. split; [done|].
  destruct (ready_after r i i1 i3 0 rest n Hw1 Hwb1 Hb1) as (Hrdy & Hwr & Hcur); [exact Hr3|done|lia|done|].
  split; [done|]. rewrite Hwr, Hwire. unfold written. by rewrite Hb, app_nil_r, Hv.
Qed.

(** ** All servers *)

(** What a server has sent, what comes behind it, and how much more may be written to it. *)
Record Report := mkReport { rep_stats : list (cstring * cstring); rep_rest : cstring; rep_cap : nat }.

Definition reporting (r : Root) (args : cstring) (i : Inst) (x : Report) : Prop :=
  ready r i (stat_lines (rep_stats x) ++ END_LINE ++ rep_rest x) (List.length (stats_request args) + rep_cap x)
  /\ Forall stat_entry (rep_stats x) /\ Forall settled (rep_stats x).
Definition reported_stats (r : Root) (args : cstring) (x : Report) (ii : Inst * Inst) : Prop :=
  ready r ii.2 (rep_rest x) (rep_cap x) /\ wire (net ii.2) = wire (net ii.1) ++ stats_request args.

Definition stats_of (x : Report) : Stat := foldl (fun s kv => stat_effect kv s) new_Stat (rep_stats x).

Lemma stat_servers_ok args r xs : text_client r -> forall pre ls, Forall2 (reporting r args) ls xs ->
  exists ls', stat_servers (List.length ls) (Z.of_nat (List.length pre)) args MEMCACHED_SUCCESS (mkSession r (pre ++ ls))
      = (Ret (MEMCACHED_SUCCESS, map stats_of xs), mkSession r (pre ++ ls'))
    /\ Forall2 (reported_stats r args) xs (zip ls ls') /\ List.length ls' = List.length ls.
Proof.
  intros Ht. induction xs as [|x xs IH]; intros pre ls H; apply Forall2_cons_inv_r in H || apply Forall2_nil_inv_r in H.
  - subst ls. by exists [].
  - destruct H as (i & ls1 & (Hrdy & He & Hs) & H & ->). cbn [List.length stat_servers].
    destruct (stats_fetch_ok args (rep_stats x) (mkCollected (Some new_Stat) None) r i _ _ Ht Hrdy He (or_introl Hs))
      as (i' & E & Hrdy' & Hwire).
    unfold bind at 1. rewrite (at_instance_mid _ pre i ls1 r _ r i' _ eq_refl E). cbn [fst snd].
    change (rc_eqb MEMCACHED_SUCCESS MEMCACHED_INVALID_ARGUMENTS) with false.
    change (memcached_failed MEMCACHED_SUCCESS) with false. cbv iota.
    destruct (IH (pre ++ [i']) ls1 H) as (ls2 & E2 & H2 & Hl2). exists (i' :: ls2).
    replace (Z.of_nat (List.length pre) + 1) with (Z.of_nat (List.length (pre ++ [i']))) by (rewrite length_app; cbn; lia).
    replace (pre ++ i' :: ls1) with ((pre ++ [i']) ++ ls1) by (by rewrite <- app_assoc).
    unfold bind at 1. rewrite E2. unfold ret. cbn [fst snd zip_with map List.length]. rewrite <- app_assoc. split; [done|].
    split; [by constructor|lia].
Qed.
End Lines.
