(* ===== verification/ClientBinaryStoreSpec.v ===== *)
(** * Storage over the binary protocol

    The requests of storage.cc are packets, their numbers with the most significant byte first;
    a whole storage operation puts its packet on the wire of the key's server and returns the
    code of the response. *)

From stdpp Require Import base list.
From Stdlib Require Import ZArith Lia Ascii.
From S2P Require Import Prelude CxxString HashWords HashKit HashkitString Rijndael Aes Continuum ClientTypes.
From S2P Require Import ByteOrder ClientString ClientState BinaryProtocol ClientRead ClientBinary ClientReadSpec.
From S2P Require Import ClientBinarySpec ClientWrite ClientWriteSpec ClientOps ClientBinaryOps ClientGet ClientFrameOps.

(** ** Requests are packets *)

(** The number of a request as it is on the wire: its low 16 bits, in the upper half. *)
Definition opaque_of (n : Z) : Z := (n mod 65536) * 65536.

Lemma le_value_zeros l : le_value (l ++ [0; 0]) = le_value l.
Proof. induction l as [|b l IH]; cbn [app le_value]; [done|by rewrite IH]. Qed.

Lemma le_opaque n : le 4 (htons n) = be 4 (opaque_of n).
Proof.
  assert (Forall byte (be 2 n ++ [0; 0])) as Hb
    by (apply Forall_app; split; [apply be_bytes|repeat constructor; unfold byte; lia]).
  assert (length (be 2 n ++ [0; 0]) = 4%nat) as Hl by (rewrite length_app, length_be; done).
  trans (be 2 n ++ [0; 0]).
  - unfold htons. rewrite <- (le_value_zeros (be 2 n)), <- Hl. by apply le_le_value.
  - rewrite <- (be_be_value _ Hb) at 1. rewrite Hl. f_equal. unfold be_value, be.
    rewrite rev_app_distr, rev_involutive. cbn [rev app le_value]. rewrite le_value_le. unfold opaque_of.
    change (256 ^ Z.of_nat 2) with 65536. lia.
Qed.

(** The number a request gets. *)
Definition next_id (i : Inst) : Z := u32 (request_id i + 1).

Definition store_extras_text (a : StoreArgs) : cstring :=
  if has_extras (st_verb a) then octets (be 4 (st_flags a) ++ be 4 (u32 (st_expiration a))) else [].

Definition store_packet (ns : cstring) (a : StoreArgs) (n : Z) : Packet :=
  mkPacket (get_com_code (st_verb a) true) 0 (store_extras_text a) (ns ++ st_key a) (st_value a) (opaque_of n) (st_cas a).

Lemma store_extras_bytes a : octets (store_extras a) = store_extras_text a.
Proof. unfold store_extras, store_extras_text. destruct (has_extras _); [|done]. by rewrite !le_htonl. Qed.

Lemma store_vector_packet ns a n :
  size (ns ++ st_key a) < 65536 -> 8 + size (ns ++ st_key a) + size (st_value a) < UINT_MOD ->
  List.concat (store_vector ns a (store_header ns a true
    (mkHeader PROTOCOL_BINARY_REQ 0 0 0 PROTOCOL_BINARY_RAW_BYTES 0 0 (htons n) 0)))
  = packet PROTOCOL_BINARY_REQ (store_packet ns a n).
Proof.
  intros Hk Hb. unfold store_vector, packet, packet_body. cbn [List.concat].
  rewrite app_nil_l, app_nil_r. unfold octets at 1. rewrite map_app. fold (octets (store_extras a)).
  rewrite store_extras_bytes. cbn [store_packet p_extras p_key p_value]. rewrite <- !app_assoc. f_equal.
  assert (size (st_key a) + size ns = size (ns ++ st_key a)) as Hks by (rewrite size_app; lia).
  pose proof (size_nonneg (ns ++ st_key a)). pose proof (size_nonneg (st_value a)).
  assert (size (store_extras_text a) = if has_extras (st_verb a) then 8 else 0) as Hx.
  { unfold store_extras_text. destruct (has_extras _); [|done]. rewrite size_octets, length_app, !length_be. done. }
  set (ex := if has_extras (st_verb a) then 8 else 0) in *.
  assert (0 <= ex <= 8) as Hex by (unfold ex; destruct (has_extras _); lia).
  set (h0 := mkHeader _ _ _ _ _ _ _ _ _). f_equal.
  assert (header_bytes (store_header ns a true h0)
    = [PROTOCOL_BINARY_REQ; get_com_code (st_verb a) true] ++ le 2 (htons (u16 (size (ns ++ st_key a)))) ++
      [ex; PROTOCOL_BINARY_RAW_BYTES] ++ le 2 0 ++ le 4 (htonl (u32 (size (ns ++ st_key a) + size (st_value a) + ex)))
      ++ le 4 (htons n) ++ be 8 (st_cas a)) as ->.
  { unfold store_header, request_header. rewrite Hks. fold ex.
    destruct (Z.eqb_spec (st_cas a) 0) as [->|]; [done|].
    unfold header_bytes. cbn [magic opcode keylen extlen datatype status bodylen opaque hdr_cas h0]. by rewrite le_htonll. }
  rewrite le_htons, le_htonl, le_opaque. unfold packet_header, body_size. cbn [store_packet p_op p_status p_extras p_key p_value p_opaque p_cas].
  rewrite Hx, u32_small by lia. unfold u16. rewrite Z.mod_small by lia.
  by replace (ex + size (ns ++ st_key a) + size (st_value a)) with (size (ns ++ st_key a) + size (st_value a) + ex) by lia.
Qed.

(** ** Responses to storage *)

(** A packet that answers a request with a code. *)
Inductive answers_with : Packet -> memcached_return_t -> Prop :=
  | answer_done p : p_op p ∈ [PROTOCOL_BINARY_CMD_SET; PROTOCOL_BINARY_CMD_ADD; PROTOCOL_BINARY_CMD_REPLACE;
      PROTOCOL_BINARY_CMD_APPEND; PROTOCOL_BINARY_CMD_PREPEND; PROTOCOL_BINARY_CMD_DELETE] ->
      p_status p = 0 -> body_size p = 0 -> answers_with p MEMCACHED_SUCCESS
  | answer_error p rc : is_quiet_store (p_op p) = false -> error_code (p_status p) = Some rc -> answers_with p rc.

(** A response to a quiet request that failed. *)
Definition quiet_error (q : Packet) : Prop :=
  packet_ok q /\ is_quiet_store (p_op q) = true /\ 0 < body_size q /\ is_Some (error_code (p_status q)).

(** The bytes of responses. *)
Definition responses (qs : list Packet) : cstring := concat (map (packet PROTOCOL_BINARY_RES) qs).

Section Storing.
Context `{DM : DataModel} `{AL : Allocator} `{CF : ClientConfig} `{CK : Clock} `{CC : CipherConfig}.
Context `{TR : Transport} `{KR : KeyRouter} `{RS : RandomSource}.

Lemma answer_ok p rc rest buf blen x r i again :
  use_udp (flags (memc r)) = false -> fd i = true -> rd_ok (rd i) -> packet_ok p -> answers_with p rc ->
  incoming i (packet_body p ++ rest) ->
  exists i', after_header again (host_header PROTOCOL_BINARY_RES p) buf blen x (mkCtx r i) = (Ret (rc, buf, x), mkCtx r i')
    /\ reads i i' /\ rd_ok (rd i') /\ incoming i' rest.
Proof.
  intros Hu Hfd Hrd Hp Ha Hin. destruct Ha as [q Hop Hs Hb|q rc' Hq He].
  - assert (packet_body q = []) as Hnil.
    { unfold body_size in Hb. pose proof (size_nonneg (p_extras q)). pose proof (size_nonneg (p_key q)).
      pose proof (size_nonneg (p_value q)). assert (size (packet_body q) = 0) as Hz by (unfold packet_body; rewrite !size_app; lia).
      destruct (packet_body q) as [|c l]; [done|]. rewrite size_cons in Hz. pose proof (size_nonneg l). lia. }
    rewrite Hnil, app_nil_l in Hin. exists i. split; [|split; [apply reads_refl|done]].
    unfold after_header, read_body. cbn [host_header status opcode bodylen]. rewrite Hs, Hb.
    rewrite !elem_of_cons, elem_of_nil in Hop.
    by destruct Hop as [->|[->|[->|[->|[->|[->|[]]]]]]].
  - destruct (error_ok q rc' rest buf blen x r i again Hu Hfd Hrd Hp He Hin) as (i' & E & H).
    exists i'. split; [|done]. by rewrite E, Hq.
Qed.

(** The bytes that may still be taken bound the packets among them. *)
Lemma incoming_bound i qs s : rd_ok (rd i) -> incoming i (responses qs ++ s) ->
  (length qs <= to_read (recvs (net i)) + Z.to_nat (read_buffer_length (rd i)))%nat.
Proof.
  intros Hrd Hin. apply incoming_length in Hin; [|done]. rewrite length_app in Hin.
  assert (length qs <= length (responses qs))%nat as Hl; [|lia].
  unfold responses. clear. induction qs as [|q qs IH]; [cbn; lia|]. cbn [map concat length]. rewrite length_app.
  assert (length (packet PROTOCOL_BINARY_RES q) >= 24)%nat; [|lia].
  unfold packet, octets. rewrite length_app, length_map, length_header. lia.
Qed.

(** One response, behind any number of quiet errors. *)
Lemma binary_code_ok qs p rc rest buf blen x r i :
  use_udp (flags (memc r)) = false -> fd i = true -> rd_ok (rd i) -> Forall quiet_error qs -> packet_ok p ->
  answers_with p rc -> incoming i (responses qs ++ packet PROTOCOL_BINARY_RES p ++ rest) ->
  exists i', binary_read buf blen x (mkCtx r i) = (Ret (rc, buf, x), mkCtx r i')
    /\ reads i i' /\ rd_ok (rd i') /\ incoming i' rest.
Proof.
  intros Hu Hfd Hrd Hqs Hp Ha Hin. pose proof (incoming_bound i qs _ Hrd Hin) as Hb.
  unfold binary_read, bind at 1, geti, gets. cbn [inst].
  set (n := (to_read _ + _)%nat) in *. assert (exists m, S n = (length qs + S m)%nat) as (m & ->) by (exists (n - length qs)%nat; lia).
  destruct (quiet_errors_skipped qs (S m) buf blen x r i _ Hu Hfd Hrd Hqs Hin) as (i1 & -> & R1 & Hrd1 & Hin1).
  assert (fd i1 = true) as Hfd1 by (destruct R1 as (? & ? & ? & ->); done).
  destruct (header_ok m buf blen x r i1 p rest Hu Hfd1 Hrd1 Hp Hin1) as (i2 & -> & R2 & Hrd2 & Hin2).
  assert (fd i2 = true) as Hfd2 by (destruct R2 as (? & ? & ? & ->); done).
  destruct (answer_ok p rc rest buf blen x r i2 (binary_response_loop m buf blen x) Hu Hfd2 Hrd2 Hp Ha Hin2) as (i3 & -> & R3 & ?).
  exists i3. split; [done|]. split; [|done]. eapply reads_trans; [exact R1|]. by eapply reads_trans.
Qed.

(** ** A storage operation *)

(** A client of the binary protocol over TCP that waits for its responses, without replicas or encryption. *)
Record binary_client (r : Root) : Prop := {
  bc_binary : binary_protocol (flags (memc r)) = true;
  bc_tcp : use_udp (flags (memc r)) = false;
  bc_block : no_block (flags (memc r)) = false;
  bc_reply : reply (flags (memc r)) = true;
  bc_direct : buffer_requests (flags (memc r)) = false;
  bc_plain : _key (hashkit (memc r)) = None;
  bc_single : number_of_replicas (limits (memc r)) = 0;
}.

(** A connection that owes nothing but errors of quiet requests, ready for a request of [n] bytes. *)
Record binary_ready (r : Root) (i : Inst) (s : cstring) (n : nat) : Prop := {
  br_write : writable r i n;
  br_empty : write_buffer i = [];
  br_read : rd_ok (rd i);
  br_cursor : cursor_active_ i = 0;
  br_in : incoming i s;
}.

#[local] Existing Instance binary_requests.

(** [initialize_binary_request]: a new number. *)
Lemma new_number r i :
  initialize_binary_request zero_header (mkCtx r i)
  = (Ret (mkHeader PROTOCOL_BINARY_REQ 0 0 0 PROTOCOL_BINARY_RAW_BYTES 0 0 (htons (next_id i)) 0),
     mkCtx r (set_request_id (next_id i) i)).
Proof. done. Qed.

Lemma binary_response_ok qs p rc rest r i :
  binary_client r -> fd i = true -> rd_ok (rd i) -> cursor_active_ i = 1 -> Forall quiet_error qs -> packet_ok p ->
  answers_with p rc -> memcached_fatal rc = false -> incoming i (responses qs ++ packet PROTOCOL_BINARY_RES p ++ rest) ->
  exists i', memcached_response_root 0 (mkCtx r i) = (Ret rc, mkCtx r i')
    /\ reads (set_cursor 0 i) i' /\ rd_ok (rd i') /\ incoming i' rest.
Proof.
  intros Hb Hfd Hrd Hc Hqs Hp Ha Hf Hin.
  destruct (binary_code_ok qs p rc rest [] 0 (result r) r (set_cursor 0 i) (bc_tcp _ Hb) Hfd Hrd Hqs Hp Ha Hin)
    as (i' & E & H).
  exists i'. split; [|done]. unfold memcached_response_root, bind at 1, getr at 1, gets. cbn [root].
  unfold memcached_response. unfold bind at 1. unfold bind at 1. unfold memcached_response_into.
  unfold bind at 1, conf at 1, gets. cbn [root]. rewrite (bc_tcp _ Hb).
  unfold bind at 1, getr at 1, gets. rewrite (bc_block _ Hb), (bc_binary _ Hb). cbn [andb].
  unfold bind at 1, ret at 1. unfold bind at 1, ret at 1.
  unfold _read_one_response, memcached_server_response_decrement.
  unfold bind at 1, bind at 1, on_inst at 1, modify. cbn [root inst]. rewrite Hc. change (u32 (1 - 1)) with 0.
  unfold bind at 1, conf at 1, gets. cbn [root]. rewrite (bc_binary _ Hb).
  cbn [binary_read_one_response binary_reader]. unfold bind at 1. rewrite E, Hf.
  unfold bind, ret, on_root, modify. cbn [root inst fst snd]. by rewrite set_result_same.
Qed.

Lemma send_binary_ok a r pre i post qs p rc rest n :
  let key := _namespace (memc r) ++ st_key a in
  let request := packet PROTOCOL_BINARY_REQ (store_packet (_namespace (memc r)) a (next_id i)) in
  binary_client r -> size key < 65536 -> 8 + size key + size (st_value a) < UINT_MOD ->
  binary_ready r i (responses qs ++ packet PROTOCOL_BINARY_RES p ++ rest) (length request + n) ->
  Forall quiet_error qs -> packet_ok p -> answers_with p rc -> memcached_fatal rc = false ->
  exists i', send_binary (Z.of_nat (length pre)) a true true (mkSession r (pre ++ i :: post))
      = (Ret rc, mkSession r (pre ++ i' :: post))
    /\ binary_ready r i' rest n /\ wire (net i') = wire (net i) ++ request /\ request_id i' = next_id i.
Proof.
  intros key request Hb Hk Hv [Hw Hwb Hrd Hc Hin] Hqs Hp Ha Hf.
  assert (writable r (set_request_id (next_id i) i) (length request + n)) as Hw0 by (destruct Hw; by split).
  set (h := mkHeader PROTOCOL_BINARY_REQ 0 0 0 PROTOCOL_BINARY_RAW_BYTES 0 0 (htons (next_id i)) 0).
  pose proof (store_vector_packet (_namespace (memc r)) a (next_id i) Hk Hv) as Hvec.
  fold h request in Hvec. rewrite <- Hvec in Hw0.
  destruct (vdo_ok _ r _ n Hw0 (bc_reply _ Hb)) as (i1 & E1 & Hw1 & Hwr1 & Hwb1 & Hb1).
  set (i2 := set_cursor _ i1) in E1.
  assert (cursor_active_ i2 = 1) as Hc2 by (unfold i2; cbn; by rewrite Hc).
  destruct (binary_response_ok qs p rc rest r i2 Hb) as (i' & E2 & R2 & Hrd2 & Hin2);
    [apply Hwb1|by destruct Hw1 as (? & ? & ? & ? & ->)|done|done|done|done|done|exact (incoming_writes _ _ _ Hw1 Hin)|].
  exists i'. split.
  - unfold send_binary, bind at 1, sconf at 1, gets. cbn [ses_root].
    rewrite (bind_Ret _ _ _ _ _ (at_instance_mid _ pre i post r _ _ _ _ eq_refl (new_number r i))). fold h.
    erewrite bind_Ret; [|apply at_instance_mid; [done|]; run E1; change (rc_eqb MEMCACHED_SUCCESS MEMCACHED_SUCCESS) with true; reflexivity].
    unfold bind at 1, sconf at 1, gets. cbn [ses_root]. rewrite (bc_single _ Hb).
    unfold bind at 1, sconf at 1, gets. cbn [ses_root]. rewrite andb_false_r. unfold bind at 1, ret at 1. cbn [negb].
    by rewrite (at_instance_mid _ pre i2 post r _ _ _ _ eq_refl E2).
  - destruct Hwb1 as [Ho Ht Hcm Hr Hac]. destruct Hw1 as (? & ? & ? & ? & ->). destruct R2 as (? & ? & ? & ->).
    split; [|split; [cbn in *; by rewrite Hwr1, Hvec; unfold written; cbn; rewrite Hwb, app_nil_r|done]].
    split; try done. split; try done. destruct Hcm as (? & ? & ?). by split.
Qed.
End Storing.
