(* ===== verification/ClientGetSpec.v ===== *)
(** * Retrieval by a client

    [memcached_get] of a text client: the request on the wire of the key's server and the value
    that comes back, with any number of other servers. *)

From stdpp Require Import base list.
From Stdlib Require Import ZArith Lia Ascii String.
From S2P Require Import Prelude CxxString HashWords HashKit HashkitString Rijndael Aes Continuum ClientTypes.
From S2P Require Import ClientString ClientState ClientRead ClientReadSpec ClientWrite ClientWriteSpec.
From S2P Require Import ClientWriteSpec ClientOps ClientGet ClientFrameOps.

Section Retrieval.
Context `{DM : DataModel} `{AL : Allocator} `{CF : ClientConfig} `{CK : Clock} `{CC : CipherConfig}.
Context `{BR : BinaryReader} `{TR : Transport} `{KR : KeyRouter} `{BQ : BinaryRequests} `{MP : MultiPoll}.
Implicit Types (r : Root) (i : Inst) (pre post : list Inst).

(** ** Reading what is owed *)

Lemma says_end : says (lit "END") MEMCACHED_END.
Proof. split; [|done]. apply (bool_decide_unpack _). by vm_compute. Qed.

(** A server's END line is read; a server that owes nothing is left alone. *)
Lemma drain_server_ok r i s n :
  text_client r -> ready r i s n ->
  exists i', drain_server (mkCtx r i) = (Ret tt, mkCtx r i')
    /\ ready r i' s n /\ cursor_active_ i' = 0 /\ wire (net i') = wire (net i).
Proof.
  intros Ht Hrdy. pose proof Hrdy as [Hw Hb Hrd Hin]. pose proof Hw as [Ho _ (_ & Hc & _) _ _].
  unfold drain_server, bind at 1, geti, gets. cbn [inst].
  destruct (Z.eqb_spec (cursor_active_ i) 0) as [H0|H0]; [by exists i|].
  unfold bind at 1, conf, gets. cbn [root]. rewrite (tc_block r Ht). unfold bind at 1, ret at 1.
  unfold bind at 1. cbn [inst]. cbn [drain_loop]. unfold bind at 1, geti, gets. cbn [inst].
  rewrite (proj2 (Z.eqb_neq _ 0)) by done. assert (cursor_active_ i = 1) as H1 by lia.
  destruct (response_code MEMCACHED_DEFAULT_COMMAND_SIZE (result r) r i (lit "END") MEMCACHED_END s Ht Ho Hrd)
    as (i' & E & Hr & Hrd' & Hin'); [lia| |apply says_end|done|done|].
  { unfold owed in Hin. rewrite H1 in *. cbn [Z.eqb Pos.eqb] in *. unfold END_LINE in Hin. by rewrite <- app_assoc in Hin. }
  unfold memcached_response_root. unfold bind at 1. unfold bind at 1, getr, gets. cbn [root].
  run E. unfold on_root, modify, bind at 1, ret at 1. cbn [root inst fst snd]. rewrite set_result_same.
  destruct (ready_after r i i i' 0 s n (writes_refl i) Hw Hb Hr Hrd') as (Hrdy' & Hwr & Hcur); [lia|done|].
  exists i'. split; [|done]. destruct (junk_fuel i); cbn [drain_loop]; unfold bind, geti, gets; cbn [inst]; by rewrite Hcur.
Qed.

(** Without input to come there is none in the buffer. *)
Lemma ready_quiet r i n : ready r i [] n -> cursor_active_ i = 0 -> quiet i.
Proof.
  intros [_ _ Hrd Hin] Hc. split; [done|]. unfold owed in Hin. rewrite Hc in Hin. cbn in Hin.
  destruct Hin as (chunks & _ & _ & Hs). symmetry in Hs. apply app_nil in Hs as [Hu _].
  pose proof (unread_length i Hrd) as Hl. rewrite Hu in Hl. cbn in Hl. pose proof (rd_len _ Hrd). lia.
Qed.

(** A call on every server in turn. *)
Lemma each_server_ok (P : Inst -> Inst -> Prop) m r : forall rest pre,
  Forall (fun i => exists i', m (mkCtx r i) = (Ret tt, mkCtx r i') /\ P i i') rest ->
  exists rest', each_server m (List.length rest) (Z.of_nat (List.length pre)) (mkSession r (pre ++ rest))
      = (Ret tt, mkSession r (pre ++ rest')) /\ Forall2 P rest rest'.
Proof.
  induction rest as [|i rest IH]; intros pre Hall; cbn [each_server List.length]; [by exists []; rewrite app_nil_r|].
  inversion_clear Hall as [|? ? (i' & E & HP) Hrest].
  run (at_instance_mid m pre i rest r _ _ _ _ eq_refl E).
  destruct (IH (pre ++ [i']) Hrest) as (rest' & E' & HF). rewrite <- !app_assoc in E'. cbn [app] in E'.
  rewrite length_app in E'. cbn [List.length] in E'. replace (Z.of_nat (List.length pre) + 1) with (Z.of_nat (List.length pre + 1)) by lia.
  exists (i' :: rest'). rewrite E'. split; [done|by constructor].
Qed.

(** ** Sending the keys *)

Definition get_line (r : Root) (k : cstring) : cstring := lit "get" ++ [SP] ++ _namespace (memc r) ++ k.

Lemma send_key_ok k r i s n :
  text_client r -> ready r i s (List.length (get_line r k) + n) -> cursor_active_ i = 0 ->
  exists i', send_key (lit "get") k (mkCtx r i) = (Ret (true, false, Some MEMCACHED_SUCCESS), mkCtx r (set_cursor 1 i'))
    /\ writes i i' /\ written i' = written i ++ get_line r k /\ writable r i' n.
Proof.
  intros Ht [Hw Hb Hrd Hin] Hc. pose proof Hw as [Ho _ _ _ _].
  unfold send_key, bind at 1, conf, gets. cbn [root]. unfold bind at 1, geti, gets. cbn [inst]. rewrite Hc.
  change (negb (0 =? 0)) with false. cbv iota.
  set (ns := _namespace (memc r)) in *.
  destruct (writev_ok [lit "get"] false r i (List.length ([SP] ++ ns ++ k) + n)) as (i1 & E1 & Hw1 & Hwr1 & Hwb1 & _).
  { unfold get_line in Hw. rewrite length_app in Hw. cbn [List.concat]. rewrite app_nil_r. by rewrite Nat.add_assoc. }
  unfold bind at 1. unfold bind at 1, memcached_connect, bind at 1, geti, gets. cbn [inst]. rewrite Ho.
  unfold ret at 1. change (memcached_failed MEMCACHED_SUCCESS) with false. cbv iota.
  run E1. cbn [negb]. unfold on_inst, modify, bind at 1, ret at 1. cbn [root inst].
  assert (cursor_active_ i1 = 0) as -> by (by destruct Hw1 as (? & ? & ? & ? & ->)). change (u32 (0 + 1)) with 1.
  assert (writable r (set_cursor 1 i1) (List.length ([SP] ++ ns ++ k) + n)) as Hwb1'.
  { destruct Hwb1 as [? ? (? & _ & ?) ? ?]. by split. }
  destruct (writev_ok (key_vector ns k) false r (set_cursor 1 i1) n) as (i2 & E2 & Hw2 & Hwr2 & Hwb2 & _).
  { unfold key_vector. cbn [List.concat]. by rewrite app_nil_r. }
  cbn [negb]. run E2. cbn.
  exists (set_cursor 0 i2).
  assert (set_cursor 1 (set_cursor 0 i2) = i2) as ->.
  { destruct Hw2 as (l & w & b & m & ->). destruct i1 as [? ? [] ? ? ? ? ? ? ? ? ? ?]. done. }
  split; [done|]. split; [|split].
  - eapply writes_trans; [exact Hw1|]. destruct Hw2 as (l & w & b & m & ->). apply writes_intro.
    destruct Hw1 as (? & ? & ? & ? & ->). destruct i as [? ? [] ? ? ? ? ? ? ? ? ? ?]. cbn in *. by subst.
  - change (written (set_cursor 0 i2)) with (written i2). rewrite Hwr2.
    change (written (set_cursor 1 i1)) with (written i1). rewrite Hwr1. unfold get_line, key_vector. fold ns.
    cbn [List.concat]. by rewrite !app_nil_r, <- app_assoc.
  - destruct Hwb2 as [? ? (? & _ & ?) ? ?]. by split.
Qed.

(** Servers without a request are passed over. *)
Lemma finish_quiet r : forall l pre tail f s,
  Forall quiet l ->
  finish_requests (List.length l) (Z.of_nat (List.length pre)) f s (mkSession r (pre ++ l ++ tail))
  = (Ret (f, s), mkSession r (pre ++ l ++ tail)).
Proof.
  induction l as [|i l IH]; intros pre tail f s Hq; cbn [finish_requests List.length app]; [done|].
  inversion_clear Hq as [|? ? [Hc _] Hq'].
  assert ((let* count := geti cursor_active_ in if count =? 0 then ret (f, s) else
      let* w := memcached_io_write CRLF true in ret (if w =? -1 then (true, s) else (f, true))) (mkCtx r i)
    = (Ret (f, s), mkCtx r i)) as E by (unfold bind, geti, gets; cbn [inst]; by rewrite Hc).
  run (at_instance_mid _ pre i (l ++ tail) r _ _ _ _ eq_refl E). cbn [fst snd].
  pose proof (IH (pre ++ [i]) tail f s Hq') as E'. rewrite <- !app_assoc in E'. cbn [app] in E'. rewrite length_app in E'.
  cbn [List.length] in E'. by replace (Z.of_nat (List.length pre) + 1) with (Z.of_nat (List.length pre + 1)) by lia.
Qed.

Lemma finish_app a b k f s st :
  finish_requests (a + b) k f s st =
  bind (finish_requests a k f s) (fun x => finish_requests b (k + Z.of_nat a) (fst x) (snd x)) st.
Proof.
  revert k f s st. induction a as [|a IH]; intros k f s st; cbn [finish_requests Nat.add].
  - unfold bind, ret. cbn. by rewrite Z.add_0_r.
  - rewrite bind_assoc. set (m := at_instance k _).
    destruct (m st) as [[x|e|e] st'] eqn:E.
    + run E. run E. rewrite IH. by replace (k + 1 + Z.of_nat a) with (k + Z.of_nat (S a)) by lia.
    + by rewrite !(bind_Throw _ _ _ _ _ E).
    + by rewrite !(bind_Stuck _ _ _ _ _ E).
Qed.

(** The end of line goes to the one server with a request. *)
Lemma finish_ok r pre i post i' :
  Forall quiet pre -> Forall quiet post -> cursor_active_ i <> 0 ->
  memcached_io_write CRLF true (mkCtx r i) = (Ret 2, mkCtx r i') ->
  finish_requests (List.length (pre ++ i :: post)) 0 false false (mkSession r (pre ++ i :: post))
  = (Ret (false, true), mkSession r (pre ++ i' :: post)).
Proof.
  intros Hpre Hpost Hc E. rewrite length_app, finish_app. cbn [List.length].
  pose proof (finish_quiet r pre [] (i :: post) false false Hpre) as E1. cbn [app List.length] in E1.
  change (Z.of_nat 0) with 0 in E1.
  run E1. cbn [fst snd finish_requests]. rewrite Z.add_0_l.
  assert ((let* count := geti cursor_active_ in if count =? 0 then ret (false, false) else
      let* w := memcached_io_write CRLF true in ret (if w =? -1 then (true, false) else (false, true))) (mkCtx r i)
    = (Ret (false, true), mkCtx r i')) as E2.
  { unfold bind at 1, geti, gets. cbn [inst]. rewrite (proj2 (Z.eqb_neq _ 0)) by done. by run E. }
  run (at_instance_mid _ pre i post r _ _ _ _ eq_refl E2). cbn [fst snd].
  pose proof (finish_quiet r post (pre ++ [i']) [] false true Hpost) as E3. rewrite app_nil_r, <- app_assoc in E3. cbn [app] in E3.
  rewrite length_app in E3. cbn [List.length] in E3.
  by replace (Z.of_nat (List.length pre) + 1) with (Z.of_nat (List.length pre + 1)) by lia.
Qed.

(** ** The server to read from *)

Lemma poll_quiet l : forall k room, Forall quiet l -> poll_set l k room = (None, []).
Proof.
  induction l as [|i l IH]; intros k [|room] Hq; try done. inversion_clear Hq as [|? ? [Hc Hr] Hq'].
  cbn [poll_set]. rewrite Hr, Hc. by apply (IH (k + 1) (S room)).
Qed.

Lemma poll_skip l : forall tail k room, Forall quiet l -> (0 < room)%nat ->
  poll_set (l ++ tail) k room = poll_set tail (k + Z.of_nat (List.length l)) room.
Proof.
  induction l as [|i l IH]; intros tail k [|room] Hq Hroom; cbn [app List.length]; try lia.
  - by rewrite Z.add_0_r.
  - inversion_clear Hq as [|? ? [Hc Hr] Hq']. cbn [poll_set]. rewrite Hr, Hc.
    change (0 <? 0) with false. cbv iota. rewrite IH by (done || lia). f_equal. lia.
Qed.

Lemma first_owing_skip l : forall tail k, Forall quiet l ->
  first_owing (l ++ tail) k = first_owing tail (k + Z.of_nat (List.length l)).
Proof.
  induction l as [|i l IH]; intros tail k Hq; cbn [app List.length]; [by rewrite Z.add_0_r|].
  inversion_clear Hq as [|? ? [Hc _] Hq']. cbn [first_owing]. rewrite Hc. cbn. rewrite IH by done. f_equal. lia.
Qed.

(** The one server that owes a response is the one that is read. *)
Lemma readable_ok r pre i post :
  Forall quiet pre -> Forall quiet post -> 0 < cursor_active_ i ->
  memcached_io_get_readable_server (mkSession r (pre ++ i :: post))
  = (Ret (Some (Z.of_nat (List.length pre))), mkSession r (pre ++ i :: post)).
Proof.
  intros Hpre Hpost Hc. unfold memcached_io_get_readable_server, bind at 1, gets. cbn [ses_insts].
  rewrite poll_skip by (done || (unfold MAX_SERVERS_TO_POLL; lia)). rewrite Z.add_0_l.
  unfold MAX_SERVERS_TO_POLL. cbn [poll_set].
  destruct (0 <? read_buffer_length (rd i)); [done|]. rewrite (proj2 (Z.ltb_lt 0 _)) by done.
  rewrite poll_quiet by done. cbn [List.length Nat.ltb Nat.leb].
  rewrite first_owing_skip by done. cbn [first_owing]. by rewrite (proj2 (Z.ltb_lt 0 _)) by done.
Qed.
(** ** A request for one key *)

(** What a drained server is to the one before. *)
Definition drained (r : Root) (i i' : Inst) : Prop :=
  (forall s n, ready r i s n -> ready r i' s n) /\ cursor_active_ i' = 0 /\ wire (net i') = wire (net i).

Lemma drained_ok r i s n : text_client r -> ready r i s n ->
  exists i', drain_server (mkCtx r i) = (Ret tt, mkCtx r i') /\ drained r i i'.
Proof.
  intros Ht Hrdy. destruct (drain_server_ok r i s n Ht Hrdy) as (i' & E & _ & Hc & Hw). exists i'. split; [done|].
  split; [|done]. intros s' n' Hrdy'. destruct (drain_server_ok r i s' n' Ht Hrdy') as (i2 & E2 & Hr & _).
  rewrite E in E2. by injection E2 as <-.
Qed.

(** Other servers may owe an END line, and nothing more is to come from them. *)
Definition at_rest (r : Root) (l : list Inst) : Prop := Forall (fun i => ready r i [] 0) l.

Lemma at_rest_same r r' l : at_rest r l -> memc r' = memc r -> is_purging r' = is_purging r -> at_rest r' l.
Proof. intros H Hm Hp. eapply Forall_impl; [exact H|]. intros j Hj. exact (ready_same r r' j [] 0 Hj Hm Hp). Qed.

Lemma drained_rest r l l' : at_rest r l -> Forall2 (drained r) l l' -> Forall quiet l' /\ at_rest r l'.
Proof.
  intros Hr HF. induction HF as [|i i' l l' (H1 & H2 & _) HF IH]; [by split|].
  inversion_clear Hr as [|? ? Hi Hl]. destruct (IH Hl) as [IH1 IH2]. specialize (H1 _ _ Hi).
  split; (constructor; [|done]); [exact (ready_quiet r i' 0 H1 H2)|done].
Qed.

(** The client's requests of one key over its drained servers. *)
Lemma mget_one_ok k r pre i post s n :
  text_client r -> servers (memc r) <> [] -> List.length (servers (memc r)) = List.length (pre ++ i :: post) ->
  support_cas (flags (memc r)) = false -> valid_key k -> routes_to (memc r) k (List.length pre) ->
  ready r i s (List.length (get_line r k ++ CRLF) + n) -> at_rest r pre -> at_rest r post ->
  let r' := routed (begun r) in
  exists pre' i' post', memcached_mget_by_key_real None [k] false (mkSession r (pre ++ i :: post))
      = (Ret MEMCACHED_SUCCESS, mkSession r' (pre' ++ i' :: post'))
    /\ List.length pre' = List.length pre /\ Forall quiet pre' /\ Forall quiet post' /\ at_rest r' pre' /\ at_rest r' post'
    /\ cursor_active_ i' = 1 /\ writable r' i' n /\ write_buffer i' = [] /\ rd_ok (rd i') /\ incoming i' s
    /\ wire (net i') = wire (net i) ++ get_line r k ++ CRLF.
Proof.
  intros Ht Hsv Hlen Hcas Hk Hro Hrdy Hpre Hpost r'. unfold memcached_mget_by_key_real.
  rewrite (bind_Ret _ _ _ _ _ (initialize_query_ok r _ Hsv)). change (memcached_failed MEMCACHED_SUCCESS) with false. cbv iota.
  set (r1 := begun r).
  assert (text_client r1) as Ht1 by (eapply text_client_same; [exact Ht|done|done|by apply mstring_ok_reset, (tc_result r Ht)]).
  unfold bind at 1, sconf, gets. cbn [ses_root]. rewrite (tc_tcp r1 Ht1). change (Z.of_nat (List.length [k]) =? 0) with false. cbv iota.
  rewrite (bind_Ret _ _ _ _ _ (key_test_ok [k] _ (proj2 (Forall_singleton _ _) Hk))).
  change (memcached_failed MEMCACHED_SUCCESS) with false. cbv iota.
  unfold bind at 1, ret at 1. unfold bind at 1. cbn [ses_root]. change (servers (memc r1)) with (servers (memc r)). rewrite Hlen.
  (* draining *)
  pose proof (ready_same r r1 _ _ _ Hrdy eq_refl eq_refl) as Hrdy1.
  pose proof (at_rest_same r r1 _ Hpre eq_refl eq_refl) as Hpre1. pose proof (at_rest_same r r1 _ Hpost eq_refl eq_refl) as Hpost1.
  destruct (each_server_ok (drained r1) drain_server r1 (pre ++ i :: post) []) as (l' & E & HF).
  { apply Forall_app. split; [|constructor; [exact (drained_ok _ _ _ _ Ht1 Hrdy1)|]].
    - eapply Forall_impl; [exact Hpre1|]. intros j Hj. exact (drained_ok _ _ _ _ Ht1 Hj).
    - eapply Forall_impl; [exact Hpost1|]. intros j Hj. exact (drained_ok _ _ _ _ Ht1 Hj). }
  cbn [List.length app] in E. change (Z.of_nat 0) with 0 in E. run E.
  apply Forall2_app_inv_l in HF as (pre1 & l2 & HF1 & HF2 & ->). inversion HF2 as [|? i1 ? post1 (Hi1 & Hi2 & Hi3) HF3]; subst. clear HF2.
  destruct (drained_rest r1 pre pre1 Hpre1 HF1) as [Hq1 Hat1]. destruct (drained_rest r1 post post1 Hpost1 HF3) as [Hq3 Hat3].
  pose proof (Forall2_length _ _ _ HF1) as Hl1. pose proof (Forall2_length _ _ _ HF3) as Hl3.
  specialize (Hi1 _ _ Hrdy1).
  (* sending *)
  rewrite (tc_text r1 Ht1). change (support_cas (flags (memc r1))) with (support_cas (flags (memc r))). rewrite Hcas. cbv iota.
  cbn [send_keys]. unfold bind at 1.
  rewrite (bind_Ret _ _ _ _ _ (pick_server_ok k (List.length pre) r1 _ Hro)). fold r'. rewrite Hl1.
  pose proof (ready_same r1 r' _ _ _ Hi1 eq_refl eq_refl) as Hi4.
  assert (text_client r') as Ht' by (by eapply text_client_same; [exact Ht1|done|done|apply (tc_result r1 Ht1)]).
  rewrite length_app in Hi4. destruct (send_key_ok k r' i1 s (List.length CRLF + n) Ht') as (i2 & E2 & Hw2 & Hwr2 & Hwb2).
  { by rewrite Nat.add_assoc. }
  { done. }
  run (at_instance_mid _ pre1 i1 post1 r' _ _ _ _ eq_refl E2). unfold ret at 1. cbn [default orb]. change (0 + 1 =? 0) with false. cbv iota.
  unfold bind at 1. cbn [ses_root]. change (servers (memc r')) with (servers (memc r)).
  (* the end of line *)
  assert (writable r' (set_cursor 1 i2) (List.length CRLF + n)) as Hwb2' by (destruct Hwb2 as [? ? (? & _ & ?) ? ?]; by split).
  destruct (io_write_ok CRLF true r' (set_cursor 1 i2) n Hwb2') as (i3 & E3 & Hw3 & Hwr3 & Hwb3 & Hb3). specialize (Hb3 eq_refl).
  assert (memcached_io_write CRLF true (mkCtx r' (set_cursor 1 i2)) = (Ret 2, mkCtx r' i3)) as E3'
    by (unfold memcached_io_write; run E3; done).
  assert (List.length (servers (memc r)) = List.length (pre1 ++ set_cursor 1 i2 :: post1)) as Hlen1.
  { rewrite Hlen, !length_app. cbn. lia. }
  rewrite Hlen1. run (finish_ok r' pre1 (set_cursor 1 i2) post1 i3 Hq1 Hq3 ltac:(done) E3'). cbn [andb].
  exists pre1, i3, post1. split; [done|]. split; [done|]. split; [done|]. split; [done|].
  split; [by eapply at_rest_same|]. split; [by eapply at_rest_same|].
  destruct Hi1 as [_ Hb1 Hrd1 Hin1].
  split; [by destruct Hw3 as (? & ? & ? & ? & ->)|]. split; [done|]. split; [done|].
  split; [|split].
  - destruct Hw3 as (? & ? & ? & ? & ->). destruct Hw2 as (? & ? & ? & ? & ->). exact Hrd1.
  - unfold owed in Hin1. rewrite Hi2 in Hin1. cbn in Hin1.
    eapply incoming_writes; [exact Hw3|]. exact (incoming_writes i1 i2 s Hw2 Hin1).
  - unfold written in Hwr3. rewrite Hb3, app_nil_r in Hwr3. rewrite Hwr3.
    change (wire (net (set_cursor 1 i2)) ++ write_buffer (set_cursor 1 i2)) with (written i2). rewrite Hwr2.
    unfold written. rewrite Hb1, app_nil_r, Hi3, <- app_assoc. done.
Qed.
(** ** The value of one key *)

Context (Hgrants : forall k n, grants k n = true).

(** The result after a value. *)
Definition got_result (k : cstring) (f c : Z) (v : memcached_string_st) : Result := mkResult k f 0 0 v UINT64_MAX c.

Lemma fetch_value_ok r pre i post k f data rest n :
  let line := value_line (_namespace (memc r) ++ k) f (size data) None in
  text_client r -> Forall quiet pre -> Forall quiet post -> cursor_active_ i = 1 ->
  writable r i n -> write_buffer i = [] -> rd_ok (rd i) -> incoming i (line ++ data ++ CRLF ++ END_LINE ++ rest) ->
  graphic k -> size k < MEMCACHED_MAX_KEY -> 0 <= f < UINT_MOD -> size line < MEMCACHED_DEFAULT_COMMAND_SIZE ->
  fits (res_value (result r)) (size data + 2) ->
  exists v m i', memcached_fetch_result (mkSession r (pre ++ i :: post))
      = (Ret (true, MEMCACHED_SUCCESS), mkSession
          (set_result (got_result k f (u64 (res_count (result r) + 1)) v) (set_allocs m r)) (pre ++ i' :: post))
    /\ mstring_ok v /\ str_chars v = data /\ str_end v = size data
    /\ str_size v <= str_size (res_value (result r)) + size data + 2 + MEMCACHED_BLOCK_SIZE
    /\ ready r i' rest n /\ wire (net i') = wire (net i) /\ cursor_active_ i' = 1.
Proof using Hgrants.
  intros line Ht Hpre Hpost Hc Hwb Hb Hrd Hin Gk Hk Hf Hline Hfit. unfold memcached_fetch_result.
  unfold bind at 1, sconf, gets. cbn [ses_root]. rewrite (tc_tcp r Ht). unfold bind at 1. cbn [ses_insts]. cbn [fetch_loop].
  unfold bind at 1. rewrite (bind_Ret _ _ _ _ _ (readable_ok r pre i post Hpre Hpost ltac:(lia))).
  destruct (response_value Hgrants MEMCACHED_DEFAULT_COMMAND_SIZE (result r) r i k f None data (END_LINE ++ rest) Ht)
    as (v & i' & m & E & Hv1 & Hv2 & Hv3 & Hv4 & Hr & Hrd' & Hin'); try done.
  { apply Hwb. } { lia. } { by rewrite Hc. } { apply (tc_result r Ht). }
  assert (memcached_response_root MEMCACHED_DEFAULT_COMMAND_SIZE (mkCtx r i)
    = (Ret MEMCACHED_SUCCESS, mkCtx (set_result (got_result k f (res_count (result r)) v) (set_allocs m r)) i')) as E'
    by (unfold memcached_response_root, bind at 1, getr, gets; cbn [root]; run E; done).
  rewrite (bind_Ret _ _ _ _ _ (at_instance_mid _ pre i post r _ _ _ _ eq_refl E')).
  change (rc_eqb MEMCACHED_SUCCESS MEMCACHED_IN_PROGRESS) with false.
  change (rc_eqb MEMCACHED_SUCCESS MEMCACHED_SUCCESS) with true. cbv iota.
  unfold on_sroot, modify, bind, ret. cbn [ses_root ses_insts].
  exists v, m, i'. split; [done|]. repeat (split; [done|]).
  rewrite <- Hc in Hr. destruct (ready_after r i i i' (cursor_active_ i) rest n (writes_refl i) Hwb Hb Hr Hrd') as (H1 & H2 & H3).
  { lia. } { by rewrite Hc. }
  rewrite Hc in H3. done.
Qed.

(** [memcached_get] returns the value, its flags and success, and puts the request on the wire. *)
Lemma get_value_ok k f data r pre i post rest n :
  let line := value_line (_namespace (memc r) ++ k) f (size data) None in
  text_client r -> servers (memc r) <> [] -> List.length (servers (memc r)) = List.length (pre ++ i :: post) ->
  support_cas (flags (memc r)) = false -> valid_key k -> routes_to (memc r) k (List.length pre) ->
  ready r i (line ++ data ++ CRLF ++ END_LINE ++ rest) (List.length (get_line r k ++ CRLF) + n) ->
  at_rest r pre -> at_rest r post -> 0 <= f < UINT_MOD -> size line < MEMCACHED_DEFAULT_COMMAND_SIZE ->
  str_size (res_value (result r)) + size data + 2 * MEMCACHED_BLOCK_SIZE + 3 < ULONG_MOD ->
  exists r' pre' i' post', memcached_get k (mkSession r (pre ++ i :: post))
      = (Ret (mkFetched (if size data =? 0 then None else Some (data ++ [zero])) (size data) [] f MEMCACHED_SUCCESS),
         mkSession r' (pre' ++ i' :: post'))
    /\ text_client r' /\ memc r' = memc r /\ List.length pre' = List.length pre /\ at_rest r' pre' /\ at_rest r' post'
    /\ ready r' i' rest n /\ wire (net i') = wire (net i) ++ get_line r k ++ CRLF.
Proof using Hgrants.
  intros line Ht Hsv Hlen Hcas Hk Hro Hrdy Hpre Hpost Hf Hline Hfit. unfold MEMCACHED_BLOCK_SIZE in Hfit.
  pose proof (size_nonneg data) as Hd.
  destruct (mget_one_ok k r pre i post _ n Ht Hsv Hlen Hcas Hk Hro Hrdy Hpre Hpost)
    as (pre1 & i1 & post1 & E & Hl & Hq1 & Hq2 & Ha1 & Ha2 & Hc & Hwb & Hb & Hrd & Hin & Hwire).
  pose proof (begun_client r Ht) as Ht1. set (r1 := routed (begun r)) in *.
  destruct (fetch_value_ok r1 pre1 i1 post1 k f data rest n Ht1 Hq1 Hq2 Hc Hwb Hb Hrd Hin)
    as (v & m & i2 & E2 & Hv1 & Hv2 & Hv3 & Hv4 & Hrdy2 & Hwire2 & _); try done.
  { by apply valid_key_graphic. } { apply Hk. }
  { unfold fits, MEMCACHED_BLOCK_SIZE. cbn. lia. }
  set (x2 := got_result k f (u64 (res_count (result r1) + 1)) v) in *. set (r2 := set_result x2 (set_allocs m r1)) in *.
  change (str_size (res_value (result r1))) with (str_size (res_value (result r))) in Hv4. unfold MEMCACHED_BLOCK_SIZE in Hv4.
  destruct (take_value_spec v m Hv1 ltac:(unfold MEMCACHED_BLOCK_SIZE; lia) Hgrants) as (v' & m' & E3 & Hv').
  exists (set_result (set_value v' x2) (set_allocs m' r2)), pre1, i2, post1. split.
  - unfold memcached_get, memcached_get_by_key, bind at 1, sroot, gets. cbn [ses_root].
    run E. unfold bind at 1. cbn [ses_root]. change (query_id r1) with (u64 (query_id r + 1)). rewrite Z.eqb_refl.
    unfold bind at 1, lift, assert_msg. rewrite orb_true_r. change (memcached_failed MEMCACHED_SUCCESS) with false. cbv iota.
    unfold memcached_fetch. unfold bind at 1. unfold bind at 1, sconf, gets. cbn [ses_root]. rewrite (tc_tcp r1 Ht1).
    run E2. change (negb true || memcached_failed MEMCACHED_SUCCESS) with false. cbv iota.
    unfold bind at 1, sroot, gets. cbn [ses_root andb]. unfold at_root, with_allocs. unfold bind at 1. cbn [ses_root root].
    change (allocs r2) with m. change (res_value (result r2)) with v. rewrite E3.
    unfold on_sroot, modify, bind, ret. cbn [ses_root ses_insts root fst snd f_error].
    change (rc_eqb MEMCACHED_SUCCESS MEMCACHED_END) with false. cbv iota.
    change (query_id (set_result _ (set_allocs m' r2))) with (u64 (query_id r + 1)).
    change (query_id (set_allocs m' r2)) with (u64 (query_id r + 1)).
    cbn [query_id set_result set_allocs r2 r1]. unfold memcached_string_length. rewrite Hv2, Hv3.
    rewrite Z.eqb_refl, orb_true_r. done.
  - split; [by eapply text_client_same|]. split; [done|]. split; [done|].
    split; [by eapply at_rest_same|]. split; [by eapply at_rest_same|]. split; [by eapply ready_same|].
    by rewrite Hwire2.
Qed.
End Retrieval.
