(* ===== verification/ContinuumSpec.v ===== *)
(** * The continuum as a ring of points

    The search of [dispatch_host] finds the first point at or after a hash, or the first of
    all; the array that [update_continuum] leaves is the sorted ring of the points of the
    live servers; and when a server drops out, only its own keys move. *)

From stdpp Require Import base list numbers sorting.
From Stdlib Require Import ZArith Lia Ascii Sorted.
From S2P Require Import Prelude CxxString HashWords HashMd5 HashSmall HashKit ClientTypes.
From S2P Require Import Continuum Distribution.

(** ** Owners on a ring *)

(** The point that owns [h] among [pts]: a least one not below [h], or a least one of all
    when every point is below. *)
Definition owner (h : Z) (pts : list memcached_continuum_item_st) (p : memcached_continuum_item_st) : Prop :=
  p ∈ pts /\
  ((h <= value p /\ forall q, q ∈ pts -> h <= value q -> value p <= value q)
   \/ ((forall q, q ∈ pts -> value q < h) /\ forall q, q ∈ pts -> value p <= value q)).

(** Points of different servers have different hashes. *)
Definition no_collision (pts : list memcached_continuum_item_st) : Prop :=
  forall p q, p ∈ pts -> q ∈ pts -> value p = value q -> index p = index q.

Lemma owner_unique h pts p q : no_collision pts -> owner h pts p -> owner h pts q -> index p = index q.
Proof.
  intros Hc [Hp Op] [Hq Oq]. apply Hc; [done..|].
  destruct Op as [[? Op]|[Ap Op]], Oq as [[? Oq]|[Aq Oq]].
  - specialize (Op q Hq). specialize (Oq p Hp). lia.
  - specialize (Aq p Hp). lia.
  - specialize (Ap q Hq). lia.
  - specialize (Op q Hq). specialize (Oq p Hp). lia.
Qed.

(** Leaving out points other than the owner keeps the owner. *)
Lemma owner_subset h pts pts' p : owner h pts p -> p ∈ pts' -> (forall q, q ∈ pts' -> q ∈ pts) -> owner h pts' p.
Proof. unfold owner. intros [Hp [[? O]|[A O]]] Hp' Hsub; (split; [done|]); [left|right]; naive_solver. Qed.

Lemma owner_perm h pts pts' p : pts ≡ₚ pts' -> owner h pts p -> owner h pts' p.
Proof.
  intros Hperm O. apply (owner_subset h pts); [done| |].
  - rewrite <- Hperm. apply O.
  - intros q. by rewrite Hperm.
Qed.

(** ** The search *)

Lemma sorted_lookup pts i j p q : StronglySorted value_le pts -> pts !! i = Some p -> pts !! j = Some q ->
  (i <= j)%nat -> value p <= value q.
Proof.
  intros Hs. revert i j. induction Hs as [|x l Hs IH Hx]; intros i j Hi Hj Hij; [done|].
  destruct i as [|i], j as [|j]; cbn in *; try lia.
  - simplify_eq. done.
  - simplify_eq. eapply Forall_lookup_1 in Hx; [|done]. done.
  - apply (IH i j); [done..|lia].
Qed.

Section Search.
Context (c : list memcached_continuum_item_st) (num hash : Z).
Context (Hnum : 0 <= num <= Z.of_nat (length c)) (Hs : StronglySorted value_le (take (Z.to_nat num) c)).

Lemma point_at i p : 0 <= i < num -> c !! Z.to_nat i = Some p -> take (Z.to_nat num) c !! Z.to_nat i = Some p.
Proof using Type. intros Hi Hp. rewrite lookup_take_lt; [done|lia]. Qed.

(** The result splits the points into those below the hash and the others. *)
Lemma search_spec fuel l r : (Z.to_nat (r - l) < fuel)%nat -> 0 <= l <= r -> r <= num ->
  (forall i p, 0 <= i < l -> c !! Z.to_nat i = Some p -> value p < hash) ->
  (forall i p, r <= i < num -> c !! Z.to_nat i = Some p -> hash <= value p) ->
  exists m, search fuel c hash l r = Ret m /\ 0 <= m <= num
    /\ (forall i p, 0 <= i < m -> c !! Z.to_nat i = Some p -> value p < hash)
    /\ (forall i p, m <= i < num -> c !! Z.to_nat i = Some p -> hash <= value p).
Proof using All.
  revert l r. induction fuel as [|fuel IH]; intros l r Hf Hlr Hr Hlow Hhigh; [lia|].
  cbn [search]. destruct (Z.ltb_spec l r); [|exists r; split_and!; try done; try lia].
  2: { intros i p Hi. apply Hlow. lia. }
  set (m := l + (r - l) / 2).
  assert (Hm : l <= m < r) by (unfold m; Z.to_euclidean_division_equations; lia).
  destruct (c !! Z.to_nat m) as [it|] eqn:E; [|apply lookup_ge_None in E; lia].
  destruct (Z.ltb_spec (value it) hash) as [Hlt|Hge].
  - apply IH; [lia..| |done]. intros i p Hi Hp.
    enough (value p <= value it) by lia.
    eapply (sorted_lookup _ (Z.to_nat i) (Z.to_nat m)); [done|apply point_at; [lia|done]..|lia].
  - apply IH; [lia..|done|]. intros i p Hi Hp.
    enough (value it <= value p) by lia.
    eapply (sorted_lookup _ (Z.to_nat m) (Z.to_nat i)); [done|apply point_at; [lia|done]..|lia].
Qed.
End Search.

(** The points in use. *)
Definition ring (ptr : Memcached) : list memcached_continuum_item_st :=
  take (Z.to_nat (continuum_points_counter (ketama ptr))) (continuum (ketama ptr)).

(** At least one point, all of them inside the array, in order. *)
Definition ring_ok (ptr : Memcached) : Prop :=
  0 < continuum_points_counter (ketama ptr) <= Z.of_nat (length (continuum (ketama ptr)))
  /\ StronglySorted value_le (ring ptr).

Lemma dispatch_owner random_value ptr hash :
  memcached_is_consistent_distribution ptr = true -> ring_ok ptr ->
  exists p, dispatch_host random_value ptr hash = Ret (index p) /\ owner hash (ring ptr) p.
Proof.
  intros Hd [Hn Hs]. unfold ring in *.
  set (num := continuum_points_counter (ketama ptr)) in *. set (c := continuum (ketama ptr)) in *.
  destruct (search_spec c num hash ltac:(lia) Hs (S (Z.to_nat num)) 0 num) as (m & Em & Hm & Hlow & Hhigh);
    [lia..|intros; lia|intros; lia|].
  assert (Hdisp : dispatch_host random_value ptr hash
    = match c !! Z.to_nat (if m =? num then 0 else m) with None => Stuck Undefined | Some item => Ret (index item) end).
  { unfold dispatch_host, memcached_is_consistent_distribution in *. fold num c.
    destruct (distribution ptr); try discriminate Hd; rewrite Em; done. }
  rewrite Hdisp. clear Hdisp Em.
  set (at_ := if m =? num then 0 else m). assert (Hat : 0 <= at_ < num) by (unfold at_; destruct (Z.eqb_spec m num); lia).
  destruct (c !! Z.to_nat at_) as [p|] eqn:E; [|apply lookup_ge_None in E; lia].
  exists p. split; [done|]. pose proof (point_at c num _ _ Hat E) as E'.
  split; [by eapply list_elem_of_lookup_2|].
  assert (Hidx : forall q, q ∈ take (Z.to_nat num) c ->
    exists i, 0 <= i < num /\ c !! Z.to_nat i = Some q /\ take (Z.to_nat num) c !! Z.to_nat i = Some q).
  { intros q [i Hi]%list_elem_of_lookup. exists (Z.of_nat i). rewrite Nat2Z.id.
    pose proof (lookup_lt_Some _ _ _ Hi) as Hl. rewrite length_take in Hl.
    split_and!; [lia..| |done]. by rewrite lookup_take_lt in Hi by lia. }
  unfold at_ in *. destruct (Z.eqb_spec m num) as [->|Hne]; [right|left].
  - split; intros q (i & Hi & Hq & Hq')%Hidx; [by eapply Hlow|].
    apply (sorted_lookup _ _ _ _ _ Hs E' Hq'). lia.
  - split; [apply (Hhigh m p); [lia|done]|]. intros q (i & Hi & Hq & Hq')%Hidx Hh.
    destruct (decide (i < m)); [exfalso; specialize (Hlow i q ltac:(lia) Hq); lia|].
    apply (sorted_lookup _ _ _ _ _ Hs E' Hq'). lia.
Qed.

(** ** The points that are stored *)

Lemma take_aset (c : list memcached_continuum_item_st) i x : 0 <= i < Z.of_nat (length c) ->
  take (Z.to_nat (i + 1)) (aset c i x) = take (Z.to_nat i) c ++ [x].
Proof.
  intros Hi. unfold aset. replace (Z.to_nat (i + 1)) with (S (Z.to_nat i)) by lia.
  erewrite take_S_r by (apply list_lookup_insert_eq; lia).
  by rewrite take_insert_ge by lia.
Qed.

(** After [ci] the array has new points, the rest of the prefix is as before. *)
Definition extended (c : list memcached_continuum_item_st) (ci : Z) (pts c' : list memcached_continuum_item_st) : Prop :=
  length c' = length c /\ take (Z.to_nat (ci + Z.of_nat (length pts))) c' = take (Z.to_nat ci) c ++ pts.

Lemma extended_nil c ci : extended c ci [] c.
Proof. split; [done|]. rewrite app_nil_r. cbn [length]. by rewrite Z.add_0_r. Qed.

Lemma extended_app c c1 c2 ci p1 p2 : 0 <= ci ->
  extended c ci p1 c1 -> extended c1 (ci + Z.of_nat (length p1)) p2 c2 -> extended c ci (p1 ++ p2) c2.
Proof.
  intros Hc [Hl1 H1] [Hl2 H2]. split; [congruence|]. rewrite length_app, app_assoc, <- H1, <- H2.
  f_equal. lia.
Qed.

Lemma put_points_spec c ci i vs : 0 <= ci -> ci + Z.of_nat (length vs) <= Z.of_nat (length c) ->
  exists c', put_points c ci i vs = Ret (c', ci + Z.of_nat (length vs)) /\ extended c ci (map (mkItem i) vs) c'.
Proof.
  revert c ci. induction vs as [|v vs IH]; intros c ci Hc Hl.
  - exists c. cbn [put_points length]. rewrite Z.add_0_r. split; [done|apply extended_nil].
  - cbn [put_points length] in *. rewrite (proj2 (Z.ltb_lt _ _)) by lia.
    destruct (IH (aset c ci (mkItem i v)) (ci + 1)) as (c' & -> & He); [lia|rewrite length_aset; lia|].
    exists c'. split; [do 2 f_equal; lia|]. apply (extended_app c (aset c ci (mkItem i v)) c' ci [mkItem i v]); [done| |done].
    split; [apply length_aset|]. cbn [length]. apply take_aset. lia.
Qed.

Section Build.
Context `{DM : DataModel} `{HC : HashConfig} `{CF : ClientConfig} `{QS : Qsort}.
Context (garbage : list Z) (client : Z -> KeyPtr -> Z -> outcome Z).
Context (stack_addr : Z) (stack_rest : nat -> ascii).
Context (hk : hashkit_st) (weighted spy ejecting : bool) (now live total : Z).

(** The hashes of a name, and how many points a host gets. *)
Context (value_of : cstring -> list Z) (pps : Instance_ -> Z).

Definition per_hash : nat := if weighted then 4 else 1.

Definition hashes_ok : Prop := forall name, size name < sizeof_sort_host spy ->
  point_values garbage client stack_addr stack_rest hk weighted name = Ret (value_of name)
  /\ length (value_of name) = per_hash.

Definition host_ok (host : Instance_) : Prop :=
  0 <= pps host
  /\ (if weighted then Float.weighted_points (weight host) total live = Ret (pps host) /\ pps host mod 4 = 0
      else pps host = MEMCACHED_POINTS_PER_SERVER)
  /\ forall q, (if spy then 0 else 1) <= q <= pps host -> size (sort_host spy host q) < sizeof_sort_host spy.

Definition host_ring (host : Instance_) (i : Z) (first : Z) (n : nat) : list memcached_continuum_item_st :=
  flat_map (fun q => map (mkItem i) (value_of (sort_host spy host q))) (seqZ first (Z.of_nat n)).

(** The ring of the live hosts, which are numbered from [i]. *)
Fixpoint ring_of (hosts : list Instance_) (i : Z) : list memcached_continuum_item_st :=
  match hosts with
  | [] => []
  | host :: hosts' =>
    (if is_live ejecting now host
     then host_ring host i (if spy then 0 else 1) (Z.to_nat (pps host) / per_hash) else [])
    ++ ring_of hosts' (i + 1)
  end.

Context (Hhash : hashes_ok).

Lemma length_host_ring host i first n :
  (forall q, first <= q < first + Z.of_nat n -> size (sort_host spy host q) < sizeof_sort_host spy) ->
  length (host_ring host i first n) = (per_hash * n)%nat.
Proof using Hhash.
  revert first. induction n as [|n IH]; intros first Hf; [by rewrite Nat.mul_0_r|].
  unfold host_ring. rewrite seqZ_cons by lia. cbn [flat_map].
  replace (Z.pred (Z.of_nat (S n))) with (Z.of_nat n) by lia.
  rewrite length_app, length_map. destruct (Hhash (sort_host spy host first)) as [_ ->]; [apply Hf; lia|].
  fold (host_ring host i (Z.succ first) n). rewrite IH by (intros; apply Hf; lia). rewrite Nat.mul_succ_r. lia.
Qed.

Lemma host_points_spec n host i p c ci :
  (forall q, p <= q < p + Z.of_nat n -> size (sort_host spy host q) < sizeof_sort_host spy) ->
  0 <= ci -> ci + Z.of_nat (per_hash * n) <= Z.of_nat (length c) ->
  exists c', host_points garbage client stack_addr stack_rest n hk weighted spy host i p c ci
      = Ret (true, c', ci + Z.of_nat (per_hash * n))
    /\ extended c ci (host_ring host i p n) c'.
Proof using Hhash.
  revert p c ci. induction n as [|n IH]; intros p c ci Hf Hc Hl.
  - exists c. cbn [host_points]. rewrite Nat.mul_0_r, Z.add_0_r. split; [done|apply extended_nil].
  - cbn [host_points]. rewrite (proj2 (Z.leb_gt _ _)) by (apply Hf; lia).
    destruct (Hhash (sort_host spy host p)) as [-> Hlen]; [apply Hf; lia|]. cbn [obind].
    rewrite Nat.mul_succ_r in *.
    destruct (put_points_spec c ci i (value_of (sort_host spy host p))) as (c1 & -> & He1); [lia|lia|].
    cbn [obind]. rewrite Hlen.
    destruct (IH (p + 1) c1 (ci + Z.of_nat per_hash)) as (c2 & -> & He2);
      [intros; apply Hf; lia|lia|destruct He1 as [-> _]; lia|].
    exists c2. split; [do 2 f_equal; lia|]. unfold host_ring. rewrite seqZ_cons by lia. cbn [flat_map].
    replace (Z.pred (Z.of_nat (S n))) with (Z.of_nat n) by lia.
    apply (extended_app c c1); [done|done|]. rewrite length_map, Hlen. exact He2.
Qed.

(** The hashes of a host are as many as its points. *)
Lemma host_count host : host_ok host ->
  Z.of_nat (per_hash * (Z.to_nat (pps host) / per_hash)) = pps host
  /\ Z.to_nat (pps host / (if weighted then 4 else 1)) = (Z.to_nat (pps host) / per_hash)%nat.
Proof using Type.
  intros (H0 & Hp & _). unfold per_hash. destruct weighted.
  - destruct Hp as [_ Hm]. rewrite Z2Nat.inj_div by lia. split; [|done].
    change (Z.to_nat 4) with 4%nat.
    rewrite Nat2Z.inj_mul, Nat2Z.inj_div, Z2Nat.id by lia. change (Z.of_nat 4) with 4.
    Z.to_euclidean_division_equations. lia.
  - rewrite Nat.div_1_r, Z.div_1_r. lia.
Qed.

Lemma host_names host q : host_ok host ->
  (if spy then 0 else 1) <= q < (if spy then 0 else 1) + Z.of_nat (Z.to_nat (pps host) / per_hash) ->
  size (sort_host spy host q) < sizeof_sort_host spy.
Proof using Type.
  intros Hok Hq. destruct (host_count host Hok) as [Hc _]. destruct Hok as (H0 & _ & Hf). apply Hf.
  assert (per_hash <> 0%nat) by (unfold per_hash; by destruct weighted).
  pose proof (Nat.mul_le_mono_r 1 per_hash (Z.to_nat (pps host) / per_hash) ltac:(lia)).
  destruct spy; lia.
Qed.

Lemma length_live_ring host i : host_ok host ->
  Z.of_nat (length (host_ring host i (if spy then 0 else 1) (Z.to_nat (pps host) / per_hash))) = pps host.
Proof using Hhash.
  intros Hok. rewrite length_host_ring by (intros q; by apply host_names). by apply host_count.
Qed.

Lemma hosts_loop_spec hosts i b :
  (forall host, host ∈ hosts -> is_live ejecting now host = true -> host_ok host) ->
  (weighted = false -> pointer_per_server b = MEMCACHED_POINTS_PER_SERVER) ->
  0 <= continuum_index b -> pointer_counter b = continuum_index b ->
  continuum_index b + Z.of_nat (length (ring_of hosts i)) <= Z.of_nat (length (points b)) < UINT_MOD ->
  exists b', hosts_loop garbage client stack_addr stack_rest hk weighted spy ejecting now live total hosts i b
      = Ret (true, b')
    /\ extended (points b) (continuum_index b) (ring_of hosts i) (points b')
    /\ pointer_counter b' = continuum_index b + Z.of_nat (length (ring_of hosts i)).
Proof using Hhash.
  revert i b. induction hosts as [|host hosts IH]; intros i b Hok Hpps Hc Hcnt Hl.
  { exists b. cbn [hosts_loop ring_of length] in *. rewrite Z.add_0_r.
    split_and!; [done|apply extended_nil|done]. }
  cbn [hosts_loop ring_of] in *. unfold host_step. destruct (is_live ejecting now host) eqn:El; cbn [negb].
  2: { cbn [app obind] in *. apply IH; [|done..]. intros h Hh. apply Hok. by right. }
  assert (Hh : host_ok host) by (apply Hok; [left|done]).
  set (hr := host_ring _ _ _ _) in *. pose proof (length_live_ring host i Hh) as Hlen. fold hr in Hlen.
  rewrite length_app in Hl. destruct (host_count host Hh) as [Hn Hn2].
  assert (E1 : (if weighted then Float.weighted_points (weight host) total live else Ret (pointer_per_server b))
    = Ret (pps host)).
  { destruct Hh as (_ & Hp & _). destruct weighted; [apply Hp|]. by rewrite Hpps, Hp. }
  rewrite E1. cbn [obind]. rewrite Hn2.
  destruct (host_points_spec (Z.to_nat (pps host) / per_hash) host i (if spy then 0 else 1) (points b) (continuum_index b))
    as (c1 & -> & He1); [intros q; by apply host_names|lia|lia|]. cbn [obind]. rewrite Hn in *.
  rewrite u32_small by lia.
  destruct (IH (i + 1) (mkBuild (pps host) c1 (continuum_index b + pps host) (pointer_counter b + pps host)))
    as (b' & -> & He & Hcnt'); cbn [pointer_per_server points continuum_index pointer_counter].
  - intros h Hin. apply Hok. by right.
  - intros Hw. destruct Hh as (_ & Hp & _). by rewrite Hw in Hp.
  - destruct Hh. lia.
  - lia.
  - destruct He1 as [-> _]. lia.
  - exists b'. split; [done|]. cbn [points continuum_index] in He, Hcnt'. split.
    + apply (extended_app _ c1); [done|exact He1|]. by rewrite Hlen.
    + rewrite length_app. lia.
Qed.

(** ** Too many points *)

Lemma put_points_overflow c ci i vs : 0 <= ci <= Z.of_nat (length c) ->
  Z.of_nat (length c) < ci + Z.of_nat (length vs) -> put_points c ci i vs = Stuck Undefined.
Proof using Type.
  revert c ci. induction vs as [|v vs IH]; intros c ci Hc Hl; cbn [put_points length] in *; [lia|].
  destruct (Z.ltb_spec ci (Z.of_nat (length c))); [|done]. apply IH; rewrite length_aset; lia.
Qed.

Lemma host_points_overflow n host i p c ci :
  (forall q, p <= q < p + Z.of_nat n -> size (sort_host spy host q) < sizeof_sort_host spy) ->
  0 <= ci <= Z.of_nat (length c) -> Z.of_nat (length c) < ci + Z.of_nat (per_hash * n) ->
  host_points garbage client stack_addr stack_rest n hk weighted spy host i p c ci = Stuck Undefined.
Proof using Hhash.
  revert p c ci. induction n as [|n IH]; intros p c ci Hf Hc Hl; [rewrite Nat.mul_0_r in Hl; lia|].
  cbn [host_points]. rewrite (proj2 (Z.leb_gt _ _)) by (apply Hf; lia).
  destruct (Hhash (sort_host spy host p)) as [-> Hlen]; [apply Hf; lia|]. cbn [obind].
  rewrite Nat.mul_succ_r in Hl.
  destruct (decide (ci + Z.of_nat per_hash <= Z.of_nat (length c))).
  - destruct (put_points_spec c ci i (value_of (sort_host spy host p))) as (c1 & -> & He1); [lia|lia|].
    cbn [obind]. rewrite Hlen. destruct He1 as [He1 _].
    apply IH; [intros; apply Hf; lia|rewrite He1; lia|rewrite He1; lia].
  - rewrite put_points_overflow by lia. done.
Qed.

Lemma hosts_loop_overflow hosts i b :
  (forall host, host ∈ hosts -> is_live ejecting now host = true -> host_ok host) ->
  (weighted = false -> pointer_per_server b = MEMCACHED_POINTS_PER_SERVER) ->
  0 <= continuum_index b <= Z.of_nat (length (points b)) ->
  Z.of_nat (length (points b)) < continuum_index b + Z.of_nat (length (ring_of hosts i)) ->
  hosts_loop garbage client stack_addr stack_rest hk weighted spy ejecting now live total hosts i b = Stuck Undefined.
Proof using Hhash.
  revert i b. induction hosts as [|host hosts IH]; intros i b Hok Hpps Hc Hl; [cbn in Hl; lia|].
  cbn [hosts_loop ring_of] in *. unfold host_step. destruct (is_live ejecting now host) eqn:El; cbn [negb].
  2: { cbn [app obind] in *. apply IH; [|done..]. intros h Hh. apply Hok. by right. }
  assert (Hh : host_ok host) by (apply Hok; [left|done]).
  pose proof (length_live_ring host i Hh) as Hlen. rewrite length_app in Hl.
  destruct (host_count host Hh) as [Hn Hn2].
  assert (E1 : (if weighted then Float.weighted_points (weight host) total live else Ret (pointer_per_server b))
    = Ret (pps host)).
  { destruct Hh as (_ & Hp & _). destruct weighted; [apply Hp|]. by rewrite Hpps, Hp. }
  rewrite E1. cbn [obind]. rewrite Hn2.
  assert (Hnames : forall q, (if spy then 0 else 1) <= q < (if spy then 0 else 1)
    + Z.of_nat (Z.to_nat (pps host) / per_hash) -> size (sort_host spy host q) < sizeof_sort_host spy)
    by (intros q; by apply host_names).
  destruct (decide (continuum_index b + pps host <= Z.of_nat (length (points b)))).
  - destruct (host_points_spec (Z.to_nat (pps host) / per_hash) host i (if spy then 0 else 1) (points b) (continuum_index b))
      as (c1 & -> & He1 & _); [done|lia|lia|]. cbn [obind]. rewrite Hn in *.
    rewrite IH; [done|intros h Hin; apply Hok; by right| |..]; cbn [pointer_per_server points continuum_index];
      [|destruct Hh; rewrite He1; lia..].
    intros Hw. destruct Hh as (_ & Hp & _). by rewrite Hw in Hp.
  - rewrite host_points_overflow by (done || lia). done.
Qed.
End Build.

(** ** [update_continuum] *)

Lemma length_resize junk c n : length (resize_items junk c n) = n.
Proof. unfold resize_items. rewrite length_app, length_take, length_map, length_seq. lia. Qed.

(** How many items the array has once it is large enough for the live servers. *)
Definition grown_length (ptr : Memcached) (live : Z) : Z :=
  let k := ketama ptr in
  if continuum_count k <? live
  then u32 ((live + MEMCACHED_CONTINUUM_ADDITION)
            * (if weighted_ k then MEMCACHED_POINTS_PER_SERVER_KETAMA else MEMCACHED_POINTS_PER_SERVER))
  else Z.of_nat (length (continuum k)).

Definition is_spy (ptr : Memcached) : bool :=
  bool_decide (distribution ptr = MEMCACHED_DISTRIBUTION_CONSISTENT_KETAMA_SPY).

Section Update.
Context `{DM : DataModel} `{HC : HashConfig} `{CF : ClientConfig} `{QS : Qsort}.
Context (garbage : list Z) (client : Z -> KeyPtr -> Z -> outcome Z).
Context (stack_addr : Z) (stack_rest : nat -> ascii) (junk : nat -> memcached_continuum_item_st).
Context (ptr : Memcached) (now : Z) (value_of : cstring -> list Z) (pps : Instance_ -> Z).

Let ejecting := auto_eject_hosts (flags ptr).
Let live := live_servers ejecting now (servers ptr).
Let weighted := weighted_ (ketama ptr).
Let total := if weighted then total_weight ejecting now (servers ptr) else 0.

Definition full_ring : list memcached_continuum_item_st :=
  ring_of weighted (is_spy ptr) ejecting now value_of pps (servers ptr) 0.

Lemma sorted_app_take (a b : list memcached_continuum_item_st) n : length a = n -> take n (a ++ b) = a.
Proof using Type. intros <-. by rewrite take_app_length. Qed.

Lemma length_grown :
  Z.of_nat (length (if continuum_count (ketama ptr) <? live
    then resize_items junk (continuum (ketama ptr)) (Z.to_nat (u32 ((live + MEMCACHED_CONTINUUM_ADDITION)
           * (if weighted then MEMCACHED_POINTS_PER_SERVER_KETAMA else MEMCACHED_POINTS_PER_SERVER))))
    else continuum (ketama ptr))) = grown_length ptr live.
Proof using Type.
  unfold grown_length. destruct (_ <? live); [|done]. rewrite length_resize.
  pose proof (u32_range ((live + MEMCACHED_CONTINUUM_ADDITION) *
    (if weighted then MEMCACHED_POINTS_PER_SERVER_KETAMA else MEMCACHED_POINTS_PER_SERVER))). fold weighted. lia.
Qed.

Lemma update_continuum_spec :
  hashes_ok garbage client stack_addr stack_rest (hashkit ptr) weighted (is_spy ptr) value_of ->
  (forall host, host ∈ servers ptr -> is_live ejecting now host = true ->
     host_ok weighted (is_spy ptr) live total pps host) ->
  0 < live -> memcached_server_count ptr <= 100 ->
  0 < Z.of_nat (length full_ring) <= grown_length ptr live -> grown_length ptr live < UINT_MOD ->
  exists ptr', update_continuum garbage client stack_addr stack_rest (Some now) true junk ptr
      = Ret (MEMCACHED_SUCCESS, ptr')
    /\ ring ptr' ≡ₚ full_ring /\ ring_ok ptr' /\ ptr' = with_ketama ptr (ketama ptr')
    /\ weighted_ (ketama ptr') = weighted
    /\ Z.of_nat (length (continuum (ketama ptr'))) = grown_length ptr live
    /\ continuum_count (ketama ptr')
       = if continuum_count (ketama ptr) <? live then u32 (live + MEMCACHED_CONTINUUM_ADDITION)
         else continuum_count (ketama ptr).
Proof using Type.
  intros Hh Hok Hlive Hcnt Hfit Hlen. unfold update_continuum. cbv zeta. fold ejecting live weighted total.
  rewrite (proj2 (Z.eqb_neq live 0)) by lia. cbn [negb]. rewrite andb_false_r.
  set (c := if _ <? live then resize_items _ _ _ else _).
  assert (Hc : Z.of_nat (length c) = grown_length ptr live) by apply length_grown.
  assert (Ha : assert_msg (negb (Nat.eqb (length c) 0)) = Ret tt).
  { unfold assert_msg. destruct (Nat.eqb_spec (length c) 0); [lia|]. by rewrite orb_true_r. }
  rewrite Ha. cbn [obind]. fold (is_spy ptr).
  destruct (hosts_loop_spec garbage client stack_addr stack_rest (hashkit ptr) weighted (is_spy ptr) ejecting now
    live total value_of pps Hh (servers ptr) 0 (mkBuild MEMCACHED_POINTS_PER_SERVER c 0 0))
    as (b & -> & He & Hn); [done|done|done|done|cbn; fold full_ring; lia|]. cbn [obind negb].
  fold full_ring in He, Hn. cbn [points continuum_index] in He, Hn. rewrite Z.add_0_l in Hn.
  unfold memcached_server_count in *.
  assert (Ha2 : assert_msg (u32 (Z.of_nat (length (servers ptr)) * MEMCACHED_POINTS_PER_SERVER) <=? MEMCACHED_CONTINUUM_SIZE) = Ret tt).
  { unfold assert_msg, MEMCACHED_CONTINUUM_SIZE, MEMCACHED_POINTS_PER_SERVER.
    rewrite u32_small by (unfold UINT_MOD; lia). rewrite (proj2 (Z.leb_le _ _)) by lia. by rewrite orb_true_r. }
  rewrite Ha2. cbn [obind]. rewrite Hn, Nat2Z.id.
  destruct He as [Hl He]. rewrite Z.add_0_l, Nat2Z.id in He. change (take (Z.to_nat 0) c ++ full_ring) with full_ring in He.
  rewrite (proj2 (Nat.ltb_ge _ _)) by lia. rewrite He.
  eexists. split; [reflexivity|].
  assert (Hq : length (qsort full_ring) = length full_ring) by (apply Permutation_length, qsort_perm).
  unfold ring, ring_ok. cbn [ketama with_ketama continuum continuum_points_counter]. rewrite Nat2Z.id.
  rewrite sorted_app_take by done. split_and!; try done.
  - apply qsort_perm.
  - lia.
  - rewrite length_app, length_drop. lia.
  - unfold ring. cbn. rewrite Nat2Z.id, sorted_app_take by done. apply qsort_sorted.
  - rewrite length_app, length_drop. lia.
Qed.

(** When the points do not fit the array, one is stored outside. *)
Lemma update_continuum_overflow :
  hashes_ok garbage client stack_addr stack_rest (hashkit ptr) weighted (is_spy ptr) value_of ->
  (forall host, host ∈ servers ptr -> is_live ejecting now host = true ->
     host_ok weighted (is_spy ptr) live total pps host) ->
  0 < live -> 0 < grown_length ptr live < Z.of_nat (length full_ring) ->
  update_continuum garbage client stack_addr stack_rest (Some now) true junk ptr = Stuck Undefined.
Proof using Type.
  intros Hh Hok Hlive Hfit. unfold update_continuum. cbv zeta. fold ejecting live weighted total.
  rewrite (proj2 (Z.eqb_neq live 0)) by lia. cbn [negb]. rewrite andb_false_r.
  set (c := if _ <? live then resize_items _ _ _ else _).
  assert (Hc : Z.of_nat (length c) = grown_length ptr live) by apply length_grown.
  assert (Ha : assert_msg (negb (Nat.eqb (length c) 0)) = Ret tt).
  { unfold assert_msg. destruct (Nat.eqb_spec (length c) 0); [lia|]. by rewrite orb_true_r. }
  rewrite Ha. cbn [obind]. fold (is_spy ptr).
  rewrite (hosts_loop_overflow garbage client stack_addr stack_rest (hashkit ptr) weighted (is_spy ptr) ejecting now
    live total value_of pps Hh (servers ptr) 0 (mkBuild MEMCACHED_POINTS_PER_SERVER c 0 0)); try done; cbn [points continuum_index].
  - lia.
  - fold full_ring. lia.
Qed.
End Update.

(** ** Names fit *)

Definition host_valid (host : Instance_) : Prop :=
  memcached_is_valid_servername (_hostname host) = true /\ 0 <= port_ host < 65536.

Lemma sort_host_fits (spy : bool) host q : host_valid host -> (if spy then 0 else 1) <= q < UINT_MOD ->
  size (sort_host spy host q) < sizeof_sort_host spy.
Proof.
  intros [Hn Hp] Hq. unfold memcached_is_valid_servername, MEMCACHED_NI_MAXHOST in Hn. unfold UINT_MOD in Hq.
  assert (Hps : size (to_string (port_ host)) <= Z.of_nat 5) by (apply to_string_size; cbn; lia).
  assert (Hq0 : forall n, 0 <= n < 4294967296 -> size (to_string n) <= Z.of_nat 10)
    by (intros n Hn'; apply to_string_size; cbn; lia).
  unfold sizeof_sort_host, sort_host, MEMCACHED_NI_MAXHOST, MEMCACHED_NI_MAXSERV.
  destruct spy; [|destruct (_ =? _)]; rewrite !size_app;
    repeat match goal with |- context [size (lit ?s)] => change (size (lit s)) with 1 end.
  - specialize (Hq0 q). lia.
  - specialize (Hq0 (q - 1)). lia.
  - specialize (Hq0 (q - 1)). lia.
Qed.

Lemma host_valid_ok spy live total host : host_valid host ->
  host_ok false spy live total (fun _ => MEMCACHED_POINTS_PER_SERVER) host.
Proof.
  intros Hv. unfold host_ok, MEMCACHED_POINTS_PER_SERVER. split_and!; [done..|]. intros q Hq.
  apply sort_host_fits; [done|]. unfold UINT_MOD. lia.
Qed.

(** ** Rings of servers of which one drops out *)

Section Rings.
Context (spy : bool) (value_of : cstring -> list Z) (pps : Instance_ -> Z) (weighted : bool).

Lemma host_ring_index host i first n p : p ∈ host_ring spy value_of host i first n -> index p = i.
Proof using Type.
  unfold host_ring. rewrite list_elem_of_In, in_flat_map. intros (q & _ & Hp).
  apply in_map_iff in Hp as (v & <- & _). done.
Qed.

(** A point of the ring is a point of the live host it names. *)
Lemma ring_of_elem ejecting now hosts i p :
  p ∈ ring_of weighted spy ejecting now value_of pps hosts i <->
  exists (j : nat) host, hosts !! j = Some host /\ is_live ejecting now host = true /\ index p = i + Z.of_nat j
    /\ p ∈ host_ring spy value_of host (i + Z.of_nat j) (if spy then 0 else 1) (Z.to_nat (pps host) / per_hash weighted).
Proof using Type.
  revert i. induction hosts as [|host hosts IH]; intros i; cbn [ring_of].
  - rewrite elem_of_nil. split; [done|]. intros (j & h & Hj & _). done.
  - rewrite elem_of_app, IH. split.
    + intros [Hp|(j & h & Hj & Hl & Hi & Hp)].
      * destruct (is_live ejecting now host) eqn:El; [|by rewrite elem_of_nil in Hp].
        exists 0%nat, host. rewrite Z.add_0_r. split_and!; try done. by eapply host_ring_index.
      * exists (S j), h. replace (i + Z.of_nat (S j)) with (i + 1 + Z.of_nat j) by lia. done.
    + intros ([|j] & h & Hj & Hl & Hi & Hp).
      * left. injection Hj as <-. rewrite Hl. by rewrite Z.add_0_r in Hp.
      * right. exists j, h. replace (i + 1 + Z.of_nat j) with (i + Z.of_nat (S j)) by lia. done.
Qed.

(** Dropping one host keeps the points of the others. *)
Lemma ring_of_dropped ejecting now hosts d host' p :
  is_live ejecting now host' = false ->
  p ∈ ring_of weighted spy ejecting now value_of pps (<[d := host']> hosts) 0 <->
  p ∈ ring_of weighted spy ejecting now value_of pps hosts 0 /\ index p <> Z.of_nat d.
Proof using Type.
  intros Hdead. rewrite !ring_of_elem. split.
  - intros (j & h & Hj & Hl & Hi & Hp). destruct (decide (j = d)) as [->|Hne].
    + apply list_lookup_insert_Some in Hj as [(_ & <- & _)|[? _]]; [congruence|done].
    + rewrite list_lookup_insert_ne in Hj by done. split; [by exists j, h|lia].
  - intros ((j & h & Hj & Hl & Hi & Hp) & Hne). exists j, h.
    rewrite list_lookup_insert_ne by lia. done.
Qed.

(** Every live host with points is on the ring. *)
Lemma ring_of_live ejecting now hosts d host p i :
  p ∈ ring_of weighted spy ejecting now value_of pps hosts i -> index p = i + Z.of_nat d ->
  hosts !! d = Some host -> is_live ejecting now host = true.
Proof using Type.
  rewrite ring_of_elem. intros (j & h & Hj & Hl & Hi & _) Hd Hh.
  assert (j = d) as -> by lia. congruence.
Qed.
End Rings.
