(* ===== verification/TheoremsHash.v ===== *)
(** * Theorems about libhashkit

    The claims about the hash functions the client library offers: two of them against
    their references, the alignment of the Jenkins hash, and the configured object. *)

From stdpp Require Import base list strings.
From Stdlib Require Import ZArith Lia Ascii.
From S2P Require Import Prelude CxxString HashWords HashMd5.
From S2P Require Import HashSmall HashKit.

(** C28. [hashkit_jenkins] returns the same word whether it reads the key in words, in
    halves or byte by byte, and whatever follows the key in memory: it is the hash of the
    blocks of twelve characters with the last one padded by zeroes. *)
Theorem jenkins_any_alignment (k : KeyPtr) :
  Jenkins.hashkit_jenkins k = Some (Jenkins.jenkins_spec (key_bytes k)) /\
  word32 (Jenkins.jenkins_spec (key_bytes k)).
Proof. split; [apply Jenkins.hashkit_jenkins_correct|apply Jenkins.jenkins_spec_word]. Qed.

(** C29. The MD5 of md5.cc is that of RFC 1321 for every key that is shorter than
    2^32 - 64 bytes, whatever the uninitialised buffer of the context held: the steps are
    those of the standard, partial blocks are buffered, and the padding carries the length
    in bits. [hashkit_md5] is the first word of the digest. *)
Theorem md5_is_rfc1321 (garbage : list Z) (key : cstring) :
  List.length garbage = 64%nat -> size key < UINT_MOD - 64 ->
  Md5.md5_signature garbage (map uchar key) (size key) = Ret (Md5.md5_spec (map uchar key)) /\
  Md5.hashkit_md5 garbage key = Ret (Md5.word_of (Md5.md5_spec (map uchar key)) 0).
Proof.
  intros Hg Hl. destruct (hashkit_md5_ok garbage key Hg Hl) as (v & E & _ & ->). split; [|done].
  assert (El : size key = len (map uchar key)) by (unfold size, len; by rewrite length_map).
  rewrite El in *. apply md5_signature_ok; [done| |done].
  apply List.Forall_map, List.Forall_forall. intros c _. apply uchar_byte.
Qed.

Lemma md5_is_rfc1321_witness :
  List.length stack_garbage = 64%nat /\
  Md5.hashkit_md5 stack_garbage (lit "abc") = Ret (Md5.word_of (Md5.md5_spec (map uchar (lit "abc"))) 0).
Proof.
  split; [reflexivity|]. apply (md5_is_rfc1321 stack_garbage (lit "abc")); vm_compute; reflexivity.
Defined.

(** C30. The table-driven loop of crc32.cc is the bitwise division of CRC-32, also for
    characters above 127, whose sign the mask removes; the result has fifteen bits. *)
Theorem crc32_is_division (key : cstring) :
  Crc32.hashkit_crc32 key = Crc32.crc32_spec key /\ 0 <= Crc32.hashkit_crc32 key < 32768.
Proof.
  split; [apply Crc32Spec.hashkit_crc32_correct|apply Crc32Spec.hashkit_crc32_range].
Qed.

Lemma set_function_library `{DM : DataModel} `{HC : HashConfig} h algo h' a :
  hashkit_set_function h algo = (HASHKIT_SUCCESS, h') ->
  function (base_hash h') <> client_function a.
Proof.
  unfold hashkit_set_function. destruct algo; simpl; repeat case_match; naive_solver.
Qed.

Section Front.
Context `{DM : DataModel} `{HC : HashConfig}.
Context (garbage : list Z) (client : Z -> KeyPtr -> Z -> outcome Z).

(** What the object does after the function of an algorithm was set. *)
Definition behaves_as (h : hashkit_st) (algo : hashkit_hash_algorithm_t) : Prop :=
  hashkit_get_function (Some h) = algo /\
  forall k, hashkit_digest garbage client h k = libhashkit_digest garbage client k algo.

(** Every function of the library returns a 32-bit word. *)
Lemma call_word f k ctx :
  List.length garbage = 64%nat -> size (key_bytes k) < 2147483648 ->
  (forall a, f <> client_function a) ->
  exists v, call garbage client f k ctx = Ret v /\ word32 v.
Proof.
  intros Hg Hk Hf. destruct f; cbn [call]; try (eexists; split; [reflexivity|]).
  - apply one_at_a_time_word.
  - destruct (hashkit_md5_ok garbage (key_bytes k) Hg) as (v & E & Hv & _); [unfold UINT_MOD; lia|].
    by exists v.
  - pose proof (Crc32Spec.hashkit_crc32_range (key_bytes k)). unfold word32, UINT_MOD. lia.
  - apply FnvSpec.fnv1_64_word.
  - apply FnvSpec.fnv1a_64_word.
  - apply FnvSpec.fnv1_32_word.
  - apply FnvSpec.fnv1a_32_word.
  - apply hsieh_word.
  - apply murmur_word.
  - by apply murmur3_word.
  - unfold jenkins_outcome. rewrite Jenkins.hashkit_jenkins_correct.
    eexists. split; [done|]. apply Jenkins.jenkins_spec_word.
  - by destruct (Hf address).
Qed.

(** Setting the function succeeds exactly for the algorithms the build has (a client's
    function has its own call), changes nothing but the function, and makes the object
    hash as the direct call does. MURMUR3 is the exception: the object gets MURMUR. *)
Lemma set_function_spec h algo rc h' :
  hashkit_set_function h algo = (rc, h') ->
  (rc = HASHKIT_SUCCESS <->
     libhashkit_has_algorithm algo = true /\ algo <> HASHKIT_HASH_CUSTOM) /\
  (rc = HASHKIT_SUCCESS ->
     behaves_as h' (if decide (algo = HASHKIT_HASH_MURMUR3) then HASHKIT_HASH_MURMUR else algo)) /\
  (rc = HASHKIT_INVALID_ARGUMENT -> h' = h) /\
  distribution_hash h' = distribution_hash h /\
  is_base_same_distributed h' = is_base_same_distributed h.
Proof.
  unfold hashkit_set_function, behaves_as. intros E.
  destruct h as [b d f], algo; simpl in E;
    try (destruct (Fnv.fnv64_enabled) eqn:?);
    try (destruct (HAVE_HSIEH_HASH) eqn:?);
    try (destruct (HAVE_MURMUR_HASH) eqn:?);
    injection E as <- <-; split_and!; try done; try (simpl; naive_solver congruence);
    intros _; split; try done; intros k; simpl; by repeat case_match.
Qed.
End Front.

(** [hashkit_set_function] succeeds exactly for the algorithms the build has, and then
    [hashkit_get_function] returns the algorithm and [hashkit_digest] agrees with
    [libhashkit_digest] on every key and returns a 32-bit word for every key shorter than
    2^31; with an error the object is as before. For MURMUR3 the object takes the function
    of MURMUR instead. *)
Lemma set_function_round_trip `{DM : DataModel} `{HC : HashConfig} garbage client h algo rc h' :
  hashkit_set_function h algo = (rc, h') ->
  (rc = HASHKIT_SUCCESS <->
     libhashkit_has_algorithm algo = true /\ algo <> HASHKIT_HASH_CUSTOM) /\
  (rc = HASHKIT_SUCCESS -> behaves_as garbage client h'
     (if decide (algo = HASHKIT_HASH_MURMUR3) then HASHKIT_HASH_MURMUR else algo)) /\
  (rc = HASHKIT_SUCCESS -> List.length garbage = 64%nat ->
     forall k, size (key_bytes k) < 2147483648 ->
     exists v, hashkit_digest garbage client h' k = Ret v /\ word32 v) /\
  (rc = HASHKIT_INVALID_ARGUMENT -> h' = h) /\
  distribution_hash h' = distribution_hash h.
Proof.
  intros E. destruct (set_function_spec garbage client _ _ _ _ E) as (? & ? & ? & ? & _).
  split_and!; try done. intros -> Hg k Hk. apply call_word; [done..|].
  intros a. by apply (set_function_library h algo).
Qed.

Lemma set_function_round_trip_witness :
  let '(rc, h) := hashkit_set_function (DM := LP64) (HC := all_hashes) (_hashkit_init true) HASHKIT_HASH_MD5 in
  rc = HASHKIT_SUCCESS /\
  behaves_as (DM := LP64) (HC := all_hashes) stack_garbage no_client h HASHKIT_HASH_MD5.
Proof.
  split; [reflexivity|].
  by apply (set_function_round_trip (DM := LP64) (HC := all_hashes) stack_garbage no_client
    (_hashkit_init true) HASHKIT_HASH_MD5 HASHKIT_SUCCESS _ eq_refl).
Defined.
