(* ===== verification/TheoremsDist.v ===== *)
(** * Distribution of keys, for a client without weights

    With a hash function of the library every name of a point has a hash, the array is large
    enough, and [update_continuum] builds the ring. *)

From stdpp Require Import base list numbers sorting.
From Stdlib Require Import ZArith Lia Ascii Sorted.
From S2P Require Import Prelude CxxString HashWords HashMd5 HashSmall HashKit ClientTypes Continuum Distribution ContinuumSpec.
From S2P Require Import TheoremsHash.

(** The array has room for the servers it was made for. *)
Definition capacity_ok (ptr : Memcached) : Prop :=
  let k := ketama ptr in
  0 <= continuum_count k
  /\ continuum_count k * MEMCACHED_POINTS_PER_SERVER <= Z.of_nat (length (continuum k)) < UINT_MOD.

(** The hash function is one of the library, not a client's. *)
Definition library_hash (h : hashkit_st) : Prop := forall a, function (base_hash h) <> client_function a.

Record plain_client (ptr : Memcached) : Prop := {
  plain_consistent : memcached_is_consistent_distribution ptr = true;
  plain_unweighted : weighted_ (ketama ptr) = false;
  plain_capacity : capacity_ok ptr;
  plain_hash : library_hash (hashkit ptr);
  plain_hosts : Forall host_valid (servers ptr);
  plain_count : memcached_server_count ptr <= 100;
}.

Section Plain.
Context `{DM : DataModel} `{HC : HashConfig} `{CF : ClientConfig} `{QS : Qsort}.
Context (garbage : list Z) (client : Z -> KeyPtr -> Z -> outcome Z).
Context (stack_addr : Z) (stack_rest : nat -> ascii) (junk : nat -> memcached_continuum_item_st).
Context (Hgarbage : length garbage = 64%nat).

(** The hash of a name. *)
Definition hash_of (hk : hashkit_st) (name : cstring) : list Z :=
  match hashkit_digest garbage client hk (local_key stack_addr stack_rest name) with Ret v => [v] | _ => [0] end.

Lemma library_hashes_ok hk spy : library_hash hk ->
  hashes_ok garbage client stack_addr stack_rest hk false spy (hash_of hk).
Proof using Hgarbage.
  intros Hl name Hn. unfold point_values, hash_of, hashkit_digest.
  destruct (call_word garbage client (function (base_hash hk)) (local_key stack_addr stack_rest name)
    (context (base_hash hk)) Hgarbage) as (v & -> & _); [|done|done].
  cbn. unfold sizeof_sort_host, MEMCACHED_NI_MAXHOST, MEMCACHED_NI_MAXSERV in Hn. destruct spy; lia.
Qed.

Lemma length_plain_ring hk spy ejecting now hosts i : library_hash hk -> Forall host_valid hosts ->
  Z.of_nat (length (ring_of false spy ejecting now (hash_of hk) (fun _ => MEMCACHED_POINTS_PER_SERVER) hosts i))
  = MEMCACHED_POINTS_PER_SERVER * live_servers ejecting now hosts.
Proof using Hgarbage.
  intros Hl Hv. revert i. induction Hv as [|host hosts Hh Hv IH]; intros i; [done|].
  cbn [ring_of]. unfold live_servers in *. cbn [List.filter]. rewrite length_app, Nat2Z.inj_add, IH.
  destruct (is_live ejecting now host) eqn:El; cbn [length]; [|lia].
  rewrite (length_live_ring garbage client stack_addr stack_rest hk false spy 0 0 (hash_of hk)
    (fun _ => MEMCACHED_POINTS_PER_SERVER) (library_hashes_ok hk spy Hl) host i).
  - unfold MEMCACHED_POINTS_PER_SERVER. lia.
  - by apply host_valid_ok.
Qed.

(** The four words of the MD5 of a name. *)
Definition ketama_values (name : cstring) : list Z :=
  map (fun a => match ketama_server_hash garbage name a with Ret v => v | _ => 0 end) [0; 1; 2; 3].

Lemma ketama_server_hash_returns name a : size name < UINT_MOD - 64 ->
  exists v, ketama_server_hash garbage name a = Ret v.
Proof using Hgarbage.
  intros Hn. unfold ketama_server_hash.
  assert (El : len (map uchar name) = u32 (size name)).
  { unfold len, size. rewrite length_map, u32_small; [done|]. unfold size in Hn. lia. }
  rewrite <- El, md5_signature_ok; [by eexists|done| |rewrite El; pose proof (size_nonneg name); rewrite u32_small; lia].
  apply List.Forall_map, List.Forall_forall. intros c _. apply uchar_byte.
Qed.

Lemma ketama_hashes_ok hk spy :
  hashes_ok garbage client stack_addr stack_rest hk true spy ketama_values.
Proof using Hgarbage.
  intros name Hn. assert (Hs : size name < UINT_MOD - 64).
  { unfold sizeof_sort_host, MEMCACHED_NI_MAXHOST, MEMCACHED_NI_MAXSERV, UINT_MOD in *. destruct spy; lia. }
  unfold point_values, ketama_values. cbn [map].
  destruct (ketama_server_hash_returns name 0 Hs) as [v0 ->], (ketama_server_hash_returns name 1 Hs) as [v1 ->].
  destruct (ketama_server_hash_returns name 2 Hs) as [v2 ->], (ketama_server_hash_returns name 3 Hs) as [v3 ->].
  done.
Qed.

(** Without an array the first point is stored nowhere. *)
Lemma no_array_stuck hk spy ejecting now live total host hosts : library_hash hk -> host_valid host ->
  is_live ejecting now host = true ->
  hosts_loop garbage client stack_addr stack_rest hk false spy ejecting now live total (host :: hosts) 0
    (mkBuild MEMCACHED_POINTS_PER_SERVER [] 0 0) = Stuck Undefined.
Proof using Hgarbage.
  intros Hl Hv El. cbn [hosts_loop]. unfold host_step. rewrite El. cbn [negb obind pointer_per_server points continuum_index].
  change (Z.to_nat (MEMCACHED_POINTS_PER_SERVER / 1)) with (S 99). cbn [host_points].
  assert (Hfit : size (sort_host spy host (if spy then 0 else 1)) < sizeof_sort_host spy)
    by (apply sort_host_fits; [done|unfold UINT_MOD; destruct spy; lia]).
  rewrite (proj2 (Z.leb_gt _ _)) by done.
  destruct (library_hashes_ok hk spy Hl _ Hfit) as [-> Hlen]. cbn [obind].
  destruct (hash_of hk _) as [|v vs]; [discriminate Hlen|]. reflexivity.
Qed.

Section Client.
Context (ptr : Memcached) (now : Z) (Hplain : plain_client ptr).

Definition plain_ring : list memcached_continuum_item_st :=
  ring_of false (is_spy ptr) (auto_eject_hosts (flags ptr)) now (hash_of (hashkit ptr))
    (fun _ => MEMCACHED_POINTS_PER_SERVER) (servers ptr) 0.

Lemma live_le_count : live_servers (auto_eject_hosts (flags ptr)) now (servers ptr) <= memcached_server_count ptr.
Proof using Type.
  unfold live_servers, memcached_server_count. apply inj_le, filter_length_le.
Qed.

Lemma plain_update : 0 < live_servers (auto_eject_hosts (flags ptr)) now (servers ptr) ->
  exists ptr', update_continuum garbage client stack_addr stack_rest (Some now) true junk ptr
      = Ret (MEMCACHED_SUCCESS, ptr')
    /\ ring ptr' ≡ₚ plain_ring /\ ring_ok ptr' /\ ptr' = with_ketama ptr (ketama ptr') /\ plain_client ptr'.
Proof using Hgarbage Hplain.
  destruct Hplain as [Hc Hw Hcap Hh Hv Hn]. intros Hlive. pose proof live_le_count as Hle.
  pose proof (update_continuum_spec garbage client stack_addr stack_rest junk ptr now (hash_of (hashkit ptr))
    (fun _ => MEMCACHED_POINTS_PER_SERVER)) as H. unfold full_ring, plain_ring in *. rewrite Hw in H.
  pose proof (length_plain_ring (hashkit ptr) (is_spy ptr) (auto_eject_hosts (flags ptr)) now (servers ptr) 0 Hh Hv) as Hlen.
  assert (Hgl : grown_length ptr (live_servers (auto_eject_hosts (flags ptr)) now (servers ptr))
    >= MEMCACHED_POINTS_PER_SERVER * live_servers (auto_eject_hosts (flags ptr)) now (servers ptr)
    /\ grown_length ptr (live_servers (auto_eject_hosts (flags ptr)) now (servers ptr)) < UINT_MOD).
  { destruct Hcap as [H0 Hcap]. unfold grown_length, MEMCACHED_POINTS_PER_SERVER, MEMCACHED_CONTINUUM_ADDITION in *.
    rewrite Hw. destruct (Z.ltb_spec (continuum_count (ketama ptr))
      (live_servers (auto_eject_hosts (flags ptr)) now (servers ptr))); [|lia].
    rewrite u32_small by (unfold UINT_MOD; lia). unfold UINT_MOD. lia. }
  destruct H as (ptr' & E & Hr & Hok & Ep & Hw' & Hl' & Hc'); [by apply library_hashes_ok| |done|done| |lia|].
  { intros host Hin _. apply host_valid_ok. rewrite Forall_forall in Hv. by apply Hv. }
  { rewrite Hlen. unfold MEMCACHED_POINTS_PER_SERVER in *. lia. }
  exists ptr'. split_and!; [done..|]. split; try (by rewrite Ep); try done.
  destruct Hcap as [H0 Hcap]. unfold capacity_ok. rewrite Hl', Hc'. split; [|split; [|lia]].
  - destruct (_ <? _); [|done]. apply u32_range.
  - unfold grown_length, MEMCACHED_POINTS_PER_SERVER, MEMCACHED_CONTINUUM_ADDITION in *. rewrite Hw.
    destruct (_ <? _); [|lia]. rewrite !u32_small by (unfold UINT_MOD; lia). lia.
Qed.

End Client.
End Plain.

(** * Properties of the distribution of keys

    hash.cc and hosts.cc: the server of a key on the continuum, the servers that drop out,
    and the array that the points are stored in. *)

From Stdlib Require Import String.
From S2P Require Import Prelude CxxString HashWords HashKit ClientTypes Continuum Distribution.

(** ** Instances for the witnesses *)

#[local] Instance value_le_dec : RelDecision value_le.
Proof. intros a b. unfold value_le. apply _. Defined.
#[local] Instance value_le_total : Total value_le.
Proof. intros a b. unfold value_le. lia. Qed.
#[local] Instance value_le_trans : Transitive value_le.
Proof. intros a b c. unfold value_le. lia. Qed.

Definition merge_items : Qsort := {|
  qsort := merge_sort value_le;
  qsort_perm := merge_sort_Permutation value_le;
  qsort_sorted := StronglySorted_merge_sort value_le;
|}.

Definition host_le (a b : Instance_) : Prop := compare_servers a b <= 0.
#[local] Instance host_le_dec : RelDecision host_le.
Proof. intros a b. unfold host_le. apply _. Defined.
Definition merge_hosts : SortHosts :=
  {| sort_servers := merge_sort host_le; sort_servers_perm := merge_sort_Permutation host_le |}.

(** Clients on the continuum. *)
Definition server (name : cstring) : Instance_ := mkInstance name 11211 1 0.
Definition three_points : Memcached :=
  with_ketama (with_distribution _memcached_init MEMCACHED_DISTRIBUTION_CONSISTENT)
    (mkKetama false 1 3 0 [mkItem 1 10; mkItem 0 20; mkItem 2 30]).
Definition two_servers : Memcached :=
  with_servers (with_distribution _memcached_init MEMCACHED_DISTRIBUTION_CONSISTENT)
    [server (lit "alpha"); server (lit "beta")].

(** C34. The binary search of [dispatch_host] ends, stays inside the array and returns the
    server that owns the hash on the ring: the one of the first point at or after the hash,
    or of the first point of all when every point is below it. *)
Theorem dispatch_finds_owner random_value ptr hash :
  memcached_is_consistent_distribution ptr = true -> ring_ok ptr ->
  exists p, dispatch_host random_value ptr hash = Ret (index p) /\ owner hash (ring ptr) p.
Proof. apply dispatch_owner. Qed.

Lemma dispatch_finds_owner_witness :
  (exists p, dispatch_host 0 three_points 11 = Ret (index p) /\ owner 11 (ring three_points) p)
  /\ dispatch_host 0 three_points 31 = Ret 1.
Proof.
  split; [|reflexivity]. apply dispatch_finds_owner; [reflexivity|].
  split; [cbn; lia|]. cbn. unfold ring. cbn.
  repeat constructor; unfold value_le; cbn; lia.
Defined.

Section Theorems.
Context `{DM : DataModel} `{HC : HashConfig} `{CF : ClientConfig} `{QS : Qsort} `{SH : SortHosts}.
Context (garbage : list Z) (client : Z -> KeyPtr -> Z -> outcome Z).
Context (stack_addr : Z) (stack_rest : nat -> ascii) (junk : nat -> memcached_continuum_item_st).

Lemma live_servers_perm ejecting now l l' : l ≡ₚ l' -> live_servers ejecting now l = live_servers ejecting now l'.
Proof using Type.
  intros Hp. unfold live_servers. f_equal. induction Hp; cbn [List.filter]; try congruence.
  - destruct (is_live _ _ _); cbn; congruence.
  - repeat destruct (is_live _ _ _); done.
Qed.

Lemma plain_sorted ptr : plain_client ptr -> plain_client (sort_hosts ptr).
Proof using Type.
  intros [Hc Hw Hcap Hh Hv Hn]. unfold sort_hosts. destruct (_ =? 0); [done|].
  pose proof (sort_servers_perm (servers ptr)) as Hp.
  split; try done; cbn.
  - eapply Forall_Permutation; [done| |done]. symmetry. done.
  - unfold memcached_server_count in *. cbn. by rewrite Hp.
Qed.

(** A consistent distribution is a run of [update_continuum]. *)
Lemma run_consistent clock granted ptr :
  memcached_is_consistent_distribution ptr = true ->
  run_distribution garbage client stack_addr stack_rest clock granted junk ptr
  = update_continuum garbage client stack_addr stack_rest clock granted junk
      (if use_sort_hosts (flags ptr) then sort_hosts ptr else ptr).
Proof using Type.
  intros Hc. unfold run_distribution, rebuild_distribution.
  replace (distribution (if use_sort_hosts (flags ptr) then sort_hosts ptr else ptr)) with (distribution ptr).
  - unfold memcached_is_consistent_distribution in Hc. by destruct (distribution ptr).
  - destruct (use_sort_hosts (flags ptr)); [|done]. unfold sort_hosts. by destruct (memcached_server_count ptr =? 0).
Qed.

(** What a point of the ring says about the servers. *)
Lemma plain_ring_live ptr now p : p ∈ plain_ring garbage client stack_addr stack_rest ptr now ->
  exists host, 0 <= index p /\ servers ptr !! Z.to_nat (index p) = Some host
    /\ is_live (auto_eject_hosts (flags ptr)) now host = true.
Proof using Type.
  unfold plain_ring. rewrite ring_of_elem. intros (j & host & Hj & Hl & Hi & _). exists host.
  rewrite Hi, Z.add_0_l, Nat2Z.id. split_and!; [lia|done..].
Qed.
End Theorems.

(** C35. For a client without weights and with a hash function of the library, up to 100
    servers with valid names, one of them live: [run_distribution] succeeds inside its
    array, keeps the client in that condition, and then every hash is dispatched to a live
    server of the list. *)
Theorem every_key_has_a_live_server `{DM : DataModel} `{HC : HashConfig} `{CF : ClientConfig}
    `{QS : Qsort} `{SH : SortHosts} garbage client stack_addr stack_rest junk ptr now :
  List.length garbage = 64%nat -> plain_client ptr ->
  0 < live_servers (auto_eject_hosts (flags ptr)) now (servers ptr) ->
  exists ptr',
    run_distribution garbage client stack_addr stack_rest (Some now) true junk ptr = Ret (MEMCACHED_SUCCESS, ptr')
    /\ plain_client ptr' /\ servers ptr' ≡ₚ servers ptr
    /\ forall random_value hash, exists s host, dispatch_host random_value ptr' hash = Ret s /\ 0 <= s
         /\ servers ptr' !! Z.to_nat s = Some host
         /\ is_live (auto_eject_hosts (flags ptr')) now host = true.
Proof.
  intros Hg Hp Hlive. rewrite run_consistent by apply Hp.
  set (p0 := if use_sort_hosts (flags ptr) then sort_hosts ptr else ptr).
  assert (H0 : plain_client p0 /\ flags p0 = flags ptr /\ servers p0 ≡ₚ servers ptr).
  { unfold p0. destruct (use_sort_hosts _); [|done]. split; [by apply plain_sorted|].
    unfold sort_hosts. destruct (_ =? 0); [done|]. split; [done|]. apply sort_servers_perm. }
  destruct H0 as (Hp0 & Hf & Hperm).
  destruct (plain_update garbage client stack_addr stack_rest junk Hg p0 now Hp0)
    as (ptr' & E & Hring & Hok & Ep & Hplain'); [by rewrite Hf, (live_servers_perm _ _ _ _ Hperm)|].
  exists ptr'. split_and!; [done|done|by rewrite Ep|]. intros rv hash.
  destruct (dispatch_owner rv ptr' hash (plain_consistent _ Hplain') Hok) as (p & Ed & Hown & _).
  rewrite Hring in Hown. apply plain_ring_live in Hown as (host & Hi & Hh & Hl).
  exists (index p), host. split_and!; [done|done|by rewrite Ep|by rewrite Ep].
Qed.

Lemma two_servers_plain : plain_client two_servers.
Proof.
  split; try done.
  - repeat (constructor; [split; [reflexivity|cbn; lia]|]). constructor.
Qed.

Lemma every_key_has_a_live_server_witness :
  exists ptr',
    run_distribution (DM := LP64) (HC := all_hashes) (CF := {| NDEBUG := false |}) (QS := merge_items) (SH := merge_hosts)
      stack_garbage no_client 0 (fun _ => zero) (Some 5) true (fun _ => mkItem 0 0) two_servers = Ret (MEMCACHED_SUCCESS, ptr')
    /\ plain_client ptr' /\ servers ptr' ≡ₚ servers two_servers
    /\ forall random_value hash, exists s host, dispatch_host random_value ptr' hash = Ret s /\ 0 <= s
         /\ servers ptr' !! Z.to_nat s = Some host
         /\ is_live (auto_eject_hosts (flags ptr')) 5 host = true.
Proof. apply every_key_has_a_live_server; [done|apply two_servers_plain|done]. Defined.

(** The client in which server [d] has a retry delay until [t]. *)
Definition eject (d : nat) (t : Z) (ptr : Memcached) : Memcached :=
  match servers ptr !! d with
  | Some h => with_servers ptr (<[d := mkInstance (_hostname h) (port_ h) (weight h) t]> (servers ptr))
  | None => ptr
  end.

Lemma live_servers_dropped now l d h : is_live true now h = false ->
  live_servers true now (<[d := h]> l) <= live_servers true now l.
Proof.
  intros Hh. unfold live_servers. revert d. induction l as [|x l IH]; intros [|d]; [done..| |].
  - change (<[0%nat := h]> (x :: l)) with (h :: l). cbn [List.filter]. rewrite Hh.
    destruct (is_live true now x); cbn [List.length]; lia.
  - specialize (IH d). change (<[S d := h]> (x :: l)) with (x :: <[d := h]> l). cbn [List.filter].
    destruct (is_live true now x); cbn [List.length]; lia.
Qed.

(** C36. Consistent hashing: when servers are ejected automatically and server [d] gets a
    retry delay, rebuilding the continuum moves only the keys of [d]: every hash that another
    server owned is dispatched to the same server afterwards (no two servers sharing a
    point). *)
Theorem ejection_moves_only_its_keys `{DM : DataModel} `{HC : HashConfig} `{CF : ClientConfig}
    `{QS : Qsort} garbage client stack_addr stack_rest junk ptr now d t :
  List.length garbage = 64%nat -> plain_client ptr -> auto_eject_hosts (flags ptr) = true ->
  (d < List.length (servers ptr))%nat -> now < t ->
  0 < live_servers true now (servers (eject d t ptr)) ->
  no_collision (plain_ring garbage client stack_addr stack_rest ptr now) ->
  exists p1 p2,
    update_continuum garbage client stack_addr stack_rest (Some now) true junk ptr = Ret (MEMCACHED_SUCCESS, p1)
    /\ update_continuum garbage client stack_addr stack_rest (Some now) true junk (eject d t ptr) = Ret (MEMCACHED_SUCCESS, p2)
    /\ forall random_value hash s, dispatch_host random_value p1 hash = Ret s -> s <> Z.of_nat d ->
         dispatch_host random_value p2 hash = Ret s.
Proof.
  intros Hg Hp Hauto Hd Ht Hlive Hcol.
  destruct (lookup_lt_is_Some_2 _ _ Hd) as [h Hh].
  set (h' := mkInstance (_hostname h) (port_ h) (weight h) t).
  assert (Ee : eject d t ptr = with_servers ptr (<[d := h']> (servers ptr))) by (unfold eject; by rewrite Hh).
  assert (Hdead : is_live true now h' = false) by (unfold is_live; cbn; lia).
  rewrite Ee in *. set (ptr2 := with_servers ptr (<[d := h']> (servers ptr))) in *.
  assert (Hp2 : plain_client ptr2).
  { destruct Hp as [Hc Hw Hcap Hlib Hv Hn]. split; try done; unfold memcached_server_count in *; cbn.
    - apply Forall_insert; [done|]. by eapply (Forall_lookup_1 host_valid) in Hh; [|done].
    - by rewrite length_insert. }
  pose proof (live_servers_dropped now (servers ptr) d h' Hdead) as Hle. cbn [servers with_servers ptr2] in Hlive.
  destruct (plain_update garbage client stack_addr stack_rest junk Hg ptr now Hp) as (p1 & E1 & R1 & O1 & _ & P1);
    [rewrite Hauto; lia|].
  destruct (plain_update garbage client stack_addr stack_rest junk Hg ptr2 now Hp2) as (p2 & E2 & R2 & O2 & _ & P2);
    [cbn; rewrite Hauto; lia|].
  exists p1, p2. split_and!; [done..|]. intros rv hash s Hs Hne.
  destruct (dispatch_owner rv p1 hash (plain_consistent _ P1) O1) as (q1 & D1 & W1).
  destruct (dispatch_owner rv p2 hash (plain_consistent _ P2) O2) as (q2 & D2 & W2).
  rewrite D1 in Hs. injection Hs as <-. rewrite D2. f_equal.
  apply (owner_perm _ _ _ _ R1) in W1. apply (owner_perm _ _ _ _ R2) in W2.
  assert (Hsub : forall q, q ∈ plain_ring garbage client stack_addr stack_rest ptr2 now <->
    q ∈ plain_ring garbage client stack_addr stack_rest ptr now /\ index q <> Z.of_nat d).
  { intros q. unfold plain_ring. cbn. rewrite Hauto. by apply ring_of_dropped. }
  apply (owner_unique hash (plain_ring garbage client stack_addr stack_rest ptr2 now)); [|done|].
  - intros a b Ha%Hsub Hb%Hsub. apply Hcol; [apply Ha|apply Hb].
  - apply (owner_subset hash (plain_ring garbage client stack_addr stack_rest ptr now)); [done| |].
    + apply Hsub. split; [apply W1|done].
    + intros q Hq%Hsub. apply Hq.
Qed.

Definition no_collision_b (pts : list memcached_continuum_item_st) : bool :=
  forallb (fun p => forallb (fun q => negb (value p =? value q) || (index p =? index q)) pts) pts.

Lemma no_collision_check pts : no_collision_b pts = true -> no_collision pts.
Proof.
  unfold no_collision_b. rewrite forallb_forall. intros H p q Hp Hq Heq.
  specialize (H p (proj1 (list_elem_of_In _ _) Hp)). rewrite forallb_forall in H.
  specialize (H q (proj1 (list_elem_of_In _ _) Hq)). lia.
Qed.

Definition ejecting_client : Memcached :=
  let f := flags two_servers in
  with_flags two_servers (mkFlags true (binary_protocol f) (buffer_requests f) (hash_with_namespace f) (no_block f)
    (reply f) (randomize_replica_read f) (support_cas f) (tcp_nodelay f) (use_sort_hosts f) (use_udp f)
    (verify_key f) (tcp_keepalive f) (is_fetching_version f)).

Lemma ejection_moves_only_its_keys_witness :
  exists p1 p2,
    update_continuum (DM := LP64) (HC := all_hashes) (CF := {| NDEBUG := false |}) (QS := merge_items)
      stack_garbage no_client 0 (fun _ => zero) (Some 5) true (fun _ => mkItem 0 0) ejecting_client = Ret (MEMCACHED_SUCCESS, p1)
    /\ update_continuum (DM := LP64) (HC := all_hashes) (CF := {| NDEBUG := false |}) (QS := merge_items)
      stack_garbage no_client 0 (fun _ => zero) (Some 5) true (fun _ => mkItem 0 0) (eject 1 9 ejecting_client)
      = Ret (MEMCACHED_SUCCESS, p2)
    /\ forall random_value hash s, dispatch_host random_value p1 hash = Ret s -> s <> Z.of_nat 1 ->
         dispatch_host random_value p2 hash = Ret s.
Proof.
  apply ejection_moves_only_its_keys; [done| |done|cbn; lia|lia|done|].
  - destruct two_servers_plain. by split.
  - apply no_collision_check. vm_compute. reflexivity.
Defined.

(** [memcached_servers_reset] frees the continuum and keeps its count, so the next server
    is added without a new array: with a consistent distribution the client aborts on an
    assertion, and without assertions stores through a null pointer. *)
Lemma reset_then_add_faults `{DM : DataModel} `{HC : HashConfig} `{CF : ClientConfig}
    `{QS : Qsort} `{SH : SortHosts} garbage client stack_addr stack_rest junk junk_instance ptr now name :
  List.length garbage = 64%nat -> plain_client ptr -> 1 <= continuum_count (ketama ptr) ->
  use_sort_hosts (flags ptr) = false -> auto_eject_hosts (flags ptr) = false ->
  memcached_is_valid_servername name = true ->
  server_add garbage client stack_addr stack_rest (Some now) true junk true junk_instance
    (memcached_servers_reset ptr) name 11211 1
  = Stuck (if NDEBUG then Undefined else AssertionFailed).
Proof.
  intros Hg Hp Hcount Hsort Hauto Hname. destruct Hp as [Hc Hw _ Hlib _ _].
  unfold server_add, __instance_create_with. rewrite Hname. cbn [negb Z.eqb].
  replace ((1 <? 1) && _) with false by done. rewrite run_consistent by done.
  cbn [flags memcached_servers_reset with_servers with_ketama]. rewrite Hsort.
  set (host := mkInstance name 11211 1 0).
  assert (Hv : host_valid host) by (split; [done|cbn; lia]).
  unfold update_continuum. cbn [ketama servers flags hashkit distribution memcached_servers_reset with_servers with_ketama
    weighted_ continuum continuum_count app]. cbv zeta. rewrite Hauto, Hw.
  change (live_servers false now [host]) with 1. rewrite (proj2 (Z.ltb_ge _ _)) by lia.
  cbn [Z.eqb andb List.length Nat.eqb negb]. unfold assert_msg at 1.
  destruct NDEBUG; cbn [orb obind]; [|reflexivity].
  by rewrite no_array_stuck.
Qed.

(** A client that has had a server. *)
Definition used_client : Memcached :=
  with_ketama two_servers (mkKetama false 11 100 0 (replicate 1100 (mkItem 0 0))).

Lemma reset_then_add_faults_witness :
  server_add (DM := LP64) (HC := all_hashes) (CF := {| NDEBUG := false |}) (QS := merge_items) (SH := merge_hosts)
    stack_garbage no_client 0 (fun _ => zero) (Some 5) true (fun _ => mkItem 0 0) true (fun _ => server [])
    (memcached_servers_reset used_client) (lit "gamma") 11211 1
  = Stuck AssertionFailed.
Proof.
  apply (reset_then_add_faults (DM := LP64) (HC := all_hashes) (CF := {| NDEBUG := false |}) (QS := merge_items)
    (SH := merge_hosts)); try done.
  destruct two_servers_plain. by split.
Defined.

(** Seven servers of which the last has weight 2: 140 points for each of the others, 280 for
    the last. *)
Definition seven_points (host : Instance_) : Z := if weight host =? 1 then 140 else 280.

Definition light_or_heavy (host : Instance_) : Prop := host_valid host /\ (weight host = 1 \/ weight host = 2).

Lemma seven_points_ok spy host : light_or_heavy host -> host_ok true spy 7 8 seven_points host.
Proof.
  intros [Hv Hw]. unfold host_ok, seven_points. destruct Hw as [-> | ->]; cbn [Z.eqb Pos.eqb];
    (split_and!; [done|by vm_compute|done|]); intros q Hq; apply sort_host_fits; (done || unfold UINT_MOD; lia).
Qed.

Section Weighted.
Context `{DM : DataModel} `{HC : HashConfig} `{CF : ClientConfig} `{QS : Qsort} `{SH : SortHosts}.
Context (garbage : list Z) (client : Z -> KeyPtr -> Z -> outcome Z).
Context (stack_addr : Z) (stack_rest : nat -> ascii) (junk : nat -> memcached_continuum_item_st).
Context (Hgarbage : List.length garbage = 64%nat).

Lemma length_weighted_ring spy now hosts i : Forall light_or_heavy hosts ->
  Z.of_nat (List.length (ring_of true spy false now (ketama_values garbage) seven_points hosts i))
  = 140 * Z.of_nat (List.length hosts) + 140 * Z.of_nat (List.length (List.filter (fun h => weight h =? 2) hosts)).
Proof using All.
  intros Hv. revert i. induction Hv as [|host hosts Hh Hv IH]; intros i; [done|].
  cbn [ring_of is_live negb orb List.filter]. rewrite length_app, Nat2Z.inj_add, IH by done.
  rewrite (length_live_ring garbage client stack_addr stack_rest (_hashkit_init false) true spy 7 8 (ketama_values garbage) seven_points
    (ketama_hashes_ok garbage client stack_addr stack_rest Hgarbage (_hashkit_init false) spy) host i)
    by (by apply seven_points_ok).
  unfold seven_points. destruct Hh as [_ [-> | ->]]; cbn [Z.eqb Pos.eqb List.length]; lia.
Qed.
End Weighted.

(** Six servers of weight 1 and one of weight 2. *)
Lemma six_and_one hosts host now : List.length hosts = 6%nat -> Forall (fun h => weight h = 1) hosts -> weight host = 2 ->
  List.length (List.filter (fun h => weight h =? 2) (hosts ++ [host])) = 1%nat
  /\ total_weight false now (hosts ++ [host]) = 8 /\ live_servers false now (hosts ++ [host]) = 7.
Proof.
  intros Hl Hw H2. do 7 (destruct hosts as [|? hosts]; [try discriminate Hl|]); [|discriminate Hl].
  rewrite !Forall_cons_iff in Hw. destruct Hw as (W1 & W2 & W3 & W4 & W5 & W6 & _).
  unfold total_weight, live_servers. cbn. rewrite W1, W2, W3, W4, W5, W6, H2. done.
Qed.

(** C37. A client with six servers of weight 1, whose array was made for unweighted points,
    gets a server of weight 2: the continuum becomes weighted without a larger array, and
    its 1120 points are stored into 1100 items. *)
Theorem weighted_server_overflows `{DM : DataModel} `{HC : HashConfig} `{CF : ClientConfig}
    `{QS : Qsort} `{SH : SortHosts} garbage client stack_addr stack_rest junk junk_instance ptr now name :
  List.length garbage = 64%nat -> memcached_is_consistent_distribution ptr = true ->
  continuum_count (ketama ptr) = 11 -> List.length (continuum (ketama ptr)) = 1100%nat ->
  List.length (servers ptr) = 6%nat -> Forall host_valid (servers ptr) -> Forall (fun h => weight h = 1) (servers ptr) ->
  use_sort_hosts (flags ptr) = false -> auto_eject_hosts (flags ptr) = false ->
  memcached_is_valid_servername name = true ->
  server_add garbage client stack_addr stack_rest (Some now) true junk true junk_instance ptr name 11211 2
  = Stuck Undefined.
Proof.
  intros Hg Hc Hcount Hlen Hsix Hv Hw Hsort Hauto Hname.
  unfold server_add, __instance_create_with. rewrite Hname. cbn [negb Z.eqb].
  set (host := mkInstance name 11211 2 0). set (p1 := with_servers ptr (servers ptr ++ [host])).
  replace (memcached_is_consistent_distribution p1) with true by done. cbn [Z.ltb andb].
  replace ((1 <? 2) && true) with true by done. set (p2 := memcached_set_weighted_ketama p1 true).
  rewrite run_consistent by done. replace (use_sort_hosts (flags p2)) with false by done. cbv iota.
  assert (Hlh : Forall light_or_heavy (servers p2)).
  { cbn. apply Forall_app. split; [|constructor; [|constructor]].
    - rewrite List.Forall_forall in *. intros h Hh. split; [by apply Hv|left; by apply Hw].
    - split; [split; [done|cbn; lia]|by right]. }
  destruct (six_and_one (servers ptr) host now Hsix Hw eq_refl) as (H1 & H2 & H3).
  assert (Hring : Z.of_nat (List.length (ring_of true (is_spy p2) false now (ketama_values garbage) seven_points (servers p2) 0)) = 1120).
  { rewrite (length_weighted_ring garbage client stack_addr stack_rest junk Hg) by done.
    change (servers p2) with (servers ptr ++ [host]). rewrite H1, length_app, Hsix. done. }
  apply (update_continuum_overflow garbage client stack_addr stack_rest junk p2 now (ketama_values garbage) seven_points);
    unfold full_ring; cbn [p2 p1 flags ketama weighted_ servers memcached_set_weighted_ketama with_ketama with_servers];
    rewrite ?Hauto, ?H2, ?H3.
  - by apply ketama_hashes_ok.
  - intros h Hin _. apply seven_points_ok. rewrite List.Forall_forall in Hlh. apply Hlh. by apply list_elem_of_In.
  - done.
  - unfold grown_length. cbn [p2 p1 ketama memcached_set_weighted_ketama with_ketama with_servers continuum_count continuum].
    rewrite Hcount, Hlen. change (servers ptr ++ [host]) with (servers p2). rewrite Hring. done.
Qed.

(** A new client on the continuum to which servers are added one by one. *)
Definition add_servers (names : list cstring) : outcome Memcached :=
  fold_left (fun acc name => let? ptr := acc in
      let? r := server_add (DM := LP64) (HC := all_hashes) (CF := {| NDEBUG := false |}) (QS := merge_items) (SH := merge_hosts)
        stack_garbage no_client 0 (fun _ => zero) (Some 5) true (fun _ => mkItem 0 0) true (fun _ => server []) ptr name 11211 1 in
      Ret (snd r))
    names (Ret (with_distribution _memcached_init MEMCACHED_DISTRIBUTION_CONSISTENT)).

Lemma weighted_server_overflows_witness :
  exists ptr, add_servers (map lit ["a"; "b"; "c"; "d"; "e"; "f"]%string) = Ret ptr
  /\ server_add (DM := LP64) (HC := all_hashes) (CF := {| NDEBUG := false |}) (QS := merge_items) (SH := merge_hosts)
       stack_garbage no_client 0 (fun _ => zero) (Some 5) true (fun _ => mkItem 0 0) true (fun _ => server [])
       ptr (lit "heavy") 11211 2 = Stuck Undefined.
Proof.
  eexists. split; [vm_compute; reflexivity|].
  apply (weighted_server_overflows (DM := LP64) (HC := all_hashes) (CF := {| NDEBUG := false |}) (QS := merge_items)
    (SH := merge_hosts)); try reflexivity.
  - cbn [servers]. repeat (constructor; [split; [reflexivity|cbn; lia]|]). constructor.
  - cbn [servers]. repeat (constructor; [reflexivity|]). constructor.
Defined.
