(* ===== verification/TheoremsAes.v ===== *)
(** * Properties of encrypted values

    rijndael.cc against FIPS-197, aes.cc and encrypt.cc on messages, and the strings they
    are stored in. *)

From stdpp Require Import base list numbers.
From Stdlib Require Import ZArith Lia.
From S2P Require Import Prelude HashWords HashkitString RijndaelTables Rijndael RijndaelSpec.
From S2P Require Import RijndaelSpec RijndaelKeys Aes HashKit.

(** A build and a machine for the witnesses. *)
Definition looped : CipherConfig := {| FULL_UNROLL := false |}.
Definition machine : Allocator :=
  {| grants := fun _ size => 2 * size <? ULONG_MOD (DM := LP64); content := fun k i => Z.of_nat k + i |}.

#[export] Instance machine_bounded : BoundedAllocator (DM := LP64) machine.
Proof. intros k size H. by apply Z.ltb_lt. Qed.
Lemma machine_generous : generous (DM := LP64) (AL := machine).
Proof. intros k size H. by apply Z.ltb_lt. Qed.

Lemma seqZ_bytes a n : 0 <= a -> a + n <= 256 -> Forall byte (seqZ a n).
Proof.
  intros Ha Hn. apply Forall_forall. intros x Hx. apply list_elem_of_In, elem_of_seqZ in Hx. unfold byte. lia.
Qed.

(** C31. For keys of 128, 192 and 256 bits, in a looped and in an unrolled build, the schedule
    of [rijndaelKeySetupEnc] makes [rijndaelEncrypt] the cipher of FIPS-197 (key expansion and
    rounds over GF(2^8)), and with the schedule of [rijndaelKeySetupDec] [rijndaelDecrypt]
    returns the block; both set-ups return the number of rounds. *)
Theorem rijndael_is_fips197 `{CC : CipherConfig} keyBits Nk Nr rk key p :
  key_size keyBits Nk Nr -> Forall byte key -> Forall word32 rk ->
  4 * (Nr + 1) <= Z.of_nat (length rk) -> block p ->
  exists ek dk c, rijndaelKeySetupEnc rk key keyBits = Some (ek, Nr)
    /\ rijndaelKeySetupDec rk key keyBits = Some (dk, Nr)
    /\ rijndaelEncrypt ek Nr p = Some c
    /\ c = bytes_of (fips_aes Nk key Nr (block_of p))
    /\ rijndaelDecrypt dk Nr c = Some p.
Proof.
  intros Hs Hk Hrk Hl Hp.
  destruct (decrypt_encrypt Nk key keyBits Nr Hs Hk rk Hrk Hl p Hp) as (ek & dk & c & E1 & E2 & E3 & _ & E4).
  destruct (encrypt_is_fips Nk key keyBits Nr Hs Hk rk Hrk Hl p (proj2 Hp)) as (ek' & E5 & E6).
  rewrite E1 in E5. injection E5 as <-. rewrite E3 in E6. injection E6 as E6.
  exists ek, dk, c. done.
Qed.

Lemma rijndael_is_fips197_witness :
  exists ek dk c, rijndaelKeySetupEnc (replicate 60 0) (seqZ 0 24) 192 = Some (ek, 12)
    /\ rijndaelKeySetupDec (replicate 60 0) (seqZ 0 24) 192 = Some (dk, 12)
    /\ rijndaelEncrypt (CC := looped) ek 12 (seqZ 100 16) = Some c
    /\ c = bytes_of (fips_aes 6 (seqZ 0 24) 12 (block_of (seqZ 100 16)))
    /\ rijndaelDecrypt (CC := looped) dk 12 c = Some (seqZ 100 16).
Proof.
  apply (rijndael_is_fips197 (CC := looped) 192 6 12).
  - unfold key_size. rewrite !elem_of_cons. tauto.
  - by apply seqZ_bytes.
  - by apply Forall_replicate.
  - by vm_compute.
  - split; [done|]. by apply seqZ_bytes.
Defined.

(** C32. A value encrypted under a key of any length is decrypted to itself by a clone of the
    object: key, encryption, clone and decryption succeed when memory is granted, and the
    text has 16 * (n / 16 + 1) bytes. *)
Theorem encrypted_value_round_trip `{DM : DataModel} `{AL : Allocator} `{BA : !BoundedAllocator AL}
    `{CC : CipherConfig} kit key msg k :
  generous -> Forall byte key -> Forall byte msg -> msg <> [] ->
  2 * (Z.of_nat (length msg) + 2048) < ULONG_MOD ->
  exists kit' k1 c k2 twin k3 m k4,
    hashkit_key kit key k = (Ret (true, kit'), k1)
    /\ hashkit_encrypt kit' msg k1 = (Ret (Some c), k2)
    /\ Z.of_nat (length (string_bytes c)) = 16 * (Z.of_nat (length msg) / 16 + 1)
    /\ hashkit_clone false (Some kit') k2 = (Ret (Some twin), k3)
    /\ hashkit_decrypt twin (string_bytes c) k3 = (Ret (Some m), k4)
    /\ string_bytes m = msg.
Proof.
  intros Hg Hk Hm Hne Hl. destruct (create_key_spec key k Hk) as (ko & D & Hko & Eko).
  pose proof ULONG_MOD_ge. unfold UINT_MOD in *.
  assert (sizeof_ulong <= 8) by (unfold sizeof_ulong; by destruct long_bits_cases as [-> | ->]).
  rewrite Hg in Eko by (unfold sizeof_aes_key_t, AES_MAXNR; lia).
  destruct (round_trip Hg key ko D msg (S k) Hko Hm Hne Hl) as (c & k2 & Ec & Hc & Hcb & Hd).
  destruct (Hd (S (S k2))) as (m & k4 & Em & _ & Hmb).
  exists (with_key kit (Some ko)), (S k), c, k2.
  exists (mkHashkit (base_hash kit) (distribution_hash kit) (is_base_same_distributed kit) true (Some ko)).
  exists (S (S k2)), m, k4. split_and!; try done.
  - unfold hashkit_key. by rewrite (bind_Ret _ _ _ _ _ Eko).
  - rewrite Hcb. destruct (ecb_bytes (aes256 key) (fun p _ => aes256_block key p) (block_count msg) (pad msg))
      as [-> _]; [by apply pad_bytes|by rewrite length_pad|]. unfold block_count.
    rewrite Nat2Z.inj_mul, Nat2Z.inj_add, Nat2Z.inj_div. done.
  - unfold hashkit_clone, _hashkit_create, aes_clone_key, bind, calloc. rewrite Hg by (unfold sizeof_hashkit_st; lia).
    cbn. unfold bind. rewrite Hg by (unfold sizeof_aes_key_t, AES_MAXNR; lia). done.
Qed.

Lemma encrypted_value_round_trip_witness :
  exists kit' k1 c k2 twin k3 m k4,
    hashkit_key (AL := machine) (_hashkit_init true) [107; 101; 121] 0%nat = (Ret (true, kit'), k1)
    /\ hashkit_encrypt (DM := LP64) (AL := machine) (CC := looped) kit' [104; 105] k1 = (Ret (Some c), k2)
    /\ Z.of_nat (length (string_bytes c)) = 16 * (Z.of_nat 2 / 16 + 1)
    /\ hashkit_clone (DM := LP64) (AL := machine) false (Some kit') k2 = (Ret (Some twin), k3)
    /\ hashkit_decrypt (DM := LP64) (AL := machine) (CC := looped) twin (string_bytes c) k3 = (Ret (Some m), k4)
    /\ string_bytes m = [104; 105].
Proof.
  apply (encrypted_value_round_trip (DM := LP64) (CC := looped) _ _ [104; 105]).
  - exact machine_generous.
  - repeat (apply Forall_cons; [done|]); apply Forall_nil.
  - repeat (apply Forall_cons; [done|]); apply Forall_nil.
  - done.
  - by vm_compute.
Defined.

(** C33. Whatever memory is granted, [aes_encrypt] with the key object of any key stays inside
    its buffer: it returns no string, and then [hashkit_string_create] returned none, or the
    string with the AES-256 text of the padded value, 16 bytes at a time. Only the empty value is stored
    through a null pointer, as soon as the object is granted. *)
Theorem encrypt_stays_in_bounds `{DM : DataModel} `{AL : Allocator} `{BA : !BoundedAllocator AL}
    `{CC : CipherConfig} key msg k ko k1 k2 :
  Forall byte key -> Forall byte msg -> Z.of_nat (length msg) < ULONG_MOD ->
  aes_create_key key k = (Ret (Some ko), k1) ->
  (msg <> [] -> exists r k3, aes_encrypt (Some ko) msg k2 = (Ret r, k3) /\
     match r with
     | None => hashkit_string_create (Z.of_nat (length msg)) k2 = (Ret None, k3)
     | Some s => string_ok s /\ string_bytes s = ecb (aes256 key) (block_count msg) (pad msg)
     end)
  /\ (grants k2 (3 * sizeof_ulong) = true -> aes_encrypt (Some ko) [] k2 = (Stuck Undefined, S k2)).
Proof.
  intros Hk Hm Hl E. destruct (create_key_spec key k Hk) as (ko' & D & Hko & Eko).
  rewrite E in Eko. assert (ko' = ko) as -> by (destruct (grants k _); congruence). split.
  - intros Hne. pose proof (encrypt_spec key ko D Hko msg k2 Hm Hne Hl) as H. unfold after_create in H.
    destruct (hashkit_string_create _ k2) as [[[s0|]| |] k3] eqn:Ec; try done; [|by exists None, k3].
    destruct H as (s & Es & Hok & Hs). by exists (Some s), k3.
  - by apply (encrypt_empty key ko D Hko).
Qed.

Lemma encrypt_stays_in_bounds_witness :
  exists ko k1, aes_create_key (AL := machine) [1; 2; 3] 0%nat = (Ret (Some ko), k1)
  /\ (exists r k3, aes_encrypt (DM := LP64) (AL := machine) (CC := looped) (Some ko) [65] 5%nat = (Ret r, k3) /\
     match r with
     | None => hashkit_string_create (DM := LP64) (AL := machine) 1 5%nat = (Ret None, k3)
     | Some s => string_ok (DM := LP64) s
         /\ string_bytes s = ecb (aes256 [1; 2; 3]) (block_count [65]) (pad [65])
     end)
  /\ aes_encrypt (DM := LP64) (AL := machine) (CC := looped) (Some ko) [] 5%nat = (Stuck Undefined, 6%nat).
Proof.
  assert (Hb : Forall byte [1; 2; 3]) by (repeat (apply Forall_cons; [done|]); apply Forall_nil).
  assert (Hm : Forall byte [65]) by (apply Forall_cons; [done|apply Forall_nil]).
  destruct (aes_create_key (AL := machine) [1; 2; 3] 0%nat) as [o k1] eqn:E.
  destruct (create_key_spec (CC := looped) (AL := machine) [1; 2; 3] 0%nat Hb) as (ko & D & Hko & Eko).
  rewrite E in Eko. destruct (encrypt_stays_in_bounds (DM := LP64) (AL := machine) (CC := looped)
    [1; 2; 3] [65] 0 ko k1 5 Hb Hm) as [H1 H2]; [by vm_compute|rewrite E; injection Eko as -> ->; done|].
  exists ko, k1. split; [injection Eko as -> ->; done|]. split; [by apply H1|by apply H2].
Defined.

(** The strings of libhashkit: starting from a valid string (the buffer has the recorded
    size, [end] lies within it), appending bytes or setting a length within the buffer keeps
    it valid, and no size computation wraps around unnoticed; a successful append adds the
    bytes at the end, a failed one leaves the string as it was. *)
Lemma string_append_valid `{DM : DataModel} `{AL : Allocator} `{BA : !BoundedAllocator AL}
    self value k :
  string_ok self -> Forall byte value -> value <> [] -> Z.of_nat (length value) < ULONG_MOD ->
  exists granted self' k', hashkit_string_append self value k = (Ret (granted, self'), k')
    /\ string_ok self' /\ hashkit_string_length self' <= hashkit_string_max_size self'
    /\ (if granted then string_bytes self' = string_bytes self ++ value else self' = self).
Proof.
  intros Hok Hv Hne Hl. destruct (string_append_spec self value k Hok Hv Hne Hl) as (g & s & k' & E & Hs & Hb).
  exists g, s, k'. pose proof Hs as (_ & [_ ?] & _). done.
Qed.

Lemma string_append_valid_witness :
  exists granted self' k',
    hashkit_string_append (DM := LP64) (AL := machine) _init_string [65; 66] 3%nat = (Ret (granted, self'), k')
    /\ string_ok (DM := LP64) self' /\ hashkit_string_length self' <= hashkit_string_max_size self'
    /\ (if granted then string_bytes self' = string_bytes _init_string ++ [65; 66] else self' = _init_string).
Proof.
  apply (string_append_valid (DM := LP64) (AL := machine)).
  - apply init_ok.
  - repeat (apply Forall_cons; [done|]); apply Forall_nil.
  - done.
  - by vm_compute.
Defined.
