(* ===== verification/TheoremsDb.v ===== *)
(** * Theorems about the database

    The correctness of dblru.cpp: the refinement of the abstract cache by every operation, the
    invariant of the reachable states, the eviction policy and its termination, and the
    situations in which the code departs from its contract. *)

From stdpp Require Import base list gmap strings.
From Stdlib Require Import ZArith Lia Ascii String.
From S2P Require Import Prelude CxxString MersenneTwister DbLru DbLruInv DbLruRefine Demo.

#[local] Opaque MT.next MT.seed.

(** ** Calls and the states they reach *)

(** A call of a function of the interface. *)
Inductive db_call :=
  | CallInsert (k f cas v : cstring) (exp : Z)
  | CallAdd (k f cas v : cstring) (exp : Z)
  | CallDelete (k : cstring) (exp : Z)
  | CallGet (k : cstring) (refs : GetRefs)
  | CallSetFlushAll (exp : Z)
  | CallHandleFlushAll.

Section Reach.
Context `{DM : DataModel} `{E : Env}.

Definition run_call (c : db_call) : M unit :=
  match c with
  | CallInsert k f cas v exp => dbInsertElement k f cas v exp;;; ret tt
  | CallAdd k f cas v exp => dbAddElement k f cas v exp;;; ret tt
  | CallDelete k exp => dbDeleteElement k exp;;; ret tt
  | CallGet k refs => dbGetElement k refs;;; ret tt
  | CallSetFlushAll exp => dbSetFlushAll exp
  | CallHandleFlushAll => dbHandleFlushAll
  end.

(** The states a server reaches by calls that return, while the timestamp counter does not
    wrap. *)
Inductive db_reachable : World -> Prop :=
  | dbr_init limit threads : db_reachable (initial_world limit threads)
  | dbr_call w c w' :
      db_reachable w -> gTimestamp w + 1 < ULONG_MOD -> run_call c w = (Ret tt, w') ->
      db_reachable w'.

Lemma evict_outcome_ret w r R st w' :
  evict_outcome w r R -> r = (Ret st, w') -> quiet w' /\ wf w'.
Proof. intros H ->. by destruct H as (? & ? & _). Qed.

(** A call that returns keeps the invariant. *)
Lemma run_call_inv c w w' :
  (forall i, emplace_throws i = false) -> (forall i, time_ok (clock i)) ->
  quiet w -> wf w -> gTimestamp w + 1 < ULONG_MOD -> run_call c w = (Ret tt, w') -> quiet w' /\ wf w'.
Proof.
  intros Ha Hc Hq Hw HT. assert (ready w) as Hr by done. destruct c as [k f cas v exp|k f cas v exp|k exp|k refs|exp|]; cbn [run_call].
  - intros (st & w1 & H1 & [= <-])%bind_inv_Ret.
    by eapply evict_outcome_ret; [apply (insert_refines k f cas v exp w Hr Ha)|].
  - intros (st & w1 & H1 & [= <-])%bind_inv_Ret.
    by eapply evict_outcome_ret; [apply (add_refines k f cas v exp w Hr (Hc _) Ha)|].
  - intros (st & w1 & H1 & [= <-])%bind_inv_Ret.
    destruct (dbDeleteElement_wf k exp w Hq Hw) as (r & w2 & H2 & Hi).
    rewrite H2 in H1. by injection H1 as _ <-.
  - intros (st & w1 & H1 & [= <-])%bind_inv_Ret.
    destruct (dbGetElement_wf k refs w Hq Hw HT) as (r & w2 & H2 & Hi).
    rewrite H2 in H1. by injection H1 as _ <-.
  - intros H1. destruct (dbSetFlushAll_wf exp w Hq Hw) as (w2 & H2 & Hi).
    rewrite H2 in H1. by injection H1 as <-.
  - intros H1. destruct (dbHandleFlushAll_wf w Hq Hw HT) as (w2 & H2 & Hi).
    rewrite H2 in H1. by injection H1 as <-.
Qed.

(** ** Eviction policy *)

(** The scan meets at most one live entry before it stops. *)
Definition live (kv : gmap cstring entry) (cur fts : Z) (e : TimestampToKeyStruct) : Prop :=
  exists v, kv !! key e = Some v /\ is_expired cur fts v = false.

Definition policy (kv : gmap cstring entry) (cur fts : Z) (s : list TimestampToKeyStruct) (p : lru_pick)
    : Prop :=
  match p with
  | PickDeleted e =>
    exists pre post, s = pre ++ e :: post /\ (List.length pre <= 1)%nat
      /\ Forall (live kv cur fts) pre /\ kv !! key e = None
  | PickExpired e v =>
    exists pre post, s = pre ++ e :: post /\ (List.length pre <= 1)%nat
      /\ Forall (live kv cur fts) pre /\ kv !! key e = Some v /\ is_expired cur fts v = true
  | PickVictim e v =>
    exists e1 e2 v1 v2 post, s = e1 :: e2 :: post /\ Forall (live kv cur fts) [e1; e2]
      /\ kv !! key e1 = Some v1 /\ kv !! key e2 = Some v2
      /\ (e = e1 /\ v = v1 /\ size (value v2.1) <= size (value v1.1)
          \/ e = e2 /\ v = v2 /\ size (value v1.1) < size (value v2.1))
  | PickNone => (List.length s <= 1)%nat /\ Forall (live kv cur fts) s
  | PickUndefined => False
  end.

Lemma lru_scan_policy kv cur fts s : policy kv cur fts s (lru_scan kv cur fts s None).
Proof.
  destruct s as [|e1 s]; cbn [lru_scan]; [split; [cbn; lia|constructor]|].
  destruct (kv !! key e1) as [v1|] eqn:H1; [|by exists [], s; repeat split; [cbn; lia|constructor|]].
  destruct (is_expired cur fts v1) eqn:X1; [by exists [], s; repeat split; [cbn; lia|constructor|..]|].
  assert (live kv cur fts e1) as L1 by by exists v1.
  destruct s as [|e2 s]; cbn [lru_scan]; [split; [cbn; lia|by constructor]|].
  destruct (kv !! key e2) as [v2|] eqn:H2; [|exists [e1], s; repeat split; auto].
  destruct (is_expired cur fts v2) eqn:X2; [exists [e1], s; repeat split; auto|].
  assert (live kv cur fts e2) as L2 by by exists v2.
  rewrite H1. unfold getValueFromMap.
  destruct (Z.ltb_spec (size (value v1.1)) (size (value v2.1)));
    exists e1, e2, v1, v2, s; (split; [done|]; split; [auto|]; split; [done|]; split; [done|]); auto.
Qed.

(** ** The least recently used order *)

(** A lookup that hits moves the key to the young end of its bucket. *)
Lemma get_moves_last k refs w r w' :
  ready w -> time_ok (now w) -> dbGetElement k refs w = (Ret (SUCCESS, r), w') ->
  exists pre, set_of w' (getHashTblNbrFromKey k) = pre ++ [mkTK (gTimestamp w) k]
    /\ Forall (fun e => timestamp e < gTimestamp w) pre
    /\ map_of w' (getHashTblNbrFromKey k) !! k =
       option_map (fun it => setTimestampToMap it (gTimestamp w)) (map_of w (getHashTblNbrFromKey k) !! k).
Proof.
  intros (Hq & Hw & HT) Ht. rewrite dbGetElement_run by done. cbn zeta.
  pose proof (wf_bucket w Hw _ (hash_range k)) as Hb.
  destruct (map_of w (getHashTblNbrFromKey k) !! k) as [it|] eqn:Ek; [|by intros [= _ _]].
  destruct (is_expired _ _ it); [by intros [= _ _]|]. intros [= _ <-].
  set (h := getHashTblNbrFromKey k) in *. pose proof (hash_range k) as Hh. fold h in Hh.
  set (old := set_erase (mkTK (getTimestampFromMap it) k) (set_of w h)). exists old.
  assert (Forall (fun e => timestamp e < gTimestamp w) old) as Hold.
  { apply Forall_forall. intros e He. apply (bo_set _ _ _ _ Hb e). eapply elem_of_set_erase; [apply Hb|exact He]. }
  rewrite (set_of_update w _ h (set_insert (mkTK (gTimestamp w) k) old) h) by (done || lia).
  rewrite (map_of_update w _ h (<[k := setTimestampToMap it (gTimestamp w)]> (map_of w h)) h) by (done || lia).
  rewrite !decide_True, lookup_insert_eq by done. split; [|done].
  apply set_insert_fresh. intros e He. by apply (proj1 (Forall_forall _ _) Hold).
Qed.
End Reach.

(** ** Statements *)

Section Statements.
Context `{DM : DataModel} `{E : Env}.

(** What the abstract cache says of a call in the state [w]. Calls that only look or hide return
    its answer and go to its next state, with every mutex free and the tables well-formed;
    insertion and addition do so on what the eviction leaves, or answer MEMORY_FULL, or end in
    the fault of the eviction. *)
Definition settles (w' : World) (next : Cache.cache) (pending : option Z) : Prop :=
  quiet w' /\ wf w' /\ Cache.ceq (abs w') next /\ flush_time w' = pending.

Definition call_refined (c : db_call) (w : World) : Prop :=
  match c with
  | CallGet k refs =>
    exists w', dbGetElement k refs w = (Ret (Cache.get_result (abs w) (now w) k refs), w')
      /\ settles w' (Cache.get_next (abs w) (now w) k) (flush_time w)
  | CallDelete k exp =>
    exists w', dbDeleteElement k exp w = (Ret (Cache.delete_result (abs w) (now w) k), w')
      /\ settles w' (Cache.delete_next (abs w) (now w) k exp) (flush_time w)
  | CallInsert k f cas v exp =>
    evict_outcome w (dbInsertElement k f cas v exp w) (fun c st c' =>
      exists newCas, st = Cache.insert_result c k cas
        /\ Cache.ceq c' (Cache.insert_next c (now w) k f cas v newCas exp))
  | CallAdd k f cas v exp =>
    evict_outcome w (dbAddElement k f cas v exp w) (fun c st c' =>
      st = Cache.add_result c (now w) k
      /\ Cache.ceq c' (Cache.add_next c (now w) k f v (add_cas (now w)) exp))
  | CallSetFlushAll exp =>
    exists w', dbSetFlushAll exp w = (Ret tt, w') /\ settles w' (abs w) (Some (ulong (now w + exp)))
  | CallHandleFlushAll =>
    exists w', dbHandleFlushAll w = (Ret tt, w')
      /\ settles w' (if flush_due w then Cache.flush_next (abs w) else abs w)
           (if flush_due w then None else flush_time w)
  end.

(** C16. The database refines the abstract cache, call by call: a lookup returns the flags, the
    cas unique, the value and the remaining lifetime of a visible item and NOT_EXIST for a
    missing, expired or flushed one; a deletion answers SUCCESS exactly for a visible item and
    removes it or gives it the expiry that was asked for; an insertion or addition stores as the
    specification says for the cache that eviction leaves, the cas check included; a flush takes
    effect at the first command at or after its time and hides every item stored then. *)
Theorem database_refines_cache c w :
  ready w -> time_ok (now w) -> (forall i, emplace_throws i = false) -> call_refined c w.
Proof.
  intros Hr Ht Ha. pose proof Hr as (Hq & _). destruct c as [k f cas v exp|k f cas v exp|k exp|k refs|exp|]; cbn [call_refined].
  - by apply insert_refines.
  - by apply add_refines.
  - destruct (delete_refines k exp w Hr Ht) as (w' & Hrun & ? & ? & _ & ?).
    destruct (delete_keeps k exp w _ w' Hq Hrun) as (_ & _ & _ & ?). by exists w'.
  - destruct (get_refines k refs w Hr Ht) as (w' & Hrun & ? & ? & _ & ?).
    destruct (get_keeps k refs w _ w' Hq Hrun) as (_ & _ & _ & ?). by exists w'.
  - destruct (set_flush_refines exp w Hr) as (w' & Hrun & ? & ? & _ & ? & Hs & Hf). exists w'. split; [done|].
    split; [done|]. split; [done|]. split; [done|]. unfold flush_time. by rewrite Hs, Hf.
  - destruct (handle_flush_refines w Hr Ht) as (w' & ? & ? & ? & _ & ? & ?). by exists w'.
Qed.



(** C19. Eviction looks at the two oldest elements of a bucket: it drops the index of a deleted
    key, or an expired entry, met on the way, and otherwise the one of the two oldest live
    entries that has the longer value, the older one when they are equal. The element goes from
    both tables. A bucket with nothing to pick keeps its tables, and the call comes back (where
    it is defined) with both mutexes of the bucket held. *)
Theorem eviction_policy h w : quiet w -> wf w -> 0 <= h < 10 ->
  let p := lru_scan (map_of w h) (now w) (gFlushAllTimestamp w) (set_of w h) None in
  policy (map_of w h) (now w) (gFlushAllTimestamp w) (set_of w h) p /\
  match p with
  | PickDeleted e | PickExpired e _ | PickVictim e _ =>
    exists w', removeLRUElement h w = (Ret tt, w') /\ quiet w' /\ wf w'
      /\ set_of w' h = set_erase e (set_of w h) /\ map_of w' h = delete (key e) (map_of w h)
  | PickNone | PickUndefined =>
    exists w', removeLRUElement h w = (if singular_eq_end then Ret tt else Stuck Undefined, w')
      /\ aget (gTimestampToKeyMutex w') h = true /\ aget (gKeyToValueMutex w') h = true
      /\ gTimestampToKeySet w' = gTimestampToKeySet w /\ gKeyToValueHashMap w' = gKeyToValueHashMap w
  end.
Proof.
  intros Hq Hw Hh p. pose proof (lru_scan_policy (map_of w h) (now w) (gFlushAllTimestamp w) (set_of w h)) as Hp.
  fold p in Hp. split; [exact Hp|].
  pose proof (lru_scan_spec (map_of w h) (now w) (gFlushAllTimestamp w) (set_of w h) None) as Hs. fold p in Hs.
  pose proof (removeLRUElement_run h w Hq Hh) as Hrun. cbn zeta in Hrun. fold p in Hrun.
  assert (forall e sz, e ∈ set_of w h -> removeLRUElement h w =
      (Ret tt, set_gStoredSize sz (put_bucket h (set_erase e (set_of w h)) (delete (key e) (map_of w h)) (tick w))) ->
    exists w', removeLRUElement h w = (Ret tt, w') /\ quiet w' /\ wf w'
      /\ set_of w' h = set_erase e (set_of w h) /\ map_of w' h = delete (key e) (map_of w h)) as Hev.
  { intros e sz He Hr. destruct (evict_bucket h w e sz _ _ Hq Hw Hh He eq_refl eq_refl) as (? & ? & _ & ? & ? & _).
    eauto 6. }
  destruct p as [e|e v|e v| |]; [| | | |done].
  - destruct Hs as [He Hk]. rewrite <- put_bucket_map_id in Hrun by done.
    rewrite <- (delete_id (map_of w h) (key e)) in Hrun by done. eauto.
  - destruct Hs as (He & _ & _). eauto.
  - destruct Hs as ([He|?] & _); [eauto|done].
  - assert (aget (aset free h true) h = true) as Hl by (apply aget_aset_eq; unfold in_range, free; cbn; lia).
    destruct singular_eq_end; eexists; (split; [exact Hrun|]; split; [exact Hl|]; split; [exact Hl|done]).
Qed.

(** A lookup that hits makes its key the youngest of its bucket: the last element of the
    ordered set, with the timestamp that the entry now carries; all others are older. *)
Lemma get_refreshes k refs w r w' :
  ready w -> time_ok (now w) -> dbGetElement k refs w = (Ret (SUCCESS, r), w') ->
  exists pre, set_of w' (getHashTblNbrFromKey k) = pre ++ [mkTK (gTimestamp w) k]
    /\ Forall (fun e => timestamp e < gTimestamp w) pre
    /\ map_of w' (getHashTblNbrFromKey k) !! k =
       option_map (fun it => setTimestampToMap it (gTimestamp w)) (map_of w (getHashTblNbrFromKey k) !! k).
Proof. apply get_moves_last. Qed.

(** C38. A bucket whose only element is live stops an insertion that needs memory for ever:
    the call to evict from it returns with the mutexes held, and the next round waits for one of
    them. *)
Theorem lone_entry_deadlocks fuel need h orig w :
  quiet w -> wf w -> 0 <= h < 10 -> set_of w h <> [] -> pickable w h = false ->
  singular_eq_end = true -> fits w need = false ->
  exists w', insert_make_room (S (S fuel)) need h orig w = (Stuck Deadlock, w').
Proof.
  intros Hq Hw Hh Hne Hp Hs Hf. rewrite insert_make_room_step by done. rewrite Hf.
  destruct (set_of w h) as [|e s] eqn:Es; [done|]. cbn [List.length Nat.leb].
  destruct (removeLRUElement_leaks h w Hq Hh Hp) as (w' & Hrun & Hl & _ & _ & _ & Hst & Hm).
  rewrite Hs in Hrun. rewrite (bind_Ret _ _ _ _ _ Hrun). exists w'. apply make_room_locked.
  - rewrite Hl. apply aget_aset_eq. unfold in_range, free. cbn. lia.
  - unfold fits in *. by rewrite Hst, Hm.
Qed.

(** Storing a key that is there, with expiry 0, gives it the present time as its expiry: from
    the next second on it is not visible (a new key with expiry 0 stays for ever). *)
Lemma update_expiry_zero k f v w old :
  ready w -> time_ok (now w) -> emplace_throws (allocs w) = false -> roomy w k f v ->
  abs w k = Some (old, false) ->
  exists w', dbInsertElement k f [] v 0 w = (Ret SUCCESS, w')
    /\ forall t, now w < t -> Cache.visible (abs w') t k = None.
Proof.
  intros Hr Ht Ha Hro Hold. destruct (insert_roomy k f [] v 0 w Hr Ha Hro) as (w' & nc & Hrun & _ & _ & _ & _ & Habs).
  exists w'. rewrite Hrun, Cache.insert_result_nocas. split; [done|]. intros t Hlt.
  rewrite Habs, Cache.insert_next_nocas, Hold. unfold Cache.visible. rewrite Cache.put_eq. cbn.
  rewrite Z.add_0_r, ulong_small by done. by rewrite (proj2 (Z.ltb_lt _ _)).
Qed.

(** When the allocation of an entry fails, the insertion answers MEMORY_FULL with the mutex of
    the bucket's map held: the next lookup of any key of the bucket waits for ever. *)
Lemma bad_alloc_keeps_mutex cur ts newCas k f cas v exp w :
  quiet w -> emplace_throws (allocs w) = true ->
  exists w', insert_place (getHashTblNbrFromKey k) cur ts newCas k f cas v exp w = (Ret MEMORY_FULL, w')
    /\ forall k' refs, getHashTblNbrFromKey k' = getHashTblNbrFromKey k ->
       exists w'', dbGetElement k' refs w' = (Stuck Deadlock, w'').
Proof.
  intros [Htk Hkv] Ha. pose proof (hash_range k) as Hh. unfold insert_place, lock_kv, bind at 1.
  rewrite Hkv, aget_free by done. unfold bind, emplace. cbn [allocs set_gKeyToValueMutex]. rewrite Ha.
  eexists. split; [reflexivity|]. intros k' refs Hk'. eexists.
  unfold dbGetElement, bind, sys_time, fetch_timestamp, lock_kv. rewrite Hk'. cbn.
  rewrite aget_aset_eq by (unfold in_range, free; cbn; lia). reflexivity.
Qed.

(** A deletion never gives memory back to the accounting: [gStoredSize] stays as it was, also
    when the entry is gone. *)
Lemma delete_keeps_stored_size k exp w :
  ready w -> exists r w', dbDeleteElement k exp w = (Ret r, w') /\ gStoredSize w' = gStoredSize w.
Proof.
  intros (Hq & Hw & HT). destruct (dbDeleteElement_wf k exp w Hq Hw) as (r & w' & Hrun & _).
  exists r, w'. split; [done|]. by destruct (delete_keeps k exp w _ w' Hq Hrun).
Qed.
End Statements.

(** ** The statements at concrete states *)

#[local] Existing Instance ILP32.
#[local] Existing Instance demo_env.
#[local] Opaque demo_stored.

Definition no_refs : GetRefs := mkRefs [] [] [] 0.

(** A state with a flush that is due. *)
Definition demo_flush : World := set_gIsFlushAllSet true (demo_stored (lit "v")).

Lemma database_refines_cache_witness :
  call_refined (CallGet demo_key no_refs) (demo_stored (lit "v"))
  /\ call_refined (CallInsert demo_key (lit "7") [] (lit "w") 60) (demo_stored (lit "v"))
  /\ call_refined (CallAdd demo_key (lit "7") [] (lit "w") 60) (demo_stored (lit "v"))
  /\ call_refined (CallDelete demo_key 0) (demo_stored (lit "v"))
  /\ call_refined CallHandleFlushAll demo_flush.
Proof.
  pose proof (demo_stored_now (lit "v") ltac:(done)) as Hr.
  pose proof (flush_set_ready _ Hr : ready demo_flush) as Hf.
  pose proof (demo_time_ok (demo_stored (lit "v"))) as Ht. pose proof (demo_time_ok demo_flush) as Htf.
  revert Hr Hf Ht Htf. generalize demo_flush. generalize (demo_stored (lit "v")). intros w f Hr Hf Ht Htf.
  assert (forall i, emplace_throws i = false) as Ha by reflexivity.
  exact (conj (database_refines_cache _ w Hr Ht Ha) (conj (database_refines_cache _ w Hr Ht Ha)
    (conj (database_refines_cache _ w Hr Ht Ha) (conj (database_refines_cache _ w Hr Ht Ha)
    (database_refines_cache _ f Hf Htf Ha))))).
Defined.



Lemma eviction_policy_witness :
  (fun w => policy (map_of w 9) (now w) (gFlushAllTimestamp w) (set_of w 9)
    (lru_scan (map_of w 9) (now w) (gFlushAllTimestamp w) (set_of w 9) None)) (demo_stored (lit "v")).
Proof.
  destruct (demo_stored_now (lit "v")) as (Hq & Hw & _); [done|].
  revert Hq Hw. generalize (demo_stored (lit "v")). intros w Hq Hw.
  destruct (eviction_policy 9 w Hq Hw) as [H _]; [lia|exact H].
Defined.

Lemma get_refreshes_witness :
  exists r w', dbGetElement demo_key no_refs (demo_stored (lit "v")) = (Ret (SUCCESS, r), w') /\
  exists pre, set_of w' (getHashTblNbrFromKey demo_key) = pre ++ [mkTK (gTimestamp (demo_stored (lit "v"))) demo_key]
    /\ Forall (fun e => timestamp e < gTimestamp (demo_stored (lit "v"))) pre
    /\ map_of w' (getHashTblNbrFromKey demo_key) !! demo_key =
       option_map (fun it => setTimestampToMap it (gTimestamp (demo_stored (lit "v"))))
         (map_of (demo_stored (lit "v")) (getHashTblNbrFromKey demo_key) !! demo_key).
Proof.
  destruct (demo_get no_refs) as (r & w' & Hrun). exists r, w'. split; [exact Hrun|].
  apply (get_refreshes demo_key no_refs (demo_stored (lit "v")) r w');
    [by apply demo_stored_now|apply demo_time_ok|exact Hrun].
Defined.

Lemma lone_entry_deadlocks_witness :
  exists w', insert_make_room 2 7000 9 9 (demo_stored (lit "v")) = (Stuck Deadlock, w').
Proof.
  destruct (demo_stored_now (lit "v")) as (Hq & Hw & _); [done|].
  apply (lone_entry_deadlocks 0 7000 9 9 (demo_stored (lit "v")) Hq Hw); [lia|..];
    vm_compute; [by intros [=]|reflexivity..].
Defined.

Lemma update_expiry_zero_witness :
  exists w', dbInsertElement demo_key (lit "0") [] (lit "w") 0 (demo_stored (lit "v")) = (Ret SUCCESS, w')
    /\ forall t, now (demo_stored (lit "v")) < t -> Cache.visible (abs w') t demo_key = None.
Proof.
  destruct (demo_item (lit "v")) as [nc Hi]; [done|].
  pose proof (demo_stored_now (lit "v") ltac:(done)) as Hr.
  pose proof (demo_stored_roomy demo_key (lit "0") (lit "w") ltac:(done)) as Hro.
  revert Hi Hr Hro. generalize (demo_stored (lit "v")). intros w Hi Hr Hro.
  exact (update_expiry_zero demo_key (lit "0") (lit "w") w _ Hr (demo_time_ok w) eq_refl Hro Hi).
Defined.

Lemma delete_keeps_stored_size_example :
  exists r w', dbDeleteElement demo_key 0 (demo_stored (lit "v")) = (Ret r, w')
    /\ gStoredSize w' = gStoredSize (demo_stored (lit "v")).
Proof. apply (delete_keeps_stored_size demo_key 0 (demo_stored (lit "v"))). by apply demo_stored_now. Defined.

(** Surroundings in which no memory is left. *)
Definition full_env : Env := {|
  clock := fun _ => 1000; emplace_throws := fun _ => true; singular_eq_end := true;
  uninit_ulong := 0; uninit_uint := 0; uninit_bool := false; getpid := 4242;
|}.

Lemma bad_alloc_keeps_mutex_example :
  exists w', @insert_place ILP32 full_env (getHashTblNbrFromKey demo_key) 1000 0 [] demo_key [] [] [] 0 demo_world
      = (Ret MEMORY_FULL, w')
    /\ forall k' refs, getHashTblNbrFromKey k' = getHashTblNbrFromKey demo_key ->
       exists w'', @dbGetElement ILP32 full_env k' refs w' = (Stuck Deadlock, w'').
Proof.
  apply (@bad_alloc_keeps_mutex ILP32 full_env 1000 0 [] demo_key [] [] [] 0 demo_world);
    [apply initial_quiet|reflexivity].
Defined.
