(* ===== verification/TheoremsCmd.v ===== *)
(** * Theorems about the text protocol

    What [cmdProcessCommand] of scmd.cpp answers and stores when it runs on the database of
    dblru.cpp: the theorems of CommandsSpec.v and CommandsGet.v through the
    instance [World_Laws], for a clock that does not go back and allocations that succeed. *)

From stdpp Require Import base list gmap strings.
From Stdlib Require Import ZArith Lia Ascii String.
From S2P Require Import Prelude CxxString MersenneTwister DbLru DbLruInv.
From S2P Require Import DbLruRefine Commands CommandsParse CommandsSpec.
From S2P Require Import CommandsGet Demo.

Section Lines.
Context `{DM : DataModel} `{E : Env}.

(** Without a pending flush the handler runs on the state itself. *)
Lemma no_flush_pending (w : World) : flush_time w = None -> op_handle_flush w = (Ret tt, w).
Proof.
  unfold flush_time. change (op_handle_flush w) with (dbHandleFlushAll w). rewrite dbHandleFlushAll_run. by destruct (gIsFlushAllSet w).
Qed.

Lemma word_dispatch cmd t (w w1 : World) :
  small (cmd ++ SP :: t) -> SP ∉ cmd -> op_handle_flush w = (Ret tt, w1) ->
  cmdProcessCommand (cmd ++ SP :: t) w = dispatch cmd (cmd ++ SP :: t) w1.
Proof.
  intros Hs Hc Hf. rewrite (cmdProcessCommand_word _ cmd t) by done. by rewrite (bind_Ret _ _ _ _ _ Hf).
Qed.

Lemma key_line_text cmd k nr : key_line cmd k nr ++ CRLF = cmd ++ SP :: (k ++ nr_text nr ++ CRLF).
Proof. unfold key_line. by rewrite <- !app_assoc. Qed.

Lemma key_value_line_text cmd k v nr :
  key_value_line cmd k v nr ++ CRLF = cmd ++ SP :: (k ++ [SP] ++ v ++ nr_text nr ++ CRLF).
Proof. unfold key_value_line. by rewrite <- !app_assoc. Qed.
End Lines.

Section Statements.
Context `{CE : CalmEnv}.

(** [set]: a complete line with its data block is answered with STORED (nothing with
    [noreply]) and stores the item under its key: flags and data of the line, a new cas unique,
    the expiry counted from the clock; all other keys keep what they had. *)
Lemma set_stores m (w : World) k f e ev data nr :
  let input := storage_line (lit "set") k f e (to_string (size data)) nr ++ CRLF ++ data ++ CRLF in
  small input -> token k -> token f -> token e -> stoul e = Ret ev -> ev <= EXPIRY_THRESHOLD ->
  ready_for (S (S m)) w -> roomy w k f data ->
  exists w' newCas t,
    cmdProcessCommand input w = (Ret (0, reply nr (line "STORED")), w')
    /\ ready_for m w' /\ now w <= t <= now w'
    /\ Cache.ceq (abs w') (Cache.insert_next (flushed w) t k f [] data newCas ev)
    /\ flush_time w' = pending w.
Proof. exact (set_spec (W := World) (Laws := World_Laws) m w k f e ev data nr). Qed.

(** [add] stores exactly when the client could not read the key, and says NOT_STORED
    otherwise, without a change. *)
Lemma add_stores_invisible m (w : World) k f e ev data nr :
  let input := storage_line (lit "add") k f e (to_string (size data)) nr ++ CRLF ++ data ++ CRLF in
  small input -> token k -> token f -> token e -> stoul e = Ret ev -> ev <= EXPIRY_THRESHOLD ->
  ready_for (S (S m)) w -> roomy w k f data ->
  exists w' newCas t,
    cmdProcessCommand input w =
      (Ret (0, reply nr (match Cache.visible (flushed w) t k with
                         | Some _ => line "NOT_STORED" | None => line "STORED" end)), w')
    /\ ready_for m w' /\ now w <= t <= now w'
    /\ Cache.ceq (abs w') (Cache.add_next (flushed w) t k f data newCas ev)
    /\ flush_time w' = pending w.
Proof. exact (add_spec (W := World) (Laws := World_Laws) m w k f e ev data nr). Qed.



(** [delete] answers DELETED and removes the item when it is visible, and NOT_FOUND with the
    cache unchanged when it is not. *)
Lemma delete_removes m (w : World) k nr :
  let input := key_line (lit "delete") k nr ++ CRLF in
  small input -> token k -> ready_for (S (S m)) w ->
  exists w' t, now w <= t /\
    cmdProcessCommand input w =
      (Ret (0, reply nr (match Cache.visible (flushed w) t k with
                         | Some _ => line "DELETED" | None => line "NOT_FOUND" end)), w')
    /\ ready_for m w' /\ Cache.ceq (abs w') (Cache.delete_next (flushed w) t k 0).
Proof.
  intros input Hs Hk Hok. unfold input in *.
  destruct (handle_flush (W := World) (Laws := World_Laws) (S m) w Hok) as (w1 & Hfl & Hok1 & Hn1 & Ha1 & _ & _).
  destruct (delete_spec (W := World) (Laws := World_Laws) m w1 k nr Hs Hk Hok1) as (w' & Hr & Hok' & Hn' & _ & Ha').
  exists w', (now w1). split; [exact Hn1|]. rewrite key_line_text in *.
  rewrite (word_dispatch (lit "delete") _ w w1) by (done || decide_token).
  change (dispatch (lit "delete") ?i) with (cmdProcessDelete i). rewrite <- Ha1. done.
Qed.

(** [replace] stores only over a visible item; otherwise it answers NOT_STORED and what
    clients can see stays the same. *)
Lemma replace_only_visible m (w : World) k f e ev data nr :
  let input := storage_line (lit "replace") k f e (to_string (size data)) nr ++ CRLF ++ data ++ CRLF in
  small input -> token k -> token f -> token e -> stoul e = Ret ev -> ev <= EXPIRY_THRESHOLD ->
  ready_for (S (S m)) w -> roomy w k f data -> flush_time w = None ->
  match Cache.visible (abs w) (now w) k with
  | Some v => exists w' newCas t, now w <= t <= now w' /\
      cmdProcessCommand input w = (Ret (0, reply nr (line "STORED")), w') /\ ready_for m w'
      /\ Cache.ceq (abs w') (Cache.insert_next (abs w) t k f [] data newCas ev)
  | None => exists w',
      cmdProcessCommand input w = (Ret (0, reply nr (line "NOT_STORED")), w') /\ ready_for (S m) w'
      /\ (forall t k', now w <= t -> Cache.visible (abs w') t k' = Cache.visible (abs w) t k')
  end.
Proof.
  intros input Hs Hk Hf He Hev Hth Hok Hro Hfl. unfold input.
  rewrite (storage_dispatch (lit "replace") k f e _ nr (data ++ CRLF) w w (no_flush_pending w Hfl))
    by (done || decide_token).
  change (dispatch (lit "replace") ?i) with (cmdProcessReplace i).
  exact (replace_spec (W := World) (Laws := World_Laws) m w k f e ev data nr Hs Hk Hf He Hev Hth Hok Hro).
Qed.

(** [append] puts the data of the line behind the stored value, [prepend] puts it in front;
    flags and expiry stay (the expiry moves only by the seconds the command takes). *)
Lemma append_prepend_extend (front : bool) m (w : World) k f e ev data nr v :
  let cmd := lit (if front then "prepend" else "append") in
  let input := storage_line cmd k f e (to_string (size data)) nr ++ CRLF ++ data ++ CRLF in
  let v' := if front then data ++ value v else value v ++ data in
  small input -> token k -> token f -> f <> [] -> token e -> stoul e = Ret ev -> ev <= EXPIRY_THRESHOLD ->
  ready_for (S (S m)) w -> flush_time w = None ->
  Cache.visible (abs w) (now w) k = Some v -> roomy w k (flags v) v' ->
  exists w' newCas d, 0 <= d /\
    cmdProcessCommand input w = (Ret (0, reply nr (line "STORED")), w') /\ ready_for m w'
    /\ Cache.ceq (abs w') (joined (abs w) k v (ulong (expiry v + d)) v' newCas).
Proof.
  destruct front; intros cmd input v' Hs Hk Hf Hne He Hev Hth Hok Hfl.
  - exact (prepend_spec (W := World) (Laws := World_Laws) m w w k f e ev data nr v Hs Hk Hf Hne He Hev Hth
      (no_flush_pending w Hfl) Hok).
  - exact (append_spec (W := World) (Laws := World_Laws) m w w k f e ev data nr v Hs Hk Hf Hne He Hev Hth
      (no_flush_pending w Hfl) Hok).
Qed.

(** C23. [cas] compares the cas unique of the line with the stored one: NOT_FOUND without an entry,
    EXISTS without a change when they differ, and otherwise the item is stored. *)
Theorem cas_compares m (w : World) k f e ev data c nr :
  let input := storage_line (lit "cas") k f e (to_string (size data) ++ [SP] ++ c) nr
               ++ CRLF ++ data ++ CRLF in
  small input -> token k -> token f -> token e -> token c -> stoul e = Ret ev ->
  ev <= EXPIRY_THRESHOLD -> ready_for (S m) w -> roomy w k f data -> flush_time w = None ->
  exists w' newCas,
    cmdProcessCommand input w = (Ret (0, reply nr (cas_reply (Cache.insert_result (abs w) k c))), w')
    /\ ready_for m w'
    /\ Cache.ceq (abs w') (Cache.insert_next (abs w) (now w) k f c data newCas ev).
Proof.
  intros input Hs Hk Hf He Hc Hev Hth Hok Hro Hfl. unfold input.
  rewrite (storage_dispatch (lit "cas") k f e _ nr (data ++ CRLF) w w (no_flush_pending w Hfl))
    by (done || decide_token).
  change (dispatch (lit "cas") ?i) with (cmdProcessCas i).
  destruct (cas_spec (W := World) (Laws := World_Laws) m w k f e ev data c nr Hs Hk Hf He Hc Hev Hth Hok Hro)
    as (w' & nc & ? & ? & _ & ?).
  exists w', nc. done.
Qed.

(** C24. [incr] adds the number of the line to the stored decimal number, modulo the width of
    [unsigned long]; [decr] subtracts it and stops at 0. The reply is the new number. *)
Theorem incr_decr_compute (up : bool) m (w : World) k n x nr v :
  let cmd := lit (if up then "incr" else "decr") in
  let input := key_value_line cmd k (to_string x) nr ++ CRLF in
  let r := to_string (if up then ulong (x + n) else Z.max 0 (n - x)) in
  small input -> token k -> 0 < x < ULONG_MOD -> 0 <= n < ULONG_MOD -> ready_for (S (S m)) w ->
  flush_time w = None -> Cache.visible (abs w) (now w) k = Some v -> value v = to_string n ->
  roomy w k (flags v) r ->
  exists w' newCas d, 0 <= d /\
    cmdProcessCommand input w = (Ret (0, reply nr (r ++ CRLF)), w') /\ ready_for m w'
    /\ Cache.ceq (abs w') (joined (abs w) k v (ulong (expiry v + d)) r newCas).
Proof.
  intros cmd input r Hs Hk Hx Hn Hok Hfl Hv Hval Hro. unfold input.
  assert (token cmd) as Hc by (unfold cmd; destruct up; decide_token).
  set (combine := if up then incr_value else decr_value).
  assert (r = to_string (combine n x)) as Hrc.
  { unfold r, combine. destruct up; [done|]. unfold decr_value. f_equal.
    destruct (Z.leb_spec n x); [lia|]. rewrite ulong_small by lia. lia. }
  rewrite key_value_line_text, (word_dispatch cmd _ w w)
    by first [by rewrite <- key_value_line_text | by apply no_flush_pending | apply Hc].
  rewrite <- key_value_line_text.
  assert (forall i, dispatch cmd i = process_arith combine i) as -> by (intros; unfold cmd, combine; by destruct up).
  rewrite Hrc in *.
  by apply (arith_spec (W := World) (Laws := World_Laws) combine m w cmd k n x nr v).
Qed.

(** [incr] and [decr] on a value that is no number throw an exception nobody catches: the
    server ends. *)
Lemma arith_text_value_throws (cmd : string) m (w : World) k x nr v :
  cmd = "incr"%string \/ cmd = "decr"%string ->
  let input := key_value_line (lit cmd) k (to_string x) nr ++ CRLF in
  small input -> token k -> 0 <= x < ULONG_MOD -> ready_for (S m) w -> flush_time w = None ->
  Cache.visible (abs w) (now w) k = Some v -> stoul (value v) = Throw invalid_argument ->
  exists w', cmdProcessCommand input w = (Throw invalid_argument, w').
Proof.
  intros Hcmd input Hs Hk Hx Hok Hfl Hv Hval. unfold input.
  assert (token (lit cmd)) as Ht by (destruct Hcmd as [-> | ->]; decide_token).
  rewrite key_value_line_text, (word_dispatch (lit cmd) _ w w)
    by first [by rewrite <- key_value_line_text | by apply no_flush_pending | apply Ht].
  rewrite <- key_value_line_text.
  assert (exists combine, dispatch (lit cmd) (key_value_line (lit cmd) k (to_string x) nr ++ CRLF) w =
    process_arith combine (key_value_line (lit cmd) k (to_string x) nr ++ CRLF) w) as [combine ->]
    by (destruct Hcmd as [-> | ->]; eexists; reflexivity).
  by apply (arith_not_a_number (W := World) (Laws := World_Laws) combine m w (lit cmd) k x nr v).
Qed.

(** [touch] gives a visible item a new expiry and a new cas unique and keeps its value and its
    flags. *)
Lemma touch_moves_expiry m (w : World) k x nr v :
  let input := key_value_line (lit "touch") k (to_string x) nr ++ CRLF in
  small input -> token k -> 0 <= x < UINT_MOD -> ready_for (S (S m)) w -> flush_time w = None ->
  Cache.visible (abs w) (now w) k = Some v -> roomy w k (flags v) (value v) ->
  exists w' newCas t, now w <= t /\
    cmdProcessCommand input w = (Ret (0, reply nr (line "TOUCHED")), w') /\ ready_for m w'
    /\ Cache.ceq (abs w') (joined (abs w) k v (ulong (t + x)) (value v) newCas).
Proof.
  intros input Hs Hk Hx Hok Hfl Hv Hro. unfold input.
  rewrite key_value_line_text, (word_dispatch (lit "touch") _ w w)
    by first [by rewrite <- key_value_line_text | by apply no_flush_pending | decide_token].
  rewrite <- key_value_line_text. change (dispatch (lit "touch") ?i) with (cmdProcessTouch i).
  by apply (touch_spec (W := World) (Laws := World_Laws) m w k x nr v).
Qed.

(** After [flush_all 0] a [get] of any key answers END only. *)
Lemma flush_all_hides m (w : World) k nr :
  let input := key_line (lit "flush_all") (to_string 0) nr ++ CRLF in
  small (keys_line (lit "get") [k] ++ CRLF) -> token k -> ready_for (4 + m) w ->
  exists w' w'',
    cmdProcessCommand input w = (Ret (0, reply nr (line "OK")), w')
    /\ cmdProcessCommand (keys_line (lit "get") [k] ++ CRLF) w' = (Ret (0, line "END"), w'')
    /\ ready_for m w''.
Proof. exact (flush_then_get (W := World) (Laws := World_Laws) m w k nr). Qed.

(** C39. A key that was stored before a flush does not come back: a later [set] of it is answered
    with STORED, and the key stays invisible at every time. *)
Theorem set_after_flush_invisible m (w : World) k f e ev data nr old :
  let input := storage_line (lit "set") k f e (to_string (size data)) nr ++ CRLF ++ data ++ CRLF in
  small input -> token k -> token f -> token e -> stoul e = Ret ev -> ev <= EXPIRY_THRESHOLD ->
  ready_for (S (S m)) w -> roomy w k f data -> abs w k = Some (old, true) ->
  exists w', cmdProcessCommand input w = (Ret (0, reply nr (line "STORED")), w')
    /\ ready_for m w' /\ forall t, Cache.visible (abs w') t k = None.
Proof.
  intros input Hs Hk Hf He Hev Hth Hok Hro Hold.
  apply (set_after_flush_hidden (W := World) (Laws := World_Laws) m w k f e ev data nr old); try done.
  unfold flushed, Cache.flush_next. cbn [db_abs World_Laws]. destruct (due _ _); by rewrite Hold.
Qed.

(** While the data block is not complete, [set] asks for exactly the characters that are
    missing, the end of line included, stores nothing and writes no reply. *)
Lemma set_asks_for_rest m (w : World) k f e ev n body nr :
  let input := storage_line (lit "set") k f e (to_string n) nr ++ CRLF ++ body in
  small input -> token k -> token f -> token e -> stoul e = Ret ev -> ev <= EXPIRY_THRESHOLD ->
  size body < n -> n + 2 < 2 ^ 31 -> ready_for (S m) w ->
  exists w', cmdProcessCommand input w = (Ret (n + 2 - size body, []), w')
    /\ Cache.ceq (abs w') (flushed w).
Proof.
  intros input Hs Hk Hf He Hev Hth Hb Hn Hok. unfold input.
  destruct (handle_flush (W := World) (Laws := World_Laws) m w Hok) as (w1 & Hfl & _ & _ & Ha1 & _).
  rewrite (storage_dispatch (lit "set") k f e _ nr body w w1 Hfl) by (done || decide_token).
  change (dispatch (lit "set") ?i) with (cmdProcessSet i).
  rewrite (set_incomplete (W := World) w1 k f e ev n body nr Hs Hk Hf He Hev Hth Hb Hn). eauto.
Qed.

(** A line whose first word names no command is answered with ERROR, and nothing changes but
    a flush that is due. *)
Lemma unknown_command_error m (w : World) cmd t :
  small (cmd ++ SP :: t) -> SP ∉ cmd -> cmd ∉ command_words -> ready_for (S m) w ->
  exists w', cmdProcessCommand (cmd ++ SP :: t) w = (Ret (0, line "ERROR"), w')
    /\ Cache.ceq (abs w') (flushed w).
Proof.
  intros Hs Hc Hno Hok.
  destruct (handle_flush (W := World) (Laws := World_Laws) m w Hok) as (w1 & Hfl & _ & _ & Ha1 & _).
  rewrite (word_dispatch cmd t w w1 Hs Hc Hfl), dispatch_unknown by done. eauto.
Qed.

(** A command of one word (stats, version, quit, flush_all) is recognised on a 32-bit machine;
    on a 64-bit machine every such line is answered with ERROR, since the position is compared
    with [npos] after it was cut to 32 bits. *)
Lemma one_word_commands m (w : World) cmd :
  token cmd -> small (cmd ++ CRLF) -> ready_for (S m) w ->
  exists w1, op_handle_flush w = (Ret tt, w1) /\
    cmdProcessCommand (cmd ++ CRLF) w =
    if long_bits =? 32 then dispatch cmd (cmd ++ CRLF) w1 else (Ret (0, line "ERROR"), w1).
Proof.
  intros Ht Hs Hok.
  destruct (handle_flush (W := World) (Laws := World_Laws) m w Hok) as (w1 & Hfl & _).
  exists w1. split; [exact Hfl|]. rewrite cmdProcessCommand_bare by done. rewrite (bind_Ret _ _ _ _ _ Hfl).
  destruct (long_bits =? 32); [done|]. apply dispatch_unknown.
  intros Hin%command_words_no_cr. apply Hin. set_solver.
Qed.

(** The reply to [stats] is END alone: every part of the text replaces the one before. *)
Lemma stats_only_end (w : World) :
  cmdProcessStats (lit "stats" ++ CRLF) w = (Ret (0, line "END"), tick w).
Proof. reflexivity. Qed.

(** On every line with an end of line the key loop of [get] ends, and reads at least one key:
    no position leaves the line. *)
Lemma get_line_total (withCas : bool) (w : World) input :
  small input -> find_endl input 0 < UINT_MOD - 1 ->
  exists keys, process_get withCas input w =
    (if missing (find_sp input 0) (find_endl input 0) then ret (0, line "CLIENT_ERROR no key found")
     else let* output := answer_keys withCas keys [] in ret (0, output ++ line "END")) w.
Proof.
  intros Hs Hen. unfold process_get. pose proof (size_nonneg input) as Hsz.
  destruct (missing (find_sp input 0) (find_endl input 0)) eqn:Hm; [by exists []|].
  assert (0 <= find_endl input 0) as Hen0 by apply u32_range.
  destruct (find_sp_bounds input 0 Hs) as [Hsp|Hsp]; [lia| |].
  { rewrite missing_true in Hm by lia. done. }
  destruct (read_keys_total (S (List.length input)) input (find_sp input 0) (find_endl input 0) [])
    as (ks & Hk & _); [done|lia|lia|unfold size in *; lia|].
  exists ks. rewrite Hk. reflexivity.
Qed.
End Statements.

(** ** The statements at concrete states *)

#[local] Existing Instance ILP32.
#[local] Existing Instance demo_env.
#[local] Existing Instance demo_calm.
#[local] Opaque demo_stored.

(** Side conditions on closed lines. *)
Ltac closed_line :=
  first [ decide_token | (vm_compute; reflexivity) | (vm_compute; intros [=]; fail) ].

Definition demo_set (k e data : string) : cstring :=
  storage_line (lit "set") (lit k) (lit "7") (lit e) (to_string (size (lit data))) false
  ++ CRLF ++ lit data ++ CRLF.

Lemma set_stores_witness :
  exists w' newCas t,
    cmdProcessCommand (demo_set "k" "60" "hello") demo_world = (Ret (0, line "STORED"), w')
    /\ ready_for 3 w' /\ now demo_world <= t <= now w'
    /\ Cache.ceq (abs w') (Cache.insert_next (flushed demo_world) t (lit "k") (lit "7") [] (lit "hello") newCas 60)
    /\ flush_time w' = pending demo_world.
Proof.
  apply (set_stores 3 demo_world (lit "k") (lit "7") (lit "60") 60 (lit "hello") false);
    [closed_line..|by apply demo_world_ready|by apply demo_roomy].
Defined.

Lemma add_stores_invisible_witness :
  exists w' newCas t,
    cmdProcessCommand (storage_line (lit "add") (lit "k") (lit "7") (lit "60") (to_string 5) false
                       ++ CRLF ++ lit "hello" ++ CRLF) demo_world =
      (Ret (0, match Cache.visible (flushed demo_world) t (lit "k") with
               | Some _ => line "NOT_STORED" | None => line "STORED" end), w')
    /\ ready_for 3 w' /\ now demo_world <= t <= now w'
    /\ Cache.ceq (abs w') (Cache.add_next (flushed demo_world) t (lit "k") (lit "7") (lit "hello") newCas 60)
    /\ flush_time w' = pending demo_world.
Proof.
  apply (add_stores_invisible 3 demo_world (lit "k") (lit "7") (lit "60") 60 (lit "hello") false);
    [closed_line..|by apply demo_world_ready|by apply demo_roomy].
Defined.



Lemma delete_removes_witness :
  exists w' t, now demo_world <= t /\
    cmdProcessCommand (lit "delete key noreply" ++ CRLF) demo_world = (Ret (0, []), w')
    /\ ready_for 1 w' /\ Cache.ceq (abs w') (Cache.delete_next (flushed demo_world) t (lit "key") 0).
Proof.
  apply (delete_removes 1 demo_world (lit "key") true); [closed_line|closed_line|by apply demo_world_ready].
Defined.

Lemma replace_only_visible_witness :
  exists w',
    cmdProcessCommand (storage_line (lit "replace") (lit "k") (lit "7") (lit "60") (to_string 5) false
                       ++ CRLF ++ lit "hello" ++ CRLF) demo_world = (Ret (0, line "NOT_STORED"), w')
    /\ ready_for 4 w'
    /\ (forall t k', now demo_world <= t -> Cache.visible (abs w') t k' = Cache.visible (abs demo_world) t k').
Proof.
  apply (replace_only_visible 3 demo_world (lit "k") (lit "7") (lit "60") 60 (lit "hello") false);
    [closed_line..|by apply demo_world_ready|by apply demo_roomy|reflexivity].
Defined.

(** The state with one item, as the theorems use it. *)
Lemma demo_facts v n : size v <= 100 -> Z.of_nat n < 4294967290 ->
  exists nc, ready_for n (demo_stored v) /\ flush_time (demo_stored v) = None
    /\ Cache.visible (abs (demo_stored v)) (now (demo_stored v)) demo_key
       = Some (mkValue ULONG_MAX v (lit "0") nc)
    /\ abs (demo_stored v) demo_key = Some (mkValue ULONG_MAX v (lit "0") nc, false).
Proof.
  intros Hv Hn. destruct (demo_item v Hv) as [nc Hi]. exists nc.
  split; [by apply demo_stored_for|]. split; [by apply demo_stored_flush|]. split; [|exact Hi].
  unfold Cache.visible. by rewrite Hi.
Qed.

Lemma append_prepend_extend_witness :
  exists w' newCas d nc, 0 <= d /\
    cmdProcessCommand (lit "append key 0 0 2" ++ CRLF ++ lit "xy" ++ CRLF) (demo_stored (lit "v"))
      = (Ret (0, line "STORED"), w') /\ ready_for 1 w'
    /\ Cache.ceq (abs w') (joined (abs (demo_stored (lit "v"))) demo_key (mkValue ULONG_MAX (lit "v") (lit "0") nc)
         (ulong (ULONG_MAX + d)) (lit "vxy") newCas).
Proof.
  destruct (demo_facts (lit "v") 3) as (nc & Hr & Hf & Hv & Hi); [done|done|].
  pose proof (demo_stored_roomy demo_key (lit "0") (lit "vxy") ltac:(done)) as Hro.
  revert Hr Hf Hv Hi Hro. generalize (demo_stored (lit "v")). intros w Hr Hf Hv Hi Hro.
  destruct (append_prepend_extend false 1 w demo_key (lit "0") (lit "0") 0 (lit "xy") false (mkValue ULONG_MAX (lit "v") (lit "0") nc))
    as (w' & nc' & d & H); [first [assumption | closed_line | done]..|].
  exists w', nc', d, nc. exact H.
Defined.

Lemma incr_decr_compute_witness :
  exists w' newCas d nc, 0 <= d /\
    cmdProcessCommand (lit "incr key 1" ++ CRLF) (demo_stored (lit "41")) = (Ret (0, line "42"), w') /\ ready_for 1 w'
    /\ Cache.ceq (abs w') (joined (abs (demo_stored (lit "41"))) demo_key (mkValue ULONG_MAX (lit "41") (lit "0") nc)
         (ulong (ULONG_MAX + d)) (lit "42") newCas).
Proof.
  destruct (demo_facts (lit "41") 3) as (nc & Hr & Hf & Hv & Hi); [done|done|].
  pose proof (demo_number_roomy demo_key (lit "0") (lit "42") ltac:(done)) as Hro.
  revert Hr Hf Hv Hi Hro. generalize (demo_stored (lit "41")). intros w Hr Hf Hv Hi Hro.
  destruct (incr_decr_compute true 1 w demo_key 41 1 false (mkValue ULONG_MAX (lit "41") (lit "0") nc))
    as (w' & nc' & d & H); [first [assumption | closed_line | done]..|].
  exists w', nc', d, nc. exact H.
Defined.

Lemma arith_text_value_throws_witness :
  exists w', cmdProcessCommand (lit "incr key 1" ++ CRLF) (demo_stored (lit "v")) = (Throw invalid_argument, w').
Proof.
  destruct (demo_facts (lit "v") 2) as (nc & Hr & Hf & Hv & Hi); [done|done|].
  revert Hr Hf Hv Hi. generalize (demo_stored (lit "v")). intros w Hr Hf Hv Hi.
  destruct (arith_text_value_throws "incr" 1 w demo_key 1 false (mkValue ULONG_MAX (lit "v") (lit "0") nc))
    as (w' & H); [by left|first [assumption | closed_line | done]..|].
  exists w'. exact H.
Defined.

Lemma touch_moves_expiry_witness :
  exists w' newCas t nc, now (demo_stored (lit "v")) <= t /\
    cmdProcessCommand (lit "touch key 99" ++ CRLF) (demo_stored (lit "v")) = (Ret (0, line "TOUCHED"), w') /\ ready_for 1 w'
    /\ Cache.ceq (abs w') (joined (abs (demo_stored (lit "v"))) demo_key (mkValue ULONG_MAX (lit "v") (lit "0") nc) (ulong (t + 99)) (lit "v") newCas).
Proof.
  destruct (demo_facts (lit "v") 3) as (nc & Hr & Hf & Hv & Hi); [done|done|].
  pose proof (demo_stored_roomy demo_key (lit "0") (lit "v") ltac:(done)) as Hro.
  revert Hr Hf Hv Hi Hro. generalize (demo_stored (lit "v")). intros w Hr Hf Hv Hi Hro.
  destruct (touch_moves_expiry 1 w demo_key 99 false (mkValue ULONG_MAX (lit "v") (lit "0") nc))
    as (w' & nc' & d & H); [first [assumption | closed_line | done]..|].
  exists w', nc', d, nc. exact H.
Defined.

Lemma cas_compares_witness :
  exists w' newCas,
    cmdProcessCommand (lit "cas key 0 0 2 999" ++ CRLF ++ lit "xy" ++ CRLF) (demo_stored (lit "v"))
      = (Ret (0, cas_reply (Cache.insert_result (abs (demo_stored (lit "v"))) demo_key (lit "999"))), w')
    /\ ready_for 1 w'
    /\ Cache.ceq (abs w') (Cache.insert_next (abs (demo_stored (lit "v"))) (now (demo_stored (lit "v")))
         demo_key (lit "0") (lit "999") (lit "xy") newCas 0).
Proof.
  destruct (demo_facts (lit "v") 2) as (nc & Hr & Hf & Hv & Hi); [done|done|].
  pose proof (demo_stored_roomy demo_key (lit "0") (lit "xy") ltac:(done)) as Hro.
  revert Hr Hf Hv Hi Hro. generalize (demo_stored (lit "v")). intros w Hr Hf Hv Hi Hro.
  destruct (cas_compares 1 w demo_key (lit "0") (lit "0") 0 (lit "xy") (lit "999") false) as (w' & nc' & H); [first [assumption | closed_line | done]..|].
  exists w', nc'. exact H.
Defined.

Lemma set_after_flush_invisible_witness :
  exists w', cmdProcessCommand (demo_set "key" "0" "new") (flush_now (demo_stored (lit "v")))
      = (Ret (0, line "STORED"), w')
    /\ ready_for 1 w' /\ forall t, Cache.visible (abs w') t demo_key = None.
Proof.
  destruct (demo_facts (lit "v") 3) as (nc & Hr & Hf & Hv & Hi); [done|done|].
  pose proof (demo_stored_roomy demo_key (lit "7") (lit "new") ltac:(done)) as Hro.
  revert Hr Hf Hv Hi Hro. generalize (demo_stored (lit "v")). intros w Hr Hf Hv Hi Hro.
  pose proof (flush_now_ready 3 w Hr) as Hr2.
  assert (abs (flush_now w) demo_key = Some (mkValue ULONG_MAX (lit "v") (lit "0") nc, true)) as Hold
    by (eapply flush_now_hides; [apply Hr|exact Hi]).
  apply (set_after_flush_invisible 1 (flush_now w) demo_key (lit "7") (lit "0") 0 (lit "new") false
    (mkValue ULONG_MAX (lit "v") (lit "0") nc)); first [assumption | closed_line | done].
Defined.

Lemma flush_all_hides_witness :
  exists w' w'',
    cmdProcessCommand (lit "flush_all 0" ++ CRLF) (demo_stored (lit "v")) = (Ret (0, line "OK"), w')
    /\ cmdProcessCommand (lit "get key" ++ CRLF) w' = (Ret (0, line "END"), w'') /\ ready_for 1 w''.
Proof.
  apply (flush_all_hides 1 (demo_stored (lit "v")) demo_key false); [closed_line|closed_line|].
  by apply demo_stored_for.
Defined.

Lemma set_asks_for_rest_witness :
  exists w', cmdProcessCommand (lit "set k 7 60 5" ++ CRLF ++ lit "he") demo_world = (Ret (5, []), w')
    /\ Cache.ceq (abs w') (flushed demo_world).
Proof.
  apply (set_asks_for_rest 1 demo_world (lit "k") (lit "7") (lit "60") 60 5 (lit "he") false);
    [closed_line..|by apply demo_world_ready].
Defined.

Lemma unknown_command_example :
  exists w', cmdProcessCommand (lit "fetch key" ++ CRLF) demo_world = (Ret (0, line "ERROR"), w')
    /\ Cache.ceq (abs w') (flushed demo_world).
Proof.
  apply (unknown_command_error 1 demo_world (lit "fetch") (lit "key" ++ CRLF));
    [closed_line..|by apply demo_world_ready].
Defined.

Lemma one_word_commands_witness :
  exists w1, op_handle_flush demo_world = (Ret tt, w1)
    /\ cmdProcessCommand (lit "version" ++ CRLF) demo_world = (Ret (0, VERSION_STRING), w1).
Proof.
  destruct (one_word_commands 1 demo_world (lit "version")) as (w1 & Hf & Hr);
    [closed_line|closed_line|by apply demo_world_ready|]. exists w1. split; [exact Hf|].
  rewrite Hr. reflexivity.
Defined.

Lemma get_line_total_witness :
  exists keys, process_get false (lit "get  a b" ++ CRLF) demo_world =
    (let* output := answer_keys false keys [] in ret (0, output ++ line "END")) demo_world.
Proof.
  destruct (get_line_total false demo_world (lit "get  a b" ++ CRLF)) as (keys & Hk); [closed_line..|].
  exists keys. rewrite Hk. reflexivity.
Defined.
