(* ===== verification/TheoremsSock.v ===== *)
(** * Theorems about connections, threads and the command line

    A whole session over a socket, the framing of the stream, the thread pool, the [select]
    loop and the options of [main]. The connection theorems are for the 32-bit data model. *)

From stdpp Require Import base list gmap strings.
From Stdlib Require Import ZArith Lia Ascii String.
From S2P Require Import Prelude CxxString MersenneTwister DbLru DbLruInv DbLruRefine.
From S2P Require Import DbLruRefine Commands CommandsParse CommandsSpec CommandsGet.
From S2P Require Import CommandsGet Connection ConnectionSpec ThreadPool.
From S2P Require Import SocketMain Main Demo.

Section Connections.
#[local] Existing Instance ILP32.
Context {E : Env} {CE : @CalmEnv ILP32 E}.

(** The requests of a session that stores a key and reads it back. *)
Definition set_request (k f data : cstring) : Request :=
  mkReq (storage_line (lit "set") k f (lit "0") (to_string (size data)) false) (Some data).
Definition get_request (k : cstring) : Request := mkReq (keys_line (lit "get") [k]) None.

(** Both are lines as the framing expects them. *)
Lemma session_good k f data : token k -> token f -> CR ∉ data ->
  Forall good_request [set_request k f data; get_request k].
Proof.
  intros [Hk1 Hk2] [Hf1 Hf2] Hd.
  assert (CR ∉ to_string (size data)) as Hn by (apply to_string_token, size_nonneg).
  assert ((CR ∉ lit "set") /\ (CR ∉ lit "get") /\ (CR ∉ lit "0") /\ CR <> SP) as (H1 & H2 & H3 & H4).
  { split; [|split; [|split]]; apply (bool_decide_unpack _); vm_compute; reflexivity. }
  repeat constructor; cbn [req_line req_data set_request get_request].
  - unfold storage_line. autorewrite with cxx. pose proof (size_nonneg k). pose proof (size_nonneg f).
    pose proof (size_nonneg (to_string (size data))). pose proof (size_nonneg (nr_text false)).
    change (size (lit "set")) with 3. change (size (lit "0")) with 1. lia.
  - unfold storage_line. cbn [nr_text]. rewrite !not_elem_of_app. set_solver.
  - exact Hd.
  - unfold keys_line. cbn [List.map List.concat]. autorewrite with cxx. pose proof (size_nonneg k).
    change (size (lit "get")) with 3. lia.
  - unfold keys_line. cbn [List.map List.concat]. rewrite !not_elem_of_app. set_solver.
Qed.

(** The whole path: a client that stores a value under a new key and reads it back, over a
    connection whose bytes arrive in any pieces, receives STORED and then the VALUE block with its
    own flags and data; the connection then closes. *)
Lemma session_round_trip (w : World) k f data chunks :
  let rs := [set_request k f data; get_request k] in
  token k -> token f -> CR ∉ data -> data <> [] -> size (texts rs) < 2 ^ 29 ->
  Forall (fun b => b <> []) chunks -> List.concat chunks = texts rs ->
  ready_for 4 w -> roomy w k f data -> abs w k = None -> flush_time w = None ->
  exists w' c, sockHandleIncomingConn (stream chunks) w = (Ret (ConnClosed, c), w') /\
    sent c = [line "STORED";
              lit "VALUE " ++ k ++ [SP] ++ f ++ [SP] ++ to_string (size data) ++ CRLF
              ++ data ++ CRLF ++ line "END"].
Proof.
  intros rs Hk Hf Hd Hne Hsz Hch Htx Hok Hro Hno Hfl.
  assert (size data + 2 < 2 ^ 29 /\ small (storage_line (lit "set") k f (lit "0") (to_string (size data)) false
    ++ CRLF ++ data ++ CRLF) /\ small (storage_line (lit "set") k f (lit "0") (to_string (size data)) false
    ++ CRLF ++ [])) as (Hd2 & Hs1 & Hs2).
  { unfold rs in Hsz. rewrite texts_cons, size_app in Hsz. unfold text, set_request in Hsz.
    cbn [req_line req_data] in Hsz. unfold small. autorewrite with cxx in *.
    change (2 ^ 29) with 536870912 in *. unfold UINT_MOD. pose proof (size_nonneg data).
    pose proof (size_nonneg (texts [get_request k])).
    pose proof (size_nonneg (storage_line (lit "set") k f (lit "0") (to_string (size data)) false)). lia. }
  assert (0 < size data) as Hpos by (destruct data; [done|rewrite size_cons; pose proof (size_nonneg data); lia]).
  assert (token (lit "0")) as Hz by decide_token. assert (stoul (lit "0") = Ret 0) as Hst by reflexivity.
  destruct (set_then_get (W := World) (Laws := World_Laws) 0 w k f (lit "0") 0 data false Hs1 Hk Hf Hz Hst
    ltac:(done) Hok Hro Hno Hfl) as (w' & w'' & t0 & t & Hset & Hget & _).
  destruct (connection_serves cmdProcessCommand rs chunks w
    [line "STORED"; lit "VALUE " ++ k ++ [SP] ++ f ++ [SP] ++ to_string (size data) ++ CRLF
              ++ data ++ CRLF ++ line "END"] w'') as (c & Hrun & Hsent);
    [by apply session_good|done|done|done| |by exists w'', c].
  assert (op_handle_flush w = (Ret tt, w)) as Hnf.
  { change (op_handle_flush w) with (dbHandleFlushAll w). rewrite dbHandleFlushAll_run.
    unfold flush_time in Hfl. by destruct (gIsFlushAllSet w). }
  eapply served_data; [|exact Hset|eapply served_line; [exact Hget|constructor]].
  pose proof (storage_dispatch (lit "set") k f (lit "0") (to_string (size data)) false [] w w Hnf Hs2
    ltac:(decide_token)) as Hdis.
  rewrite app_nil_r in Hdis. rewrite Hdis.
  change (dispatch (lit "set") ?i) with (cmdProcessSet i).
  pose proof (set_incomplete (W := World) w k f (lit "0") 0 (size data) [] false Hs2 Hk Hf Hz Hst
    ltac:(done)) as Hinc.
  rewrite app_nil_r, size_nil, Z.sub_0_r in Hinc. apply Hinc; [lia|].
  change (2 ^ 31) with 2147483648. change (2 ^ 29) with 536870912 in *. lia.
Qed.

(** C20. A stream of requests is served in order, each request once, however the network cuts it:
    a line goes to the command processor when it is complete, a storage command a second time with
    its data block; the replies are sent in the order of the requests. *)
Theorem connection_serves_requests (w w' : World) rs chunks outs :
  Forall good_request rs -> Forall (fun b => b <> []) chunks -> List.concat chunks = texts rs ->
  size (texts rs) < 2 ^ 29 -> served cmdProcessCommand rs w outs w' ->
  exists c, sockHandleIncomingConn (stream chunks) w = (Ret (ConnClosed, c), w') /\ sent c = outs.
Proof. exact (connection_serves cmdProcessCommand rs chunks w outs w'). Qed.

End Connections.

(** ** Threads *)

(** C26. In every interleaving of the workers and the main thread, descriptors are served first
    come, first served and exactly once: what was handed to the pool is what the workers took
    followed by what is still in the list. The counter of active threads is the number of workers
    that serve a connection, so it never exceeds the pool; a worker that has locked
    [sockDescMutex] finds a descriptor in the list, so that the branch that would leave the mutex
    locked never runs; and each of the two mutexes is held by at most one thread. *)
Theorem worker_pool_safe n p :
  reachable n p ->
  handed p = taken p ++ sockDescServiceList p
  /\ numberActiveThreads p = count_active (workers p)
  /\ 0 <= numberActiveThreads p <= Z.of_nat n
  /\ (forall i pc, workers p !! i = Some pc ->
        (pc = WInside -> sockDescServiceList p <> [])
        /\ (holds_notify pc = true -> forall j pcj, workers p !! j = Some pcj -> holds_notify pcj = true -> i = j)
        /\ (holds_desc pc = true -> main_holds_desc (main p) = false)).
Proof.
  intros Hr. pose proof (reachable_inv n p Hr) as [_ _ _ _ Ha Ho _]. split; [done|]. split; [done|]. split.
  - rewrite Ha. unfold count_active. rewrite <- (reachable_workers n p Hr).
    pose proof (List.filter_length_le is_active (workers p)). lia.
  - intros i pc Hi. split; [intros ->; by eapply inside_not_empty|].
    split; [intros Hh j pcj Hj Hhj; by eapply notify_exclusive|by eapply desc_exclusive].
Qed.

(** C27. A worker that has seen a descriptor makes progress on its own: while the main thread is not
    at the list, five steps of it take the first descriptor, free both mutexes and serve it. *)
Theorem worker_serves_first n p i fd rest :
  reachable n p -> workers p !! i = Some WLockDesc -> main_holds_desc (main p) = false ->
  sockDescServiceList p = fd :: rest ->
  exists p', perform_all (replicate 5 (AWorker i)) p = Some p' /\ workers p' !! i = Some (WServe fd)
    /\ sockDescServiceList p' = rest /\ sockDescMutex p' = None /\ threadNotifyMutex p' = None
    /\ taken p' = taken p ++ [fd].
Proof. apply takes_first. Qed.

(** A wake-up can be lost: there is an interleaving after which a descriptor is in the list, the
    main thread has notified and gone on, and every worker is blocked, since the notification is
    sent without [threadNotifyMutex]. *)
Lemma wakeup_can_be_lost :
  exists p, reachable 1 p /\ sockDescServiceList p <> [] /\ main p = MIdle
    /\ (forall i, worker_step i p = None) /\ (forall waiter, main_step waiter p = None).
Proof.
  eexists. split; [eapply reachable_all; [apply reach_init|apply lost_wakeup_run]|].
  split; [done|]. split; [done|]. split; [|done]. by intros [|[|i]].
Qed.

(** ** The main thread *)

(** One round of the [select] loop: every readable connection is handed to the pool once, in
    ascending order, and leaves the set; the listening socket stays in it; new connections are
    added unless all threads are busy; [max_sd] is the largest descriptor of the set again. *)
Lemma select_round threads listen_sd ready acc v :
  server_inv listen_sd v -> ready ⊆ master_set v ->
  Forall (fun x => 0 <= x.1 < FD_SETSIZE) (accepted acc) ->
  (forall fd, fd ∈ kept_fds threads (accepted acc) -> fd ∉ ready) ->
  exists v', scan threads scan_fuel listen_sd ready acc 0 (Z.of_nat (base.size ready)) false v
      = (Ret (bool_decide (listen_sd ∈ ready) && accept_failed acc), v')
    /\ server_inv listen_sd v'
    /\ service_list v' = service_list v ++ to_hand listen_sd ready 0 scan_fuel
    /\ after_round listen_sd ready (kept_fds threads (accepted acc)) (master_set v) (master_set v').
Proof.
  intros Hv Hsub Hacc Hdis. assert (from 0 ready = ready) as Hfrom.
  { apply set_eq. intros x. unfold from. rewrite elem_of_filter. split; [by intros [_ ?]|].
    intros Hx. split; [|done]. by apply (si_range listen_sd v Hv x), Hsub. }
  pose proof (scan_spec threads listen_sd ready acc scan_fuel 0 false v) as Hscan. rewrite Hfrom in Hscan.
  apply Hscan; try done.
Qed.

(** [main] reads [-t] and [-p] with their numbers in any order and number and starts the server
    with the last value given for each. *)
Lemma options_applied xs :
  Forall (fun x => 0 <= option_value x <= 2147483647) xs -> Z.of_nat (List.length (option_line xs)) < 65535 ->
  main_run (S (List.length xs)) (lit "memstashed" :: option_line xs) =
  Ret (RunServer (fold_left apply_option xs default_options)).
Proof.
  intros Hv Hl. unfold main_run. destruct xs as [|x xs]; [done|].
  rewrite (proj2 (Nat.eqb_neq _ _)) by (destruct x; cbn; lia).
  apply (parse_known_all (x :: xs) _ _ [lit "memstashed"]); [done|cbn [List.length] in *; lia|done|lia].
Qed.

(** An option that [main] does not know makes it loop for ever: no number of rounds ends. *)
Lemma unknown_option_never_ends arg rest fuel :
  unknown_option arg -> main_run fuel (lit "memstashed" :: arg :: rest) = Stuck OutOfFuel.
Proof. intros Hu. by apply (unknown_loops _ _ 1 arg). Qed.

(** [-p] as the last argument hands the null pointer to [atoi]. *)
Example port_without_number : main_run 5 [lit "memstashed"; lit "-p"] = Stuck Undefined.
Proof. reflexivity. Qed.

(** ** Sessions that lose their place *)

#[local] Existing Instance ILP32.
#[local] Existing Instance demo_env.
#[local] Existing Instance demo_calm.

(** What the client receives in a session. *)
Definition replies (chunks : list cstring) : option (list cstring) :=
  match fst (sockHandleIncomingConn (stream chunks) demo_world) with
  | Ret (ConnClosed, c) => Some (sent c)
  | _ => None
  end.


(** The short form of [append] skips the first digit of the length: 12 is read as 2. *)
Example append_short_form :
  replies [lit "set k 0 0 2" ++ CRLF ++ lit "ab" ++ CRLF; lit "append k 12" ++ CRLF ++ lit "cd" ++ CRLF;
           lit "get k" ++ CRLF]
    = Some [line "STORED"; line "STORED"; lit "VALUE k 0 4" ++ CRLF ++ lit "abcd" ++ CRLF ++ line "END"].
Proof. vm_compute. reflexivity. Qed.

(** ** The statements at concrete inputs *)

Lemma session_round_trip_witness :
  exists w' c,
    sockHandleIncomingConn (stream [lit "set k 7 0 5" ++ CRLF ++ lit "he"; lit "llo" ++ CRLF ++ lit "ge";
                                    lit "t k" ++ CRLF]) demo_world = (Ret (ConnClosed, c), w')
    /\ sent c = [line "STORED"; lit "VALUE k 7 5" ++ CRLF ++ lit "hello" ++ CRLF ++ line "END"].
Proof.
  apply (session_round_trip demo_world (lit "k") (lit "7") (lit "hello")
    [lit "set k 7 0 5" ++ CRLF ++ lit "he"; lit "llo" ++ CRLF ++ lit "ge"; lit "t k" ++ CRLF]);
    [decide_token|decide_token|decide_token|done|vm_compute; reflexivity|repeat constructor; done
    |vm_compute; reflexivity|by apply demo_world_ready|by apply demo_roomy|reflexivity|reflexivity].
Defined.

Lemma connection_serves_requests_witness :
  exists c, sockHandleIncomingConn (stream [lit "vers"; lit "ion" ++ CRLF ++ lit "verbosity 1" ++ CRLF]) demo_world
      = (Ret (ConnClosed, c), demo_world)
    /\ sent c = [line "VERSION 1.0"; line "OK"].
Proof.
  apply (connection_serves_requests demo_world demo_world
    [mkReq (lit "version") None; mkReq (lit "verbosity 1") None]
    [lit "vers"; lit "ion" ++ CRLF ++ lit "verbosity 1" ++ CRLF]).
  - decide_token.
  - repeat constructor; done.
  - reflexivity.
  - vm_compute. reflexivity.
  - apply (served_line _ (lit "version") _ demo_world (line "VERSION 1.0") demo_world); [vm_compute; reflexivity|].
    apply (served_line _ (lit "verbosity 1") _ demo_world (line "OK") demo_world); [vm_compute; reflexivity|].
    constructor.
Defined.


(** A descriptor is handed over and the first worker is about to take it. *)
Definition demo_schedule : list action :=
  [AReady 5; AMain None; AMain None; AMain None; AMain None; AWorker 0; AWorker 0].
Definition demo_pool : Pool := mkPool [5] (Some 0%nat) None 0 [WLockDesc; WEnter] MIdle [5] [].

Lemma demo_pool_reachable : reachable 2 demo_pool.
Proof. apply (reachable_all 2 demo_schedule (initial_pool 2)); [apply reach_init|reflexivity]. Qed.

(** The first worker has locked [sockDescMutex] too. *)
Definition demo_inside : Pool := mkPool [5] (Some 0%nat) (Some (ByWorker 0)) 0 [WInside; WEnter] MIdle [5] [].

Lemma demo_inside_reachable : reachable 2 demo_inside.
Proof. by apply (reach_step 2 demo_pool (AWorker 0)); [apply demo_pool_reachable|]. Qed.

Lemma worker_pool_safe_witness :
  handed demo_inside = taken demo_inside ++ sockDescServiceList demo_inside
  /\ workers demo_inside !! 0%nat = Some WInside /\ sockDescServiceList demo_inside <> []
  /\ main_holds_desc (main demo_inside) = false.
Proof.
  destruct (worker_pool_safe 2 demo_inside demo_inside_reachable) as (H & _ & _ & Hw).
  destruct (Hw 0%nat WInside eq_refl) as (H1 & _ & H3). split; [exact H|].
  split; [reflexivity|]. split; [by apply H1|by apply H3].
Defined.

Lemma worker_serves_first_witness :
  exists p', perform_all (replicate 5 (AWorker 0)) demo_pool = Some p' /\ workers p' !! 0%nat = Some (WServe 5)
    /\ sockDescServiceList p' = [] /\ sockDescMutex p' = None /\ threadNotifyMutex p' = None
    /\ taken p' = taken demo_pool ++ [5].
Proof. apply (worker_serves_first 2 demo_pool 0 5 [] demo_pool_reachable); reflexivity. Defined.

Definition demo_server : Server := mkServer {[3; 5; 7]} 7 [] [].

Definition demo_ready : gset Z := {[3; 5]}.
Definition demo_accepts : accept_results := mkAccepts [(8, 0)] false.

Lemma select_round_witness :
  exists v', scan 100 scan_fuel 3 demo_ready demo_accepts 0 (Z.of_nat (base.size demo_ready)) false demo_server
      = (Ret (bool_decide (3 ∈ demo_ready) && accept_failed demo_accepts), v')
    /\ server_inv 3 v' /\ service_list v' = service_list demo_server ++ to_hand 3 demo_ready 0 scan_fuel
    /\ after_round 3 demo_ready (kept_fds 100 (accepted demo_accepts)) (master_set demo_server) (master_set v').
Proof.
  refine (select_round 100 3 demo_ready demo_accepts demo_server _ _ _ _); unfold demo_server, demo_ready.
  - split; cbn [master_set max_sd]; [set_solver| |set_solver|done].
    intros fd Hfd. assert (fd = 3 \/ fd = 5 \/ fd = 7) by set_solver. lia.
  - cbn [master_set]. set_solver.
  - repeat constructor; cbn; unfold FD_SETSIZE; lia.
  - intros fd Hfd. assert (fd = 8) as -> by (cbn in Hfd; set_solver). set_solver.
Defined.

Lemma options_applied_witness :
  main_run 3 [lit "memstashed"; lit "-t"; lit "4"; lit "-p"; lit "9000"] =
  Ret (RunServer (mkOptions 7000 9000 4)).
Proof.
  apply (options_applied [OptThreads 4; OptPort 9000]); [repeat constructor; cbn; lia|cbn; lia].
Defined.
