(* ===== verification/DemoClient.v ===== *)
(** * A concrete client

    The distribution of keys as the [KeyRouter] of the operations, and a client with two
    servers at which the theorems are applied: every request for memory granted, the clock at
    1000, a kernel that takes five bytes at a time. *)

From stdpp Require Import base list.
From Stdlib Require Import ZArith Lia Ascii String.
From S2P Require Import Prelude CxxString HashWords HashSmall HashKit HashkitString Rijndael Aes Continuum ClientTypes Distribution.
From S2P Require Import ClientString ClientState ClientRead ClientReadSpec ClientWrite ClientWriteSpec.
From S2P Require Import ClientWriteSpec ClientOps ClientGet ClientFrameOps ClientGetSpec TheoremsDist.

(** ** The distribution as the router of requests *)

Section Router.
Context `{DM : DataModel} `{HC : HashConfig} `{CF : ClientConfig} `{QS : Qsort} `{SH : SortHosts}.
Context (garbage : list Z) (client : Z -> KeyPtr -> Z -> outcome Z) (addr : Z) (behind : nat -> ascii).
Context (now : nat -> option Z) (random : nat -> Z) (granted : bool) (junk : nat -> memcached_continuum_item_st).

Definition distribution_router : KeyRouter := {|
  route := fun t m k => memcached_generate_hash_with_redistribution garbage client addr behind (now t) granted junk
             (now t) (random t) m (mkKeyPtr addr k behind);
|}.

(** Without automatic ejection and random choice, a key keeps its server from call to call. *)
Lemma router_stable m k n m' t0 :
  auto_eject_hosts (flags m) = false -> distribution m <> MEMCACHED_DISTRIBUTION_RANDOM -> 0 <= n ->
  @route distribution_router t0 m k = Ret (n, m') -> @routes_to distribution_router m k (Z.to_nat n).
Proof.
  intros Ha Hd Hn. unfold routes_to. cbn [route distribution_router].
  unfold memcached_generate_hash_with_redistribution, _regen_for_auto_eject. rewrite Ha. cbn [andb].
  destruct (_generate_hash_wrapper _ _ _ _ m _) as [h|?|?]; cbn [obind]; [|done|done].
  intros H t. rewrite Z2Nat.id by done. revert H. unfold dispatch_host.
  destruct (distribution m); try done; intros H; destruct (_ : outcome Z); cbn [obind] in *; congruence.
Qed.
End Router.

(** ** The client *)

Definition demo_memory : Allocator := {| grants := fun _ _ => true; content := fun _ i => i |}.
Definition demo_build : ClientConfig := {| NDEBUG := false |}.
Definition demo_clock : Clock := {| timeofday := fun _ => Some 1000 |}.
Definition demo_cipher : CipherConfig := {| FULL_UNROLL := false |}.
Definition no_binary_reader : BinaryReader :=
  {| binary_read_one_response := fun b _ x => ret (MEMCACHED_NOT_SUPPORTED, b, x) |}.
Definition no_transport : Transport :=
  {| open_connection := ret MEMCACHED_CONNECTION_FAILURE; _vdo_udp := fun _ => ret MEMCACHED_NOT_SUPPORTED |}.
Definition no_binary_requests : BinaryRequests := {|
  memcached_send_binary := fun _ _ _ _ => ret MEMCACHED_NOT_SUPPORTED;
  binary_delete := fun _ _ _ _ => ret MEMCACHED_NOT_SUPPORTED;
  binary_incr_decr := fun _ _ _ _ _ _ _ => ret MEMCACHED_NOT_SUPPORTED;
  binary_touch := fun _ _ _ => ret MEMCACHED_NOT_SUPPORTED;
  binary_mget_by_key := fun _ _ _ => ret MEMCACHED_NOT_SUPPORTED;
|}.
Definition no_poll : MultiPoll := {| poll_many := fun _ => None |}.

Definition demo_hash : HashConfig := {| HAVE_HSIEH_HASH := true; HAVE_FNV64_HASH := true; HAVE_MURMUR_HASH := true |}.
Definition demo_router : KeyRouter :=
  @distribution_router ILP32 demo_hash demo_build merge_items merge_hosts (replicate 64 0) (fun _ _ _ => Ret 0) 0
    (fun _ => zero) (fun _ => Some 1000) (fun _ => 7) true (fun _ => mkItem 0 0).

(** A client as [memcached_create] leaves it, with two servers and a prefix for its keys. *)
Definition demo_memc : Memcached :=
  let m := with_servers _memcached_init [mkInstance (lit "a") 11211 1 0; mkInstance (lit "b") 11211 1 0] in
  mkMemcached (flags m) (distribution m) (hashkit m) (servers m) (limits m) (ketama m) (virtual_bucket m) (lit "ns:").
Definition demo_root : Root := mkRoot demo_memc 0 false false [] new_Result 0 0 E_OK None.

(** An open connection over which these pieces will come. *)
Definition demo_inst (n : nat) (pieces : list cstring) : Inst :=
  mkInst n true (mkSocket (map RecvBytes pieces) (replicate 200 (SendUpTo 5)) [] [])
    (mkRead (replicate (Z.to_nat 8196) zero) 0 0 0) [] 0 0 MEMCACHED_SERVER_STATE_CONNECTED false 0 0 (255, 255, 255)
    0 (mkDial MEMCACHED_CONNECTION_TCP None [] []) [].

Lemma demo_text : @text_client ILP32 demo_root.
Proof. by split. Qed.

Lemma demo_ready n pieces s cap :
  Forall (fun b => b <> []) pieces -> s = List.concat pieces -> (cap <= 200)%nat ->
  ready demo_root (demo_inst n pieces) s cap.
Proof.
  intros Hne Hs Hcap. split; [split| | |].
  - done.
  - done.
  - split; [done|]. split; done.
  - done.
  - split; [|done]. apply Forall_replicate. lia.
  - done.
  - split; done.
  - exists pieces. split; [done|]. split; [done|]. by rewrite Hs.
Qed.
