(* ===== verification/TheoremsStats.v ===== *)
(** * Theorems about the statistics of servers *)

From stdpp Require Import base list.
From Stdlib Require Import ZArith Lia Ascii String.
From S2P Require Import Prelude CxxString HashWords HashKit HashkitString Rijndael Aes Continuum ClientTypes.
From S2P Require Import ClientString ClientState BinaryProtocol ClientRead ClientReadSpec ClientWrite ClientWriteSpec.
From S2P Require Import ClientWriteSpec ClientOps ClientBinaryOps ClientGet ClientBehavior ClientAdmin ClientStats ClientFrameOps ClientStatsSpec.
From S2P Require Import DemoClient.

Section Values.
Context `{DM : DataModel}.

(** A value as servers print it: a number that fits its member, a version that fits its array, two
    numbers with a point between them. *)
Definition canonical (k v : cstring) : Prop :=
  match number_stat k with
  | Some (_, width, _) => exists n, 0 <= n < 2 ^ width /\ v = to_string n
  | None =>
    (k = lit "pid" /\ exists n, 0 <= n <= INT32_MAX /\ v = to_string n)
    \/ (k = lit "version" /\ size v < MEMCACHED_VERSION_STRING_LENGTH /\ (zero ∉ v))
    \/ ((k = lit "rusage_user" \/ k = lit "rusage_system")
        /\ exists a b, 0 <= a < 2 ^ long_bits /\ 0 <= b < 2 ^ long_bits /\ v = rusage_text a b)
  end.

Lemma number_value bits n junk : 0 <= n < 2 ^ bits -> strtou bits (to_string n ++ zero :: junk) 0 = Ret (n, List.length (to_string n), false).
Proof. intros Hn. exact (strtou_to_string bits [] junk zero 0 n eq_refl Hn eq_refl). Qed.

Lemma number_fits bits width n : width <= bits -> 0 <= n < 2 ^ width -> 0 <= n < 2 ^ bits.
Proof. intros Hw Hn. pose proof (Z.pow_le_mono_r 2 width bits ltac:(lia) Hw). lia. Qed.

(** The widths of the table. *)
Lemma number_stat_width k bits width put : number_stat k = Some (bits, width, put) -> width <= bits.
Proof.
  unfold number_stat. cbv zeta. cbn [find fst].
  assert (long_bits <= 64) as Hl by (destruct long_bits_cases as [-> | ->]; lia).
  repeat (destruct (str_eqb _ k); [cbn; intros [= <- <- <-]; lia|]). done.
Qed.

Lemma pid_value n junk : 0 <= n <= INT32_MAX -> strtoll (to_string n ++ zero :: junk) 0 = Ret n.
Proof.
  intros Hn. unfold strtoll. pose proof (scan_to_string [] junk zero 0 n eq_refl ltac:(lia) eq_refl) as E.
  cbn [app] in E. rewrite E. cbn [obind].
  cbv beta zeta iota. unfold INT32_MAX, INT64_MAX in *. rewrite !(proj2 (Z.ltb_ge _ _)) by lia. done.
Qed.

Lemma digits_no_punct n : 0 <= n -> forallb (fun c => negb (ispunct c)) (to_string n) = true.
Proof.
  intros Hn. destruct (to_string_spec n Hn) as (_ & Hd & _). rewrite forallb_forall in *. intros c Hc%Hd.
  unfold ispunct. by rewrite Hc, andb_false_r.
Qed.

Lemma rusage_value put1 put2 a b junk s : 0 <= a < 2 ^ long_bits -> 0 <= b < 2 ^ long_bits ->
  set_rusage put1 put2 (rusage_text a b ++ zero :: junk) s = Ret (put2 b (put1 a s)).
Proof.
  intros Ha Hb. unfold set_rusage, rusage_text.
  assert ((to_string a ++ lit "." ++ to_string b) ++ zero :: junk = to_string a ++ "."%char :: to_string b ++ zero :: junk) as ->
    by (by rewrite <- !app_assoc).
  pose proof (skip_while_app (fun c => negb (ispunct c)) [] (to_string a) (to_string b ++ zero :: junk) "."%char 0 eq_refl
    (digits_no_punct a ltac:(lia)) eq_refl) as E. cbn [app Nat.add] in E. rewrite E. cbn [obind].
  rewrite poke_app by done. cbn [obind]. rewrite number_value by done. cbn [obind fst].
  replace (to_string a ++ zero :: to_string b ++ zero :: junk) with ((to_string a ++ [zero]) ++ to_string b ++ zero :: junk)
    by (by rewrite <- !app_assoc).
  rewrite (strtou_to_string long_bits (to_string a ++ [zero]) junk zero) by (done || (rewrite length_app; cbn; lia)). done.
Qed.

(** What [set_data] does with a value, and what can be read then. *)
Definition remembers (k v : cstring) (f : Stat -> Stat) : Prop :=
  (forall junk s, set_data k (v ++ zero :: junk) s = Ret (MEMCACHED_SUCCESS, f s))
  /\ (forall s, memcached_stat_get_value true (Some (f s)) k = Ret (MEMCACHED_SUCCESS, Some v))
  /\ (forall s k', k' ∈ memcached_stat_keys -> k' <> k ->
        memcached_stat_get_value true (Some (f s)) k' = memcached_stat_get_value true (Some s) k').

Lemma number_short n : 0 <= n < 2 ^ 64 -> size (to_string n) <= 20.
Proof. intros Hn. apply (to_string_size n 20); [|lia]. split; [lia|]. eapply Z.lt_trans; [apply Hn|done]. Qed.

(** A statement about each of the keys. *)
Ltac for_keys tac := unfold memcached_stat_keys; cbn [map]; repeat (apply Forall_cons_2; [tac|]); apply Forall_nil_2.
Ltac other_key := let H := fresh in intros H; first [exfalso; apply H; reflexivity|eexists; split; [reflexivity|reflexivity]].

(** [put] changes what is read for the key and nothing else. *)
Definition apart (k : cstring) (put : Stat -> Stat) : Prop :=
  Forall (fun k' => k' <> k -> exists g, stat_reader k' = Some g /\ forall s, g (put s) = g s) memcached_stat_keys.

Lemma numbers_apart : Forall (fun k => forall bits width put, number_stat k = Some (bits, width, put) ->
  forall n, apart k (put n) /\ exists g, stat_reader k = Some g /\ forall s, g (put n s) = to_string n) memcached_stat_keys.
Proof.
  for_keys ltac:(intros bits width put Hs; cbn in Hs; first [discriminate Hs|injection Hs as <- <- <-; intros n;
    split; [unfold apart; for_keys other_key|eexists; split; reflexivity]]).
Qed.

Lemma pid_apart n : apart (lit "pid") (put_pid n).
Proof. unfold apart. for_keys other_key. Qed.
Lemma version_apart v : apart (lit "version") (put_version v).
Proof. unfold apart. for_keys other_key. Qed.
Lemma rusage_user_apart a b : apart (lit "rusage_user") (fun s => put_rusage_user_microseconds b (put_rusage_user_seconds a s)).
Proof. unfold apart. for_keys other_key. Qed.
Lemma rusage_system_apart a b : apart (lit "rusage_system") (fun s => put_rusage_system_microseconds b (put_rusage_system_seconds a s)).
Proof. unfold apart. for_keys other_key. Qed.

Lemma remembers_intro k v f g : (forall junk s, set_data k (v ++ zero :: junk) s = Ret (MEMCACHED_SUCCESS, f s)) ->
  apart k f -> stat_reader k = Some g -> (forall s, g (f s) = v) -> size v < SMALL_STRING_LEN -> remembers k v f.
Proof.
  intros Hset Ha Hg Hgf Hs. split; [done|]. split.
  - intros s. unfold memcached_stat_get_value. rewrite Hg, Hgf, (proj2 (Z.leb_gt _ _)) by done. done.
  - intros s k' Hk' Hne. unfold apart in Ha. rewrite Forall_forall in Ha. destruct (Ha k' Hk' Hne) as (g' & Hg' & Hsame).
    unfold memcached_stat_get_value. by rewrite Hg', Hsame.
Qed.

Lemma number_stat_small k bits width put : number_stat k = Some (bits, width, put) -> width <= 64.
Proof.
  unfold number_stat. cbv zeta. cbn [find fst].
  assert (long_bits <= 64) as Hl by (destruct long_bits_cases as [-> | ->]; lia).
  repeat (destruct (str_eqb _ k); [cbn; intros [= <- <- <-]; lia|]). done.
Qed.

(** The keys that have a case of their own are no numbers. *)
Lemma number_stat_set k x v s : number_stat k = Some x -> k <> [] ->
  set_data k v s = (let '(bits, width, put) := x in
    let? y := strtou bits v 0 in Ret (MEMCACHED_SUCCESS, put (fst (fst y) mod 2 ^ width) s)).
Proof.
  intros Hx Hk. unfold set_data. rewrite bool_decide_eq_false_2 by done.
  assert (forall t, number_stat t = None -> str_eqb k t = false) as Hother.
  { intros t Ht. unfold str_eqb. apply bool_decide_eq_false. intros ->. congruence. }
  rewrite !Hother by done. rewrite Hx. destruct x as [[bits width] put]. by destruct (strtou bits v 0).
Qed.

(** Every known key. *)
Lemma canonical_remembers k v : k ∈ memcached_stat_keys -> canonical k v -> exists f, remembers k v f.
Proof.
  intros Hk Hc. unfold canonical in Hc. destruct (number_stat k) as [[[bits width] put]|] eqn:Hn.
  - destruct Hc as (n & Hr & ->). pose proof (number_stat_width _ _ _ _ Hn) as Hw. exists (put n).
    pose proof numbers_apart as Hall. rewrite Forall_forall in Hall. destruct (Hall k Hk _ _ _ Hn n) as [Ha (g & Hg & Hgn)].
    apply (remembers_intro k (to_string n) (put n) g); try done.
    + intros junk s. assert (k <> []) as Hne by (intros ->; by cbn in Hn). rewrite (number_stat_set k _ _ s Hn Hne).
      rewrite (number_value bits) by (by eapply number_fits). cbn [obind fst]. by rewrite (Z.mod_small n).
    + assert (size (to_string n) <= 20); [|unfold SMALL_STRING_LEN; lia].
      apply number_short. eapply number_fits, Hr. by eapply number_stat_small.
  - destruct Hc as [(-> & n & Hr & ->)|[(-> & Hs & Hz)|(Hu & a & b & Ha & Hb & ->)]].
    + exists (put_pid n). eapply remembers_intro; [|apply pid_apart|reflexivity|..].
      * intros junk s. unfold set_data. cbn -[to_string strtoll]. rewrite pid_value by done. cbn [obind].
        rewrite (proj2 (Z.leb_le _ _)) by lia. do 3 f_equal. unfold int32, INT32_MAX in *. rewrite u32_small by (unfold UINT_MOD; lia).
        by rewrite (proj2 (Z.ltb_lt _ _)) by lia.
      * intros s. cbn -[to_string]. unfold show. by rewrite (proj2 (Z.ltb_ge _ _)) by lia.
      * assert (size (to_string n) <= 20); [|unfold SMALL_STRING_LEN; lia]. apply number_short. unfold INT32_MAX in Hr. lia.
    + exists (put_version v). eapply remembers_intro; [|apply version_apart|reflexivity|done|].
      * intros junk s. unfold set_data. cbn -[c_string size MEMCACHED_VERSION_STRING_LENGTH].
        rewrite c_string_app by done. cbn [obind]. by rewrite (proj2 (Z.ltb_lt _ _) Hs).
      * unfold MEMCACHED_VERSION_STRING_LENGTH, SMALL_STRING_LEN in *. lia.
    + assert (size (rusage_text a b) < SMALL_STRING_LEN) as Hshort.
      { assert (size (to_string a) <= 20 /\ size (to_string b) <= 20) as [? ?].
        { assert (long_bits <= 64) as Hl by (destruct long_bits_cases as [-> | ->]; lia).
          split; apply number_short; by eapply number_fits. }
        unfold rusage_text. rewrite !size_app. change (size (lit ".")) with 1. unfold SMALL_STRING_LEN. lia. }
      destruct Hu as [-> | ->].
      * eexists. eapply remembers_intro; [|apply (rusage_user_apart a b)|reflexivity|done|done].
        intros junk s. unfold set_data. cbn -[rusage_text set_rusage]. by rewrite rusage_value.
      * eexists. eapply remembers_intro; [|apply (rusage_system_apart a b)|reflexivity|done|done].
        intros junk s. transitivity (let? s := set_rusage put_rusage_system_seconds put_rusage_system_microseconds
          (rusage_text a b ++ zero :: junk) s in Ret (MEMCACHED_SUCCESS, s)); [reflexivity|]. by rewrite rusage_value.
Qed.

(** C11. Statistics are read back: a value that a server sent for any of the keys of
    [memcached_stat_get_keys] (a number that fits its member, a version that fits, seconds and
    microseconds without leading zeros) comes out of [memcached_stat_get_value] as it went in,
    whatever the array held behind it, and the values of the other keys stay as they were. *)
Theorem stat_value_round_trip k v junk s : k ∈ memcached_stat_keys -> canonical k v ->
  exists s', set_data k (v ++ zero :: junk) s = Ret (MEMCACHED_SUCCESS, s')
    /\ memcached_stat_get_value true (Some s') k = Ret (MEMCACHED_SUCCESS, Some v)
    /\ forall k', k' ∈ memcached_stat_keys -> k' <> k ->
        memcached_stat_get_value true (Some s') k' = memcached_stat_get_value true (Some s) k'.
Proof.
  intros Hk Hc. destruct (canonical_remembers k v Hk Hc) as (f & Hset & Hget & Hother).
  exists (f s). split; [done|]. split; [done|]. intros k' Hk' Hne. by apply Hother.
Qed.
End Values.

Section Servers.
Context `{DM : DataModel} `{AL : Allocator} `{CF : ClientConfig} `{CK : Clock} `{CC : CipherConfig}.
Context `{BR : BinaryReader} `{TR : Transport} `{KR : KeyRouter} `{MP : MultiPoll}.

Lemma remembers_settled k v f : remembers k v f -> settled (k, v).
Proof using Type. intros (Hset & _) junk s. unfold stat_effect. cbn [fst snd]. rewrite Hset. by rewrite (Hset []). Qed.

Lemma reporting_same r r' args i x : memc r' = memc r -> is_purging r' = is_purging r -> reporting r args i x -> reporting r' args i x.
Proof using Type. intros Hm Hp (Hr & He). split; [by eapply ready_same|done]. Qed.

(** C10. The statistics of all servers: with text clients, [memcached_stat] sends its request to every
    server once, reads every line of every answer up to END, however the streams are cut, leaves
    the connections ready for the next request, and returns for each server the structure that its
    lines give, in the order of the servers. *)
Theorem stats_reported args r ls xs :
  text_client r -> servers (memc r) <> [] -> List.length ls = List.length (servers (memc r)) ->
  (forall k n, grants k n = true) ->
  (match args with Some a => a <> [] /\ size a < MEMCACHED_MAX_KEY | None => True end) ->
  Forall2 (reporting r (default [] args)) ls xs ->
  exists r' ls', memcached_stat args (mkSession r ls) = (Ret (MEMCACHED_SUCCESS, Some (map stats_of xs)), mkSession r' ls')
    /\ Forall2 (reported_stats r' (default [] args)) xs (zip ls ls').
Proof using Type.
  intros Ht Hne Hlen Hg Hargs H. unfold memcached_stat. unfold bind at 1. rewrite (initialize_query_ok r ls Hne).
  change (memcached_failed MEMCACHED_SUCCESS) with false. cbv iota.
  unfold bind at 1, sconf, gets. cbn [ses_root]. change (memc (begun r)) with (memc r). rewrite (tc_tcp r Ht), (tc_text r Ht).
  assert ((match args with Some a => memcached_validate_key_length (size a) false | None => MEMCACHED_SUCCESS end) = MEMCACHED_SUCCESS) as ->.
  { destruct args as [a|]; [|done]. destruct Hargs as [Ha Hs]. unfold memcached_validate_key_length.
    rewrite (proj2 (Z.eqb_neq _ 0)) by (destruct a; [done|unfold size; cbn; lia]). by rewrite (proj2 (Z.leb_gt _ _)) by lia. }
  change (memcached_failed MEMCACHED_SUCCESS) with false. cbv iota.
  unfold bind at 1. cbn [ses_root]. change (memc (begun r)) with (memc r).
  unfold bind at 1, at_root, alloc. cbn [ses_root root inst ses_insts]. rewrite Hg. cbn [negb].
  set (r' := set_allocs _ (begun r)). rewrite <- Hlen.
  destruct (stat_servers_ok (default [] args) r' xs) with (pre := @nil Inst) (ls := ls) as (ls' & E & H' & _).
  { eapply text_client_same; [exact Ht|done|done|]. by apply mstring_ok_reset, (tc_result r Ht). }
  { eapply Forall2_impl; [exact H|]. intros i x. by apply reporting_same. }
  exists r', ls'. cbn [app List.length] in E. change (Z.of_nat 0) with 0 in E. unfold bind at 1. rewrite E. done.
Qed.
End Servers.

(** ** The statements at concrete inputs *)

Lemma stat_value_round_trip_witness :
  exists s', @set_data ILP32 (lit "rusage_user") (lit "12.345" ++ zero :: lit "junk") new_Stat = Ret (MEMCACHED_SUCCESS, s')
    /\ memcached_stat_get_value true (Some s') (lit "rusage_user") = Ret (MEMCACHED_SUCCESS, Some (lit "12.345")).
Proof.
  destruct (@stat_value_round_trip ILP32 (lit "rusage_user") (lit "12.345") (lit "junk") new_Stat) as (s' & H1 & H2 & _).
  - apply (bool_decide_unpack _). vm_compute. exact I.
  - right. right. split; [by left|]. exists 12, 345. split; [done|]. split; [done|]. reflexivity.
  - exists s'. split; [exact H1|exact H2].
Defined.

#[local] Existing Instance ILP32.
#[local] Existing Instance demo_memory.
#[local] Existing Instance demo_build.
#[local] Existing Instance demo_clock.
#[local] Existing Instance demo_cipher.
#[local] Existing Instance demo_router.
#[local] Existing Instance no_poll.
#[local] Existing Instance no_binary_reader.
#[local] Existing Instance no_transport.

(** Two servers; the answer of the first one comes in three pieces. *)
Definition demo_stats : list (cstring * cstring) := [(lit "pid", lit "42"); (lit "version", lit "1.4.5"); (lit "bytes", lit "1000")].
Definition demo_reports : list Report := [mkReport demo_stats [] 100; mkReport [(lit "threads", lit "4")] [] 100].
Definition demo_answers : list Inst :=
  [demo_inst 0 [lit "STAT pid 4"; lit "2" ++ CRLF ++ lit "STAT version 1.4.5" ++ CRLF ++ lit "STAT bytes 1000";
                CRLF ++ lit "END" ++ CRLF];
   demo_inst 1 [lit "STAT threads 4" ++ CRLF ++ lit "END" ++ CRLF]].

Lemma demo_settled k v : k ∈ memcached_stat_keys -> canonical k v -> settled (k, v).
Proof. intros Hk Hc. destruct (canonical_remembers k v Hk Hc) as (f & Hf). by eapply remembers_settled. Qed.

Lemma demo_reporting : Forall2 (reporting demo_root []) demo_answers demo_reports.
Proof.
  constructor; [|constructor; [|constructor]].
  - split; [|split].
    + apply demo_ready; [repeat constructor; done|reflexivity|cbn; lia].
    + repeat (apply Forall_cons_2; [split; [done|split; [done|split; [apply (bool_decide_unpack _); vm_compute; exact I|done]]]|]). done.
    + repeat apply Forall_cons_2; [| | |done]; apply demo_settled; try (apply (bool_decide_unpack _); vm_compute; exact I).
      * left. split; [done|]. exists 42. done.
      * right. left. split; [done|]. split; [done|]. apply (bool_decide_unpack _); vm_compute; exact I.
      * exists 1000. done.
  - split; [|split].
    + apply demo_ready; [repeat constructor; done|reflexivity|cbn; lia].
    + repeat (apply Forall_cons_2; [split; [done|split; [done|split; [apply (bool_decide_unpack _); vm_compute; exact I|done]]]|]). done.
    + repeat apply Forall_cons_2; [|done]; apply demo_settled; try (apply (bool_decide_unpack _); vm_compute; exact I).
      exists 4. done.
Qed.

Lemma stats_reported_witness : exists r' ls', memcached_stat None (mkSession demo_root demo_answers)
    = (Ret (MEMCACHED_SUCCESS, Some (map stats_of demo_reports)), mkSession r' ls')
  /\ map stat_bytes (map stats_of demo_reports) = [1000; 0].
Proof.
  destruct (stats_reported None demo_root demo_answers demo_reports demo_text ltac:(discriminate) eq_refl (fun _ _ => eq_refl) I demo_reporting)
    as (r' & ls' & E & _).
  exists r', ls'. split; [exact E|vm_compute; reflexivity].
Defined.
