(* ===== verification/ClientServers.v ===== *)
(** * Servers of a client: hosts.cc, server.cc, server_list.cc, parse.cc, namespace.cc

    Adding servers to a client with their connections, lists of servers that are not yet part of
    a client, the text form of such a list, the namespace, and the calls that go over the servers
    of a client. *)

From stdpp Require Import base list.
From Stdlib Require Import ZArith Ascii String.
From S2P Require Import Prelude CxxString HashWords HashSmall HashKit HashkitString Rijndael Aes Continuum ClientTypes Distribution.
From S2P Require Import ByteOrder ClientString ClientState BinaryProtocol ClientRead ClientWrite ClientConnect ClientOps ClientBehavior ClientClone.

(** ** Lists of servers *)

(** [memcached_server_st], with the members that the list has from [_server_init]; the others
    are constants there. *)
Record ServerSt := mkServerSt {
  srv_hostname : cstring;
  srv_port : Z;
  srv_weight : Z;
  srv_type : memcached_connection_t;
}.

(** [_server_init] of server.cc. *)
Definition server_init (hostname : cstring) (port weight : Z) (type : memcached_connection_t) : ServerSt :=
  mkServerSt hostname port (if weight =? 0 then 1 else weight) type.

(** [__server_create_with] without a client: an error is reported through the null pointer. *)
Definition __server_create_with (hostname : cstring) (port weight : Z) (type : memcached_connection_t) : outcome ServerSt :=
  if memcached_is_valid_servername hostname then Ret (server_init hostname port weight type) else Stuck Undefined.

(** [ptr] is [None] for the null pointer; [granted] is the answer of [realloc]. *)
Definition memcached_server_list_append_with_weight (granted : bool) (ptr : option (list ServerSt)) (hostname : option cstring)
    (port weight : Z) : outcome (option (list ServerSt)) :=
  let hostname := default (lit "localhost") hostname in
  let port := if bool_decide (head hostname = Some "/"%char) then 0 else if port =? 0 then MEMCACHED_DEFAULT_PORT else port in
  if negb granted then Ret None else
  let? s := __server_create_with hostname port weight
              (if port =? 0 then MEMCACHED_CONNECTION_UNIX_SOCKET else MEMCACHED_CONNECTION_TCP) in
  Ret (Some (default [] ptr ++ [s])).

Definition memcached_server_list_append (granted : bool) (ptr : option (list ServerSt)) (hostname : option cstring) (port : Z)
    : outcome (option (list ServerSt)) := memcached_server_list_append_with_weight granted ptr hostname port 0.

Definition memcached_server_list_count (self : option (list ServerSt)) : Z :=
  match self with Some l => Z.of_nat (List.length l) | None => 0 end.

(** ** Their text: [memcached_servers_parse] *)

Definition HUGE_STRING_LEN : Z := 8196.

(** The characters before the first [c], and the ones behind it. *)
Fixpoint cut_at (c : ascii) (s : cstring) : option (cstring * cstring) :=
  match s with
  | [] => None
  | d :: s => if bool_decide (d = c) then Some ([], s) else
              match cut_at c s with Some (a, b) => Some (d :: a, b) | None => None end
  end.

Section Parse.
Context `{DM : DataModel}.

(** [strtoul] of a string, cut to the width of the result. *)
Definition number_of (s : cstring) (bits : Z) : outcome Z :=
  let? x := strtou long_bits (s ++ [zero]) 0 in Ret (fst (fst x) mod 2 ^ bits).

(** The name, the port and the weight of one server. *)
Definition parse_server (buffer : cstring) : outcome (cstring * Z * Z) :=
  match cut_at ":"%char buffer with
  | None => Ret (buffer, 0, 0)
  | Some (name, ptr) =>
    let? port := number_of ptr 16 in
    match (match cut_at SP ptr with Some x => Some x | None => cut_at ":"%char ptr end) with
    | Some (_, ptr2) => let? weight := number_of ptr2 32 in Ret (name, port, weight)
    | None => Ret (name, port, 0)
    end
  end.

(** The loop; each round takes a character at least. [grants k] is the answer to the [k]-th
    [realloc]. *)
Fixpoint servers_parse_loop (fuel : nat) (k : nat) (grants : nat -> bool) (begin_ptr : cstring) (servers : option (list ServerSt))
    : outcome (option (list ServerSt)) :=
  match begin_ptr, fuel with
  | [], _ => Ret servers
  | _, O => Stuck OutOfFuel
  | _, S fuel =>
    let '(buffer, begin_ptr) := match cut_at ","%char begin_ptr with Some x => x | None => (begin_ptr, []) end in
    if HUGE_STRING_LEN <=? size buffer then Stuck Undefined else
    let? x := parse_server buffer in
    let '(name, port, weight) := x in
    let? servers := memcached_server_list_append_with_weight (grants k) servers (Some name) port weight in
    let begin_ptr := match begin_ptr with c :: r => if isspace c then r else begin_ptr | [] => [] end in
    servers_parse_loop fuel (S k) grants begin_ptr servers
  end.

(** [server_strings] up to its null character. *)
Definition memcached_servers_parse (grants : nat -> bool) (server_strings : cstring) : outcome (option (list ServerSt)) :=
  servers_parse_loop (List.length server_strings) 0 grants server_strings None.
End Parse.

(** ** Servers of a client *)

Definition MEMCACHED_PREFIX_KEY_MAX_SIZE : Z := 128.

Section Servers.
Context `{DM : DataModel} `{HC : HashConfig} `{AL : Allocator} `{CF : ClientConfig} `{CK : Clock} `{CC : CipherConfig}.
Context `{BR : BinaryReader} `{TR : Transport} `{SS : SessionSort} `{RB : Rebuilding} `{CS : ClientSizes}.

(** [server_add]. Its callers have looked at the name, so that the instance is always created. *)
Definition add_server (b : Birth) (hostname : cstring) (port weight : Z) (type : memcached_connection_t) : SIO memcached_return_t :=
  let* n := sconf memcached_server_count in
  let* granted := at_root (alloc (ulong ((n + 1) * sizeof_Instance))) in
  if negb granted then refuse MEMCACHED_MEMORY_ALLOCATION_FAILURE else
  let* created := instance_create_with b hostname port weight type in
  if negb created then refuse MEMCACHED_MEMORY_ALLOCATION_FAILURE else
  (if 1 <? weight then
     on_memc (fun m => if memcached_is_consistent_distribution m then memcached_set_weighted_ketama m true else m)
   else ret tt) ;;;
  run_distribution_session.

(** [in_port_t] has 16 bits, the weight 32. *)
Definition memcached_server_add_with_weight (b : Birth) (hostname : option cstring) (port weight : Z) : SIO memcached_return_t :=
  let port := if port =? 0 then MEMCACHED_DEFAULT_PORT else port in
  let hostname := match hostname with Some (c :: h) => c :: h | _ => lit "localhost" end in
  if negb (memcached_is_valid_servername hostname) then refuse MEMCACHED_INVALID_ARGUMENTS else
  add_server b hostname port weight
    (if bool_decide (head hostname = Some "/"%char) then MEMCACHED_CONNECTION_UNIX_SOCKET else MEMCACHED_CONNECTION_TCP).

Definition memcached_server_add (b : Birth) (hostname : option cstring) (port : Z) : SIO memcached_return_t :=
  memcached_server_add_with_weight b hostname port 0.

Definition memcached_server_add_unix_socket_with_weight (b : Birth) (filename : cstring) (weight : Z) : SIO memcached_return_t :=
  if negb (memcached_is_valid_filename filename) then refuse MEMCACHED_INVALID_ARGUMENTS else
  add_server b filename 0 weight MEMCACHED_CONNECTION_UNIX_SOCKET.

Definition memcached_server_add_unix_socket (b : Birth) (filename : cstring) : SIO memcached_return_t :=
  memcached_server_add_unix_socket_with_weight b filename 0.

Definition memcached_server_add_udp_with_weight : SIO memcached_return_t := refuse MEMCACHED_DEPRECATED.

(** The name is copied to an array of MEMCACHED_NI_MAXHOST characters. *)
Definition memcached_server_add_parsed (b : Birth) (hostname : cstring) (port weight : Z) : SIO memcached_return_t :=
  if MEMCACHED_NI_MAXHOST <=? size hostname then stuck Undefined else
  add_server b hostname port weight MEMCACHED_CONNECTION_TCP.

(** [memcached_server_push]. The names of a list were looked at when it was made. *)
Fixpoint push_servers (b : Birth) (list : list ServerSt) : SIO bool :=
  match list with
  | [] => ret true
  | s :: list =>
    let* ok := instance_create_with b (srv_hostname s) (srv_port s) (srv_weight s) (srv_type s) in
    if negb ok then ret false else
    (if 1 <? srv_weight s then on_memc (fun m => memcached_set_weighted_ketama m true) else ret tt) ;;;
    push_servers b list
  end.

Definition memcached_server_push (b : Birth) (list : option (list ServerSt)) : SIO memcached_return_t :=
  match list with
  | None => ret MEMCACHED_SUCCESS
  | Some l =>
    let* original_host_size := sconf memcached_server_count in
    let* granted := at_root (alloc (ulong ((Z.of_nat (List.length l) + original_host_size) * sizeof_Instance))) in
    if negb granted then ret MEMCACHED_MEMORY_ALLOCATION_FAILURE else
    let* ok := push_servers b l in
    if ok : bool then run_distribution_session else refuse MEMCACHED_MEMORY_ALLOCATION_FAILURE
  end.

(** ** The namespace *)

(** [memcached_strcpy]; [false] when there is no memory. *)
Definition memcached_strcpy (str : cstring) : SIO bool := at_root (alloc (ulong (sizeof_memcached_array_st + size str + 1))).

(** [None] is the null pointer with length 0. The key is tested with [verify_key] set. *)
Definition memcached_set_namespace (key : option cstring) : SIO memcached_return_t :=
  match key with
  | None => on_memc (fun m => with_namespace m []) ;;; ret MEMCACHED_SUCCESS
  | Some [] => refuse MEMCACHED_INVALID_ARGUMENTS
  | Some key =>
    let* orig := sconf (fun m => verify_key (flags m)) in
    on_flags (put_verify_key true) ;;;
    let* rc := memcached_key_test (Some [key]) in
    on_flags (put_verify_key orig) ;;;
    if memcached_failed rc then sroot memcached_last_error else
    if MEMCACHED_PREFIX_KEY_MAX_SIZE - 1 <? size key then refuse MEMCACHED_KEY_TOO_BIG else
    let* granted := memcached_strcpy key in
    on_memc (fun m => with_namespace m (if granted : bool then key else [])) ;;;
    if granted : bool then ret MEMCACHED_SUCCESS else refuse MEMCACHED_MEMORY_ALLOCATION_FAILURE
  end.

Definition memcached_get_namespace : SIO (option cstring) :=
  sconf (fun m => if bool_decide (_namespace m = []) then None else Some (_namespace m)).
End Servers.
