(* ===== verification/ConfigTables.v ===== *)
(** * The tables of csl/scanner.cc and csl/parser.cc

    The arrays of numbers that flex and bison wrote, number by number, and the limits that go with
    them. What they mean is stated and proved in ConfigRules and ConfigGrammar. *)

From Stdlib Require Import ZArith List.
Import ListNotations.
#[local] Open Scope Z_scope.

(** ** The automaton of the scanner *)

(** The rule that a state accepts, 0 for none. *)
Definition yy_accept : list Z := [
  0; 0; 0; 67; 65; 5; 5; 1; 65; 65; 65; 2; 65; 65; 65; 65; 65; 65; 65; 65; 65; 65; 65; 65; 65; 65; 65; 0; 64; 0; 49; 0;
  0; 0; 2; 3; 0; 0; 0; 0; 0; 0; 0; 0; 0; 0; 0; 0; 0; 0; 0; 0; 0; 0; 0; 6; 49; 49; 49; 49; 49; 49; 49; 49; 49; 49; 49; 49;
  49; 49; 4; 63; 63; 2; 3; 63; 54; 63; 63; 45; 63; 63; 63; 63; 63; 64; 0; 63; 53; 63; 63; 63; 63; 63; 63; 49; 49; 49; 49;
  49; 49; 49; 49; 49; 49; 49; 49; 49; 49; 49; 49; 49; 49; 49; 49; 49; 4; 0; 63; 2; 3; 63; 0; 63; 63; 63; 63; 63; 63; 63;
  63; 63; 63; 63; 47; 49; 49; 49; 49; 49; 49; 0; 49; 49; 49; 49; 49; 49; 49; 49; 49; 49; 49; 49; 49; 49; 49; 49; 49; 4;
  63; 63; 3; 63; 63; 43; 48; 63; 0; 59; 63; 63; 63; 63; 63; 42; 63; 49; 49; 49; 49; 49; 49; 49; 0; 0; 0; 49; 49; 49; 49;
  49; 49; 0; 49; 49; 49; 0; 49; 49; 49; 0; 0; 49; 49; 4; 0; 63; 3; 63; 63; 0; 63; 63; 63; 63; 51; 60; 52; 63; 49; 49; 49;
  49; 49; 49; 0; 15; 0; 0; 0; 49; 49; 49; 0; 0; 49; 0; 49; 49; 49; 0; 49; 0; 49; 0; 0; 0; 0; 49; 4; 62; 63; 63; 63; 63;
  63; 57; 55; 41; 61; 44; 49; 49; 49; 49; 49; 0; 0; 0; 0; 0; 49; 49; 49; 0; 0; 49; 0; 49; 0; 49; 0; 49; 0; 49; 0; 0; 0;
  0; 49; 62; 63; 63; 58; 56; 0; 0; 49; 49; 49; 0; 0; 0; 0; 0; 49; 19; 0; 0; 0; 0; 49; 0; 0; 0; 7; 0; 0; 8; 0; 49; 0; 0;
  34; 0; 0; 62; 63; 46; 0; 0; 49; 0; 49; 0; 0; 0; 0; 0; 49; 0; 0; 0; 0; 49; 0; 0; 0; 0; 0; 0; 0; 0; 0; 0; 0; 0; 50; 0; 0;
  49; 0; 49; 0; 0; 0; 0; 0; 49; 0; 0; 38; 37; 49; 0; 0; 0; 0; 0; 0; 0; 0; 0; 0; 0; 35; 0; 0; 0; 0; 0; 49; 0; 0; 0; 0; 0;
  39; 0; 0; 0; 0; 0; 0; 0; 0; 0; 29; 0; 0; 0; 0; 36; 0; 0; 0; 0; 49; 0; 0; 0; 0; 0; 0; 0; 0; 0; 0; 0; 0; 0; 0; 30; 0; 0;
  33; 0; 0; 0; 0; 49; 0; 0; 0; 0; 0; 0; 0; 0; 23; 0; 0; 26; 0; 0; 0; 32; 0; 0; 0; 0; 13; 40; 0; 0; 0; 0; 0; 21; 0; 0; 0;
  0; 0; 31; 0; 0; 0; 0; 0; 0; 0; 0; 0; 0; 0; 25; 0; 0; 9; 10; 11; 0; 0; 0; 0; 0; 0; 0; 0; 0; 0; 12; 0; 0; 17; 0; 0; 0; 0;
  0; 0; 0; 0; 18; 0; 0; 0; 27; 28; 0; 0; 0; 0; 0; 14; 16; 20; 0; 0; 0; 0; 0; 0; 22; 24; 0].

(** The class of a character. *)
Definition yy_ec : list Z := [
  0; 1; 1; 1; 1; 1; 1; 1; 1; 2; 3; 1; 1; 2; 1; 1; 1; 1; 1; 1; 1; 1; 1; 1; 1; 1; 1; 1; 1; 1; 1; 1; 4; 1; 5; 6; 1; 1; 1; 1;
  1; 1; 1; 1; 7; 8; 9; 10; 11; 12; 13; 14; 15; 16; 17; 11; 11; 11; 18; 1; 1; 19; 1; 20; 1; 21; 22; 23; 24; 25; 26; 27;
  28; 29; 30; 31; 32; 33; 34; 35; 36; 37; 38; 39; 40; 41; 42; 43; 44; 45; 46; 1; 47; 1; 1; 48; 1; 49; 50; 51; 52; 53; 54;
  55; 56; 57; 58; 59; 60; 61; 62; 63; 64; 65; 66; 67; 68; 69; 70; 71; 72; 73; 74; 1; 1; 1; 1; 1; 1; 1; 1; 1; 1; 1; 1; 1;
  1; 1; 1; 1; 1; 1; 1; 1; 1; 1; 1; 1; 1; 1; 1; 1; 1; 1; 1; 1; 1; 1; 1; 1; 1; 1; 1; 1; 1; 1; 1; 1; 1; 1; 1; 1; 1; 1; 1; 1;
  1; 1; 1; 1; 1; 1; 1; 1; 1; 1; 1; 1; 1; 1; 1; 1; 1; 1; 1; 1; 1; 1; 1; 1; 1; 1; 1; 1; 1; 1; 1; 1; 1; 1; 1; 1; 1; 1; 1; 1;
  1; 1; 1; 1; 1; 1; 1; 1; 1; 1; 1; 1; 1; 1; 1; 1; 1; 1; 1; 1; 1; 1; 1; 1; 1; 1; 1; 1; 1; 1; 1; 1; 1; 1; 1; 1; 1; 1; 1; 1].

(** The classes of classes. *)
Definition yy_meta : list Z := [
  0; 1; 1; 1; 1; 2; 1; 1; 2; 2; 1; 2; 2; 2; 2; 2; 2; 2; 1; 1; 1; 2; 2; 2; 2; 2; 2; 2; 2; 2; 2; 2; 2; 2; 2; 2; 2; 2; 2; 2;
  2; 2; 2; 2; 2; 2; 2; 1; 2; 2; 2; 2; 2; 2; 2; 2; 2; 2; 2; 2; 2; 2; 2; 2; 2; 2; 2; 2; 2; 2; 2; 2; 2; 2; 2].

(** Where the transitions of a state begin. *)
Definition yy_base : list Z := [
  0; 0; 615; 615; 1763; 1763; 1763; 1763; 70; 603; 579; 67; 74; 0; 57; 52; 59; 73; 58; 64; 74; 585; 77; 79; 77; 65; 581;
  101; 1763; 579; 138; 202; 215; 217; 230; 237; 250; 252; 259; 261; 268; 281; 288; 296; 309; 318; 380; 326; 354; 356;
  362; 364; 400; 406; 561; 1763; 454; 253; 73; 80; 85; 90; 78; 372; 79; 326; 398; 92; 77; 94; 457; 411; 520; 533; 486;
  504; 437; 546; 548; 553; 558; 564; 570; 578; 583; 595; 643; 0; 611; 619; 624; 631; 661; 668; 673; 123; 132; 237; 235;
  240; 248; 552; 295; 302; 315; 402; 363; 359; 423; 392; 412; 542; 417; 443; 461; 449; 688; 719; 732; 745; 757; 770; 776;
  778; 783; 789; 795; 804; 806; 812; 841; 848; 850; 856; 703; 468; 544; 551; 534; 584; 581; 844; 605; 631; 642; 633; 636;
  663; 551; 654; 656; 653; 532; 666; 762; 770; 531; 781; 810; 908; 921; 879; 928; 907; 942; 944; 949; 951; 956; 958; 963;
  973; 980; 986; 1005; 1011; 1017; 802; 816; 813; 823; 833; 846; 126; 833; 854; 841; 846; 850; 875; 522; 519; 913; 935;
  935; 939; 977; 969; 992; 518; 983; 1002; 982; 511; 1006; 1056; 1073; 1086; 1763; 1071; 1099; 1101; 1115; 1121; 1108;
  1133; 1135; 1143; 1145; 1150; 1002; 1011; 1105; 1122; 1117; 449; 1114; 1763; 1122; 1119; 1139; 1131; 1136; 1133; 1135;
  1143; 1144; 1149; 1154; 447; 1142; 1153; 1144; 1158; 1149; 1163; 1162; 1177; 1178; 1164; 1763; 1227; 1213; 1240; 1215;
  1246; 1259; 1248; 1261; 1268; 1274; 1276; 444; 442; 1178; 1194; 1230; 1216; 1242; 1247; 441; 436; 1266; 1244; 435;
  1261; 1274; 1262; 1259; 432; 1257; 407; 1265; 287; 1266; 1262; 1279; 1281; 1270; 1287; 410; 1330; 1343; 1345; 1350;
  1352; 1276; 1283; 1290; 409; 1296; 1337; 1324; 1327; 1331; 1325; 1346; 0; 1336; 1340; 1330; 1341; 1330; 1354; 1354;
  1352; 1763; 1357; 1346; 1763; 1347; 387; 1351; 1363; 1763; 1349; 1375; 1413; 1415; 1420; 1381; 1401; 1405; 1391; 1392;
  1398; 1409; 384; 1400; 1418; 1416; 1416; 1418; 372; 336; 1419; 1410; 1425; 1415; 1414; 1425; 1426; 1412; 1430; 1461;
  1424; 1436; 1450; 1483; 1451; 1450; 346; 1460; 1464; 1455; 342; 1452; 1471; 1457; 327; 337; 1463; 1763; 1763; 335;
  1458; 1471; 1476; 1461; 1481; 1471; 1467; 1486; 1476; 1485; 1490; 1763; 1467; 1473; 1475; 1493; 1487; 1503; 1513; 1509;
  1524; 1520; 1524; 1763; 1512; 1510; 1514; 1513; 1522; 1520; 1516; 1515; 1534; 1763; 1520; 1531; 1529; 1517; 1763; 1528;
  1539; 1536; 1542; 1534; 1534; 1551; 1535; 1551; 1556; 1573; 1559; 1576; 320; 1577; 1564; 319; 329; 325; 1763; 1564;
  1582; 1763; 1585; 1570; 1578; 1576; 305; 1578; 1580; 1589; 1575; 1583; 1581; 302; 1582; 1763; 1595; 1580; 1763; 1582;
  1584; 1599; 1763; 1590; 1588; 1606; 1591; 1763; 1763; 1625; 1616; 1632; 1636; 1626; 1763; 1629; 280; 266; 1633; 1634;
  1763; 1632; 1626; 262; 1626; 1628; 1635; 1641; 1632; 1642; 1643; 1634; 1763; 1628; 1629; 1763; 1763; 1763; 260; 1640;
  1656; 253; 1648; 1657; 1658; 1659; 1662; 1663; 1763; 1685; 1672; 1763; 243; 1690; 1692; 1676; 237; 221; 1694; 1687;
  1763; 1680; 229; 1678; 1763; 1763; 1696; 217; 208; 1684; 1698; 1763; 1763; 1763; 1699; 1687; 1705; 1688; 1704; 202;
  1763; 1763; 1763; 1756; 154; 1758; 131; 1760].

(** The state that stands in for the transitions a state does not have. *)
Definition yy_def : list Z := [
  0; 537; 1; 537; 537; 537; 537; 537; 538; 537; 537; 539; 537; 539; 539; 539; 539; 539; 539; 539; 539; 539; 539; 539;
  539; 539; 540; 538; 537; 538; 537; 537; 541; 541; 541; 537; 541; 541; 541; 541; 541; 541; 541; 541; 541; 541; 542; 541;
  541; 541; 541; 541; 541; 541; 540; 537; 30; 56; 56; 56; 56; 56; 56; 56; 56; 56; 56; 56; 56; 56; 537; 541; 541; 541;
  537; 541; 541; 541; 541; 541; 541; 541; 541; 541; 541; 541; 542; 86; 541; 541; 541; 541; 541; 541; 541; 56; 56; 56; 56;
  56; 56; 56; 56; 56; 56; 56; 56; 56; 56; 56; 56; 56; 56; 56; 56; 56; 537; 541; 541; 541; 537; 541; 541; 541; 541; 541;
  541; 541; 541; 541; 541; 541; 541; 541; 541; 56; 56; 56; 56; 56; 56; 537; 56; 56; 56; 56; 56; 56; 56; 56; 56; 56; 56;
  56; 56; 56; 56; 56; 56; 537; 541; 541; 537; 541; 541; 541; 541; 541; 541; 541; 541; 541; 541; 541; 541; 541; 541; 56;
  56; 56; 56; 56; 56; 56; 537; 537; 537; 56; 56; 56; 56; 56; 56; 537; 56; 56; 56; 537; 56; 56; 56; 537; 537; 56; 56; 537;
  541; 541; 537; 541; 541; 541; 541; 541; 541; 541; 541; 541; 541; 541; 56; 56; 56; 56; 56; 56; 537; 537; 537; 537; 537;
  56; 56; 56; 537; 537; 56; 537; 56; 56; 56; 537; 56; 537; 56; 537; 537; 537; 537; 56; 537; 541; 541; 541; 541; 541; 541;
  541; 541; 541; 541; 541; 56; 56; 56; 56; 56; 537; 537; 537; 537; 537; 56; 56; 56; 537; 537; 56; 537; 56; 537; 56; 537;
  56; 537; 56; 537; 537; 537; 537; 56; 541; 541; 541; 541; 541; 537; 537; 56; 56; 56; 537; 537; 537; 537; 537; 56; 56;
  537; 537; 537; 537; 56; 537; 537; 537; 537; 537; 537; 537; 537; 56; 537; 537; 537; 537; 537; 541; 541; 541; 537; 537;
  56; 537; 56; 537; 537; 537; 537; 537; 56; 537; 537; 537; 537; 56; 537; 537; 537; 537; 537; 537; 537; 537; 537; 537;
  537; 537; 541; 537; 537; 56; 537; 56; 537; 537; 537; 537; 537; 56; 537; 537; 537; 537; 56; 537; 537; 537; 537; 537;
  537; 537; 537; 537; 537; 537; 537; 537; 537; 537; 537; 537; 56; 537; 537; 537; 537; 537; 537; 537; 537; 537; 537; 537;
  537; 537; 537; 537; 537; 537; 537; 537; 537; 537; 537; 537; 537; 537; 56; 537; 537; 537; 537; 537; 537; 537; 537; 537;
  537; 537; 537; 537; 537; 537; 537; 537; 537; 537; 537; 537; 537; 56; 537; 537; 537; 537; 537; 537; 537; 537; 537; 537;
  537; 537; 537; 537; 537; 537; 537; 537; 537; 537; 537; 537; 537; 537; 537; 537; 537; 537; 537; 537; 537; 537; 537; 537;
  537; 537; 537; 537; 537; 537; 537; 537; 537; 537; 537; 537; 537; 537; 537; 537; 537; 537; 537; 537; 537; 537; 537; 537;
  537; 537; 537; 537; 537; 537; 537; 537; 537; 537; 537; 537; 537; 537; 537; 537; 537; 537; 537; 537; 537; 537; 537; 537;
  537; 537; 537; 537; 537; 537; 537; 537; 537; 537; 537; 537; 537; 0; 537; 537; 537; 537; 537].

(** The transitions. *)
Definition yy_nxt : list Z := [
  0; 4; 5; 6; 7; 8; 4; 7; 9; 4; 10; 11; 11; 11; 11; 11; 11; 11; 12; 7; 4; 13; 13; 14; 15; 16; 17; 13; 18; 19; 20; 13; 21;
  22; 13; 13; 13; 13; 23; 24; 25; 13; 13; 13; 13; 13; 13; 4; 4; 13; 13; 14; 15; 16; 17; 13; 18; 19; 20; 13; 21; 22; 13;
  13; 13; 13; 23; 24; 25; 13; 13; 13; 13; 13; 13; 28; 33; 39; 34; 34; 34; 34; 34; 34; 34; 35; 35; 35; 35; 35; 35; 35; 36;
  40; 41; 37; 38; 43; 44; 45; 50; 47; 52; 53; 51; 39; 28; 42; 97; 98; 99; 100; 48; 101; 105; 113; 114; 29; 49; 115; 36;
  40; 41; 37; 38; 43; 44; 45; 50; 47; 52; 53; 51; 71; 226; 42; 97; 98; 99; 100; 48; 101; 105; 113; 114; 227; 49; 115; 29;
  56; 56; 56; 56; 56; 56; 56; 32; 135; 136; 56; 57; 58; 59; 56; 60; 56; 61; 62; 56; 56; 56; 56; 63; 56; 64; 56; 65; 66;
  67; 68; 69; 56; 56; 56; 56; 135; 136; 56; 57; 58; 59; 56; 60; 56; 61; 62; 56; 56; 56; 56; 63; 56; 64; 56; 65; 66; 67;
  68; 69; 56; 56; 56; 56; 70; 70; 70; 70; 70; 70; 70; 32; 536; 32; 32; 32; 32; 32; 528; 72; 72; 72; 72; 72; 72; 72; 32;
  527; 524; 32; 33; 520; 73; 73; 73; 73; 73; 73; 73; 74; 74; 74; 74; 74; 74; 74; 32; 519; 32; 32; 32; 32; 32; 515; 32;
  32; 32; 32; 32; 32; 32; 32; 137; 506; 32; 138; 76; 32; 32; 32; 503; 139; 492; 95; 78; 75; 487; 32; 140; 486; 32; 32;
  77; 79; 32; 96; 318; 32; 32; 32; 137; 32; 32; 138; 76; 32; 32; 319; 32; 139; 32; 95; 78; 75; 80; 32; 140; 32; 32; 32;
  77; 79; 469; 96; 32; 462; 82; 32; 32; 142; 32; 81; 32; 83; 455; 32; 32; 32; 454; 453; 450; 143; 80; 88; 401; 32; 399;
  398; 106; 144; 107; 394; 108; 84; 82; 390; 373; 142; 32; 81; 32; 83; 32; 32; 32; 32; 32; 32; 32; 143; 32; 32; 32; 32;
  32; 32; 106; 144; 107; 89; 108; 84; 27; 27; 27; 27; 85; 27; 27; 86; 86; 27; 372; 366; 102; 90; 353; 91; 147; 27; 27;
  27; 148; 32; 92; 32; 32; 89; 103; 32; 32; 32; 32; 32; 104; 32; 32; 32; 333; 326; 32; 32; 102; 90; 109; 91; 147; 316;
  29; 86; 148; 151; 92; 110; 111; 145; 103; 152; 146; 93; 112; 314; 104; 32; 308; 305; 32; 32; 94; 32; 304; 297; 109;
  296; 155; 32; 280; 149; 267; 151; 32; 110; 111; 145; 150; 152; 146; 93; 112; 116; 116; 116; 116; 116; 116; 116; 94; 56;
  56; 56; 156; 56; 155; 56; 56; 149; 32; 157; 158; 56; 177; 56; 150; 56; 56; 56; 56; 56; 120; 120; 120; 120; 120; 120;
  120; 56; 56; 56; 156; 56; 32; 56; 56; 32; 32; 157; 158; 56; 177; 56; 248; 56; 56; 56; 56; 56; 32; 243; 235; 32; 117;
  234; 118; 118; 118; 118; 118; 118; 118; 32; 201; 197; 32; 33; 121; 119; 119; 119; 119; 119; 119; 119; 32; 32; 32; 32;
  32; 32; 32; 32; 193; 141; 32; 32; 32; 55; 153; 32; 32; 32; 32; 178; 121; 32; 32; 181; 32; 125; 179; 32; 32; 154; 32;
  537; 32; 55; 180; 32; 32; 32; 123; 46; 32; 32; 153; 122; 126; 32; 124; 178; 31; 32; 32; 181; 32; 32; 179; 32; 182; 154;
  183; 127; 30; 32; 180; 128; 537; 32; 123; 32; 32; 32; 26; 537; 126; 32; 124; 32; 32; 32; 32; 187; 32; 32; 32; 537; 182;
  32; 183; 127; 32; 32; 537; 128; 32; 27; 27; 27; 27; 85; 27; 27; 86; 86; 27; 537; 131; 188; 130; 187; 32; 129; 27; 27;
  27; 189; 190; 32; 32; 191; 32; 32; 537; 32; 32; 537; 537; 32; 32; 32; 32; 537; 32; 32; 131; 188; 130; 132; 192; 129;
  194; 29; 86; 189; 190; 195; 196; 191; 198; 134; 159; 159; 159; 159; 159; 159; 159; 537; 537; 32; 32; 133; 32; 32; 537;
  132; 192; 32; 194; 537; 537; 537; 32; 195; 196; 32; 198; 134; 32; 32; 537; 160; 160; 160; 160; 160; 160; 160; 32; 133;
  537; 32; 117; 537; 161; 161; 161; 161; 161; 161; 161; 32; 32; 537; 32; 32; 537; 119; 119; 119; 119; 119; 119; 119; 537;
  537; 537; 537; 32; 162; 162; 162; 162; 162; 162; 162; 32; 537; 537; 32; 32; 32; 32; 537; 32; 32; 32; 32; 32; 32; 202;
  537; 32; 32; 32; 32; 537; 537; 32; 32; 163; 32; 164; 199; 32; 32; 165; 200; 537; 166; 32; 167; 32; 32; 32; 32; 32; 537;
  32; 32; 203; 32; 32; 537; 169; 32; 537; 32; 163; 537; 164; 199; 32; 537; 165; 200; 171; 166; 168; 167; 204; 220; 221;
  222; 32; 172; 170; 32; 203; 223; 32; 32; 169; 32; 32; 32; 32; 32; 32; 32; 32; 32; 32; 537; 171; 32; 32; 184; 204; 220;
  221; 222; 224; 172; 170; 225; 185; 223; 186; 228; 229; 230; 176; 173; 174; 32; 231; 232; 32; 117; 32; 175; 537; 537;
  537; 184; 537; 32; 537; 32; 224; 233; 537; 225; 185; 32; 186; 228; 229; 230; 176; 173; 174; 32; 231; 232; 32; 32; 537;
  175; 205; 205; 205; 205; 205; 205; 205; 32; 32; 233; 32; 206; 537; 207; 207; 207; 207; 207; 207; 207; 208; 208; 208;
  208; 208; 208; 208; 209; 32; 236; 32; 32; 32; 32; 32; 32; 32; 32; 32; 32; 32; 32; 32; 537; 32; 32; 32; 32; 32; 32; 32;
  212; 32; 32; 213; 209; 237; 236; 238; 32; 537; 210; 32; 32; 537; 239; 32; 537; 214; 32; 32; 32; 32; 32; 537; 32; 32;
  537; 32; 537; 211; 537; 216; 240; 237; 32; 238; 32; 215; 210; 241; 32; 32; 239; 32; 32; 214; 32; 242; 244; 32; 32; 32;
  32; 247; 217; 32; 32; 537; 32; 216; 240; 537; 249; 245; 32; 215; 246; 241; 218; 537; 537; 537; 537; 537; 537; 242; 244;
  262; 537; 263; 537; 247; 217; 32; 537; 219; 537; 537; 537; 32; 249; 245; 537; 537; 246; 32; 218; 250; 250; 250; 250;
  250; 250; 250; 537; 262; 32; 263; 32; 32; 32; 32; 32; 219; 251; 251; 251; 251; 251; 251; 251; 32; 537; 537; 32; 206;
  537; 252; 252; 252; 252; 252; 252; 252; 32; 537; 32; 32; 32; 32; 32; 253; 537; 32; 537; 255; 32; 32; 256; 32; 32; 32;
  537; 32; 32; 537; 32; 537; 257; 32; 32; 537; 264; 259; 32; 537; 258; 254; 32; 253; 32; 32; 32; 32; 32; 265; 266; 32;
  32; 32; 32; 32; 32; 32; 32; 32; 32; 268; 32; 32; 264; 259; 269; 32; 270; 254; 271; 272; 273; 32; 537; 274; 260; 265;
  266; 275; 276; 277; 278; 279; 281; 32; 282; 32; 283; 268; 284; 285; 286; 261; 269; 32; 270; 32; 271; 272; 273; 287; 32;
  274; 260; 288; 289; 275; 276; 277; 278; 279; 281; 290; 282; 537; 283; 537; 284; 285; 286; 261; 32; 298; 32; 32; 206;
  32; 32; 287; 537; 537; 537; 288; 289; 537; 32; 537; 299; 32; 32; 290; 291; 291; 291; 291; 291; 291; 291; 32; 537; 298;
  32; 32; 293; 32; 300; 32; 32; 32; 32; 32; 301; 294; 537; 32; 299; 32; 32; 292; 32; 32; 32; 32; 32; 302; 303; 32; 295;
  32; 32; 32; 293; 32; 300; 32; 32; 32; 32; 32; 301; 306; 32; 307; 309; 312; 313; 292; 32; 310; 32; 315; 317; 302; 303;
  320; 321; 311; 322; 323; 324; 32; 325; 32; 537; 537; 330; 537; 537; 306; 32; 307; 309; 312; 313; 331; 32; 310; 32; 315;
  317; 537; 332; 320; 321; 311; 322; 323; 324; 32; 325; 334; 32; 32; 330; 327; 327; 327; 327; 327; 327; 327; 32; 331; 32;
  32; 32; 32; 32; 32; 332; 32; 32; 32; 32; 32; 335; 537; 336; 334; 337; 338; 339; 340; 537; 341; 537; 342; 343; 344; 345;
  328; 32; 346; 347; 348; 349; 329; 350; 351; 352; 354; 355; 356; 335; 32; 336; 32; 337; 338; 339; 340; 32; 341; 32; 342;
  343; 344; 345; 328; 357; 346; 347; 348; 349; 329; 350; 351; 352; 354; 355; 356; 32; 359; 32; 32; 32; 32; 32; 32; 360;
  537; 32; 32; 361; 362; 363; 537; 357; 537; 364; 365; 367; 368; 537; 369; 370; 371; 374; 375; 376; 359; 377; 378; 379;
  380; 381; 382; 360; 358; 385; 386; 361; 362; 363; 32; 537; 32; 364; 365; 367; 368; 32; 369; 370; 371; 374; 375; 376;
  387; 377; 378; 379; 380; 381; 382; 383; 358; 385; 386; 388; 389; 32; 391; 384; 32; 32; 392; 393; 395; 396; 397; 400;
  402; 403; 404; 405; 387; 406; 407; 408; 409; 410; 411; 383; 412; 413; 414; 388; 389; 415; 391; 384; 416; 417; 392; 393;
  395; 396; 397; 400; 402; 403; 404; 405; 32; 406; 407; 408; 409; 410; 411; 418; 412; 413; 414; 419; 420; 415; 421; 422;
  416; 417; 423; 424; 425; 426; 427; 428; 429; 430; 431; 432; 433; 434; 435; 436; 437; 438; 439; 418; 440; 441; 442; 419;
  420; 443; 421; 422; 444; 445; 423; 424; 425; 426; 427; 428; 429; 430; 431; 432; 433; 434; 435; 436; 437; 438; 439; 446;
  440; 441; 442; 447; 448; 443; 449; 451; 444; 445; 452; 456; 457; 458; 459; 460; 461; 463; 464; 465; 466; 467; 468; 470;
  471; 472; 473; 446; 474; 475; 476; 447; 448; 477; 449; 451; 478; 479; 452; 456; 457; 458; 459; 460; 461; 463; 464; 465;
  466; 467; 468; 470; 471; 472; 473; 480; 474; 475; 476; 481; 482; 477; 483; 484; 478; 479; 485; 488; 489; 490; 491; 493;
  494; 495; 496; 497; 498; 499; 500; 501; 502; 504; 505; 480; 507; 508; 509; 481; 482; 510; 483; 484; 511; 512; 485; 488;
  489; 490; 491; 493; 494; 495; 496; 497; 498; 499; 500; 501; 502; 504; 505; 513; 507; 508; 509; 514; 516; 510; 517; 518;
  511; 512; 521; 522; 523; 525; 526; 529; 530; 531; 532; 533; 534; 535; 537; 537; 537; 537; 537; 513; 537; 537; 537; 514;
  516; 537; 517; 518; 537; 537; 521; 522; 523; 525; 526; 529; 530; 531; 532; 533; 534; 535; 27; 27; 54; 54; 87; 87; 3;
  537; 537; 537; 537; 537; 537; 537; 537; 537; 537; 537; 537; 537; 537; 537; 537; 537; 537; 537; 537; 537; 537; 537; 537;
  537; 537; 537; 537; 537; 537; 537; 537; 537; 537; 537; 537; 537; 537; 537; 537; 537; 537; 537; 537; 537; 537; 537; 537;
  537; 537; 537; 537; 537; 537; 537; 537; 537; 537; 537; 537; 537; 537; 537; 537; 537; 537; 537; 537; 537; 537; 537; 537;
  537; 537].

(** The states they belong to. *)
Definition yy_chk : list Z := [
  0; 1; 1; 1; 1; 1; 1; 1; 1; 1; 1; 1; 1; 1; 1; 1; 1; 1; 1; 1; 1; 1; 1; 1; 1; 1; 1; 1; 1; 1; 1; 1; 1; 1; 1; 1; 1; 1; 1; 1;
  1; 1; 1; 1; 1; 1; 1; 1; 1; 1; 1; 1; 1; 1; 1; 1; 1; 1; 1; 1; 1; 1; 1; 1; 1; 1; 1; 1; 1; 1; 1; 1; 1; 1; 1; 8; 11; 15; 11;
  11; 11; 11; 11; 11; 11; 12; 12; 12; 12; 12; 12; 12; 14; 16; 17; 14; 14; 18; 19; 20; 23; 22; 24; 25; 23; 15; 27; 17; 58;
  59; 60; 61; 22; 62; 64; 67; 68; 8; 22; 69; 14; 16; 17; 14; 14; 18; 19; 20; 23; 22; 24; 25; 23; 541; 183; 17; 58; 59;
  60; 61; 22; 62; 64; 67; 68; 183; 22; 69; 27; 30; 30; 30; 30; 30; 30; 30; 539; 95; 96; 30; 30; 30; 30; 30; 30; 30; 30;
  30; 30; 30; 30; 30; 30; 30; 30; 30; 30; 30; 30; 30; 30; 30; 30; 30; 30; 95; 96; 30; 30; 30; 30; 30; 30; 30; 30; 30; 30;
  30; 30; 30; 30; 30; 30; 30; 30; 30; 30; 30; 30; 30; 30; 30; 30; 31; 31; 31; 31; 31; 31; 31; 32; 534; 33; 32; 32; 33;
  33; 523; 33; 33; 33; 33; 33; 33; 33; 34; 522; 517; 34; 34; 512; 34; 34; 34; 34; 34; 34; 34; 35; 35; 35; 35; 35; 35; 35;
  36; 511; 37; 36; 36; 37; 37; 507; 32; 38; 33; 39; 38; 38; 39; 39; 97; 496; 40; 98; 37; 40; 40; 34; 493; 99; 478; 57;
  39; 36; 472; 41; 100; 471; 41; 41; 38; 40; 42; 57; 283; 42; 42; 36; 97; 37; 43; 98; 37; 43; 43; 283; 38; 99; 39; 57;
  39; 36; 41; 44; 100; 40; 44; 44; 38; 40; 448; 57; 45; 441; 43; 45; 45; 102; 41; 42; 47; 44; 432; 47; 47; 42; 431; 430;
  427; 103; 41; 47; 374; 43; 370; 369; 65; 104; 65; 365; 65; 45; 43; 361; 344; 102; 44; 42; 48; 44; 49; 48; 48; 49; 49;
  45; 50; 103; 51; 50; 50; 51; 51; 47; 65; 104; 65; 48; 65; 45; 46; 46; 46; 46; 46; 46; 46; 46; 46; 46; 343; 337; 63; 49;
  321; 50; 106; 46; 46; 46; 107; 48; 51; 49; 52; 48; 63; 52; 52; 50; 53; 51; 63; 53; 53; 71; 299; 290; 71; 71; 63; 49;
  66; 50; 106; 281; 46; 46; 107; 109; 51; 66; 66; 105; 63; 110; 105; 52; 66; 279; 63; 76; 274; 271; 76; 76; 53; 52; 270;
  263; 66; 262; 112; 53; 239; 108; 225; 109; 71; 66; 66; 105; 108; 110; 105; 52; 66; 70; 70; 70; 70; 70; 70; 70; 53; 56;
  56; 56; 113; 56; 112; 56; 56; 108; 76; 114; 115; 56; 135; 56; 108; 56; 56; 56; 56; 56; 74; 74; 74; 74; 74; 74; 74; 56;
  56; 56; 113; 56; 75; 56; 56; 75; 75; 114; 115; 56; 135; 56; 203; 56; 56; 56; 56; 56; 72; 199; 191; 72; 72; 190; 72; 72;
  72; 72; 72; 72; 72; 73; 156; 152; 73; 73; 75; 73; 73; 73; 73; 73; 73; 73; 77; 75; 78; 77; 77; 78; 78; 79; 148; 101; 79;
  79; 80; 54; 111; 80; 80; 72; 81; 136; 75; 81; 81; 138; 82; 81; 137; 82; 82; 111; 73; 29; 83; 26; 137; 83; 83; 84; 78;
  21; 84; 84; 111; 77; 82; 78; 80; 136; 10; 85; 79; 138; 85; 85; 137; 80; 139; 111; 140; 83; 9; 81; 137; 84; 3; 88; 78;
  82; 88; 88; 2; 0; 82; 89; 80; 83; 89; 89; 90; 142; 84; 90; 90; 0; 139; 91; 140; 83; 91; 91; 0; 84; 85; 86; 86; 86; 86;
  86; 86; 86; 86; 86; 86; 0; 91; 143; 90; 142; 88; 89; 86; 86; 86; 144; 145; 92; 89; 146; 92; 92; 0; 90; 93; 0; 0; 93;
  93; 94; 91; 0; 94; 94; 91; 143; 90; 92; 147; 89; 149; 86; 86; 144; 145; 150; 151; 146; 153; 94; 116; 116; 116; 116;
  116; 116; 116; 0; 0; 134; 92; 93; 134; 134; 0; 92; 147; 93; 149; 0; 0; 0; 94; 150; 151; 117; 153; 94; 117; 117; 0; 117;
  117; 117; 117; 117; 117; 117; 118; 93; 0; 118; 118; 0; 118; 118; 118; 118; 118; 118; 118; 119; 134; 0; 119; 119; 0;
  119; 119; 119; 119; 119; 119; 119; 0; 0; 0; 0; 117; 120; 120; 120; 120; 120; 120; 120; 121; 0; 0; 121; 121; 118; 122;
  0; 123; 122; 122; 123; 123; 124; 157; 0; 124; 124; 119; 125; 0; 0; 125; 125; 121; 126; 122; 154; 126; 126; 123; 155; 0;
  124; 127; 125; 128; 127; 127; 128; 128; 0; 129; 121; 157; 129; 129; 0; 126; 122; 0; 123; 121; 0; 122; 154; 124; 0; 123;
  155; 128; 124; 125; 125; 158; 177; 178; 179; 126; 129; 127; 130; 157; 180; 130; 130; 126; 127; 131; 128; 132; 131; 131;
  132; 132; 129; 133; 0; 128; 133; 133; 141; 158; 177; 178; 179; 181; 129; 127; 182; 141; 180; 141; 184; 185; 186; 133;
  130; 131; 161; 187; 188; 161; 161; 130; 132; 0; 0; 0; 141; 0; 131; 0; 132; 181; 189; 0; 182; 141; 133; 141; 184; 185;
  186; 133; 130; 131; 163; 187; 188; 163; 163; 0; 132; 159; 159; 159; 159; 159; 159; 159; 160; 161; 189; 160; 160; 0;
  160; 160; 160; 160; 160; 160; 160; 162; 162; 162; 162; 162; 162; 162; 163; 164; 192; 165; 164; 164; 165; 165; 166; 163;
  167; 166; 166; 167; 167; 168; 0; 169; 168; 168; 169; 169; 170; 160; 168; 170; 170; 168; 163; 193; 192; 194; 171; 0;
  164; 171; 171; 0; 195; 172; 0; 170; 172; 172; 164; 173; 165; 0; 173; 173; 0; 166; 0; 167; 0; 172; 196; 193; 168; 194;
  169; 171; 164; 197; 174; 170; 195; 174; 174; 170; 175; 198; 200; 175; 175; 171; 176; 202; 173; 176; 176; 0; 172; 172;
  196; 0; 204; 201; 173; 171; 201; 197; 174; 0; 0; 0; 0; 0; 0; 198; 200; 220; 0; 221; 0; 202; 173; 174; 0; 176; 0; 0; 0;
  175; 204; 201; 0; 0; 201; 176; 174; 205; 205; 205; 205; 205; 205; 205; 0; 220; 209; 221; 206; 209; 209; 206; 206; 176;
  206; 206; 206; 206; 206; 206; 206; 207; 0; 0; 207; 207; 0; 207; 207; 207; 207; 207; 207; 207; 210; 0; 211; 210; 210;
  211; 211; 209; 0; 214; 0; 211; 214; 214; 211; 209; 212; 206; 0; 212; 212; 0; 213; 0; 212; 213; 213; 0; 222; 214; 207;
  0; 213; 210; 215; 209; 216; 215; 215; 216; 216; 223; 224; 210; 217; 211; 218; 217; 217; 218; 218; 219; 214; 226; 219;
  219; 222; 214; 228; 212; 229; 210; 230; 231; 232; 213; 0; 233; 215; 223; 224; 234; 235; 236; 237; 238; 240; 215; 241;
  216; 242; 226; 243; 244; 245; 219; 228; 217; 229; 218; 230; 231; 232; 246; 219; 233; 215; 247; 248; 234; 235; 236; 237;
  238; 240; 249; 241; 0; 242; 0; 243; 244; 245; 219; 252; 264; 254; 252; 252; 254; 254; 246; 0; 0; 0; 247; 248; 0; 251;
  0; 265; 251; 251; 249; 251; 251; 251; 251; 251; 251; 251; 253; 0; 264; 253; 253; 254; 255; 266; 257; 255; 255; 257;
  257; 267; 255; 0; 252; 265; 254; 256; 253; 258; 256; 256; 258; 258; 268; 269; 259; 256; 251; 259; 259; 254; 260; 266;
  261; 260; 260; 261; 261; 267; 272; 253; 273; 275; 277; 278; 253; 255; 276; 257; 280; 282; 268; 269; 284; 285; 276; 286;
  287; 288; 256; 289; 258; 0; 0; 296; 0; 0; 272; 259; 273; 275; 277; 278; 297; 260; 276; 261; 280; 282; 0; 298; 284; 285;
  276; 286; 287; 288; 291; 289; 300; 291; 291; 296; 291; 291; 291; 291; 291; 291; 291; 292; 297; 293; 292; 292; 293; 293;
  294; 298; 295; 294; 294; 295; 295; 301; 0; 302; 300; 303; 304; 305; 306; 0; 308; 0; 309; 310; 311; 312; 292; 291; 313;
  314; 315; 317; 293; 318; 318; 320; 322; 323; 325; 301; 292; 302; 293; 303; 304; 305; 306; 294; 308; 295; 309; 310; 311;
  312; 292; 326; 313; 314; 315; 317; 293; 318; 318; 320; 322; 323; 325; 327; 330; 328; 327; 327; 328; 328; 329; 331; 0;
  329; 329; 332; 333; 334; 0; 326; 0; 335; 336; 338; 339; 0; 340; 341; 342; 345; 346; 347; 330; 348; 349; 350; 351; 352;
  353; 331; 328; 355; 356; 332; 333; 334; 327; 0; 328; 335; 336; 338; 339; 329; 340; 341; 342; 345; 346; 347; 357; 348;
  349; 350; 351; 352; 353; 354; 328; 355; 356; 359; 360; 358; 362; 354; 358; 358; 363; 364; 366; 367; 368; 371; 375; 376;
  377; 378; 357; 379; 380; 381; 382; 383; 384; 354; 385; 387; 388; 359; 360; 389; 362; 354; 390; 391; 363; 364; 366; 367;
  368; 371; 375; 376; 377; 378; 358; 379; 380; 381; 382; 383; 384; 392; 385; 387; 388; 393; 394; 389; 395; 396; 390; 391;
  397; 399; 400; 401; 402; 403; 404; 405; 406; 407; 409; 410; 411; 412; 414; 415; 416; 392; 417; 418; 419; 393; 394; 420;
  395; 396; 421; 422; 397; 399; 400; 401; 402; 403; 404; 405; 406; 407; 409; 410; 411; 412; 414; 415; 416; 423; 417; 418;
  419; 424; 425; 420; 426; 428; 421; 422; 429; 434; 435; 437; 438; 439; 440; 442; 443; 444; 445; 446; 447; 449; 451; 452;
  454; 423; 455; 456; 458; 424; 425; 459; 426; 428; 460; 461; 429; 434; 435; 437; 438; 439; 440; 442; 443; 444; 445; 446;
  447; 449; 451; 452; 454; 464; 455; 456; 458; 465; 466; 459; 467; 468; 460; 461; 470; 473; 474; 476; 477; 479; 480; 481;
  482; 483; 484; 485; 486; 488; 489; 494; 495; 464; 497; 498; 499; 465; 466; 500; 467; 468; 501; 502; 470; 473; 474; 476;
  477; 479; 480; 481; 482; 483; 484; 485; 486; 488; 489; 494; 495; 504; 497; 498; 499; 505; 508; 500; 509; 510; 501; 502;
  513; 514; 516; 518; 521; 524; 525; 529; 530; 531; 532; 533; 0; 0; 0; 0; 0; 504; 0; 0; 0; 505; 508; 0; 509; 510; 0; 0;
  513; 514; 516; 518; 521; 524; 525; 529; 530; 531; 532; 533; 538; 538; 540; 540; 542; 542; 537; 537; 537; 537; 537; 537;
  537; 537; 537; 537; 537; 537; 537; 537; 537; 537; 537; 537; 537; 537; 537; 537; 537; 537; 537; 537; 537; 537; 537; 537;
  537; 537; 537; 537; 537; 537; 537; 537; 537; 537; 537; 537; 537; 537; 537; 537; 537; 537; 537; 537; 537; 537; 537; 537;
  537; 537; 537; 537; 537; 537; 537; 537; 537; 537; 537; 537; 537; 537; 537; 537; 537; 537; 537; 537; 537].

(** The state without transitions, the first state that is a template, and the number that
    stands for the end of the buffer. *)
Definition YY_JAM : Z := 537.
Definition YY_TEMPLATES : Z := 538.
Definition YY_END_OF_BUFFER : Z := 67.

(** ** The automaton of the parser *)

(** The symbol of a token. *)
Definition yytranslate : list Z := [
  0; 2; 2; 2; 2; 2; 2; 2; 2; 2; 2; 2; 2; 2; 2; 2; 2; 2; 2; 2; 2; 2; 2; 2; 2; 2; 2; 2; 2; 2; 2; 2; 75; 2; 2; 2; 2; 2; 2;
  2; 2; 2; 2; 2; 64; 2; 2; 2; 2; 2; 2; 2; 2; 2; 2; 2; 2; 2; 2; 2; 2; 65; 2; 2; 2; 2; 2; 2; 2; 2; 2; 2; 2; 2; 2; 2; 2; 2;
  2; 2; 2; 2; 2; 2; 2; 2; 2; 2; 2; 2; 2; 2; 2; 2; 2; 2; 2; 2; 2; 2; 2; 2; 2; 2; 2; 2; 2; 2; 2; 2; 2; 2; 2; 2; 2; 2; 2; 2;
  2; 2; 2; 2; 2; 2; 2; 2; 2; 2; 2; 2; 2; 2; 2; 2; 2; 2; 2; 2; 2; 2; 2; 2; 2; 2; 2; 2; 2; 2; 2; 2; 2; 2; 2; 2; 2; 2; 2; 2;
  2; 2; 2; 2; 2; 2; 2; 2; 2; 2; 2; 2; 2; 2; 2; 2; 2; 2; 2; 2; 2; 2; 2; 2; 2; 2; 2; 2; 2; 2; 2; 2; 2; 2; 2; 2; 2; 2; 2; 2;
  2; 2; 2; 2; 2; 2; 2; 2; 2; 2; 2; 2; 2; 2; 2; 2; 2; 2; 2; 2; 2; 2; 2; 2; 2; 2; 2; 2; 2; 2; 2; 2; 2; 2; 2; 2; 2; 2; 2; 2;
  2; 2; 2; 2; 2; 2; 2; 2; 2; 2; 2; 2; 2; 2; 2; 2; 2; 2; 1; 2; 3; 4; 5; 6; 7; 8; 9; 10; 11; 12; 13; 14; 15; 16; 17; 18;
  19; 20; 21; 22; 23; 24; 25; 26; 27; 28; 29; 30; 31; 32; 33; 34; 35; 36; 37; 38; 39; 40; 41; 42; 43; 44; 45; 46; 47; 48;
  49; 50; 51; 52; 53; 54; 55; 56; 57; 58; 59; 60; 61; 62; 63; 66; 67; 68; 69; 70; 71; 72; 73; 74].

(** The symbol on the left of a rule. *)
Definition yyr1 : list Z := [
  0; 76; 77; 77; 78; 78; 78; 78; 78; 78; 78; 78; 79; 79; 79; 79; 79; 79; 79; 80; 80; 80; 80; 80; 80; 80; 80; 81; 81; 81;
  81; 81; 81; 81; 81; 81; 81; 81; 81; 82; 82; 82; 82; 82; 82; 82; 82; 82; 82; 82; 82; 83; 83; 84; 84; 85; 85; 85; 85; 85;
  85; 85; 85; 85; 86; 86; 87; 87; 87].

(** The length of the right of a rule. *)
Definition yyr2 : list Z := [
  0; 2; 1; 3; 1; 1; 1; 1; 1; 1; 1; 3; 4; 4; 3; 2; 2; 2; 1; 2; 1; 2; 4; 2; 2; 1; 1; 1; 1; 1; 1; 1; 1; 1; 1; 1; 1; 1; 1; 1;
  1; 1; 1; 1; 1; 1; 1; 1; 1; 1; 1; 0; 1; 0; 1; 1; 1; 1; 1; 1; 1; 1; 1; 1; 1; 1; 1; 1; 1].

(** The rule to reduce by when nothing else is said, 0 for an error. *)
Definition yydefact : list Z := [
  0; 5; 7; 8; 9; 10; 0; 0; 6; 0; 0; 39; 40; 28; 0; 0; 41; 30; 31; 29; 42; 32; 33; 43; 34; 27; 35; 36; 37; 38; 44; 45; 26;
  49; 50; 47; 48; 46; 20; 0; 0; 0; 0; 2; 4; 18; 0; 25; 0; 64; 65; 15; 51; 51; 53; 66; 67; 68; 21; 55; 56; 57; 58; 59; 60;
  61; 62; 63; 23; 19; 16; 17; 1; 0; 24; 11; 52; 53; 53; 54; 14; 0; 3; 13; 12; 22].

(** The state behind a symbol when nothing else is said. *)
Definition yydefgoto : list Z := [
  (-1); 42; 43; 44; 45; 46; 47; 77; 80; 68; 51; 58].

(** Where the actions of a state begin. *)
Definition yypact : list Z := [
  (-2); (-62); (-62); (-62); (-62); (-62); (-61); (-24); (-62); (-20); (-24); (-62); (-62); (-62); (-48); 13; (-62);
  (-62); (-62); (-62); (-62); (-62); (-62); (-62); (-62); (-62); (-62); (-62); (-62); (-62); (-62); (-62); (-62); (-62);
  (-62); (-62); (-62); (-62); (-62); (-24); (-42); (-15); 0; (-62); (-62); (-62); (-11); (-62); (-24); (-62); (-62);
  (-62); (-10); (-10); (-12); (-62); (-62); (-62); (-5); (-62); (-62); (-62); (-62); (-62); (-62); (-62); (-62); (-62);
  (-62); (-62); (-62); (-62); (-62); (-2); (-62); (-62); (-62); (-12); (-12); (-62); (-62); 13; (-62); (-62); (-62); (-62)].

(** Where the states behind a symbol begin. *)
Definition yypgoto : list Z := [
  (-62); (-62); (-13); (-62); (-62); (-62); (-62); 8; (-23); (-9); 14; (-62)].

(** Actions and states. *)
Definition yytable : list Z := [
  72; 1; 2; 3; 4; 5; 6; 7; 8; 9; 10; 55; 56; 57; 48; 11; 12; 13; 14; 15; 16; 17; 18; 19; 54; 70; 20; 21; 22; 23; 24; 25;
  26; 27; 28; 29; 30; 31; 32; 33; 34; 35; 36; 37; 38; 39; 40; 41; 49; 50; 52; 53; 71; 69; 83; 84; 74; 79; 76; 81; 82; 78;
  75; 59; 60; 61; 62; 63; 64; 65; 66; 67; 85; 0; 0; 73].

(** The symbols and states they belong to. *)
Definition yycheck : list Z := [
  0; 3; 4; 5; 6; 7; 8; 9; 10; 11; 12; 59; 60; 61; 75; 17; 18; 19; 20; 21; 22; 23; 24; 25; 10; 67; 28; 29; 30; 31; 32; 33;
  34; 35; 36; 37; 38; 39; 40; 41; 42; 43; 44; 45; 46; 47; 48; 49; 72; 73; 70; 71; 67; 39; 77; 78; 67; 69; 68; 64; 73; 53;
  48; 50; 51; 52; 53; 54; 55; 56; 57; 58; 81; (-1); (-1); 75].

Definition YYFINAL : Z := 72.
Definition YYLAST : Z := 75.
Definition YYNTOKENS : Z := 76.
Definition YYPACT_NINF : Z := -62.
Definition YYUNDEFTOK : Z := 2.
Definition YYMAXUTOK : Z := 327.
Definition YYTERROR : Z := 1.
Definition YYINITDEPTH : Z := 200.
