(* ===== verification/ConfigScanner.v ===== *)
(** * The scanner of configurations: csl/scanner.cc

    The automaton of flex with its buffer: the characters of the configuration string are taken
    in pieces, a token that reaches the end of the buffer is moved to its front, and the states
    are found again from there. The tables are the ones of ConfigTables. The memory for the buffer
    is taken to be there. The character that flex replaces by a null character behind [yytext],
    and puts back before it goes on, is not tracked; positions are indices into the buffer. *)

From stdpp Require Import base list.
From Stdlib Require Import ZArith Ascii String.
From S2P Require Import Prelude CxxString ConfigTables.

Definition newline : ascii := "010"%char.

(** Reading an array of numbers. *)
Definition at_table (t : list Z) (i : Z) : outcome Z :=
  if i <? 0 then Stuck Undefined else match nth_error t (Z.to_nat i) with Some x => Ret x | None => Stuck Undefined end.

(** ** One step of the automaton *)

(** The loop over the states that stand in for one another. *)
Fixpoint yy_lookup (fuel : nat) (state c : Z) : outcome Z :=
  match fuel with
  | O => Stuck OutOfFuel
  | S fuel =>
    let? base := at_table yy_base state in
    let? chk := at_table yy_chk (base + c) in
    if chk =? state then at_table yy_nxt (base + c) else
    let? state := at_table yy_def state in
    let? c := (if YY_TEMPLATES <=? state then at_table yy_meta c else Ret c) in
    yy_lookup fuel state c
  end.

(** No state is more than three others away from the one that has the transition. *)
Definition yy_transition (state c : Z) : outcome Z := yy_lookup 5 state c.

(** [yy_ec], and the class of a null character that belongs to the text. *)
Definition char_class (c : ascii) : outcome Z := at_table yy_ec (uchar c).
Definition text_class (c : ascii) : outcome Z := if bool_decide (c = zero) then Ret 1 else char_class c.

(** ** The buffer *)

Inductive yy_status := YY_BUFFER_NEW | YY_BUFFER_NORMAL | YY_BUFFER_EOF_PENDING.

(** [yy_ch_buf] up to [yy_n_chars]; behind it are two null characters. [unread] is the part of
    the string from [Context::pos] on. *)
Record Scan := mkScan {
  yy_ch_buf : cstring;
  yytext_ptr : nat;
  yy_c_buf_p : nat;
  yy_at_bol : bool;
  yy_buffer_status : yy_status;
  yy_buf_size : Z;
  unread : cstring;
}.

Definition YY_BUF_SIZE : Z := 16384.
Definition YY_READ_BUF_SIZE : Z := 8192.

(** The scanner at its first call: [config__create_buffer] and [config__load_buffer_state]. *)
Definition new_Scan (text : cstring) : Scan := mkScan [] 0 0 true YY_BUFFER_NEW YY_BUF_SIZE text.

Definition n_chars (s : Scan) : nat := List.length (yy_ch_buf s).
Definition buffer (s : Scan) : cstring := yy_ch_buf s ++ [zero; zero].

Definition set_positions (text p : nat) (s : Scan) : Scan :=
  mkScan (yy_ch_buf s) text p (yy_at_bol s) (yy_buffer_status s) (yy_buf_size s) (unread s).
Definition set_bol (bol : bool) (s : Scan) : Scan :=
  mkScan (yy_ch_buf s) (yytext_ptr s) (yy_c_buf_p s) bol (yy_buffer_status s) (yy_buf_size s) (unread s).
Definition set_status (st : yy_status) (s : Scan) : Scan :=
  mkScan (yy_ch_buf s) (yytext_ptr s) (yy_c_buf_p s) (yy_at_bol s) st (yy_buf_size s) (unread s).

(** A buffer is new until its end is met. *)
Definition no_longer_new (s : Scan) : Scan :=
  match yy_buffer_status s with YY_BUFFER_NEW => set_status YY_BUFFER_NORMAL s | _ => s end.

(** [yy_start + YY_AT_BOL()] *)
Definition start_state (s : Scan) : Z := if yy_at_bol s then 2 else 1.

(** [get_lex_chars]: the characters that are read, and the rest. *)
Definition get_lex_chars (text : cstring) (max_size : Z) : cstring * cstring :=
  if bool_decide (text = []) then ([], []) else
  let result := s32 (size text) in
  let result := if (result <? 0) || (max_size <? result) then max_size else result in
  (take (Z.to_nat result) text, drop (Z.to_nat result) text).

(** The loop that makes room in the buffer. *)
Fixpoint grow_buffer (fuel : nat) (buf_size number_to_move : Z) : outcome Z :=
  match fuel with
  | O => Stuck OutOfFuel
  | S fuel =>
    if 0 <? buf_size - number_to_move - 1 then Ret buf_size else
    grow_buffer fuel (if s32 (buf_size * 2) <=? 0 then buf_size + buf_size / 8 else buf_size * 2) number_to_move
  end.

Inductive eob_act := EOB_ACT_CONTINUE_SCAN | EOB_ACT_END_OF_FILE | EOB_ACT_LAST_MATCH.

(** The characters that are read behind the ones that stay, the rest of the text, and the size of
    the buffer. *)
Definition read_more (s : Scan) (number_to_move : Z) : outcome (cstring * cstring * Z) :=
  match yy_buffer_status s with
  | YY_BUFFER_EOF_PENDING => Ret ([], unread s, yy_buf_size s)
  | _ =>
    let? size := grow_buffer 64 (yy_buf_size s) number_to_move in
    let num_to_read := Z.min (size - number_to_move - 1) YY_READ_BUF_SIZE in
    let '(chars, rest) := get_lex_chars (unread s) num_to_read in
    Ret (chars, rest, size)
  end.

(** [config_restart] gives the buffer back its first state. *)
Definition yy_get_next_buffer (s : Scan) : outcome (eob_act * Scan) :=
  if (n_chars s + 1 <? yy_c_buf_p s)%nat then Stuck Undefined else
  let number_to_move := (yy_c_buf_p s - yytext_ptr s - 1)%nat in
  let moved := take number_to_move (drop (yytext_ptr s) (yy_ch_buf s)) in
  let? x := read_more s (Z.of_nat number_to_move) in
  let '(chars, rest, size) := x in
  Ret (match chars, number_to_move with
       | [], O => (EOB_ACT_END_OF_FILE, mkScan [] 0 0 true YY_BUFFER_NEW size rest)
       | [], _ => (EOB_ACT_LAST_MATCH, mkScan moved 0 (yy_c_buf_p s) (yy_at_bol s) YY_BUFFER_EOF_PENDING size rest)
       | _, _ => (EOB_ACT_CONTINUE_SCAN, mkScan (moved ++ chars) 0 (yy_c_buf_p s) (yy_at_bol s) (yy_buffer_status s) size rest)
       end).

(** ** Matching *)

(** A state and a position: where the automaton is, or the last one that accepted. *)
Definition place : Type := Z * nat.

Definition note_accepting (here last : place) : outcome place :=
  let? a := at_table yy_accept (fst here) in Ret (if a =? 0 then last else here).

(** The loop of [yy_match], over the characters from [yy_cp] on. *)
Fixpoint yy_match (chars : cstring) (here last : place) : outcome place :=
  match chars with
  | [] => Stuck Undefined
  | ch :: chars =>
    let? c := char_class ch in
    let? last := note_accepting here last in
    let? next := yy_transition (fst here) c in
    if next =? YY_JAM then Ret last else yy_match chars (next, S (snd here)) last
  end.

(** [yy_get_previous_state]: the states up to [yy_c_buf_p] once more. *)
Fixpoint yy_get_previous_state (chars : cstring) (here last : place) : outcome (place * place) :=
  match chars with
  | [] => Ret (here, last)
  | ch :: chars =>
    let? c := text_class ch in
    let? last := note_accepting here last in
    let? next := yy_transition (fst here) c in
    yy_get_previous_state chars (next, S (snd here)) last
  end.

(** [None] when the automaton jams. *)
Definition yy_try_NUL_trans (here last : place) : outcome (option Z * place) :=
  let? last := note_accepting here last in
  let? next := yy_transition (fst here) 1 in
  Ret (if next =? YY_JAM then None else Some next, last).

(** The part of the buffer from the beginning of the token on. *)
Definition token_so_far (s : Scan) : cstring := take (yy_c_buf_p s - yytext_ptr s) (drop (yytext_ptr s) (yy_ch_buf s)).

(** The action [YY_END_OF_BUFFER]: a null character of the text, or the end of the buffer. [again]
    is the jump to [yy_find_action]. *)
Definition end_of_buffer (again : Scan -> place -> place -> outcome (Z * nat * Scan)) (s : Scan) (last : place)
    : outcome (Z * nat * Scan) :=
  let amount := (yy_c_buf_p s - yytext_ptr s - 1)%nat in
  if (yy_c_buf_p s <=? n_chars s)%nat then
    let s := set_positions (yytext_ptr s) (yytext_ptr s + amount) s in
    let? x := yy_get_previous_state (token_so_far s) (start_state s, yytext_ptr s) last in
    let '(here, last) := x in
    let? y := yy_try_NUL_trans here last in
    let '(next, last) := y in
    match next with
    | Some next =>
      let s := set_positions (yytext_ptr s) (S (yy_c_buf_p s)) s in
      let? last := yy_match (drop (yy_c_buf_p s) (buffer s)) (next, yy_c_buf_p s) last in
      again s last last
    | None => again s last last
    end
  else
    let? x := yy_get_next_buffer s in
    match x with
    | (EOB_ACT_END_OF_FILE, s) => Ret (0, yytext_ptr s, set_positions (yytext_ptr s) (yytext_ptr s) s)
    | (EOB_ACT_CONTINUE_SCAN, s) =>
      let s := set_positions (yytext_ptr s) (yytext_ptr s + amount) s in
      let? x := yy_get_previous_state (token_so_far s) (start_state s, yytext_ptr s) last in
      let '(here, last) := x in
      let? last := yy_match (drop (yy_c_buf_p s) (buffer s)) here last in
      again s last last
    | (EOB_ACT_LAST_MATCH, s) =>
      let s := set_positions (yytext_ptr s) (n_chars s) s in
      let? x := yy_get_previous_state (token_so_far s) (start_state s, yytext_ptr s) last in
      let '(here, last) := x in
      again s here last
    end.

(** The loop from [yy_find_action] on. The result is the action and the position behind the token;
    action 0 is the end of the text ([YY_STATE_EOF]). *)
Fixpoint yy_find_action (fuel : nat) (s : Scan) (here last : place) : outcome (Z * nat * Scan) :=
  match fuel with
  | O => Stuck OutOfFuel
  | S fuel =>
    let? act := at_table yy_accept (fst here) in
    if act =? 0 then yy_find_action fuel s last last else
    let s := set_positions (yytext_ptr s) (snd here) s in
    if act =? YY_END_OF_BUFFER then end_of_buffer (yy_find_action fuel) (no_longer_new s) last else Ret (act, snd here, s)
  end.

(** Every round but two takes characters of the text. *)
Definition scan_fuel (s : Scan) : nat := 4 + 2 * (List.length (yy_ch_buf s) + List.length (unread s)).

(** [yytext] and the beginning of a line, for an action ([YY_DO_BEFORE_ACTION], [YY_RULE_SETUP]).
    Rule 6 gives back the end of the line, which it needs to see. *)
Definition finish_token (x : Z * nat * Scan) : Z * cstring * Scan :=
  let '(act, cp, s) := x in
  if act =? 0 then (0, [], s) else
  let cp := if act =? 6 then (cp - 1)%nat else cp in
  let s := set_positions (yytext_ptr s) cp s in
  let yytext := token_so_far s in
  (act, yytext, match list.last yytext with Some c => set_bol (bool_decide (c = newline)) s | None => s end).

(** The rule that matches the text from [yy_c_buf_p] on, and [yytext]; 0 at the end of the text.
    One rule always accepts a character, so that the place where the last token ended is not
    used. *)
Definition next_match (s : Scan) : outcome (Z * cstring * Scan) :=
  let s := set_positions (yy_c_buf_p s) (yy_c_buf_p s) s in
  let start := (start_state s, yy_c_buf_p s) in
  let? last := yy_match (drop (yy_c_buf_p s) (buffer s)) start start in
  let? x := yy_find_action (scan_fuel s) s last last in
  Ret (finish_token x).
