(* ===== verification/ConfigScannerSpec.v ===== *)
(** * The scanner of configurations: the buffer makes no difference

    The automaton on a whole text, without a buffer, and the proof that [next_match] finds what it
    finds, wherever the pieces of the text end and whatever null characters it has. *)

From stdpp Require Import base list gmap.
From Stdlib Require Import ZArith Lia Ascii String.
From S2P Require Import Prelude CxxString ConfigTables ConfigScanner.

(** ** The automaton as a total function *)

Definition step (state c : Z) : Z := match yy_transition state c with Ret next => next | _ => YY_JAM end.
Definition accepts (state : Z) : Z := match at_table yy_accept state with Ret a => a | _ => 0 end.
Definition class_of (c : ascii) : Z := match text_class c with Ret k => k | _ => 0 end.

(** The states that text leads to; state 3 is entered at the end of the buffer only. *)
Definition live (state : Z) : Prop := 1 <= state < YY_JAM /\ state <> 3.

Definition numbers (lo n : nat) : list Z := map Z.of_nat (seq lo n).
Definition live_states : list Z := List.filter (fun s => negb (s =? 3)) (numbers 1 536).

Definition liveb (state : Z) : bool := (1 <=? state) && (state <? YY_JAM) && negb (state =? 3).

(** *** The tables as maps, for evaluation *)

Definition fast_table (t : list Z) : gmap Z Z := map_seqZ 0 t.
Definition at_fast (m : gmap Z Z) (i : Z) : outcome Z := match m !! i with Some x => Ret x | None => Stuck Undefined end.

Lemma nth_error_lookup {A} (l : list A) n : nth_error l n = l !! n.
Proof. revert n. by induction l; intros [|n]; cbn. Qed.

Lemma at_fast_eq t i : at_fast (fast_table t) i = at_table t i.
Proof.
  unfold at_fast, fast_table, at_table. destruct (Z.ltb_spec i 0); [by rewrite (proj2 (lookup_map_seqZ_None 0 t i)) by lia|].
  rewrite lookup_map_seqZ_0 by done. by rewrite nth_error_lookup.
Qed.

Fixpoint fast_lookup (base chk nxt def meta : gmap Z Z) (fuel : nat) (state c : Z) : outcome Z :=
  match fuel with
  | O => Stuck OutOfFuel
  | S fuel =>
    let? b := at_fast base state in
    let? k := at_fast chk (b + c) in
    if k =? state then at_fast nxt (b + c) else
    let? state := at_fast def state in
    let? c := (if YY_TEMPLATES <=? state then at_fast meta c else Ret c) in
    fast_lookup base chk nxt def meta fuel state c
  end.

Lemma fast_lookup_eq fuel state c :
  fast_lookup (fast_table yy_base) (fast_table yy_chk) (fast_table yy_nxt) (fast_table yy_def) (fast_table yy_meta) fuel state c
  = yy_lookup fuel state c.
Proof.
  revert state c. induction fuel as [|fuel IH]; intros state c; [done|]. cbn [fast_lookup yy_lookup]. rewrite at_fast_eq.
  destruct (at_table yy_base state) as [b| |]; [|done|done]. cbn [obind]. rewrite !at_fast_eq.
  destruct (at_table yy_chk (b + c)) as [k| |]; [|done|done]. cbn [obind]. destruct (k =? state); [done|].
  destruct (at_table yy_def state) as [d| |]; [|done|done]. cbn [obind]. rewrite ?at_fast_eq.
  destruct (if YY_TEMPLATES <=? d then at_table yy_meta c else Ret c); [|done|done]. apply IH.
Qed.

(** *** What the tables say *)

Definition is_state (p : Z -> bool) (o : outcome Z) : bool := match o with Ret s => p s | _ => false end.

Lemma is_state_ret p o d : is_state p o = true -> o = Ret (match o with Ret a => a | _ => d end) /\ p (match o with Ret a => a | _ => d end) = true.
Proof. by destruct o. Qed.

(** Every transition of a live state is there and leads to a live state or nowhere, at the end
    of the buffer to state 3; from there no way leads on. Each character leads from a start to a
    state that accepts. *)
Definition live_state_ok (tr : Z -> Z -> outcome Z) (ac : Z -> outcome Z) (s : Z) : bool :=
  forallb (fun c => is_state (fun n => (n =? YY_JAM) || liveb n) (tr s c)) (numbers 1 74)
  && is_state (Z.eqb 3) (tr s 0) && is_state (fun a => (0 <=? a) && (a <=? 65)) (ac s).
Definition start_state_ok (tr : Z -> Z -> outcome Z) (ac : Z -> outcome Z) (s : Z) : bool :=
  is_state (Z.eqb 0) (ac s)
  && forallb (fun c => is_state (fun n => liveb n && is_state (fun a => negb (a =? 0)) (ac n)) (tr s c)) (numbers 1 74).
Definition automaton_ok (base chk nxt def meta accept : gmap Z Z) : bool :=
  let tr := fast_lookup base chk nxt def meta 5 in
  let ac := at_fast accept in
  forallb (live_state_ok tr ac) live_states && forallb (start_state_ok tr ac) [1; 2]
  && forallb (fun c => is_state (Z.eqb YY_JAM) (tr 3 c)) (numbers 0 75).

Lemma automaton_checked : automaton_ok (fast_table yy_base) (fast_table yy_chk) (fast_table yy_nxt) (fast_table yy_def)
  (fast_table yy_meta) (fast_table yy_accept) = true.
Proof. vm_compute. reflexivity. Qed.

Definition char_ok (n : nat) : bool :=
  let c := ascii_of_nat n in
  is_state (fun k => (1 <=? k) && (k <=? 74)) (text_class c)
  && (bool_decide (c = zero) || is_state (fun k => k =? class_of c) (char_class c)).

Lemma chars_checked : forallb char_ok (seq 0 256) = true.
Proof. vm_compute. reflexivity. Qed.

Lemma numbers_elem lo n x : In x (numbers lo n) <-> Z.of_nat lo <= x < Z.of_nat lo + Z.of_nat n.
Proof.
  unfold numbers. rewrite in_map_iff. split.
  - intros (k & <- & Hk%in_seq). lia.
  - intros H. exists (Z.to_nat x). rewrite in_seq. lia.
Qed.

Lemma live_elem s : live s -> In s live_states.
Proof.
  intros [H H3]. unfold live_states. rewrite filter_In, numbers_elem. unfold YY_JAM in H.
  split; [lia|]. by apply negb_true_iff, Z.eqb_neq.
Qed.

Lemma liveb_live s : liveb s = true -> live s.
Proof. unfold liveb, live. rewrite !andb_true_iff, negb_true_iff, Z.leb_le, Z.ltb_lt, Z.eqb_neq. tauto. Qed.

#[local] Opaque fast_table fast_lookup live_states yy_lookup at_table.

Lemma forallb_ext {A} (f g : A -> bool) l : (forall x, f x = g x) -> forallb f l = forallb g l.
Proof. intros H. induction l as [|x l IH]; [done|]. cbn. by rewrite H, IH. Qed.

Lemma checks_ext tr tr' ac ac' s : (forall s c, tr s c = tr' s c) -> (forall s, ac s = ac' s) ->
  live_state_ok tr ac s = live_state_ok tr' ac' s /\ start_state_ok tr ac s = start_state_ok tr' ac' s.
Proof.
  intros Ht Ha. unfold live_state_ok, start_state_ok. rewrite (Ha s), (Ht s 0).
  split; [apply (f_equal2 andb); [apply (f_equal2 andb)|]|apply (f_equal2 andb)]; try done; apply forallb_ext; intros c; rewrite Ht; [done|].
  destruct (tr' s c); cbn; by rewrite ?Ha.
Qed.

Lemma automaton_parts :
  (forall s, live s -> live_state_ok yy_transition (at_table yy_accept) s = true)
  /\ (forall bol : bool, start_state_ok yy_transition (at_table yy_accept) (if bol then 2 else 1) = true)
  /\ (forall c, 0 <= c <= 74 -> is_state (Z.eqb YY_JAM) (yy_transition 3 c) = true).
Proof.
  pose proof automaton_checked as H. unfold automaton_ok in H. cbv zeta in H.
  apply andb_true_iff in H as [[Hl Hs]%andb_true_iff He]. rewrite forallb_forall in Hl, Hs, He.
  pose proof (fun s => checks_ext _ yy_transition _ _ s (fast_lookup_eq 5) (at_fast_eq yy_accept)) as E.
  split; [|split].
  - intros s Hs'. rewrite <- (proj1 (E s)). by apply Hl, live_elem.
  - intros bol. rewrite <- (proj2 (E _)). apply Hs. destruct bol; cbn; auto.
  - intros c Hc. unfold yy_transition. rewrite <- fast_lookup_eq. apply He. rewrite numbers_elem. lia.
Qed.

Lemma char_checked c : char_ok (nat_of_ascii c) = true.
Proof.
  pose proof chars_checked as H. rewrite forallb_forall in H. apply H, in_seq. pose proof (nat_ascii_bounded c). lia.
Qed.

Lemma live_table s : live s -> (forall c, 1 <= c <= 74 -> yy_transition s c = Ret (step s c) /\ (step s c = YY_JAM \/ live (step s c)))
  /\ yy_transition s 0 = Ret 3 /\ at_table yy_accept s = Ret (accepts s) /\ 0 <= accepts s <= 65.
Proof.
  intros Hl. pose proof (proj1 automaton_parts s Hl) as H. unfold live_state_ok in H.
  apply andb_true_iff in H as [[Hc H3]%andb_true_iff Ha]. rewrite forallb_forall in Hc.
  apply (is_state_ret _ _ 0) in H3 as [E3 H3%Z.eqb_eq]. apply (is_state_ret _ _ 0) in Ha as [Ea Ha].
  apply andb_true_iff in Ha as [Hlo%Z.leb_le Hhi%Z.leb_le]. split; [|split; [by rewrite H3|by split]].
  intros c Hr. specialize (Hc c). rewrite numbers_elem in Hc. specialize (Hc ltac:(lia)).
  apply (is_state_ret _ _ YY_JAM) in Hc as [E Hj]. split; [exact E|].
  apply orb_true_iff in Hj as [Hj%Z.eqb_eq|Hj%liveb_live]; auto.
Qed.

Lemma char_table c : text_class c = Ret (class_of c) /\ 1 <= class_of c <= 74 /\ (c <> zero -> char_class c = Ret (class_of c)).
Proof.
  pose proof (char_checked c) as H. unfold char_ok in H. rewrite ascii_nat_embedding in H.
  apply andb_true_iff in H as [Ht He]. apply (is_state_ret _ _ 0) in Ht as [Et [Hlo%Z.leb_le Hhi%Z.leb_le]%andb_true_iff].
  split; [exact Et|]. split; [by split|]. intros Hne.
  apply orb_true_iff in He as [He%bool_decide_eq_true|He]; [done|].
  apply (is_state_ret _ _ 0) in He as [Ek He%Z.eqb_eq]. rewrite Ek. f_equal. exact He.
Qed.

Lemma start_table (bol : bool) : let s := if bol then 2 else 1 in
  live s /\ accepts s = 0 /\ forall c, 1 <= c <= 74 -> live (step s c) /\ accepts (step s c) <> 0.
Proof.
  intros s. pose proof (proj1 (proj2 automaton_parts) bol) as H. fold s in H.
  split; [subst s; unfold live, YY_JAM; destruct bol; lia|]. unfold start_state_ok in H. apply andb_true_iff in H as [Ha Hc].
  apply (is_state_ret _ _ 0) in Ha as [_ Ha%Z.eqb_eq]. split; [symmetry; exact Ha|]. intros c Hr.
  rewrite forallb_forall in Hc. specialize (Hc c). rewrite numbers_elem in Hc. specialize (Hc ltac:(lia)).
  apply (is_state_ret _ _ YY_JAM) in Hc as [_ [Hl%liveb_live Hn]%andb_true_iff].
  apply (is_state_ret _ _ 0) in Hn as [_ Hn%negb_true_iff%Z.eqb_neq]. split; [exact Hl|exact Hn].
Qed.

Lemma eob_table : at_table yy_accept 3 = Ret YY_END_OF_BUFFER /\ forall c, 0 <= c <= 74 -> yy_transition 3 c = Ret YY_JAM.
Proof.
  split; [reflexivity|]. intros c Hr. pose proof (proj2 (proj2 automaton_parts) c Hr) as H.
  apply (is_state_ret _ _ 0) in H as [E He%Z.eqb_eq]. rewrite E. f_equal. by symmetry.
Qed.

Lemma char_class_any c : exists k, char_class c = Ret k /\ 0 <= k <= 74.
Proof.
  destruct (decide (c = zero)) as [->|Hne]; [exists 0; split; [reflexivity|lia]|].
  destruct (char_table c) as (_ & Hr & Hc). exists (class_of c). split; [auto|lia].
Qed.

(** ** The automaton on a text *)

(** The last place that accepted, if there was one, counted from the beginning of the token. *)
Definition noted (st : Z) (n : nat) (l : option place) : option place := if accepts st =? 0 then l else Some (st, n).

(** The state behind the text, or, when there is no way on, the last place that accepted. *)
Fixpoint walk (text : cstring) (st : Z) (n : nat) (l : option place) : (Z * option place) + option place :=
  match text with
  | [] => inl (st, l)
  | ch :: text =>
    let next := step st (class_of ch) in
    if next =? YY_JAM then inr (noted st n l) else walk text next (S n) (noted st n l)
  end.

Definition start_of (bol : bool) : Z := if bol then 2 else 1.

(** The longest beginning of the text that the automaton accepts. *)
Definition verdict (bol : bool) (text : cstring) : option place :=
  match walk text (start_of bol) 0 None with inl (st, l) => noted st (List.length text) l | inr l => l end.

Lemma walk_app t1 t2 st n l : walk (t1 ++ t2) st n l =
  match walk t1 st n l with inl (st', l') => walk t2 st' (n + List.length t1) l' | inr l' => inr l' end.
Proof.
  revert st n l. induction t1 as [|ch t1 IH]; intros st n l; cbn [app walk]; [by rewrite Nat.add_0_r|].
  destruct (_ =? YY_JAM); [done|]. rewrite IH. cbn [List.length]. by rewrite Nat.add_succ_comm.
Qed.

Lemma walk_live t st n l st' l' : live st -> walk t st n l = inl (st', l') -> live st'.
Proof.
  revert st n l. induction t as [|ch t IH]; intros st n l Hl; cbn [walk]; [by intros [= <- _]|].
  destruct (char_table ch) as (_ & Hr & _). destruct (proj1 (live_table st Hl) _ Hr) as [_ Hn].
  destruct (Z.eqb_spec (step st (class_of ch)) YY_JAM); [done|]. apply IH. by destruct Hn.
Qed.

(** A place that the automaton notes accepts a rule and lies inside the text. *)
Definition good (n : nat) (l : option place) : Prop :=
  match l with Some (q, m) => 1 <= accepts q <= 65 /\ (1 <= m <= n)%nat | None => False end.

Lemma noted_good st n l : live st -> accepts st <> 0 \/ good n l -> (1 <= n)%nat -> good n (noted st n l).
Proof.
  intros Hl H Hn. destruct (live_table st Hl) as (_ & _ & _ & Ha). unfold noted.
  destruct (Z.eqb_spec (accepts st) 0); [by destruct H|]. cbn. lia.
Qed.

Lemma good_mono n n' l : (n <= n')%nat -> good n l -> good n' l.
Proof. destruct l as [[q m]|]; cbn; [lia|done]. Qed.

Lemma walk_good t st n l : live st -> accepts st <> 0 \/ good n l -> (1 <= n)%nat ->
  match walk t st n l with
  | inl (st', l') => live st' /\ (accepts st' <> 0 \/ good (n + List.length t) l')
  | inr l' => good (n + List.length t) l'
  end.
Proof.
  revert st n l. induction t as [|ch t IH]; intros st n l Hl H Hn; cbn [walk].
  { split; [done|]. rewrite Nat.add_0_r. tauto. }
  destruct (char_table ch) as (_ & Hr & _). destruct (proj1 (live_table st Hl) _ Hr) as [_ Hnext].
  pose proof (noted_good st n l Hl H Hn) as Hg.
  destruct (Z.eqb_spec (step st (class_of ch)) YY_JAM); [eapply good_mono, Hg; lia|].
  specialize (IH (step st (class_of ch)) (S n) (noted st n l)). cbn [List.length]. rewrite <- Nat.add_succ_comm.
  apply IH; [by destruct Hnext| |lia]. right. eapply good_mono, Hg. lia.
Qed.

(** The first character never jams, and is accepted. *)
Lemma walk_start bol ch t : walk (ch :: t) (start_of bol) 0 None = walk t (step (start_of bol) (class_of ch)) 1 None.
Proof.
  destruct (start_table bol) as (_ & Ha & Hn). destruct (char_table ch) as (_ & Hr & _). destruct (Hn _ Hr) as [Hl _].
  fold (start_of bol) in Hl, Ha. cbn [walk]. rewrite (proj2 (Z.eqb_neq _ _)) by (unfold live, YY_JAM in *; lia).
  unfold noted. by rewrite Ha.
Qed.

Lemma walk_start_good bol t : t <> [] ->
  match walk t (start_of bol) 0 None with
  | inl (st', l') => live st' /\ (accepts st' <> 0 \/ good (List.length t) l')
  | inr l' => good (List.length t) l'
  end.
Proof.
  destruct t as [|ch t]; [done|]. intros _. rewrite walk_start. destruct (start_table bol) as (_ & _ & Hn).
  destruct (char_table ch) as (_ & Hr & _). destruct (Hn _ Hr) as [Hl Ha]. fold (start_of bol) in Hl, Ha.
  exact (walk_good t _ 1 None Hl (or_introl Ha) (Nat.le_refl _)).
Qed.

Lemma verdict_good bol t : t <> [] -> good (List.length t) (verdict bol t).
Proof.
  intros Hne. pose proof (walk_start_good bol t Hne) as H. unfold verdict.
  destruct (walk t (start_of bol) 0 None) as [[st l]|l]; [|done]. destruct H as [Hl H].
  apply noted_good; [done|done|]. destruct t; [done|cbn; lia].
Qed.

(** ** The loops on the buffer *)

#[local] Opaque step accepts class_of yy_transition char_class text_class.

(** A place counted from [b]; [d] is what was noted before this token. *)
Definition conc (b : nat) (d : place) (l : option place) : place := match l with Some (q, m) => (q, b + m)%nat | None => d end.

Lemma note_conc b d st n l : live st -> note_accepting (st, b + n)%nat (conc b d l) = Ret (conc b d (noted st n l)).
Proof.
  intros Hl. destruct (live_table st Hl) as (_ & _ & Ha & _). unfold note_accepting, noted. cbn [fst]. rewrite Ha. cbn [obind].
  by destruct (accepts st =? 0).
Qed.

Lemma step_live st c : live st -> yy_transition st (class_of c) = Ret (step st (class_of c))
  /\ (step st (class_of c) <> YY_JAM -> live (step st (class_of c))).
Proof.
  intros Hl. destruct (char_table c) as (_ & Hr & _). destruct (proj1 (live_table st Hl) _ Hr) as [E Hn].
  split; [done|]. intros Hne. by destruct Hn.
Qed.

(** Up to the first null character, [yy_match] does what the automaton does; there it stops in
    state 3. *)
Lemma yy_match_ok w c tl b d st n l : zero ∉ w -> live st ->
  yy_match (w ++ zero :: c :: tl) (st, b + n)%nat (conc b d l)
  = Ret (match walk w st n l with inl _ => (3, (b + (n + List.length w) + 1)%nat) | inr l' => conc b d l' end).
Proof.
  revert st n l. induction w as [|ch w IH]; intros st n l Hz Hl; cbn [app yy_match walk].
  - change (char_class zero) with (Ret 0). cbn [obind]. rewrite note_conc by done. cbn [obind fst snd].
    destruct (live_table st Hl) as (_ & -> & _). cbn [obind]. change (3 =? YY_JAM) with false. cbv iota.
    destruct (char_class_any c) as (k & -> & Hk). cbn [obind]. unfold note_accepting. cbn [fst]. destruct eob_table as [-> He].
    cbn [obind]. rewrite He by done. cbn [obind List.length]. do 2 f_equal. change (YY_END_OF_BUFFER =? 0) with false. cbv iota. f_equal. lia.
  - apply not_elem_of_cons in Hz as [Hne Hz]. destruct (char_table ch) as (_ & Hr & Hc). rewrite Hc by done. cbn [obind].
    rewrite note_conc by done. cbn [obind fst snd]. destruct (step_live st ch Hl) as [-> Hn]. cbn [obind].
    destruct (Z.eqb_spec (step st (class_of ch)) YY_JAM); [done|]. rewrite <- Nat.add_succ_r.
    rewrite IH by auto. cbn [List.length]. destruct (walk _ _ _ _); [|done]. do 2 f_equal. lia.
Qed.

(** The states up to a place that was reached are found again. *)
Lemma previous_state_ok w b d st n l st' l' : live st -> walk w st n l = inl (st', l') ->
  yy_get_previous_state w (st, b + n)%nat (conc b d l) = Ret ((st', b + (n + List.length w))%nat, conc b d l').
Proof.
  revert st n l. induction w as [|ch w IH]; intros st n l Hl; cbn [yy_get_previous_state walk].
  - intros [= <- <-]. cbn [List.length]. by rewrite Nat.add_0_r.
  - destruct (char_table ch) as (Ht & _ & _). rewrite Ht. cbn [obind]. rewrite note_conc by done. cbn [obind fst snd].
    destruct (step_live st ch Hl) as [-> Hn]. cbn [obind]. destruct (Z.eqb_spec (step st (class_of ch)) YY_JAM); [done|].
    intros H. rewrite <- Nat.add_succ_r. rewrite (IH _ _ _ (Hn ltac:(done)) H). cbn [List.length]. do 3 f_equal. lia.
Qed.

Lemma try_NUL_ok b d st n l : live st ->
  yy_try_NUL_trans (st, b + n)%nat (conc b d l)
  = Ret (match walk [zero] st n l with inl (st', l') => (Some st', conc b d l') | inr l' => (None, conc b d l') end).
Proof.
  intros Hl. unfold yy_try_NUL_trans. rewrite note_conc by done. cbn [obind fst walk].
  destruct (step_live st zero Hl) as [E _]. change (class_of zero) with 1 in E |- *. rewrite E. cbn [obind].
  by destruct (step st 1 =? YY_JAM).
Qed.

(** ** The buffer *)

Definition MAX_TEXT : Z := 2 ^ 29.

(** What is left of the text from position [b] on. *)
Definition text_from (b : nat) (s : Scan) : cstring := drop b (yy_ch_buf s) ++ unread s.

Record scan_ok (s : Scan) : Prop := {
  so_size : Z.of_nat (n_chars s) + 1 <= yy_buf_size s;
  so_bound : size (yy_ch_buf s ++ unread s) < MAX_TEXT;
  so_pending : yy_buffer_status s = YY_BUFFER_EOF_PENDING -> unread s = [];
  so_text : (yytext_ptr s <= n_chars s)%nat;
}.

Lemma grow_ok fuel size n : 0 <= n -> n + 1 <= size -> n < MAX_TEXT -> exists size', grow_buffer (S (S fuel)) size n = Ret size' /\ n + 1 < size' /\ size <= size'.
Proof.
  intros Hn Hs Hb. unfold MAX_TEXT in Hb. cbn [grow_buffer]. destruct (Z.ltb_spec 0 (size - n - 1)); [exists size; split; [done|lia]|].
  assert (size = n + 1) as -> by lia. rewrite s32_small by lia. rewrite (proj2 (Z.leb_gt _ _)) by lia.
  rewrite (proj2 (Z.ltb_lt _ _)) by lia. exists ((n + 1) * 2). split; [done|lia].
Qed.

Lemma get_lex_chars_ok text n : 0 < n -> size text < MAX_TEXT -> exists a b, get_lex_chars text n = (a, b) /\ text = a ++ b
  /\ (text <> [] -> a <> []) /\ size a <= n.
Proof.
  intros Hn Hb. unfold get_lex_chars. case_bool_decide as He.
  { subst. exists [], []. repeat (split; [done|]). unfold size. cbn. lia. }
  assert (0 < size text) as Hpos by (unfold size; destruct text; [done|cbn; lia]). unfold MAX_TEXT in Hb.
  rewrite s32_small by lia. rewrite (proj2 (Z.ltb_ge (size text) 0)) by lia. cbn [orb].
  set (k := if n <? size text then n else size text). assert (0 < k <= n /\ k <= size text) as [Hk Hk'].
  { unfold k. destruct (Z.ltb_spec n (size text)); lia. }
  eexists _, _. split; [reflexivity|]. split; [by rewrite take_drop|]. split.
  - intros _. destruct text as [|c text]; [done|]. destruct (Z.to_nat k) eqn:E; [lia|]. done.
  - unfold size in *. rewrite length_take. lia.
Qed.

(** What [yy_find_action] is to return on a text. *)
Definition found (bol : bool) (text : cstring) (o : outcome (Z * nat * Scan)) : Prop :=
  match verdict bol text with
  | None => text = [] /\ exists s', o = Ret (0, 0%nat, s') /\ scan_ok s' /\ yytext_ptr s' = 0%nat /\ yy_c_buf_p s' = 0%nat
      /\ text_from 0 s' = [] /\ yy_at_bol s' = true
  | Some (q, m) => exists s', o = Ret (accepts q, (yytext_ptr s' + m)%nat, s') /\ scan_ok s' /\ text_from (yytext_ptr s') s' = text
      /\ yy_c_buf_p s' = (yytext_ptr s' + m)%nat /\ yy_at_bol s' = bol /\ (yytext_ptr s' + m <= n_chars s')%nat
  end.

Lemma split_zero (t : cstring) : exists w r, t = w ++ r /\ (zero ∉ w) /\ (r = [] \/ exists r', r = zero :: r').
Proof.
  induction t as [|c t (w & r & -> & Hw & Hr)]; [exists [], []; split; [done|split; [apply not_elem_of_nil|by left]]|].
  destruct (decide (c = zero)) as [->|Hc].
  - exists [], (zero :: w ++ r). split; [done|]. split; [apply not_elem_of_nil|right; by eexists].
  - exists (c :: w), r. split; [done|]. split; [|done]. by apply not_elem_of_cons.
Qed.

Lemma set_positions_ok b p s : scan_ok s -> (b <= n_chars s)%nat -> scan_ok (set_positions b p s).
Proof. intros [? ? ? ?] Hb. by split. Qed.

(** A place that accepts a rule ends the search. *)
Lemma settle fuel s q m last : 1 <= accepts q <= 65 -> live q ->
  yy_find_action (S fuel) s (q, m) last = Ret (accepts q, m, set_positions (yytext_ptr s) m s).
Proof.
  intros Ha Hl. cbn [yy_find_action fst snd]. destruct (live_table q Hl) as (_ & _ & -> & _). cbn [obind].
  rewrite (proj2 (Z.eqb_neq _ 0)) by lia. rewrite (proj2 (Z.eqb_neq _ YY_END_OF_BUFFER)) by (unfold YY_END_OF_BUFFER; lia). done.
Qed.

Lemma noted_live st n l q m : live st -> (forall q m, l = Some (q, m) -> live q) -> noted st n l = Some (q, m) -> live q.
Proof. unfold noted. destruct (accepts st =? 0); [eauto|]. by intros ? _ [= <- _]. Qed.

Lemma walk_places t st n l : live st -> (forall q m, l = Some (q, m) -> live q) ->
  forall q m, (match walk t st n l with inl (_, l') => l' | inr l' => l' end) = Some (q, m) -> live q.
Proof.
  revert st n l. induction t as [|ch t IH]; intros st n l Hl Hp q m; cbn [walk]; [apply Hp|].
  destruct (step_live st ch Hl) as [_ Hn]. destruct (Z.eqb_spec (step st (class_of ch)) YY_JAM); [by apply noted_live|].
  apply IH; [by apply Hn|]. intros q' m'. by apply noted_live.
Qed.

Lemma start_live bol : live (start_of bol).
Proof. apply start_table. Qed.

Lemma walk_start_places bol t q m :
  (match walk t (start_of bol) 0 None with inl (_, l') => l' | inr l' => l' end) = Some (q, m) -> live q.
Proof. by apply walk_places; [apply start_live|]. Qed.

(** An end that the automaton finds inside the buffer. *)
Lemma settle_jam fuel s bol t l d : scan_ok s -> yy_at_bol s = bol -> text_from (yytext_ptr s) s = t -> verdict bol t = l ->
  good (n_chars s - yytext_ptr s) l -> (forall q m, l = Some (q, m) -> live q) ->
  found bol t (yy_find_action (S fuel) s (conc (yytext_ptr s) d l) (conc (yytext_ptr s) d l)).
Proof.
  intros Hs Hb Ht Hv Hg Hp. unfold found. rewrite Hv in *. destruct l as [[q m]|]; [|done].
  destruct Hg as [Ha Hm]. cbn [conc]. rewrite settle by eauto.
  exists (set_positions (yytext_ptr s) (yytext_ptr s + m) s). split; [reflexivity|].
  split; [apply set_positions_ok; [done|exact (so_text s Hs)]|]. split; [done|]. split; [done|]. split; [done|].
  change (yytext_ptr s + m <= n_chars s)%nat. pose proof (so_text s Hs). lia.
Qed.

(** The place of the automaton in the buffer: [P] is behind it, [Q] before it. *)
Record at_place (s : Scan) (P Q : cstring) (st : Z) (l : option place) : Prop := {
  ap_ok : scan_ok s;
  ap_text : drop (yytext_ptr s) (yy_ch_buf s) = P ++ Q;
  ap_walk : walk P (start_of (yy_at_bol s)) 0 None = inl (st, l);
}.

Lemma at_place_live s P Q st l : at_place s P Q st l -> live st.
Proof. intros [_ _ H]. eapply walk_live, H. apply start_live. Qed.

Lemma at_place_length s P Q st l : at_place s P Q st l -> n_chars s = (yytext_ptr s + List.length P + List.length Q)%nat.
Proof. intros [[_ _ _ Hp] H _]. apply (f_equal List.length) in H. rewrite length_drop, length_app in H. unfold n_chars in *. lia. Qed.

Lemma at_place_buffer s P Q st l : at_place s P Q st l ->
  drop (yytext_ptr s + List.length P) (buffer s) = Q ++ [zero; zero].
Proof.
  intros H. pose proof (at_place_length _ _ _ _ _ H) as Hn. destruct H as [Hok Ht _]. unfold buffer.
  rewrite drop_app_le by (unfold n_chars in Hn; lia). rewrite <- drop_drop, Ht, drop_app_length. done.
Qed.

Lemma at_place_advance s P w Q st l st' l' : at_place s P (w ++ Q) st l -> walk w st (List.length P) l = inl (st', l') ->
  at_place s (P ++ w) Q st' l'.
Proof.
  intros [Hok Ht Hw] H. split; [done|by rewrite <- app_assoc|]. rewrite walk_app, Hw. done.
Qed.

Lemma at_place_positions s P Q st l p : at_place s P Q st l -> at_place (set_positions (yytext_ptr s) p s) P Q st l.
Proof. intros [Hok ? ?]. split; [|done|done]. apply set_positions_ok; [done|exact (so_text s Hok)]. Qed.

Lemma at_place_token s P Q st l : at_place s P Q st l -> yy_c_buf_p s = (yytext_ptr s + List.length P)%nat -> token_so_far s = P.
Proof. intros [_ Ht _] Hp. unfold token_so_far. rewrite Ht, Hp. rewrite Nat.add_comm, Nat.add_sub. by rewrite take_app_length. Qed.

(** The states of the token so far, found again. *)
Lemma at_place_previous s P Q st l d : at_place s P Q st l -> yy_c_buf_p s = (yytext_ptr s + List.length P)%nat ->
  yy_get_previous_state (token_so_far s) (start_state s, yytext_ptr s) d
  = Ret ((st, (yytext_ptr s + List.length P)%nat), conc (yytext_ptr s) d l).
Proof.
  intros H Hp. rewrite (at_place_token _ _ _ _ _ H Hp). destruct H as [_ _ Hw].
  pose proof (previous_state_ok P (yytext_ptr s) d _ 0 None st l (start_live _) Hw) as E. rewrite Nat.add_0_r in E.
  exact E.
Qed.

(** The same text in a new buffer. *)
Lemma at_place_moved s P st l chars rest p status sz :
  at_place s P [] st l -> unread s = chars ++ rest -> Z.of_nat (List.length (P ++ chars)) + 1 <= sz ->
  (status = YY_BUFFER_EOF_PENDING -> rest = []) ->
  at_place (mkScan (P ++ chars) 0 p (yy_at_bol s) status sz rest) P chars st l.
Proof.
  intros [[Hz Hb Hp Ht] Htx Hw] Hu Hsz Hst. split; [split|done|done]; cbn [yy_ch_buf unread yy_buffer_status yy_buf_size yytext_ptr n_chars].
  - done.
  - revert Hb. rewrite Hu. unfold size. rewrite app_nil_r in Htx.
    rewrite <- (take_drop (yytext_ptr s) (yy_ch_buf s)), Htx. rewrite !length_app. lia.
  - done.
  - lia.
Qed.

Lemma read_more_ok s n : scan_ok s -> Z.of_nat n + 1 <= yy_buf_size s -> size (unread s) < MAX_TEXT -> Z.of_nat n < MAX_TEXT ->
  exists chars rest sz, read_more s (Z.of_nat n) = Ret (chars, rest, sz) /\ unread s = chars ++ rest
    /\ (unread s <> [] -> chars <> []) /\ Z.of_nat (n + List.length chars) + 1 <= sz.
Proof.
  intros [_ _ Hpend _] Hz Hu HP. unfold read_more.
  destruct (grow_ok 62 (yy_buf_size s) (Z.of_nat n)) as (sz & Eg & Hg & _); [lia|lia|done|].
  destruct (get_lex_chars_ok (unread s) (Z.min (sz - Z.of_nat n - 1) YY_READ_BUF_SIZE)) as (a & b & Ea & Hab & Hna & Hsa);
    [unfold YY_READ_BUF_SIZE; lia|done|].
  assert (Z.of_nat (n + List.length a) + 1 <= sz) as Hall by (unfold size in Hsa; lia).
  destruct (yy_buffer_status s) eqn:Es; [exists a, b, sz; rewrite Eg; cbn [obind]; rewrite Ea; by split..|].
  exists [], (unread s), (yy_buf_size s). rewrite (Hpend eq_refl). repeat (split; [done|]). cbn. lia.
Qed.

(** The next piece of the text, or the end of it. *)
Lemma next_buffer_ok s P st l : at_place s P [] st l -> yy_c_buf_p s = (yytext_ptr s + List.length P + 1)%nat ->
  exists a s', yy_get_next_buffer s = Ret (a, s') /\
  match a with
  | EOB_ACT_END_OF_FILE => P = [] /\ unread s = [] /\ scan_ok s' /\ yytext_ptr s' = 0%nat /\ yy_ch_buf s' = [] /\ unread s' = [] /\ yy_at_bol s' = true
  | EOB_ACT_LAST_MATCH => P <> [] /\ unread s = [] /\ at_place s' P [] st l /\ yytext_ptr s' = 0%nat /\ unread s' = [] /\ yy_at_bol s' = yy_at_bol s
  | EOB_ACT_CONTINUE_SCAN => exists chars, chars <> [] /\ unread s = chars ++ unread s' /\ at_place s' P chars st l /\ yytext_ptr s' = 0%nat
      /\ yy_at_bol s' = yy_at_bol s
  end.
Proof.
  intros H Hp. pose proof (at_place_length _ _ _ _ _ H) as Hn. cbn [List.length] in Hn. rewrite Nat.add_0_r in Hn.
  pose proof H as [[Hz Hb Hpend Hptr] Ht _]. rewrite app_nil_r in Ht. unfold yy_get_next_buffer.
  rewrite (proj2 (Nat.ltb_ge _ _)) by lia. rewrite Hp. replace (yytext_ptr s + List.length P + 1 - yytext_ptr s - 1)%nat with (List.length P) by lia.
  cbv zeta. rewrite Ht, firstn_all.
  assert (size (unread s) < MAX_TEXT /\ Z.of_nat (List.length P) < MAX_TEXT) as [Hu HP].
  { revert Hb. unfold size. rewrite length_app. unfold n_chars in Hn. lia. }
  destruct (read_more_ok s (List.length P) (ap_ok _ _ _ _ _ H) ltac:(lia) Hu HP) as (chars & rest & sz & -> & Hur & Hne & Hsz).
  assert (Z.of_nat (List.length (P ++ chars)) + 1 <= sz) as Hsz' by (rewrite length_app; lia).
  cbn [obind]. destruct chars as [|c chars].
  - assert (unread s = []) as Hnil by (destruct (unread s); [done|by exfalso; apply Hne]).
    rewrite Hnil in Hur. cbn [app] in Hur. subst rest. destruct P as [|p P]; cbn [List.length].
    + do 2 eexists. split; [reflexivity|]. cbn in Hsz. split; [done|]. split; [done|]. split; [|done].
      split; cbn; [lia|done|done|lia].
    + do 2 eexists. split; [reflexivity|]. split; [done|]. split; [done|]. split; [|done].
      pose proof (at_place_moved s (p :: P) st l [] [] (yytext_ptr s + List.length (p :: P) + 1) YY_BUFFER_EOF_PENDING sz H Hnil Hsz' (fun _ => eq_refl)) as Hm.
      rewrite app_nil_r in Hm. exact Hm.
  - do 2 eexists. split; [reflexivity|]. exists (c :: chars). split; [done|]. split; [done|]. split; [|done].
    apply at_place_moved; [done|done|done|]. intros Hst. specialize (Hpend Hst). by rewrite Hpend in Hur.
Qed.

(** [yy_match] from a place, up to the first null character or the end of the buffer. *)
Lemma match_from_place s P w r st l d : at_place s P (w ++ r) st l -> zero ∉ w -> (r = [] \/ exists r', r = zero :: r') ->
  yy_match (drop (yytext_ptr s + List.length P) (buffer s)) (st, (yytext_ptr s + List.length P)%nat) (conc (yytext_ptr s) d l)
  = Ret (match walk w st (List.length P) l with
         | inl _ => (3, (yytext_ptr s + List.length (P ++ w) + 1)%nat) | inr l' => conc (yytext_ptr s) d l' end).
Proof.
  intros H Hz Hr. rewrite (at_place_buffer _ _ _ _ _ H), length_app.
  assert (exists c tl, (w ++ r) ++ [zero; zero] = w ++ zero :: c :: tl) as (c & tl & ->).
  { destruct Hr as [->|[[|c r'] ->]]; rewrite <- !app_assoc; cbn; eauto. }
  apply yy_match_ok; [done|by eapply at_place_live].
Qed.

Lemma text_at_place s P Q st l : at_place s P Q st l -> text_from (yytext_ptr s) s = P ++ Q ++ unread s.
Proof. intros [_ H _]. unfold text_from. by rewrite H, <- app_assoc. Qed.

(** A way that ends inside the buffer. *)
Lemma jam_verdict s P w r st l l' : at_place s P (w ++ r) st l -> walk w st (List.length P) l = inr l' ->
  verdict (yy_at_bol s) (P ++ (w ++ r) ++ unread s) = l' /\ good (n_chars s - yytext_ptr s) l'
  /\ forall q m, l' = Some (q, m) -> live q.
Proof.
  intros H Hj0. pose proof (at_place_length _ _ _ _ _ H) as Hn. destruct H as [_ _ Hw].
  assert (walk (P ++ w) (start_of (yy_at_bol s)) 0 None = inr l') as Hj by by rewrite walk_app, Hw.
  split; [|split].
  - unfold verdict. rewrite <- app_assoc, app_assoc, walk_app, Hj. done.
  - pose proof (walk_start_good (yy_at_bol s) (P ++ w)) as Hg. rewrite Hj in Hg. eapply good_mono, Hg.
    + rewrite !length_app in *. lia.
    + by destruct P; [destruct w|].
  - intros q m ->. eapply (walk_start_places _ (P ++ w)). by rewrite Hj.
Qed.

Lemma no_longer_new_same s : yy_ch_buf (no_longer_new s) = yy_ch_buf s /\ yytext_ptr (no_longer_new s) = yytext_ptr s
  /\ yy_c_buf_p (no_longer_new s) = yy_c_buf_p s /\ yy_at_bol (no_longer_new s) = yy_at_bol s /\ unread (no_longer_new s) = unread s
  /\ yy_buf_size (no_longer_new s) = yy_buf_size s /\ (yy_buffer_status (no_longer_new s) = YY_BUFFER_EOF_PENDING -> yy_buffer_status s = YY_BUFFER_EOF_PENDING).
Proof. unfold no_longer_new. destruct (yy_buffer_status s) eqn:E; cbn; try rewrite E; done. Qed.

Lemma at_place_stopped s P Q st l : at_place s P Q st l -> at_place (no_longer_new s) P Q st l.
Proof.
  pose proof (no_longer_new_same s) as (E1 & E2 & E3 & E4 & E5 & E6 & E7). set (s' := no_longer_new _) in *. intros [[? ? ? ?] ? ?].
  unfold n_chars in *. split; [split|..]; unfold n_chars; rewrite ?E1, ?E2, ?E4, ?E5, ?E6; try done. intros Hp. auto.
Qed.

(** Going on from a place finds what is to be found. *)
Definition search (fuel : nat) (s : Scan) (P : cstring) (st : Z) (last : place) : outcome (Z * nat * Scan) :=
  let? last := yy_match (drop (yytext_ptr s + List.length P) (buffer s)) (st, (yytext_ptr s + List.length P)%nat) last in
  yy_find_action fuel s last last.

Definition searches (fuel : nat) : Prop := forall s P Q st l d, at_place s P Q st l ->
  (2 * List.length (unread s) + List.length Q + 3 <= fuel)%nat ->
  found (yy_at_bol s) (P ++ Q ++ unread s) (search fuel s P st (conc (yytext_ptr s) d l)).

(** A null character of the text. *)
Lemma null_character fuel s P r st l d : searches fuel -> at_place s P (zero :: r) st l ->
  (2 * List.length (unread s) + List.length r + 3 <= fuel)%nat -> yy_c_buf_p s = (yytext_ptr s + List.length P + 1)%nat ->
  found (yy_at_bol s) (P ++ (zero :: r) ++ unread s) (end_of_buffer (yy_find_action fuel) s d).
Proof.
  intros IH H Hf Hp. unfold end_of_buffer. cbv zeta. pose proof (at_place_length _ _ _ _ _ H) as Hn. cbn [List.length] in Hn.
  rewrite Hp, (proj2 (Nat.leb_le _ _)) by lia. replace (yytext_ptr s + List.length P + 1 - yytext_ptr s - 1)%nat with (List.length P) by lia.
  set (s1 := set_positions _ _ s). assert (at_place s1 P (zero :: r) st l) as H1 by by apply at_place_positions.
  change (yytext_ptr s) with (yytext_ptr s1). change (unread s) with (unread s1) in *. change (yy_at_bol s) with (yy_at_bol s1).
  rewrite (at_place_previous s1 P (zero :: r) st l d H1 eq_refl). cbn [obind].
  rewrite try_NUL_ok by (by eapply at_place_live). cbn [obind].
  destruct (walk [zero] st (List.length P) l) as [[st2 l2]|l2] eqn:Ew.
  - pose proof (at_place_advance s1 P [zero] r st l st2 l2 H1 Ew) as H2.
    apply (at_place_positions _ _ _ _ _ (S (yy_c_buf_p s1))) in H2. set (s2 := set_positions _ _ s1) in *.
    assert (yy_c_buf_p s2 = yytext_ptr s2 + List.length (P ++ [zero]))%nat as -> by (rewrite length_app; cbn; lia).
    change (unread s1) with (unread s2) in *. change (yy_at_bol s1) with (yy_at_bol s2). change (yytext_ptr s1) with (yytext_ptr s2).
    replace (P ++ (zero :: r) ++ unread s2) with ((P ++ [zero]) ++ r ++ unread s2) by (by rewrite <- app_assoc).
    by apply (IH s2 (P ++ [zero]) r st2 l2).
  - destruct (jam_verdict s1 P [zero] r st l l2 H1 Ew) as (Hv & Hne & Hpl). destruct fuel as [|fuel]; [lia|].
    apply settle_jam; try done; [apply H1|]. by apply (text_at_place _ _ _ _ _ H1).
Qed.

(** The end of the text, with characters before it. *)
Lemma last_match fuel s P st l d : at_place s P [] st l -> P <> [] -> unread s = [] ->
  found (yy_at_bol s) P (yy_find_action (S (S fuel)) s (st, (yytext_ptr s + List.length P)%nat) (conc (yytext_ptr s) d l)).
Proof.
  intros H Hne Hu. pose proof (text_at_place _ _ _ _ _ H) as Ht. rewrite Hu in Ht. cbn [app] in Ht. rewrite app_nil_r in Ht.
  pose proof (at_place_live _ _ _ _ _ H) as Hl. pose proof (at_place_length _ _ _ _ _ H) as Hn. cbn [List.length] in Hn. destruct H as [Hok _ Hw].
  assert (verdict (yy_at_bol s) P = noted st (List.length P) l) as Hv by (unfold verdict; by rewrite Hw).
  assert (forall q m, l = Some (q, m) -> live q) as Hpl by (intros q m ->; eapply (walk_start_places (yy_at_bol s) P); by rewrite Hw).
  destruct (Z.eq_dec (accepts st) 0) as [E|E].
  - cbn [yy_find_action fst]. destruct (live_table st Hl) as (_ & _ & -> & _). cbn [obind]. rewrite E. cbn [Z.eqb].
    apply settle_jam; try done; [rewrite Hv; unfold noted; by rewrite E|]. rewrite Hn.
    pose proof (walk_start_good (yy_at_bol s) P Hne) as Hg. rewrite Hw in Hg. destruct Hg as [_ [?|Hg]]; [done|].
    eapply good_mono, Hg. lia.
  - assert (noted st (List.length P) l = Some (st, List.length P)) as En by (unfold noted; by rewrite (proj2 (Z.eqb_neq _ _) E)).
    destruct (live_table st Hl) as (_ & _ & _ & Ha). rewrite settle by (done || lia). unfold found. rewrite Hv, En.
    exists (set_positions (yytext_ptr s) (yytext_ptr s + List.length P) s). split; [done|].
    split; [apply set_positions_ok; [done|exact (so_text s Hok)]|]. split; [done|]. split; [done|]. split; [done|].
    change (yytext_ptr s + List.length P <= n_chars s)%nat. lia.
Qed.

(** The end of the buffer. *)
Lemma buffer_end fuel s P st l d : searches fuel -> at_place s P [] st l ->
  (2 * List.length (unread s) + 2 <= fuel)%nat -> yy_c_buf_p s = (yytext_ptr s + List.length P + 1)%nat ->
  found (yy_at_bol s) (P ++ unread s) (end_of_buffer (yy_find_action fuel) s d).
Proof.
  intros IH H Hf Hp. unfold end_of_buffer. cbv zeta. pose proof (at_place_length _ _ _ _ _ H) as Hn. cbn [List.length] in Hn.
  rewrite Hp, (proj2 (Nat.leb_gt _ _)) by lia. replace (yytext_ptr s + List.length P + 1 - yytext_ptr s - 1)%nat with (List.length P) by lia.
  destruct (next_buffer_ok s P st l H Hp) as (a & s1 & -> & Ha). cbn [obind]. destruct a.
  - destruct Ha as (chars & Hne & Hu & H1 & Ht & Hb). set (s2 := set_positions _ _ s1).
    assert (at_place s2 P chars st l) as H2 by by apply at_place_positions.
    change (yytext_ptr s1) with (yytext_ptr s2). rewrite (at_place_previous s2 P chars st l d H2 eq_refl). cbn [obind].
    rewrite <- Hb, Hu. change (unread s1) with (unread s2). change (yy_at_bol s1) with (yy_at_bol s2).
    change (yy_c_buf_p s2) with (yytext_ptr s2 + List.length P)%nat.
    apply (IH s2 P chars st l); [done|]. rewrite Hu, length_app in Hf. change (unread s2) with (unread s1).
    assert (1 <= List.length chars)%nat by (destruct chars; [done|cbn; lia]). lia.
  - destruct Ha as (-> & -> & Hok & Ht & Hc & Hu & Hb). unfold found. cbn [app verdict walk]. unfold verdict. cbn [walk].
    unfold noted, start_of. destruct (start_table (yy_at_bol s)) as (_ & -> & _). split; [done|]. rewrite Ht.
    exists (set_positions 0 0 s1). split; [done|]. split; [apply set_positions_ok; [done|lia]|]. split; [done|]. split; [done|].
    split; [|done]. unfold text_from. cbn. by rewrite Hc, Hu.
  - destruct Ha as (Hne & Hu & H1 & Ht & Hu1 & Hb). rewrite Hu, app_nil_r. set (s2 := set_positions _ _ s1).
    assert (at_place s2 P [] st l) as H2 by by apply at_place_positions.
    pose proof (at_place_length _ _ _ _ _ H1) as Hn1. cbn [List.length] in Hn1. rewrite Nat.add_0_r in Hn1.
    change (yytext_ptr s1) with (yytext_ptr s2). rewrite (at_place_previous s2 P [] st l d H2 Hn1). cbn [obind].
    rewrite <- Hb. change (yy_at_bol s1) with (yy_at_bol s2). destruct fuel as [|[|fuel]]; [lia|lia|].
    apply (last_match fuel s2 P st l d H2); [done|done].
Qed.

(** The scanner finds what the automaton finds on the whole text. *)
Lemma search_ok fuel : searches fuel.
Proof.
  induction fuel as [|fuel IH]; intros s P Q st l d H Hf; [lia|].
  destruct (split_zero Q) as (w & r & -> & Hz & Hr). unfold search. rewrite (match_from_place s P w r st l d H Hz Hr). cbn [obind].
  destruct (walk w st (List.length P) l) as [[st1 l1]|l1] eqn:Ew.
  2: { destruct (jam_verdict _ _ _ _ _ _ _ H Ew) as (Hv & Hne & Hp). apply settle_jam; try done; [apply H|]. by eapply text_at_place. }
  pose proof (at_place_advance _ _ _ _ _ _ _ _ H Ew) as H1.
  replace (P ++ (w ++ r) ++ unread s) with ((P ++ w) ++ r ++ unread s) by (by rewrite <- !app_assoc).
  cbn [yy_find_action fst snd]. destruct eob_table as [-> _]. cbn [obind]. change (YY_END_OF_BUFFER =? 0) with false. cbv iota.
  change (YY_END_OF_BUFFER =? YY_END_OF_BUFFER) with true. cbv iota.
  apply (at_place_positions _ _ _ _ _ (yytext_ptr s + List.length (P ++ w) + 1)), at_place_stopped in H1.
  set (s1 := no_longer_new _) in *. pose proof (no_longer_new_same (set_positions (yytext_ptr s) (yytext_ptr s + List.length (P ++ w) + 1) s)) as E.
  fold s1 in E. cbn [set_positions yytext_ptr yy_c_buf_p yy_at_bol unread] in E. destruct E as (_ & Et & Ep & Eb & Eu & _).
  rewrite <- Eb, <- Eu, <- Et in *. rewrite length_app in Hf. destruct Hr as [->|[r' ->]].
  - cbn [app]. eapply buffer_end; try done. lia.
  - cbn [List.length] in Hf. eapply null_character; try done. lia.
Qed.

(** ** The next token *)

(** The rule and the length of the next token of a text. *)
Definition token_of (bol : bool) (text : cstring) : Z * nat :=
  match verdict bol text with
  | Some (q, m) => (accepts q, if accepts q =? 6 then (m - 1)%nat else m)
  | None => (0, 0%nat)
  end.

(** The rest of the text, for a scanner between two tokens. *)
Definition rest (s : Scan) : cstring := text_from (yy_c_buf_p s) s.

Record between (s : Scan) : Prop := {
  bt_ok : scan_ok s;
  bt_pos : (yy_c_buf_p s <= n_chars s)%nat;
}.

Lemma new_Scan_between text : size text < MAX_TEXT -> between (new_Scan text) /\ rest (new_Scan text) = text.
Proof.
  intros Hs. split; [|done]. by split; [split|].
Qed.

Lemma rest_positions b s : rest (set_positions b (yy_c_buf_p s) s) = rest s.
Proof. done. Qed.

Definition ends_line (text : cstring) (bol : bool) : bool :=
  match list.last text with Some c => bool_decide (c = newline) | None => bol end.

Lemma obind_assoc {A B C} (o : outcome A) (f : A -> outcome B) (g : B -> outcome C) :
  (let? a := o in let? b := f a in g b) = (let? b := (let? a := o in f a) in g b).
Proof. by destruct o. Qed.

Lemma verdict_inside bol t q m : verdict bol t = Some (q, m) -> 1 <= accepts q <= 65 /\ (1 <= m <= List.length t)%nat.
Proof.
  intros Hv. assert (t <> []) as Hne.
  { intros ->. unfold verdict in Hv. cbn in Hv. unfold noted, start_of in Hv.
    destruct (start_table bol) as (_ & Ha & _). by rewrite Ha in Hv. }
  pose proof (verdict_good bol t Hne) as Hg. by rewrite Hv in Hg.
Qed.

(** [next_match] finds the next token of the text, whatever the buffer holds of it. *)
Lemma next_match_ok s : between s ->
  exists s', let '(act, n) := token_of (yy_at_bol s) (rest s) in
    next_match s = Ret (act, take n (rest s), s') /\ between s' /\ rest s' = drop n (rest s)
    /\ yy_at_bol s' = (if act =? 0 then true else ends_line (take n (rest s)) (yy_at_bol s)).
Proof.
  intros [Hok Hp]. unfold next_match. set (s0 := set_positions (yy_c_buf_p s) (yy_c_buf_p s) s). cbv zeta.
  assert (scan_ok s0) as Hok0 by by apply set_positions_ok.
  change (yy_at_bol s) with (yy_at_bol s0). change (rest s) with (text_from (yytext_ptr s0) s0).
  assert (at_place s0 [] (drop (yytext_ptr s0) (yy_ch_buf s0)) (start_of (yy_at_bol s0)) None) as H by by split.
  set (start := (start_state s0, yy_c_buf_p s0)).
  pose proof (search_ok (scan_fuel s0) s0 [] _ _ None start H) as Hs. unfold search in Hs. cbn [List.length conc app] in Hs.
  rewrite Nat.add_0_r in Hs. change (start_of (yy_at_bol s0), yytext_ptr s0) with start in Hs.
  specialize (Hs ltac:(unfold scan_fuel; rewrite length_drop; lia)). fold (text_from (yytext_ptr s0) s0) in Hs.
  change (yy_c_buf_p s0) with (yytext_ptr s0). rewrite obind_assoc. set (o := obind _ _) in *. clearbody o.
  unfold found in Hs. unfold token_of. destruct (verdict (yy_at_bol s0) (text_from (yytext_ptr s0) s0)) as [[q m]|] eqn:Hv.
  - destruct Hs as (s1 & -> & Hok1 & Ht & Hc & Hb & Hin). cbn [obind]. pose proof (verdict_inside _ _ _ _ Hv) as Ha.
    unfold finish_token. rewrite (proj2 (Z.eqb_neq (accepts q) 0)) by lia. cbv zeta.
    set (n := if accepts q =? 6 then (m - 1)%nat else m). assert (n <= m)%nat as Hnm by (unfold n; destruct (_ =? 6); lia).
    assert ((if accepts q =? 6 then (yytext_ptr s1 + m - 1)%nat else (yytext_ptr s1 + m)%nat) = (yytext_ptr s1 + n)%nat) as -> by (unfold n; destruct (_ =? 6); lia).
    set (s2 := set_positions _ _ s1). assert (token_so_far s2 = take n (text_from (yytext_ptr s0) s0)) as ->.
    { unfold token_so_far. cbn [s2 set_positions yy_c_buf_p yytext_ptr yy_ch_buf]. rewrite <- Ht. unfold text_from.
      rewrite take_app_le by (rewrite length_drop; unfold n_chars in Hin; lia). f_equal. lia. }
    set (w := take n _). eexists. split; [reflexivity|].
    assert (between s2) as [Hb1 Hb2] by (split; [apply set_positions_ok; [done|exact (so_text s1 Hok1)]|cbn; unfold n_chars in *; cbn; lia]).
    assert (rest s2 = drop n (text_from (yytext_ptr s0) s0)) as Hr.
    { rewrite <- Ht. unfold rest, text_from. cbn [s2 set_positions yy_c_buf_p yytext_ptr yy_ch_buf unread].
      rewrite drop_app_le by (rewrite length_drop; unfold n_chars in Hin; lia). by rewrite drop_drop. }
    unfold ends_line. destruct (list.last w) as [c|]; (split; [by split; [destruct Hb1|]|by split]).
  - destruct Hs as (He & s1 & -> & Hok1 & Ht & Hc & Hr & Hb). cbn [obind finish_token]. eexists. split; [reflexivity|].
    rewrite He. split; [split; [done|lia]|]. split; [|done]. unfold rest. by rewrite Hc.
Qed.
