(* ===== verification/ConfigRules.v ===== *)
(** * The rules of csl/scanner.l

    The regular expressions of the scanner, as they are written in scanner.l, and the proof that
    the automaton of scanner.cc looks for the longest beginning of the text that one of them
    matches, and among several for the first. Derivatives of the rules are followed through all
    states of the automaton by evaluation. *)

From stdpp Require Import base list gmap.
From Stdlib Require Import ZArith NArith Lia Ascii String.
From S2P Require Import Prelude CxxString ConfigTables ConfigScanner ConfigScannerSpec.

(** ** Regular expressions *)

(** A set of characters is a list of ranges, or what is outside of them. *)
Inductive regex :=
  | Void
  | Eps
  | Chars (outside : bool) (ranges : list (Z * Z))
  | Cat (r s : regex)
  | Alt (r s : regex)
  | Star (r : regex).

#[export] Instance regex_eq_dec : EqDecision regex.
Proof. solve_decision. Defined.

Definition in_set (outside : bool) (ranges : list (Z * Z)) (c : Z) : bool :=
  xorb outside (existsb (fun r => (fst r <=? c) && (c <=? snd r)) ranges).

Inductive matches : regex -> cstring -> Prop :=
  | m_eps : matches Eps []
  | m_chars o l c : in_set o l (uchar c) = true -> matches (Chars o l) [c]
  | m_cat r s u v : matches r u -> matches s v -> matches (Cat r s) (u ++ v)
  | m_left r s u : matches r u -> matches (Alt r s) u
  | m_right r s u : matches s u -> matches (Alt r s) u
  | m_star_nil r : matches (Star r) []
  | m_star_app r u v : matches r u -> matches (Star r) v -> matches (Star r) (u ++ v).

Fixpoint nullable (r : regex) : bool :=
  match r with
  | Void | Chars _ _ => false
  | Eps | Star _ => true
  | Cat r s => nullable r && nullable s
  | Alt r s => nullable r || nullable s
  end.

Definition cat (r s : regex) : regex :=
  match r with Void => Void | Eps => s | _ => Cat r s end.
Definition alt (r s : regex) : regex :=
  match r, s with
  | Void, _ => s
  | _, Void => r
  | _, _ => if bool_decide (r = s) then r else Alt r s
  end.

(** [c] is the code of the character. *)
Fixpoint deriv (c : Z) (r : regex) : regex :=
  match r with
  | Void | Eps => Void
  | Chars o l => if in_set o l c then Eps else Void
  | Cat r s => if nullable r then alt (cat (deriv c r) s) (deriv c s) else cat (deriv c r) s
  | Alt r s => alt (deriv c r) (deriv c s)
  | Star r => cat (deriv c r) (Star r)
  end.

(** ** Derivatives *)

Lemma matches_void u : ~ matches Void u.
Proof. inversion 1. Qed.

Lemma matches_cat r s u : matches (Cat r s) u <-> exists v w, u = v ++ w /\ matches r v /\ matches s w.
Proof. split; [inversion 1; subst; eauto|intros (v & w & -> & ? & ?); by constructor]. Qed.

Lemma matches_alt r s u : matches (Alt r s) u <-> matches r u \/ matches s u.
Proof. split; [inversion 1; auto|intros [?|?]; by constructor]. Qed.

Lemma cat_ok r s u : matches (cat r s) u <-> matches (Cat r s) u.
Proof.
  destruct r; cbn [cat]; try done; rewrite matches_cat.
  - split; [by intros ?%matches_void|intros (v & w & _ & ?%matches_void & _); done].
  - split; [intros H; exists [], u; repeat split; [constructor|done]|]. by intros (v & w & -> & Hv & Hw); inversion Hv; subst.
Qed.

Lemma alt_ok r s u : matches (alt r s) u <-> matches (Alt r s) u.
Proof.
  rewrite matches_alt. pose proof (matches_void u). unfold alt.
  destruct r, s; try tauto; (case_bool_decide as E; [rewrite E|rewrite matches_alt]; tauto).
Qed.

Lemma nullable_ok r : nullable r = true <-> matches r [].
Proof.
  induction r as [| |o ranges|r1 IH1 r2 IH2|r1 IH1 r2 IH2|r IH]; cbn [nullable].
  - split; [done|by intros ?%matches_void].
  - split; [constructor|done].
  - split; [done|inversion 1].
  - rewrite andb_true_iff, matches_cat, IH1, IH2. split; [intros []; by exists [], []|].
    by intros (v & w & [-> ->]%symmetry%app_eq_nil & ? & ?).
  - by rewrite orb_true_iff, matches_alt, IH1, IH2.
  - split; [constructor|done].
Qed.

(** A word of a star that is not empty begins with one that is not. *)
Lemma star_cons r c u : matches (Star r) (c :: u) -> exists v w, u = v ++ w /\ matches r (c :: v) /\ matches (Star r) w.
Proof.
  remember (Star r) as s eqn:Es. remember (c :: u) as t eqn:Et. intros H. revert u Et.
  induction H as [| | | | | |r' v w Hv _ Hw IH]; try done. injection Es as ->. intros u Et.
  destruct v as [|d v]; [by apply IH|]. injection Et as -> <-. by exists v, w.
Qed.

Lemma deriv_ok c r u : matches (deriv (uchar c) r) u <-> matches r (c :: u).
Proof.
  revert u. induction r as [| |o ranges|r1 IH1 r2 IH2|r1 IH1 r2 IH2|r IH]; intros u; cbn [deriv].
  - split; [by intros ?%matches_void|inversion 1].
  - split; [by intros ?%matches_void|inversion 1].
  - destruct (in_set o ranges (uchar c)) eqn:E.
    + split; [inversion 1; by constructor|by inversion 1; constructor].
    + split; [by intros ?%matches_void|inversion 1; congruence].
  - assert (matches (Cat r1 r2) (c :: u) <-> (exists v w, u = v ++ w /\ matches r1 (c :: v) /\ matches r2 w) \/ (nullable r1 = true /\ matches r2 (c :: u))) as ->.
    { rewrite matches_cat, nullable_ok. split.
      - intros ([|d v] & w & E & Hv & Hw); [right; cbn in E; by subst|left]. injection E as -> ->. by exists v, w.
      - intros [(v & w & -> & Hv & Hw)|[H1 H2]]; [by exists (c :: v), w|by exists [], (c :: u)]. }
    assert (matches (cat (deriv (uchar c) r1) r2) u <-> exists v w, u = v ++ w /\ matches r1 (c :: v) /\ matches r2 w) as Hc.
    { rewrite cat_ok, matches_cat. by setoid_rewrite IH1. }
    destruct (nullable r1); [rewrite alt_ok, matches_alt, IH2|]; rewrite Hc; intuition congruence.
  - by rewrite alt_ok, !matches_alt, IH1, IH2.
  - rewrite cat_ok, matches_cat. split.
    + intros (v & w & -> & Hv%IH & Hw). by apply (m_star_app r (c :: v)).
    + intros (v & w & -> & Hv & Hw)%star_cons. exists v, w. by rewrite IH.
Qed.

(** ** The rules *)

Definition quote : ascii := "034"%char.

Definition same (c : ascii) : Z * Z := (uchar c, uchar c).
Definition digits : list (Z * Z) := [(48, 57)].
Definition letters : list (Z * Z) := [(65, 90); (97, 122)].

(** Letters match in both cases. *)
Definition one (c : ascii) : regex :=
  let n := uchar c in
  Chars false ((n, n) :: if (65 <=? n) && (n <=? 90) then [(n + 32, n + 32)] else if (97 <=? n) && (n <=? 122) then [(n - 32, n - 32)] else []).
Definition any_of (s : cstring) : regex := Chars false (map same s).
Definition none_of (s : cstring) : regex := Chars true (map same s).

Fixpoint word (s : cstring) : regex := match s with [] => Eps | [c] => one c | c :: s => Cat (one c) (word s) end.
Definition plus (r : regex) : regex := Cat r (Star r).
Definition opt (r : regex) : regex := Alt r Eps.
(** [r{1,n}] *)
Fixpoint up_to (n : nat) (r : regex) : regex :=
  match n with O => Eps | S O => r | S n => Cat r (opt (up_to n r)) end.

Definition digit : regex := Chars false digits.
Definition alnum : regex := Chars false (digits ++ letters).
Definition dot : regex := none_of [newline].
(** ["."[:alnum:]_-]: the quotation marks are in the set. *)
Definition host_char : regex := Chars false (digits ++ letters ++ map same [quote; "."%char; "_"%char; "-"%char]).

(** The rules whose pattern is a word, from the one that [n] stands for on. *)
Definition words (n : Z) (l : list String.string) : list (Z * regex) :=
  zip (map (fun k => n + Z.of_nat k) (seq 0 (List.length l))) (map (fun s => word (lit s)) l).

(** The words of the rules 7 to 48, and 50 to 61. *)
Definition option_words : list String.string :=
  ["--SERVER="; "--SOCKET="; "--BINARY-PROTOCOL"; "--BUFFER-REQUESTS"; "--CONFIGURE-FILE="; "--CONNECT-TIMEOUT=";
   "--DISTRIBUTION="; "--HASH-WITH-NAMESPACE"; "--HASH="; "--IO-BYTES-WATERMARK="; "--IO-KEY-PREFETCH=";
   "--IO-MSG-WATERMARK="; "--NOREPLY"; "--NUMBER-OF-REPLICAS="; "--POLL-TIMEOUT="; "--RANDOMIZE-REPLICA-READ";
   "--RCV-TIMEOUT="; "--REMOVE-FAILED-SERVERS="; "--RETRY-TIMEOUT="; "--SND-TIMEOUT="; "--SOCKET-RECV-SIZE=";
   "--SOCKET-SEND-SIZE="; "--SORT-HOSTS"; "--SUPPORT-CAS"; "--TCP-KEEPALIVE"; "--TCP-KEEPIDLE"; "--TCP-NODELAY";
   "--USE-UDP"; "--USER-DATA"; "--VERIFY-KEY"; "--POOL-MIN="; "--POOL-MAX="; "--NAMESPACE="; "--FETCH-VERSION";
   "INCLUDE"; "RESET"; "DEBUG"; "SERVERS"; "END"; "CSL_ERROR"; "TRUE"; "FALSE"]%string.
Definition value_words : list String.string :=
  ["CONSISTENT"; "MODULA"; "RANDOM"; "MD5"; "CRC"; "FNV1_64"; "FNV1A_64"; "FNV1_32"; "FNV1A_32"; "HSIEH";
   "MURMUR"; "JENKINS"]%string.

(** The patterns of scanner.l in their order. *)
Definition rules (bol : bool) : list (Z * regex) :=
  [(1, any_of (lit "=, ")); (2, plus digit); (3, Cat (one ":"%char) (up_to 5 digit)); (4, Cat (word (lit "/?")) (up_to 5 digit));
   (5, any_of ["009"%char; "013"%char; newline])]
  ++ (if bol then [(6, Cat (one "#"%char) (Cat (Star dot) (any_of [newline])))] else [])
  ++ words 7 option_words
  ++ [(49, Cat (word (lit "--")) (Star alnum))]
  ++ words 50 value_words
  ++ [(62, let part := Cat (up_to 3 digit) (one "."%char) in Cat part (Cat part (Cat part (up_to 3 digit))));
      (63, Cat alnum (Cat (plus host_char) alnum));
      (64, Cat (opt (one "L"%char)) (Cat (one quote) (Cat (Star (Alt (Cat (one "\"%char) dot) (none_of ["\"%char; quote]))) (one quote))));
      (65, dot)].

(** ** The automaton follows the rules *)

Definition nonvoid (e : Z * regex) : bool := negb (bool_decide (snd e = Void)).
Definition derive (c : Z) (v : list (Z * regex)) : list (Z * regex) :=
  List.filter nonvoid (map (fun e => (fst e, deriv c (snd e))) v).

(** The first rule that matches the empty word, 0 for none. *)
Definition first_match (v : list (Z * regex)) : Z :=
  match find (fun e => nullable (snd e)) v with Some e => fst e | None => 0 end.

(** The codes of all characters. *)
Definition all_chars : list Z := map Z.of_nat (seq 0 256).

Definition classes : list Z := map (fun c => class_of (ascii_of_nat (Z.to_nat c))) all_chars.

(** One character of each class. *)
Definition representatives : list Z :=
  map fst (omap (fun k => find (fun e => snd e =? k) (zip all_chars classes)) (numbers 1 74)).

(** What is left of the rules in each state, found by following a character of every class. *)
Fixpoint explore (fuel : nat) (chars : list Z) (tr : Z -> Z -> Z) (todo : list (Z * list (Z * regex))) (seen : gmap Z (list (Z * regex)))
    : gmap Z (list (Z * regex)) :=
  match fuel, todo with
  | S fuel, (s, v) :: todo =>
    match seen !! s with
    | Some _ => explore fuel chars tr todo seen
    | None =>
      let next := List.filter (fun x => negb (fst x =? YY_JAM)) (map (fun c => (tr s c, derive c v)) chars) in
      explore fuel chars tr (next ++ todo) (<[s := v]> seen)
    end
  | _, _ => seen
  end.

(** The transitions and the rules of the automaton, from the maps of the tables. *)
Definition fast_step : Z -> Z -> Z :=
  let base := fast_table yy_base in let chk := fast_table yy_chk in let nxt := fast_table yy_nxt in
  let def := fast_table yy_def in let meta := fast_table yy_meta in let class := fast_table classes in
  fun s c => match obind (at_fast class c) (fast_lookup base chk nxt def meta 5 s) with Ret next => next | _ => YY_JAM end.
Definition fast_accepts : Z -> Z :=
  let accept := fast_table yy_accept in fun s => match at_fast accept s with Ret a => a | _ => 0 end.

Definition residues : gmap Z (list (Z * regex)) :=
  explore (Z.to_nat 40000) representatives fast_step [(1, rules false); (2, rules true)] ∅.

(** In every state the rule is the one of the residue, and every character leads to its residue,
    nowhere when nothing is left. *)
Definition follows (tr : Z -> Z -> Z) (ac : Z -> Z) (m : gmap Z (list (Z * regex))) : bool :=
  forallb (fun x => let '(s, v) := x in
    (first_match v =? ac s)
    && forallb (fun c =>
         let next := tr s c in
         if next =? YY_JAM then bool_decide (derive c v = []) else bool_decide (m !! next = Some (derive c v))) all_chars)
    (map_to_list m)
  && bool_decide (m !! 1 = Some (rules false)) && bool_decide (m !! 2 = Some (rules true)).

Lemma residues_checked : follows fast_step fast_accepts residues = true.
Proof. vm_compute. reflexivity. Qed.

#[local] Opaque residues fast_table fast_lookup step accepts class_of yy_transition yy_lookup.

Lemma uchar_small c : 0 <= uchar c < 256.
Proof. unfold uchar. pose proof (N_ascii_bounded c). lia. Qed.

Lemma class_table c : at_fast (fast_table classes) (uchar c) = Ret (class_of c).
Proof.
  rewrite at_fast_eq. unfold at_table. pose proof (uchar_small c). rewrite (proj2 (Z.ltb_ge _ _)) by lia.
  assert (nth_error classes (Z.to_nat (uchar c)) = Some (class_of c)) as ->; [|done].
  unfold classes, all_chars. rewrite map_map, nth_error_map, nth_error_lookup.
  rewrite (proj2 (lookup_seq 0 256 (Z.to_nat (uchar c)) (Z.to_nat (uchar c)))) by lia. cbn. do 2 f_equal.
  rewrite Nat2Z.id. rewrite <- (ascii_nat_embedding c) at 2. f_equal. unfold uchar, nat_of_ascii. lia.
Qed.

Lemma fast_step_eq s c : fast_step s (uchar c) = step s (class_of c).
Proof. unfold fast_step. cbv zeta. rewrite class_table. cbn [obind]. by rewrite fast_lookup_eq. Qed.

Lemma fast_accepts_eq s : fast_accepts s = accepts s.
Proof. unfold fast_accepts. cbv zeta. by rewrite at_fast_eq. Qed.

Lemma residue_step s v : residues !! s = Some v ->
  first_match v = accepts s /\ forall c,
    (step s (class_of c) = YY_JAM -> derive (uchar c) v = [])
    /\ (step s (class_of c) <> YY_JAM -> residues !! step s (class_of c) = Some (derive (uchar c) v)).
Proof.
  intros Hv. pose proof residues_checked as H. unfold follows in H. apply andb_true_iff in H as [[H _]%andb_true_iff _].
  rewrite forallb_forall in H. specialize (H (s, v)). rewrite <- list_elem_of_In, elem_of_map_to_list in H. specialize (H Hv).
  cbn beta iota in H. apply andb_true_iff in H as [Ha%Z.eqb_eq Hc]. split; [by rewrite Ha, fast_accepts_eq|]. intros c.
  rewrite forallb_forall in Hc. specialize (Hc (uchar c)). cbv zeta in Hc. rewrite fast_step_eq in Hc.
  assert (In (uchar c) all_chars) as Hin.
  { unfold all_chars. apply (numbers_elem 0 256). pose proof (uchar_small c). lia. }
  specialize (Hc Hin). split; intros E.
  - rewrite (proj2 (Z.eqb_eq _ _) E) in Hc. apply bool_decide_eq_true in Hc. exact Hc.
  - rewrite (proj2 (Z.eqb_neq _ _) E) in Hc. apply bool_decide_eq_true in Hc. exact Hc.
Qed.

Lemma residue_start bol : residues !! start_of bol = Some (rules bol).
Proof.
  pose proof residues_checked as H. unfold follows in H. apply andb_true_iff in H as [[_ H1]%andb_true_iff H2].
  apply bool_decide_eq_true in H1, H2. destruct bol; [exact H2|exact H1].
Qed.

(** *** The longest match *)

Fixpoint derive_word (u : cstring) (v : list (Z * regex)) : list (Z * regex) :=
  match u with [] => v | c :: u => derive_word u (derive (uchar c) v) end.

Lemma derive_word_nil u : derive_word u [] = [].
Proof. induction u; [done|]. exact IHu. Qed.

(** From a state on, the last place with a rule is the one of the longest beginning with one. *)
Definition last_place (t : cstring) (v : list (Z * regex)) (n : nat) (l l' : option place) : Prop :=
  (l' = l /\ forall k, (k <= List.length t)%nat -> first_match (derive_word (take k t) v) = 0)
  \/ exists q k, l' = Some (q, n + k)%nat /\ (k <= List.length t)%nat /\ accepts q <> 0
       /\ first_match (derive_word (take k t) v) = accepts q
       /\ forall k', (k < k' <= List.length t)%nat -> first_match (derive_word (take k' t) v) = 0.

Lemma noted_last t s v n l : residues !! s = Some v ->
  (forall k, (0 < k <= List.length t)%nat -> first_match (derive_word (take k t) v) = 0) -> last_place t v n l (noted s n l).
Proof.
  intros Hv H. destruct (residue_step s v Hv) as [Ha _]. unfold noted. destruct (Z.eqb_spec (accepts s) 0) as [E|E].
  - left. split; [done|]. intros [|k] Hk; [change (first_match v = 0); by rewrite Ha|apply H; lia].
  - right. exists s, 0%nat. rewrite Nat.add_0_r. cbn [take derive_word]. split; [done|]. split; [lia|]. split; [done|]. split; [done|].
    intros k' Hk'. apply H. lia.
Qed.

Lemma last_place_cons c t v n s l l' : residues !! s = Some v ->
  last_place t (derive (uchar c) v) (S n) (noted s n l) l' -> last_place (c :: t) v n l l'.
Proof.
  intros Hv [[-> H]|(q & k & -> & Hk & Hq & Hm & Hl)].
  - apply noted_last; [done|]. intros [|k] Hk; [lia|]. apply H. cbn in Hk. lia.
  - right. exists q, (S k). split; [do 2 f_equal; lia|]. cbn [List.length take derive_word]. split; [lia|]. split; [done|]. split; [done|].
    intros [|k'] Hk'; [lia|]. apply Hl. lia.
Qed.

Lemma walk_last t : forall s v n l, live s -> residues !! s = Some v ->
  last_place t v n l (match walk t s n l with inl (s', l') => noted s' (n + List.length t) l' | inr l' => l' end).
Proof.
  induction t as [|c t IH]; intros s v n l Hs Hv; cbn [walk].
  - rewrite Nat.add_0_r. apply noted_last; [done|]. cbn. lia.
  - destruct (residue_step s v Hv) as [_ Hc]. destruct (Hc c) as [Hj Hn].
    destruct (Z.eqb_spec (step s (class_of c)) YY_JAM) as [E|E].
    + apply noted_last; [done|]. intros [|k] Hk; [lia|]. cbn [take derive_word]. by rewrite (Hj E), derive_word_nil.
    + eapply last_place_cons; [done|]. cbn [List.length]. rewrite <- Nat.add_succ_comm. apply IH; [|by apply Hn].
      by apply (step_live s c Hs).
Qed.

(** The rules come with increasing numbers. *)
Fixpoint increasing (lo : Z) (v : list (Z * regex)) : Prop :=
  match v with [] => True | e :: v => lo < fst e /\ increasing (fst e) v end.

Lemma increasing_weaken lo lo' v : lo' <= lo -> increasing lo v -> increasing lo' v.
Proof. destruct v; cbn; [done|]. intros Hlo [H ?]. split; [lia|done]. Qed.

Lemma increasing_elem lo v a r : increasing lo v -> In (a, r) v -> lo < a.
Proof.
  revert lo. induction v as [|e v IH]; intros lo; [done|]. intros [Hlo Hi] [->|Hin]; [done|].
  specialize (IH _ Hi Hin). lia.
Qed.

Lemma increasing_derive lo c v : increasing lo v -> increasing lo (derive c v).
Proof.
  revert lo. induction v as [|e v IH]; intros lo; [done|]. intros [Hlo Hi]. unfold derive in *. cbn [map List.filter].
  destruct (nonvoid _); [cbn; split; [done|by apply IH]|]. eapply increasing_weaken, IH, Hi. lia.
Qed.

Lemma derive_elem c v a r : In (a, r) v -> forall u, matches r (c :: u) -> In (a, deriv (uchar c) r) (derive (uchar c) v).
Proof.
  intros Hin u Hm. unfold derive. rewrite filter_In, in_map_iff. split; [by exists (a, r)|].
  unfold nonvoid. cbn. rewrite bool_decide_eq_false_2; [done|]. intros E. apply deriv_ok in Hm. rewrite E in Hm. by apply matches_void in Hm.
Qed.

Lemma derive_elem_inv c v a r : In (a, r) (derive (uchar c) v) -> exists r', In (a, r') v /\ r = deriv (uchar c) r'.
Proof.
  unfold derive. rewrite filter_In, in_map_iff. intros [([a' r'] & [= -> <-] & Hin) _]. by exists r'.
Qed.

(** [first_match] of what is left behind a word is the first rule that matches the word. *)
Lemma first_match_word u : forall lo v, 0 <= lo -> increasing lo v ->
  (first_match (derive_word u v) = 0 /\ forall a r, In (a, r) v -> ~ matches r u)
  \/ exists a r, first_match (derive_word u v) = a /\ In (a, r) v /\ matches r u /\ forall a' r', In (a', r') v -> matches r' u -> a <= a'.
Proof.
  induction u as [|c u IH]; intros lo v Hlo Hi; cbn [derive_word].
  - unfold first_match. destruct (find _ v) as [[a r]|] eqn:E.
    + right. exists a, r. apply find_some in E as H. destruct H as [Hin Hn%nullable_ok]. split; [done|]. split; [done|]. split; [done|].
      intros a' r' Hin' Hm'. clear Hlo. revert lo Hi E Hin'. induction v as [|[b s] v IHv]; [done|]. cbn. intros lo [Hb Hi] E [[= -> ->]|Hin'].
      * apply nullable_ok in Hm'. cbn in E. rewrite Hm' in E. by injection E as -> _.
      * destruct (nullable s); [injection E as <- _; pose proof (increasing_elem _ _ _ _ Hi Hin'); cbn in *; lia|].
        eapply IHv; try done. by apply find_some in E as [? _].
    + left. split; [done|]. intros a r Hin Hm%nullable_ok. pose proof (find_none _ _ E (a, r) Hin) as Hn. cbn in Hn. congruence.
  - destruct (IH lo (derive (uchar c) v) Hlo (increasing_derive _ _ _ Hi)) as [[-> H]|(a & r & -> & Hin & Hm & Hf)].
    + left. split; [done|]. intros a r Hin Hm. eapply H; [by eapply derive_elem|]. by apply deriv_ok.
    + right. destruct (derive_elem_inv _ _ _ _ Hin) as (r' & Hin' & ->). exists a, r'. split; [done|]. split; [done|].
      split; [by apply deriv_ok|]. intros a' r'' Ha Hr. eapply Hf; [by eapply derive_elem|]. by apply deriv_ok.
Qed.

Lemma rules_increasing bol : increasing 0 (rules bol).
Proof. destruct bol; vm_compute; repeat split. Qed.

(** The longest beginning of the text that a rule matches, and the first rule that does. *)
Definition longest (bol : bool) (text : cstring) (a : Z) (n : nat) : Prop :=
  (n <= List.length text)%nat /\ (exists r, In (a, r) (rules bol) /\ matches r (take n text))
  /\ (forall a' r', In (a', r') (rules bol) -> matches r' (take n text) -> a <= a')
  /\ (forall n' a' r', (n < n' <= List.length text)%nat -> In (a', r') (rules bol) -> ~ matches r' (take n' text)).

#[local] Opaque rules.

Lemma verdict_longest bol text : text <> [] ->
  exists q n, verdict bol text = Some (q, n) /\ longest bol text (accepts q) n.
Proof.
  intros Hne. pose proof (walk_last text _ _ 0 None (start_live bol) (residue_start bol)) as H.
  change (0 + List.length text)%nat with (List.length text) in H. fold (verdict bol text) in H.
  destruct H as [[E _]|(q & n & E & Hn & Hq & Hf & Hl)].
  { pose proof (verdict_good bol text Hne) as Hg. by rewrite E in Hg. }
  exists q, n. split; [done|]. split; [done|].
  destruct (first_match_word (take n text) 0 (rules bol) (Z.le_refl 0) (rules_increasing bol)) as [[E0 _]|(a & r & Ea & Hin & Hm & Hfirst)].
  { by rewrite E0 in Hf. }
  rewrite Ea in Hf. subst a. rewrite <- Ea in *. split; [by exists r|]. split; [done|]. intros n' a' r' Hn' Hin' Hm'.
  specialize (Hl n' Hn'). destruct (first_match_word (take n' text) 0 (rules bol) (Z.le_refl 0) (rules_increasing bol)) as [[_ H0]|(a & r'' & Ea' & Hin'' & _)].
  - by eapply H0.
  - rewrite Hl in Ea'. subst a. pose proof (increasing_elem _ _ _ _ (rules_increasing bol) Hin''). lia.
Qed.
