(* ===== verification/ConfigParser.v ===== *)
(** * Tokens of configurations: the actions of csl/scanner.cc, and csl/context.cc

    [config_lex] on the scanner of ConfigScanner, and the [Context] that it shares with the
    parser. Values of tokens point into the context: the name of a server is in its array, a
    string in its buffer, so that the next token of the kind overwrites it. What is kept only for
    the text of messages ([begin], [previous_token]) is left out. *)

From stdpp Require Import base list.
From Stdlib Require Import ZArith Ascii String.
From S2P Require Import Prelude CxxString HashWords HashSmall HashkitString Rijndael Aes HashKit ClientTypes ByteOrder.
From S2P Require Import ClientString Continuum Distribution ClientState BinaryProtocol ClientRead ClientWrite ClientConnect.
From S2P Require Import ClientOps ClientBehavior ClientClone ClientServers ConfigTables ConfigScanner.

(** ** Tokens: csl/parser.h *)

Module Tok.
Inductive yytokentype :=
  | YYEOF | SPACE | COMMA | EQUALS
  | COMMENT | END | CSL_ERROR | RESET | PARSER_DEBUG | INCLUDE | CONFIGURE_FILE | EMPTY_LINE | SERVER | CSL_SOCKET
  | SERVERS | SERVERS_OPTION | UNKNOWN_OPTION | UNKNOWN | BINARY_PROTOCOL | BUFFER_REQUESTS | CONNECT_TIMEOUT | DISTRIBUTION
  | HASH | HASH_WITH_NAMESPACE | IO_BYTES_WATERMARK | IO_KEY_PREFETCH | IO_MSG_WATERMARK | KETAMA_HASH | KETAMA_WEIGHTED
  | NOREPLY | NUMBER_OF_REPLICAS | POLL_TIMEOUT | RANDOMIZE_REPLICA_READ | RCV_TIMEOUT | REMOVE_FAILED_SERVERS
  | RETRY_TIMEOUT | SND_TIMEOUT | SOCKET_RECV_SIZE | SOCKET_SEND_SIZE | SORT_HOSTS | SUPPORT_CAS | USER_DATA | USE_UDP
  | VERIFY_KEY | _TCP_KEEPALIVE | _TCP_KEEPIDLE | _TCP_NODELAY | FETCH_VERSION | NAMESPACE | POOL_MIN | POOL_MAX | MD5 | CRC
  | FNV1_64 | FNV1A_64 | FNV1_32 | FNV1A_32 | HSIEH | MURMUR | JENKINS | CONSISTENT | MODULA | RANDOM | CSL_TRUE | CSL_FALSE
  | CSL_FLOAT | NUMBER | PORT | WEIGHT_START | IPADDRESS | HOSTNAME | STRING | QUOTED_STRING | FILE_PATH.

(** The tokens from 258 on. *)
Definition named : list yytokentype :=
  [COMMENT; END; CSL_ERROR; RESET; PARSER_DEBUG; INCLUDE; CONFIGURE_FILE; EMPTY_LINE; SERVER; CSL_SOCKET; SERVERS; SERVERS_OPTION;
   UNKNOWN_OPTION; UNKNOWN; BINARY_PROTOCOL; BUFFER_REQUESTS; CONNECT_TIMEOUT; DISTRIBUTION; HASH; HASH_WITH_NAMESPACE;
   IO_BYTES_WATERMARK; IO_KEY_PREFETCH; IO_MSG_WATERMARK; KETAMA_HASH; KETAMA_WEIGHTED; NOREPLY; NUMBER_OF_REPLICAS; POLL_TIMEOUT;
   RANDOMIZE_REPLICA_READ; RCV_TIMEOUT; REMOVE_FAILED_SERVERS; RETRY_TIMEOUT; SND_TIMEOUT; SOCKET_RECV_SIZE; SOCKET_SEND_SIZE;
   SORT_HOSTS; SUPPORT_CAS; USER_DATA; USE_UDP; VERIFY_KEY; _TCP_KEEPALIVE; _TCP_KEEPIDLE; _TCP_NODELAY; FETCH_VERSION; NAMESPACE;
   POOL_MIN; POOL_MAX; MD5; CRC; FNV1_64; FNV1A_64; FNV1_32; FNV1A_32; HSIEH; MURMUR; JENKINS; CONSISTENT; MODULA; RANDOM;
   CSL_TRUE; CSL_FALSE; CSL_FLOAT; NUMBER; PORT; WEIGHT_START; IPADDRESS; HOSTNAME; STRING; QUOTED_STRING; FILE_PATH].

#[global] Instance eq_dec : EqDecision yytokentype.
Proof. solve_decision. Defined.

(** The number of a token. *)
Fixpoint index_of (t : yytokentype) (l : list yytokentype) (n : Z) : Z :=
  match l with [] => n | u :: l => if bool_decide (t = u) then n else index_of t l (n + 1) end.
Definition code (t : yytokentype) : Z :=
  match t with YYEOF => 0 | SPACE => 32 | COMMA => 44 | EQUALS => 61 | _ => index_of t named 258 end.

(** A character as a token; the scanner returns no other. *)
Definition of_character (c : ascii) : option yytokentype :=
  if bool_decide (c = " "%char) then Some SPACE else if bool_decide (c = ","%char) then Some COMMA
  else if bool_decide (c = "="%char) then Some EQUALS else None.
End Tok.

(** ** Values: csl/symbol.h *)

(** The union. [string_value] has the size of the buffer when it was made, for the pointer is
    good only as long as the buffer is not moved. *)
Inductive YYSTYPE :=
  | no_value
  | number (n : Z)
  | string_value (capacity size : Z)
  | server_value
  | behavior_value (b : memcached_behavior_t)
  | distribution_value (d : memcached_server_distribution_t)
  | hash_value (h : memcached_hash_t).

(** ** The context *)

Record Context := mkContext {
  ctx_rc : memcached_return_t;
  _is_server : bool;
  _end : bool;
  _hostname_buffer : cstring;
  _has_hash : bool;
  _string_buffer : memcached_string_st;
}.

Definition set_ctx_rc (rc : memcached_return_t) (c : Context) : Context :=
  mkContext rc (_is_server c) (_end c) (_hostname_buffer c) (_has_hash c) (_string_buffer c).
Definition set_is_server (b : bool) (c : Context) : Context :=
  mkContext (ctx_rc c) b (_end c) (_hostname_buffer c) (_has_hash c) (_string_buffer c).
Definition set_end (c : Context) : Context :=
  mkContext MEMCACHED_SUCCESS (_is_server c) true (_hostname_buffer c) (_has_hash c) (_string_buffer c).
Definition set_hostname_buffer (h : cstring) (c : Context) : Context :=
  mkContext (ctx_rc c) (_is_server c) (_end c) h (_has_hash c) (_string_buffer c).
Definition set_has_hash (b : bool) (c : Context) : Context :=
  mkContext (ctx_rc c) (_is_server c) (_end c) (_hostname_buffer c) b (_string_buffer c).
Definition set_string_buffer (s : memcached_string_st) (c : Context) : Context :=
  mkContext (ctx_rc c) (_is_server c) (_end c) (_hostname_buffer c) (_has_hash c) s.

(** A client with the members of [configure] that only configurations set. *)
Record Client := mkClient { cl_session : Session; initial_pool_size : Z; max_pool_size : Z }.

(** What the parser works on. *)
Record Parsing := mkParsing { ps_client : Client; ps_context : Context; ps_scan : Scan }.
Definition PIO : Type -> Type := ST Parsing.

Definition on_client (f : Client -> Client) : PIO unit := modify (fun p => mkParsing (f (ps_client p)) (ps_context p) (ps_scan p)).
Definition on_context (f : Context -> Context) : PIO unit := modify (fun p => mkParsing (ps_client p) (f (ps_context p)) (ps_scan p)).
Definition getc {A} (f : Context -> A) : PIO A := gets (fun p => f (ps_context p)).
Definition in_session {A} (m : SIO A) : PIO A := fun p =>
  let '(o, s) := m (cl_session (ps_client p)) in
  (o, mkParsing (mkClient s (initial_pool_size (ps_client p)) (max_pool_size (ps_client p))) (ps_context p) (ps_scan p)).

Section Lexer.
Context `{DM : DataModel} `{AL : Allocator}.

(** [NI_MAXHOST] *)
Definition NI_MAXHOST : Z := 1025.

(** [Context::hostname]: a name of NI_MAXHOST characters or more has its null character written
    behind the array. *)
Definition context_hostname (str : cstring) : PIO YYSTYPE :=
  if NI_MAXHOST <=? size str then stuck Undefined else
  on_context (set_hostname_buffer str) ;;; ret server_value.

(** [Context::string_buffer]: [None] leaves the value of the token as it was. *)
Definition context_string_buffer (str : cstring) : PIO (option YYSTYPE) :=
  let* b := getc _string_buffer in
  let* r := in_session (at_root (with_allocs (memcached_string_set b str))) in
  let '(done, b) := r in
  on_context (set_string_buffer b) ;;;
  ret (if done : bool then Some (string_value (memcached_string_size b) (memcached_string_length b)) else None).

(** [atoi] of digits; what is no [int] is undefined. *)
Definition atoi (s : cstring) : outcome Z :=
  let? x := strtou 64 (s ++ [zero]) 0 in
  if (fst (fst x) <=? 2147483647) && negb (snd x) then Ret (fst (fst x)) else Stuck Undefined.

(** The tokens of the rules 8 to 36 with settings, of the other words up to 48, and from 50 to 61. *)
Definition setting_tokens : list Tok.yytokentype :=
  [Tok.CSL_SOCKET; Tok.BINARY_PROTOCOL; Tok.BUFFER_REQUESTS; Tok.CONFIGURE_FILE; Tok.CONNECT_TIMEOUT;
   Tok.DISTRIBUTION; Tok.HASH_WITH_NAMESPACE; Tok.HASH; Tok.IO_BYTES_WATERMARK; Tok.IO_KEY_PREFETCH; Tok.IO_MSG_WATERMARK;
   Tok.NOREPLY; Tok.NUMBER_OF_REPLICAS; Tok.POLL_TIMEOUT; Tok.RANDOMIZE_REPLICA_READ; Tok.RCV_TIMEOUT;
   Tok.REMOVE_FAILED_SERVERS; Tok.RETRY_TIMEOUT; Tok.SND_TIMEOUT; Tok.SOCKET_RECV_SIZE; Tok.SOCKET_SEND_SIZE; Tok.SORT_HOSTS;
   Tok.SUPPORT_CAS; Tok._TCP_KEEPALIVE; Tok._TCP_KEEPIDLE; Tok._TCP_NODELAY; Tok.USE_UDP; Tok.USER_DATA; Tok.VERIFY_KEY].
Definition other_tokens : list Tok.yytokentype :=
  [Tok.POOL_MIN; Tok.POOL_MAX; Tok.NAMESPACE; Tok.FETCH_VERSION; Tok.INCLUDE; Tok.RESET; Tok.PARSER_DEBUG;
   Tok.SERVERS; Tok.END; Tok.CSL_ERROR; Tok.CSL_TRUE; Tok.CSL_FALSE].
Definition option_tokens : list Tok.yytokentype := setting_tokens ++ other_tokens.
Definition value_tokens : list Tok.yytokentype :=
  [Tok.CONSISTENT; Tok.MODULA; Tok.RANDOM; Tok.MD5; Tok.CRC; Tok.FNV1_64; Tok.FNV1A_64; Tok.FNV1_32; Tok.FNV1A_32; Tok.HSIEH;
   Tok.MURMUR; Tok.JENKINS].

(** The action of a rule: the token and its value, if it has one. *)
Definition lex_action (act : Z) (yytext : cstring) : PIO (Tok.yytokentype * option YYSTYPE) :=
  let yyleng := List.length yytext in
  if act =? 1 then match head yytext ≫= Tok.of_character with Some t => ret (t, None) | None => stuck Undefined end else
  if act =? 2 then let* n := lift (atoi yytext) in ret (Tok.NUMBER, Some (number n)) else
  if act =? 3 then let* n := lift (atoi (drop 1 yytext)) in ret (Tok.PORT, Some (number n)) else
  if act =? 4 then let* n := lift (atoi (drop 2 yytext)) in ret (Tok.WEIGHT_START, Some (number n)) else
  if act =? 6 then ret (Tok.COMMENT, None) else
  if act =? 7 then on_context (set_is_server true) ;;; ret (Tok.SERVER, None) else
  if act =? 49 then ret (Tok.UNKNOWN_OPTION, None) else
  if act =? 62 then let* v := context_hostname yytext in ret (Tok.IPADDRESS, Some v) else
  if act =? 63 then
    let* server := getc _is_server in
    if server : bool then let* v := context_hostname yytext in ret (Tok.HOSTNAME, Some v)
    else let* v := context_string_buffer yytext in ret (Tok.STRING, v)
  else
  if act =? 64 then
    let* v := context_string_buffer (take (yyleng - 2) (drop 1 yytext)) in ret (Tok.QUOTED_STRING, v) else
  if act =? 65 then ret (Tok.UNKNOWN, None) else
  match option_tokens !! Z.to_nat (act - 8), value_tokens !! Z.to_nat (act - 50) with
  | Some t, _ => if act <? 8 then stuck Undefined else ret (t, None)
  | None, Some t => if act <? 50 then stuck Undefined else ret (t, None)
  | None, None => stuck Undefined
  end.

(** Rule 5 skips its text. *)
Fixpoint lex_loop (fuel : nat) : PIO (Tok.yytokentype * option YYSTYPE) :=
  match fuel with
  | O => stuck OutOfFuel
  | S fuel =>
    let* s := gets ps_scan in
    let* x := lift (next_match s) in
    let '(act, yytext, s) := x in
    modify (fun p => mkParsing (ps_client p) (ps_context p) s) ;;;
    if act =? 0 then ret (Tok.YYEOF, None) else
    if act =? 5 then lex_loop fuel else
    lex_action act yytext
  end.

Definition config_lex : PIO (Tok.yytokentype * option YYSTYPE) :=
  let* s := gets ps_scan in lex_loop (S (List.length (yy_ch_buf s) + List.length (unread s))).
End Lexer.

(** * The parser of configurations: csl/parser.cc, and options.cc

    The automaton of bison on its tables, with the actions of the grammar, and what starts it:
    [memcached_parse_configuration], the reading of configuration files, and [memcached]. The
    text of messages is left out; the memory that they need is taken to be there. *)

(** [fopen] and what can be read from the file; documented to set [errno] when it fails. *)
Class Files := { fopen : cstring -> errno_t + cstring }.

Section Parser.
Context `{DM : DataModel} `{HC : HashConfig} `{AL : Allocator} `{CF : ClientConfig} `{CK : Clock} `{CC : CipherConfig}.
Context `{BR : BinaryReader} `{TR : Transport} `{SS : SessionSort} `{RB : Rebuilding} `{CS : ClientSizes} `{FS : Files}.
Context (b : Birth).

(** ** Errors *)

(** [Context::abort], and [Context::error] for every message but that of exhausted memory. *)
Definition context_abort : PIO unit :=
  on_context (set_ctx_rc MEMCACHED_PARSE_ERROR) ;;;
  let* _ := in_session (refuse MEMCACHED_PARSE_ERROR) in ret tt.
Definition context_error : PIO unit := context_abort.
Definition context_exhausted : PIO unit :=
  on_context (set_ctx_rc MEMCACHED_PARSE_ERROR) ;;;
  let* _ := in_session (refuse MEMCACHED_MEMORY_ALLOCATION_FAILURE) in ret tt.

(** ** Actions *)

(** How an action ends: with the value of the rule, with YYACCEPT or with YYABORT. *)
Inductive verdict_t := Value (v : YYSTYPE) | Accept | Abort_.

Definition parser_abort : PIO verdict_t := context_abort ;;; ret Abort_.

(** Reading a member of the union. *)
Definition as_number (v : YYSTYPE) : PIO Z := match v with number n => ret n | _ => stuck Undefined end.
Definition as_behavior (v : YYSTYPE) : PIO memcached_behavior_t := match v with behavior_value x => ret x | _ => stuck Undefined end.
Definition as_distribution (v : YYSTYPE) : PIO memcached_server_distribution_t :=
  match v with distribution_value d => ret d | _ => stuck Undefined end.
Definition as_hash (v : YYSTYPE) : PIO memcached_hash_t := match v with hash_value h => ret h | _ => stuck Undefined end.
(** [server.c_str]: the array as it is now. *)
Definition as_server (v : YYSTYPE) : PIO cstring :=
  match v with server_value => getc _hostname_buffer | _ => stuck Undefined end.
(** [string.c_str] up to the null character, and [string.c_str] with [string.size]. *)
Fixpoint until_null (s : cstring) : outcome cstring :=
  match s with [] => Stuck Undefined | c :: s => if bool_decide (c = zero) then Ret [] else let? r := until_null s in Ret (c :: r) end.
Definition string_block (v : YYSTYPE) : PIO (cstring * Z) :=
  let* s := getc _string_buffer in
  match v with
  | string_value capacity size =>
    match str_mem s with
    | Some block => if capacity =? str_size s then ret (block, size) else stuck Undefined
    | None => stuck Undefined
    end
  | _ => stuck Undefined
  end.
Definition as_c_str (v : YYSTYPE) : PIO cstring := let* x := string_block v in lift (until_null (fst x)).
Definition as_string (v : YYSTYPE) : PIO cstring :=
  let* x := string_block v in
  if (0 <=? snd x) && (snd x <=? size (fst x)) then ret (take (Z.to_nat (snd x)) (fst x)) else stuck Undefined.

Definition set_rc_of (m : SIO memcached_return_t) : PIO memcached_return_t :=
  let* rc := in_session m in on_context (set_ctx_rc rc) ;;; ret rc.

(** [if ((context->rc= m) != MEMCACHED_SUCCESS) parser_abort] *)
Definition must (m : SIO memcached_return_t) (next : PIO verdict_t) : PIO verdict_t :=
  let* rc := set_rc_of m in if rc_eqb rc MEMCACHED_SUCCESS then next else parser_abort.

(** [memcached_set_configuration_file] *)
Definition memcached_set_configuration_file (filename : cstring) : SIO unit :=
  lift (assert_msg (negb (size filename =? 0))) ;;;
  let* granted := memcached_strcpy filename in
  on_sroot (set_filename (if granted : bool then Some filename else None)).

(** [Context::set_hash] *)
Definition context_set_hash (h : memcached_hash_t) : PIO bool :=
  let* has := getc _has_hash in
  if has : bool then ret false else
  let* rc := in_session (memcached_behavior_set MEMCACHED_BEHAVIOR_HASH (algorithm_number h)) in
  if rc_eqb rc MEMCACHED_SUCCESS then on_context (set_has_hash true) ;;; ret true else ret false.

(** [memcached_reset] on the client; [_memcached_init] sets the sizes of the pool too. *)
Definition reset_client : PIO unit :=
  let* _ := in_session (memcached_reset (fun _ => ret MEMCACHED_SUCCESS)) in
  on_client (fun c => mkClient (cl_session c) 1 1).

(** The behaviours of rules 27 to 50, the hashes of 55 to 63, the distributions of 66 to 68. *)
Definition rule_numbers : list memcached_behavior_t :=
  [MEMCACHED_BEHAVIOR_REMOVE_FAILED_SERVERS; MEMCACHED_BEHAVIOR_CONNECT_TIMEOUT; MEMCACHED_BEHAVIOR_IO_MSG_WATERMARK;
   MEMCACHED_BEHAVIOR_IO_BYTES_WATERMARK; MEMCACHED_BEHAVIOR_IO_KEY_PREFETCH; MEMCACHED_BEHAVIOR_NUMBER_OF_REPLICAS;
   MEMCACHED_BEHAVIOR_POLL_TIMEOUT; MEMCACHED_BEHAVIOR_RCV_TIMEOUT; MEMCACHED_BEHAVIOR_RETRY_TIMEOUT;
   MEMCACHED_BEHAVIOR_SND_TIMEOUT; MEMCACHED_BEHAVIOR_SOCKET_RECV_SIZE; MEMCACHED_BEHAVIOR_SOCKET_SEND_SIZE].
Definition rule_booleans : list memcached_behavior_t :=
  [MEMCACHED_BEHAVIOR_BINARY_PROTOCOL; MEMCACHED_BEHAVIOR_BUFFER_REQUESTS; MEMCACHED_BEHAVIOR_HASH_WITH_PREFIX_KEY;
   MEMCACHED_BEHAVIOR_NOREPLY; MEMCACHED_BEHAVIOR_RANDOMIZE_REPLICA_READ; MEMCACHED_BEHAVIOR_SORT_HOSTS;
   MEMCACHED_BEHAVIOR_SUPPORT_CAS; MEMCACHED_BEHAVIOR_TCP_NODELAY; MEMCACHED_BEHAVIOR_TCP_KEEPALIVE;
   MEMCACHED_BEHAVIOR_TCP_KEEPIDLE; MEMCACHED_BEHAVIOR_USE_UDP; MEMCACHED_BEHAVIOR_VERIFY_KEY].
Definition rule_behaviors : list memcached_behavior_t := rule_numbers ++ rule_booleans.
Definition rule_hashes : list memcached_hash_t :=
  [HASHKIT_HASH_MD5; HASHKIT_HASH_CRC; HASHKIT_HASH_FNV1_64; HASHKIT_HASH_FNV1A_64; HASHKIT_HASH_FNV1_32; HASHKIT_HASH_FNV1A_32;
   HASHKIT_HASH_HSIEH; HASHKIT_HASH_MURMUR; HASHKIT_HASH_JENKINS].
Definition rule_distributions : list memcached_server_distribution_t :=
  [MEMCACHED_DISTRIBUTION_CONSISTENT; MEMCACHED_DISTRIBUTION_MODULA; MEMCACHED_DISTRIBUTION_RANDOM].

(** The actions with a body, on the values they use. *)
Definition skip : PIO verdict_t := ret (Value no_value).
Definition error_action : PIO verdict_t := on_context (set_ctx_rc MEMCACHED_PARSE_USER_ERROR) ;;; parser_abort.
Definition include_action (include : cstring -> ST Client memcached_return_t) (v : YYSTYPE) : PIO verdict_t :=
  let* name := as_string v in
  let* rc := (fun p => let '(o, c) := include name (ps_client p) in (o, mkParsing c (ps_context p) (ps_scan p))) in
  on_context (set_ctx_rc rc) ;;;
  if rc_eqb rc MEMCACHED_SUCCESS then skip else parser_abort.
Definition add_server_action (v2 v3 v4 : YYSTYPE) : PIO verdict_t :=
  let* host := as_server v2 in
  let* port := as_number v3 in
  let* weight := as_number v4 in
  let* rc := set_rc_of (memcached_server_add_with_weight b (Some host) (port mod 65536) (u32 weight)) in
  if memcached_failed rc then parser_abort else
  on_context (set_is_server false) ;;; skip.
Definition socket_action (v2 v3 : YYSTYPE) : PIO verdict_t :=
  let* name := as_c_str v2 in
  let* weight := as_number v3 in
  let* rc := set_rc_of (memcached_server_add_unix_socket_with_weight b name (u32 weight)) in
  if memcached_failed rc then parser_abort else skip.
Definition configure_file_action (v : YYSTYPE) : PIO verdict_t :=
  let* name := as_string v in in_session (memcached_set_configuration_file name) ;;; skip.
Definition pool_min_action (v : YYSTYPE) : PIO verdict_t :=
  let* x := as_number v in on_client (fun c => mkClient (cl_session c) (u32 x) (max_pool_size c)) ;;; skip.
Definition pool_max_action (v : YYSTYPE) : PIO verdict_t :=
  let* x := as_number v in on_client (fun c => mkClient (cl_session c) (initial_pool_size c) (u32 x)) ;;; skip.
Definition namespace_action (v : YYSTYPE) : PIO verdict_t :=
  let* old := in_session memcached_get_namespace in
  if bool_decide (is_Some old) then parser_abort else
  let* name := as_string v in
  must (memcached_set_namespace (Some name)) skip.
Definition fetch_version_action : PIO verdict_t := in_session (on_flags (put_is_fetching_version true)) ;;; skip.
Definition set_distribution (d : memcached_server_distribution_t) : SIO memcached_return_t :=
  memcached_behavior_set MEMCACHED_BEHAVIOR_DISTRIBUTION (distribution_number d).
Definition distribution_action (v : YYSTYPE) : PIO verdict_t :=
  let* d := as_distribution v in must (set_distribution d) (must (set_distribution d) skip).
Definition distribution_hash_action (v2 v4 : YYSTYPE) : PIO verdict_t :=
  let* d := as_distribution v2 in
  must (set_distribution d) (let* h := as_hash v4 in must (memcached_behavior_set_distribution_hash h) skip).
Definition hash_action (v : YYSTYPE) : PIO verdict_t :=
  let* h := as_hash v in let* ok := context_set_hash h in if ok : bool then skip else parser_abort.
Definition number_action (v1 v2 : YYSTYPE) : PIO verdict_t :=
  let* x := as_behavior v1 in let* y := as_number v2 in must (memcached_behavior_set x (u64 y)) skip.
Definition boolean_action (v1 : YYSTYPE) : PIO verdict_t :=
  let* x := as_behavior v1 in must (memcached_behavior_set x 1) skip.

(** The value of a rule whose action does not set it is that of its first symbol. *)
Definition keep (yyval : YYSTYPE) (m : PIO verdict_t) : PIO verdict_t :=
  let* r := m in ret (match r with Value _ => Value yyval | r => r end).

(** The action of a rule; [v k] is the value of the [k]-th symbol on its right, [yyval] the value
    of the first. [include] is [memcached_parse_configure_file]. *)
Definition rule_action (include : cstring -> ST Client memcached_return_t) (n : Z) (v : Z -> YYSTYPE) (yyval : YYSTYPE) : PIO verdict_t :=
  match n with
  | 7 => keep yyval (on_context set_end ;;; ret Accept)
  | 8 => keep yyval error_action
  | 9 => keep yyval (reset_client ;;; skip)
  | 11 => keep yyval (include_action include (v 3))
  | 12 | 13 => keep yyval (add_server_action (v 2) (v 3) (v 4))
  | 14 => keep yyval (socket_action (v 2) (v 3))
  | 15 => keep yyval (configure_file_action (v 2))
  | 16 => keep yyval (pool_min_action (v 2))
  | 17 => keep yyval (pool_max_action (v 2))
  | 19 => keep yyval (namespace_action (v 2))
  | 20 => keep yyval fetch_version_action
  | 21 => keep yyval (distribution_action (v 2))
  | 22 => keep yyval (distribution_hash_action (v 2) (v 4))
  | 23 => keep yyval (hash_action (v 2))
  | 24 => keep yyval (number_action (v 1) (v 2))
  | 25 => keep yyval (boolean_action (v 1))
  | 51 => ret (Value (number MEMCACHED_DEFAULT_PORT))
  | 53 => ret (Value (number 1))
  | _ =>
    if (27 <=? n) && (n <=? 50) then
      match rule_behaviors !! Z.to_nat (n - 27) with Some x => ret (Value (behavior_value x)) | None => stuck Undefined end
    else if (55 <=? n) && (n <=? 63) then
      match rule_hashes !! Z.to_nat (n - 55) with Some h => ret (Value (hash_value h)) | None => stuck Undefined end
    else if (66 <=? n) && (n <=? 68) then
      match rule_distributions !! Z.to_nat (n - 66) with Some d => ret (Value (distribution_value d)) | None => stuck Undefined end
    else ret (Value yyval)
  end.

(** ** The automaton *)

(** States with the values of their symbols, the top first. *)
Definition yystack : Type := list (Z * YYSTYPE).

Definition YYTRANSLATE (t : Tok.yytokentype) : outcome Z :=
  if Tok.code t <=? YYMAXUTOK then at_table yytranslate (Tok.code t) else Ret YYUNDEFTOK.

(** The state behind a rule that was reduced. *)
Definition yygoto (n top : Z) : outcome Z :=
  let? lhs := at_table yyr1 n in
  let? base := at_table yypgoto (lhs - YYNTOKENS) in
  let k := base + top in
  let? hit := (if (0 <=? k) && (k <=? YYLAST) then let? c := at_table yycheck k in Ret (c =? top) else Ret false) in
  if hit : bool then at_table yytable k else at_table yydefgoto (lhs - YYNTOKENS).

(** What to do in a state with a symbol: shift to a state, reduce by a rule, or an error. *)
Inductive yyaction := Shift (state : Z) | Reduce (rule : Z) | SyntaxError.

Definition yydefault (state : Z) : outcome yyaction :=
  let? n := at_table yydefact state in Ret (if n =? 0 then SyntaxError else Reduce n).

(** With a lookahead symbol; [base] is [yypact] of the state. *)
Definition yydecide (state base symbol : Z) : outcome yyaction :=
  let n := base + symbol in
  if (n <? 0) || (YYLAST <? n) then yydefault state else
  let? c := at_table yycheck n in
  if negb (c =? symbol) then yydefault state else
  let? n := at_table yytable n in
  Ret (if n <=? 0 then Reduce (- n) else Shift n).

(** [yyerrlab1]: the stack from the first state on that can shift the error token. *)
Fixpoint yyrecover (stack : yystack) : outcome (option (Z * yystack)) :=
  match stack with
  | [] => Ret None
  | (state, v) :: below =>
    let? base := at_table yypact state in
    let n := base + YYTERROR in
    let? next := (if negb (base =? YYPACT_NINF) && (0 <=? n) && (n <=? YYLAST)
                  then let? c := at_table yycheck n in if c =? YYTERROR then at_table yytable n else Ret 0
                  else Ret 0) in
    if 0 <? next then Ret (Some (next, stack)) else yyrecover below
  end.

(** What is done for an action; [again] goes back to [yysetstate] with the stack, the lookahead
    token ([None] is YYEMPTY), [yylval] and [yyerrstatus]. *)
Definition yyperform (include : cstring -> ST Client memcached_return_t)
    (again : yystack -> option Tok.yytokentype -> YYSTYPE -> Z -> PIO Z) (a : yyaction) (stack : yystack)
    (yychar : option Tok.yytokentype) (yylval : YYSTYPE) (yyerrstatus : Z) : PIO Z :=
  match a with
  | Shift n => again ((n, yylval) :: stack) None yylval (if yyerrstatus =? 0 then 0 else yyerrstatus - 1)
  | Reduce n =>
    let* yylen := lift (at_table yyr2 n) in
    let len := Z.to_nat yylen in
    let value k := match stack !! (len - Z.to_nat k)%nat with Some x => snd x | None => no_value end in
    let* r := rule_action include n value (if yylen =? 0 then no_value else value 1) in
    match r with
    | Accept => ret 0
    | Abort_ => ret 1
    | Value yyval =>
      match drop len stack with
      | [] => stuck Undefined
      | (s, v) :: below =>
        let* next := lift (yygoto n s) in
        again ((next, yyval) :: (s, v) :: below) yychar yylval yyerrstatus
      end
    end
  | SyntaxError =>
    (if yyerrstatus =? 0 then context_error else ret tt) ;;;
    if (yyerrstatus =? 3) && bool_decide (yychar = Some Tok.YYEOF) then ret 1 else
    let yychar := if yyerrstatus =? 3 then None else yychar in
    let* r := lift (yyrecover stack) in
    match r with
    | None => ret 1
    | Some (next, stack) => again ((next, yylval) :: stack) yychar yylval 3
    end
  end.

(** The lookahead token and [yylval]. *)
Definition yylookahead (yychar : option Tok.yytokentype) (yylval : YYSTYPE) : PIO (Tok.yytokentype * YYSTYPE) :=
  match yychar with
  | Some t => ret (t, yylval)
  | None => let* x := config_lex in ret (fst x, default yylval (snd x))
  end.

(** The loop from [yysetstate] on. The result is the one of [yyparse]. *)
Fixpoint yyloop (include : cstring -> ST Client memcached_return_t) (fuel : nat) (stack : yystack) (yychar : option Tok.yytokentype)
    (yylval : YYSTYPE) (yyerrstatus : Z) : PIO Z :=
  match fuel, stack with
  | O, _ => stuck OutOfFuel
  | _, [] => stuck Undefined
  | S fuel, (yystate, top) :: below =>
    if YYINITDEPTH - 1 <=? Z.of_nat (List.length below) then context_exhausted ;;; ret 2 else
    if yystate =? YYFINAL then ret 0 else
    let* base := lift (at_table yypact yystate) in
    if base =? YYPACT_NINF then
      let* a := lift (yydefault yystate) in
      yyperform include (yyloop include fuel) a stack yychar yylval yyerrstatus
    else
      let* x := yylookahead yychar yylval in
      let '(t, yylval) := x in
      let* symbol := lift (YYTRANSLATE t) in
      let* a := lift (yydecide yystate base symbol) in
      yyperform include (yyloop include fuel) a stack (Some t) yylval yyerrstatus
  end.

(** A statement takes at most fourteen rounds and a character at least. *)
Definition parse_fuel (text : cstring) : nat := 16 + 14 * List.length text.

(** ** options.cc *)

(** [memcached_parse_configuration] with the constructor of [Context]; [run] is [yyparse]. *)
Definition parse_text (run : PIO Z) (text : cstring) : ST Client memcached_return_t := fun c =>
  let start : PIO memcached_return_t :=
    let* s := in_session (at_root (with_allocs (memcached_string_create 1024))) in
    on_context (set_string_buffer (default _init_string s)) ;;;
    let* _ := run in
    getc ctx_rc in
  let '(o, p) := start (mkParsing c (mkContext MEMCACHED_SUCCESS false false [] false _init_string) (new_Scan text)) in
  (o, ps_client p).

Definition parse_with (include : cstring -> ST Client memcached_return_t) (text : cstring) : ST Client memcached_return_t :=
  parse_text (yyloop include (parse_fuel text) [(0, no_value)] None no_value 0) text.

Definition client_session {A} (m : SIO A) : ST Client A := fun c =>
  let '(o, s) := m (cl_session c) in (o, mkClient s (initial_pool_size c) (max_pool_size c)).

(** [fgets] with a buffer of BUFSIZ characters: a line with its end, or the beginning of it. *)
Definition BUFSIZ : Z := 8192.
Fixpoint take_line (room : nat) (text : cstring) : cstring * cstring :=
  match room, text with
  | S room, c :: text => if bool_decide (c = newline) then ([c], text) else let '(a, b) := take_line room text in (c :: a, b)
  | _, _ => ([], text)
  end.

(** The characters before the first null character. *)
Fixpoint c_str (s : cstring) : cstring :=
  match s with [] => [] | c :: s => if bool_decide (c = zero) then [] else c :: c_str s end.

Fixpoint parse_lines (fuel : nat) (parse : cstring -> ST Client memcached_return_t) (text : cstring) (rc : memcached_return_t)
    : ST Client memcached_return_t :=
  match text, fuel with
  | [], _ => ret rc
  | _, O => stuck OutOfFuel
  | _, S fuel =>
    let '(line, rest) := take_line (Z.to_nat (BUFSIZ - 1)) text in
    let line := c_str line in
    if bool_decide (line = [newline]) then parse_lines fuel parse rest rc else
    let* rc := parse line in
    if memcached_failed rc then ret rc else parse_lines fuel parse rest rc
  end.

Definition _parse_file_options (parse : cstring -> ST Client memcached_return_t) (name : cstring) : ST Client memcached_return_t :=
  match fopen name with
  | inl e => client_session (on_sroot (set_errno e) ;;; at_root (memcached_set_errno_root e))
  | inr text => parse_lines (List.length text) parse text MEMCACHED_INVALID_ARGUMENTS
  end.

Definition memcached_parse_configure_file (parse : cstring -> ST Client memcached_return_t) (filename : cstring) : ST Client memcached_return_t :=
  if size filename =? 0 then client_session (refuse MEMCACHED_INVALID_ARGUMENTS) else
  let* granted := client_session (memcached_strcpy filename) in
  if negb granted then client_session (refuse MEMCACHED_MEMORY_ALLOCATION_FAILURE) else _parse_file_options parse filename.

(** [depth] bounds how deep files include one another. *)
Fixpoint memcached_parse_configuration (depth : nat) (text : cstring) : ST Client memcached_return_t :=
  parse_with (fun name =>
    match depth with
    | O => stuck OutOfFuel
    | S depth => memcached_parse_configure_file (memcached_parse_configuration depth) name
    end) text.

(** [libmemcached_check_configuration] on the new client; the message is left out. *)
Definition libmemcached_check_configuration (depth : nat) (text : cstring) : ST Client memcached_return_t :=
  if size text =? 0 then ret MEMCACHED_INVALID_ARGUMENTS else
  let* rc := memcached_parse_configuration depth text in
  let* file := client_session (sroot filename) in
  let* rc := (match file with
              | Some name => if memcached_success rc then _parse_file_options (memcached_parse_configuration depth) name else ret rc
              | None => ret rc
              end) in
  client_session memcached_free ;;;
  ret rc.

(** [memcached(string, length)] on the new client; [env] is the variable LIBMEMCACHED, [string] is
    [None] for the null pointer with length 0. The result is whether the client is kept. *)
Definition memcached (depth : nat) (env string : option cstring) : ST Client bool :=
  if bool_decide (string = Some []) then ret false else
  let string := match string with None => env | _ => string end in
  let* created := client_session (memcached_create false) in
  if negb created then ret false else
  match string with
  | None | Some [] => ret true
  | Some text =>
    let* rc := memcached_parse_configuration depth text in
    let* file := client_session (sroot filename) in
    let* rc := (match file with
                | Some name => if memcached_success rc then memcached_parse_configure_file (memcached_parse_configuration depth) name else ret rc
                | None => ret rc
                end) in
    if memcached_failed rc then client_session memcached_free ;;; ret false else ret true
  end.
End Parser.
