(* ===== verification/ConfigGrammar.v ===== *)
(** * The grammar of configurations: csl/parser.yy

    The grammar as a recursive descent: a function for what a statement is, with the tokens of
    parser.yy and no tables. [automaton_follows_grammar] is that the automaton of ConfigParser
    does on every input what the descent does: the same calls in the same order, the same reading
    of tokens, the same result. *)

From stdpp Require Import base list.
From Stdlib Require Import ZArith Lia Ascii String.
From S2P Require Import Prelude CxxString HashWords HashSmall HashKit HashkitString Rijndael Aes Continuum ClientTypes Distribution.
From S2P Require Import ByteOrder ClientString ClientState BinaryProtocol ClientRead ClientWrite ClientConnect ClientOps ClientBehavior ClientClone.
From S2P Require Import ClientServers ConfigTables ConfigScanner ConfigScannerSpec ConfigRules ConfigParser.

(** ** What tokens stand for *)

Definition number_behavior (t : Tok.yytokentype) : option memcached_behavior_t :=
  match t with
  | Tok.REMOVE_FAILED_SERVERS => Some MEMCACHED_BEHAVIOR_REMOVE_FAILED_SERVERS
  | Tok.CONNECT_TIMEOUT => Some MEMCACHED_BEHAVIOR_CONNECT_TIMEOUT
  | Tok.IO_MSG_WATERMARK => Some MEMCACHED_BEHAVIOR_IO_MSG_WATERMARK
  | Tok.IO_BYTES_WATERMARK => Some MEMCACHED_BEHAVIOR_IO_BYTES_WATERMARK
  | Tok.IO_KEY_PREFETCH => Some MEMCACHED_BEHAVIOR_IO_KEY_PREFETCH
  | Tok.NUMBER_OF_REPLICAS => Some MEMCACHED_BEHAVIOR_NUMBER_OF_REPLICAS
  | Tok.POLL_TIMEOUT => Some MEMCACHED_BEHAVIOR_POLL_TIMEOUT
  | Tok.RCV_TIMEOUT => Some MEMCACHED_BEHAVIOR_RCV_TIMEOUT
  | Tok.RETRY_TIMEOUT => Some MEMCACHED_BEHAVIOR_RETRY_TIMEOUT
  | Tok.SND_TIMEOUT => Some MEMCACHED_BEHAVIOR_SND_TIMEOUT
  | Tok.SOCKET_RECV_SIZE => Some MEMCACHED_BEHAVIOR_SOCKET_RECV_SIZE
  | Tok.SOCKET_SEND_SIZE => Some MEMCACHED_BEHAVIOR_SOCKET_SEND_SIZE
  | _ => None
  end.

Definition boolean_behavior (t : Tok.yytokentype) : option memcached_behavior_t :=
  match t with
  | Tok.BINARY_PROTOCOL => Some MEMCACHED_BEHAVIOR_BINARY_PROTOCOL
  | Tok.BUFFER_REQUESTS => Some MEMCACHED_BEHAVIOR_BUFFER_REQUESTS
  | Tok.HASH_WITH_NAMESPACE => Some MEMCACHED_BEHAVIOR_HASH_WITH_PREFIX_KEY
  | Tok.NOREPLY => Some MEMCACHED_BEHAVIOR_NOREPLY
  | Tok.RANDOMIZE_REPLICA_READ => Some MEMCACHED_BEHAVIOR_RANDOMIZE_REPLICA_READ
  | Tok.SORT_HOSTS => Some MEMCACHED_BEHAVIOR_SORT_HOSTS
  | Tok.SUPPORT_CAS => Some MEMCACHED_BEHAVIOR_SUPPORT_CAS
  | Tok._TCP_NODELAY => Some MEMCACHED_BEHAVIOR_TCP_NODELAY
  | Tok._TCP_KEEPALIVE => Some MEMCACHED_BEHAVIOR_TCP_KEEPALIVE
  | Tok._TCP_KEEPIDLE => Some MEMCACHED_BEHAVIOR_TCP_KEEPIDLE
  | Tok.USE_UDP => Some MEMCACHED_BEHAVIOR_USE_UDP
  | Tok.VERIFY_KEY => Some MEMCACHED_BEHAVIOR_VERIFY_KEY
  | _ => None
  end.

Definition hash_of (t : Tok.yytokentype) : option memcached_hash_t :=
  match t with
  | Tok.MD5 => Some HASHKIT_HASH_MD5 | Tok.CRC => Some HASHKIT_HASH_CRC
  | Tok.FNV1_64 => Some HASHKIT_HASH_FNV1_64 | Tok.FNV1A_64 => Some HASHKIT_HASH_FNV1A_64
  | Tok.FNV1_32 => Some HASHKIT_HASH_FNV1_32 | Tok.FNV1A_32 => Some HASHKIT_HASH_FNV1A_32
  | Tok.HSIEH => Some HASHKIT_HASH_HSIEH | Tok.MURMUR => Some HASHKIT_HASH_MURMUR
  | Tok.JENKINS => Some HASHKIT_HASH_JENKINS
  | _ => None
  end.

Definition distribution_of (t : Tok.yytokentype) : option memcached_server_distribution_t :=
  match t with
  | Tok.CONSISTENT => Some MEMCACHED_DISTRIBUTION_CONSISTENT
  | Tok.MODULA => Some MEMCACHED_DISTRIBUTION_MODULA
  | Tok.RANDOM => Some MEMCACHED_DISTRIBUTION_RANDOM
  | _ => None
  end.

Definition is_token (u t : Tok.yytokentype) : option unit := if bool_decide (t = u) then Some tt else None.
Definition is_string (t : Tok.yytokentype) : option unit :=
  match t with Tok.STRING | Tok.QUOTED_STRING => Some tt | _ => None end.
Definition is_host (t : Tok.yytokentype) : option unit :=
  match t with Tok.HOSTNAME | Tok.IPADDRESS => Some tt | _ => None end.

(** ** The descent *)

Section Grammar.
Context `{DM : DataModel} `{HC : HashConfig} `{AL : Allocator} `{CF : ClientConfig} `{CK : Clock} `{CC : CipherConfig}.
Context `{BR : BinaryReader} `{TR : Transport} `{SS : SessionSort} `{RB : Rebuilding} `{CS : ClientSizes} `{FS : Files}.
Context (b : Birth) (include : cstring -> ST Client memcached_return_t).

Definition syntax_error : PIO Z := context_error ;;; ret 1.

(** A token of a kind, and its value. *)
Definition expect {A} (kind : Tok.yytokentype -> option A) (yylval : YYSTYPE) (k : A -> YYSTYPE -> PIO Z) : PIO Z :=
  let* x := yylookahead None yylval in
  match kind (fst x) with Some a => k a (snd x) | None => syntax_error end.

(** The token [u], or else the default; a token that was read for it is kept. *)
Definition optional (u : Tok.yytokentype) (dflt : Z) (yychar : option Tok.yytokentype) (yylval : YYSTYPE)
    (k : YYSTYPE -> option Tok.yytokentype -> YYSTYPE -> PIO Z) : PIO Z :=
  let* x := yylookahead yychar yylval in
  if bool_decide (fst x = u) then k (snd x) None (snd x) else k (number dflt) (Some (fst x)) (snd x).

(** An action, and what follows when it does not end the parse. *)
Definition perform (m : PIO verdict_t) (k : PIO Z) : PIO Z :=
  let* r := m in match r with Value _ => k | Accept => ret 0 | Abort_ => ret 1 end.

(** A statement from its first token on; [k] has the token behind it if it was read. *)
Definition statement (t : Tok.yytokentype) (yylval : YYSTYPE) (k : option Tok.yytokentype -> YYSTYPE -> PIO Z) : PIO Z :=
  match t with
  | Tok.COMMENT | Tok.EMPTY_LINE | Tok.PARSER_DEBUG | Tok.USER_DATA => k None yylval
  | Tok.END => on_context set_end ;;; ret 0
  | Tok.CSL_ERROR => perform error_action (k None yylval)
  | Tok.RESET => reset_client ;;; k None yylval
  | Tok.INCLUDE =>
    expect (is_token Tok.SPACE) yylval (fun _ y =>
    expect is_string y (fun _ y => perform (include_action include y) (k None y)))
  | Tok.SERVER =>
    expect is_host yylval (fun _ host =>
    optional Tok.PORT MEMCACHED_DEFAULT_PORT None host (fun port ch y =>
    optional Tok.WEIGHT_START 1 ch y (fun weight ch y => perform (add_server_action b host port weight) (k ch y))))
  | Tok.CSL_SOCKET =>
    expect is_string yylval (fun _ name =>
    optional Tok.WEIGHT_START 1 None name (fun weight ch y => perform (socket_action b name weight) (k ch y)))
  | Tok.CONFIGURE_FILE => expect is_string yylval (fun _ y => perform (configure_file_action y) (k None y))
  | Tok.POOL_MIN => expect (is_token Tok.NUMBER) yylval (fun _ y => perform (pool_min_action y) (k None y))
  | Tok.POOL_MAX => expect (is_token Tok.NUMBER) yylval (fun _ y => perform (pool_max_action y) (k None y))
  | Tok.NAMESPACE => expect is_string yylval (fun _ y => perform (namespace_action y) (k None y))
  | Tok.FETCH_VERSION => perform fetch_version_action (k None yylval)
  | Tok.DISTRIBUTION =>
    expect distribution_of yylval (fun d y =>
    let* x := yylookahead None y in
    let '(t, y) := x in
    if bool_decide (t = Tok.COMMA)
    then expect hash_of y (fun h y => perform (distribution_hash_action (distribution_value d) (hash_value h)) (k None y))
    else perform (distribution_action (distribution_value d)) (k (Some t) y))
  | Tok.HASH => expect hash_of yylval (fun h y => perform (hash_action (hash_value h)) (k None y))
  | t =>
    match number_behavior t, boolean_behavior t with
    | Some x, _ => expect (is_token Tok.NUMBER) yylval (fun _ y => perform (number_action (behavior_value x) y) (k None y))
    | None, Some x => perform (boolean_action (behavior_value x)) (k None yylval)
    | None, None => syntax_error
    end
  end.

(** Statements with a blank between them, up to the end of the text; the result is the one of
    [yyparse]. [n] bounds their number. *)
Fixpoint statements (n : nat) (yylval : YYSTYPE) : PIO Z :=
  match n with
  | O => stuck OutOfFuel
  | S n =>
    let* x := yylookahead None yylval in
    statement (fst x) (snd x) (fun yychar yylval =>
      let* x := yylookahead yychar yylval in
      match fst x with
      | Tok.YYEOF => ret 0
      | Tok.SPACE => statements n (snd x)
      | _ => syntax_error
      end)
  end.
End Grammar.

(** [memcached_parse_configuration] by the grammar. *)
Section GrammarParse.
Context `{DM : DataModel} `{HC : HashConfig} `{AL : Allocator} `{CF : ClientConfig} `{CK : Clock} `{CC : CipherConfig}.
Context `{BR : BinaryReader} `{TR : Transport} `{SS : SessionSort} `{RB : Rebuilding} `{CS : ClientSizes} `{FS : Files}.
Context (b : Birth).

Fixpoint grammar_configuration (depth : nat) (text : cstring) : ST Client memcached_return_t :=
  parse_text (statements b (fun name =>
    match depth with
    | O => stuck OutOfFuel
    | S depth => memcached_parse_configure_file (grammar_configuration depth) name
    end) (S (List.length text)) no_value) text.
End GrammarParse.

(** ** Every token shortens the text *)

Definition short_rules (bol : bool) : bool :=
  forallb (fun e => negb (nullable (snd e))
    && (negb (fst e =? 6) || forallb (fun c => negb (nullable (deriv (Z.of_nat c) (snd e)))) (seq 0 256))) (rules bol).

Lemma rules_short bol : short_rules bol = true.
Proof. destruct bol; vm_compute; reflexivity. Qed.

Lemma token_progress bol text act n : token_of bol text = (act, n) -> text <> [] -> (1 <= n)%nat.
Proof.
  intros Ht Hne. destruct (verdict_longest bol text Hne) as (q & m & Hv & Hm & (r & Hin & Hr) & _).
  unfold token_of in Ht. rewrite Hv in Ht. injection Ht as <- <-. pose proof (rules_short bol) as Hs.
  unfold short_rules in Hs. rewrite forallb_forall in Hs. specialize (Hs _ Hin). cbn [fst snd] in Hs.
  apply andb_true_iff in Hs as [Hs0 Hs6]. destruct m as [|m].
  { rewrite take_0 in Hr. apply nullable_ok in Hr. by rewrite Hr in Hs0. }
  destruct (Z.eqb_spec (accepts q) 6) as [E|]; [|lia]. destruct m as [|m]; [|lia].
  destruct text as [|c text]; [done|]. cbn [take] in Hr. rewrite take_0 in Hr. apply deriv_ok, nullable_ok in Hr.
  cbn [negb orb] in Hs6. rewrite forallb_forall in Hs6. specialize (Hs6 (Z.to_nat (uchar c))).
  pose proof (uchar_small c). rewrite Z2Nat.id, Hr in Hs6 by lia. assert (In (Z.to_nat (uchar c)) (seq 0 256)) as Hc by (apply in_seq; lia).
  by apply Hs6 in Hc.
Qed.

Section Follows.
Context `{DM : DataModel} `{HC : HashConfig} `{AL : Allocator} `{CF : ClientConfig} `{CK : Clock} `{CC : CipherConfig}.
Context `{BR : BinaryReader} `{TR : Transport} `{SS : SessionSort} `{RB : Rebuilding} `{CS : ClientSizes} `{FS : Files}.
Context (b : Birth) (include : cstring -> ST Client memcached_return_t).

(** A token that was read and not yet used is one more to come. *)
Definition cost (yychar : option Tok.yytokentype) : nat :=
  match yychar with None | Some Tok.YYEOF => 0 | _ => 1 end.

(** At most [n] tokens are to come. *)
Definition ready (n : nat) (yychar : option Tok.yytokentype) (p : Parsing) : Prop :=
  between (ps_scan p) /\ (List.length (rest (ps_scan p)) + cost yychar <= n)%nat.

Lemma ready_weaken n yychar p : ready n yychar p -> ready n None p.
Proof. intros [? ?]. split; [done|]. cbn. lia. Qed.

Lemma ready_used n t p : t <> Tok.YYEOF -> ready n (Some t) p -> ready (n - 1) None p.
Proof. intros Ht [? H]. split; [done|]. destruct t; cbn in *; solve [lia | done]. Qed.

(** *** What does not touch the scanner *)

Definition spares {A} (m : PIO A) : Prop := forall p, ps_scan (snd (m p)) = ps_scan p.

Lemma spares_bind {A B} (m : PIO A) (k : A -> PIO B) : spares m -> (forall a, spares (k a)) -> spares (bind m k).
Proof.
  intros Hm Hk p. unfold bind. specialize (Hm p). destruct (m p) as [[a|e|f] p'] eqn:E; cbn in *; [|done..]. by rewrite (Hk a p').
Qed.

Lemma spares_in_session {A} (m : SIO A) : spares (in_session m).
Proof. intros p. unfold in_session. by destruct (m _). Qed.

Lemma spares_lift {A} (o : outcome A) : spares (lift o).
Proof. done. Qed.
Lemma spares_on_context f : spares (on_context f).
Proof. done. Qed.
Lemma spares_on_client f : spares (on_client f).
Proof. done. Qed.
Lemma spares_getc {A} (f : Context -> A) : spares (getc f).
Proof. done. Qed.
Lemma spares_ret {A} (a : A) : spares (ret a).
Proof. done. Qed.
Lemma spares_stuck {A} f : spares (stuck (A := A) f).
Proof. done. Qed.

Create HintDb spares discriminated.
#[local] Hint Resolve spares_in_session spares_lift spares_on_context spares_on_client spares_getc spares_ret spares_stuck : spares.

(** Goes through a computation by its sequencing and its cases. *)
Ltac keeping :=
  repeat (intros; cbv zeta;
    first [solve [auto with spares]
          | apply spares_bind
          | match goal with |- spares (match ?x with _ => _ end) => destruct x end]).

Lemma spares_abort : spares parser_abort.
Proof. unfold parser_abort, context_abort. keeping. Qed.
#[local] Hint Resolve spares_abort : spares.

Lemma spares_must m k : spares k -> spares (must m k).
Proof. intros. unfold must, set_rc_of. keeping. Qed.
#[local] Hint Resolve spares_must : spares.

Lemma spares_string v : spares (as_string v).
Proof. unfold as_string, string_block. keeping. Qed.
#[local] Hint Resolve spares_string : spares.

Lemma spares_include v : spares (include_action include v).
Proof.
  unfold include_action, skip. keeping. intros p. by destruct (include a (ps_client p)).
Qed.

Lemma spares_add_server v2 v3 v4 : spares (add_server_action b v2 v3 v4).
Proof. unfold add_server_action, as_server, as_number, set_rc_of, skip. keeping. Qed.

Lemma spares_socket v2 v3 : spares (socket_action b v2 v3).
Proof. unfold socket_action, as_c_str, string_block, as_number, set_rc_of, skip. keeping. Qed.

Ltac unfold_action :=
  unfold configure_file_action, pool_min_action, pool_max_action, namespace_action, distribution_action, distribution_hash_action,
    hash_action, context_set_hash, number_action, boolean_action, fetch_version_action, error_action, reset_client,
    as_number, as_behavior, as_distribution, as_hash, skip.

Lemma spares_configure_file v : spares (configure_file_action v).
Proof. unfold_action. keeping. Qed.
Lemma spares_pool_min v : spares (pool_min_action v).
Proof. unfold_action. keeping. Qed.
Lemma spares_pool_max v : spares (pool_max_action v).
Proof. unfold_action. keeping. Qed.
Lemma spares_namespace v : spares (namespace_action v).
Proof. unfold_action. keeping. Qed.
Lemma spares_distribution v : spares (distribution_action v).
Proof. unfold_action. keeping. Qed.
Lemma spares_hash v : spares (hash_action v).
Proof. unfold_action. keeping. Qed.
Lemma spares_boolean v : spares (boolean_action v).
Proof. unfold_action. keeping. Qed.
Lemma spares_distribution_hash v w : spares (distribution_hash_action v w).
Proof. unfold_action. keeping. Qed.
Lemma spares_number v w : spares (number_action v w).
Proof. unfold_action. keeping. Qed.
Lemma spares_fetch_version : spares fetch_version_action.
Proof. unfold_action. keeping. Qed.
Lemma spares_error : spares error_action.
Proof. unfold_action. keeping. Qed.
Lemma spares_reset : spares (reset_client ;;; skip).
Proof. unfold_action. keeping. Qed.
#[local] Hint Resolve spares_include spares_add_server spares_socket spares_configure_file spares_pool_min spares_pool_max spares_namespace
  spares_distribution spares_distribution_hash spares_hash spares_number spares_boolean spares_fetch_version spares_error spares_reset : spares.

(** *** The tokens *)

Lemma lex_action_keeps act text : spares (lex_action act text).
Proof.
  unfold lex_action, context_hostname, context_string_buffer. keeping.
Qed.

Lemma lex_loop_ready fuel n p o p' : ready n None p -> lex_loop fuel p = (o, p') ->
  match o with Ret (t, _) => ready n (Some t) p' | _ => True end.
Proof.
  revert p. induction fuel as [|fuel IH]; intros p [Hb Hn] H; cbn [lex_loop] in H; [by injection H as <- <-|].
  unfold bind, gets, lift, modify in H. destruct (next_match_ok (ps_scan p) Hb) as (s' & Hs).
  destruct (token_of (yy_at_bol (ps_scan p)) (rest (ps_scan p))) as [act k] eqn:Ht. destruct Hs as (E & Hb' & Hr & _).
  rewrite E in H. cbn in Hn. assert (List.length (rest s') <= List.length (rest (ps_scan p)))%nat as Hle by (rewrite Hr, length_drop; lia).
  destruct (act =? 0) eqn:E0; [injection H as <- <-; split; [done|cbn; lia]|].
  assert (rest (ps_scan p) <> []) as Hne.
  { intros Hnil. rewrite Hnil in Ht. unfold token_of in Ht. destruct (verdict _ []) as [[q m]|] eqn:Hv.
    - apply verdict_inside in Hv. cbn in Hv. lia.
    - injection Ht as <- _. done. }
  assert (List.length (rest s') + 1 <= n)%nat as Hlt.
  { pose proof (token_progress _ _ _ _ Ht Hne). rewrite Hr, length_drop. destruct (rest (ps_scan p)); [done|]. cbn in *. lia. }
  destruct (act =? 5); [eapply IH, H; split; [done|cbn; lia]|].
  set (p1 := mkParsing _ _ _) in H. pose proof (lex_action_keeps act (take k (rest (ps_scan p))) p1) as Hk. rewrite H in Hk. cbn in Hk.
  destruct o as [[t v]|e|f]; [|done..]. split; rewrite Hk; [done|]. unfold cost. destruct t; cbn; lia.
Qed.

Lemma yylookahead_ready n yychar y p o p' : ready n yychar p -> yylookahead yychar y p = (o, p') ->
  match o with Ret (t, _) => ready n (Some t) p' | _ => True end.
Proof.
  intros Hr H. unfold yylookahead in H. destruct yychar as [t|]; [by injection H as <- <-|].
  unfold bind in H. destruct (config_lex p) as [o1 p1] eqn:E.
  assert (match o1 with Ret (t, _) => ready n (Some t) p1 | _ => True end) as Hl by exact (lex_loop_ready _ n p o1 p1 Hr E).
  destruct o1 as [[t v]|e|f]; cbn in H; by injection H as <- <-.
Qed.

(** *** Doing the same *)

(** Two computations do the same while at most [n] tokens are to come. *)
Definition agree (n : nat) (yychar : option Tok.yytokentype) (m1 m2 : PIO Z) : Prop :=
  forall p, ready n yychar p -> m1 p = m2 p.

Lemma agree_refl n ch m : agree n ch m m.
Proof. by intros p. Qed.

Lemma agree_eq n ch m1 m1' m2 : (forall p, m1 p = m1' p) -> agree n ch m1' m2 -> agree n ch m1 m2.
Proof. intros H Ha p Hp. rewrite H. by apply Ha. Qed.

Lemma agree_eq_r n ch m1 m2 m2' : (forall p, m2 p = m2' p) -> agree n ch m1 m2' -> agree n ch m1 m2.
Proof. intros H Ha p Hp. rewrite H. by apply Ha. Qed.

Lemma agree_weaken n ch m1 m2 : agree n None m1 m2 -> agree n ch m1 m2.
Proof. intros H p Hp. eapply H, ready_weaken, Hp. Qed.

Lemma agree_action {A} n ch (m : PIO A) k1 k2 :
  spares m -> (forall a, agree n ch (k1 a) (k2 a)) -> agree n ch (bind m k1) (bind m k2).
Proof.
  intros Hm Hk p Hp. unfold bind. specialize (Hm p). destruct (m p) as [[a|e|f] p'] eqn:E; [|done..].
  apply Hk. unfold ready in *. cbn in Hm. by rewrite Hm.
Qed.

Lemma agree_look n ch y (k1 k2 : Tok.yytokentype * YYSTYPE -> PIO Z) :
  (forall t y, agree n (Some t) (k1 (t, y)) (k2 (t, y))) -> agree n ch (bind (yylookahead ch y) k1) (bind (yylookahead ch y) k2).
Proof.
  intros Hk p Hp. unfold bind. destruct (yylookahead ch y p) as [o p'] eqn:E. pose proof (yylookahead_ready _ _ _ _ _ _ Hp E) as H.
  destruct o as [[t y']|e|f]; [|done..]. by apply Hk.
Qed.

(** *** The steps of the automaton *)

#[local] Abbreviation loop := (yyloop b include).
#[local] Abbreviation act := (yyperform b include).

(** A state that reduces without looking. *)
Definition quiet (state rule : Z) : Prop :=
  at_table yypact state = Ret YYPACT_NINF /\ yydefault state = Ret (Reduce rule) /\ (state =? YYFINAL) = false.

(** A state that looks at the next token. *)
Definition looks (state : Z) (f : Tok.yytokentype -> yyaction) : Prop :=
  exists base, at_table yypact state = Ret base /\ (base =? YYPACT_NINF) = false /\ (state =? YYFINAL) = false
  /\ forall t, (let? symbol := YYTRANSLATE t in yydecide state base symbol) = Ret (f t).

Lemma loop_quiet state rule fuel v below ch y e p : quiet state rule -> (List.length below < 199)%nat ->
  loop (S fuel) ((state, v) :: below) ch y e p = act (loop fuel) (Reduce rule) ((state, v) :: below) ch y e p.
Proof.
  intros (H1 & H2 & H3) Hd. cbn [yyloop]. destruct (Z.leb_spec (YYINITDEPTH - 1) (Z.of_nat (List.length below))) as [Hx|_].
  { unfold YYINITDEPTH in Hx. lia. }
  rewrite H3. unfold bind at 1, lift at 1. rewrite H1. change (YYPACT_NINF =? YYPACT_NINF) with true. cbv iota.
  unfold bind, lift. by rewrite H2.
Qed.

Lemma loop_looks state f fuel v below ch y e p : looks state f -> (List.length below < 199)%nat ->
  loop (S fuel) ((state, v) :: below) ch y e p
  = bind (yylookahead ch y) (fun x => act (loop fuel) (f (fst x)) ((state, v) :: below) (Some (fst x)) (snd x) e) p.
Proof.
  intros (base & H1 & H2 & H3 & Hf) Hd. cbn [yyloop]. destruct (Z.leb_spec (YYINITDEPTH - 1) (Z.of_nat (List.length below))) as [Hx|_].
  { unfold YYINITDEPTH in Hx. lia. }
  rewrite H3. unfold bind at 1, lift at 1. rewrite H1, H2. unfold bind. destruct (yylookahead ch y p) as [[[t y']|x|x] p'] eqn:E; [|done..].
  cbn [fst snd]. specialize (Hf t). unfold lift. destruct (YYTRANSLATE t) as [symbol|x|x]; cbn [obind] in Hf; [|done..]. by rewrite Hf.
Qed.

(** What follows the action of a rule. *)
Definition settle (again : yystack -> PIO Z) (next : Z) (stack : yystack) (r : verdict_t) : PIO Z :=
  match r with Accept => ret 0 | Abort_ => ret 1 | Value yyval => again ((next, yyval) :: stack) end.

Definition symbol_value (len : nat) (stack : yystack) (k : Z) : YYSTYPE :=
  match stack !! (len - Z.to_nat k)%nat with Some x => snd x | None => no_value end.

Lemma act_reduce rule len again stack ch y e p s v below next :
  at_table yyr2 rule = Ret len -> drop (Z.to_nat len) stack = (s, v) :: below -> yygoto rule s = Ret next ->
  act again (Reduce rule) stack ch y e p
  = bind (rule_action b include rule (symbol_value (Z.to_nat len) stack) (if len =? 0 then no_value else symbol_value (Z.to_nat len) stack 1))
      (settle (fun st => again st ch y e) next ((s, v) :: below)) p.
Proof.
  intros H1 H2 H3. unfold yyperform. unfold bind at 1, lift at 1. rewrite H1. cbv zeta. fold (symbol_value (Z.to_nat len) stack).
  unfold bind. set (yyval := if _ =? 0 then _ else _). destruct (rule_action _ _ _ _ _ p) as [[r|x|x] p']; [|done..]. destruct r; [|done..].
  rewrite H2. unfold lift. by rewrite H3.
Qed.

(** A rule without an action, and one with an action that does not set its value. *)
Lemma loop_rule state rule len fuel v below ch y p s v' below' next w :
  quiet state rule -> (List.length below < 199)%nat ->
  at_table yyr2 rule = Ret len -> drop (Z.to_nat len) ((state, v) :: below) = (s, v') :: below' -> yygoto rule s = Ret next ->
  rule_action b include rule (symbol_value (Z.to_nat len) ((state, v) :: below))
    (if len =? 0 then no_value else symbol_value (Z.to_nat len) ((state, v) :: below) 1) = ret (Value w) ->
  loop (S fuel) ((state, v) :: below) ch y 0 p = loop fuel ((next, w) :: (s, v') :: below') ch y 0 p.
Proof.
  intros Hq Hd H1 H2 H3 H4. rewrite (loop_quiet _ _ _ _ _ _ _ _ _ Hq Hd), (act_reduce _ _ _ _ _ _ _ _ _ _ _ _ H1 H2 H3).
  by rewrite H4.
Qed.

Lemma act_action rule len again stack ch y p s v below next w m :
  at_table yyr2 rule = Ret len -> drop (Z.to_nat len) stack = (s, v) :: below -> yygoto rule s = Ret next ->
  rule_action b include rule (symbol_value (Z.to_nat len) stack) (if len =? 0 then no_value else symbol_value (Z.to_nat len) stack 1)
    = keep w m ->
  act again (Reduce rule) stack ch y 0 p = perform m (again ((next, w) :: (s, v) :: below) ch y 0) p.
Proof.
  intros H1 H2 H3 H4. rewrite (act_reduce _ _ _ _ _ _ _ _ _ _ _ _ H1 H2 H3), H4.
  unfold keep, perform, bind, ret. by destruct (m p) as [[[]|x|x] p'].
Qed.

Lemma loop_action state rule len fuel v below ch y p s v' below' next w m :
  quiet state rule -> (List.length below < 199)%nat ->
  at_table yyr2 rule = Ret len -> drop (Z.to_nat len) ((state, v) :: below) = (s, v') :: below' -> yygoto rule s = Ret next ->
  rule_action b include rule (symbol_value (Z.to_nat len) ((state, v) :: below))
    (if len =? 0 then no_value else symbol_value (Z.to_nat len) ((state, v) :: below) 1) = keep w m ->
  loop (S fuel) ((state, v) :: below) ch y 0 p = perform m (loop fuel ((next, w) :: (s, v') :: below') ch y 0) p.
Proof. intros Hq Hd H1 H2 H3 H4. rewrite (loop_quiet _ _ _ _ _ _ _ _ _ Hq Hd). by eapply act_action. Qed.

(** An error ends the parse when no state of the stack takes the error token. *)
Lemma act_error again stack ch y p : yyrecover stack = Ret None -> act again SyntaxError stack ch y 0 p = syntax_error p.
Proof.
  intros H. unfold yyperform, syntax_error. unfold bind. change (0 =? 0) with true. cbv iota.
  destruct (context_error p) as [[[]|x|x] p']; [|done..]. cbn [andb Z.eqb]. unfold lift. by rewrite H.
Qed.

(** The stack before a statement: the first one, and one behind a blank. *)
Inductive base : yystack -> Prop :=
  | base_first v : base [(0, v)]
  | base_next v1 v2 v3 : base [(73, v1); (42, v2); (0, v3)].

Definition behind_statement (stack : yystack) : Z := match stack with [_] => 43 | _ => 82 end.

Ltac by_table := vm_compute; reflexivity.
Ltac by_tokens := eexists; split; [by_table|split; [by_table|split; [by_table|intros []; by_table]]].

(** Runs a reduction. *)
Ltac on_quiet lemma :=
  eapply lemma; [split; [by_table|split; by_table] | cbn; lia | by_table | cbn; reflexivity | by_table | reflexivity].
Ltac reduce := eapply (agree_eq _ _ _ (yyloop _ _ _ _ _ _ _)); [intros ?; on_quiet loop_rule|].
Ltac reduce_action :=
  eapply (agree_eq _ _ _ (perform _ _)); [intros ?; on_quiet loop_action|];
  apply agree_action; [|intros []; [|apply agree_refl..]].

Section Statement.
Context (n N : nat) (k : option Tok.yytokentype -> YYSTYPE -> PIO Z).
Hypothesis Hk : forall fuel w w' ch y, (N <= fuel)%nat -> agree n ch (loop fuel [(42, w); (0, w')] ch y 0) (k ch y).

Lemma close_statement fuel stack w ch y : base stack -> (N <= fuel)%nat ->
  agree n ch (loop (S fuel) ((behind_statement stack, w) :: stack) ch y 0) (k ch y).
Proof. intros [v|v1 v2 v3] HN; cbn [behind_statement]; reduce; by apply Hk. Qed.

Lemma close_expression fuel stack w ch y : base stack -> (N <= fuel)%nat ->
  agree n ch (loop (S (S fuel)) ((44, w) :: stack) ch y 0) (k ch y).
Proof.
  intros Hb HN. eapply agree_eq; [|by apply close_statement]. destruct Hb; intros p; on_quiet loop_rule.
Qed.

(** *** Reading a token of a kind *)

Definition shifts {A} (kind : Tok.yytokentype -> option A) (target : Tok.yytokentype -> Z) (t : Tok.yytokentype) : yyaction :=
  match kind t with Some _ => Shift (target t) | None => SyntaxError end.

Lemma loop_expect {A} (kind : Tok.yytokentype -> option A) target state fuel v below y (k' : A -> YYSTYPE -> PIO Z) :
  looks state (shifts kind target) -> (List.length below < 199)%nat -> yyrecover ((state, v) :: below) = Ret None ->
  (forall t a y, kind t = Some a -> agree n None (loop fuel ((target t, y) :: (state, v) :: below) None y 0) (k' a y)) ->
  agree n None (loop (S fuel) ((state, v) :: below) None y 0) (expect kind y k').
Proof.
  intros Hl Hd Hr Hk'. eapply agree_eq; [intros p; by apply loop_looks|]. unfold expect. apply agree_look. intros t y'. cbn [fst snd].
  unfold shifts. destruct (kind t) as [a|] eqn:E.
  - apply agree_weaken. by apply Hk'.
  - eapply agree_eq; [intros p; by apply act_error|apply agree_refl].
Qed.

(** A token that may be left out: the rule [rule] has nothing on its right. *)
Lemma loop_optional u dflt state target next rule fuel v below ch y k' :
  looks state (fun t => if bool_decide (t = u) then Shift target else Reduce rule) -> (List.length below < 199)%nat ->
  at_table yyr2 rule = Ret 0 -> yygoto rule state = Ret next ->
  (forall sv yv, rule_action b include rule sv yv = ret (Value (number dflt))) ->
  (forall y, agree n None (loop fuel ((target, y) :: (state, v) :: below) None y 0) (k' y None y)) ->
  (forall t y, agree n (Some t) (loop fuel ((next, number dflt) :: (state, v) :: below) (Some t) y 0) (k' (number dflt) (Some t) y)) ->
  agree n ch (loop (S fuel) ((state, v) :: below) ch y 0) (optional u dflt ch y k').
Proof.
  intros Hl Hd H1 H2 H3 Hu Hn. eapply agree_eq; [intros p; by apply loop_looks|]. unfold optional. apply agree_look. intros t y'. cbn [fst snd].
  case_bool_decide; [apply agree_weaken, Hu|]. eapply agree_eq; [|apply Hn]. intros p.
  rewrite (act_reduce _ _ _ _ _ _ _ _ _ _ _ _ H1 (eq_refl : drop (Z.to_nat 0) _ = _) H2). by rewrite H3.
Qed.

(** *** The tokens a statement may begin with *)

Definition start_row (t : Tok.yytokentype) : yyaction :=
  match (let? symbol := YYTRANSLATE t in yydecide 0 (-2) symbol) with Ret a => a | _ => SyntaxError end.

Lemma looks_start state : state = 0 \/ state = 73 -> looks state start_row.
Proof. intros [-> | ->]; by_tokens. Qed.

Definition statement_follows (fuel : nat) (t : Tok.yytokentype) : Prop :=
  forall stack y, base stack -> (N <= fuel)%nat ->
  agree n (Some t) (act (loop (12 + fuel)) (start_row t) stack (Some t) y 0) (statement b include t y k).

Lemma shift_first state fuel t stack y m : start_row t = Shift state ->
  agree n None (loop (12 + fuel) ((state, y) :: stack) None y 0) m -> agree n (Some t) (act (loop (12 + fuel)) (start_row t) stack (Some t) y 0) m.
Proof. intros -> H. by apply agree_weaken. Qed.

(** Shifts the first token. *)
Ltac begin_statement :=
  match goal with |- statement_follows _ ?t =>
    let r := eval vm_compute in (start_row t) in
    match r with Shift ?state =>
      intros stack y Hb HN; apply (shift_first state); [by_table|]; cbn [Nat.add statement number_behavior boolean_behavior]
    end
  end.

Ltac end_statement :=
  match goal with |- agree _ _ (yyloop _ _ (S ?f) (_ :: ?st) _ _ _) _ => apply (close_statement f st); [constructor|lia] end.
Ltac end_expression :=
  match goal with |- agree _ _ (yyloop _ _ (S (S ?f)) (_ :: ?st) _ _ _) _ => apply (close_expression f st); [constructor|lia] end.

Lemma follows_nothing fuel t : In t [Tok.COMMENT; Tok.EMPTY_LINE; Tok.PARSER_DEBUG] -> statement_follows fuel t.
Proof.
  intros [<-|[<-|[<-|[]]]]; begin_statement; destruct Hb; reduce; end_statement.
Qed.

Lemma follows_end fuel : statement_follows fuel Tok.END.
Proof.
  begin_statement. apply (agree_eq_r _ _ _ _ (perform (on_context set_end ;;; ret Accept) (k None y))); [done|].
  destruct Hb; (reduce_action; [done|end_statement]).
Qed.

Lemma follows_error fuel : statement_follows fuel Tok.CSL_ERROR.
Proof.
  begin_statement. destruct Hb; (reduce_action; [auto with spares|end_statement]).
Qed.

Lemma follows_reset fuel : statement_follows fuel Tok.RESET.
Proof.
  begin_statement. apply (agree_eq_r _ _ _ _ (perform (reset_client ;;; skip) (k None y))).
  { intros p. unfold perform, bind. by destruct (reset_client p) as [[]]. }
  destruct Hb; (reduce_action; [auto with spares|end_statement]).
Qed.

(** Where a token of a kind leads to. *)
Definition string_state (t : Tok.yytokentype) : Z := match t with Tok.STRING => 49 | _ => 50 end.
Definition host_state (t : Tok.yytokentype) : Z := match t with Tok.IPADDRESS => 52 | _ => 53 end.
Definition hash_state (t : Tok.yytokentype) : Z := Tok.code t - Tok.code Tok.MD5 + 59.
Definition distribution_state (t : Tok.yytokentype) : Z := Tok.code t - Tok.code Tok.CONSISTENT + 55.

Ltac look state := apply (loop_expect _ state); [by_tokens|cbn; lia|by_table|].

Lemma follows_configure_file fuel : statement_follows fuel Tok.CONFIGURE_FILE.
Proof.
  begin_statement. destruct Hb; look string_state; (intros [] [] y'; [done..| | |done]; intros _;
    (reduce; reduce_action; [auto with spares|end_expression])).
Qed.

Lemma follows_namespace fuel : statement_follows fuel Tok.NAMESPACE.
Proof.
  begin_statement. destruct Hb; look string_state; (intros [] [] y'; [done..| | |done]; intros _;
    (reduce; reduce_action; [auto with spares|reduce; end_expression])).
Qed.

Lemma follows_include fuel : statement_follows fuel Tok.INCLUDE.
Proof.
  begin_statement. destruct Hb; look (fun _ : Tok.yytokentype => 48); (intros t _ y' _; look string_state; (intros [] [] y''; [done..| | |done]; intros _;
    (reduce; reduce_action; [auto with spares|end_statement]))).
Qed.

Lemma follows_pool fuel t : In t [Tok.POOL_MIN; Tok.POOL_MAX] -> statement_follows fuel t.
Proof.
  intros [<-|[<-|[]]]; begin_statement; destruct Hb;
    (first [look (fun _ : Tok.yytokentype => 70) | look (fun _ : Tok.yytokentype => 71)]; intros t _ y' _; reduce_action; [auto with spares|end_expression]).
Qed.

Lemma follows_number fuel t : is_Some (number_behavior t) -> statement_follows fuel t.
Proof.
  intros [x Hx]. destruct t; try discriminate Hx; clear Hx; begin_statement; destruct Hb;
    (reduce; look (fun _ : Tok.yytokentype => 74); intros t _ y' _; reduce_action; [auto with spares|reduce; end_expression]).
Qed.

Lemma follows_boolean fuel t : is_Some (boolean_behavior t) -> statement_follows fuel t.
Proof.
  intros [x Hx]. destruct t; try discriminate Hx; clear Hx; begin_statement; destruct Hb;
    (reduce; reduce_action; [auto with spares|reduce; end_expression]).
Qed.

Lemma follows_flags fuel t : In t [Tok.FETCH_VERSION; Tok.USER_DATA] -> statement_follows fuel t.
Proof.
  intros [<-|[<-|[]]]; begin_statement; destruct Hb.
  1, 2: reduce_action; [auto with spares|reduce; end_expression].
  all: reduce; reduce; end_expression.
Qed.

Lemma follows_hash fuel : statement_follows fuel Tok.HASH.
Proof.
  begin_statement. destruct Hb; look hash_state; (intros t h y' Ht; destruct t; try discriminate Ht; injection Ht as <-;
    (reduce; reduce_action; [auto with spares|reduce; end_expression])).
Qed.

(** Behind the distribution. *)
Lemma follows_comma fuel stack v d y' : base stack -> (N <= fuel)%nat ->
  agree n None (loop (8 + fuel) ((58, distribution_value d) :: (14, v) :: stack) None y' 0)
    (let* x := yylookahead None y' in
     let '(t, y) := x in
     if bool_decide (t = Tok.COMMA)
     then expect hash_of y (fun h y => perform (distribution_hash_action (distribution_value d) (hash_value h)) (k None y))
     else perform (distribution_action (distribution_value d)) (k (Some t) y)).
Proof.
  intros Hb HN. cbn [Nat.add].
  assert (looks 58 (fun t => if bool_decide (t = Tok.COMMA) then Shift 81 else Reduce 21)) as Hl by by_tokens.
  eapply agree_eq; [intros p; apply loop_looks; [exact Hl|destruct Hb; cbn; lia]|]. apply agree_look. intros t y. cbn [fst snd].
  case_bool_decide.
  - apply agree_weaken. cbn [yyperform Z.eqb]. destruct Hb; look hash_state; (intros u h y'' Hu; destruct u; try discriminate Hu; injection Hu as <-;
      (reduce; reduce_action; [auto with spares|reduce; end_expression])).
  - destruct Hb;
      (eapply (agree_eq _ _ _ (perform _ _)); [intros ?; eapply act_action; [by_table|cbn; reflexivity|by_table|reflexivity]|];
       apply agree_action; [auto with spares|intros []; [|apply agree_refl..]]; reduce; end_expression).
Qed.

Lemma follows_distribution fuel : statement_follows fuel Tok.DISTRIBUTION.
Proof.
  begin_statement. destruct Hb; look distribution_state; (intros t d y' Ht; destruct t; try discriminate Ht; injection Ht as <-;
    (reduce; apply (follows_comma (2 + fuel)); [constructor|lia])).
Qed.

Ltac maybe state target next rule :=
  apply (loop_optional _ _ state target next rule); [by_tokens|cbn; lia|by_table|by_table|intros; reflexivity| |].

Lemma follows_socket fuel : statement_follows fuel Tok.CSL_SOCKET.
Proof.
  begin_statement. destruct Hb; look string_state; (intros [] [] y'; [done..| | |done]; intros _;
    (reduce; maybe 54 79 80 53; [intros y''; reduce|intros t y'']; (reduce_action; [auto with spares|end_expression]))).
Qed.

(** Behind the name of a server, with [first] and [second] for the states of the two rules. *)
Lemma follows_weight fuel stack host port vs ch y first second :
  In (first, second) [(52, 77); (53, 78)] -> base stack -> (N <= fuel)%nat ->
  agree n ch (loop (5 + fuel) ((second, port) :: (first, host) :: (9, vs) :: stack) ch y 0)
    (optional Tok.WEIGHT_START 1 ch y (fun weight ch y => perform (add_server_action b host port weight) (k ch y))).
Proof.
  intros Hin Hb HN. cbn [Nat.add]. destruct Hin as [[= <- <-]|[[= <- <-]|[]]], Hb.
  1, 2: maybe 77 79 83 53; [intros y''; reduce|intros t y'']; (reduce_action; [auto with spares|end_expression]).
  all: maybe 78 79 84 53; [intros y''; reduce|intros t y'']; (reduce_action; [auto with spares|end_expression]).
Qed.

Lemma follows_server fuel : statement_follows fuel Tok.SERVER.
Proof.
  begin_statement. destruct Hb; look host_state; intros t [] y' Ht; destruct t; try discriminate Ht; clear Ht.
  1, 3: maybe 52 76 77 51.
  5, 6: maybe 53 76 78 51.
  all: intros; first [apply (follows_weight (5 + fuel)); [solve [cbn; auto]|constructor|lia]
                     |reduce; apply (follows_weight (4 + fuel)); [solve [cbn; auto]|constructor|lia]].
Qed.

Lemma follows_other fuel t : start_row t = SyntaxError -> statement_follows fuel t.
Proof.
  intros Ht stack y Hb HN. rewrite Ht. replace (statement b include t y k) with syntax_error.
  - eapply agree_eq; [intros p; apply act_error; destruct Hb; by_table|apply agree_refl].
  - destruct t; first [reflexivity | vm_compute in Ht; discriminate Ht].
Qed.

Lemma statement_ok fuel t : statement_follows fuel t.
Proof.
  destruct t;
    first [apply follows_other; by_table | apply follows_end | apply follows_error | apply follows_reset | apply follows_include
          | apply follows_configure_file | apply follows_server | apply follows_socket | apply follows_distribution | apply follows_hash
          | apply follows_namespace | apply follows_number; eexists; reflexivity | apply follows_boolean; eexists; reflexivity
          | apply follows_nothing; cbn; tauto | apply follows_pool; cbn; tauto | apply follows_flags; cbn; tauto].
Qed.
End Statement.

(** *** The whole *)

(** The row of the state behind a statement. *)
Definition next_row (t : Tok.yytokentype) : yyaction :=
  match t with Tok.YYEOF => Shift 72 | Tok.SPACE => Shift 73 | _ => SyntaxError end.

Lemma looks_next : looks 42 next_row.
Proof. by_tokens. Qed.

Lemma automaton_follows_grammar n m fuel stack y : base stack -> (n < m)%nat -> (14 * n + 16 <= fuel)%nat ->
  agree n None (loop fuel stack None y 0) (statements b include m y).
Proof.
  revert n fuel stack y. induction m as [|m IH]; intros n fuel stack y Hb Hm Hf; [lia|]. cbn [statements].
  destruct fuel as [|fuel]; [lia|].
  eapply agree_eq.
  { intros p. destruct Hb; (apply loop_looks; [apply looks_start; tauto|cbn; lia]). }
  assert (exists fuel', fuel = (12 + fuel')%nat) as [fuel' ->] by (exists (fuel - 12)%nat; lia).
  apply agree_look. intros t y1. cbn [fst snd]. eapply (agree_eq _ _ _ (act (loop (12 + fuel')) (start_row t) stack (Some t) y1 0)); [by destruct Hb|].
  apply (statement_ok n fuel'); [|done|lia]. clear - IH Hm Hf. intros fuel w w' ch y HN. destruct fuel as [|fuel]; [lia|].
  eapply agree_eq; [intros p; apply loop_looks; [apply looks_next|cbn; lia]|]. apply agree_look. intros t y'. cbn [fst snd].
  destruct t; cbn [next_row]; try (eapply agree_eq; [intros p; apply act_error; by_table|apply agree_refl]).
  - destruct fuel as [|fuel]; [lia|]. apply agree_refl.
  - intros p Hp. destruct n as [|n]; [destruct Hp as [_ Hp]; cbn in Hp; lia|].
    apply (IH n fuel [(73, y'); (42, w); (0, w')] y'); [constructor|lia|lia|]. apply (ready_used _ Tok.SPACE) in Hp; [|done].
    by rewrite Nat.sub_1_r in Hp.
Qed.
End Follows.

(** ** Configurations *)

Section Configurations.
Context `{DM : DataModel} `{HC : HashConfig} `{AL : Allocator} `{CF : ClientConfig} `{CK : Clock} `{CC : CipherConfig}.
Context `{BR : BinaryReader} `{TR : Transport} `{SS : SessionSort} `{RB : Rebuilding} `{CS : ClientSizes} `{FS : Files}.
Context (b : Birth).

Lemma bind_ext {S A B} (m1 m2 : ST S A) (k1 k2 : A -> ST S B) s :
  (forall s, m1 s = m2 s) -> (forall a s, k1 a s = k2 a s) -> bind m1 k1 s = bind m2 k2 s.
Proof. intros H1 H2. unfold bind. rewrite H1. by destruct (m2 s) as [[]]. Qed.

Lemma perform_ext m1 m2 k1 k2 p : (forall p, m1 p = m2 p) -> (forall p, k1 p = k2 p) -> perform m1 k1 p = perform m2 k2 p.
Proof. intros H1 H2. apply bind_ext; [done|]. by intros []. Qed.

Lemma expect_ext {A} (kind : Tok.yytokentype -> option A) y k1 k2 p : (forall a y p, k1 a y p = k2 a y p) -> expect kind y k1 p = expect kind y k2 p.
Proof. intros H. apply bind_ext; [done|]. intros [t v] q. cbn. by destruct (kind t). Qed.

Lemma optional_ext u d ch y k1 k2 p : (forall v ch y p, k1 v ch y p = k2 v ch y p) -> optional u d ch y k1 p = optional u d ch y k2 p.
Proof. intros H. apply bind_ext; [done|]. intros [t v] q. cbn. by case_bool_decide. Qed.

Lemma statement_ext include1 include2 t y k1 k2 p :
  (forall name c, include1 name c = include2 name c) -> (forall ch y p, k1 ch y p = k2 ch y p) ->
  statement b include1 t y k1 p = statement b include2 t y k2 p.
Proof.
  intros Hi Hk. destruct t; cbn [statement number_behavior boolean_behavior]; try done;
    repeat first [apply Hk | done | apply expect_ext; intros | apply optional_ext; intros | apply perform_ext; intros | apply bind_ext; intros].
  - by rewrite Hi.
  - destruct a0 as [t y']. case_bool_decide; [apply expect_ext; intros|]; by apply perform_ext.
Qed.

Lemma statements_ext include1 include2 n y p :
  (forall name c, include1 name c = include2 name c) -> statements b include1 n y p = statements b include2 n y p.
Proof.
  intros Hi. revert y p. induction n as [|n IH]; intros y p; [done|]. cbn [statements]. apply bind_ext; [done|]. intros x q.
  apply statement_ext; [done|]. intros ch y' q'. apply bind_ext; [done|]. intros [t v] q''. cbn. by destruct t.
Qed.

Lemma parse_text_ext run1 run2 text c :
  (forall p, ps_scan p = new_Scan text -> run1 p = run2 p) -> parse_text run1 text c = parse_text run2 text c.
Proof.
  intros H. unfold parse_text. set (p := mkParsing _ _ _). unfold bind at 1 4. pose proof (spares_in_session (at_root (with_allocs (memcached_string_create 1024))) p) as Hk.
  destruct (in_session _ p) as [[s|e|f] q]; [|done..]. unfold on_context, modify, bind. cbn in Hk. by rewrite H.
Qed.

Lemma take_line_short room text : (List.length (fst (take_line room text)) <= room)%nat.
Proof.
  revert text. induction room as [|room IH]; intros [|c text]; cbn; try lia. case_bool_decide; cbn; [lia|].
  specialize (IH text). destruct (take_line room text). cbn in *. lia.
Qed.

Lemma c_str_short s : (List.length (c_str s) <= List.length s)%nat.
Proof. induction s as [|c s IH]; cbn; [lia|]. case_bool_decide; cbn; lia. Qed.

Lemma parse_lines_ext fuel parse1 parse2 text rc c :
  (forall text c, size text < BUFSIZ -> parse1 text c = parse2 text c) -> parse_lines fuel parse1 text rc c = parse_lines fuel parse2 text rc c.
Proof.
  intros H. revert text rc c. induction fuel as [|fuel IH]; intros [|a text] rc c; try done. cbn [parse_lines].
  pose proof (take_line_short (Z.to_nat (BUFSIZ - 1)) (a :: text)) as Hl. destruct (take_line _ _) as [line rest]. cbn [fst] in Hl.
  pose proof (c_str_short line) as Hc. case_bool_decide; [apply IH|]. unfold bind. rewrite H by (unfold size, BUFSIZ in *; lia).
  destruct (parse2 (c_str line) c) as [[rc'|e|f] c']; [|done..]. by destruct (memcached_failed rc').
Qed.

Lemma configure_file_ext parse1 parse2 name c :
  (forall text c, size text < BUFSIZ -> parse1 text c = parse2 text c) ->
  memcached_parse_configure_file parse1 name c = memcached_parse_configure_file parse2 name c.
Proof.
  intros H. unfold memcached_parse_configure_file. destruct (size name =? 0); [done|]. apply bind_ext; [done|]. intros granted c'.
  destruct (negb granted); [done|]. unfold _parse_file_options. destruct (fopen name); [done|]. by apply parse_lines_ext.
Qed.

(** [memcached_parse_configuration] does what the grammar says. *)
Lemma configuration_by_grammar depth : forall text c, size text < MAX_TEXT ->
  memcached_parse_configuration b depth text c = grammar_configuration b depth text c.
Proof.
  assert (forall include text p, size text < MAX_TEXT -> ps_scan p = new_Scan text ->
    yyloop b include (parse_fuel text) [(0, no_value)] None no_value 0 p = statements b include (S (List.length text)) no_value p) as Hrun.
  { intros include text p Hs Hp. apply (automaton_follows_grammar b include (List.length text)); [constructor|lia|unfold parse_fuel; lia|].
    destruct (new_Scan_between text Hs) as [Hb Hr]. split; rewrite Hp; [done|]. rewrite Hr. cbn. lia. }
  induction depth as [|depth IH]; intros text c Hs; apply parse_text_ext; intros p Hp; rewrite Hrun by done; [done|].
  apply statements_ext. intros name c'. apply configure_file_ext. intros text' c'' Hs'. apply IH. unfold BUFSIZ, MAX_TEXT in *. lia.
Qed.
End Configurations.
