(* ===== verification/ConfigPrint.v ===== *)
(** * Configurations as they are printed

    Directives, their text, and the calls on the client that each of them stands for. The lemmas
    follow the scanner and the grammar through the text of a list of directives. *)

From stdpp Require Import base list.
From Stdlib Require Import ZArith Lia Ascii String.
From S2P Require Import Prelude CxxString HashWords HashSmall HashKit HashkitString Rijndael Aes Continuum ClientTypes Distribution.
From S2P Require Import ByteOrder ClientString ClientState BinaryProtocol ClientRead ClientWrite ClientConnect ClientOps ClientBehavior ClientClone.
From S2P Require Import TheoremsStats ClientServers ConfigTables ConfigScanner ConfigScannerSpec ConfigRules ConfigParser ConfigGrammar.

(** ** Tokens and what follows them *)

(** Options with a value, the comma and the blank end where they end; the others at the
    characters that may follow them in a configuration. *)
Definition option_rules : list Z := [7; 8; 11; 12; 13; 15; 16; 17; 18; 20; 21; 23; 24; 25; 26; 27; 28; 37; 38; 39].
Definition followers (a : Z) : list Z :=
  if existsb (Z.eqb a) (1 :: option_rules) then all_chars
  else map uchar (
    if a =? 3 then [SP; "/"%char]
    else if (a =? 62) || (a =? 63) then [SP; ":"%char; "/"%char]
    else if (50 <=? a) && (a <=? 61) then [SP; ","%char]
    else if (2 <=? a) && (a <=? 64) && negb (a =? 5) then [SP] else []).

(** A state that does not go on with a follower of its rule: every one, but the one behind the
    beginning of a quoted string with an L before it, which is a name too. *)
Definition state_ends (s : Z) : bool := forallb (fun c => fast_step s c =? YY_JAM) (followers (fast_accepts s)).

Lemma states_end : forallb (fun s => state_ends s || (fast_accepts s =? 63)) live_states = true.
Proof. vm_compute. reflexivity. Qed.

(** The text is a token of the rule, and ends at the followers. *)
Definition token_alone (a : Z) (w : cstring) : bool :=
  forallb (fun bol => match verdict bol w with
                      | Some (q, n) => (fast_accepts q =? a) && (n =? List.length w)%nat && state_ends q
                      | None => false
                      end) [true; false].

Definition may_follow (a : Z) (t : cstring) : Prop := match t with [] => True | c :: _ => In (uchar c) (followers a) end.

#[local] Opaque fast_step fast_accepts step accepts class_of live_states.

Lemma walk_noted t st n l :
  match walk t st n l with
  | inl (_, l') | inr l' => l' = l \/ exists q m, l' = Some (q, m) /\ (n <= m < n + List.length t)%nat
  end.
Proof.
  revert st n l. induction t as [|c t IH]; intros st n l; cbn [walk List.length]; [by left|].
  assert (noted st n l = l \/ noted st n l = Some (st, n)) as Hn by (unfold noted; destruct (accepts st =? 0); auto).
  destruct (step st (class_of c) =? YY_JAM).
  - destruct Hn as [-> | ->]; [by left|]. right. exists st, n. split; [done|lia].
  - specialize (IH (step st (class_of c)) (S n) (noted st n l)). destruct (walk _ _ _ _) as [[st' l']|l'];
      (destruct IH as [->|(q & m & -> & Hm)]; [destruct Hn as [-> | ->]; [by left|right; exists st, n; split; [done|lia]]|right; exists q, m; split; [done|lia]]).
Qed.

(** A text that is accepted as a whole leads to the state that accepts it. *)
Lemma verdict_whole bol w q : verdict bol w = Some (q, List.length w) -> w <> [] /\ exists l, walk w (start_of bol) 0 None = inl (q, l).
Proof.
  intros Hv. split; [intros ->; apply verdict_inside in Hv; cbn in Hv; lia|]. unfold verdict in Hv.
  pose proof (walk_noted w (start_of bol) 0 None) as Hn. destruct (walk w (start_of bol) 0 None) as [[st l]|l].
  - unfold noted in Hv. destruct (accepts st =? 0); [|injection Hv as <-; by exists l].
    destruct Hn as [->|(q' & m & -> & Hm)]; [done|]. injection Hv as _ ->. lia.
  - destruct Hn as [->|(q' & m & -> & Hm)]; [done|]. injection Hv as _ ->. lia.
Qed.

Lemma token_followed a w t bol : token_alone a w = true -> a <> 6 -> may_follow a t -> token_of bol (w ++ t) = (a, List.length w).
Proof.
  intros Hw H6 Ht. assert (exists q, verdict bol w = Some (q, List.length w) /\ accepts q = a /\ state_ends q = true) as (q & Hv & Ha & He).
  { unfold token_alone in Hw. rewrite forallb_forall in Hw. specialize (Hw bol ltac:(destruct bol; cbn; auto)). destruct (verdict bol w) as [[q n]|]; [|done].
    apply andb_true_iff in Hw as [Hw He]. apply andb_true_iff in Hw as [Ha Hn]. apply Nat.eqb_eq in Hn as ->. apply Z.eqb_eq in Ha.
    rewrite fast_accepts_eq in Ha. exact (ex_intro _ q (conj eq_refl (conj Ha He))). }
  destruct (verdict_inside _ _ _ _ Hv) as [Hr _]. destruct (verdict_whole _ _ _ Hv) as [Hne [l Hl]].
  assert (verdict bol (w ++ t) = Some (q, List.length w)) as Hvt.
  { unfold verdict. rewrite walk_app, Hl. cbn [Nat.add]. assert (noted q (List.length w) l = Some (q, List.length w)) as Hq.
    { unfold noted. by rewrite (proj2 (Z.eqb_neq _ _)) by lia. }
    destruct t as [|c t]; cbn [walk]; [by rewrite app_nil_r|]. unfold state_ends in He. rewrite forallb_forall in He.
    rewrite fast_accepts_eq, Ha in He. specialize (He _ Ht). rewrite fast_step_eq in He. by rewrite He. }
  unfold token_of. rewrite Hvt, Ha. by rewrite (proj2 (Z.eqb_neq a 6)).
Qed.

(** ** The tokens of configurations *)

#[local] Opaque rules.

(** The first rule that is left behind the first character, when it matches the rest. *)
Lemma first_rule_alone c w a r :
  (forall bol, exists v, derive (uchar c) (rules bol) = (a, r) :: v) -> matches r w -> a <> 63 -> a <> 6 -> token_alone a (c :: w) = true.
Proof.
  intros Hd Hr H63 H6. unfold token_alone. apply forallb_forall. intros bol _.
  destruct (verdict_longest bol (c :: w) ltac:(done)) as (q & n & Hv & Hn & (r' & Hin & Hr') & Hmin & Hlong). rewrite Hv.
  destruct (Hd bol) as [v Hd']. pose proof (derive_elem_inv c (rules bol) a r) as Hinv. rewrite Hd' in Hinv.
  destruct (Hinv (or_introl eq_refl)) as (r0 & Hin0 & ->).
  assert (matches r0 (c :: w)) as Hm by by apply deriv_ok.
  assert (n = List.length (c :: w)) as ->.
  { destruct (decide (n = List.length (c :: w))) as [|Hne]; [done|]. exfalso.
    apply (Hlong (List.length (c :: w)) a r0); [lia|done|]. by rewrite take_ge. }
  rewrite take_ge in Hmin, Hr' by lia.
  assert (accepts q = a) as Ha.
  { specialize (Hmin _ _ Hin0 Hm) as Hle. pose proof (derive_elem c _ _ _ Hin w Hr') as Hq. rewrite Hd' in Hq.
    pose proof (increasing_derive 0 (uchar c) _ (rules_increasing bol)) as Hinc. rewrite Hd' in Hinc. destruct Hinc as [_ Hinc].
    destruct Hq as [[= <- _]|Hq]; [done|]. pose proof (increasing_elem _ _ _ _ Hinc Hq) as Hlt. cbn [fst] in Hlt. lia. }
  rewrite fast_accepts_eq, Ha, Z.eqb_refl, Nat.eqb_refl. cbn [andb].
  assert (live q) as Hlive.
  { destruct (verdict_whole bol (c :: w) q Hv) as [_ [l Hl]]. eapply walk_live, Hl. apply start_live. }
  pose proof states_end as Hs. rewrite forallb_forall in Hs. specialize (Hs q (live_elem q Hlive)).
  apply orb_true_iff in Hs as [Hs|Hs]; [exact Hs|]. rewrite fast_accepts_eq in Hs. apply Z.eqb_eq in Hs. congruence.
Qed.

Lemma digit_char c : isdigit c = true -> matches ConfigRules.digit [c].
Proof. intros H. constructor. unfold isdigit in H. cbn. by rewrite H. Qed.

Lemma digits_star ds : forallb isdigit ds = true -> matches (Star ConfigRules.digit) ds.
Proof.
  induction ds as [|c ds IH]; cbn; [constructor|]. intros [Hc Hd]%andb_true_iff. apply (m_star_app _ [c]); [by apply digit_char|auto].
Qed.

Lemma digits_up_to n ds : forallb isdigit ds = true -> (1 <= List.length ds <= n)%nat -> matches (up_to n ConfigRules.digit) ds.
Proof.
  revert ds. induction n as [|n IH]; intros [|c ds] Hd Hn; cbn in Hn; try lia. cbn [forallb] in Hd. apply andb_true_iff in Hd as [Hc Hd].
  destruct n as [|n]; [destruct ds; [by apply digit_char|cbn in Hn; lia]|]. change (c :: ds) with ([c] ++ ds).
  apply m_cat; [by apply digit_char|]. destruct ds as [|d ds]; [apply m_right; constructor|]. apply m_left, IH; [done|cbn in *; lia].
Qed.

Lemma digit_first c bol : isdigit c = true -> exists v, derive (uchar c) (rules bol) = (2, Star ConfigRules.digit) :: v.
Proof.
  unfold isdigit. intros [Hlo%Z.leb_le Hhi%Z.leb_le]%andb_true_iff.
  assert (exists d, In d [0; 1; 2; 3; 4; 5; 6; 7; 8; 9] /\ uchar c = 48 + d) as (d & Hd & ->) by (exists (uchar c - 48); split; [cbn; lia|lia]).
  repeat (destruct Hd as [<-|Hd]; [destruct bol; eexists; vm_compute; reflexivity|]). by destruct Hd.
Qed.

(** Numbers, ports, weights and quoted strings. *)
Lemma number_token_alone n : 0 <= n -> token_alone 2 (to_string n) = true.
Proof.
  intros Hn. destruct (to_string_spec n Hn) as (_ & Hd & Hne). destruct (to_string n) as [|c ds]; [done|].
  cbn [forallb] in Hd. apply andb_true_iff in Hd as [Hc Hd]. eapply first_rule_alone; [|by apply digits_star|done|done].
  intros bol. by apply digit_first.
Qed.

Lemma to_string_length n : 0 <= n <= 99999 -> (1 <= List.length (to_string n) <= 5)%nat.
Proof.
  intros Hn. pose proof (to_string_size n 5 ltac:(lia) ltac:(lia)) as Hs. destruct (to_string_spec n ltac:(lia)) as (_ & _ & Hne).
  unfold size in Hs. destruct (to_string n); [done|]. cbn in *. lia.
Qed.

Lemma port_alone n : 0 <= n <= 99999 -> token_alone 3 (":"%char :: to_string n) = true.
Proof.
  intros Hn. eapply first_rule_alone; [intros []; eexists; vm_compute; reflexivity| |done|done].
  apply (digits_up_to 5); [apply to_string_spec; lia|by apply to_string_length].
Qed.

Lemma weight_alone n : 0 <= n <= 99999 -> token_alone 4 ("/"%char :: "?"%char :: to_string n) = true.
Proof.
  intros Hn. eapply first_rule_alone; [intros []; eexists; vm_compute; reflexivity| |done|done].
  apply (m_cat (one "?"%char) (up_to 5 ConfigRules.digit) ["?"%char]); [by constructor|].
  apply digits_up_to; [apply to_string_spec; lia|by apply to_string_length].
Qed.

(** Characters that need no escape. *)
Definition plain (c : ascii) : bool := negb (bool_decide (c = quote)) && negb (bool_decide (c = "\"%char)).

Lemma quoted_alone s : forallb plain s = true -> token_alone 64 (quote :: s ++ [quote]) = true.
Proof.
  intros Hs. eapply first_rule_alone; [intros []; eexists; vm_compute; reflexivity| |done|done].
  apply (m_cat (Star (Alt (Cat (one "\"%char) dot) (none_of ["\"%char; quote]))) (one quote)); [|by constructor].
  induction s as [|c s IH]; [constructor|]. cbn [forallb] in Hs. apply andb_true_iff in Hs as [Hc Hs]. apply (m_star_app _ [c]); [|by apply IH].
  apply m_right, m_chars. unfold plain in Hc. apply andb_true_iff in Hc as [Hq%negb_true_iff%bool_decide_eq_false Hb%negb_true_iff%bool_decide_eq_false].
  unfold in_set, same. cbn [map existsb fst snd xorb].
  assert (forall d : ascii, c <> d -> (uchar d <=? uchar c) && (uchar c <=? uchar d) = false) as Hne.
  { intros d Hd. apply andb_false_iff. destruct (Z.leb_spec (uchar d) (uchar c)); [right|left; done]. apply Z.leb_gt.
    destruct (Z.eq_dec (uchar c) (uchar d)) as [E|]; [|lia]. exfalso. apply Hd. unfold uchar in E. apply N2Z.inj in E.
    by rewrite <- (ascii_N_embedding c), E, ascii_N_embedding. }
  by rewrite !Hne.
Qed.

(** ** Reading the tokens *)

(** The tokens that are words, with their rules. *)
Definition word_table : list (Tok.yytokentype * Z * cstring) :=
  zip (zip (Tok.SERVER :: option_tokens) (map Z.of_nat (seq 7 42))) (map lit option_words)
  ++ zip (zip value_tokens (map Z.of_nat (seq 50 12))) (map lit value_words).
Definition find_word (t : Tok.yytokentype) : option (Tok.yytokentype * Z * cstring) := find (fun x => bool_decide (fst (fst x) = t)) word_table.
Definition token_text (t : Tok.yytokentype) : cstring := match find_word t with Some x => snd x | None => [] end.
Definition token_rule (t : Tok.yytokentype) : Z := match find_word t with Some x => snd (fst x) | None => 0 end.
Definition is_word (t : Tok.yytokentype) : bool := negb (token_rule t =? 0).

Lemma words_alone :
  forallb (fun x => token_alone (snd (fst x)) (snd x) && (7 <=? snd (fst x))) word_table
  && token_alone 1 [SP] && token_alone 1 [","%char] = true.
Proof. vm_compute. reflexivity. Qed.

Section Reading.
Context `{DM : DataModel} `{AL : Allocator}.

(** The scanner is before [text]. *)
Definition scans (text : cstring) (s : Scan) : Prop := between s /\ rest s = text.

Definition with_scan (p : Parsing) (s : Scan) : Parsing := mkParsing (ps_client p) (ps_context p) s.

Lemma lex_token p w t a : scans (w ++ t) (ps_scan p) -> token_alone a w = true -> a <> 0 -> a <> 5 -> a <> 6 -> may_follow a t ->
  exists s, scans t s /\ config_lex p = lex_action a w (with_scan p s).
Proof.
  intros [Hb Hr] Hw H0 H5 H6 Ht. destruct (next_match_ok _ Hb) as (s & Hs). rewrite Hr, (token_followed a w t _ Hw H6 Ht) in Hs.
  destruct Hs as (E & Hb' & Hr' & _). rewrite take_app_length in E. rewrite drop_app_length in Hr'.
  exists s. split; [split; [exact Hb'|exact Hr']|]. unfold config_lex. cbn [lex_loop]. unfold bind, gets, lift, modify. rewrite E.
  by rewrite (proj2 (Z.eqb_neq a 0)), (proj2 (Z.eqb_neq a 5)).
Qed.

Lemma lex_end p : scans [] (ps_scan p) -> exists s, scans [] s /\ config_lex p = (Ret (Tok.YYEOF, None), with_scan p s).
Proof.
  intros [Hb Hr]. destruct (next_match_ok _ Hb) as (s & Hs). rewrite Hr in Hs.
  assert (token_of (yy_at_bol (ps_scan p)) [] = (0, 0%nat)) as Ht.
  { unfold token_of. destruct (verdict _ []) as [[q m]|] eqn:Hv; [apply verdict_inside in Hv; cbn in Hv; lia|done]. }
  rewrite Ht in Hs. destruct Hs as (E & Hb' & Hr' & _). exists s. split; [split; [exact Hb'|exact Hr']|].
  unfold config_lex. cbn [lex_loop]. unfold bind, gets, lift, modify. by rewrite E.
Qed.

Lemma word_action t a w p : In (t, a, w) word_table -> t <> Tok.SERVER -> lex_action a w p = (Ret (t, None), p).
Proof.
  intros Hin Ht. repeat (destruct Hin as [[= <- <- <-]|Hin]; [first [reflexivity | done]|]). by destruct Hin.
Qed.

Lemma is_word_in t : is_word t = true -> In (t, token_rule t, token_text t) word_table /\ token_alone (token_rule t) (token_text t) = true /\ 7 <= token_rule t.
Proof.
  intros H. assert (In (t, token_rule t, token_text t) word_table) as Hin.
  { unfold is_word, token_rule, token_text in *. destruct (find_word t) as [[[t' a] w]|] eqn:E; [|done].
    apply find_some in E as [Hin E%bool_decide_eq_true]. cbn in E. by subst. }
  split; [done|]. pose proof words_alone as Hw. apply andb_true_iff in Hw as [Hw _]. apply andb_true_iff in Hw as [Hw _]. rewrite forallb_forall in Hw.
  specialize (Hw _ Hin). apply andb_true_iff in Hw as [Hw Hr%Z.leb_le]. by split.
Qed.

(** The token and its value, with the state of the client and the context [x] behind it. *)
Definition reads (p : Parsing) (y : YYSTYPE) (t : Tok.yytokentype) (v : YYSTYPE) (x : Context) (r : cstring) : Prop :=
  exists s, scans r s /\ yylookahead None y p = (Ret (t, v), mkParsing (ps_client p) x s).

Lemma reads_action p y w r a t v x :
  scans (w ++ r) (ps_scan p) -> token_alone a w = true -> a <> 0 -> a <> 5 -> a <> 6 -> may_follow a r ->
  (forall s, lex_action a w (with_scan p s) = (Ret (t, v), mkParsing (ps_client p) x s)) -> reads p y t (default y v) x r.
Proof.
  intros Hs Hw H0 H5 H6 Hf Ha. destruct (lex_token p w r a Hs Hw H0 H5 H6 Hf) as (s & Hs' & E). exists s. split; [done|].
  unfold yylookahead, bind. by rewrite E, Ha.
Qed.

Lemma reads_end p y : scans [] (ps_scan p) -> reads p y Tok.YYEOF y (ps_context p) [].
Proof. intros (s & Hs & E)%lex_end. exists s. split; [done|]. unfold yylookahead, bind. by rewrite E. Qed.

Lemma reads_word p y t r : is_word t = true -> t <> Tok.SERVER -> may_follow (token_rule t) r -> scans (token_text t ++ r) (ps_scan p) ->
  reads p y t y (ps_context p) r.
Proof.
  intros (Hin & Ha & H7)%is_word_in Ht Hf Hs. refine (reads_action p y _ r _ t None _ Hs Ha _ _ _ Hf _); [lia..|].
  intros s. by rewrite (word_action _ _ _ _ Hin Ht).
Qed.

Lemma reads_server p y r : scans (token_text Tok.SERVER ++ r) (ps_scan p) ->
  reads p y Tok.SERVER y (set_is_server true (ps_context p)) r.
Proof.
  intros Hs. destruct (is_word_in Tok.SERVER eq_refl) as (_ & Ha & _).
  refine (reads_action p y _ r 7 Tok.SERVER None _ Hs Ha _ _ _ _ _); [done..| |done]. destruct r as [|c r]; [done|].
  cbn [may_follow]. change (followers 7) with all_chars. unfold all_chars. apply in_map_iff. exists (Z.to_nat (uchar c)).
  pose proof (uchar_small c). rewrite in_seq. lia.
Qed.

Lemma alone_char c : In c [SP; ","%char] -> token_alone 1 [c] = true.
Proof.
  pose proof words_alone as H. apply andb_true_iff in H as [H Hc]. apply andb_true_iff in H as [_ Hb]. intros [<-|[<-|[]]]; [exact Hb|exact Hc].
Qed.

Lemma reads_char p y c t r : In c [SP; ","%char] -> Tok.of_character c = Some t -> scans (c :: r) (ps_scan p) -> reads p y t y (ps_context p) r.
Proof.
  intros Hc Ht Hs. refine (reads_action p y [c] r 1 t None _ Hs (alone_char c Hc) _ _ _ _ _); [done..| |].
  - destruct r as [|d r]; [done|]. cbn [may_follow]. change (followers 1) with all_chars. unfold all_chars. apply in_map_iff.
    exists (Z.to_nat (uchar d)). pose proof (uchar_small d). rewrite in_seq. lia.
  - intros s. unfold lex_action. cbn. by rewrite Ht.
Qed.

Lemma atoi_digits n : 0 <= n <= 2147483647 -> atoi (to_string n) = Ret n.
Proof. intros Hn. unfold atoi. rewrite number_value by lia. cbn. by rewrite (proj2 (Z.leb_le _ _)) by lia. Qed.

Lemma reads_number p y n r : 0 <= n <= 2147483647 -> may_follow 2 r -> scans (to_string n ++ r) (ps_scan p) ->
  reads p y Tok.NUMBER (number n) (ps_context p) r.
Proof.
  intros Hn Hf Hs. refine (reads_action p y _ r 2 Tok.NUMBER (Some (number n)) _ Hs (number_token_alone n _) _ _ _ Hf _); [lia|done..|].
  intros s. unfold lex_action. cbn [Z.eqb Pos.eqb]. unfold bind, lift. by rewrite atoi_digits.
Qed.

Lemma reads_port p y n r : 0 <= n <= 99999 -> may_follow 3 r -> scans (":"%char :: to_string n ++ r) (ps_scan p) ->
  reads p y Tok.PORT (number n) (ps_context p) r.
Proof.
  intros Hn Hf Hs. refine (reads_action p y (":"%char :: to_string n) r 3 Tok.PORT (Some (number n)) _ Hs (port_alone n _) _ _ _ Hf _); [lia|done..|].
  intros s. unfold lex_action. cbn [Z.eqb Pos.eqb drop]. unfold bind, lift. rewrite drop_0. by rewrite atoi_digits by lia.
Qed.

Lemma reads_weight p y n r : 0 <= n <= 99999 -> may_follow 4 r -> scans ("/"%char :: "?"%char :: to_string n ++ r) (ps_scan p) ->
  reads p y Tok.WEIGHT_START (number n) (ps_context p) r.
Proof.
  intros Hn Hf Hs. refine (reads_action p y ("/"%char :: "?"%char :: to_string n) r 4 Tok.WEIGHT_START (Some (number n)) _ Hs (weight_alone n _) _ _ _ Hf _); [lia|done..|].
  intros s. unfold lex_action. cbn [Z.eqb Pos.eqb drop]. unfold bind, lift. rewrite drop_0. by rewrite atoi_digits by lia.
Qed.

(** A name that the scanner takes for one: no keyword, and three characters at least. *)
Definition name_ok (h : cstring) : bool := (token_alone 62 h || token_alone 63 h) && (size h <? NI_MAXHOST).

Lemma reads_host p y h r : _is_server (ps_context p) = true -> name_ok h = true -> may_follow 63 r -> scans (h ++ r) (ps_scan p) ->
  exists t, is_host t = Some tt /\ reads p y t server_value (set_hostname_buffer h (ps_context p)) r.
Proof.
  intros Hx [Hn Hsz%Z.ltb_lt]%andb_true_iff Hf Hs.
  assert (forall s, context_hostname h (with_scan p s) = (Ret server_value, mkParsing (ps_client p) (set_hostname_buffer h (ps_context p)) s)) as Hh.
  { intros s. unfold context_hostname. by rewrite (proj2 (Z.leb_gt _ _)) by done. }
  apply orb_true_iff in Hn as [Hn|Hn].
  - exists Tok.IPADDRESS. split; [done|].
    refine (reads_action p y h r 62 Tok.IPADDRESS (Some server_value) _ Hs Hn _ _ _ Hf _); [done..|].
    intros s. unfold lex_action. cbn [Z.eqb Pos.eqb]. unfold bind. by rewrite Hh.
  - exists Tok.HOSTNAME. split; [done|].
    refine (reads_action p y h r 63 Tok.HOSTNAME (Some server_value) _ Hs Hn _ _ _ Hf _); [done..|].
    intros s. unfold lex_action. cbn [Z.eqb Pos.eqb]. unfold bind, getc, gets. cbn [with_scan ps_context]. rewrite Hx. by rewrite Hh.
Qed.

(** The buffer of the context, with room for a name. *)
Record buffer_ok (s : memcached_string_st) : Prop := {
  bo_ok : mstring_ok s;
  bo_mem : is_Some (str_mem s);
  bo_size : str_size s = 2048;
}.

Lemma check_room s need k : mstring_ok s -> str_end s + need <= str_size s -> _string_check s need k = (Ret (CheckOk, s), k).
Proof.
  intros [He Hs _] Hn. unfold _string_check. rewrite ulong_small by lia. rewrite (proj2 (Z.ltb_ge _ need)) by lia. by rewrite andb_false_r.
Qed.

Lemma poke_mem s o bytes s' : str_poke s o bytes = Ret s' -> is_Some (str_mem s) -> is_Some (str_mem s').
Proof.
  unfold str_poke. intros H [m Hm]. rewrite Hm in H. destruct (_ && _); [|done]. injection H as <-. by eexists.
Qed.

Lemma string_set_room s value k : buffer_ok s -> size value < 2048 ->
  exists s' block, memcached_string_set s value k = (Ret (true, s'), k) /\ buffer_ok s' /\ str_mem s' = Some block /\ str_end s' = size value
    /\ take (List.length value) block = value /\ size value <= size block.
Proof.
  intros [Hok Hm Hz] Hv. set (s0 := memcached_string_reset s). assert (mstring_ok s0) as Hok0 by by apply mstring_ok_reset.
  pose proof (size_nonneg value) as Hv0. unfold memcached_string_set, memcached_string_append. fold s0.
  unfold bind at 1 2. rewrite (check_room s0) by (try done; cbn; lia). cbv iota.
  destruct (str_poke_ok s0 0 value Hok0 ltac:(lia) ltac:(cbn; lia)) as (s1 & E1 & Hok1 & He1 & Hz1 & Hm1).
  unfold bind at 1, lift at 1. change (str_end s0) with 0. rewrite E1. cbn [ret fst snd]. rewrite He1.
  change (str_end s0) with 0. rewrite Z.add_0_l.
  set (s2 := memcached_string_set_length s1 (size value)).
  assert (mstring_ok s2) as Hok2. { destruct Hok1 as [? ? Hmem]. split; cbn [s2 memcached_string_set_length str_end str_size str_mem]; [cbn in Hz1; lia|done|done]. }
  unfold memcached_string_append_null. unfold bind. rewrite (check_room s2 1 k Hok2) by (cbn; cbn in Hz1; lia). cbv iota.
  destruct (str_poke_ok s2 (size value) [zero] Hok2 ltac:(lia) ltac:(cbn; cbn in Hz1; unfold size in *; cbn; lia)) as (s3 & E3 & Hok3 & He3 & Hz3 & Hm3).
  change (str_end s2) with (size value). unfold lift. rewrite E3. cbn [ret snd].
  assert (is_Some (str_mem s3)) as [block Hblock].
  { eapply poke_mem; [exact E3|]. cbn [s2 memcached_string_set_length str_mem]. eapply poke_mem; [exact E1|done]. }
  exists s3, block. split; [done|]. cbn in Hz1, Hz3. split; [split; [done|by eexists|lia]|]. split; [done|]. split; [done|].
  rewrite Hblock in Hm3. cbn [default s2 memcached_string_set_length str_mem] in Hm3. rewrite Hm1 in Hm3. cbn [take app] in Hm3.
  unfold size in Hm3 |- *. rewrite Nat2Z.id in Hm3. change (take (Z.to_nat 0) _) with (@nil ascii) in Hm3. cbn [app] in Hm3.
  rewrite take_app_length in Hm3. cbn [id] in Hm3. subst block. split; [by rewrite take_app_length|rewrite length_app; lia].
Qed.

(** The value of a token that points to the buffer, while it is as the token left it. *)
Lemma reads_quoted p y name r : buffer_ok (_string_buffer (ps_context p)) -> forallb plain name = true -> size name < 2048 -> may_follow 64 r ->
  scans (quote :: name ++ quote :: r) (ps_scan p) ->
  exists buf v, reads p y Tok.QUOTED_STRING v (set_string_buffer buf (ps_context p)) r /\ buffer_ok buf
    /\ forall p', _string_buffer (ps_context p') = buf -> as_string v p' = (Ret name, p').
Proof.
  intros Hb Hp Hn Hf Hs. destruct (string_set_room _ name (allocs (ses_root (cl_session (ps_client p)))) Hb Hn) as (buf & block & E & Hbuf & Hmem & Hend & Htake & Hle).
  exists buf, (string_value 2048 (size name)). pose proof Hbuf as [_ _ Hz]. split; [|split; [done|]].
  - replace (quote :: name ++ quote :: r) with ((quote :: name ++ [quote]) ++ r) in Hs by (cbn; by rewrite <- app_assoc).
    refine (reads_action p y _ r 64 Tok.QUOTED_STRING (Some (string_value 2048 (size name))) _ Hs (quoted_alone name Hp) _ _ _ Hf _); [done..|].
    intros s. unfold lex_action. cbn [Z.eqb Pos.eqb List.length drop]. rewrite drop_0, length_app. cbn [List.length].
    replace (S (List.length name + 1) - 2)%nat with (List.length name) by lia. rewrite take_app_length.
    unfold context_string_buffer, bind, getc, gets, in_session, at_root, with_allocs. cbn [with_scan ps_client ps_context root ps_scan]. rewrite E. cbn [root].
    cbn. unfold memcached_string_size, memcached_string_length. rewrite Hz, Hend. repeat f_equal. by destruct p as [[[[] ?] ? ?] ? ?].
  - intros p' Hp'. unfold as_string, string_block, bind, getc, gets. rewrite Hp', Hmem, Hz. cbn [Z.eqb Pos.eqb fst snd ret].
    pose proof (size_nonneg name). rewrite (proj2 (Z.leb_le 0 _)), (proj2 (Z.leb_le _ (size block))) by lia. cbn [andb].
    unfold size. rewrite Nat2Z.id. by rewrite Htake.
Qed.
End Reading.

(** ** Directives *)

Inductive directive :=
  | Server (host : cstring) (port weight : option Z)
  | Number (t : Tok.yytokentype) (n : Z)
  | Flag (t : Tok.yytokentype)
  | PoolMin (n : Z)
  | PoolMax (n : Z)
  | Hash (t : Tok.yytokentype)
  | Spread (t : Tok.yytokentype) (h : option Tok.yytokentype)
  | Namespace (name : cstring)
  | FetchVersion.

Definition print_directive (d : directive) : cstring :=
  match d with
  | Server h p w =>
    token_text Tok.SERVER ++ h
    ++ match p with Some n => ":"%char :: to_string n | None => [] end
    ++ match w with Some n => "/"%char :: "?"%char :: to_string n | None => [] end
  | Number t n => token_text t ++ to_string n
  | Flag t => token_text t
  | PoolMin n => token_text Tok.POOL_MIN ++ to_string n
  | PoolMax n => token_text Tok.POOL_MAX ++ to_string n
  | Hash t => token_text Tok.HASH ++ token_text t
  | Spread t h => token_text Tok.DISTRIBUTION ++ token_text t ++ match h with Some u => ","%char :: token_text u | None => [] end
  | Namespace name => token_text Tok.NAMESPACE ++ quote :: name ++ [quote]
  | FetchVersion => token_text Tok.FETCH_VERSION
  end.

Fixpoint print_directives (ds : list directive) : cstring :=
  match ds with
  | [] => []
  | [d] => print_directive d
  | d :: ds => print_directive d ++ SP :: print_directives ds
  end.

(** What can be printed: numbers fit an [int], ports and weights have five digits at most. *)
Definition small_number (limit n : Z) : bool := (0 <=? n) && (n <=? limit).
Definition well_formed (d : directive) : bool :=
  match d with
  | Server h p w => name_ok h && from_option (small_number 99999) true p && from_option (small_number 99999) true w
  | Number t n => bool_decide (is_Some (number_behavior t)) && small_number 2147483647 n
  | Flag t => bool_decide (is_Some (boolean_behavior t))
  | PoolMin n | PoolMax n => small_number 2147483647 n
  | Hash t => bool_decide (is_Some (hash_of t))
  | Spread t h => bool_decide (is_Some (distribution_of t)) && from_option (fun u => bool_decide (is_Some (hash_of u))) true h
  | Namespace name => forallb plain name && (size name <? 2048)
  | FetchVersion => true
  end.

Lemma print_length ds : ds <> [] -> (List.length ds <= S (List.length (print_directives ds)))%nat.
Proof.
  induction ds as [|d [|d' ds] IH]; [done|cbn; lia|]. intros _. specialize (IH ltac:(done)).
  change (print_directives (d :: d' :: ds)) with (print_directive d ++ SP :: print_directives (d' :: ds)).
  rewrite length_app. cbn [List.length] in *. lia.
Qed.

Section Enact.
Context `{DM : DataModel} `{HC : HashConfig} `{AL : Allocator} `{CF : ClientConfig} `{CK : Clock} `{CC : CipherConfig}.
Context `{BR : BinaryReader} `{TR : Transport} `{SS : SessionSort} `{RB : Rebuilding} `{CS : ClientSizes} `{FS : Files}.
Context (b : Birth).

Definition abandon : ST Client memcached_return_t := client_session (refuse MEMCACHED_PARSE_ERROR) ;;; ret MEMCACHED_PARSE_ERROR.

(** A call that has to succeed. *)
Definition call (m : SIO memcached_return_t) (next : memcached_return_t -> ST Client memcached_return_t) : ST Client memcached_return_t :=
  let* rc := client_session m in if rc_eqb rc MEMCACHED_SUCCESS then next rc else abandon.

(** The calls on the client that a directive stands for; [hashed] is whether a hash was set
    before, [rc] the result so far. *)
Definition enact_one (d : directive) (hashed : bool) (rc : memcached_return_t)
    (next : bool -> memcached_return_t -> ST Client memcached_return_t) : ST Client memcached_return_t :=
  match d with
  | Server h p w =>
    let* rc := client_session (memcached_server_add_with_weight b (Some h) (default MEMCACHED_DEFAULT_PORT p mod 65536) (default 1 w)) in
    if memcached_failed rc then abandon else next hashed rc
  | Number t n => match number_behavior t with Some x => call (memcached_behavior_set x n) (next hashed) | None => abandon end
  | Flag t => match boolean_behavior t with Some x => call (memcached_behavior_set x 1) (next hashed) | None => abandon end
  | PoolMin n => modify (fun c => mkClient (cl_session c) n (max_pool_size c)) ;;; next hashed rc
  | PoolMax n => modify (fun c => mkClient (cl_session c) (initial_pool_size c) n) ;;; next hashed rc
  | Hash t =>
    match hash_of t with
    | Some h => if hashed then abandon else call (memcached_behavior_set MEMCACHED_BEHAVIOR_HASH (algorithm_number h)) (fun _ => next true rc)
    | None => abandon
    end
  | Spread t None =>
    match distribution_of t with
    | Some x => call (set_distribution x) (fun _ => call (set_distribution x) (next hashed))
    | None => abandon
    end
  | Spread t (Some u) =>
    match distribution_of t, hash_of u with
    | Some x, Some h => call (set_distribution x) (fun _ => call (memcached_behavior_set_distribution_hash h) (next hashed))
    | _, _ => abandon
    end
  | Namespace name =>
    let* old := client_session memcached_get_namespace in
    if bool_decide (is_Some old) then abandon else call (memcached_set_namespace (Some name)) (next hashed)
  | FetchVersion => client_session (on_flags (put_is_fetching_version true)) ;;; next hashed rc
  end.

Fixpoint enact (ds : list directive) (hashed : bool) (rc : memcached_return_t) : ST Client memcached_return_t :=
  match ds with [] => ret rc | d :: ds => enact_one d hashed rc (enact ds) end.
End Enact.

(** ** Parsing what was printed *)

Section Printed.
Context `{DM : DataModel} `{HC : HashConfig} `{AL : Allocator} `{CF : ClientConfig} `{CK : Clock} `{CC : CipherConfig}.
Context `{BR : BinaryReader} `{TR : Transport} `{SS : SessionSort} `{RB : Rebuilding} `{CS : ClientSizes} `{FS : Files}.
Context (b : Birth) (include : cstring -> ST Client memcached_return_t).

(** What is kept of a parse: the code of the context and the client. *)
Definition seen (r : outcome Z * Parsing) : outcome memcached_return_t * Client :=
  let '(o, p) := r in
  (match o with Ret _ => Ret (ctx_rc (ps_context p)) | Throw e => Throw e | Stuck f => Stuck f end, ps_client p).

Record good (hashed : bool) (rc : memcached_return_t) (c : Client) (p : Parsing) : Prop := {
  g_client : ps_client p = c;
  g_rc : ctx_rc (ps_context p) = rc;
  g_server : _is_server (ps_context p) = false;
  g_hashed : _has_hash (ps_context p) = hashed;
  g_buffer : buffer_ok (_string_buffer (ps_context p));
}.

(** What follows a directive: nothing, or a blank. *)
Definition tail_ok (tail : cstring) : Prop := match tail with [] => True | c :: _ => c = SP end.

(** The place behind a directive, with the next token read or not. *)
Definition behind (tail : cstring) (ch : option Tok.yytokentype) (p : Parsing) : Prop :=
  match ch, tail with
  | None, _ => scans tail (ps_scan p)
  | Some Tok.YYEOF, [] => True
  | Some Tok.SPACE, _ :: t => scans t (ps_scan p)
  | _, _ => False
  end.

Lemma tail_follows a tail : tail_ok tail -> In (uchar SP) (followers a) -> may_follow a tail.
Proof. destruct tail as [|c tail]; [done|]. by intros ->. Qed.

(** The token behind a directive. *)
Lemma reads_tail p y tail : tail_ok tail -> scans tail (ps_scan p) ->
  exists t r, reads p y t y (ps_context p) r /\ (t = Tok.YYEOF /\ tail = [] \/ t = Tok.SPACE /\ tail = SP :: r).
Proof.
  intros Ht Hs. destruct tail as [|c tail].
  - exists Tok.YYEOF, []. split; [by apply reads_end|by left].
  - cbn in Ht. subst c. exists Tok.SPACE, tail. split; [by eapply (reads_char p y SP); [left| |]|by right].
Qed.

Lemma in_session_client {A} (m : SIO A) p :
  in_session m p = let '(o, c) := client_session m (ps_client p) in (o, mkParsing c (ps_context p) (ps_scan p)).
Proof. unfold in_session, client_session. by destruct (m _). Qed.

Lemma abort_seen p k : seen (perform parser_abort k p) = abandon (ps_client p).
Proof.
  unfold perform, parser_abort, context_abort, abandon, bind. cbn [on_context modify]. rewrite in_session_client.
  cbn [ps_client on_context modify]. by destruct (client_session _ (ps_client p)) as [[]].
Qed.

(** An action that is one call. *)
Lemma must_seen hashed rc c p m k1 k2 next : good hashed rc c p ->
  (forall rc' c' p', good hashed rc' c' p' -> ps_scan p' = ps_scan p -> seen (perform k1 k2 p') = next rc' c') ->
  seen (perform (must m k1) k2 p) = call m next c.
Proof.
  intros [Hc Hr Hv Hh Hb] Hk. unfold perform, must, set_rc_of, call, bind. rewrite in_session_client, Hc.
  destruct (client_session m c) as [[rc'|e|f] c']; [|done..]. pose (p' := mkParsing c' (set_ctx_rc rc' (ps_context p)) (ps_scan p)).
  assert (good hashed rc' c' p') as Hg by (split; [reflexivity|reflexivity|exact Hv|exact Hh|exact Hb]).
  cbn [on_context modify ret]. destruct (rc_eqb rc' MEMCACHED_SUCCESS); [exact (Hk rc' c' p' Hg eq_refl)|exact (abort_seen p' k2)].
Qed.

Lemma skip_seen p k : perform skip k p = k p.
Proof. done. Qed.

(** An action that is a change of the client only. *)
Lemma client_seen {A} (m : SIO A) hashed rc c p k1 k2 next : good hashed rc c p ->
  (forall a c' p', good hashed rc c' p' -> ps_scan p' = ps_scan p -> ps_context p' = ps_context p -> seen (perform (k1 a) k2 p') = next a c') ->
  seen (perform (bind (in_session m) k1) k2 p) = bind (client_session m) next c.
Proof.
  intros [Hc Hr Hv Hh Hb] Hk. unfold perform, bind. rewrite in_session_client, Hc.
  destruct (client_session m c) as [[a|e|f] c']; [|done..].
  assert (good hashed rc c' (mkParsing c' (ps_context p) (ps_scan p))) as Hg by by split.
  exact (Hk a c' _ Hg eq_refl eq_refl).
Qed.

(** Going through a token that the text begins with. *)
Lemma expect_reads {A} (kind : Tok.yytokentype -> option A) y (k : A -> YYSTYPE -> PIO Z) p t v x r a :
  reads p y t v x r -> kind t = Some a -> exists s, scans r s /\ expect kind y k p = k a v (mkParsing (ps_client p) x s).
Proof. intros (s & Hs & E) Ha. exists s. split; [done|]. unfold expect, bind. rewrite E. cbn [fst snd]. by rewrite Ha. Qed.

Lemma optional_reads u d y k p t v x r : reads p y t v x r ->
  exists s, scans r s /\ optional u d None y k p
    = (if bool_decide (t = u) then k v None v else k (number d) (Some t) v) (mkParsing (ps_client p) x s).
Proof. intros (s & Hs & E). exists s. split; [done|]. unfold optional, bind. by rewrite E. Qed.

(** Of the texts of tokens: what may follow them. *)
Definition word_check (t : Tok.yytokentype) : bool :=
  is_word t && negb (bool_decide (t = Tok.SERVER)) && existsb (Z.eqb (uchar SP)) (followers (token_rule t)).
Definition option_check (t : Tok.yytokentype) : bool := word_check t && existsb (Z.eqb (token_rule t)) option_rules.

Lemma words_checked t :
  (is_Some (number_behavior t) \/ In t [Tok.POOL_MIN; Tok.POOL_MAX; Tok.HASH; Tok.DISTRIBUTION; Tok.NAMESPACE] -> option_check t = true)
  /\ (is_Some (boolean_behavior t) \/ is_Some (hash_of t) \/ is_Some (distribution_of t) \/ t = Tok.FETCH_VERSION -> word_check t = true)
  /\ (is_Some (distribution_of t) -> In (uchar ","%char) (followers (token_rule t))).
Proof.
  split; [|split].
  - intros [[x Hx]|Hin]; [destruct t; try discriminate Hx; vm_compute; reflexivity|].
    repeat (destruct Hin as [<-|Hin]; [vm_compute; reflexivity|]). by destruct Hin.
  - intros [[x Hx]|[[x Hx]|[[x Hx]| ->]]]; [destruct t; try discriminate Hx; vm_compute; reflexivity..|vm_compute; reflexivity].
  - intros [x Hx]; destruct t; try discriminate Hx; vm_compute; auto.
Qed.

Lemma reads_checked p y t r : word_check t = true -> tail_ok r -> scans (token_text t ++ r) (ps_scan p) -> reads p y t y (ps_context p) r.
Proof.
  intros H Hr Hs. apply andb_true_iff in H as [H Hf]. apply andb_true_iff in H as [Hw Ht]. apply negb_true_iff, bool_decide_eq_false in Ht.
  apply reads_word; [done|done| |done]. apply tail_follows; [done|]. apply existsb_exists in Hf as (x & Hx & ->%Z.eqb_eq). done.
Qed.

Lemma reads_option p y t r : option_check t = true -> scans (token_text t ++ r) (ps_scan p) -> reads p y t y (ps_context p) r.
Proof.
  intros H Hs. apply andb_true_iff in H as [H Ho]. apply andb_true_iff in H as [H Hf]. apply andb_true_iff in H as [Hw Ht].
  apply negb_true_iff, bool_decide_eq_false in Ht. apply reads_word; [done|done| |done].
  destruct r as [|c r]; [done|]. cbn [may_follow]. unfold followers. cbn [existsb]. rewrite Ho, orb_true_r. unfold all_chars. apply in_map_iff.
  exists (Z.to_nat (uchar c)). pose proof (uchar_small c). rewrite in_seq. lia.
Qed.

Lemma good_scan hashed rc c p s : good hashed rc c p -> good hashed rc c (mkParsing (ps_client p) (ps_context p) s).
Proof. by intros []. Qed.

Section Directive.
Context (tail : cstring) (k : option Tok.yytokentype -> YYSTYPE -> PIO Z) (next : bool -> memcached_return_t -> ST Client memcached_return_t).
Hypothesis Htail : tail_ok tail.
Hypothesis Hk : forall hashed rc c ch y p, good hashed rc c p -> behind tail ch p -> seen (k ch y p) = next hashed rc c.

Definition enacted (d : directive) : Prop := forall hashed rc c y p, good hashed rc c p -> scans (print_directive d ++ tail) (ps_scan p) ->
  seen (bind (yylookahead None y) (fun x => statement b include (fst x) (snd x) k) p) = enact_one b d hashed rc next c.

Lemma begin_reads p y t v x r : reads p y t v x r ->
  exists s, scans r s /\ bind (yylookahead None y) (fun x => statement b include (fst x) (snd x) k) p = statement b include t v k (mkParsing (ps_client p) x s).
Proof. intros (s & Hs & E). exists s. split; [done|]. unfold bind. by rewrite E. Qed.

(** A call at the end of a directive. *)
Lemma call_seen hashed rc c p m y : good hashed rc c p -> scans tail (ps_scan p) ->
  seen (perform (must m skip) (k None y) p) = call m (next hashed) c.
Proof.
  intros Hg Hs. eapply must_seen; [done|]. intros rc' c' p' Hg' Hs'. rewrite skip_seen. apply Hk; [done|]. cbn. by rewrite Hs'.
Qed.

Lemma enacted_flag t : well_formed (Flag t) = true -> enacted (Flag t).
Proof.
  cbn [well_formed]. intros Hw%bool_decide_eq_true hashed rc c y p Hg Hs. cbn [print_directive] in Hs.
  destruct (words_checked t) as (_ & Hc & _). specialize (Hc (or_introl Hw)).
  destruct (begin_reads _ _ _ _ _ _ (reads_checked p y t tail Hc Htail Hs)) as (s & Hs' & ->). destruct Hw as [x Hx]. cbn [enact_one]. rewrite Hx.
  replace (statement b include t y k) with (perform (boolean_action (behavior_value x)) (k None y)) by (by destruct t; try discriminate Hx; injection Hx as <-).
  eapply call_seen; [by apply good_scan|done].
Qed.

Lemma enacted_fetch_version : enacted FetchVersion.
Proof.
  intros hashed rc c y p Hg Hs. cbn [print_directive] in Hs. destruct (words_checked Tok.FETCH_VERSION) as (_ & Hc & _).
  destruct (begin_reads _ _ _ _ _ _ (reads_checked p y _ tail (Hc ltac:(auto)) Htail Hs)) as (s & Hs' & ->).
  cbn [statement enact_one]. eapply client_seen; [by apply good_scan|]. intros [] c' p' Hg' E _. rewrite skip_seen. apply Hk; [done|]. cbn. by rewrite E.
Qed.

(** A directive with a number. *)
Lemma number_reads p y t n (K : unit -> YYSTYPE -> PIO Z) : option_check t = true -> small_number 2147483647 n = true ->
  scans (token_text t ++ to_string n ++ tail) (ps_scan p) ->
  exists s s', scans tail s' /\ reads p y t y (ps_context p) (to_string n ++ tail)
    /\ bind (yylookahead None y) (fun x => statement b include (fst x) (snd x) k) p = statement b include t y k (mkParsing (ps_client p) (ps_context p) s)
    /\ expect (is_token Tok.NUMBER) y K (mkParsing (ps_client p) (ps_context p) s) = K tt (number n) (mkParsing (ps_client p) (ps_context p) s').
Proof.
  intros Hc [Hlo%Z.leb_le Hhi%Z.leb_le]%andb_true_iff Hs. pose proof (reads_option p y t _ Hc Hs) as Hr.
  destruct (begin_reads _ _ _ _ _ _ Hr) as (s & Hs1 & E1).
  assert (reads (mkParsing (ps_client p) (ps_context p) s) y Tok.NUMBER (number n) (ps_context p) tail) as Hn.
  { apply (reads_number (mkParsing _ _ s)); [lia| |done]. apply tail_follows; [done|]. by left. }
  destruct (expect_reads (is_token Tok.NUMBER) y K _ _ _ _ _ tt Hn eq_refl) as (s' & Hs2 & E2). by exists s, s'.
Qed.

Lemma u64_number n : small_number 2147483647 n = true -> u64 n = n /\ u32 n = n.
Proof.
  intros [Hlo%Z.leb_le Hhi%Z.leb_le]%andb_true_iff. unfold u64, u32, UINT_MOD. split; apply Z.mod_small; [|lia].
  split; [done|]. change (2 ^ 64) with 18446744073709551616. lia.
Qed.

Lemma enacted_number t n : well_formed (Number t n) = true -> enacted (Number t n).
Proof.
  cbn [well_formed]. intros [Hw%bool_decide_eq_true Hn]%andb_true_iff hashed rc c y p Hg Hs. cbn [print_directive] in Hs. rewrite <- app_assoc in Hs.
  destruct (words_checked t) as (Hc & _ & _). specialize (Hc (or_introl Hw)). destruct Hw as [x Hx].
  destruct (number_reads p y t n (fun _ y => perform (number_action (behavior_value x) y) (k None y)) Hc Hn Hs) as (s & s' & Hs' & _ & -> & E2).
  cbn [enact_one]. rewrite Hx.
  replace (statement b include t y k) with (expect (is_token Tok.NUMBER) y (fun _ y => perform (number_action (behavior_value x) y) (k None y)))
    by (by destruct t; try discriminate Hx; injection Hx as <-).
  rewrite E2. unfold number_action. cbn [as_behavior as_number].
  change (seen (perform (must (memcached_behavior_set x (u64 n)) skip) (k None (number n)) (mkParsing (ps_client p) (ps_context p) s')) = call (memcached_behavior_set x n) (next hashed) c).
  rewrite (proj1 (u64_number n Hn)). eapply call_seen; [by apply good_scan|done].
Qed.

Lemma enacted_pool_min n : well_formed (PoolMin n) = true -> enacted (PoolMin n).
Proof.
  cbn [well_formed]. intros Hn hashed rc c y p Hg Hs. cbn [print_directive] in Hs. rewrite <- app_assoc in Hs.
  destruct (words_checked Tok.POOL_MIN) as (Hc & _ & _). specialize (Hc ltac:(cbn; auto)).
  destruct (number_reads p y _ n (fun _ y => perform (pool_min_action y) (k None y)) Hc Hn Hs) as (s & s' & Hs' & _ & -> & E2).
  cbn [statement]. rewrite E2. change (seen (k None (number n) (mkParsing (mkClient (cl_session (ps_client p)) (u32 n) (max_pool_size (ps_client p))) (ps_context p) s')) =
    next hashed rc (mkClient (cl_session c) n (max_pool_size c))).
  rewrite (proj2 (u64_number n Hn)). destruct Hg as [<- ? ? ? ?]. apply Hk; [by split|exact Hs'].
Qed.

Lemma enacted_pool_max n : well_formed (PoolMax n) = true -> enacted (PoolMax n).
Proof.
  cbn [well_formed]. intros Hn hashed rc c y p Hg Hs. cbn [print_directive] in Hs. rewrite <- app_assoc in Hs.
  destruct (words_checked Tok.POOL_MAX) as (Hc & _ & _). specialize (Hc ltac:(cbn; auto)).
  destruct (number_reads p y _ n (fun _ y => perform (pool_max_action y) (k None y)) Hc Hn Hs) as (s & s' & Hs' & _ & -> & E2).
  cbn [statement]. rewrite E2. change (seen (k None (number n) (mkParsing (mkClient (cl_session (ps_client p)) (initial_pool_size (ps_client p)) (u32 n)) (ps_context p) s')) =
    next hashed rc (mkClient (cl_session c) (initial_pool_size c) n)).
  rewrite (proj2 (u64_number n Hn)). destruct Hg as [<- ? ? ? ?]. apply Hk; [by split|exact Hs'].
Qed.

Lemma enacted_hash t : well_formed (Hash t) = true -> enacted (Hash t).
Proof.
  cbn [well_formed]. intros Hw%bool_decide_eq_true hashed rc c y p Hg Hs. cbn [print_directive] in Hs. rewrite <- app_assoc in Hs.
  destruct (words_checked Tok.HASH) as (Hc & _ & _). specialize (Hc ltac:(cbn; auto)).
  destruct (begin_reads _ _ _ _ _ _ (reads_option p y _ _ Hc Hs)) as (s & Hs' & ->).
  destruct (words_checked t) as (_ & Ht & _). specialize (Ht ltac:(auto)). destruct Hw as [h Hh]. cbn [enact_one statement]. rewrite Hh.
  destruct (expect_reads hash_of y (fun h y => perform (hash_action (hash_value h)) (k None y)) _ _ _ _ _ h (reads_checked (mkParsing (ps_client p) (ps_context p) s) y t tail Ht Htail Hs') Hh) as (s2 & Hs2 & ->).
  cbn [ps_client ps_context]. pose proof (good_scan _ _ _ _ s2 Hg) as [Hc2 Hr2 Hv2 Hh2 Hb2]. cbn [ps_client ps_context] in *.
  unfold hash_action, context_set_hash, perform, bind, getc, gets. cbn [as_hash ret ps_context]. rewrite Hh2.
  destruct hashed; [cbn [ret]; rewrite <- Hc2; exact (abort_seen (mkParsing _ _ s2) (k None y))|].
  unfold call, bind. rewrite in_session_client. cbn [ps_client]. rewrite Hc2. destruct (client_session _ c) as [[rc'|e|f] c']; [|done..].
  destruct (rc_eqb rc' MEMCACHED_SUCCESS); [|exact (abort_seen (mkParsing c' _ s2) (k None y))].
  apply (Hk true rc c' None y (mkParsing c' (set_has_hash true (ps_context p)) s2)); [by split|done].
Qed.

(** The same call twice, and two calls. *)
Lemma calls_seen hashed rc c p m1 m2 ch y : good hashed rc c p -> behind tail ch p ->
  seen (perform (must m1 (must m2 skip)) (k ch y) p) = call m1 (fun _ => call m2 (next hashed)) c.
Proof.
  intros Hg Hb. eapply must_seen; [done|]. intros rc1 c1 p1 Hg1 Hs1. eapply must_seen; [done|]. intros rc2 c2 p2 Hg2 Hs2.
  rewrite skip_seen. apply Hk; [done|]. unfold behind in *. by rewrite Hs2, Hs1.
Qed.

Lemma enacted_spread t : well_formed (Spread t None) = true -> enacted (Spread t None).
Proof.
  cbn [well_formed from_option]. intros [Hw%bool_decide_eq_true _]%andb_true_iff hashed rc c y p Hg Hs.
  cbn [print_directive] in Hs. rewrite app_nil_r, <- app_assoc in Hs.
  destruct (words_checked Tok.DISTRIBUTION) as (Hc & _ & _). specialize (Hc ltac:(cbn; auto 9)).
  destruct (begin_reads _ _ _ _ _ _ (reads_option p y _ _ Hc Hs)) as (s & Hs1 & ->).
  destruct (words_checked t) as (_ & Ht & _). specialize (Ht ltac:(auto)). destruct Hw as [d Hd]. cbn [enact_one statement]. rewrite Hd.
  set (K := fun (d : memcached_server_distribution_t) (y : YYSTYPE) => _).
  destruct (expect_reads distribution_of y K _ _ _ _ _ d (reads_checked (mkParsing (ps_client p) (ps_context p) s) y t tail Ht Htail Hs1) Hd) as (s2 & Hs2 & ->).
  destruct (reads_tail (mkParsing (ps_client p) (ps_context p) s2) y tail Htail Hs2) as (u & r & (s3 & Hs3 & E) & Hu).
  unfold K, bind. cbn [ps_client ps_context]. rewrite E. rewrite bool_decide_eq_false_2 by (destruct Hu as [[-> _]|[-> _]]; discriminate).
  change (seen (perform (must (set_distribution d) (must (set_distribution d) skip)) (k (Some u) y) (mkParsing (ps_client p) (ps_context p) s3))
    = call (set_distribution d) (fun _ => call (set_distribution d) (next hashed)) c).
  eapply calls_seen; [exact (good_scan _ _ _ _ s3 Hg)|]. destruct Hu as [[-> ->]|[-> ->]]; [done|exact Hs3].
Qed.

Lemma enacted_spread_hash t u : well_formed (Spread t (Some u)) = true -> enacted (Spread t (Some u)).
Proof.
  cbn [well_formed from_option]. intros [Hw%bool_decide_eq_true Hu%bool_decide_eq_true]%andb_true_iff hashed rc c y p Hg Hs.
  cbn [print_directive] in Hs. rewrite <- !app_assoc in Hs. cbn [app] in Hs.
  destruct (words_checked Tok.DISTRIBUTION) as (Hc & _ & _). specialize (Hc ltac:(cbn; auto 9)).
  destruct (begin_reads _ _ _ _ _ _ (reads_option p y _ _ Hc Hs)) as (s & Hs1 & ->).
  destruct (words_checked t) as (_ & Ht & Hcomma). specialize (Ht ltac:(auto)). specialize (Hcomma Hw).
  destruct (words_checked u) as (_ & Hcu & _). specialize (Hcu ltac:(auto)).
  destruct Hw as [d Hd], Hu as [h Hh]. cbn [enact_one statement]. rewrite Hd, Hh.
  apply andb_true_iff in Ht as [Ht _]. apply andb_true_iff in Ht as [Ht Hns]. apply negb_true_iff, bool_decide_eq_false in Hns.
  set (K := fun (d : memcached_server_distribution_t) (y : YYSTYPE) => _).
  destruct (expect_reads distribution_of y K _ _ _ _ _ d (reads_word (mkParsing (ps_client p) (ps_context p) s) y t (","%char :: token_text u ++ tail) Ht Hns Hcomma Hs1) Hd) as (s2 & Hs2 & ->).
  destruct (reads_char (mkParsing (ps_client p) (ps_context p) s2) y ","%char Tok.COMMA _ ltac:(cbn; auto) eq_refl Hs2) as (s3 & Hs3 & E).
  unfold K. unfold bind at 1. cbn [ps_client ps_context]. rewrite E. cbv iota beta. rewrite bool_decide_eq_true_2 by done.
  set (K2 := fun (h : memcached_hash_t) (y : YYSTYPE) => _).
  destruct (expect_reads hash_of y K2 _ _ _ _ _ h (reads_checked (mkParsing (ps_client p) (ps_context p) s3) y u tail Hcu Htail Hs3) Hh) as (s4 & Hs4 & E4).
  cbn [ps_client ps_context] in E4 |- *. rewrite E4.
  change (seen (perform (must (set_distribution d) (must (memcached_behavior_set_distribution_hash h) skip)) (k None y) (mkParsing (ps_client p) (ps_context p) s4))
    = call (set_distribution d) (fun _ => call (memcached_behavior_set_distribution_hash h) (next hashed)) c).
  eapply calls_seen; [exact (good_scan _ _ _ _ s4 Hg)|exact Hs4].
Qed.

Lemma enacted_namespace name : well_formed (Namespace name) = true -> enacted (Namespace name).
Proof.
  cbn [well_formed]. intros [Hp Hn%Z.ltb_lt]%andb_true_iff hashed rc c y p Hg Hs.
  cbn [print_directive] in Hs. rewrite <- app_assoc in Hs. cbn [app] in Hs. rewrite <- app_assoc in Hs. cbn [app] in Hs.
  destruct (words_checked Tok.NAMESPACE) as (Hc & _ & _). specialize (Hc ltac:(cbn; auto 9)).
  destruct (begin_reads _ _ _ _ _ _ (reads_option p y _ _ Hc Hs)) as (s & Hs1 & ->). cbn [statement].
  assert (may_follow 64 tail) as Hf by (apply tail_follows; [done|by left]).
  destruct (reads_quoted (mkParsing (ps_client p) (ps_context p) s) y name tail (g_buffer _ _ _ _ Hg) Hp Hn Hf Hs1) as (buf & v & Hr & Hbuf & Hv).
  set (K := fun (_ : unit) (y : YYSTYPE) => _). destruct (expect_reads is_string y K _ _ _ _ _ tt Hr eq_refl) as (s2 & Hs2 & ->). unfold K.
  destruct Hg as [Hc2 Hr2 Hv2 Hh2 _]. set (p2 := mkParsing _ _ s2).
  assert (good hashed rc c p2) as Hg2 by by split. cbn [enact_one]. unfold namespace_action.
  eapply client_seen; [exact Hg2|]. intros old c' p' Hg' E Ex.
  case_bool_decide; [rewrite <- (g_client _ _ _ _ Hg'); apply abort_seen|].
  assert (_string_buffer (ps_context p') = buf) as Hbuf' by by rewrite Ex. specialize (Hv p' Hbuf').
  replace (seen _) with (seen (perform (must (memcached_set_namespace (Some name)) skip) (k None v) p')).
  - eapply call_seen; [done|]. by rewrite E.
  - unfold perform, bind. by rewrite Hv.
Qed.

(** Behind the port: the weight, or what follows the directive. *)
Lemma reads_weight_or_tail p y w : from_option (small_number 99999) true w = true ->
  scans (match w with Some n => "/"%char :: "?"%char :: to_string n | None => [] end ++ tail) (ps_scan p) ->
  exists t v r, reads p y t v (ps_context p) r /\ t <> Tok.PORT
    /\ ((exists n, w = Some n /\ t = Tok.WEIGHT_START /\ v = number n /\ r = tail)
        \/ (w = None /\ (t = Tok.YYEOF /\ tail = [] \/ t = Tok.SPACE /\ tail = SP :: r))).
Proof.
  intros Hw Hs. destruct w as [n|].
  - cbn [from_option] in Hw. apply andb_true_iff in Hw as [Hlo%Z.leb_le Hhi%Z.leb_le]. exists Tok.WEIGHT_START, (number n), tail.
    split; [apply reads_weight; [lia|apply tail_follows; [done|by left]|exact Hs]|]. split; [done|]. left. by exists n.
  - destruct (reads_tail p y tail Htail Hs) as (t & r & Hr & Ht). exists t, y, r. split; [done|].
    split; [destruct Ht as [[-> _]|[-> _]]; discriminate|by right].
Qed.

Lemma optional_look u d y K p t v x r : reads p y t v x r ->
  exists s, scans r s /\ optional u d None y K p = optional u d (Some t) v K (mkParsing (ps_client p) x s).
Proof. intros (s & Hs & E). exists s. split; [done|]. unfold optional, bind at 1. by rewrite E. Qed.

(** The action, with the name still in the array. *)
Definition naming (h : cstring) (hashed : bool) (rc : memcached_return_t) (c : Client) (p : Parsing) : Prop :=
  _hostname_buffer (ps_context p) = h /\ good hashed rc c (mkParsing (ps_client p) (set_is_server false (ps_context p)) (ps_scan p)).

Lemma add_server_seen h P W hashed rc c p ch y : naming h hashed rc c p -> behind tail ch p ->
  seen (perform (add_server_action b server_value (number P) (number W)) (k ch y) p)
  = bind (client_session (memcached_server_add_with_weight b (Some h) (P mod 65536) (u32 W)))
      (fun rc => if memcached_failed rc then abandon else next hashed rc) c.
Proof.
  intros [Hh [Hc Hr Hv Hhash Hb]] Hbe. cbn [ps_client ps_context] in *. unfold perform, add_server_action, set_rc_of, bind, getc, gets.
  cbn [as_server as_number ret]. unfold getc, gets. rewrite Hh, in_session_client. cbn [ps_client]. rewrite Hc.
  destruct (client_session _ c) as [[rc'|e|f] c']; [|done..]. cbn [on_context modify ret ps_client ps_context ps_scan].
  destruct (memcached_failed rc').
  - exact (abort_seen (mkParsing c' (set_ctx_rc rc' (ps_context p)) (ps_scan p)) (k ch y)).
  - pose (p' := mkParsing c' (set_is_server false (set_ctx_rc rc' (ps_context p))) (ps_scan p)).
    assert (good hashed rc' c' p') as Hg by by split. exact (Hk hashed rc' c' ch y p' Hg Hbe).
Qed.

Lemma weight_seen h P w hashed rc c p t v r :
  naming h hashed rc c p -> from_option (small_number 99999) true w = true -> scans r (ps_scan p) ->
  ((exists n, w = Some n /\ t = Tok.WEIGHT_START /\ v = number n /\ r = tail)
    \/ (w = None /\ (t = Tok.YYEOF /\ tail = [] \/ t = Tok.SPACE /\ tail = SP :: r))) ->
  seen (optional Tok.WEIGHT_START 1 (Some t) v (fun weight ch y => perform (add_server_action b server_value (number P) weight) (k ch y)) p)
  = bind (client_session (memcached_server_add_with_weight b (Some h) (P mod 65536) (default 1 w)))
      (fun rc => if memcached_failed rc then abandon else next hashed rc) c.
Proof.
  intros Hn Hw Hs Ht. change (optional Tok.WEIGHT_START 1 (Some t) v ?K p) with
    ((if bool_decide (t = Tok.WEIGHT_START) then K v None v else K (number 1) (Some t) v) p).
  destruct Ht as [(n & -> & -> & -> & ->)|[-> Ht]].
  - rewrite bool_decide_eq_true_2 by done. cbn [from_option] in Hw. apply andb_true_iff in Hw as [Hlo%Z.leb_le Hhi%Z.leb_le].
    rewrite (add_server_seen h P n hashed rc c p None (number n) Hn Hs). cbn [default]. by rewrite u32_small by (unfold UINT_MOD; lia).
  - rewrite bool_decide_eq_false_2 by (destruct Ht as [[-> _]|[-> _]]; discriminate). cbn [default].
    apply (add_server_seen h P 1 hashed rc c p (Some t) v Hn). destruct Ht as [[-> ->]|[-> ->]]; [done|exact Hs].
Qed.

Lemma enacted_server h p w : well_formed (Server h p w) = true -> enacted (Server h p w).
Proof.
  cbn [well_formed]. intros [[Hh Hp]%andb_true_iff Hw]%andb_true_iff hashed rc c y q Hg Hs.
  cbn [print_directive] in Hs. rewrite <- !app_assoc in Hs.
  destruct (begin_reads _ _ _ _ _ _ (reads_server q y _ Hs)) as (s & Hs1 & ->). cbn [statement enact_one].
  set (q1 := mkParsing _ _ s). set (wt := match w with Some n => _ | None => _ end) in *.
  set (K := fun (_ : unit) (host : YYSTYPE) => _).
  assert (may_follow 63 (match p with Some n => ":"%char :: to_string n | None => [] end ++ wt ++ tail)) as Hf.
  { destruct p; [cbn; auto|]. subst wt. destruct w; [cbn; auto|]. apply tail_follows; [done|by left]. }
  destruct (reads_host q1 y h _ eq_refl Hh Hf Hs1) as (t & Ht & Hr).
  destruct (expect_reads is_host y K _ _ _ _ _ tt Hr Ht) as (s2 & Hs2 & ->). unfold K. cbn [q1 ps_client ps_context].
  set (x := set_hostname_buffer h _). set (q2 := mkParsing _ x s2).
  assert (forall s, naming h hashed rc c (mkParsing (ps_client q) x s)) as Hn by (intros s'; split; [done|]; by destruct Hg).
  destruct p as [n|].
  - cbn [from_option] in Hp. apply andb_true_iff in Hp as [Hlo%Z.leb_le Hhi%Z.leb_le].
    assert (may_follow 3 (wt ++ tail)) as Hf3 by (subst wt; destruct w; [cbn; auto|apply tail_follows; [done|by left]]).
    destruct (reads_port q2 server_value n _ ltac:(lia) Hf3 Hs2) as (s3 & Hs3 & E3).
    unfold optional at 1. unfold bind at 1. rewrite E3. cbn [fst snd]. rewrite bool_decide_eq_true_2 by done.
    destruct (reads_weight_or_tail (mkParsing (ps_client q2) (ps_context q2) s3) (number n) w Hw Hs3) as (u & v & r & Hu & _ & Hcase).
    destruct (optional_look Tok.WEIGHT_START 1 (number n) (fun weight ch y => perform (add_server_action b server_value (number n) weight) (k ch y)) _ _ _ _ _ Hu) as (s4 & Hs4 & ->).
    exact (weight_seen h n w hashed rc c _ u v r (Hn s4) Hw Hs4 Hcase).
  - destruct (reads_weight_or_tail q2 server_value w Hw Hs2) as (u & v & r & (s3 & Hs3 & E3) & Hne & Hcase).
    unfold optional at 1. unfold bind at 1. rewrite E3. cbn [fst snd]. rewrite bool_decide_eq_false_2 by done.
    exact (weight_seen h MEMCACHED_DEFAULT_PORT w hashed rc c _ u v r (Hn s3) Hw Hs3 Hcase).
Qed.

Lemma directive_enacted d : well_formed d = true -> enacted d.
Proof.
  destruct d as [h p w|t n|t|n|n|t|t [u|]|name|]; intros Hw;
    [by apply enacted_server|by apply enacted_number|by apply enacted_flag|by apply enacted_pool_min|by apply enacted_pool_max|by apply enacted_hash
    |by apply enacted_spread_hash|by apply enacted_spread|by apply enacted_namespace|by apply enacted_fetch_version].
Qed.
End Directive.

Lemma statements_enact ds : ds <> [] -> forallb well_formed ds = true -> forall n hashed rc c y p, (List.length ds <= n)%nat ->
  good hashed rc c p -> scans (print_directives ds) (ps_scan p) -> seen (statements b include n y p) = enact b ds hashed rc c.
Proof.
  induction ds as [|d ds IH]; [done|]. intros _ Hw n hashed rc c y p Hn Hg Hs. cbn [forallb] in Hw. apply andb_true_iff in Hw as [Hd Hds].
  destruct n as [|n]; [cbn in Hn; lia|]. cbn [statements enact].
  pose (tail := match ds with [] => [] | _ => SP :: print_directives ds end).
  assert (print_directives (d :: ds) = print_directive d ++ tail) as Et by (destruct ds; [by rewrite app_nil_r|done]). rewrite Et in Hs.
  assert (tail_ok tail) as Htail by by destruct ds.
  eapply (directive_enacted tail); [exact Htail| |exact Hd|exact Hg|exact Hs].
  clear hashed rc c y p Hg Hs. intros hashed rc c ch y p Hg Hb.
  assert (exists t v s, yylookahead ch y p = (Ret (t, v), mkParsing (ps_client p) (ps_context p) s)
    /\ (t = Tok.YYEOF /\ tail = [] \/ exists r, t = Tok.SPACE /\ tail = SP :: r /\ scans r s)) as (t & v & s & E & Ht).
  { destruct ch as [t|].
    - exists t, y, (ps_scan p). split; [by destruct p|]. destruct t, tail as [|a r] eqn:Htl; try done; [by left|right].
      cbn in Htail. subst a. by exists r.
    - destruct (reads_tail p y tail Htail Hb) as (t & r & (s & Hs & E) & Ht). exists t, y, s. split; [done|].
      destruct Ht as [[-> ->]|[-> ->]]; [by left|right; by exists r]. }
  unfold bind. rewrite E. cbn [fst snd]. destruct Ht as [[-> Ht]|(r & -> & Ht & Hr)]; unfold tail in Ht; destruct ds as [|d' ds]; try done.
  - cbn [seen ret enact ps_client ps_context]. by destruct Hg as [-> -> _ _ _].
  - injection Ht as <-. apply IH; [done|done|cbn in *; lia|by apply good_scan|done].
Qed.
End Printed.
