(* ===== verification/TheoremsBehavior.v ===== *)
(** * Theorems about the settings of a client

    Settings change only through [memcached_behavior_set], keep their types and their mutual
    conditions, and are read back as they were set, whatever operations come between. *)

From stdpp Require Import base list sorting.
From Stdlib Require Import ZArith Lia Ascii String.
From S2P Require Import Prelude CxxString HashWords HashSmall HashKit HashkitString Rijndael Aes Continuum ClientTypes Distribution.
From S2P Require Import ByteOrder ClientString ClientState BinaryProtocol ClientRead ClientBinary ClientWrite ClientConnect ClientOps.
From S2P Require Import ClientBinaryOps ClientBehavior ClientFrame ClientGet ClientAdmin ClientFrameOps DemoClient TheoremsDist.

(** ** Calls of a client *)

Inductive Call :=
  | Store (group : cstring) (a : StoreArgs)
  | Delete (group key : cstring) (expiration : Z)
  | Count (up : bool) (group key : cstring) (offset : Z)
  | CountFrom (up : bool) (group key : cstring) (offset initial expiration : Z)
  | Touch (group key : cstring) (expiration : Z)
  | Get (group : option cstring) (key : cstring)
  | Mget (group : option cstring) (keys : list cstring)
  | Fetch (want_key : bool)
  | Flush (expiration : Z)
  | FlushBuffers
  | Version
  | Exist (group key : cstring)
  | Quit.

(** The 64-bit value of a 32-bit number. *)
Definition s32_range (x : Z) : Prop := - 2147483648 <= x < 2147483648.
Definition u32_range (x : Z) : Prop := 0 <= x < UINT_MOD.

Lemma int32_range x : s32_range (int32 x).
Proof.
  unfold int32, s32_range. pose proof (Z.mod_pos_bound x UINT_MOD ltac:(done)) as H. unfold u32, UINT_MOD in *.
  destruct (Z.ltb_spec (x mod 4294967296) 2147483648); lia.
Qed.
Lemma u32_in_range x : u32_range (u32 x).
Proof. unfold u32_range, u32. by apply Z.mod_pos_bound. Qed.

(** Every limit has its type; UDP excludes responses and buffering; the binary protocol excludes
    the check of keys. *)
Record limits_typed (l : limits_st) : Prop := {
  ty_snd : s32_range (snd_timeout l);
  ty_rcv : s32_range (rcv_timeout l);
  ty_failure : u32_range (server_failure_limit l);
  ty_msg : u32_range (io_msg_watermark l);
  ty_bytes : u32_range (io_bytes_watermark l);
  ty_prefetch : u32_range (io_key_prefetch l);
  ty_keepidle : u32_range (tcp_keepidle l);
  ty_connect : s32_range (connect_timeout l);
  ty_retry : s32_range (retry_timeout l);
  ty_dead : s32_range (dead_timeout l);
  ty_send : s32_range (send_size l);
  ty_recv : s32_range (recv_size l);
  ty_replicas : u32_range (number_of_replicas l);
}.

Record flags_consistent (f : flags_st) : Prop := {
  fc_udp : use_udp f = true -> reply f = false /\ buffer_requests f = false;
  fc_binary : binary_protocol f = true -> verify_key f = false;
}.

Definition typed_settings (m : Memcached) : Prop := flags_consistent (flags m) /\ limits_typed (limits m).

Lemma typed_same m m' : settings m' = settings m -> typed_settings m -> typed_settings m'.
Proof.
  unfold settings. intros E [Hc Ht]. rewrite !pair_equal_spec in E. destruct E as [[[[Hf _] _] Hl] _].
  rewrite <- Hf in Hc. split; [done|]. unfold put_poll_timeout in Hl.
  injection Hl as E1 E2 E3 E4 E5 E6 E7 E8 E9 E10 E11 E12 E13. destruct Ht; split; congruence.
Qed.

(** [run_distribution] behind the sorting keeps the settings. *)
Class FrameRebuilding `{RB : Rebuilding} := {
  frame_rebuild t m rc m' : rebuild t m = Ret (rc, m') -> settings m' = settings m;
}.

Section Settings.
Context `{DM : DataModel} `{HC : HashConfig} `{AL : Allocator} `{CF : ClientConfig} `{CK : Clock} `{CC : CipherConfig}.
Context `{FR : FrameReader} `{FT : FrameTransport} `{FK : FrameRouter} `{FQ : FrameRequests} `{MP : MultiPoll}.
Context `{SS : SessionSort} `{FB : FrameRebuilding} `{SZ : SocketSizes}.

Definition quietly {A} (m : SIO A) : SIO unit := let* _ := m in ret tt.

Definition perform_call (c : Call) : SIO unit :=
  match c with
  | Store g a => quietly (memcached_send g a)
  | Delete g k e => quietly (memcached_delete_by_key g k e)
  | Count b g k o => quietly (increment_decrement_by_key b g k o)
  | CountFrom b g k o i e => quietly (increment_decrement_with_initial_by_key b g k o i e)
  | Touch g k e => quietly (memcached_touch_by_key g k e)
  | Get g k => quietly (memcached_get_by_key g k)
  | Mget g ks => quietly (memcached_mget_by_key g ks)
  | Fetch b => quietly (memcached_fetch b)
  | Flush e => quietly (memcached_flush e)
  | FlushBuffers => quietly memcached_flush_buffers
  | Version => quietly memcached_version
  | Exist g k => quietly (memcached_exist_by_key g k)
  | Quit => memcached_quit
  end.

Fixpoint perform_calls (cs : list Call) : SIO unit :=
  match cs with [] => ret tt | c :: cs => perform_call c ;;; perform_calls cs end.

Lemma all_quietly {A} (m : SIO A) : keeps_all m -> keeps_all (quietly m).
Proof using Type. intros Hm. unfold quietly. frame_all. Qed.

Lemma all_call c : keeps_all (perform_call c).
Proof using FR FT FK FQ.
  destruct c; cbn [perform_call]; try apply all_quietly;
    [apply all_send|apply all_delete|apply all_incr|apply all_incr_initial|apply all_touch|apply all_get
    |apply all_mget_real|apply all_fetch|apply all_flush|apply all_flush_buffers|apply all_version|apply all_exist|apply all_quit].
Qed.

Lemma all_calls cs : keeps_all (perform_calls cs).
Proof using FR FT FK FQ. induction cs; cbn [perform_calls]; [done|]. apply all_bind; [apply all_call|done]. Qed.

(** ** Settings keep their types *)

Definition keeps_typed {A} (m : SIO A) : Prop :=
  forall s, typed_settings (memc (ses_root s)) -> typed_settings (memc (ses_root (snd (m s)))).

Lemma typed_frame {A} (m : SIO A) : keeps_all m -> keeps_typed m.
Proof using Type. intros Hm s. apply typed_same, Hm. Qed.
Lemma typed_bind {A B} (m : SIO A) (k : A -> SIO B) : keeps_typed m -> (forall a, keeps_typed (k a)) -> keeps_typed (bind m k).
Proof using Type.
  intros Hm Hk s Hs. unfold bind. specialize (Hm s Hs). destruct (m s) as [[a|e|f] s']; [by apply Hk|done..].
Qed.
Lemma typed_flags p : (forall f, flags_consistent f -> flags_consistent (p f)) -> keeps_typed (on_flags p).
Proof using Type. intros Hp s [? ?]. split; [by apply Hp|done]. Qed.
Lemma typed_limits p : (forall l, limits_typed l -> limits_typed (p l)) -> keeps_typed (on_limits p).
Proof using Type. intros Hp s [? ?]. split; [done|by apply Hp]. Qed.
Lemma typed_ret {A} (a : A) : keeps_typed (ret a).
Proof using Type. by intros s. Qed.
Lemma typed_refuse rc : keeps_typed (refuse rc).
Proof using Type. apply typed_frame, all_at_root. auto with frame. Qed.
Lemma typed_quit : keeps_typed send_quit.
Proof using FR FT. apply typed_frame, all_send_quit. Qed.
Lemma typed_quit_if b : keeps_typed (quit_if b).
Proof using FR FT. destruct b; [apply typed_quit|apply typed_ret]. Qed.

Lemma all_distribution_run : keeps_all run_distribution_session.
Proof using FB.
  intros s. unfold run_distribution_session, bind at 1, sconf, gets. cbn [ses_root].
  set (m1 := if use_sort_hosts _ then _ else _).
  assert (exists s1, m1 s = (Ret tt, s1) /\ settings (memc (ses_root s1)) = settings (memc (ses_root s))) as (s1 & E & Hs1).
  { unfold m1. destruct (use_sort_hosts _); [|by exists s]. by exists (sort_servers_session s). }
  unfold bind at 1. rewrite E. unfold bind at 1, sroot, gets. unfold bind at 1, on_sroot, modify. cbn [ses_root ses_insts].
  unfold bind at 1. cbn [ses_root]. unfold bind at 1, lift. cbn [memc set_ticks].
  destruct (rebuild _ _) as [[rc m']|e|f] eqn:Er; [|done..].
  unfold bind, ret. cbn. rewrite <- Hs1. by eapply frame_rebuild.
Qed.
Lemma typed_distribution_run : keeps_typed run_distribution_session.
Proof using FB. apply typed_frame, all_distribution_run. Qed.

Lemma typed_on_memc g : (forall m, flags (g m) = flags m /\ limits (g m) = limits m) -> keeps_typed (on_memc g).
Proof using Type.
  intros Hg s [Hf Hl]. unfold on_memc, on_sroot, modify. cbn. destruct (Hg (memc (ses_root s))) as [E1 E2].
  split; by rewrite ?E1, ?E2.
Qed.

Lemma typed_set_distribution d : keeps_typed (memcached_behavior_set_distribution d).
Proof using FB.
  unfold memcached_behavior_set_distribution.
  destruct d; try apply typed_refuse; (apply typed_bind; [|intros; apply typed_bind;
    [by apply typed_on_memc|intros; apply typed_distribution_run]]); (by apply typed_on_memc) || apply typed_ret.
Qed.

Lemma typed_key_hash a : keeps_typed (memcached_behavior_set_key_hash a).
Proof using Type.
  unfold memcached_behavior_set_key_hash. apply typed_bind; [by intros s|]. intros h. destruct (hashkit_set_function h a).
  apply typed_bind; [by apply typed_on_memc|]. intros _. destruct (hashkit_success _); [apply typed_ret|apply typed_refuse].
Qed.
Lemma typed_distribution_hash a : keeps_typed (memcached_behavior_set_distribution_hash a).
Proof using Type.
  unfold memcached_behavior_set_distribution_hash. apply typed_bind; [by intros s|]. intros h.
  destruct (hashkit_set_distribution_function h a).
  apply typed_bind; [by apply typed_on_memc|]. intros _. destruct (hashkit_success _); [apply typed_ret|apply typed_refuse].
Qed.

(** A flag or a number that stands alone. *)
Lemma flag_alone flag p q b f : flag_behavior flag = Some (p, q) -> flags_consistent f -> flags_consistent (p b f).
Proof using Type. intros Hp [Hu Hb]. destruct flag; cbn in Hp; try done; injection Hp as <- <-; split; cbn; done. Qed.
Lemma number_alone flag p c q x l : number_behavior flag = Some (p, c, q) -> limits_typed l -> limits_typed (p (c x) l).
Proof using Type.
  intros Hp Hl. destruct Hl.
  destruct flag; cbn in Hp; try done; injection Hp as <- <- <-; split; cbn; auto using int32_range, u32_in_range.
Qed.
Lemma typed_failure_limit x : keeps_typed (set_failure_limit x).
Proof using Type.
  unfold set_failure_limit. destruct (x =? 0); [apply typed_refuse|]. apply typed_bind; [|intros; apply typed_ret].
  apply typed_limits. intros l []. split; cbn; auto using u32_in_range.
Qed.

(** UDP: the three flags are put one after the other. *)
Lemma typed_udp (b : bool) : keeps_typed (on_flags (put_use_udp b) ;;;
  (if b then on_flags (put_reply false) ;;; on_flags (put_buffer_requests false) else on_flags (put_reply true)) ;;;
  ret MEMCACHED_SUCCESS).
Proof using Type.
  intros s [[Hu Hb] Hl]. destruct b; (split; [|done]); split; cbn; done.
Qed.

Lemma typed_binary (b : bool) : keeps_typed ((if b then on_flags (put_verify_key false) else ret tt) ;;;
  on_flags (put_binary_protocol b) ;;; ret MEMCACHED_SUCCESS).
Proof using Type. intros s [[Hu Hb] Hl]. destruct b; (split; [|done]); split; cbn; done. Qed.

Lemma typed_behavior_set flag data : keeps_typed (memcached_behavior_set flag data).
Proof using FR FT FB.
  unfold memcached_behavior_set.
  destruct (flag_behavior flag) as [[p q]|] eqn:Hf.
  { apply typed_bind; [|intros; apply typed_bind; [apply typed_quit_if|intros; apply typed_ret]].
    apply typed_flags. intros f. by apply (flag_alone flag p q). }
  destruct (number_behavior flag) as [[[p c] q]|] eqn:Hn.
  { apply typed_bind; [|intros; apply typed_bind; [apply typed_quit_if|intros; apply typed_ret]].
    apply typed_limits. intros l. by apply (number_alone flag p c q). }
  destruct flag; try done; try apply typed_refuse; try apply typed_set_distribution; try apply typed_key_hash;
    try apply typed_distribution_hash; try apply typed_failure_limit.
  - (* BUFFER_REQUESTS *) intros s Hs. unfold bind at 1, sconf, gets. destruct (use_udp _) eqn:Hu; [by apply typed_refuse|].
    unfold bind at 1, on_flags, on_memc, on_sroot, modify. cbn [ses_root]. eapply typed_bind; [apply typed_quit|intros; apply typed_ret|].
    destruct Hs as [[? Hb] Hl]. split; [|done]. split; cbn; [by rewrite Hu|done].
  - (* SORT_HOSTS *) apply typed_bind; [|intros; apply typed_distribution_run]. apply typed_flags. intros f []. by split.
  - (* VERIFY_KEY *) intros s Hs. unfold bind at 1, sconf, gets. destruct (binary_protocol _) eqn:Hb; [by apply typed_refuse|].
    destruct Hs as [[Hu ?] Hl]. split; [|done]. split; cbn; [done|by rewrite Hb].
  - (* RETRY_TIMEOUT *) destruct (data =? 0); [apply typed_refuse|]. apply typed_bind; [|intros; apply typed_ret].
    apply typed_limits. intros l []. split; cbn; auto using int32_range.
  - (* KETAMA_WEIGHTED *) destruct (negb (truth data)); [apply typed_set_distribution|].
    apply typed_bind; [apply typed_key_hash|intros]. apply typed_bind; [apply typed_distribution_hash|intros]. apply typed_set_distribution.
  - (* BINARY_PROTOCOL *) apply typed_bind; [apply typed_quit|intros; apply typed_binary].
  - (* NOREPLY *) intros s Hs. unfold bind at 1, sconf, gets. destruct (use_udp _ && _) eqn:Hu; [by apply typed_refuse|].
    destruct Hs as [[Hu' Hb] Hl]. split; [|done]. split; cbn; [|done]. intros Huse. destruct (Hu' Huse) as [_ Hbuf].
    cbn in Huse. rewrite Huse in Hu. cbn in Hu. by rewrite Hu.
  - (* USE_UDP *) apply typed_bind; [apply typed_quit|intros; apply typed_udp].
  - (* REMOVE_FAILED_SERVERS *) apply typed_bind; [|intros; apply typed_failure_limit]. apply typed_flags. intros f []. by split.
  - (* MAX *) apply typed_bind; [by intros ?|intros; apply typed_refuse].
Qed.

(** A program of a client: behaviours are set and operations called, whatever they return. *)
Inductive Step := Behave (flag : memcached_behavior_t) (data : Z) | Do (c : Call).

Fixpoint run_steps (l : list Step) : SIO unit :=
  match l with
  | [] => ret tt
  | Behave flag data :: l => quietly (memcached_behavior_set flag data) ;;; run_steps l
  | Do c :: l => perform_call c ;;; run_steps l
  end.

(** C5. Types of the settings: from a new client on, whatever behaviours are set, to whatever 64-bit
    numbers, and whatever operations are called in between, every limit stays within its 32-bit
    type (the poll timeout, which purging changes for a while, is left out), a UDP client never waits for responses nor buffers requests, and a client of the binary
    protocol does not check the characters of keys. *)
Theorem settings_stay_typed steps s :
  settings (memc (ses_root s)) = settings _memcached_init -> typed_settings (memc (ses_root (snd (run_steps steps s)))).
Proof using FR FT FK FQ FB.
  intros Hs. assert (typed_settings _memcached_init) as Hinit.
  { split; split; cbn; done || (unfold s32_range, u32_range, UINT_MOD; cbn; lia). }
  apply (typed_same _ _ Hs) in Hinit as Ht. clear Hs Hinit. revert s Ht.
  assert (keeps_typed (run_steps steps)) as H; [|exact H].
  induction steps as [|[flag data|c] steps IH]; cbn [run_steps]; [apply typed_ret| |]; (apply typed_bind; [|done]).
  - apply typed_bind; [apply typed_behavior_set|intros; apply typed_ret].
  - apply typed_frame, all_call.
Qed.

(** ** Settings are read back *)

(** What [memcached_behavior_get] answers, from the settings alone; [None] where it looks at
    something else (the kernel, the continuum, a file) or at a deprecated behaviour. *)
Definition observe (flag : memcached_behavior_t) (x : flags_st * memcached_server_distribution_t * hashkit_st * limits_st * cstring)
    : option Z :=
  let '(f, d, h, l, _) := x in
  match flag with
  | MEMCACHED_BEHAVIOR_NUMBER_OF_REPLICAS => Some (number_of_replicas l)
  | MEMCACHED_BEHAVIOR_IO_MSG_WATERMARK => Some (io_msg_watermark l)
  | MEMCACHED_BEHAVIOR_IO_BYTES_WATERMARK => Some (io_bytes_watermark l)
  | MEMCACHED_BEHAVIOR_IO_KEY_PREFETCH => Some (io_key_prefetch l)
  | MEMCACHED_BEHAVIOR_BINARY_PROTOCOL => Some (b2z (binary_protocol f))
  | MEMCACHED_BEHAVIOR_SUPPORT_CAS => Some (b2z (support_cas f))
  | MEMCACHED_BEHAVIOR_NO_BLOCK => Some (b2z (no_block f))
  | MEMCACHED_BEHAVIOR_BUFFER_REQUESTS => Some (b2z (buffer_requests f))
  | MEMCACHED_BEHAVIOR_USE_UDP => Some (b2z (use_udp f))
  | MEMCACHED_BEHAVIOR_TCP_NODELAY => Some (b2z (tcp_nodelay f))
  | MEMCACHED_BEHAVIOR_VERIFY_KEY => Some (b2z (verify_key f))
  | MEMCACHED_BEHAVIOR_DISTRIBUTION => Some (distribution_number d)
  | MEMCACHED_BEHAVIOR_HASH => Some (algorithm_number (hashkit_get_function (Some h)))
  | MEMCACHED_BEHAVIOR_REMOVE_FAILED_SERVERS | MEMCACHED_BEHAVIOR_SERVER_FAILURE_LIMIT => Some (server_failure_limit l)
  | MEMCACHED_BEHAVIOR_SORT_HOSTS => Some (b2z (use_sort_hosts f))
  | MEMCACHED_BEHAVIOR_CONNECT_TIMEOUT => Some (u64 (connect_timeout l))
  | MEMCACHED_BEHAVIOR_RETRY_TIMEOUT => Some (u64 (retry_timeout l))
  | MEMCACHED_BEHAVIOR_DEAD_TIMEOUT => Some (u64 (dead_timeout l))
  | MEMCACHED_BEHAVIOR_SND_TIMEOUT => Some (u64 (snd_timeout l))
  | MEMCACHED_BEHAVIOR_RCV_TIMEOUT => Some (u64 (rcv_timeout l))
  | MEMCACHED_BEHAVIOR_TCP_KEEPIDLE => Some (u64 (tcp_keepidle l))
  | MEMCACHED_BEHAVIOR_SOCKET_SEND_SIZE => if send_size l =? -1 then None else Some (u64 (send_size l))
  | MEMCACHED_BEHAVIOR_SOCKET_RECV_SIZE => if recv_size l =? -1 then None else Some (u64 (recv_size l))
  | MEMCACHED_BEHAVIOR_HASH_WITH_PREFIX_KEY => Some (b2z (hash_with_namespace f))
  | MEMCACHED_BEHAVIOR_NOREPLY => Some (b2z (negb (reply f)))
  | MEMCACHED_BEHAVIOR_AUTO_EJECT_HOSTS => Some (b2z (auto_eject_hosts f))
  | MEMCACHED_BEHAVIOR_RANDOMIZE_REPLICA_READ => Some (b2z (randomize_replica_read f))
  | MEMCACHED_BEHAVIOR_TCP_KEEPALIVE => Some (b2z (tcp_keepalive f))
  | _ => None
  end.

Lemma get_observes flag v s : observe flag (settings (memc (ses_root s))) = Some v ->
  memcached_behavior_get flag s = (Ret v, s).
Proof using Type.
  unfold memcached_behavior_get, bind, sroot, gets, settings. intros H.
  destruct flag; cbn in H; try done; try (injection H as <-; done).
  all: unfold kernel_buffer; cbn [send_size recv_size put_poll_timeout] in *; destruct (_ =? -1); [done|by injection H as <-].
Qed.

(** The number that reading a behaviour should give when it was set to [data]: a truth value, the
    number cut to its 32 bits (negative ones extended again), the number of a distribution or of
    a hash function, MURMUR3 being MURMUR. *)
Definition reported (flag : memcached_behavior_t) (data : Z) : option Z :=
  match flag_behavior flag, number_behavior flag with
  | Some _, _ => Some (b2z (truth data))
  | _, Some (_, cast, _) =>
    match flag with
    | MEMCACHED_BEHAVIOR_POLL_TIMEOUT => None
    | MEMCACHED_BEHAVIOR_SOCKET_SEND_SIZE | MEMCACHED_BEHAVIOR_SOCKET_RECV_SIZE =>
      if int32 data =? -1 then None else Some (u64 (int32 data))
    | _ => Some (u64 (cast data))
    end
  | None, None =>
    match flag with
    | MEMCACHED_BEHAVIOR_BINARY_PROTOCOL | MEMCACHED_BEHAVIOR_BUFFER_REQUESTS | MEMCACHED_BEHAVIOR_USE_UDP
    | MEMCACHED_BEHAVIOR_VERIFY_KEY | MEMCACHED_BEHAVIOR_SORT_HOSTS | MEMCACHED_BEHAVIOR_NOREPLY => Some (b2z (truth data))
    | MEMCACHED_BEHAVIOR_SERVER_FAILURE_LIMIT | MEMCACHED_BEHAVIOR_REMOVE_FAILED_SERVERS => Some (u32 data)
    | MEMCACHED_BEHAVIOR_RETRY_TIMEOUT => Some (u64 (int32 data))
    | MEMCACHED_BEHAVIOR_DISTRIBUTION => Some (u32 data)
    | MEMCACHED_BEHAVIOR_HASH => Some (if u32 data =? 10 then 8 else u32 data)
    | _ => None
    end
  end.

Lemma u64_u32 x : u64 (u32 x) = u32 x.
Proof using Type. unfold u64. apply Z.mod_small. pose proof (u32_in_range x) as H. unfold u32_range, UINT_MOD in H. lia. Qed.

(** [on_memc] and then something that keeps the settings. *)
Lemma after_change {A} g (k : SIO A) s o s' : keeps_all k -> (on_memc g ;;; k) s = (o, s') ->
  settings (memc (ses_root s')) = settings (g (memc (ses_root s))).
Proof using Type.
  intros Hk. unfold bind, on_memc, on_sroot, modify. cbn [ses_root ses_insts]. intros E.
  specialize (Hk (mkSession (set_memc (g (memc (ses_root s))) (ses_root s)) (ses_insts s))). rewrite E in Hk. exact Hk.
Qed.

Lemma all_quit_if b : keeps_all (quit_if b ;;; ret MEMCACHED_SUCCESS).
Proof using FR FT. apply all_bind; [|done]. destruct b; [apply all_send_quit|done]. Qed.

Lemma enumerated {A} (l : list A) d n x : default d (l !! n) = x -> x <> d -> l !! n = Some x.
Proof using Type. destruct (l !! n); cbn; congruence. Qed.

Lemma algorithm_number_of data a : algorithm_of data = a -> a <> HASHKIT_HASH_MAX -> algorithm_number a = u32 data.
Proof using Type.
  intros Ha Hm. apply (enumerated _ _ _ _ Ha) in Hm. pose proof (u32_in_range data) as Hr. unfold u32_range in Hr.
  destruct (Z.to_nat (u32 data)) as [|n] eqn:E; [injection Hm as <-; cbn; lia|].
  do 11 (destruct n as [|n]; [injection Hm as <-; cbn; lia|]). done.
Qed.
Lemma distribution_number_of data d : distribution_of data = d -> d <> MEMCACHED_DISTRIBUTION_CONSISTENT_MAX ->
  distribution_number d = u32 data.
Proof using Type.
  intros Ha Hm. apply (enumerated _ _ _ _ Ha) in Hm. pose proof (u32_in_range data) as Hr. unfold u32_range in Hr.
  destruct (Z.to_nat (u32 data)) as [|n] eqn:E; [injection Hm as <-; cbn; lia|].
  do 6 (destruct n as [|n]; [injection Hm as <-; cbn; lia|]). done.
Qed.

(** The functions of keys are read back, MURMUR3 as MURMUR. *)
Lemma hash_read_back h a h' : hashkit_set_function h a = (HASHKIT_SUCCESS, h') ->
  a <> HASHKIT_HASH_MAX
  /\ hashkit_get_function (Some h') = match a with HASHKIT_HASH_MURMUR3 => HASHKIT_HASH_MURMUR | _ => a end.
Proof using Type.
  unfold hashkit_set_function, _set_function.
  destruct a; repeat case_match; intros E; simplify_eq; split; done.
Qed.

Lemma refuse_rc rc s rc' s' : rc = MEMCACHED_INVALID_ARGUMENTS \/ rc = MEMCACHED_DEPRECATED ->
  refuse rc s = (Ret rc', s') -> rc' = rc.
Proof using Type.
  intros Hrc. unfold refuse, at_root, memcached_set_error_root, bind at 1, assert_io, lift, assert_msg.
  assert (negb (rc_eqb rc MEMCACHED_ERRNO) = true /\ memcached_fatal rc = true) as [-> ->] by (by destruct Hrc as [->| ->]).
  rewrite orb_true_r. unfold _set_root, bind at 1, getr, gets. unfold bind at 1, on_root, modify. cbn [root].
  destruct (stale _ _); unfold bind at 1, ret; unfold bind at 1; cbn [root];
    (assert (forall e, (set_rc rc E_OK e).1 = rc) as Hset by (intros e; by destruct Hrc as [->| ->]));
    destruct (set_rc _ _ _) as [rc1 e'] eqn:E; unfold bind at 1, alloc; cbn [root inst];
    (assert (rc1 = rc) as -> by (match type of E with set_rc _ _ ?e = _ => specialize (Hset e) end; by rewrite E in Hset));
    destruct (grants _ _); unfold bind; cbn; by intros [= <- _].
Qed.

Lemma refuse_fails rc s s' : rc = MEMCACHED_INVALID_ARGUMENTS \/ rc = MEMCACHED_DEPRECATED ->
  refuse rc s <> (Ret MEMCACHED_SUCCESS, s').
Proof using Type. intros Hrc E. apply refuse_rc in E; [|done]. by destruct Hrc; subst. Qed.

Lemma distribution_set d s o s' : d <> MEMCACHED_DISTRIBUTION_CONSISTENT_MAX ->
  memcached_behavior_set_distribution d s = (o, s') -> distribution (memc (ses_root s')) = d.
Proof using FB.
  intros Hd E. assert (exists s1, (on_memc (fun m => with_distribution m d) ;;; run_distribution_session) s1 = (o, s')) as (s1 & E1).
  { pose (s1 b := mkSession (set_memc (memcached_set_weighted_ketama (memc (ses_root s)) b) (ses_root s)) (ses_insts s)).
    destruct d; try done; (exists s; exact E) || (exists (s1 false); exact E) || (exists (s1 true); exact E). }
  apply after_change in E1; [|apply all_distribution_run]. unfold settings in E1. rewrite !pair_equal_spec in E1. apply E1.
Qed.

(** Closing the connections first. *)
Lemma after_quit {A} (k : SIO A) s a s' : (send_quit ;;; k) s = (Ret a, s') -> exists s1, k s1 = (Ret a, s').
Proof using Type. unfold bind. destruct (send_quit s) as [[[]|e|f] s1]; [by exists s1|done..]. Qed.

(** What was set is what the settings then say. *)
Lemma set_reports flag data s s' v :
  memcached_behavior_set flag data s = (Ret MEMCACHED_SUCCESS, s') -> reported flag data = Some v ->
  observe flag (settings (memc (ses_root s'))) = Some v.
Proof using FR FT FB.
  unfold memcached_behavior_set, reported.
  destruct (flag_behavior flag) as [[p q]|] eqn:Hf.
  { intros E [= <-]. apply after_change in E; [|apply all_quit_if]. rewrite E.
    destruct flag; cbn in Hf; try done; by injection Hf as <- <-. }
  destruct (number_behavior flag) as [[[p c] q]|] eqn:Hn.
  { intros E Hv. apply after_change in E; [|apply all_quit_if]. rewrite E.
    destruct flag; cbn in Hn; try done; injection Hn as <- <- <-; cbn in Hv |- *; rewrite <- ?Hv, ?u64_u32; done. }
  destruct flag; try done; intros E [= <-].
  - (* HASH *) unfold memcached_behavior_set_key_hash, bind at 1, sconf, gets in E.
    destruct (hashkit_set_function _ _) as [rc h'] eqn:Eh. destruct (hashkit_success rc) eqn:Hok.
    + destruct rc; try done. apply after_change in E; [|done]. rewrite E. cbn.
      apply hash_read_back in Eh as [Hm Hg]. pose proof (algorithm_number_of data _ eq_refl Hm) as Hnum.
      cbn in Hg. rewrite Hg. destruct (algorithm_of data); cbn in Hnum |- *; rewrite <- Hnum; done.
    + exfalso. unfold bind, on_memc, on_sroot, modify in E. by apply refuse_fails in E; [|left].
  - (* DISTRIBUTION *) unfold memcached_behavior_set_distribution in E.
    destruct (decide (distribution_of data = MEMCACHED_DISTRIBUTION_CONSISTENT_MAX)) as [Hx|Hx].
    { exfalso. rewrite Hx in E. by apply refuse_fails in E; [|left]. }
    cbn. rewrite <- (distribution_number_of data _ eq_refl Hx). do 2 f_equal.
    by eapply distribution_set.
  - (* BUFFER_REQUESTS *) unfold bind at 1, sconf, gets in E. destruct (use_udp _); [by apply refuse_fails in E; [|left]|].
    apply after_change in E; [by rewrite E|]. apply all_bind; [apply all_send_quit|done].
  - (* SORT_HOSTS *) apply after_change in E; [by rewrite E|apply all_distribution_run].
  - (* VERIFY_KEY *) unfold bind at 1, sconf, gets in E. destruct (binary_protocol _); [by apply refuse_fails in E; [|left]|].
    by injection E as <-.
  - (* RETRY_TIMEOUT *) destruct (data =? 0); [by apply refuse_fails in E; [|left]|]. by injection E as <-.
  - (* BINARY_PROTOCOL *) apply after_quit in E as (s1 & E). destruct (truth data); by injection E as <-.
  - (* SERVER_FAILURE_LIMIT *) unfold set_failure_limit in E. destruct (data =? 0); [by apply refuse_fails in E; [|left]|].
    by injection E as <-.
  - (* NOREPLY *) unfold bind at 1, sconf, gets in E. destruct (use_udp _ && _); [by apply refuse_fails in E; [|left]|].
    injection E as <-. cbn. by rewrite negb_involutive.
  - (* USE_UDP *) apply after_quit in E as (s1 & E). destruct (truth data); by injection E as <-.
  - (* REMOVE_FAILED_SERVERS *) unfold bind, on_flags, on_memc, on_sroot, modify, set_failure_limit in E.
    destruct (data =? 0); [by apply refuse_fails in E; [|left]|]. by injection E as <-.
Qed.

End Settings.

(** ** The distribution of keys keeps the settings *)

Section Distributing.
Context `{DM : DataModel} `{HC : HashConfig} `{CF : ClientConfig} `{QS : Qsort} `{SH : SortHosts}.
Context (garbage : list Z) (client : Z -> KeyPtr -> Z -> outcome Z) (addr : Z) (behind : nat -> ascii).
Context (now : nat -> option Z) (random : nat -> Z) (granted : bool) (junk : nat -> memcached_continuum_item_st).

Lemma update_continuum_settings clock m rc m' :
  update_continuum garbage client addr behind clock granted junk m = Ret (rc, m') -> settings m' = settings m.
Proof using Type.
  unfold update_continuum. destruct clock; [|by intros [= <- <-]]. cbv zeta.
  destruct (_ =? 0); [by intros [= <- <-]|]. destruct (_ && negb granted); [by intros [= <- <-]|].
  destruct (assert_msg _); cbn [obind]; [|done..].
  destruct (hosts_loop _ _ _ _ _ _ _ _ _ _ _ _ _ _) as [[fits b]|?|?]; cbn [obind]; [|done..].
  destruct (negb fits); [by intros [= <- <-]|]. destruct (assert_msg _); cbn [obind]; [|done..].
  destruct (Nat.ltb _ _); [done|]. by intros [= <- <-].
Qed.

Lemma rebuild_settings clock m rc m' :
  rebuild_distribution garbage client addr behind clock granted junk m = Ret (rc, m') -> settings m' = settings m.
Proof using Type.
  unfold rebuild_distribution. destruct (distribution m); try (by intros [= <- <-]); try apply update_continuum_settings.
  destruct (assert_msg _); cbn [obind]; [|done..]. by intros [= <- <-].
Qed.

Lemma run_distribution_settings clock m rc m' :
  run_distribution garbage client addr behind clock granted junk m = Ret (rc, m') -> settings m' = settings m.
Proof using Type.
  unfold run_distribution. intros E. rewrite (rebuild_settings _ _ _ _ E). destruct (use_sort_hosts _); [|done].
  unfold sort_hosts. by destruct (_ =? 0).
Qed.

Lemma regen_settings t m m' :
  _regen_for_auto_eject garbage client addr behind t granted junk t m = Ret m' -> settings m' = settings m.
Proof using Type.
  unfold _regen_for_auto_eject. destruct (_ && negb _); [|by intros [= <-]]. destruct t as [t|]; [|by intros [= <-]].
  destruct (_ <? t); [|by intros [= <-]]. destruct (run_distribution _ _ _ _ _ _ _ m) as [[rc m1]|?|?] eqn:E; cbn [obind]; [|done..].
  intros [= <-]. by eapply run_distribution_settings.
Qed.

(** The parts of hosts.cc and hash.cc as the implementations of the interfaces. *)
Definition distribution_rebuilding : Rebuilding :=
  {| rebuild := fun t m => rebuild_distribution garbage client addr behind (now t) granted junk m |}.
Definition distribution_redistribution : Redistribution :=
  {| redistribute := fun t m => run_distribution garbage client addr behind (now t) granted junk m |}.

#[local] Existing Instance distribution_rebuilding.
#[local] Existing Instance distribution_redistribution.

#[export] Instance rebuilding_frame : FrameRebuilding (RB := distribution_rebuilding).
Proof using Type. split. intros t m rc m' E. exact (rebuild_settings (now t) m rc m' E). Qed.
#[export] Instance redistribution_frame : FrameRedistribution (RD := distribution_redistribution).
Proof using Type. split. intros t m rc m' E. exact (run_distribution_settings (now t) m rc m' E). Qed.
#[export] Instance router_frame :
  FrameRouter (KR := distribution_router garbage client addr behind now random granted junk).
Proof using Type.
  split. intros t m k n m'. cbn [route distribution_router]. unfold memcached_generate_hash_with_redistribution.
  destruct (_generate_hash_wrapper _ _ _ _ _ _) as [h|?|?]; cbn [obind]; [|done..].
  destruct (_regen_for_auto_eject _ _ _ _ _ _ _ _ m) as [m1|?|?] eqn:E; cbn [obind]; [|done..].
  destruct (dispatch_host _ _ _) as [d|?|?]; cbn [obind]; [|done..]. intros [= _ <-]. by eapply regen_settings.
Qed.
End Distributing.

(** ** The statements at concrete inputs *)

#[local] Existing Instance ILP32.
#[local] Existing Instance demo_hash.
#[local] Existing Instance demo_memory.
#[local] Existing Instance demo_build.
#[local] Existing Instance demo_clock.
#[local] Existing Instance demo_cipher.
#[local] Existing Instance demo_router.
#[local] Existing Instance no_poll.
#[local] Existing Instance binary_requests.

Definition demo_random_source : RandomSource := {| random_value := fun _ => 4 |}.
Definition demo_resolver : Network :=
  {| getaddrinfo := fun _ _ _ => GaiOk [true]; so_error := fun _ => inl E_OK; setsockopt_ok := fun _ => true |}.
Definition demo_rebuilding : Rebuilding :=
  @distribution_rebuilding ILP32 demo_hash demo_build merge_items (replicate 64 0) (fun _ _ _ => Ret 0) 0 (fun _ => zero)
    (fun _ => Some 1000) true (fun _ => mkItem 0 0).
Definition demo_redistribution : Redistribution :=
  @distribution_redistribution ILP32 demo_hash demo_build merge_items merge_hosts (replicate 64 0) (fun _ _ _ => Ret 0) 0 (fun _ => zero)
    (fun _ => Some 1000) true (fun _ => mkItem 0 0).
Definition demo_sizes : SocketSizes := {| socket_size := fun _ => inl 87380 |}.
Definition demo_session_le (a b : Instance_ * Inst) : Prop := compare_servers a.1 b.1 <= 0.
#[local] Instance demo_session_le_dec : RelDecision demo_session_le.
Proof. unfold demo_session_le. intros a b. apply _. Defined.
Definition demo_session_sort : SessionSort := {| sort_session := merge_sort demo_session_le |}.
#[local] Existing Instance demo_random_source.
#[local] Existing Instance demo_resolver.
#[local] Existing Instance demo_rebuilding.
#[local] Existing Instance demo_redistribution.
#[local] Existing Instance demo_sizes.
#[local] Existing Instance demo_session_sort.

#[local] Instance demo_router_frame : FrameRouter (KR := demo_router).
Proof. apply router_frame. Qed.
#[local] Instance demo_rebuilding_frame : FrameRebuilding (RB := demo_rebuilding).
Proof. apply rebuilding_frame. Qed.
#[local] Instance demo_redistribution_frame : FrameRedistribution (RD := demo_redistribution).
Proof. apply redistribution_frame. Qed.

(** A new client with two servers, one of them connected. *)
Definition new_client : Session :=
  mkSession (set_memc (with_servers _memcached_init [mkInstance (lit "b") 11211 1 0; mkInstance (lit "a") 11211 1 0]) demo_root)
    [demo_inst 0 [lit "STORED" ++ CRLF]; demo_inst 1 [lit "STORED" ++ CRLF]].

(** UDP with responses is refused, the binary protocol turns the check of keys off. *)
Definition demo_steps : list Step :=
  [Do (Store (lit "key") (mkStore (lit "key") (lit "hello") 0 0 0 SET_OP)); Behave MEMCACHED_BEHAVIOR_SORT_HOSTS 1;
   Behave MEMCACHED_BEHAVIOR_USE_UDP 1; Behave MEMCACHED_BEHAVIOR_NOREPLY 0; Behave MEMCACHED_BEHAVIOR_BINARY_PROTOCOL 7;
   Behave MEMCACHED_BEHAVIOR_VERIFY_KEY 1; Behave MEMCACHED_BEHAVIOR_SND_TIMEOUT (2 ^ 64 - 1); Do Quit].

Lemma settings_stay_typed_witness : typed_settings (memc (ses_root (snd (run_steps demo_steps new_client)))).
Proof. apply (settings_stay_typed demo_steps new_client). reflexivity. Defined.

Definition demo_calls : list Call :=
  [Store (lit "key") (mkStore (lit "key") (lit "hello") 0 0 0 SET_OP); Get None (lit "key"); Flush 0; Quit].

