(* ===== verification/ClientControl.v ===== *)
(** * Control of servers: dump.cc, verbosity.cc, analyze.cc, flag.cc, callback.cc, libmemcachedutil

    The calls on all servers of a client with a function of the caller, the analysis of their
    statistics, the flags and callbacks of a client, and the small functions of libmemcachedutil,
    each of which makes a client of its own. A function of the caller is a function on the
    caller's context. *)

From stdpp Require Import base list.
From Stdlib Require Import ZArith Ascii String SpecFloat.
From S2P Require Import Prelude CxxString HashWords HashSmall HashKit HashkitString Rijndael Aes Continuum ClientTypes Distribution.
From S2P Require Import ByteOrder ClientString ClientState BinaryProtocol ClientRead ClientWrite ClientConnect ClientOps ClientGet.
From S2P Require Import ClientBehavior ClientClone ClientAdmin ClientStats ClientServers.

(** ** The servers of a client: instance.cc *)

(** A server as a function of the caller sees it: its configuration and its connection. *)
Definition Server : Type := Instance_ * Inst.
Definition servers_of (s : Session) : list Server := zip (servers (memc (ses_root s))) (ses_insts s).

Section Cursor.
Context {A : Type}.

(** One server: a failing function does not keep the others from being called. *)
Fixpoint call_each (callback : list (Server -> A -> outcome (memcached_return_t * A))) (server : Server) (errors : Z) (context : A)
    : outcome (Z * A) :=
  match callback with
  | [] => Ret (errors, context)
  | f :: callback =>
    let? x := f server context in
    call_each callback server (if memcached_failed (fst x) then errors + 1 else errors) (snd x)
  end.

Fixpoint cursor_loop (callback : list (Server -> A -> outcome (memcached_return_t * A))) (l : list Server) (errors : Z) (context : A)
    : outcome (Z * A) :=
  match l with
  | [] => Ret (errors, context)
  | server :: l => let? x := call_each callback server errors context in cursor_loop callback l (fst x) (snd x)
  end.

(** The client is constant, [initialize_const_query] included. *)
Definition memcached_server_cursor (s : Session) (callback : list (Server -> A -> outcome (memcached_return_t * A))) (context : A)
    : outcome (memcached_return_t * A) :=
  if memcached_server_count (memc (ses_root s)) =? 0 then Ret (MEMCACHED_NO_SERVERS, context) else
  let? x := cursor_loop callback (servers_of s) 0 context in
  Ret (if fst x =? 0 then MEMCACHED_SUCCESS else MEMCACHED_SOME_ERRORS, snd x).
End Cursor.

(** ** analyze.cc *)

(** [double]: the standard's binary64, its conversion from an integer to the nearest value. *)
Definition double : Type := spec_float.
Definition double_of (x : Z) : double := binary_normalize 53 1024 x 0 false.

Record memcached_analysis_st := mkAnalysis {
  average_item_size : Z;
  longest_uptime : Z;
  least_free_server : Z;
  most_consumed_server : Z;
  oldest_server : Z;
  pool_hit_ratio : double;
  most_used_bytes : Z;
  least_remaining_bytes : Z;
}.

(** The memory is cleared. *)
Definition new_analysis : memcached_analysis_st := mkAnalysis 0 0 0 0 0 (S754_zero false) 0 0.

Definition calc_largest_consumption (server_num nbytes : Z) (r : memcached_analysis_st) : memcached_analysis_st :=
  if most_used_bytes r <? nbytes
  then mkAnalysis (average_item_size r) (longest_uptime r) (least_free_server r) server_num (oldest_server r)
         (pool_hit_ratio r) nbytes (least_remaining_bytes r)
  else r.

Definition calc_oldest_node (server_num uptime : Z) (r : memcached_analysis_st) : memcached_analysis_st :=
  if longest_uptime r <? uptime
  then mkAnalysis (average_item_size r) uptime (least_free_server r) (most_consumed_server r) server_num
         (pool_hit_ratio r) (most_used_bytes r) (least_remaining_bytes r)
  else r.

Definition calc_least_free_node (server_num max_allowed_bytes used_bytes : Z) (r : memcached_analysis_st) : memcached_analysis_st :=
  let remaining_bytes := u64 (max_allowed_bytes - used_bytes) in
  if (least_remaining_bytes r =? 0) || (remaining_bytes <? least_remaining_bytes r)
  then mkAnalysis (average_item_size r) (longest_uptime r) server_num (most_consumed_server r) (oldest_server r)
         (pool_hit_ratio r) (most_used_bytes r) remaining_bytes
  else r.

Definition calc_average_item_size (total_items total_bytes : Z) (r : memcached_analysis_st) : memcached_analysis_st :=
  if (0 <? total_items) && (0 <? total_bytes)
  then mkAnalysis (u32 (total_bytes / total_items)) (longest_uptime r) (least_free_server r) (most_consumed_server r)
         (oldest_server r) (pool_hit_ratio r) (most_used_bytes r) (least_remaining_bytes r)
  else r.

Definition hit_ratio (total_get_hits total_get_cmds : Z) : double :=
  if (total_get_hits =? 0) || (total_get_cmds =? 0) then S754_zero false else
  SFmul 53 1024 (SFdiv 53 1024 (double_of total_get_hits) (double_of total_get_cmds)) (double_of 100).

Definition calc_hit_ratio (total_get_hits total_get_cmds : Z) (r : memcached_analysis_st) : memcached_analysis_st :=
  mkAnalysis (average_item_size r) (longest_uptime r) (least_free_server r) (most_consumed_server r)
    (oldest_server r) (hit_ratio total_get_hits total_get_cmds) (most_used_bytes r) (least_remaining_bytes r).

(** The four sums, in 64 bits. *)
Record Totals := mkTotals { total_items : Z; total_bytes : Z; total_get_cmds : Z; total_get_hits : Z }.

Fixpoint analyze_loop (x : Z) (memc_stat : list Stat) (t : Totals) (r : memcached_analysis_st) : Totals * memcached_analysis_st :=
  match memc_stat with
  | [] => (t, r)
  | s :: memc_stat =>
    analyze_loop (u32 (x + 1)) memc_stat
      (mkTotals (u64 (total_items t + stat_curr_items s)) (u64 (total_bytes t + stat_bytes s))
         (u64 (total_get_cmds t + stat_cmd_get s)) (u64 (total_get_hits t + stat_get_hits s)))
      (calc_least_free_node x (stat_limit_maxbytes s) (stat_bytes s)
         (calc_oldest_node x (u32 (stat_uptime s)) (calc_largest_consumption x (stat_bytes s) r)))
  end.

Section Control.
Context `{DM : DataModel} `{HC : HashConfig} `{AL : Allocator} `{CF : ClientConfig} `{CK : Clock} `{CC : CipherConfig}.
Context `{BR : BinaryReader} `{TR : Transport} `{SS : SessionSort} `{RB : Rebuilding} `{CS : ClientSizes} `{SZ : SocketSizes}.
Context `{MP : MultiPoll}.

(** [sizeof(memcached_analysis_st)] *)
Definition sizeof_analysis : Z := sizeof_ulong + 5 * 4 + 8 + 8 + 8 + (sizeof_ulong - 4).

(** [memc_stat] is the array of [memcached_stat], one element per server. Memory is requested for
    as many results as there are servers, and the first of them is written to. *)
Definition memcached_analyze (memc_stat : option (list Stat)) : SIO (memcached_return_t * option memcached_analysis_st) :=
  match memc_stat with
  | None => ret (MEMCACHED_SUCCESS, None)
  | Some l =>
    let* n := sconf memcached_server_count in
    let* granted := at_root (alloc (ulong (n * sizeof_analysis))) in
    if negb granted then ret (MEMCACHED_MEMORY_ALLOCATION_FAILURE, None) else
    if (n =? 0) || (Z.of_nat (List.length l) <? n) then stuck Undefined else
    let '(t, r) := analyze_loop 0 (take (Z.to_nat n) l) (mkTotals 0 0 0 0) new_analysis in
    ret (MEMCACHED_SUCCESS, Some (calc_hit_ratio (total_get_hits t) (total_get_cmds t)
                                    (calc_average_item_size (total_items t) (total_bytes t) r)))
  end.

(** ** verbosity.cc *)

(** A client of its own for each server; [births k] is what the [k]-th finds, and [locals] are the
    clients, with the bytes that went over their connections. *)
Definition _set_verbosity (births : nat -> Birth) (vector : list cstring) (server : Server) (locals : list Session)
    : outcome (memcached_return_t * list Session) :=
  let b := births (List.length locals) in
  let '(o, s) := (
    let* rc := memcached_server_add b (Some (_hostname (fst server))) (port_ (fst server)) in
    let* rc :=
      if negb (rc_eqb rc MEMCACHED_SUCCESS) then ret rc else
      at_instance 0 (
        let* rc := memcached_vdo vector true in
        if rc_eqb rc MEMCACHED_SUCCESS then memcached_response_root MEMCACHED_DEFAULT_COMMAND_SIZE else ret rc) in
    memcached_free ;;; ret rc) (new_session b) in
  let? rc := o in Ret (rc, locals ++ [s]).

(** A 32-bit number always fits the array. *)
Definition memcached_verbosity (births : nat -> Birth) (verbosity : Z) : SIO (memcached_return_t * list Session) :=
  let* rc := initialize_query false in
  if memcached_failed rc then ret (rc, []) else
  let number := to_string (u32 verbosity) in
  if MEMCACHED_DEFAULT_COMMAND_SIZE <=? size number
  then let* rc := refuse MEMCACHED_MEMORY_ALLOCATION_FAILURE in ret (rc, []) else
  fun s => (memcached_server_cursor s [_set_verbosity births [[]; lit "verbosity "; number; CRLF]] [], s).

(** ** dump.cc *)

Section Dump.
Context {A : Type}.
Context (callback : list (cstring -> A -> memcached_return_t * A)).

(** The functions for one key, up to the first that does not succeed, and its code. *)
Fixpoint dump_calls (l : list (cstring -> A -> memcached_return_t * A)) (key : cstring) (context : A) : option memcached_return_t * A :=
  match l with
  | [] => (None, context)
  | f :: l =>
    let '(rc, context) := f key context in
    if rc_eqb rc MEMCACHED_SUCCESS then dump_calls l key context else (Some rc, context)
  end.

(** The key behind "ITEM " and the array with the null character behind it. *)
Definition dump_key (buffer : cstring) : outcome (cstring * cstring) :=
  let? stop := skip_while isgraph buffer 5 in
  let? buffer' := poke buffer stop zero in
  Ret (take (stop - 5) (drop 5 buffer), buffer').

(** One response: [inl] is the code with which the call returns. *)
Definition dump_response (buffer : cstring) (context : A) : IO (memcached_return_t + cstring * A) :=
  let* r := getr result in
  let* x := memcached_response_into buffer MEMCACHED_DEFAULT_COMMAND_SIZE r in
  let '(response_rc, buffer, r) := x in
  on_root (set_result r) ;;;
  match response_rc with
  | MEMCACHED_ITEM =>
    let* y := lift (dump_key buffer) in
    let '(rc, context) := dump_calls callback (fst y) context in
    (match rc with Some rc => let* _ := memcached_set_error rc in ret tt | None => ret tt end) ;;;
    ret (inr (snd y, context))
  | MEMCACHED_END => ret (inr (buffer, context))
  | MEMCACHED_SERVER_ERROR | MEMCACHED_CLIENT_ERROR | MEMCACHED_ERROR =>
    assert_io (rc_eqb response_rc MEMCACHED_SUCCESS) ;;; ret (inl response_rc)
  | _ => ret (inl response_rc)
  end.

(** Until no server owes a response; each round takes one. *)
Fixpoint dump_collect (fuel : nat) (buffer : cstring) (context : A) : SIO (option memcached_return_t * A) :=
  let* server := memcached_io_get_readable_server in
  match server with
  | None => ret (None, context)
  | Some k =>
    match fuel with
    | O => stuck OutOfFuel
    | S fuel =>
      let* x := at_instance k (dump_response buffer context) in
      match x with
      | inl rc => ret (Some rc, context)
      | inr (buffer, context) => dump_collect fuel buffer context
      end
    end
  end.

(** The number of a class always fits its array. The request to all servers, up to the first that cannot be reached. *)
Fixpoint dump_send (n : nat) (k : Z) (vector : list cstring) : SIO (option memcached_return_t) :=
  match n with
  | O => ret None
  | S n =>
    let* rc := at_instance k (memcached_vdo vector true) in
    if memcached_success rc then dump_send n (k + 1) vector else ret (Some rc)
  end.

Definition MAX_NUMBER_OF_SLAB_CLASSES : nat := 200.

Fixpoint dump_classes (n : nat) (x : Z) (context : A) : SIO (memcached_return_t * A) :=
  match n with
  | O =>
    let* current := sroot memcached_has_current_error in
    ret (if current : bool then MEMCACHED_SOME_ERRORS else MEMCACHED_SUCCESS, context)
  | S n =>
    let number := to_string x in
    let* count := sconf (fun m => List.length (servers m)) in
    let* sent := dump_send count 0 [lit "stats cachedump "; number; lit " 0" ++ CRLF] in
    match sent with
    | Some rc => ret (rc, context)
    | None =>
      let* fuel := gets (fun s => fetch_fuel (ses_insts s)) in
      let* y := dump_collect (S fuel) (number ++ [zero]) context in
      match y with
      | (Some rc, context) => ret (rc, context)
      | (None, context) => dump_classes n (x + 1) context
      end
    end
  end.

Definition ascii_dump (context : A) : SIO (memcached_return_t * A) := dump_classes MAX_NUMBER_OF_SLAB_CLASSES 0 context.

Definition memcached_dump (context : A) : SIO (memcached_return_t * A) :=
  let* rc := initialize_query true in
  if memcached_failed rc then ret (rc, context) else
  let* binary := sconf (fun m => binary_protocol (flags m)) in
  if binary : bool then let* rc := refuse MEMCACHED_NOT_SUPPORTED in ret (rc, context) else
  ascii_dump context.
End Dump.

(** ** [memcached_fetch_execute] of fetch.cc *)

Section Execute.
Context {A : Type}.
Context (callback : list (Result -> A -> memcached_return_t * A)).

(** The functions for one result, up to the first that fails. *)
Fixpoint execute_calls (l : list (Result -> A -> memcached_return_t * A)) (r : Result) (context : A) : option memcached_return_t * A :=
  match l with
  | [] => (None, context)
  | f :: l =>
    let '(rc, context) := f r context in
    if memcached_failed rc then (Some rc, context) else execute_calls l r context
  end.

Definition report (rc : memcached_return_t) : SIO unit := let* _ := refuse rc in ret tt.

Fixpoint execute_loop (fuel : nat) (some_errors : bool) (context : A) : SIO (memcached_return_t * A) :=
  let* x := memcached_fetch_result in
  let '(found, rc) := x in
  if negb found then
    ret (if some_errors then MEMCACHED_SOME_ERRORS else if memcached_success rc then MEMCACHED_SUCCESS else rc, context)
  else
  match fuel with
  | O => stuck OutOfFuel
  | S fuel =>
    if rc_eqb rc MEMCACHED_NOTFOUND then execute_loop fuel some_errors context else
    if memcached_failed rc then report rc ;;; execute_loop fuel true context else
    let* r := sroot result in
    match execute_calls callback r context with
    | (Some ret_rc, context) => report ret_rc ;;; execute_loop fuel true context
    | (None, context) => execute_loop fuel some_errors context
    end
  end.

(** Every result is a response. *)
Definition memcached_fetch_execute (context : A) : SIO (memcached_return_t * A) :=
  let* fuel := gets (fun s => fetch_fuel (ses_insts s)) in execute_loop (S fuel) false context.
End Execute.

(** ** libmemcachedutil *)

(** The reason behind MEMCACHED_SOME_ERRORS: the last error of the only server, or
    MEMCACHED_SUCCESS when it has none. *)
Definition specific_error (rc : memcached_return_t) : SIO memcached_return_t :=
  if rc_eqb rc MEMCACHED_SOME_ERRORS then at_instance 0 (geti memcached_instance_error_return) else ret rc.

(** The functions run on a new client. *)
Definition libmemcached_util_ping (b : Birth) (hostname : option cstring) (port : Z) : SIO (bool * memcached_return_t) :=
  let* created := memcached_create false in
  if negb created then ret (false, MEMCACHED_MEMORY_ALLOCATION_FAILURE) else
  let* rc := memcached_behavior_set MEMCACHED_BEHAVIOR_CONNECT_TIMEOUT 400000 in
  let* rc :=
    if negb (memcached_success rc) then ret rc else
    let* rc := memcached_server_add b hostname port in
    let* rc := if memcached_success rc then memcached_version else ret rc in
    specific_error rc in
  memcached_free ;;; ret (memcached_success rc, rc).

(** SASL is not compiled in. *)
Definition libmemcached_util_ping2 (b : Birth) (hostname : option cstring) (port : Z) (username : option cstring)
    : SIO (bool * memcached_return_t) :=
  match username with
  | None => libmemcached_util_ping b hostname port
  | Some _ => ret (false, MEMCACHED_NOT_SUPPORTED)
  end.

(** [memcached_stat_servername] of stats.cc; the structure is cleared. *)
Definition memcached_stat_servername (b : Birth) (args : option cstring) (hostname : option cstring) (port : Z)
    : SIO (memcached_return_t * Stat) :=
  let stat := put_pid 0 new_Stat in
  let* rc := memcached_server_add b hostname port in
  if memcached_failed rc then memcached_free ;;; ret (rc, stat) else
  let* rc := initialize_query true in
  let* binary := sconf (fun m => binary_protocol (flags m)) in
  let rc := match args with
            | Some a => if memcached_success rc then memcached_validate_key_length (size a) binary else rc
            | None => rc
            end in
  let* x :=
    if memcached_success rc then
      let* y := at_instance 0 (stats_fetch (default [] args) (mkCollected (Some stat) None)) in
      ret (fst y, default stat (col_stat (snd y)))
    else ret (rc, stat) in
  memcached_free ;;; ret x.

(** The process that the statistics name; -1 is none. *)
Definition pid_of (stat : option (list Stat)) : Z := match stat with Some (s :: _) => stat_pid s | _ => -1 end.

Definition libmemcached_util_getpid (b : Birth) (hostname : option cstring) (port : Z) : SIO (Z * memcached_return_t) :=
  let* created := memcached_create false in
  if negb created then ret (-1, MEMCACHED_MEMORY_ALLOCATION_FAILURE) else
  let* rc := memcached_server_add b hostname port in
  let* x :=
    if negb (memcached_success rc) then ret (-1, rc) else
    let* y := memcached_stat None in
    let '(rc, stat) := y in
    if memcached_success rc && negb (pid_of stat =? -1) then ret (pid_of stat, rc) else
    if memcached_success rc then ret (-1, MEMCACHED_UNKNOWN_STAT_KEY) else
    let* rc := specific_error rc in ret (-1, rc) in
  memcached_free ;;; ret x.

Definition libmemcached_util_getpid2 (b : Birth) (hostname : option cstring) (port : Z) (username : option cstring)
    : SIO (Z * memcached_return_t) :=
  match username with
  | None => libmemcached_util_getpid b hostname port
  | Some _ => ret (-1, MEMCACHED_NOT_SUPPORTED)
  end.

(** Without a client [memcached_server_add] refuses the null pointer, and there is none to free. *)
Definition libmemcached_util_flush (b : Birth) (hostname : option cstring) (port : Z) : SIO (bool * memcached_return_t) :=
  let* created := memcached_create false in
  if negb created then ret (false, MEMCACHED_INVALID_ARGUMENTS) else
  let* rc := memcached_server_add b hostname port in
  let* rc := if memcached_success rc then memcached_flush 0 else ret rc in
  memcached_free ;;; ret (memcached_success rc, rc).

(** The three numbers are compared one by one. *)
Definition check_server_version (wanted : Z * Z * Z) (server : Server) (truth : bool) : outcome (memcached_return_t * bool) :=
  let '(major, minor, micro) := versions (snd server) in
  let '(major', minor', micro') := wanted in
  Ret (if negb (major =? 255) && (major' <=? major) && (minor' <=? minor) && (micro' <=? micro)
       then (MEMCACHED_SUCCESS, truth) else (MEMCACHED_FAILURE, false)).

Definition libmemcached_util_version_check (major_version minor_version micro_version : Z) : SIO bool :=
  let* rc := memcached_version in
  if memcached_failed rc then ret false else
  fun s =>
    (let? x := memcached_server_cursor s [check_server_version (major_version, minor_version, micro_version)] true in
     Ret (snd x), s).
End Control.

(** ** flag.cc *)

Inductive memcached_flag_t :=
  | MEMCACHED_FLAG_AUTO_EJECT_HOSTS
  | MEMCACHED_FLAG_BINARY_PROTOCOL
  | MEMCACHED_FLAG_BUFFER_REQUESTS
  | MEMCACHED_FLAG_HASH_WITH_NAMESPACE
  | MEMCACHED_FLAG_NO_BLOCK
  | MEMCACHED_FLAG_REPLY
  | MEMCACHED_FLAG_RANDOMIZE_REPLICA_READ
  | MEMCACHED_FLAG_SUPPORT_CAS
  | MEMCACHED_FLAG_TCP_NODELAY
  | MEMCACHED_FLAG_USE_SORT_HOSTS
  | MEMCACHED_FLAG_USE_UDP
  | MEMCACHED_FLAG_VERIFY_KEY
  | MEMCACHED_FLAG_TCP_KEEPALIVE
  | MEMCACHED_FLAG_IS_AES
  | MEMCACHED_FLAG_IS_FETCHING_VERSION.

(** The flags, and [is_aes], which nothing else looks at. [memcached_is_cas] and
    [memcached_set_cas] of is.h stand for [reply]. *)
Record Flags := mkAllFlags { client_flags : flags_st; is_aes : bool }.

Definition memcached_flag (m : Flags) (flag : memcached_flag_t) : bool :=
  let f := client_flags m in
  match flag with
  | MEMCACHED_FLAG_AUTO_EJECT_HOSTS => auto_eject_hosts f
  | MEMCACHED_FLAG_BINARY_PROTOCOL => binary_protocol f
  | MEMCACHED_FLAG_BUFFER_REQUESTS => buffer_requests f
  | MEMCACHED_FLAG_HASH_WITH_NAMESPACE => hash_with_namespace f
  | MEMCACHED_FLAG_NO_BLOCK => no_block f
  | MEMCACHED_FLAG_REPLY => reply f
  | MEMCACHED_FLAG_RANDOMIZE_REPLICA_READ => randomize_replica_read f
  | MEMCACHED_FLAG_SUPPORT_CAS => reply f
  | MEMCACHED_FLAG_TCP_NODELAY => tcp_nodelay f
  | MEMCACHED_FLAG_USE_SORT_HOSTS => use_sort_hosts f
  | MEMCACHED_FLAG_USE_UDP => use_udp f
  | MEMCACHED_FLAG_VERIFY_KEY => verify_key f
  | MEMCACHED_FLAG_TCP_KEEPALIVE => use_sort_hosts f
  | MEMCACHED_FLAG_IS_AES => is_aes m
  | MEMCACHED_FLAG_IS_FETCHING_VERSION => is_fetching_version f
  end.

Definition memcached_flag_set (m : Flags) (flag : memcached_flag_t) (arg : bool) : Flags :=
  let put (g : bool -> flags_st -> flags_st) := mkAllFlags (g arg (client_flags m)) (is_aes m) in
  match flag with
  | MEMCACHED_FLAG_AUTO_EJECT_HOSTS => put put_auto_eject_hosts
  | MEMCACHED_FLAG_BINARY_PROTOCOL => put put_binary_protocol
  | MEMCACHED_FLAG_BUFFER_REQUESTS => put put_buffer_requests
  | MEMCACHED_FLAG_HASH_WITH_NAMESPACE => put put_hash_with_namespace
  | MEMCACHED_FLAG_NO_BLOCK => put put_no_block
  | MEMCACHED_FLAG_REPLY => put put_reply
  | MEMCACHED_FLAG_RANDOMIZE_REPLICA_READ => put put_randomize_replica_read
  | MEMCACHED_FLAG_SUPPORT_CAS => put put_reply
  | MEMCACHED_FLAG_TCP_NODELAY => put put_tcp_nodelay
  | MEMCACHED_FLAG_USE_SORT_HOSTS => put put_use_sort_hosts
  | MEMCACHED_FLAG_USE_UDP => put put_use_udp
  | MEMCACHED_FLAG_VERIFY_KEY => put put_verify_key
  | MEMCACHED_FLAG_TCP_KEEPALIVE => put put_use_sort_hosts
  | MEMCACHED_FLAG_IS_AES => mkAllFlags (client_flags m) arg
  | MEMCACHED_FLAG_IS_FETCHING_VERSION => put put_is_fetching_version
  end.

(** ** callback.cc *)

Inductive memcached_callback_t :=
  | MEMCACHED_CALLBACK_PREFIX_KEY
  | MEMCACHED_CALLBACK_USER_DATA
  | MEMCACHED_CALLBACK_CLEANUP_FUNCTION
  | MEMCACHED_CALLBACK_CLONE_FUNCTION
  | MEMCACHED_CALLBACK_GET_FAILURE
  | MEMCACHED_CALLBACK_DELETE_TRIGGER
  | MEMCACHED_CALLBACK_MAX.

(** A [void *]: null, a C string, or anything else, with its address. *)
Inductive pointer := NULL | CString (s : cstring) | Object (address : Z).
#[export] Instance pointer_eq_dec : EqDecision pointer.
Proof. solve_decision. Defined.

(** The members of the client that callback.cc alone sets. *)
Record Callbacks := mkCallbacks {
  user_data : pointer;
  on_cleanup : pointer;
  on_clone : pointer;
  get_key_failure : pointer;
  delete_trigger : pointer;
}.

Section Callback.
Context `{DM : DataModel} `{HC : HashConfig} `{AL : Allocator} `{CF : ClientConfig} `{CK : Clock} `{CC : CipherConfig}.
Context `{BR : BinaryReader} `{TR : Transport} `{SS : SessionSort} `{RB : Rebuilding} `{CS : ClientSizes} `{SZ : SocketSizes}.

Definition on_client {A} (m : SIO A) : ST (Session * Callbacks) A := fun s =>
  let '(o, s') := m (fst s) in (o, (s', snd s)).
Definition on_callbacks (f : Callbacks -> Callbacks) : ST (Session * Callbacks) unit := modify (fun s => (fst s, f (snd s))).

(** A null pointer for the prefix takes it away; an object that is no string has no length. *)
Definition memcached_callback_set (flag : memcached_callback_t) (data : pointer) : ST (Session * Callbacks) memcached_return_t :=
  match flag with
  | MEMCACHED_CALLBACK_PREFIX_KEY =>
    match data with
    | NULL => on_client (memcached_set_namespace None)
    | CString s => on_client (memcached_set_namespace (Some s))
    | Object _ => stuck Undefined
    end
  | MEMCACHED_CALLBACK_USER_DATA =>
    on_callbacks (fun c => mkCallbacks data (on_cleanup c) (on_clone c) (get_key_failure c) (delete_trigger c)) ;;;
    ret MEMCACHED_SUCCESS
  | MEMCACHED_CALLBACK_CLEANUP_FUNCTION =>
    on_callbacks (fun c => mkCallbacks (user_data c) data (on_clone c) (get_key_failure c) (delete_trigger c)) ;;;
    ret MEMCACHED_SUCCESS
  | MEMCACHED_CALLBACK_CLONE_FUNCTION =>
    on_callbacks (fun c => mkCallbacks (user_data c) (on_cleanup c) data (get_key_failure c) (delete_trigger c)) ;;;
    ret MEMCACHED_SUCCESS
  | MEMCACHED_CALLBACK_GET_FAILURE =>
    on_callbacks (fun c => mkCallbacks (user_data c) (on_cleanup c) (on_clone c) data (delete_trigger c)) ;;;
    ret MEMCACHED_SUCCESS
  | MEMCACHED_CALLBACK_DELETE_TRIGGER =>
    let* refused :=
      if bool_decide (data = NULL) then ret false else
      let* buffering := on_client (memcached_behavior_get MEMCACHED_BEHAVIOR_BUFFER_REQUESTS) in
      if negb (buffering =? 0) then ret true else
      let* noreply := on_client (memcached_behavior_get MEMCACHED_BEHAVIOR_NOREPLY) in
      ret (negb (noreply =? 0)) in
    if refused : bool then on_client (refuse MEMCACHED_INVALID_ARGUMENTS) else
    on_callbacks (fun c => mkCallbacks (user_data c) (on_cleanup c) (on_clone c) (get_key_failure c) data) ;;;
    ret MEMCACHED_SUCCESS
  | MEMCACHED_CALLBACK_MAX => on_client (refuse MEMCACHED_INVALID_ARGUMENTS)
  end.

(** The pointer and the code. *)
Definition memcached_callback_get (flag : memcached_callback_t) : ST (Session * Callbacks) (pointer * memcached_return_t) :=
  let member (f : Callbacks -> pointer) :=
    gets (fun s => (f (snd s), if bool_decide (f (snd s) = NULL) then MEMCACHED_FAILURE else MEMCACHED_SUCCESS)) in
  match flag with
  | MEMCACHED_CALLBACK_PREFIX_KEY =>
    gets (fun s => let n := _namespace (memc (ses_root (fst s))) in
                   (if bool_decide (n = []) then NULL else CString n, MEMCACHED_SUCCESS))
  | MEMCACHED_CALLBACK_USER_DATA => member user_data
  | MEMCACHED_CALLBACK_CLEANUP_FUNCTION => member on_cleanup
  | MEMCACHED_CALLBACK_CLONE_FUNCTION => member on_clone
  | MEMCACHED_CALLBACK_GET_FAILURE => member get_key_failure
  | MEMCACHED_CALLBACK_DELETE_TRIGGER => member delete_trigger
  | MEMCACHED_CALLBACK_MAX => lift (assert_msg false) ;;; ret (NULL, MEMCACHED_FAILURE)
  end.
End Callback.
