(* ===== verification/ClientPoolSettings.v ===== *)
(** * Settings of the clients of a pool

    What a successful [memcached_behavior_set] does to the settings, as a function; that a clone
    has the settings of its source; and that the clients of a pool follow its master. *)

From stdpp Require Import base list gmap.
From Stdlib Require Import ZArith Lia Ascii String.
From S2P Require Import Prelude CxxString HashWords HashSmall HashKit HashkitString Rijndael Aes Continuum ClientTypes Distribution.
From S2P Require Import ByteOrder ClientString ClientState BinaryProtocol ClientRead ClientBinary ClientWrite ClientConnect ClientOps.
From S2P Require Import ClientBehavior ClientClone ClientPool ClientPoolSpec ClientFrame ClientFrameOps TheoremsBehavior.

(** The settings that behaviours change; the key prefix and the key of the cipher are not among
    them. [poll_timeout] is changed by [memcached_purge] for a while. *)
Definition tunables (m : Memcached)
    : flags_st * memcached_server_distribution_t * (hashkit_function_st * hashkit_function_st) * limits_st :=
  (flags m, distribution m, (base_hash (hashkit m), distribution_hash (hashkit m)), put_poll_timeout 0 (limits m)).

Record same_tunables (m m' : Memcached) : Prop := { same_eq : tunables m = tunables m' }.
#[export] Instance same_tunables_equivalence : Equivalence same_tunables.
Proof. split; [by intros ?|by intros ? ? []|intros ? ? ? [] []; split; congruence]. Qed.

Lemma settings_tunables m m' : settings m = settings m' -> same_tunables m m'.
Proof.
  unfold settings. intros E. split. unfold tunables. rewrite !pair_equal_spec in E. destruct E as [[[[-> ->] ->] ->] _]. done.
Qed.

(** ** Setting as a function *)

Section After.
Context `{DM : DataModel} `{HC : HashConfig}.

Definition after_distribution (d : memcached_server_distribution_t) (m : Memcached) : Memcached := with_distribution m d.
Definition after_key_hash (a : memcached_hash_t) (m : Memcached) : Memcached := with_hashkit m (snd (hashkit_set_function (hashkit m) a)).
Definition after_distribution_hash (a : memcached_hash_t) (m : Memcached) : Memcached :=
  with_hashkit m (snd (hashkit_set_distribution_function (hashkit m) a)).
Definition after_flags (f : flags_st -> flags_st) (m : Memcached) : Memcached := with_flags m (f (flags m)).
Definition after_limits (f : limits_st -> limits_st) (m : Memcached) : Memcached := with_limits m (f (limits m)).

Definition after_set (flag : memcached_behavior_t) (data : Z) (m : Memcached) : Memcached :=
  match flag_behavior flag, number_behavior flag with
  | Some (put, _), _ => after_flags (put (truth data)) m
  | _, Some (put, cast, _) => after_limits (put (cast data)) m
  | None, None =>
  match flag with
  | MEMCACHED_BEHAVIOR_REMOVE_FAILED_SERVERS =>
    after_limits (put_server_failure_limit (u32 data)) (after_flags (put_auto_eject_hosts (truth data)) m)
  | MEMCACHED_BEHAVIOR_SERVER_FAILURE_LIMIT => after_limits (put_server_failure_limit (u32 data)) m
  | MEMCACHED_BEHAVIOR_BINARY_PROTOCOL =>
    after_flags (put_binary_protocol (truth data)) (if truth data then after_flags (put_verify_key false) m else m)
  | MEMCACHED_BEHAVIOR_BUFFER_REQUESTS => after_flags (put_buffer_requests (truth data)) m
  | MEMCACHED_BEHAVIOR_USE_UDP =>
    let m := after_flags (put_use_udp (truth data)) m in
    if truth data then after_flags (put_buffer_requests false) (after_flags (put_reply false) m)
    else after_flags (put_reply true) m
  | MEMCACHED_BEHAVIOR_DISTRIBUTION => after_distribution (distribution_of data) m
  | MEMCACHED_BEHAVIOR_KETAMA =>
    after_distribution (if truth data then MEMCACHED_DISTRIBUTION_CONSISTENT_KETAMA else MEMCACHED_DISTRIBUTION_MODULA) m
  | MEMCACHED_BEHAVIOR_KETAMA_WEIGHTED =>
    if negb (truth data) then after_distribution MEMCACHED_DISTRIBUTION_CONSISTENT_KETAMA m else
    after_distribution MEMCACHED_DISTRIBUTION_CONSISTENT_WEIGHTED
      (after_distribution_hash HASHKIT_HASH_MD5 (after_key_hash HASHKIT_HASH_MD5 m))
  | MEMCACHED_BEHAVIOR_HASH => after_key_hash (algorithm_of data) m
  | MEMCACHED_BEHAVIOR_KETAMA_HASH => after_distribution_hash (algorithm_of data) m
  | MEMCACHED_BEHAVIOR_VERIFY_KEY => after_flags (put_verify_key (truth data)) m
  | MEMCACHED_BEHAVIOR_SORT_HOSTS => after_flags (put_use_sort_hosts (truth data)) m
  | MEMCACHED_BEHAVIOR_RETRY_TIMEOUT => after_limits (put_retry_timeout (int32 data)) m
  | MEMCACHED_BEHAVIOR_NOREPLY => after_flags (put_reply (negb (truth data))) m
  | _ => m
  end
  end.

(** The new settings follow from the old ones. *)

Lemma same_intro m m' : flags m = flags m' -> distribution m = distribution m' ->
  base_hash (hashkit m) = base_hash (hashkit m') -> distribution_hash (hashkit m) = distribution_hash (hashkit m') ->
  put_poll_timeout 0 (limits m) = put_poll_timeout 0 (limits m') -> same_tunables m m'.
Proof. intros. split. unfold tunables. congruence. Qed.

Lemma same_elim m m' : same_tunables m m' -> flags m = flags m' /\ distribution m = distribution m' /\
  base_hash (hashkit m) = base_hash (hashkit m') /\ distribution_hash (hashkit m) = distribution_hash (hashkit m') /\
  put_poll_timeout 0 (limits m) = put_poll_timeout 0 (limits m').
Proof. intros [E]. revert E. unfold tunables. rewrite !pair_equal_spec. tauto. Qed.

(** A limit that is put on limits that agree but for [poll_timeout]. *)
Definition poll_blind (f : limits_st -> limits_st) : Prop :=
  forall l, put_poll_timeout 0 (f l) = put_poll_timeout 0 (f (put_poll_timeout 0 l)).

#[export] Instance after_flags_proper f : Proper (same_tunables ==> same_tunables) (after_flags f).
Proof. intros m m' (Hf & ? & ? & ? & ?)%same_elim. apply same_intro; cbn; congruence. Qed.
#[export] Instance after_distribution_proper d : Proper (same_tunables ==> same_tunables) (after_distribution d).
Proof. intros m m' (Hf & ? & ? & ? & ?)%same_elim. apply same_intro; cbn; congruence. Qed.
#[export] Instance after_key_hash_proper a : Proper (same_tunables ==> same_tunables) (after_key_hash a).
Proof.
  intros m m' (Hf & Hd & Hb & Hh & Hl)%same_elim. unfold after_key_hash, hashkit_set_function. rewrite Hb.
  destruct (_set_function _ a). by apply same_intro.
Qed.
#[export] Instance after_distribution_hash_proper a : Proper (same_tunables ==> same_tunables) (after_distribution_hash a).
Proof.
  intros m m' (Hf & Hd & Hb & Hh & Hl)%same_elim. unfold after_distribution_hash, hashkit_set_distribution_function. rewrite Hh.
  destruct (_set_function _ a). by apply same_intro.
Qed.
Lemma after_limits_proper f m m' : poll_blind f -> same_tunables m m' -> same_tunables (after_limits f m) (after_limits f m').
Proof.
  intros Hf (? & ? & ? & ? & Hl)%same_elim. apply same_intro; try done. cbn. by rewrite Hf, Hl, <- Hf.
Qed.

#[export] Instance after_set_proper flag data : Proper (same_tunables ==> same_tunables) (after_set flag data).
Proof.
  intros m m' E. unfold after_set. destruct (flag_behavior flag) as [[p q]|] eqn:Hf; [by rewrite E|].
  destruct (number_behavior flag) as [[[p c] q]|] eqn:Hn.
  { apply after_limits_proper; [|done]. destruct flag; cbn in Hn; try done; by injection Hn as <- <- <-. }
  destruct flag; try done; try (apply after_limits_proper; [done|]); try (destruct (truth data); cbn [negb]); by rewrite E.
Qed.
End After.

(** ** What a successful call leaves *)

Section Success.
Context `{DM : DataModel} `{HC : HashConfig} `{AL : Allocator} `{CF : ClientConfig} `{CK : Clock} `{CC : CipherConfig}.
Context `{FR : FrameReader} `{FT : FrameTransport} `{FK : FrameRouter} `{FQ : FrameRequests}.
Context `{SS : SessionSort} `{FB : FrameRebuilding} `{SZ : SocketSizes}.

Abbreviation memc_of s := (memc (ses_root s)).

Definition keeps_tunables {A} (m : SIO A) : Prop := forall s, same_tunables (memc_of (snd (m s))) (memc_of s).

Lemma tunables_frame {A} (m : SIO A) : keeps_all m -> keeps_tunables m.
Proof using Type. intros Hm s. apply settings_tunables, Hm. Qed.

(** A change and then something that keeps the settings. *)
Lemma change_then {A} g (k : SIO A) s a s' : keeps_tunables k -> (on_memc g ;;; k) s = (Ret a, s') ->
  same_tunables (memc_of s') (g (memc_of s)).
Proof using Type.
  intros Hk. unfold bind, on_memc, on_sroot, modify. cbn [ses_root ses_insts]. intros E.
  specialize (Hk (mkSession (set_memc (g (memc_of s)) (ses_root s)) (ses_insts s))). rewrite E in Hk. exact Hk.
Qed.

Lemma refuse_unsuccessful rc s rc' s' : rc = MEMCACHED_INVALID_ARGUMENTS \/ rc = MEMCACHED_DEPRECATED ->
  refuse rc s = (Ret rc', s') -> memcached_success rc' = true -> False.
Proof using Type. intros Hrc E. apply refuse_rc in E as ->; [|done]. by destruct Hrc as [->| ->]. Qed.

Lemma tunables_run : keeps_tunables run_distribution_session.
Proof using FB. apply tunables_frame, all_distribution_run. Qed.
Lemma tunables_ret {A} (a : A) : keeps_tunables (ret a).
Proof using Type. by intros s. Qed.

Lemma set_distribution_after d s rc s' : memcached_behavior_set_distribution d s = (Ret rc, s') -> memcached_success rc = true ->
  same_tunables (memc_of s') (after_distribution d (memc_of s)).
Proof using FB.
  unfold memcached_behavior_set_distribution. intros E Hrc.
  destruct d; try (by exfalso; eapply refuse_unsuccessful, Hrc; [left; reflexivity|exact E]);
    apply bind_returns in E as ([] & s1 & E1 & E); apply change_then in E; [|apply tunables_run|..|apply tunables_run];
    try apply tunables_run; rewrite E; injection E1 as <-; by apply same_intro.
Qed.

Lemma set_key_hash_after a s rc s' : memcached_behavior_set_key_hash a s = (Ret rc, s') ->
  same_tunables (memc_of s') (after_key_hash a (memc_of s)).
Proof using Type.
  unfold memcached_behavior_set_key_hash, after_key_hash. unfold bind at 1, sconf, gets. destruct (hashkit_set_function _ a) as [r h].
  intros E. apply change_then in E; [done|]. destruct (hashkit_success r); [apply tunables_ret|].
  apply tunables_frame, all_at_root. auto with frame.
Qed.
Lemma set_distribution_hash_after a s rc s' : memcached_behavior_set_distribution_hash a s = (Ret rc, s') ->
  same_tunables (memc_of s') (after_distribution_hash a (memc_of s)).
Proof using Type.
  unfold memcached_behavior_set_distribution_hash, after_distribution_hash. unfold bind at 1, sconf, gets.
  destruct (hashkit_set_distribution_function _ a) as [r h].
  intros E. apply change_then in E; [done|]. destruct (hashkit_success r); [apply tunables_ret|].
  apply tunables_frame, all_at_root. auto with frame.
Qed.

Lemma quit_then {A} (k : SIO A) s a s' : (send_quit ;;; k) s = (Ret a, s') ->
  exists s1, same_tunables (memc_of s1) (memc_of s) /\ k s1 = (Ret a, s').
Proof using FR FT.
  intros E. apply bind_returns in E as ([] & s1 & E1 & E). exists s1. split; [|done].
  pose proof (all_send_quit s) as H. rewrite E1 in H. by apply settings_tunables.
Qed.

Ltac refused E Hrc := exfalso; eapply refuse_unsuccessful, Hrc; [|exact E]; (left; reflexivity) || (right; reflexivity).

(** A call that succeeds has changed the settings as [after_set] says. *)
Lemma behavior_set_after flag data s rc s' : memcached_behavior_set flag data s = (Ret rc, s') -> memcached_success rc = true ->
  same_tunables (memc_of s') (after_set flag data (memc_of s)).
Proof using FR FT FB.
  unfold memcached_behavior_set, after_set. intros E Hrc.
  destruct (flag_behavior flag) as [[p q]|] eqn:Hf; [apply change_then in E; [done|apply tunables_frame, all_quit_if]|].
  destruct (number_behavior flag) as [[[p c] q]|] eqn:Hn; [apply change_then in E; [done|apply tunables_frame, all_quit_if]|].
  destruct flag; try done; try (by refused E Hrc); try (by eapply set_distribution_after); try (by eapply set_key_hash_after);
    try (by eapply set_distribution_hash_after).
  - (* BUFFER_REQUESTS *) unfold bind at 1, sconf, gets in E. destruct (use_udp _); [refused E Hrc|].
    apply change_then in E; [done|]. apply tunables_frame, all_bind; [apply all_send_quit|done].
  - (* SORT_HOSTS *) by apply change_then in E; [|apply tunables_run].
  - (* VERIFY_KEY *) unfold bind at 1, sconf, gets in E. destruct (binary_protocol _); [refused E Hrc|].
    by apply change_then in E; [|apply tunables_ret].
  - (* RETRY_TIMEOUT *) destruct (data =? 0); [refused E Hrc|]. by apply change_then in E; [|apply tunables_ret].
  - (* KETAMA_WEIGHTED *) destruct (negb (truth data)); [by eapply set_distribution_after|].
    apply bind_returns in E as (r1 & s1 & E1%set_key_hash_after & E).
    apply bind_returns in E as (r2 & s2 & E2%set_distribution_hash_after & E).
    apply set_distribution_after in E; [|done]. by rewrite E, E2, E1.
  - (* BINARY_PROTOCOL *) apply quit_then in E as (s1 & Hs & E). apply bind_returns in E as ([] & s2 & E1 & E).
    apply change_then in E; [|apply tunables_ret]. destruct (truth data); rewrite <- Hs, E; by injection E1 as <-.
  - (* SERVER_FAILURE_LIMIT *) unfold set_failure_limit in E. destruct (data =? 0); [refused E Hrc|].
    by apply change_then in E; [|apply tunables_ret].
  - (* NOREPLY *) unfold bind at 1, sconf, gets in E. destruct (use_udp _ && _); [refused E Hrc|].
    by apply change_then in E; [|apply tunables_ret].
  - (* USE_UDP *) apply quit_then in E as (s1 & Hs & E). destruct (truth data); rewrite <- Hs; by injection E as _ <-.
  - (* REMOVE_FAILED_SERVERS *) apply bind_returns in E as ([] & s1 & E1 & E). injection E1 as <-.
    unfold set_failure_limit in E. destruct (data =? 0); [refused E Hrc|]. by apply change_then in E; [|apply tunables_ret].
  - (* MAX *) apply bind_returns in E as ([] & s1 & E1 & E). refused E Hrc.
Qed.

(** ** Clones *)

Context `{CS : ClientSizes}.

Lemma tunables_bind {A B} (m : SIO A) (k : A -> SIO B) : keeps_tunables m -> (forall a, keeps_tunables (k a)) -> keeps_tunables (bind m k).
Proof using Type.
  intros Hm Hk s. unfold bind. specialize (Hm s). destruct (m s) as [[a|e|f] s1]; [|done..]. by rewrite (Hk a s1).
Qed.
Lemma tunables_modify f : (forall s, same_tunables (memc_of (f s)) (memc_of s)) -> keeps_tunables (modify f).
Proof using Type. intros H s. apply H. Qed.
Lemma tunables_refuse rc : keeps_tunables (refuse rc).
Proof using Type. apply tunables_frame, all_at_root. auto with frame. Qed.

Ltac kept := repeat match goal with
  | |- keeps_tunables (bind _ _) => apply tunables_bind; [|intros]
  | |- keeps_tunables (ret _) => apply tunables_ret
  | |- keeps_tunables (refuse _) => apply tunables_refuse
  | |- keeps_tunables run_distribution_session => apply tunables_run
  | |- keeps_tunables (modify _) => apply tunables_modify; intros; by apply same_intro
  | |- keeps_tunables (on_memc _) => apply tunables_modify; intros; by apply same_intro
  | |- keeps_tunables (on_sroot _) => apply tunables_modify; intros; by apply same_intro
  | |- keeps_tunables (match ?x with _ => _ end) => destruct x
  | |- keeps_tunables (let _ := _ in _) => cbv zeta
  | _ => by intros ?
  | |- keeps_tunables (at_root _) => apply tunables_frame, all_at_root; auto with frame
  end.

Lemma tunables_create_servers b hosts : keeps_tunables (create_servers b hosts).
Proof using Type.
  induction hosts as [|[h i] hosts IH]; cbn [create_servers]; [apply tunables_ret|].
  apply tunables_bind; [unfold instance_create_with; kept|]. intros []; kept.
Qed.
Lemma tunables_push b source : keeps_tunables (memcached_push b source).
Proof using FB. unfold memcached_push, instance_push. kept. apply tunables_create_servers. Qed.
Lemma tunables_array n : keeps_tunables (memcached_array_clone n).
Proof using Type. unfold memcached_array_clone. kept. Qed.

Lemma hashkit_clone_same h n x n' : hashkit_clone true (Some h) n = (Ret x, n') ->
  exists h', x = Some h' /\ base_hash h' = base_hash h /\ distribution_hash h' = distribution_hash h.
Proof using Type.
  cbn [hashkit_clone]. intros E. apply bind_returns in E as (o & n1 & E1 & E). injection E1 as <- <-.
  apply bind_returns in E as (k & n2 & E2 & E). injection E as <- <-. eauto.
Qed.

(** A clone has the settings and the version of its source. *)
Lemma clone_tunables b h h' : memcached_clone b None (Some h) = Ret (Some h') ->
  same_tunables (memc_of (session h')) (memc_of (session h)) /\ configure_version h' = configure_version h.
Proof using FB.
  unfold memcached_clone. cbn [default bool_decide].
  destruct (clone_into b _ (session h) (new_session b)) as [[[]|e|f] s'] eqn:E; [|done..]. cbn. intros [= <-]. split; [|done]. cbn.
  unfold clone_into in E. apply bind_returns in E as (c & s1 & _ & E). destruct c; [|done]. cbn [negb] in E.
  apply bind_returns in E as ([] & s2 & E2 & E). injection E2 as <-.
  apply bind_returns in E as (k & s3 & E3 & E). unfold at_root, with_allocs in E3. cbn [root] in E3.
  destruct (hashkit_clone true _ _) as [[x|?|?] n] eqn:Eh; [|done..]. injection E3 as <- <-.
  apply hashkit_clone_same in Eh as (k' & -> & Hb & Hd).
  assert (forall A (m : SIO A) s x s', keeps_tunables m -> m s = (Ret x, s') -> same_tunables (memc_of s') (memc_of s)) as Hstep.
  { intros A m u x u1 Hm Hu. specialize (Hm u). by rewrite Hu in Hm. }
  apply bind_returns in E as ([] & s4 & E4 & E). injection E4 as <-.
  apply bind_returns in E as (rc & s5 & E5 & E). destruct (memcached_failed rc); [done|].
  apply Hstep in E5; [|kept; apply tunables_push].
  apply bind_returns in E as (n6 & s6 & E6%Hstep & E); [|apply tunables_array].
  apply bind_returns in E as ([] & s7 & E7%Hstep & E); [|kept].
  apply bind_returns in E as (n8 & s8 & E8%Hstep & E); [|apply tunables_array].
  apply bind_returns in E as ([] & s9 & E9%Hstep & E); [|kept].
  apply bind_returns in E as (rc' & s10 & E10%Hstep & E); [|apply tunables_run].
  destruct (memcached_failed rc'); [by apply bind_returns in E as (? & ? & _ & ?)|]. injection E as <-.
  rewrite E10, E9, E8, E7, E6, E5. by apply same_intro.
Qed.

(** ** Reading a behaviour *)

Lemma all_kernel_buffer n : keeps_all (kernel_buffer n).
Proof using FR FT.
  assert (keeps tick) as Htick by (by intros c). pose proof keeps_connect as Hconn.
  pose proof (keeps_io_wait_write _ keeps_purge) as Hwait. unfold kernel_buffer. frame_all.
Qed.
Lemma all_behavior_get flag : keeps_all (memcached_behavior_get flag).
Proof using FR FT.
  unfold memcached_behavior_get. apply all_bind; [done|]. intros m. cbv zeta.
  destruct flag; try apply all_kernel_buffer; frame_all. apply all_at_root. auto with frame.
Qed.
End Success.

(** ** The clients of a pool follow its master *)

(** The free objects, and whether all of them have the pool's version: an older one is there when
    a clone could not be made for it. *)
Definition free_objects (p : Pool) : list nat := omap id (take (Z.to_nat (firstfree p + 1)) (server_pool p)).
Definition none_stale (p : Pool) : bool :=
  forallb (fun o => match objects p !! o with Some h => compare_version h p | None => false end) (free_objects p).

Lemma free_objects_inv fs ls p : pool_inv fs ls p -> free_objects p = fs.
Proof.
  intros H. pose proof (inv_room _ _ _ H) as Hroom. unfold free_objects.
  rewrite (pi_first _ _ _ H), Z.sub_add, Nat2Z.id.
  assert (take (List.length fs) (server_pool p) = map Some fs) as ->.
  { apply list_eq_same_length with (List.length fs); rewrite ?length_map, ?length_take; [lia|lia|].
    intros i x y Hi Hx Hy. rewrite lookup_take_lt in Hx by lia. rewrite list_lookup_fmap in Hy.
    destruct (fs !! i) as [o|] eqn:Ho; [|done]. cbn in Hy. rewrite (pi_free _ _ _ H _ _ Ho) in Hx. congruence. }
  clear. induction fs as [|o fs IH]; [done|]. cbn. by rewrite IH.
Qed.

Section Following.
Context `{DM : DataModel} `{HC : HashConfig} `{AL : Allocator} `{CF : ClientConfig} `{CK : Clock} `{CC : CipherConfig}.
Context `{FR : FrameReader} `{FT : FrameTransport}.
Context `{SS : SessionSort} `{FB : FrameRebuilding} `{SZ : SocketSizes} `{CS : ClientSizes} `{BS : Births}.

Abbreviation memc_of h := (memc (ses_root (session h))).

(** An object is not newer than the pool, and has the settings of the master when it is as new. *)
Definition follows (h : Handle) (p : Pool) : Prop :=
  configure_version h <= version p
  /\ (configure_version h = version p -> same_tunables (memc_of h) (memc_of (pool_master p))).
Definition synced (p : Pool) : Prop := forall o h, objects p !! o = Some h -> follows h p.

Lemma synced_change p p' : pool_master p' = pool_master p ->
  (forall o h, objects p' !! o = Some h -> objects p !! o = Some h \/ follows h p) -> synced p -> synced p'.
Proof using Type.
  intros Hm Hin Hp o h Ho. assert (follows h p) as Hf by (destruct (Hin _ _ Ho) as [?|?]; [by eapply Hp|done]).
  unfold follows, version in *. by rewrite Hm.
Qed.

Lemma lookup_insert_cases {A} (m : gmap nat A) i j x y : <[i := x]> m !! j = Some y -> (m !! j = Some y /\ i <> j) \/ (y = x /\ i = j).
Proof using Type. rewrite lookup_insert_Some. naive_solver. Qed.

(** A clone of the master, whatever version it is given. *)
Lemma clone_follows b h p v : memcached_clone b None (Some (pool_master p)) = Ret (Some h) -> v <= version p ->
  follows (put_version v h) p.
Proof using FB. intros Hc Hv. split; [done|]. intros _. by apply clone_tunables in Hc as [? _]. Qed.
Lemma clone_follows_self b h p : memcached_clone b None (Some (pool_master p)) = Ret (Some h) -> follows h p.
Proof using FB.
  intros Hc. apply clone_tunables in Hc as [? Hv]. split; [unfold version; lia|done].
Qed.

Lemma synced_grown h p : memcached_clone (birth (clones p)) None (Some (pool_master p)) = Ret (Some h) ->
  synced p -> synced (grown h p).
Proof using FB.
  intros Hc. apply synced_change; [done|]. intros o x Ho. cbn in Ho.
  apply lookup_insert_cases in Ho as [[Ho _]|[-> _]]; [|right; apply (clone_follows _ _ p _ Hc); reflexivity].
  apply lookup_insert_cases in Ho as [[Ho _]|[-> _]]; [by left|right]. by eapply clone_follows_self.
Qed.

Lemma synced_fetch fs ls b p x p' : counted fs ls p -> 0 < pool_size p -> fetch_loop 2 b p = (Ret x, p') ->
  synced p -> synced p'.
Proof using FB.
  intros Hc Hpos E Hp. pose proof (fetch_spec _ _ _ _ _ _ Hc Hpos E) as H.
  destruct x as [[o|] rc|].
  - destruct H as (fs' & _ & _ & [[_ ->]|(_ & _ & _ & h & Hh & ->)]); [done|]. by apply synced_grown in Hh.
  - destruct H as (_ & [-> | ->]); done.
  - by destruct H as (_ & -> & _).
Qed.

Lemma synced_release o p n p1 : kept o p n p1 -> synced p -> synced (pushed n p1).
Proof using FB.
  intros [(h & _ & _ & -> & ->)|[[-> ->]|(h & Hc & -> & ->)]] Hp; [done|done|].
  revert Hp. apply synced_change; [done|]. intros x y Hx. cbn in Hx. apply lookup_delete_Some in Hx as [_ Hx].
  apply lookup_insert_cases in Hx as [[Hx _]|[-> _]]; [by left|right]. by eapply clone_follows_self.
Qed.

(** The objects that the loop has still to visit: older, with the settings of the old master. *)
Definition waiting (m : Memcached) (fs : list nat) (p : Pool) : Prop :=
  forall o h, o ∈ fs -> objects p !! o = Some h -> configure_version h < version p /\ same_tunables (memc_of h) m.

Lemma synced_update m fs1 o fs2 ls flag data p p' : pool_inv (fs1 ++ o :: fs2) ls p ->
  update_clone flag data (Z.of_nat (List.length fs1)) p = (Ret tt, p') ->
  same_tunables (memc_of (pool_master p)) (after_set flag data m) ->
  waiting m (o :: fs2) p -> synced p -> synced p' /\ waiting m fs2 p'.
Proof using FR FT FB.
  intros Hi E Hm Hw Hp. destruct (update_clone_spec _ _ _ _ _ _ _ _ Hi E) as (h & rc & s & Ho & Hs & Hcase).
  destruct (Hw o h ltac:(left) Ho) as [Hold Hsame].
  assert (o ∉ fs2) as Hnin.
  { pose proof (pi_nodup _ _ _ Hi) as Hn. apply NoDup_app in Hn as (Hn & _). apply NoDup_app in Hn as (_ & _ & Hn). by apply NoDup_cons in Hn as [? _]. }
  assert (forall x, x ∈ fs2 -> x ∈ o :: fs2) as Hin by (intros; by right).
  assert (forall x, x ∈ fs2 -> x <> o /\ (x < next_object p)%nat) as Hx.
  { intros x Hx. split; [by intros ->|]. apply (pi_next _ _ _ Hi), elem_of_app. left. apply elem_of_app. right. by right. }
  destruct Hcase as [[Hrc ->]|[[Hrc ->]|(Hrc & h' & Hc & ->)]]; split.
  - revert Hp. apply synced_change; [done|]. intros x y Hy. cbn in Hy.
    apply lookup_insert_cases in Hy as [[Hy _]|[-> _]]; [by left|right]. split; [done|]. intros _. cbn.
    apply behavior_set_after in Hs; [|done]. by rewrite Hs, Hsame, Hm.
  - intros x y Hxin Hy. cbn in Hy. rewrite lookup_insert_ne in Hy by (by destruct (Hx x Hxin)). by apply (Hw x y); [right|].
  - revert Hp. apply synced_change; [done|]. intros x y Hy. cbn in Hy.
    apply lookup_insert_cases in Hy as [[Hy _]|[-> _]]; [by left|right]. split; cbn; lia.
  - intros x y Hxin Hy. cbn in Hy. rewrite lookup_insert_ne in Hy by (by destruct (Hx x Hxin)). by apply (Hw x y); [right|].
  - revert Hp. apply synced_change; [done|]. intros x y Hy. cbn in Hy. apply lookup_delete_Some in Hy as [_ Hy].
    apply lookup_insert_cases in Hy as [[Hy _]|[-> _]]; [|right; by eapply clone_follows_self].
    apply lookup_insert_cases in Hy as [[Hy _]|[-> _]]; [by left|right]. split; cbn; lia.
  - intros x y Hxin Hy. cbn in Hy. apply lookup_delete_Some in Hy as [Hne Hy]. destruct (Hx x Hxin) as [_ Hlt].
    rewrite lookup_insert_ne in Hy by lia. rewrite lookup_insert_ne in Hy by done. by apply (Hw x y); [right|].
Qed.

Lemma synced_updates m flag data ls n : forall fs1 fs2 p p', List.length fs2 = n -> counted (fs1 ++ fs2) ls p ->
  update_clones n flag data (Z.of_nat (List.length fs1)) p = (Ret tt, p') ->
  same_tunables (memc_of (pool_master p)) (after_set flag data m) -> waiting m fs2 p -> synced p -> synced p'.
Proof using FR FT FB.
  induction n as [|n IH]; intros fs1 fs2 p p' Hlen Hc E Hm Hw Hp; cbn [update_clones] in E.
  - by injection E as <-.
  - destruct fs2 as [|o fs2]; [done|]. injection Hlen as Hlen. apply bind_returns in E as ([] & p1 & E1 & E).
    destruct (counted_update _ _ _ _ _ _ _ _ Hc E1) as (o' & Hc1 & _ & _ & _ & Hmm).
    destruct (synced_update _ _ _ _ _ _ _ _ _ (proj1 Hc) E1 Hm Hw Hp) as [Hp1 Hw1].
    replace (Z.of_nat (List.length fs1) + 1) with (Z.of_nat (List.length (fs1 ++ [o']))) in E by (rewrite length_app; cbn; lia).
    rewrite cons_middle, (assoc_L (++)) in Hc1. eapply (IH (fs1 ++ [o']) fs2); try done. by rewrite Hmm.
Qed.

(** Of a step that is taken: the threads do not change the settings of the clients they have, a
    call of [memcached_pool_behavior_set] that fails has not changed the master (some do, before
    they fail), and no clone was missing. *)
Definition clean_step (a : action) (w w' : World) : Prop :=
  none_stale (pool w') = true /\
  match a with
  | AUse _ calls => keeps_tunables calls
  | ASet _ _ => version (pool w') = version (pool w) + 1
      \/ same_tunables (memc_of (pool_master (pool w'))) (memc_of (pool_master (pool w)))
  | _ => True
  end.

Inductive clean_run : World -> World -> Prop :=
  | clean_nil w : clean_run w w
  | clean_cons a w w1 w' : perform a w = Some w1 -> clean_step a w w1 -> clean_run w1 w' -> clean_run w w'.

Definition following (w : World) : Prop := world_ok w /\ synced (pool w) /\ none_stale (pool w) = true.

Lemma synced_master h p : configure_version h = version p -> same_tunables (memc_of h) (memc_of (pool_master p)) ->
  synced p -> synced (put_master h p).
Proof using Type.
  intros Hv Hm Hp o x Ho. destruct (Hp _ _ Ho) as [Hle Hsame]. unfold follows, version in *. cbn. rewrite Hv.
  split; [done|]. intros E. by rewrite Hm, Hsame.
Qed.

Lemma synced_set w flag data x p' : following w -> memcached_pool_behavior_set false flag data (pool w) = (Ret x, p') ->
  version p' = version (pool w) + 1 \/ same_tunables (memc_of (pool_master p')) (memc_of (pool_master (pool w))) ->
  synced p'.
Proof using FR FT FB.
  intros ((fs & Hc & _ & _) & Hp & Hfresh) E Hclean.
  destruct (behavior_set_spec _ _ _ _ _ E) as (s & Hs & [[_ ->]|[Hok Hu]]).
  - apply synced_master; [done| |done]. destruct Hclean as [Hv|Hm]; [unfold version in Hv; cbn in Hv; lia|done].
  - rewrite (pi_first _ _ _ (proj1 Hc)), Z.sub_add, Nat2Z.id in Hu.
    eapply (synced_updates (memc_of (pool_master (pool w))) flag data (lent w) (List.length fs) [] fs); [done| |exact Hu|..].
    + by apply counted_master.
    + cbn. eapply behavior_set_after; [exact Hs|]. revert Hok. clear. destruct x; done.
    + intros o h Ho Hh. unfold none_stale in Hfresh. rewrite (free_objects_inv _ _ _ (proj1 Hc)), forallb_forall in Hfresh.
      specialize (Hfresh o (proj1 (list_elem_of_In _ _) Ho)). cbn in Hh. rewrite Hh in Hfresh. apply Z.eqb_eq in Hfresh.
      destruct (Hp o h Hh) as [_ Hsame]. split; [|by apply Hsame].
      change (version (master_set s (pool w))) with (version (pool w) + 1). lia.
    + intros o h Ho. cbn in Ho. destruct (Hp o h Ho) as [Hle _]. unfold follows.
      change (version (master_set s (pool w))) with (version (pool w) + 1). split; [lia|]. intros Heq. exfalso. lia.
Qed.

Lemma perform_synced a w w' : following w -> perform a w = Some w' -> clean_step a w w' -> synced (pool w').
Proof using FR FT FB.
  intros Hw E Hclean. pose proof Hw as ((fs & Hc & Hpos & _) & Hp & _). revert E Hclean.
  destruct a as [t le b|t|t|t e|o|flag data|flag|o calls]; cbn [perform].
  - destruct (decide _); [done|]. destruct (fetch le b (pool w)) as [[x|?|?] p'] eqn:E; [|done..]. intros [= <-] _.
    assert (synced p') by (unfold fetch in E; destruct le; [by injection E as <- <-|by eapply synced_fetch]).
    by destruct x as [[]|].
  - destruct (decide _); [|done]. destruct (fetch_resume None (pool w)) as [[x|?|?] p'] eqn:E; [|done..]. intros [= <-] _.
    assert (synced p') by (by eapply synced_fetch). by destruct x as [[]|].
  - destruct (decide _); [|done]. by intros [= <-].
  - destruct (decide _); [|done]. destruct (fetch_resume (Some e) (pool w)) as [[x|?|?] p'] eqn:E; [|done..]. intros [= <-] _.
    assert (exists rc, x = Returns None rc /\ p' = pool w) as (rc & -> & ->); [|done].
    unfold fetch_resume in E. destruct e; injection E as <- <-; eauto.
  - destruct (decide _); [|done]. destruct (release false (Some o) (pool w)) as [[[[b rc] br]|?|?] p'] eqn:E; [|done..].
    intros [= <-] _. apply release_spec in E as (n & p1 & Hk & -> & _). by destruct br; eapply synced_release.
  - destruct (memcached_pool_behavior_set false flag data (pool w)) as [[x|?|?] p'] eqn:E; [|done..]. intros [= <-] [_ Hcl].
    by eapply synced_set.
  - destruct (memcached_pool_behavior_get false flag (pool w)) as [[x|?|?] p'] eqn:E; [|done..]. intros [= <-] _.
    apply bind_returns in E as (v & p1 & (s & Hs & ->)%at_master_spec & E). injection E as <- <-.
    apply synced_master; [done| |done]. pose proof (all_behavior_get flag (session (pool_master (pool w)))) as Hk.
    rewrite Hs in Hk. by apply settings_tunables.
  - destruct (decide _); [|done]. destruct (at_object o calls (pool w)) as [[x|?|?] p'] eqn:E; [|done..]. intros [= <-] [_ Hk].
    apply at_object_spec in E as (h & s & Ho & Hs & ->). revert Hp. apply synced_change; [done|]. intros y z Hy. cbn in Hy.
    apply lookup_insert_cases in Hy as [[Hy _]|[-> _]]; [by left|right]. specialize (Hk (session h)). rewrite Hs in Hk. cbn in Hk.
    destruct Hw as (_ & Hp & _). destruct (Hp o h Ho) as [? Hsame]. split; [done|]. intros Hv. cbn. by rewrite Hk, Hsame.
Qed.

Lemma clean_following w w' : following w -> clean_run w w' -> following w'.
Proof using FR FT FB.
  intros Hw Hr. induction Hr as [|a w w1 w' E Hc Hr IH]; [done|]. apply IH. split; [|split].
  - eapply perform_ok, E. apply Hw.
  - by eapply perform_synced.
  - apply Hc.
Qed.

Lemma init_synced n : forall p p', (forall o h, objects p !! o = Some h -> follows h p /\ configure_version h = version p) ->
  init_loop n p = (Ret tt, p') -> forall o h, objects p' !! o = Some h -> follows h p' /\ configure_version h = version p'.
Proof using FB.
  induction n as [|n IH]; intros p p' Hp E; cbn [init_loop] in E; [by injection E as <-|].
  apply bind_returns in E as (b & p1 & Hg & E).
  apply grow_pool_spec in Hg as [[-> ->]|(h & Hh & _ & -> & ->)]; [by injection E as <-|]. revert E. apply IH.
  intros o x Hx. split.
  - revert o x Hx. apply (synced_grown h p Hh). intros o x Hx. by apply Hp in Hx as [? _].
  - cbn in Hx. apply lookup_insert_cases in Hx as [[Hx Hne]|[-> _]]; [|done].
    apply lookup_insert_cases in Hx as [[Hx _]|[_ <-]]; [by apply Hp in Hx as [_ ?]|]. cbn in Hne. lia.
Qed.

Lemma create_following memory granted master initial max p : 0 <= initial -> max <= INT_MAX + 1 ->
  _pool_create memory granted master initial max = Ret (Some p) -> following (new_world p).
Proof using FB.
  intros Hi Hm E. pose proof (create_ok _ _ _ _ _ _ Hi Hm E) as Hw.
  assert (forall o h, objects p !! o = Some h -> follows h p /\ configure_version h = version p) as Hp.
  { revert E. unfold _pool_create. destruct (_ || _); [done|]. destruct (negb memory); [done|]. unfold init.
    destruct (negb granted); [done|]. unfold bind at 1, modify.
    destruct ((init_loop _ ;;; _) _) as [[ok|?|?] p1] eqn:E; cbn [obind]; [|done..].
    apply bind_returns in E as ([] & p2 & E & E2). injection E2 as <- <-. intros [= <-].
    eapply init_synced, E. intros o h Ho. cbn in Ho. by rewrite lookup_empty in Ho. }
  split; [done|]. split; [intros o h Ho; by apply Hp in Ho as [? _]|].
  destruct Hw as (fs & (H & _) & _). cbn [pool new_world] in H |- *. unfold none_stale. rewrite (free_objects_inv _ _ _ H), forallb_forall.
  intros o Ho%list_elem_of_In. destruct (objects p !! o) as [h|] eqn:Eo.
  - apply Z.eqb_eq. by apply Hp in Eo as [_ ?].
  - assert (is_Some (objects p !! o)) as [? ?] by (apply (pi_dom _ _ _ H), elem_of_app; by left). congruence.
Qed.

(** A client that is fetched has the settings of the master. *)
Lemma fetched_follows w t b w' o : following w -> perform (AFetch t false b) w = Some w' -> lent w' = o :: lent w ->
  exists h, objects (pool w') !! o = Some h /\ same_tunables (memc_of h) (memc_of (pool_master (pool w'))).
Proof using FB.
  intros ((fs & Hc & Hpos & _) & Hp & Hfresh). cbn [perform]. destruct (decide _); [done|].
  destruct (fetch false b (pool w)) as [[x|?|?] p'] eqn:E; [|done..]. intros [= <-] Hl. cbn in E.
  pose proof (fetch_spec _ _ _ _ _ _ Hc Hpos E) as H.
  destruct x as [[o'|] rc|]; [|exfalso; cbn in Hl; apply (f_equal List.length) in Hl; cbn in Hl; lia..].
  injection Hl as ->. destruct H as (fs' & _ & _ & [[-> ->]|(_ & _ & -> & h & Hh & ->)]); cbn.
  - unfold none_stale in Hfresh. rewrite (free_objects_inv _ _ _ (proj1 Hc)), forallb_forall in Hfresh.
    specialize (Hfresh o). destruct (objects (pool w) !! o) as [h|] eqn:Ho; cbn [objects] in *.
    + exists h. split; [done|]. apply (Hp o h Ho). apply Z.eqb_eq, Hfresh, list_elem_of_In, elem_of_app. right. by left.
    + exfalso. assert (false = true) by (apply Hfresh, list_elem_of_In, elem_of_app; right; by left). done.
  - rewrite Nat.sub_0_r, lookup_insert_eq. eexists. split; [done|]. cbn. by apply clone_tunables in Hh as [? _].
Qed.
End Following.
