(* ===== verification/TheoremsPool.v ===== *)
(** * Theorems about the pool of clients *)

From stdpp Require Import base list gmap.
From Stdlib Require Import ZArith Lia Ascii String.
From S2P Require Import Prelude CxxString HashWords HashSmall HashKit HashkitString Rijndael Aes Continuum ClientTypes Distribution.
From S2P Require Import ByteOrder ClientString ClientState BinaryProtocol ClientRead ClientBinary ClientWrite ClientConnect ClientOps.
From S2P Require Import ClientBinaryOps ClientBehavior ClientClone ClientPool ClientPoolSpec ClientFrame ClientFrameOps DemoClient.
From S2P Require Import TheoremsBehavior ClientPoolSettings.

Section Pools.
Context `{DM : DataModel} `{HC : HashConfig} `{AL : Allocator} `{CF : ClientConfig} `{CK : Clock} `{CC : CipherConfig}.
Context `{FR : FrameReader} `{FT : FrameTransport}.
Context `{SS : SessionSort} `{FB : FrameRebuilding} `{SZ : SocketSizes} `{CS : ClientSizes} `{BS : Births}.
Context (memory granted : bool) (master : Handle) (initial max : Z) (p : Pool).
Context (Hinitial : 0 <= initial) (Hmax : max <= INT_MAX + 1).
Context (Hcreated : memcached_pool_create memory granted master initial max = Ret (Some p)).

(** C7. No client is in two hands: in every interleaving of the calls of any threads on a pool of at
    most [max] clients, the clients that are free and the ones that are lent are all different,
    they are all the clients there are (none is lost or freed while a thread has it), their number
    is counted and at most [max], a release of a lent client finds its place in the array, and a
    thread waits only while all [max] clients are lent: no wake-up is lost. *)
Theorem pool_safe l w : run_threads l (new_world p) = Some w ->
  let q := pool w in
  NoDup (free_objects q ++ lent w)
  /\ (forall o, is_Some (objects q !! o) <-> o ∈ free_objects q ++ lent w)
  /\ current_size q = Z.of_nat (List.length (free_objects q) + List.length (lent w)) /\ current_size q <= max
  /\ (lent w <> [] -> 0 <= firstfree q + 1 < Z.of_nat (List.length (server_pool q)))
  /\ (asleep w <> [] -> free_objects q = [] /\ Z.of_nat (List.length (lent w)) = max).
Proof using Hinitial Hmax Hcreated.
  intros Hrun q. destruct (run_ok _ _ _ (create_ok _ _ _ _ _ _ Hinitial Hmax Hcreated) Hrun) as (fs & (H & Hn & Hle) & _ & Hs).
  assert (pool_size q = max) as Hsize by (unfold q; rewrite (run_size _ _ _ (create_ok _ _ _ _ _ _ Hinitial Hmax Hcreated) Hrun); apply (create_size _ _ _ _ _ _ Hinitial Hmax Hcreated)).
  fold q in H, Hn, Hle, Hs. rewrite (free_objects_inv _ _ _ H). rewrite Hsize in Hle, Hs.
  pose proof (pi_size _ _ _ H) as Hlen. pose proof (pi_first _ _ _ H) as Hfirst.
  split; [apply (pi_nodup _ _ _ H)|]. split; [apply (pi_dom _ _ _ H)|]. split; [done|]. split; [done|]. split.
  - intros Hne. assert (List.length (lent w) <> 0%nat) by (by destruct (lent w)). lia.
  - intros Hne. destruct (Hs Hne) as [-> Hfull]. split; [done|]. cbn in Hn. lia.
Qed.

(** C9. Fetching: the client that was released last is handed out; without a free one a new clone of
    the master, as long as there are fewer than [max]; then the call waits, or says at once that
    there is none. It always comes to an end: it makes at most one clone, and can only be stuck
    where [memcached_clone] is. When no clone can be made it returns a null pointer with
    MEMCACHED_SUCCESS. *)
Theorem pool_fetch l w b : run_threads l (new_world p) = Some w ->
  let q := pool w in
  fetch false b q =
  match last (free_objects q) with
  | Some o => (Ret (Returns (Some o) MEMCACHED_SUCCESS), popped q)
  | None =>
    if current_size q =? max then (Ret (if b then Waits else Returns None MEMCACHED_NOTFOUND), q) else
    match memcached_clone (birth (clones q)) None (Some (pool_master q)) with
    | Ret (Some h) => (Ret (Returns (Some (next_object q)) MEMCACHED_SUCCESS), popped (grown h q))
    | Ret None => (Ret (Returns None MEMCACHED_SUCCESS), count_clone q)
    | Throw e => (Throw e, count_clone q)
    | Stuck f => (Stuck f, count_clone q)
    end
  end.
Proof using Hinitial Hmax Hcreated.
  intros Hrun q. destruct (run_ok _ _ _ (create_ok _ _ _ _ _ _ Hinitial Hmax Hcreated) Hrun) as (fs & Hc & Hpos & _).
  assert (pool_size q = max) as Hsize by (unfold q; rewrite (run_size _ _ _ (create_ok _ _ _ _ _ _ Hinitial Hmax Hcreated) Hrun); apply (create_size _ _ _ _ _ _ Hinitial Hmax Hcreated)).
  fold q in Hc, Hpos. rewrite (free_objects_inv _ _ _ (proj1 Hc)). unfold fetch.
  destruct fs as [|o fs _] using rev_ind.
  - cbn [last]. destruct (Z.eqb_spec (current_size q) max) as [Hfull|Hroom].
    + apply (fetch_full (lent w)); [apply Hc|by rewrite Hsize].
    + apply (fetch_grow (lent w)); [apply Hc|done|by rewrite Hsize].
  - rewrite last_snoc. apply (fetch_free fs o (lent w)), Hc.
Qed.

End Pools.

(** ** The statements at concrete inputs *)

#[local] Existing Instance ILP32.
#[local] Existing Instance demo_hash.
#[local] Existing Instance demo_memory.
#[local] Existing Instance demo_build.
#[local] Existing Instance demo_clock.
#[local] Existing Instance demo_cipher.
#[local] Existing Instance demo_random_source.
#[local] Existing Instance demo_resolver.
#[local] Existing Instance demo_rebuilding.
#[local] Existing Instance demo_redistribution.
#[local] Existing Instance demo_sizes.
#[local] Existing Instance demo_session_sort.

#[local] Instance demo_rebuilding_frame : FrameRebuilding (RB := demo_rebuilding).
Proof. apply rebuilding_frame. Qed.
#[local] Instance demo_redistribution_frame : FrameRedistribution (RD := demo_redistribution).
Proof. apply redistribution_frame. Qed.

Definition demo_client_sizes : ClientSizes := {| sizeof_memcached_st := 1000; sizeof_Instance := 17500; sizeof_memcached_array_st := 8 |}.
Definition demo_births : Births := {| birth := fun n => mkBirth 0 n E_OK (fun _ => replicate 16 zero) (fun _ => []) |}.
#[local] Existing Instance demo_client_sizes.
#[local] Existing Instance demo_births.

Definition demo_master : Handle := mkHandle new_client (-1).
Definition demo_pool : Pool :=
  match memcached_pool_create true true demo_master 1 2 with Ret (Some p) => p | _ => new_pool demo_master 2 end.
Lemma demo_created : memcached_pool_create true true demo_master 1 2 = Ret (Some demo_pool).
Proof. vm_compute. reflexivity. Qed.

(** Three threads and two clients: the third one waits. *)
Definition demo_threads : list action := [AFetch 1 false true; AFetch 2 false true; AFetch 3 false true].
Definition demo_world : World := default (new_world demo_pool) (run_threads demo_threads (new_world demo_pool)).

Lemma pool_safe_witness : asleep demo_world <> [] /\ free_objects (pool demo_world) = [] /\ Z.of_nat (List.length (lent demo_world)) = 2.
Proof.
  assert (asleep demo_world <> []) as Hne by (vm_compute; discriminate). split; [exact Hne|].
  destruct (pool_safe true true demo_master 1 2 demo_pool ltac:(vm_compute; discriminate) ltac:(vm_compute; discriminate)
    demo_created demo_threads demo_world) as (_ & _ & _ & _ & _ & H).
  { vm_compute. reflexivity. }
  exact (H Hne).
Defined.

Lemma pool_fetch_witness : fetch false false (pool demo_world) = (Ret (Returns None MEMCACHED_NOTFOUND), pool demo_world).
Proof.
  rewrite (pool_fetch true true demo_master 1 2 demo_pool ltac:(vm_compute; discriminate) ltac:(vm_compute; discriminate)
    demo_created demo_threads demo_world false).
  - vm_compute. reflexivity.
  - vm_compute. reflexivity.
Defined.

(** A client is lent, a behaviour set, and the client released: a clone takes its place. *)
Definition demo_actions : list action :=
  [AFetch 1 false true; ASet MEMCACHED_BEHAVIOR_NO_BLOCK 1; AUse 0%nat memcached_quit; ARelease 0%nat].
Definition demo_after (n : nat) : World := default (new_world demo_pool) (run_threads (take n demo_actions) (new_world demo_pool)).
Definition demo_fetched : World := default (new_world demo_pool) (perform (AFetch 2 false false) (demo_after 4)).

Lemma demo_clean_run : clean_run (new_world demo_pool) (demo_after 4).
Proof.
  apply (clean_cons (AFetch 1 false true) _ (demo_after 1)); [vm_compute; reflexivity|split; [vm_compute; reflexivity|exact I]|].
  apply (clean_cons (ASet MEMCACHED_BEHAVIOR_NO_BLOCK 1) _ (demo_after 2));
    [vm_compute; reflexivity|split; [vm_compute; reflexivity|left; vm_compute; reflexivity]|].
  apply (clean_cons (AUse 0%nat memcached_quit) _ (demo_after 3)); [vm_compute; reflexivity|split; [vm_compute; reflexivity|]|].
  { apply tunables_frame, all_quit. }
  apply (clean_cons (ARelease 0%nat) _ (demo_after 4)); [vm_compute; reflexivity|split; [vm_compute; reflexivity|exact I]|].
  apply clean_nil.
Qed.

