(* ===== verification/TheoremsControl.v ===== *)
(** * Theorems about the control of servers

    The analysis of statistics, flags, callbacks, versions and dumps of ClientControl, and the
    places where these functions do not do what they are for. *)

From stdpp Require Import base list.
From Stdlib Require Import ZArith Lia Ascii String SpecFloat.
From S2P Require Import Prelude CxxString HashWords HashSmall HashKit HashkitString Rijndael Aes Continuum ClientTypes Distribution.
From S2P Require Import ByteOrder ClientString ClientState BinaryProtocol ClientRead ClientWrite ClientConnect ClientOps ClientGet.
From S2P Require Import ClientReadSpec ClientWriteSpec ClientBehavior ClientClone ClientAdmin ClientStats ClientServers ClientControl.
From S2P Require Import ClientFrameOps ClientStatsSpec ClientBinary ClientBinaryOps DemoClient TheoremsBehavior TheoremsPool.

(** ** The analysis *)

(** [who] is the first server with the largest value of [f], which is [best]; before any server
    has a value above 0, both are 0. *)
Definition leader (f : Stat -> Z) (l : list Stat) (best who : Z) : Prop :=
  (forall i s, l !! i = Some s -> f s <= best)
  /\ ((best = 0 /\ who = 0)
      \/ (0 < best /\ 0 <= who /\ (exists s, l !! Z.to_nat who = Some s /\ f s = best)
          /\ forall i s, Z.of_nat i < who -> l !! i = Some s -> f s < best)).

Lemma leader_nil f : leader f [] 0 0.
Proof. split; [intros i s; by rewrite lookup_nil|by left]. Qed.

Lemma leader_keeps f l best who s : leader f l best who -> f s <= best -> leader f (l ++ [s]) best who.
Proof.
  intros [Hle Hw] Hs. split.
  - intros i t [Hi|[_ Hi]]%lookup_app_Some; [by eapply Hle|]. apply list_lookup_singleton_Some in Hi as [_ <-]. done.
  - destruct Hw as [?|(Hb & H0 & (t & Ht & Hf) & Hlt)]; [by left|right]. split; [done|]. split; [done|]. split.
    + exists t. split; [by apply lookup_app_l_Some|done].
    + intros i u Hi [Hu|[Hge _]]%lookup_app_Some; [by eapply Hlt|]. apply lookup_lt_Some in Ht. lia.
Qed.

Lemma leader_moves f l best who s : leader f l best who -> 0 <= best < f s -> leader f (l ++ [s]) (f s) (Z.of_nat (List.length l)).
Proof.
  intros [Hle _] Hs. split.
  - intros i t [Hi|[_ Hi]]%lookup_app_Some; [apply Hle in Hi; lia|]. apply list_lookup_singleton_Some in Hi as [_ <-]. done.
  - right. split; [lia|]. split; [lia|]. rewrite Nat2Z.id. split.
    + exists s. split; [by apply list_lookup_middle|done].
    + intros i t Hi [Ht|[Hge _]]%lookup_app_Some; [apply Hle in Ht; lia|lia].
Qed.

Lemma leader_best f l best who : leader f l best who -> 0 <= best.
Proof. intros [_ [[-> _]|(? & _)]]; lia. Qed.

(** What is left of the memory of a server. *)
Definition remaining (s : Stat) : Z := stat_limit_maxbytes s - stat_bytes s.

(** The structure after the servers [l]. *)
Record analysis_of (l : list Stat) (r : memcached_analysis_st) : Prop := {
  an_bytes : leader stat_bytes l (most_used_bytes r) (most_consumed_server r);
  an_uptime : leader (fun s => u32 (stat_uptime s)) l (longest_uptime r) (oldest_server r);
  an_free : leader (fun s => 2 ^ 64 - remaining s) l
              (if least_remaining_bytes r =? 0 then 0 else 2 ^ 64 - least_remaining_bytes r) (least_free_server r);
  an_least : 0 <= least_remaining_bytes r < 2 ^ 64;
}.

(** A server with memory left, and numbers in their ranges. *)
Definition server_with_room (s : Stat) : Prop := 0 < remaining s /\ 0 <= stat_bytes s /\ stat_limit_maxbytes s < 2 ^ 64.

Lemma analysis_new : analysis_of [] new_analysis.
Proof. split; [apply leader_nil..|done]. Qed.

Lemma step_bytes l r s : analysis_of l r ->
  let r' := calc_largest_consumption (Z.of_nat (List.length l)) (stat_bytes s) r in
  leader stat_bytes (l ++ [s]) (most_used_bytes r') (most_consumed_server r')
  /\ longest_uptime r' = longest_uptime r /\ oldest_server r' = oldest_server r
  /\ least_remaining_bytes r' = least_remaining_bytes r /\ least_free_server r' = least_free_server r.
Proof.
  intros [Hb _ _ _]. cbv zeta. unfold calc_largest_consumption. pose proof (leader_best _ _ _ _ Hb).
  destruct (Z.ltb_spec (most_used_bytes r) (stat_bytes s)); (split; [|done]); cbn [most_used_bytes most_consumed_server].
  - eapply (leader_moves stat_bytes); [exact Hb|lia].
  - by apply leader_keeps.
Qed.

Lemma step_uptime l r s who : leader (fun s => u32 (stat_uptime s)) l (longest_uptime r) (oldest_server r) ->
  who = Z.of_nat (List.length l) ->
  let r' := calc_oldest_node who (u32 (stat_uptime s)) r in
  leader (fun s => u32 (stat_uptime s)) (l ++ [s]) (longest_uptime r') (oldest_server r')
  /\ most_used_bytes r' = most_used_bytes r /\ most_consumed_server r' = most_consumed_server r
  /\ least_remaining_bytes r' = least_remaining_bytes r /\ least_free_server r' = least_free_server r.
Proof.
  intros Hb ->. cbv zeta. unfold calc_oldest_node. pose proof (leader_best _ _ _ _ Hb).
  destruct (Z.ltb_spec (longest_uptime r) (u32 (stat_uptime s))); (split; [|done]); cbn [longest_uptime oldest_server].
  - eapply (leader_moves (fun s => u32 (stat_uptime s))); [exact Hb|lia].
  - by apply leader_keeps.
Qed.

Lemma step_free l r s who : server_with_room s -> 0 <= least_remaining_bytes r < 2 ^ 64 ->
  leader (fun s => 2 ^ 64 - remaining s) l
    (if least_remaining_bytes r =? 0 then 0 else 2 ^ 64 - least_remaining_bytes r) (least_free_server r) ->
  who = Z.of_nat (List.length l) ->
  let r' := calc_least_free_node who (stat_limit_maxbytes s) (stat_bytes s) r in
  leader (fun s => 2 ^ 64 - remaining s) (l ++ [s])
    (if least_remaining_bytes r' =? 0 then 0 else 2 ^ 64 - least_remaining_bytes r') (least_free_server r')
  /\ 0 <= least_remaining_bytes r' < 2 ^ 64
  /\ most_used_bytes r' = most_used_bytes r /\ most_consumed_server r' = most_consumed_server r
  /\ longest_uptime r' = longest_uptime r /\ oldest_server r' = oldest_server r.
Proof.
  intros (Hroom & Hb & Hmax) Hrange Hl ->. cbv zeta. unfold calc_least_free_node. fold (remaining s).
  assert (0 < remaining s < 2 ^ 64) as Hrem by (unfold remaining in *; lia).
  assert (u64 (remaining s) = remaining s) as -> by (apply Z.mod_small; lia).
  destruct ((least_remaining_bytes r =? 0) || (remaining s <? least_remaining_bytes r)) eqn:E;
    cbn [least_remaining_bytes least_free_server]; (split; [|split; [lia|done]]).
  - rewrite (proj2 (Z.eqb_neq (remaining s) 0)) by lia. eapply (leader_moves (fun s => 2 ^ 64 - remaining s)); [exact Hl|].
    apply orb_true_iff in E. destruct (Z.eqb_spec (least_remaining_bytes r) 0); [lia|]. destruct E as [|E%Z.ltb_lt]; [done|lia].
  - apply orb_false_iff in E as [E1 E2%Z.ltb_ge]. rewrite E1 in *. apply leader_keeps; [done|lia].
Qed.

(** With a server at all, the last case of [leader] applies. *)
Lemma least_of_leader l r : analysis_of l r -> Forall server_with_room l -> l <> [] ->
  (exists x, l !! Z.to_nat (least_free_server r) = Some x /\ remaining x = least_remaining_bytes r)
  /\ (forall i x, l !! i = Some x -> least_remaining_bytes r <= remaining x)
  /\ (forall i x, Z.of_nat i < least_free_server r -> l !! i = Some x -> least_remaining_bytes r < remaining x).
Proof.
  intros [_ _ [Hle Hw] Hr] Hroom Hne. destruct l as [|s l]; [done|]. apply Forall_cons in Hroom as [(Hrem & Hb & Hm) _].
  pose proof (Hle 0%nat s eq_refl) as Hs. cbv beta in Hs. unfold remaining in Hs at 1.
  destruct (Z.eqb_spec (least_remaining_bytes r) 0) as [E|E]; [unfold remaining in *; lia|].
  destruct Hw as [?|(_ & _ & (x & Hx & Hf) & Hlt)]; [lia|].
  split; [exists x; split; [done|lia]|]. split.
  - intros i y Hy%Hle. lia.
  - intros i y Hi Hy. pose proof (Hlt i y Hi Hy). lia.
Qed.

Lemma analyze_loop_ok l : forall l0 t r, analysis_of l0 r -> Forall server_with_room l ->
  Z.of_nat (List.length (l0 ++ l)) < UINT_MOD ->
  analysis_of (l0 ++ l) (analyze_loop (Z.of_nat (List.length l0)) l t r).2.
Proof.
  induction l as [|s l IH]; intros l0 t r Ha Hl Hn; cbn [analyze_loop]; [by rewrite app_nil_r|].
  apply Forall_cons in Hl as [Hs Hl].
  replace (u32 (Z.of_nat (List.length l0) + 1)) with (Z.of_nat (List.length (l0 ++ [s]))).
  2:{ rewrite !length_app in *. cbn [List.length] in *. rewrite u32_small; lia. }
  replace (l0 ++ s :: l) with ((l0 ++ [s]) ++ l) in * by (by rewrite <- app_assoc).
  apply IH; [|done|done]. pose proof Ha as [_ Hu Hf Hr].
  destruct (step_bytes l0 r s Ha) as (H1 & E1 & E2 & E3 & E4).
  set (r1 := calc_largest_consumption _ _ r) in *. rewrite <- E1, <- E2 in Hu. rewrite <- E3, <- E4 in Hf. rewrite <- E3 in Hr.
  destruct (step_uptime l0 r1 s _ Hu eq_refl) as (H2 & F1 & F2 & F3 & F4).
  set (r2 := calc_oldest_node _ _ r1) in *. rewrite <- F3, <- F4 in Hf. rewrite <- F3 in Hr. rewrite <- F1, <- F2 in H1.
  destruct (step_free l0 r2 s _ Hs Hr Hf eq_refl) as (H3 & H4 & G1 & G2 & G3 & G4).
  set (r3 := calc_least_free_node _ _ _ r2) in *. split; [by rewrite G1, G2|by rewrite G3, G4|done|done].
Qed.

(** The sums, which are 64-bit. *)
Definition sum_of (f : Stat -> Z) (l : list Stat) : Z := foldl (fun t s => u64 (t + f s)) 0 l.

Lemma analyze_loop_totals l : forall x t r, (analyze_loop x l t r).1 =
  mkTotals (foldl (fun t s => u64 (t + stat_curr_items s)) (total_items t) l) (foldl (fun t s => u64 (t + stat_bytes s)) (total_bytes t) l)
    (foldl (fun t s => u64 (t + stat_cmd_get s)) (total_get_cmds t) l) (foldl (fun t s => u64 (t + stat_get_hits s)) (total_get_hits t) l).
Proof. induction l as [|s l IH]; intros x t r; cbn [analyze_loop foldl]; [by destruct t|]. by rewrite IH. Qed.

Lemma analyze_loop_average l : forall x t r, average_item_size (analyze_loop x l t r).2 = average_item_size r.
Proof.
  induction l as [|s l IH]; intros x t r; cbn [analyze_loop]; [done|]. rewrite IH.
  unfold calc_least_free_node, calc_oldest_node, calc_largest_consumption. by repeat case_match.
Qed.

Section Analysis.
Context `{DM : DataModel} `{AL : Allocator}.

(** C12. What [memcached_analyze] finds when it gets memory and every server has some left: the
    servers that have the most bytes, run longest and have the least memory left, the first of them
    when there are several, the size of an average item and the share of the requests that hit. *)
Theorem analysis_leaders s l :
  l <> [] -> List.length l = List.length (servers (memc (ses_root s))) -> Z.of_nat (List.length l) < UINT_MOD ->
  Forall server_with_room l ->
  grants (allocs (ses_root s)) (ulong (Z.of_nat (List.length l) * sizeof_analysis)) = true ->
  exists r s', memcached_analyze (Some l) s = (Ret (MEMCACHED_SUCCESS, Some r), s')
    /\ leader stat_bytes l (most_used_bytes r) (most_consumed_server r)
    /\ leader (fun s => u32 (stat_uptime s)) l (longest_uptime r) (oldest_server r)
    /\ ((exists x, l !! Z.to_nat (least_free_server r) = Some x /\ remaining x = least_remaining_bytes r)
        /\ (forall i x, l !! i = Some x -> least_remaining_bytes r <= remaining x)
        /\ (forall i x, Z.of_nat i < least_free_server r -> l !! i = Some x -> least_remaining_bytes r < remaining x))
    /\ average_item_size r = (if (0 <? sum_of stat_curr_items l) && (0 <? sum_of stat_bytes l)
                              then u32 (sum_of stat_bytes l / sum_of stat_curr_items l) else 0)
    /\ pool_hit_ratio r = hit_ratio (sum_of stat_get_hits l) (sum_of stat_cmd_get l).
Proof.
  intros Hne Hlen Hn Hroom Hg. unfold memcached_analyze, bind at 1, sconf, gets, memcached_server_count. rewrite <- Hlen.
  unfold bind at 1, at_root, alloc. cbn [root inst]. rewrite Hg. cbn [negb].
  rewrite Z.ltb_irrefl, (proj2 (Z.eqb_neq _ 0)), Nat2Z.id, firstn_all by (by destruct l). cbn [orb].
  pose proof (analyze_loop_ok l [] (mkTotals 0 0 0 0) new_analysis analysis_new Hroom Hn) as Ha.
  pose proof (analyze_loop_totals l 0 (mkTotals 0 0 0 0) new_analysis) as Ht. cbn [List.length Z.of_nat app] in *.
  change (Z.of_nat 0) with 0 in Ha. destruct (analyze_loop 0 l (mkTotals 0 0 0 0) new_analysis) as [t r] eqn:E. cbn [fst snd] in *. subst t. pose proof Ha as [Hb Hu _ _].
  pose proof (analyze_loop_average l 0 (mkTotals 0 0 0 0) new_analysis) as Havg. rewrite E in Havg. cbn [snd] in Havg.
  cbn [total_items total_bytes total_get_cmds total_get_hits] in *. fold (sum_of stat_curr_items l) (sum_of stat_bytes l).
  fold (sum_of stat_get_hits l) (sum_of stat_cmd_get l). unfold ret, calc_average_item_size, calc_hit_ratio.
  destruct ((0 <? sum_of stat_curr_items l) && (0 <? sum_of stat_bytes l)); do 2 eexists; (split; [reflexivity|]);
    cbn [most_used_bytes most_consumed_server longest_uptime oldest_server least_free_server least_remaining_bytes
      average_item_size pool_hit_ratio]; (split; [exact Hb|]; split; [exact Hu|]; split; [exact (least_of_leader l r Ha Hroom Hne)|]);
    (split; [first [reflexivity|exact Havg]|reflexivity]).
Qed.
End Analysis.

(** ** Flags *)

(** The flags that is.h and flag.cc keep in the member of another one. *)
Definition same_member (f g : memcached_flag_t) : Prop :=
  match f, g with
  | MEMCACHED_FLAG_REPLY, MEMCACHED_FLAG_SUPPORT_CAS | MEMCACHED_FLAG_SUPPORT_CAS, MEMCACHED_FLAG_REPLY
  | MEMCACHED_FLAG_USE_SORT_HOSTS, MEMCACHED_FLAG_TCP_KEEPALIVE | MEMCACHED_FLAG_TCP_KEEPALIVE, MEMCACHED_FLAG_USE_SORT_HOSTS => True
  | _, _ => f = g
  end.

(** Setting a flag is seen when it is read, and through the flags that share its member; every
    other flag keeps its value. In particular [support_cas] and [tcp_keepalive] cannot be reached
    by these functions. *)
Lemma flag_set_get m f g arg :
  (same_member f g -> memcached_flag (memcached_flag_set m f arg) g = arg)
  /\ (~ same_member f g -> memcached_flag (memcached_flag_set m f arg) g = memcached_flag m g).
Proof. split; intros H; destruct f, g; first [reflexivity|contradiction|discriminate H|exfalso; apply H; exact I|exfalso; apply H; reflexivity]. Qed.

Lemma cas_and_keepalive_unreachable m f arg :
  let f' := client_flags (memcached_flag_set m f arg) in
  support_cas f' = support_cas (client_flags m) /\ tcp_keepalive f' = tcp_keepalive (client_flags m).
Proof. by destruct f. Qed.

(** ** Callbacks *)

Section Callbacks.
Context `{DM : DataModel} `{HC : HashConfig} `{AL : Allocator} `{CF : ClientConfig} `{CK : Clock} `{CC : CipherConfig}.
Context `{BR : BinaryReader} `{TR : Transport} `{SS : SessionSort} `{RB : Rebuilding} `{CS : ClientSizes} `{SZ : SocketSizes}.

(** A pointer that was set without an error is the one that is got, and the client is unchanged.
    A delete trigger needs replies that are not buffered. *)
Lemma callback_set_get flag data s c :
  flag <> MEMCACHED_CALLBACK_PREFIX_KEY -> flag <> MEMCACHED_CALLBACK_MAX -> data <> NULL ->
  buffer_requests (flags (memc (ses_root s))) = false -> reply (flags (memc (ses_root s))) = true ->
  exists c', memcached_callback_set flag data (s, c) = (Ret MEMCACHED_SUCCESS, (s, c'))
    /\ memcached_callback_get flag (s, c') = (Ret (data, MEMCACHED_SUCCESS), (s, c')).
Proof.
  intros Hp Hm Hd Hb Hr.
  assert (on_client (memcached_behavior_get MEMCACHED_BEHAVIOR_BUFFER_REQUESTS) (s, c) = (Ret 0, (s, c))) as E1.
  { unfold on_client, memcached_behavior_get. cbn. by rewrite Hb. }
  assert (on_client (memcached_behavior_get MEMCACHED_BEHAVIOR_NOREPLY) (s, c) = (Ret 0, (s, c))) as E2.
  { unfold on_client, memcached_behavior_get. cbn. by rewrite Hr. }
  assert (forall f c', f c' = data -> gets (fun x : Session * Callbacks => (f x.2, if bool_decide (f x.2 = NULL) then MEMCACHED_FAILURE else MEMCACHED_SUCCESS))
    (s, c') = (Ret (data, MEMCACHED_SUCCESS), (s, c'))) as Hget.
  { intros f c' Hf. unfold gets. cbn [snd]. rewrite Hf. by rewrite bool_decide_eq_false_2. }
  destruct flag; try done; [eexists; split; [reflexivity|by apply (Hget _)]..|].
  unfold memcached_callback_set. rewrite (bool_decide_eq_false_2 _ Hd). unfold bind at 1. run E1. cbv iota. cbn [Z.eqb negb].
  run E2. eexists. split; [reflexivity|by apply (Hget delete_trigger)].
Qed.
End Callbacks.

(** ** Versions *)

(** The check of one server. *)
Definition version_enough (wanted : Z * Z * Z) (server : Server) : bool :=
  let '(major, minor, micro) := versions server.2 in
  negb (major =? 255) && (wanted.1.1 <=? major) && (wanted.1.2 <=? minor) && (wanted.2 <=? micro).

Lemma version_cursor wanted l : forall errors truth,
  exists e, cursor_loop [check_server_version wanted] l errors truth = Ret (e, truth && forallb (version_enough wanted) l).
Proof.
  destruct wanted as [[a b] c]. induction l as [|[h i] l IH]; intros errors truth; cbn [cursor_loop call_each forallb].
  - exists errors. by rewrite andb_true_r.
  - unfold check_server_version, version_enough at 1. cbn [snd]. destruct (versions i) as [[x y] z]. cbn [obind fst snd].
    destruct (negb (x =? 255) && (a <=? x) && (b <=? y) && (c <=? z)); cbn [obind fst snd].
    + apply IH.
    + destruct (IH (if memcached_failed MEMCACHED_FAILURE then errors + 1 else errors) false) as (e & E). exists e.
      rewrite andb_false_r. exact E.
Qed.

Section Versions.
Context `{DM : DataModel} `{AL : Allocator} `{CF : ClientConfig} `{CK : Clock} `{CC : CipherConfig}.
Context `{BR : BinaryReader} `{TR : Transport} `{MP : MultiPoll}.

(** When the versions of the servers could be found, the answer is whether each of them has every
    one of the three numbers at least as large as wanted. *)
Lemma version_check_all major minor micro s rc s' :
  memcached_version s = (Ret rc, s') -> memcached_failed rc = false -> servers (memc (ses_root s')) <> [] ->
  libmemcached_util_version_check major minor micro s
    = (Ret (forallb (version_enough (major, minor, micro)) (servers_of s')), s').
Proof.
  intros E Hrc Hne. unfold libmemcached_util_version_check. run E. rewrite Hrc. unfold memcached_server_cursor, memcached_server_count.
  rewrite (proj2 (Z.eqb_neq _ 0)) by (destruct (servers (memc (ses_root s'))); [done|cbn; lia]).
  destruct (version_cursor (major, minor, micro) (servers_of s') 0 true) as (e & ->). done.
Qed.
End Versions.

(** A server of version 2.0.0 is not enough where 1.4.5 is wanted. *)
Lemma newer_version_refused h i : versions i = (2, 0, 0) -> version_enough (1, 4, 5) (h, i) = false.
Proof. intros E. unfold version_enough. cbn [snd]. by rewrite E. Qed.

(** ** Dumps *)

(** An item as a server lists it: its key, and what is behind it. *)
Definition item_entry (kv : cstring * cstring) : Prop :=
  forallb isgraph kv.1 = true /\ (LF ∉ kv.2) /\ size kv.1 + size kv.2 + 8 < MEMCACHED_DEFAULT_COMMAND_SIZE.
Definition item_text (kv : cstring * cstring) : cstring := lit "ITEM " ++ kv.1 ++ SP :: kv.2.
Definition item_lines (kvs : list (cstring * cstring)) : cstring := List.concat (map (fun kv => item_text kv ++ CRLF) kvs).

Lemma dump_key_ok kv junk : item_entry kv -> exists buffer, dump_key (item_text kv ++ junk) = Ret (kv.1, buffer).
Proof.
  destruct kv as [k v]. intros (Hk & _). cbn [fst snd] in *. unfold item_text. cbn [fst snd].
  set (pre := lit "ITEM "). assert (List.length pre = 5%nat) as Hpre by done.
  assert ((pre ++ k ++ SP :: v) ++ junk = pre ++ k ++ SP :: (v ++ junk)) as -> by (by rewrite <- !app_assoc).
  unfold dump_key. rewrite (skip_while_app isgraph pre k _ SP 5) by done. cbn [obind].
  rewrite (app_assoc pre), (poke_app (pre ++ k) _ SP zero) by (rewrite length_app; lia). cbn [obind].
  eexists. f_equal. f_equal. rewrite <- app_assoc. replace (5 + List.length k - 5)%nat with (List.length k) by lia.
  rewrite <- Hpre, drop_app_length. apply take_app_length.
Qed.

Lemma item_no_lf kv : item_entry kv -> LF ∉ item_text kv.
Proof.
  intros (Hk & Hv & _). unfold item_text. rewrite !not_elem_of_app, not_elem_of_cons. rewrite forallb_forall in Hk. repeat split.
  - apply (bool_decide_unpack _). by vm_compute.
  - intros Hl%list_elem_of_In%Hk. done.
  - done.
  - done.
Qed.

Section DumpCalls.
Context `{DM : DataModel} `{AL : Allocator} `{CF : ClientConfig} `{CK : Clock} `{CC : CipherConfig}.
Context `{BR : BinaryReader} `{TR : Transport} `{MP : MultiPoll}.
Context {A : Type} (callback : list (cstring -> A -> memcached_return_t * A)).

(** The functions on a key when all of them succeed. *)
Definition called (key : cstring) (context : A) : A := foldl (fun a f => (f key a).2) context callback.
Context (Hok : forall f key a, f ∈ callback -> (f key a).1 = MEMCACHED_SUCCESS).

Lemma dump_calls_ok key context : dump_calls callback key context = (None, called key context).
Proof.
  unfold called. revert context. induction callback as [|f l IH]; intros context; cbn [dump_calls foldl]; [done|].
  pose proof (Hok f key context ltac:(by constructor)) as E. destruct (f key context) as [rc c]. cbn [fst snd] in *. subst rc.
  cbn. apply IH. intros g k a Hg. apply Hok. by constructor.
Qed.

(** One server with an outstanding response is the one that is read from; without one, and
    without input, there is none. *)
Lemma readable_owing r i : rd_ok (rd i) -> 0 < cursor_active_ i ->
  memcached_io_get_readable_server (mkSession r [i]) = (Ret (Some 0), mkSession r [i]).
Proof.
  intros Hrd Hc. unfold memcached_io_get_readable_server, bind at 1, gets. cbn [ses_insts]. unfold MAX_SERVERS_TO_POLL. cbn [poll_set].
  rewrite (proj2 (Z.ltb_lt _ _) Hc). destruct (0 <? read_buffer_length (rd i)); [done|]. cbn. by rewrite (proj2 (Z.ltb_lt _ _) Hc).
Qed.

Lemma readable_none r i : rd_ok (rd i) -> incoming i [] -> cursor_active_ i = 0 ->
  memcached_io_get_readable_server (mkSession r [i]) = (Ret None, mkSession r [i]).
Proof.
  intros Hrd (chunks & _ & _ & Hs) Hc. symmetry in Hs. apply app_eq_nil in Hs as [Hu _].
  assert (read_buffer_length (rd i) = 0) as Hl.
  { apply (f_equal List.length) in Hu. rewrite unread_length in Hu by done. pose proof (rd_len _ Hrd). cbn in Hu. lia. }
  unfold memcached_io_get_readable_server, bind at 1, gets. cbn [ses_insts]. unfold MAX_SERVERS_TO_POLL. cbn [poll_set].
  rewrite Hl, Hc. cbn. by rewrite Hc.
Qed.

(** The answer of a server to one of the requests of a dump, in whatever pieces it comes: the
    functions are called with every key, in order. *)
Lemma dump_collect_keys kvs : forall fuel buffer context r i,
  text_client r -> fd i = true -> rd_ok (rd i) -> 1 <= cursor_active_ i <= 2 ->
  incoming i ((if cursor_active_ i =? 2 then END_LINE else []) ++ item_lines kvs ++ END_LINE) ->
  Forall item_entry kvs -> (List.length kvs < fuel)%nat ->
  exists i', dump_collect callback fuel buffer context (mkSession r [i])
      = (Ret (None, foldl (fun a kv => called kv.1 a) context kvs), mkSession r [i'])
    /\ reads (set_cursor 0 i) i' /\ rd_ok (rd i') /\ incoming i' [].
Proof using Hok.
  induction kvs as [|kv kvs IH]; intros fuel buffer context r i Ht Hfd Hrd Hc Hin He Hn; (destruct fuel as [|fuel]; [cbn in Hn; lia|]);
    cbn [dump_collect foldl]; run (readable_owing r i Hrd ltac:(lia)).
  - destruct (response_into_last buffer MEMCACHED_DEFAULT_COMMAND_SIZE (result r) r i _ Ht Hfd Hrd Hc Hin ltac:(done))
      as (buf & i1 & E & Hr1 & Hrd1 & Hin1).
    assert (cursor_active_ i1 = 1 /\ fd i1 = true) as [Hc1 Hf1] by (by destruct Hr1 as (? & ? & ? & ->)).
    destruct (read_one_code buf MEMCACHED_DEFAULT_COMMAND_SIZE (result r) r i1 (lit "END") MEMCACHED_END [] Ht Hf1 Hrd1)
      as (buf2 & i2 & E2 & Hr2 & Hrd2 & Hin2); [|split; [|split; done]|done|done|by rewrite Hc1|].
    { exact Hin1. } { apply (bool_decide_unpack _). by vm_compute. }
    assert (dump_response callback buffer context (mkCtx r i) = (Ret (inr (buf2, context)), mkCtx r i2)) as Ed.
    { unfold dump_response, bind at 1, getr, gets. cbn [root]. rewrite E2 in E. run E.
      unfold bind, on_root, modify, ret. cbn [root inst]. by rewrite set_result_same. }
    run (at_instance_mid _ [] i [] r _ r i2 0 eq_refl Ed). rewrite Hc1 in Hr2. change (1 - 1) with 0 in Hr2.
    assert (cursor_active_ i2 = 0) as Hc2 by (by destruct Hr2 as (? & ? & ? & ->)).
    destruct fuel; cbn [dump_collect app]; run (readable_none r i2 Hrd2 Hin2 Hc2);
      (exists i2; split; [done|]; split; [|done]; eapply reads_trans, Hr2; exact (reads_cursor 0 _ _ Hr1)).
  - apply Forall_cons in He as [Hkv He]. unfold item_lines in Hin. cbn [map List.concat] in Hin. rewrite <- !app_assoc in Hin.
    destruct (response_into_last buffer MEMCACHED_DEFAULT_COMMAND_SIZE (result r) r i _ Ht Hfd Hrd Hc Hin ltac:(done))
      as (buf & i1 & E & Hr1 & Hrd1 & Hin1).
    assert (cursor_active_ i1 = 1 /\ fd i1 = true) as [Hc1 Hf1] by (by destruct Hr1 as (? & ? & ? & ->)).
    destruct (read_one_counted buf (result r) r i1 (item_text kv) MEMCACHED_ITEM _ Ht Hf1 Hrd1 Hin1 (item_no_lf kv Hkv))
      as (junk & i2 & E2 & Hr2 & Hrd2 & Hin2); [|done|done|by rewrite Hc1|].
    { destruct Hkv as (_ & _ & Hsz). unfold item_text. rewrite !size_app. change (size (lit "ITEM ")) with 5.
      unfold size in *. cbn [List.length] in *. lia. }
    assert (cursor_active_ i2 = 1 /\ fd i2 = true) as [Hc2 Hf2] by (by destruct Hr2 as (? & ? & ? & ->)).
    destruct (dump_key_ok kv (CRLF ++ junk) Hkv) as (buf3 & E3).
    assert (dump_response callback buffer context (mkCtx r i) = (Ret (inr (buf3, called kv.1 context)), mkCtx r i2)) as Ed.
    { unfold dump_response, bind at 1, getr, gets. cbn [root]. rewrite E2 in E. run E.
      unfold bind at 1, on_root, modify. cbn [root inst]. rewrite set_result_same.
      unfold bind at 1, lift. rewrite E3. cbn [fst snd]. by rewrite dump_calls_ok. }
    run (at_instance_mid _ [] i [] r _ r i2 0 eq_refl Ed). cbn [app].
    destruct (IH fuel buf3 (called kv.1 context) r i2 Ht Hf2 Hrd2) as (i3 & E4 & Hr3 & Hrd3 & Hin3); [lia| |done|cbn in Hn; lia|].
    { rewrite Hc2. exact Hin2. }
    exists i3. rewrite E4. split; [done|]. split; [|done].
    eapply reads_trans, Hr3. eapply reads_trans; [exact (reads_cursor 0 _ _ Hr1)|exact (reads_cursor 0 _ _ Hr2)].
Qed.
End DumpCalls.

(** ** Concrete servers *)

#[local] Existing Instance ILP32.
#[local] Existing Instance demo_hash.
#[local] Existing Instance demo_memory.
#[local] Existing Instance demo_build.
#[local] Existing Instance demo_clock.
#[local] Existing Instance demo_cipher.
#[local] Existing Instance demo_random_source.
#[local] Existing Instance demo_resolver.
#[local] Existing Instance demo_rebuilding.
#[local] Existing Instance demo_redistribution.
#[local] Existing Instance demo_sizes.
#[local] Existing Instance demo_session_sort.
#[local] Existing Instance demo_client_sizes.
#[local] Existing Instance no_poll.

(** A client whose first server will accept the connection and send these pieces. *)
Definition answering (pieces : list cstring) : Birth :=
  mkBirth 0 0 E_OK (fun _ => replicate (Z.to_nat 8196) zero)
    (fun _ => [DialSocket (mkSocket (map RecvBytes pieces) (replicate 300 (SendUpTo 100)) [] []) None]).

(** A server that is pinged gets the request for its version and is left in order. *)
Lemma ping_session :
  let x := libmemcached_util_ping (answering [lit "VERSION 1.4"; lit ".5" ++ CRLF]) (Some (lit "h")) 11211
             (new_session (answering [])) in
  x.1 = Ret (true, MEMCACHED_SUCCESS)
  /\ map (fun i => wire (net i)) (ses_insts x.2) = [lit "version" ++ CRLF ++ lit "quit" ++ CRLF].
Proof. split; vm_compute; reflexivity. Qed.

(** The failure behind MEMCACHED_SOME_ERRORS is looked for among the errors of the server. The
    answer ERROR leaves none there, so that the ping is a success although the call failed. *)
Lemma ping_succeeds_on_error :
  let b := answering [lit "ERROR" ++ CRLF] in
  (libmemcached_util_ping b (Some (lit "h")) 11211 (new_session b)).1 = Ret (true, MEMCACHED_SUCCESS)
  /\ ((let* _ := memcached_server_add b (Some (lit "h")) 11211 in memcached_version) (new_session b)).1 = Ret MEMCACHED_SOME_ERRORS.
Proof. split; vm_compute; reflexivity. Qed.

(** The process that a server names, and the code when it does not know the request. *)
Lemma getpid_session :
  (let b := answering [lit "STAT pid 42" ++ CRLF ++ lit "END" ++ CRLF] in
   (libmemcached_util_getpid b (Some (lit "h")) 11211 (new_session b)).1 = Ret (42, MEMCACHED_SUCCESS))
  /\ (let b := answering [lit "ERROR" ++ CRLF] in
      (libmemcached_util_getpid b (Some (lit "h")) 11211 (new_session b)).1 = Ret (-1, MEMCACHED_INVALID_ARGUMENTS)).
Proof. split; vm_compute; reflexivity. Qed.

(** The one code that is a success and a failure. *)
Lemma item_succeeds_and_fails rc : memcached_success rc = memcached_failed rc <-> rc = MEMCACHED_ITEM.
Proof. split; [destruct rc; by vm_compute|by intros ->]. Qed.

(** A dump that collects the keys. *)
Definition dump_session (b : Birth) : outcome (memcached_return_t * list cstring) :=
  ((let* _ := memcached_server_add b (Some (lit "h")) 11211 in
    memcached_dump [fun key l => (MEMCACHED_SUCCESS, l ++ [key])] []) (new_session b)).1.

Lemma dump_all_classes :
  dump_session (answering ([lit "ITEM k1 [1 b; 2 s]" ++ CRLF ++ lit "ITEM k"; lit "2 [1 b; 2 s]" ++ CRLF ++ lit "END" ++ CRLF]
    ++ replicate 199 (lit "END" ++ CRLF))) = Ret (MEMCACHED_SUCCESS, [lit "k1"; lit "k2"]).
Proof. vm_compute. reflexivity. Qed.

(** An error for one of the classes, which is to be skipped, ends the program. *)
Lemma dump_aborts_on_server_error :
  dump_session (answering [lit "END" ++ CRLF; lit "SERVER_ERROR failed to allocate memory" ++ CRLF]) = Stuck AssertionFailed.
Proof. vm_compute. reflexivity. Qed.

(** The level reaches the server over a connection of its own. *)
Lemma verbosity_session :
  let b := answering [lit "OK" ++ CRLF] in
  match ((let* _ := memcached_server_add b (Some (lit "h")) 11211 in memcached_verbosity (fun _ => b) 3) (new_session b)).1 with
  | Ret (rc, l) => rc = MEMCACHED_SUCCESS
      /\ map (fun s => map (fun i => wire (net i)) (ses_insts s)) l = [[lit "verbosity 3" ++ CRLF ++ lit "quit" ++ CRLF]]
  | _ => False
  end.
Proof. vm_compute. split; reflexivity. Qed.

(** Three servers: the bytes they hold, their limits, how long they run, items, requests and hits. *)
Definition demo_stat (bytes limit uptime items gets hits : Z) : Stat :=
  put_bytes bytes (put_limit_maxbytes limit (put_uptime uptime (put_curr_items items (put_cmd_get gets (put_get_hits hits new_Stat))))).
Definition demo_stats : list Stat := [demo_stat 100 1000 50 2 10 5; demo_stat 700 800 90 3 20 10; demo_stat 700 2000 20 5 10 5].
Definition three_servers : Session :=
  mkSession (set_memc (with_servers demo_memc (replicate 3 (mkInstance (lit "a") 11211 1 0))) demo_root) [].

Lemma analysis_leaders_witness : exists r s', memcached_analyze (Some demo_stats) three_servers = (Ret (MEMCACHED_SUCCESS, Some r), s')
  /\ leader stat_bytes demo_stats (most_used_bytes r) (most_consumed_server r)
  /\ (most_consumed_server r, oldest_server r, least_free_server r, average_item_size r) = (1, 1, 1, 150)
  /\ pool_hit_ratio r = double_of 50.
Proof.
  destruct (analysis_leaders three_servers demo_stats) as (r & s' & E & Hb & _); [discriminate|reflexivity|reflexivity| |reflexivity|].
  - repeat (apply Forall_cons_2; [split; [reflexivity|split; [discriminate|reflexivity]]|]). apply Forall_nil_2.
  - exists r, s'. split; [exact E|]. split; [exact Hb|].
    assert (memcached_analyze (Some demo_stats) three_servers
      = (Ret (MEMCACHED_SUCCESS, Some (mkAnalysis 150 90 1 1 1 (double_of 50) 700 100)),
         mkSession (set_allocs 1 (ses_root three_servers)) [])) as E' by (vm_compute; reflexivity).
    rewrite E' in E. injection E as <- _. split; reflexivity.
Defined.

(** A server without memory left is taken for one that was not looked at: the next one becomes the
    server with the least memory. *)
Lemma full_server_overlooked :
  least_free_server (analyze_loop 0 [demo_stat 1000 1000 1 1 1 1; demo_stat 0 900 1 1 1 1] (mkTotals 0 0 0 0) new_analysis).2 = 1.
Proof. vm_compute. reflexivity. Qed.
