(* ===== verification/TheoremsConfig.v ===== *)
(** * Theorems about configurations *)

From stdpp Require Import base list.
From Stdlib Require Import ZArith Lia Ascii String.
From S2P Require Import Prelude CxxString HashWords HashSmall HashKit HashkitString Rijndael Aes Continuum ClientTypes Distribution.
From S2P Require Import ByteOrder ClientString ClientState BinaryProtocol ClientRead ClientWrite ClientConnect ClientOps ClientBehavior ClientClone.
From S2P Require Import ClientPool DemoClient ClientServers ConfigTables ConfigScanner ConfigScannerSpec ConfigRules ConfigParser ConfigGrammar ConfigPrint.
From S2P Require Import TheoremsBehavior TheoremsPool.

(** ** The scanner *)

(** The tokens of a text by the rules: again and again the longest beginning that a rule matches,
    the first rule of several. The end of the line is no part of a comment (rule 6). *)
Inductive tokens : bool -> cstring -> list (Z * cstring) -> Prop :=
  | tokens_end bol : tokens bol [] []
  | tokens_next bol text a n l :
    longest bol text a n ->
    let m := if a =? 6 then (n - 1)%nat else n in
    (1 <= m)%nat -> tokens (ends_line (take m text) bol) (drop m text) l -> tokens bol text ((a, take m text) :: l).

(** All matches of the automaton up to the end of the text. *)
Fixpoint scan_all (fuel : nat) (s : Scan) : outcome (list (Z * cstring)) :=
  match fuel with
  | O => Stuck OutOfFuel
  | S fuel =>
    let? x := next_match s in
    let '(act, yytext, s) := x in
    if act =? 0 then Ret [] else
    let? l := scan_all fuel s in
    Ret ((act, yytext) :: l)
  end.

Lemma scan_all_ok fuel s : between s -> (List.length (rest s) < fuel)%nat ->
  exists l, scan_all fuel s = Ret l /\ tokens (yy_at_bol s) (rest s) l.
Proof.
  revert s. induction fuel as [|fuel IH]; intros s Hb Hf; [lia|]. cbn [scan_all]. destruct (next_match_ok s Hb) as (s' & Hs).
  destruct (decide (rest s = [])) as [E|Hne].
  - rewrite E in Hs. assert (token_of (yy_at_bol s) [] = (0, 0%nat)) as Ht.
    { unfold token_of. destruct (verdict _ []) as [[q m]|] eqn:Hv; [apply verdict_inside in Hv; cbn in Hv; lia|done]. }
    rewrite Ht in Hs. destruct Hs as (-> & _). exists []. rewrite E. split; [done|constructor].
  - destruct (verdict_longest (yy_at_bol s) (rest s) Hne) as (q & n & Hv & Hl). pose proof (verdict_inside _ _ _ _ Hv) as [Ha _].
    destruct (token_of (yy_at_bol s) (rest s)) as [act m] eqn:Ht. pose proof (token_progress _ _ _ _ Ht Hne) as Hm.
    unfold token_of in Ht. rewrite Hv in Ht. injection Ht as <- Em. destruct Hs as (-> & Hb' & Hr & Hbol). cbn [obind].
    rewrite (proj2 (Z.eqb_neq (accepts q) 0)) in Hbol |- * by lia.
    destruct (IH s' Hb') as (l & -> & Hl'); [rewrite Hr, length_drop; destruct (rest s); [done|cbn in *; lia]|].
    exists ((accepts q, take m (rest s)) :: l). split; [done|]. rewrite Hr, Hbol in Hl'. rewrite <- Em in *.
    by apply tokens_next.
Qed.

(** The scanner follows scanner.l: on every text of less than 2^29 characters the automaton of flex,
    with its compressed tables and with a buffer that it fills in blocks, moves and enlarges, ends
    and finds the tokens that the regular expressions define. *)
Theorem scanner_follows_rules text : size text < MAX_TEXT ->
  exists l, scan_all (S (List.length text)) (new_Scan text) = Ret l /\ tokens true text l.
Proof.
  intros Hs. destruct (new_Scan_between text Hs) as [Hb Hr].
  destruct (scan_all_ok (S (List.length text)) (new_Scan text) Hb) as (l & E & Ht); [rewrite Hr; lia|]. rewrite Hr in Ht. by exists l.
Qed.

(** ** The parser *)

Section Parsing.
Context `{DM : DataModel} `{HC : HashConfig} `{AL : Allocator} `{CF : ClientConfig} `{CK : Clock} `{CC : CipherConfig}.
Context `{BR : BinaryReader} `{TR : Transport} `{SS : SessionSort} `{RB : Rebuilding} `{CS : ClientSizes} `{FS : Files}.
Context (b : Birth).

(** The parser follows parser.yy: on every text of less than 2^29 characters the automaton of bison
    does what the grammar says, file by file. It makes the same calls in the same order, reads no
    more tokens, runs the action of a statement before it sees what follows, stops at the same
    place with the same error, and never runs out of its stack of 200 states. *)
Theorem parser_follows_grammar depth text c : size text < MAX_TEXT ->
  memcached_parse_configuration b depth text c = grammar_configuration b depth text c.
Proof. apply configuration_by_grammar. Qed.

(** The client with the memory of the string of [Context] taken. *)
Definition count_buffer (c : Client) : Client :=
  mkClient (mkSession (set_allocs (S (allocs (ses_root (cl_session c)))) (ses_root (cl_session c))) (ses_insts (cl_session c)))
    (initial_pool_size c) (max_pool_size c).

Lemma buffer_created k : grants k 2048 = true ->
  exists s, memcached_string_create 1024 k = (Ret (Some s), S k) /\ buffer_ok s.
Proof.
  intros Hg. pose proof ULONG_MOD_ge as HM. unfold UINT_MOD in HM.
  exists (mkMString 0 (Some (map char_of (fresh k 2048))) 2048). split.
  - assert (ulong 0 = 0 /\ ulong 1024 = 1024 /\ ulong 2 = 2 /\ ulong 2048 = 2048) as (E0 & E1 & E2 & E3) by (repeat split; apply ulong_small; lia).
    unfold memcached_string_create, _string_check. cbn [_init_string str_size str_end str_mem]. unfold MEMCACHED_BLOCK_SIZE.
    change (0 - 0) with 0. rewrite E0. change (negb (1024 =? 0) && (0 <? 1024)) with true. cbv iota. change (1024 - 0) with 1024. rewrite E1.
    change (1024 / 1024 + 1) with 2. rewrite E2. change (2 * 1024 + 0) with 2048. change (0 + 1024 * 2) with 2048. rewrite E3.
    change (2048 <? 1024) with false. cbv iota. unfold bind, xrealloc. rewrite Hg. cbn [default]. by rewrite drop_0.
  - split; [split; cbn|by eexists|done]; [lia|lia|]. unfold size. rewrite length_map. by apply size_fresh.
Qed.

(** What a configuration says is done: the text of a list of directives, with a blank between them,
    makes exactly the calls on the client that the directives stand for, in their order, up to the
    first one that fails; then the result is MEMCACHED_PARSE_ERROR. Servers get their names, ports
    and weights, behaviours their numbers, quoted namespaces their characters. *)
Theorem configuration_applied depth ds c : ds <> [] -> forallb well_formed ds = true -> size (print_directives ds) < MAX_TEXT ->
  grants (allocs (ses_root (cl_session c))) 2048 = true ->
  memcached_parse_configuration b depth (print_directives ds) c = enact b ds false MEMCACHED_SUCCESS (count_buffer c).
Proof.
  intros Hne Hw Hs Hg. rewrite configuration_by_grammar by done. set (text := print_directives ds) in *.
  assert (forall include, parse_text (statements b include (S (List.length text)) no_value) text c = enact b ds false MEMCACHED_SUCCESS (count_buffer c)) as H;
    [|destruct depth; apply H].
  intros include. unfold parse_text. destruct (buffer_created _ Hg) as (s & E & Hbuf). destruct (new_Scan_between text Hs) as [Hb Hr].
  set (p := mkParsing (count_buffer c) (mkContext MEMCACHED_SUCCESS false false [] false s) (new_Scan text)).
  assert (good false MEMCACHED_SUCCESS (count_buffer c) p) as Hp by by split.
  assert (List.length ds <= S (List.length text))%nat as Hl by (unfold text; apply print_length; done).
  pose proof (statements_enact b include ds Hne Hw (S (List.length text)) false MEMCACHED_SUCCESS (count_buffer c) no_value p Hl Hp (conj Hb Hr)) as He.
  unfold bind at 1, in_session, at_root, with_allocs. cbn [ps_client root]. rewrite E. cbn [root default].
  unfold bind, on_context, modify, getc, gets. cbn [ps_client ps_context ps_scan]. rewrite <- He. fold (count_buffer c).
  change (mkParsing (count_buffer c) (set_string_buffer (id s) _) (new_Scan text)) with p.
  by destruct (statements b include _ no_value p) as [[z|x|x] p'].
Qed.
End Parsing.

(** ** Witnesses *)

Lemma scanner_follows_rules_witness :
  size (lit "--SERVER=localhost:80") < MAX_TEXT
  /\ exists l, scan_all 22 (new_Scan (lit "--SERVER=localhost:80")) = Ret l /\ tokens true (lit "--SERVER=localhost:80") l.
Proof. split; [reflexivity|apply (scanner_follows_rules (lit "--SERVER=localhost:80")); reflexivity]. Defined.

#[local] Existing Instance ILP32.
#[local] Existing Instance demo_hash.
#[local] Existing Instance demo_memory.
#[local] Existing Instance demo_build.
#[local] Existing Instance demo_clock.
#[local] Existing Instance demo_cipher.
#[local] Existing Instance demo_random_source.
#[local] Existing Instance demo_resolver.
#[local] Existing Instance demo_rebuilding.
#[local] Existing Instance demo_redistribution.
#[local] Existing Instance demo_sizes.
#[local] Existing Instance demo_session_sort.
#[local] Existing Instance demo_client_sizes.
#[local] Existing Instance no_binary_reader.
#[local] Existing Instance no_transport.

(** A file that can be included, and a new client. *)
Definition demo_files : Files := {| fopen := fun _ => inr (lit "--POOL-MIN=7") |}.
#[local] Existing Instance demo_files.
Definition demo_birth : Birth := mkBirth 0 0 E_OK (fun _ => []) (fun _ => []).
Definition demo_config_client : Client := mkClient (new_session demo_birth) 1 1.
Definition demo_directives : list directive :=
  [Server (lit "localhost") (Some 11221) (Some 4); Number Tok.POLL_TIMEOUT 500; Flag Tok._TCP_NODELAY; Hash Tok.MD5; PoolMax 9; Namespace (lit "site:")].

Lemma parser_follows_grammar_witness :
  size (lit "INCLUDE abc --POOL-MAX=8") < MAX_TEXT
  /\ memcached_parse_configuration demo_birth 1 (lit "INCLUDE abc --POOL-MAX=8") demo_config_client
      = grammar_configuration demo_birth 1 (lit "INCLUDE abc --POOL-MAX=8") demo_config_client
  /\ fst (grammar_configuration demo_birth 1 (lit "INCLUDE abc --POOL-MAX=8") demo_config_client) = Ret MEMCACHED_SUCCESS.
Proof. split; [reflexivity|split; [apply parser_follows_grammar; reflexivity|vm_compute; reflexivity]]. Defined.

Lemma configuration_applied_witness :
  forallb well_formed demo_directives = true /\ size (print_directives demo_directives) < MAX_TEXT
  /\ memcached_parse_configuration demo_birth 1 (print_directives demo_directives) demo_config_client
      = enact demo_birth demo_directives false MEMCACHED_SUCCESS (count_buffer demo_config_client)
  /\ fst (enact demo_birth demo_directives false MEMCACHED_SUCCESS (count_buffer demo_config_client)) = Ret MEMCACHED_SUCCESS.
Proof.
  split; [vm_compute; reflexivity|split; [vm_compute; reflexivity|split; [|vm_compute; reflexivity]]].
  apply configuration_applied; [discriminate|vm_compute; reflexivity|vm_compute; reflexivity|reflexivity].
Defined.
