(* ===== verification/TheoremsNet.v ===== *)
(** * Theorems about the binary protocol and connecting

    Storage operations and items over the binary protocol, and the witness of the refinement
    theorem of ClientConnectSpec, whose [Redistribution] is the distribution of hosts.cc. *)

From stdpp Require Import base list.
From Stdlib Require Import ZArith Lia Ascii String.
From S2P Require Import Prelude CxxString HashWords HashSmall HashKit HashkitString Rijndael Aes Continuum ClientTypes Distribution.
From S2P Require Import ByteOrder ClientString ClientState BinaryProtocol ClientRead ClientBinary ClientReadSpec.
From S2P Require Import ClientBinarySpec ClientWrite ClientWriteSpec ClientOps ClientBinaryOps ClientGet ClientFrameOps.
From S2P Require Import ClientBinaryStoreSpec ClientConnect ClientConnectSpec TheoremsDist ClientGetSpec DemoClient.

(** ** Storage *)

Section Storage.
Context `{DM : DataModel} `{AL : Allocator} `{CF : ClientConfig} `{CK : Clock} `{CC : CipherConfig}.
Context `{TR : Transport} `{KR : KeyRouter} `{RS : RandomSource}.
#[local] Existing Instance binary_requests.

(** C2. Storage over the binary protocol: whatever the command (set, add, replace, append, prepend,
    cas), the request is one packet of the protocol on the wire of the key's server, its key with
    the client's prefix, its numbers with the most significant byte first; errors of earlier quiet
    requests are passed over, and the operation returns the code of its own response, leaving the
    connection ready for the next one. *)
Theorem binary_store a r pre i post qs p rc rest n :
  let key := _namespace (memc r) ++ st_key a in
  let request := packet PROTOCOL_BINARY_REQ (store_packet (_namespace (memc r)) a (next_id i)) in
  binary_client r -> servers (memc r) <> [] -> valid_key (st_key a) -> routes_to (memc r) (st_key a) (List.length pre) ->
  size key < 65536 -> 8 + size key + size (st_value a) < UINT_MOD ->
  binary_ready r i (responses qs ++ packet PROTOCOL_BINARY_RES p ++ rest) (List.length request + n) ->
  Forall quiet_error qs -> packet_ok p -> answers_with p rc -> memcached_fatal rc = false ->
  exists r' i', memcached_send (st_key a) a (mkSession r (pre ++ i :: post)) = (Ret rc, mkSession r' (pre ++ i' :: post))
    /\ memc r' = memc r /\ binary_ready r' i' rest n /\ wire (net i') = wire (net i) ++ request.
Proof.
  intros key request Hb Hsv Hk Hro Hks Hvs Hrdy Hqs Hp Ha Hf. set (r' := routed (begun r)).
  assert (binary_client r') as Hb' by (destruct Hb; by split).
  destruct (send_binary_ok a r' pre i post qs p rc rest n Hb' Hks Hvs) as (i' & E & Hi & Hwire & _); [|done..|].
  { destruct Hrdy as [Hw ? ? ? ?]. split; try done. by eapply writable_same. }
  exists r', i'. split; [|done]. unfold memcached_send.
  rewrite (bind_Ret _ _ _ _ _ (initialize_query_ok r _ Hsv)). change (memcached_failed MEMCACHED_SUCCESS) with false. cbv iota.
  rewrite (bind_Ret _ _ _ _ _ (key_test_ok [st_key a] _ (proj2 (Forall_singleton _ _) Hk))).
  change (memcached_failed MEMCACHED_SUCCESS) with false. cbv iota.
  rewrite (bind_Ret _ _ _ _ _ (pick_server_ok (st_key a) (List.length pre) (begun r) _ Hro)). fold r'.
  unfold bind at 1, sconf, gets. cbn [ses_root]. rewrite (bc_plain r' Hb').
  unfold send_value, bind, sconf, gets. cbn [ses_root]. rewrite (bc_binary r' Hb'), (bc_reply r' Hb'), (bc_direct r' Hb').
  cbn [andb negb memcached_send_binary binary_requests]. exact E.
Qed.

(** C3. An item of a binary response, behind any number of errors of quiet requests and cut into
    any pieces by the network, is read whole: its key without the client's prefix, its flags, its
    cas number and its value, byte for byte, and nothing of what follows it is taken. *)
Theorem binary_item_read (Hgrants : forall j n, grants j n = true) ns k f opq c data qs rest buf blen x r i :
  let p := item_packet PROTOCOL_BINARY_CMD_GETK (ns ++ k) data f opq c in
  use_udp (flags (memc r)) = false -> fd i = true -> _namespace (memc r) = ns -> packet_ok p ->
  k <> [] -> size (ns ++ k) <= MEMCACHED_MAX_KEY -> 0 <= f < UINT_MOD ->
  rd_ok (rd i) -> Forall quiet_error qs -> incoming i (responses qs ++ packet PROTOCOL_BINARY_RES p ++ rest) ->
  mstring_ok (res_value x) -> fits (res_value x) (size data) ->
  exists v i' n, binary_read buf blen x (mkCtx r i)
      = (Ret (MEMCACHED_SUCCESS, buf, mkResult k f c 0 v UINT64_MAX (res_count x)), mkCtx (set_allocs n r) i')
    /\ mstring_ok v /\ str_chars v = data /\ str_end v = size data /\ rd_ok (rd i') /\ incoming i' rest.
Proof.
  intros p Hu Hfd Hns Hp Hk Hsz Hf Hrd Hqs Hin Hok Hfit. pose proof (incoming_bound i qs _ Hrd Hin) as Hb.
  unfold binary_read, bind at 1, geti, gets. cbn [inst].
  set (n := (to_read _ + _)%nat) in *. assert (exists m, S n = (List.length qs + S m)%nat) as (m & ->) by (exists (n - List.length qs)%nat; lia).
  destruct (quiet_errors_skipped qs (S m) buf blen x r i _ Hu Hfd Hrd Hqs Hin) as (i1 & -> & R1 & Hrd1 & Hin1).
  assert (fd i1 = true) as Hfd1 by (destruct R1 as (? & ? & ? & ->); done).
  destruct (header_ok m buf blen x r i1 p rest Hu Hfd1 Hrd1 Hp Hin1) as (i2 & -> & R2 & Hrd2 & Hin2).
  assert (fd i2 = true) as Hfd2 by (destruct R2 as (? & ? & ? & ->); done).
  destruct (item_ok Hgrants ns k f opq c data rest buf blen x r i2 (binary_response_loop m buf blen x) Hu Hfd2 Hns Hp Hk Hsz Hf
    Hrd2 Hin2 Hok Hfit) as (v & i3 & a & E & Hv & Hc & He & _ & Hrd3 & Hin3).
  by exists v, i3, a.
Qed.
End Storage.

(** ** The statements at concrete inputs *)

#[local] Existing Instance ILP32.
#[local] Existing Instance demo_memory.
#[local] Existing Instance demo_build.
#[local] Existing Instance demo_clock.
#[local] Existing Instance demo_cipher.
#[local] Existing Instance no_transport.
#[local] Existing Instance demo_router.

#[local] Existing Instance binary_requests.
Definition demo_random : RandomSource := {| random_value := fun _ => 4 |}.
#[local] Existing Instance demo_random.

(** The client of DemoClient with the binary protocol. *)
Definition binary_memc : Memcached := with_flags demo_memc
  {| auto_eject_hosts := false; binary_protocol := true; buffer_requests := false;
     hash_with_namespace := false; no_block := false; reply := true; randomize_replica_read := false;
     support_cas := false; tcp_nodelay := false; use_sort_hosts := false; use_udp := false;
     verify_key := true; tcp_keepalive := false; is_fetching_version := false |}.
Definition binary_root : Root := set_memc binary_memc demo_root.

(** The error of a quiet request that failed earlier. *)
Definition late_error : Packet := mkPacket PROTOCOL_BINARY_CMD_SETQ 3 [] [] (lit "Too large") 7 0.
Definition exists_error : Packet := mkPacket PROTOCOL_BINARY_CMD_ADD 2 [] [] (lit "Data exists for key") 65536 0.

Ltac packet_ok := split; vm_compute; repeat split; discriminate.

Lemma late_error_quiet : quiet_error late_error.
Proof. split; [packet_ok|]. split; [reflexivity|]. split; [vm_compute; reflexivity|]. by eexists. Qed.

(** The bytes of [s] in pieces of seven. *)
Fixpoint cut (n : nat) (s : cstring) : list cstring :=
  match n, s with
  | O, _ | _, [] => []
  | S n, _ => take 7 s :: cut n (drop 7 s)
  end.

Definition demo_add : StoreArgs := mkStore (lit "key") (lit "hello") 60 7 0 ADD_OP.
Definition demo_response : cstring := responses [late_error] ++ packet PROTOCOL_BINARY_RES exists_error ++ [].

Lemma binary_store_witness :
  exists r' i', memcached_send (lit "key") demo_add (mkSession binary_root ([demo_inst 0 []] ++ demo_inst 1 (cut 20 demo_response) :: []))
      = (Ret MEMCACHED_DATA_EXISTS, mkSession r' ([demo_inst 0 []] ++ i' :: []))
    /\ memc r' = binary_memc /\ binary_ready r' i' [] 100
    /\ wire (net i') = packet PROTOCOL_BINARY_REQ (store_packet (lit "ns:") demo_add 1).
Proof.
  apply (binary_store demo_add binary_root [demo_inst 0 []] (demo_inst 1 (cut 20 demo_response)) [] [late_error] exists_error
    MEMCACHED_DATA_EXISTS [] 100).
  - by split.
  - done.
  - split; [done|]. split; reflexivity.
  - eapply (router_stable _ _ _ _ _ _ _ _ binary_memc (lit "key") 1 binary_memc 0); [reflexivity|done|lia|vm_compute; reflexivity].
  - vm_compute. reflexivity.
  - vm_compute. reflexivity.
  - split; [split|..].
    + done.
    + done.
    + split; [done|]. split; done.
    + done.
    + split; [apply Forall_replicate; lia|]. apply Nat.leb_le. vm_compute. reflexivity.
    + done.
    + by split.
    + done.
    + exists (cut 20 demo_response). split; [done|]. split; [|vm_compute; reflexivity].
      repeat constructor; discriminate.
  - constructor; [apply late_error_quiet|constructor].
  - packet_ok.
  - by apply answer_error.
  - reflexivity.
Defined.

Lemma demo_granted j n : @grants demo_memory j n = true.
Proof. done. Qed.

Definition demo_item : Packet := item_packet PROTOCOL_BINARY_CMD_GETK (lit "ns:key") (lit "hello") 7 65536 11.
Definition demo_item_text : cstring := responses [late_error] ++ packet PROTOCOL_BINARY_RES demo_item ++ lit "next".

Lemma binary_item_read_witness :
  exists v i' n, binary_read [] 0 new_Result (mkCtx binary_root (demo_inst 1 (cut 20 demo_item_text)))
      = (Ret (MEMCACHED_SUCCESS, [], mkResult (lit "key") 7 11 0 v UINT64_MAX 0), mkCtx (set_allocs n binary_root) i')
    /\ mstring_ok v /\ str_chars v = lit "hello" /\ str_end v = 5 /\ rd_ok (rd i') /\ incoming i' (lit "next").
Proof.
  apply (binary_item_read demo_granted (lit "ns:") (lit "key") 7 65536 11 (lit "hello") [late_error] (lit "next") [] 0
    new_Result binary_root (demo_inst 1 (cut 20 demo_item_text))).
  - done.
  - done.
  - done.
  - packet_ok.
  - done.
  - vm_compute. discriminate.
  - unfold UINT_MOD. lia.
  - by split.
  - constructor; [apply late_error_quiet|constructor].
  - exists (cut 20 demo_item_text). split; [done|]. split; [|vm_compute; reflexivity].
    repeat constructor; discriminate.
  - by split.
  - vm_compute. repeat split; discriminate.
Defined.

(** ** Connecting *)

(** [run_distribution] as the rebuilding of the client. *)
Definition demo_rebuild : Redistribution := {|
  redistribute := fun _ m => @run_distribution ILP32 demo_hash demo_build merge_items merge_hosts (replicate 64 0) (fun _ _ _ => Ret 0) 0
    (fun _ => zero) (Some 1000) true (fun _ => mkItem 0 0) m;
|}.
Definition demo_network : Network :=
  {| getaddrinfo := fun _ _ _ => GaiOk [true; true]; so_error := fun _ => inl E_OK; setsockopt_ok := fun _ => true |}.
#[local] Existing Instance demo_rebuild.
#[local] Existing Instance demo_network.
#[local] Existing Instance no_binary_reader.

(** A server that failed four times, the last time before 1000, and is not connected. *)
Definition failing_server (dials : list dial_event) : Inst :=
  mkInst 1 false (mkSocket [] [] [] []) (mkRead (replicate (Z.to_nat 8196) zero) 0 0 0) [] 0 0
    MEMCACHED_SERVER_STATE_IN_TIMEOUT false 4 3 (255, 255, 255) 0 (mkDial MEMCACHED_CONNECTION_TCP None [] dials) [].
Definition failing_root : Root :=
  set_query_id 9 (set_memc (with_servers demo_memc [mkInstance (lit "a") 11211 1 0; mkInstance (lit "b") 11211 1 998]) demo_root).

(** The fifth failure: both addresses refuse, and the server may be tried again after 1002. *)
Lemma connect_refines_witness :
  exists r' i', connect_server (mkCtx failing_root (failing_server [refused (mkSocket [] [] [] []); refused (mkSocket [] [] [] [])]))
      = (Ret MEMCACHED_SERVER_TEMPORARILY_DISABLED, mkCtx r' i')
    /\ health (memc r') i' = mkHealth true 1002 5
    /\ (true = false -> dial i' = mkDial MEMCACHED_CONNECTION_TCP None [] [refused (mkSocket [] [] [] []); refused (mkSocket [] [] [] [])])
    /\ fd i' = false
    /\ (ok_code MEMCACHED_SERVER_TEMPORARILY_DISABLED = true -> None = Some (net i')).
Proof.
  apply (@connect_refines ILP32 demo_memory demo_build demo_clock demo_cipher no_binary_reader demo_network demo_rebuild
    demo_granted (fun _ => eq_refl) [true; true] ltac:(done) 1000 (fun _ => eq_refl) failing_root
    (failing_server [refused (mkSocket [] [] [] []); refused (mkSocket [] [] [] [])]) None).
  - intros t m' [->|[u ->]]; by eexists.
  - by split.
  - done.
  - done.
  - done.
  - done.
  - exact (answers_none [mkSocket [] [] [] []; mkSocket [] [] [] []] []).
Defined.
