(* ===== verification/TheoremsClient.v ===== *)
(** * Theorems about the client library

    The text protocol of libmemcached: framing of responses and requests, whole operations, a
    client and the server of this repository together, and the places where the client does
    not do what it should. *)

From stdpp Require Import base list gmap strings.
From Stdlib Require Import ZArith Lia Ascii String.
From S2P Require Import Prelude CxxString MersenneTwister DbLru DbLruInv DbLruRefine.
From S2P Require Import DbLruRefine Commands CommandsParse CommandsSpec CommandsGet.
From S2P Require Import CommandsGet Connection ConnectionSpec ThreadPool.
From S2P Require Import SocketMain Main Demo TheoremsSock.
From S2P Require Import HashWords HashKit HashkitString Rijndael Aes Continuum ClientTypes.
From S2P Require Import ClientString ClientState ClientRead ClientReadSpec ClientWrite ClientWriteSpec.
From S2P Require Import ClientWriteSpec ClientOps ClientGet ClientFrameOps ClientGetSpec DemoClient.

(** ** The client and the server together *)

(** A graphic text is one word of a command line. *)
Lemma graphic_token k : graphic k -> token k.
Proof.
  unfold graphic, token. rewrite forallb_forall. intros H. split; intros Hin; apply list_elem_of_In, H in Hin; done.
Qed.

(** A number of at most 19 digits fits its array. *)
Lemma display_int_ok x : 0 <= x < 10 ^ 19 -> display_int x = Some (SP :: to_string x).
Proof.
  intros Hx. unfold display_int, display, MEMCACHED_MAXIMUM_INTEGER_DISPLAY_LENGTH.
  rewrite size_cons. pose proof (to_string_size x 19 Hx ltac:(lia)). by rewrite (proj2 (Z.leb_gt _ _)) by lia.
Qed.

(** The request that [memcached_set] makes is the line the server's [set] reads. *)
Lemma set_vector ns k data f :
  0 <= f < UINT_MOD -> size data < 2 ^ 29 ->
  exists vector, ascii_request ns (mkStore k data 0 f 0 SET_OP) true = Some vector
    /\ List.concat vector = text (set_request (ns ++ k) (to_string f) data).
Proof.
  intros Hf Hd. pose proof (size_nonneg data). unfold UINT_MOD in Hf. unfold ascii_request. cbn [st_flags st_expiration st_value st_cas st_key st_verb].
  rewrite u32_small by (unfold UINT_MOD; lia). unfold u64. rewrite !Z.mod_small by (change (2 ^ 29) with 536870912 in *; lia).
  change (2 ^ 29) with 536870912 in *.
  rewrite !display_int_ok by (change (10 ^ 19) with 10000000000000000000; lia). cbn [Z.eqb].
  eexists. split; [reflexivity|]. unfold text, set_request, storage_line. cbn [List.concat req_line req_data nr_text storage_op_string].
  change (to_string 0) with (lit "0"). change (lit "set ") with (lit "set" ++ [SP]).
  rewrite !app_nil_r, !app_nil_l. do 9 (rewrite <- ?app_assoc; cbn [app]). done.
Qed.

Section Together.
#[local] Existing Instance ILP32.
Context {E : Env} {CE : @CalmEnv ILP32 E}.
Context `{AL : Allocator} `{CF : ClientConfig} `{CK : Clock} `{CC : CipherConfig}.
Context `{BR : BinaryReader} `{TR : Transport} `{KR : KeyRouter} `{BQ : BinaryRequests} `{MP : MultiPoll}.

(** A program of a client: it stores a value and reads it back. *)
Definition set_and_get (k data : cstring) (f : Z) : SIO (memcached_return_t * Fetched) :=
  let* rc := memcached_set k data 0 f in
  let* v := memcached_get k in
  ret (rc, v).

Lemma says_stored : says (lit "STORED") MEMCACHED_STORED.
Proof. split; [|done]. apply (bool_decide_unpack _). by vm_compute. Qed.

(** C1. The whole path through client and server: a client that stores a value and reads it back,
    under a new key of a key prefix or none, one of any number of servers, over a connection whose
    bytes are cut into any pieces in both directions and taken by the kernel in any portions, gets
    SUCCESS and then its own data and flags, when its peer is the server of this repository; what
    it has put on the wire is what that server received. *)
Theorem client_server_round_trip (w w' : World) r pre i post k data f pieces c :
  let key := _namespace (memc r) ++ k in
  let rs := [set_request key (to_string f) data; get_request key] in
  text_client r -> List.length (servers (memc r)) = List.length (pre ++ i :: post) ->
  support_cas (flags (memc r)) = false -> valid_key k -> routes_to (memc r) k (List.length pre) ->
  at_rest r pre -> at_rest r post -> (forall j n, grants j n = true) ->
  0 <= f < UINT_MOD -> data <> [] -> CR ∉ data -> size (texts rs) < 2 ^ 29 ->
  size (value_line key f (size data) None) < MEMCACHED_DEFAULT_COMMAND_SIZE ->
  str_size (res_value (result r)) < 2 ^ 29 ->
  ready_for 4 w -> roomy w key (to_string f) data -> abs w key = None -> flush_time w = None ->
  Forall (fun b => b <> []) pieces -> List.concat pieces = texts rs ->
  sockHandleIncomingConn (stream pieces) w = (Ret (ConnClosed, c), w') ->
  wire (net i) = [] -> cursor_active_ i = 0 -> ready r i (List.concat (sent c)) (List.length (texts rs)) ->
  exists r' pre' i' post', set_and_get k data f (mkSession r (pre ++ i :: post))
      = (Ret (MEMCACHED_SUCCESS, mkFetched (Some (data ++ [zero])) (size data) [] f MEMCACHED_SUCCESS),
         mkSession r' (pre' ++ i' :: post'))
    /\ wire (net i') = List.concat pieces.
Proof.
  intros key rs Ht Hlen Hcas Hk Hro Hpre Hpost Hg Hf Hne Hcr Hsz Hline Hres Hok Hroomy Hno Hfl Hch Htx Hrun Hwire Hcur Hrdy.
  assert (graphic key) as Gkey.
  { unfold graphic, key. rewrite forallb_app. apply andb_true_intro. split; [apply (tc_namespace r Ht)|by apply valid_key_graphic]. }
  assert (size data < 2 ^ 29) as Hd.
  { unfold rs in Hsz. rewrite texts_cons, size_app in Hsz. unfold text, set_request in Hsz. cbn [req_line req_data] in Hsz.
    rewrite !size_app in Hsz. change (size CRLF) with 2 in Hsz.
    pose proof (size_nonneg (storage_line (lit "set") key (to_string f) (lit "0") (to_string (size data)) false)).
    pose proof (size_nonneg (texts [get_request key])). lia. }
  assert (0 < size data) as Hpos by (destruct data; [done|rewrite size_cons; pose proof (size_nonneg data); lia]).
  (* the server's replies *)
  destruct (session_round_trip w key (to_string f) data pieces (graphic_token key Gkey) (to_string_token f ltac:(lia)) Hcr Hne Hsz Hch Htx
    Hok Hroomy Hno Hfl) as (w2 & c2 & Hrun2 & Hsent).
  rewrite Hrun in Hrun2. injection Hrun2 as <- <-. rewrite Hsent in Hrdy. cbn [List.concat] in Hrdy. rewrite app_nil_r in Hrdy.
  (* the request of set *)
  destruct (set_vector (_namespace (memc r)) k data f Hf Hd) as (vector & Hv & Hvt). fold key in Hvt.
  assert (List.length (texts rs) = List.length (List.concat vector) + (List.length (get_line r k ++ CRLF) + 0))%nat as Hcap.
  { unfold rs, texts. cbn [List.map List.concat]. rewrite Hvt, !length_app, Nat.add_0_r. f_equal.
    unfold text, get_request, keys_line, get_line. cbn [req_line req_data List.map List.concat]. fold key.
    rewrite !length_app. cbn. lia. }
  assert (servers (memc r) <> []) as Hsv by (intros Hs; rewrite Hs, length_app in Hlen; cbn in Hlen; lia).
  set (rest := lit "VALUE " ++ key ++ [SP] ++ to_string f ++ [SP] ++ to_string (size data) ++ CRLF ++ data ++ CRLF ++ Commands.line "END") in *.
  rewrite Hcap in Hrdy.
  destruct (store_ok (mkStore k data 0 f 0 SET_OP) vector r pre i post (lit "STORED") MEMCACHED_STORED rest
    (List.length (get_line r k ++ CRLF) + 0) Ht Hsv Hk Hro Hv)
    as (r1 & i1 & E1 & Ht1 & Hm1 & Hs1 & _ & Hrdy1 & Hw1 & Hc1); [|apply says_stored|done|by left|].
  { by rewrite app_assoc. }
  assert (is_purging r1 = is_purging r) as Hp1 by (by rewrite (tc_quiet _ Ht1), (tc_quiet _ Ht)).
  (* the answer of get *)
  assert (rest = value_line (_namespace (memc r1) ++ k) f (size data) None ++ data ++ CRLF ++ END_LINE ++ []) as Hrest.
  { rewrite Hm1. fold key. unfold rest, value_line, VALUE, END_LINE, Commands.line. cbn [cas_text].
    rewrite app_nil_r, app_nil_l. do 6 (rewrite <- ?app_assoc; cbn [app]). done. }
  rewrite Hrest in Hrdy1. assert (get_line r k = get_line r1 k) as Hgl by (unfold get_line; by rewrite Hm1). rewrite Hgl in Hrdy1.
  destruct (get_value_ok Hg k f data r1 pre i1 post [] 0 Ht1) as (r2 & pre2 & i2 & post2 & E2 & _ & _ & _ & _ & _ & _ & Hw2);
    rewrite ?Hm1; try done; try (by eapply at_rest_same).
  { rewrite Hlen, !length_app. done. } { by rewrite Hm1 in Hrdy1. }
  { rewrite Hs1. unfold ULONG_MOD, MEMCACHED_BLOCK_SIZE. cbn. change (2 ^ 29) with 536870912 in *. unfold UINT_MOD. lia. }
  exists r2, pre2, i2, post2. split.
  - unfold set_and_get, memcached_set. cbn [st_key] in E1. run E1. run E2.
    by rewrite (proj2 (Z.eqb_neq (size data) 0)) by lia.
  - rewrite Hw2, Hw1, Hwire, app_nil_l, Hvt, Htx, <- Hgl. unfold rs, texts. cbn [List.map List.concat]. rewrite app_nil_r. f_equal.
    unfold text, get_request, keys_line, get_line. cbn [req_line req_data List.map List.concat]. fold key.
    do 3 (rewrite <- ?app_assoc, ?app_nil_r; cbn [app]). done.
Qed.
End Together.

(** ** The statements at concrete inputs *)

#[local] Existing Instance ILP32.
#[local] Existing Instance demo_env.
#[local] Existing Instance demo_calm.
#[local] Existing Instance demo_memory.
#[local] Existing Instance demo_build.
#[local] Existing Instance demo_clock.
#[local] Existing Instance demo_cipher.
#[local] Existing Instance no_binary_reader.
#[local] Existing Instance no_transport.
#[local] Existing Instance no_binary_requests.
#[local] Existing Instance no_poll.
#[local] Existing Instance demo_router.

(** The pieces in which the two directions of the connection are cut. *)
Definition demo_requests : list cstring :=
  [lit "set ns:key 7 0 5" ++ [CR]; [LF] ++ lit "he"; lit "llo" ++ CRLF ++ lit "ge"; lit "t ns:key" ++ CRLF].
Definition demo_replies : list cstring :=
  [lit "STO"; lit "RED" ++ CRLF ++ lit "VALUE ns:key 7 5" ++ [CR]; [LF] ++ lit "hello" ++ CRLF ++ lit "EN"; lit "D" ++ CRLF].

Lemma client_server_round_trip_witness :
  exists r' pre' i' post', set_and_get (lit "key") (lit "hello") 7 (mkSession demo_root [demo_inst 0 []; demo_inst 1 demo_replies])
      = (Ret (MEMCACHED_SUCCESS, mkFetched (Some (lit "hello" ++ [zero])) 5 [] 7 MEMCACHED_SUCCESS),
         mkSession r' (pre' ++ i' :: post'))
    /\ wire (net i') = List.concat demo_requests.
Proof.
  destruct (session_round_trip demo_world (lit "ns:key") (lit "7") (lit "hello") demo_requests) as (w' & c & Hrun & Hsent);
    [decide_token|decide_token|decide_token|done|vm_compute; reflexivity|repeat constructor; done
    |vm_compute; reflexivity|by apply demo_world_ready|by apply demo_roomy|reflexivity|reflexivity|].
  apply (client_server_round_trip demo_world w' demo_root [demo_inst 0 []] (demo_inst 1 demo_replies) []
    (lit "key") (lit "hello") 7 demo_requests c).
  - exact demo_text.
  - reflexivity.
  - reflexivity.
  - split; [done|]. split; reflexivity.
  - eapply (router_stable _ _ _ _ _ _ _ _ demo_memc (lit "key") 1 demo_memc 0); [reflexivity|done|lia|vm_compute; reflexivity].
  - constructor; [|constructor]. apply demo_ready; [constructor|reflexivity|lia].
  - constructor.
  - reflexivity.
  - unfold UINT_MOD. lia.
  - done.
  - decide_token.
  - vm_compute. reflexivity.
  - vm_compute. reflexivity.
  - vm_compute. reflexivity.
  - by apply demo_world_ready.
  - by apply demo_roomy.
  - reflexivity.
  - reflexivity.
  - repeat constructor; done.
  - vm_compute. reflexivity.
  - exact Hrun.
  - reflexivity.
  - reflexivity.
  - apply demo_ready; [repeat constructor; done|rewrite Hsent; vm_compute; reflexivity|].
    apply Nat.leb_le. vm_compute. reflexivity.
Defined.
